(* ===== verification/_CoqProject ===== *)
-Q . S2P
Prelude.v
Lock.v
Pmmap.v
Pmm.v
Container.v
Mem.v
Vmm.v
VmmSpec.v
Str.v
Copy.v
Fmt.v
FmtSpec.v
Serial.v
Video.v
Keyboard.v
Console.v
ConsoleSpec.v
InputSpec.v
User.v
UserSpec.v
Thread.v
Queue.v
Sched.v
Ide.v
IdeSpec.v
Bufcache.v
BlockIO.v
Log.v
LogSpec.v
Block.v
Inode.v
File.v
Tf.v
Sysfile.v
Frame.v
InodeSpec.v
FileSpec.v
Seg.v
Apic.v
ApicSpec.v
Mp.v
MpSpec.v
Trap.v
TrapSpec.v
ElfSpec.v
Init.v
InitSpec.v
StartSpec.v
PutsSpec.v
ProcSpec.v
Boot.v
BootSpec.v
