(* ===== verification/Prelude.v ===== *)
(** * A verification of mCertiKOS

    mCertiKOS (src/mCertiKOS) is a small x86 operating system kernel: paged
    memory with quotas, threads and user processes, traps, a disk driver and a
    journaling file system.  This library is a shallow embedding of the
    kernel's C code and of the assembly on the way in and out of it, with
    proofs of what the parts do.  Paths below are relative to src/mCertiKOS.

    ** How code is modelled

    A C function is a Rocq function of the same name in the monad [K St] of
    this file: it transforms the state [St], the globals of its component,
    and ends in one of five outcomes, [Ok] with a result, [Panic] (KERN_PANIC
    or a failed KERN_ASSERT), [Fault] (an array index out of range or a null
    pointer), [Spin] (a lock that can never become free, or a sleep that
    nothing ends) and [OutOfFuel].  unsigned int and uint32_t are integers
    with [u32] written out where an operation can wrap around; signed
    overflow is a [Fault] through [int_add].  Global arrays are finite maps
    whose absent entries hold zero, as the BSS does; the functions check the
    index before every access.  Physical memory is one map of bytes (Mem.v),
    in which page directories, page tables and user pages live.  Components
    are composed by lenses: [zoom l m] runs [m] on the part [l] of the state.

    Loops are [for_range] when the bounds are fixed and [while] otherwise.
    [while] allows 2^33 iterations, more than any loop here makes, since each
    is bounded by a 32-bit counter or by the length of a linked list; every
    theorem shows that the fuel suffices, because [wp m Q s] says that [m]
    returns from [s] with a result that satisfies [Q], and so excludes
    [OutOfFuel] together with panics, faults and deadlocks.

    Addresses the linker chooses are fields of the classes [layout],
    [fs_layout], [sys_layout], [seg_layout] and [prog_layout]; the firmware's
    memory map, the presence of disks, the answer of cpuid and the registers
    and memory that user code leaves are arguments.  The theorems hold for
    all of them.

    ** The files

    - Lock.v: kern/lib/types, kstack, spinlock, reentrant_lock; the spinlock
      also as a step relation of several processors.
    - Pmmap.v, Pmm.v, Container.v: kern/dev/mboot, kern/pmm (MATIntro, MATInit,
      MATOp, MContainer): memory map, page allocator, quotas.
    - Mem.v, Vmm.v, VmmSpec.v: physical memory, kern/vmm (MPTIntro to
      MPTInit), the walk of the memory management unit and the invariant of
      the page tables.
    - Str.v, Copy.v: kern/lib/string with user/lib/string, kern/lib/pmap.
    - Thread.v, Queue.v, Sched.v: kern/thread and kern/pcpu; the thread queues
      as lists; the scheduler.
    - Ide.v, IdeSpec.v, Bufcache.v, BlockIO.v: kern/dev/disk/ide with the
      controller behind its ports, kern/fs/bufcache.
    - Log.v, LogSpec.v, Block.v: kern/fs/log, kern/fs/block, crashes and
      recovery.
    - Inode.v, File.v, Tf.v, Sysfile.v: kern/fs/inode, file, dir, path,
      sysfile, and kern/trap/TSyscallArg.  Frame.v, InodeSpec.v and FileSpec.v
      have their specifications.
    - Seg.v, Trap.v, TrapSpec.v, PutsSpec.v: kern/lib/seg, kern/dev/intr and
      idt.S, kern/lib/elf, kern/proc, kern/trap, kern/init; what user
      processes see of the kernel.

    The state of a later component contains that of the ones it calls: [pmm]
    in [cont] in [vm] in [thr] (threads) in [bio] (driver and cache) in [jfs]
    (log) in [ifs] (inodes) in [ffs] (files) in [kern], which adds segments,
    trap tables and the hardware of the processor.

    ** What is proved

    - Memory: the memory map and the allocation table describe the firmware's
      memory; palloc is a next-fit search; quotas are honoured for any
      sequence of operations; page tables isolate processes from each other
      and from the kernel in every reachable state; the mapping operations
      change exactly one translation; copies between kernel and user memory
      are exact over any number of pages; memmove, strcmp, strlcpy and their
      like meet their contracts for any overlap and size.
    - Threads: the linked queues implement lists; yields and timer interrupts
      are round robin; a thread gets its own context back; spawn, wake-up and
      initialisation; mutual exclusion of the spinlock in all interleavings.
    - Files: the driver serves requests in order; the cache behaves as the
      disk; transactions are atomic under a crash at any disk write, also a
      crash during recovery; block_alloc and block_free in a transaction;
      file_read and file_write give and replace exactly the bytes of the file,
      the latter atomically per piece; the inode cache counts references.
      The log offers transactions to the layers above through the lemmas
      [tr_begin] to [tr_commit] of LogSpec.v, and InodeSpec.v proves reading
      against the class [reader], which the idle cache and a transaction in
      progress both implement.
    - Traps: to user processes the kernel is a scheduler of register contexts,
      and each runs with its own page directory and kernel stack; every
      interrupt vector leads to the handler the tables give; sys_puts prints
      the bytes of the process.
    - Errors: four theorems show what goes wrong where the code has a defect:
      a lock kept in container_split, a page lost in alloc_page, the context
      lost in thread_sleep, and handlers that no vector reaches.

    ** Limits of the model

    The kernel is modelled on one processor, apart from the protocol of the
    spinlock.  The file system is run by one thread at a time: a wait for a
    buffer, an inode or the log that another thread holds is the outcome
    [Spin], and the sleep in ide_rw is the run of the interrupt handler that
    ends it.  A trap runs to its end with interrupts off, as the interrupt
    gates have it; where a thread is switched out in the middle of a trap the
    rest of the trap is recorded and run when the thread has the processor
    again.  The functions the source leaves empty (in dir.c, path.c and
    sysfile.c) are modelled as they are, so nothing is claimed about
    directories and paths.

    ** Not modelled

    - The boot loader, the start of the other processors (pcpu_mp, acpi,
      boot_ap.S, devinit_ap, kern_init_ap): firmware and real mode.
    - The interrupt controllers, timers, serial line, keyboard, screen and
      console: port input and output without state of the kernel.  intr_enable
      and intr_eoi record what they ask of the controller, sys_puts what it
      prints.
    - printfmt, dprintf, debug, monitor and trap_dump: output only.
    - arch_info and the probing of the processor by cpuid.
    - The user programs and the user library, apart from its string
      functions: the theorems hold for any user code.
    - Caches, memory ordering and the translation lookaside buffer: every
      access sees memory as it is.

    ** This file

    The monad, lenses, loops, the calculus of [wp] with its tactics, machine
    integers, and lemmas on lists and maps that the components share. *)

From stdpp Require Import base gmap list numbers strings.
From stdpp Require Export fin_maps.

#[global] Open Scope Z_scope.
#[export] Set Warnings "-clear-no-such-hyp".

(** A global array is a finite map whose absent entries hold zero, as the
    BSS does at boot. *)
#[global] Instance zero_inhabited : Inhabited Z := populate 0.

(** ** Machine integers

    [unsigned int], [uint32_t], [size_t] and pointers are integers in
    [[0, 2^32)]; every operation of the source that can leave the range is
    written with [u32].  [int] is the two's complement reading [s32]. *)

Definition W32 : Z := 4294967296.
Definition u32 (x : Z) : Z := x mod W32.
Definition s32 (x : Z) : Z := let y := u32 x in if y <? 2147483648 then y else y - W32.
Definition is_u32 (x : Z) : Prop := 0 <= x < W32.

Lemma u32_small x : 0 <= x < W32 -> u32 x = x.
Proof. apply Z.mod_small. Qed.

Lemma u32_range x : 0 <= u32 x < W32.
Proof. apply Z.mod_pos_bound. done. Qed.

Lemma s32_small x : -2147483648 <= x < 2147483648 -> s32 x = x.
Proof.
  intros Hx. unfold s32, u32, W32. Z.to_euclidean_division_equations.
  destruct (_ <? _) eqn:E; lia.
Qed.

(** Bit fields: a shifted number with a small one or-ed in, masking. *)
Lemma testbit_small b k n : 0 <= b < 2 ^ k -> k <= n -> Z.testbit b n = false.
Proof.
  intros Hb Hn. rewrite <- (Z.mod_small b (2 ^ k)) by done.
  destruct (decide (0 <= k)); [by apply Z.mod_pow2_bits_high|].
  rewrite Z.pow_neg_r in Hb by lia. lia.
Qed.

Lemma lor_shiftl a k b : 0 <= k -> 0 <= b < 2 ^ k -> Z.lor (Z.shiftl a k) b = a * 2 ^ k + b.
Proof.
  intros Hk Hb. rewrite <- Z.add_nocarry_lor; [by rewrite Z.shiftl_mul_pow2|].
  apply Z.bits_inj'. intros n Hn. rewrite Z.land_spec, Z.bits_0.
  destruct (decide (n < k)).
  - by rewrite Z.shiftl_spec_low.
  - rewrite (testbit_small b k n) by lia. apply andb_false_r.
Qed.

Lemma lor_aligned a k b : 0 <= k -> a mod 2 ^ k = 0 -> 0 <= b < 2 ^ k -> Z.lor a b = a + b.
Proof.
  intros Hk Ha Hb. pose proof (Z.div_mod a (2 ^ k) ltac:(lia)) as Hd.
  replace a with (Z.shiftl (a / 2 ^ k) k) by (rewrite Z.shiftl_mul_pow2 by done; lia).
  rewrite lor_shiftl, Z.shiftl_mul_pow2 by done. done.
Qed.

Lemma land_page_mask x : is_u32 x -> Z.land x 4294963200 = x - x mod 4096.
Proof.
  intros Hx. transitivity (Z.ldiff x (Z.ones 12)).
  - apply Z.bits_inj'. intros n Hn. rewrite Z.land_spec, Z.ldiff_spec.
    change 4294963200 with (Z.shiftl (Z.ones 20) 12). rewrite Z.shiftl_spec by done.
    destruct (decide (n < 32)) as [Hl|Hl].
    + destruct (decide (n < 12)).
      * rewrite (Z.testbit_neg_r _ (n - 12)), Z.ones_spec_low by lia. done.
      * rewrite Z.ones_spec_low, Z.ones_spec_high by lia. done.
    + rewrite (testbit_small x 32 n) by (unfold is_u32, W32 in Hx; lia). done.
  - rewrite Z.ldiff_ones_r, Z.shiftl_mul_pow2, Z.shiftr_div_pow2 by done.
    change (2 ^ 12) with 4096. Z.to_euclidean_division_equations. lia.
Qed.

Lemma land_low x k c : 0 <= k -> c = Z.ones k -> Z.land x c = x mod 2 ^ k.
Proof. intros Hk ->. by apply Z.land_ones. Qed.

(** ** Outcomes and the kernel monad

    A kernel function run by one processor ends in one of five ways. *)

Inductive outcome (St A : Type) : Type :=
| Ok (a : A) (s : St)      (* returned [a], leaving the globals [s] *)
| Panic                   (* KERN_PANIC or a failed KERN_ASSERT: the processor halts *)
| Fault                   (* an array access outside the array: undefined in C *)
| Spin                    (* busy-waits on a word that this run never changes *)
| OutOfFuel.              (* the model's iteration bound was reached *)
Arguments Ok {St A} a s.
Arguments Panic {St A}.
Arguments Fault {St A}.
Arguments Spin {St A}.
Arguments OutOfFuel {St A}.

Definition K (St A : Type) : Type := St -> outcome St A.

#[global] Instance K_ret {St} : MRet (K St) := fun A a s => Ok a s.
#[global] Instance K_bind {St} : MBind (K St) := fun A B f m s =>
  match m s with
  | Ok a s' => f a s'
  | Panic => Panic
  | Fault => Fault
  | Spin => Spin
  | OutOfFuel => OutOfFuel
  end.

Definition get {St} : K St St := fun s => Ok s s.
Definition put {St} (s : St) : K St unit := fun _ => Ok tt s.
Definition gets {St A} (f : St -> A) : K St A := fun s => Ok (f s) s.
Definition modify {St} (f : St -> St) : K St unit := fun s => Ok tt (f s).
Definition panic {St A} : K St A := fun _ => Panic.
Definition fault {St A} : K St A := fun _ => Fault.
Definition spin {St A} : K St A := fun _ => Spin.
Definition out_of_fuel {St A} : K St A := fun _ => OutOfFuel.

(** The bounds condition of an array access. *)
Definition check {St} (b : bool) : K St unit := if b then mret tt else fault.
(** KERN_ASSERT. *)
Definition kern_assert {St} (b : bool) : K St unit := if b then mret tt else panic.
Definition in_array (i n : Z) : bool := (0 <=? i) && (i <? n).

(** Signed addition: overflow is undefined in C. *)
Definition int_add {St} (a b : Z) : K St Z :=
  check ((-2147483648 <=? a + b) && (a + b <? 2147483648)) ;; mret (a + b).

(** ** Layers: the state of a lower layer is a field of the state above. *)

Record lens (St T : Type) : Type := Lens { lget : St -> T; lset : T -> St -> St }.
Arguments Lens {St T}.
Arguments lget {St T}.
Arguments lset {St T}.

Class LensLaws {St T} (l : lens St T) : Prop := {
  lget_lset : forall t s, lget l (lset l t s) = t;
  lset_lget : forall s, lset l (lget l s) s = s;
  lset_lset : forall t t' s, lset l t (lset l t' s) = lset l t s
}.

Definition zoom {St T A} (l : lens St T) (m : K T A) : K St A := fun s =>
  match m (lget l s) with
  | Ok a t => Ok a (lset l t s)
  | Panic => Panic
  | Fault => Fault
  | Spin => Spin
  | OutOfFuel => OutOfFuel
  end.

Definition lens_comp {St T U} (l : lens St T) (l' : lens T U) : lens St U :=
  Lens (fun s => lget l' (lget l s)) (fun u s => lset l (lset l' u (lget l s)) s).

#[global] Instance lens_comp_laws {St T U} (l : lens St T) (l' : lens T U) :
  LensLaws l -> LensLaws l' -> LensLaws (lens_comp l l').
Proof.
  intros H H'; split; intros; simpl; rewrite ?lget_lset, ?lset_lget, ?lset_lset; auto.
Qed.

(** ** Loops

    [loop d] runs a loop body at most [2^d] times; [while] allows [2^33]
    iterations, more than any counter of the source can take, and
    [wp_while] shows that a loop with a measure below the bound returns. *)

Fixpoint loop {St X R} (d : nat) (body : X -> K St (X + R)) (x : X) : K St (X + R) :=
  match d with
  | O => body x
  | S d' => r ← loop d' body x;
            match r with inl x' => loop d' body x' | inr v => mret (inr v) end
  end.

Definition while {St X R} (body : X -> K St (X + R)) (x : X) : K St R :=
  r ← loop 33 body x; match r with inl _ => out_of_fuel | inr v => mret v end.

(** [for (i = lo; i < hi; i++) body(i)] where the body leaves [i] alone. *)
Fixpoint for_nat {St} (n : nat) (i : Z) (body : Z -> K St unit) : K St unit :=
  match n with
  | O => mret tt
  | S n' => body i ;; for_nat n' (i + 1) body
  end.

Definition for_range {St} (lo hi : Z) (body : Z -> K St unit) : K St unit :=
  for_nat (Z.to_nat (hi - lo)) lo body.

(** ** Weakest preconditions (total correctness) *)

Definition wp {St A} (m : K St A) (Q : A -> St -> Prop) (s : St) : Prop :=
  match m s with Ok a s' => Q a s' | _ => False end.

Section wp.
Context {St : Type}.
Implicit Types s : St.

Lemma wp_elim {A} (m : K St A) Q s :
  wp m Q s <-> exists a s', m s = Ok a s' /\ Q a s'.
Proof.
  unfold wp. destruct (m s); split; [eauto|by intros (? & ? & [= <- <-] & ?)|..];
    (done || by intros (? & ? & ? & _)).
Qed.

Lemma wp_of_eq {A} (m : K St A) (Q : A -> St -> Prop) s a s' :
  m s = Ok a s' -> Q a s' -> wp m Q s.
Proof. unfold wp. by intros ->. Qed.

Lemma wp_result {A} (m : K St A) Q s a s' : wp m Q s -> m s = Ok a s' -> Q a s'.
Proof. unfold wp. intros H E. by rewrite E in H. Qed.

Lemma wp_ret {A} (a : A) (Q : A -> St -> Prop) s : Q a s -> wp (mret a) Q s.
Proof. done. Qed.

Lemma wp_bind {A B} (m : K St A) (f : A -> K St B) Q s :
  wp m (fun a s' => wp (f a) Q s') s -> wp (m ≫= f) Q s.
Proof. unfold wp, mbind, K_bind. by destruct (m s). Qed.

Lemma wp_mono {A} (m : K St A) (Q Q' : A -> St -> Prop) s :
  wp m Q s -> (forall a s', Q a s' -> Q' a s') -> wp m Q' s.
Proof. unfold wp. destruct (m s); naive_solver. Qed.

Lemma wp_and {A} (m : K St A) (Q Q' : A -> St -> Prop) s :
  wp m Q s -> wp m Q' s -> wp m (fun a s' => Q a s' /\ Q' a s') s.
Proof. unfold wp. destruct (m s); naive_solver. Qed.

Lemma wp_get (Q : St -> St -> Prop) s : Q s s -> wp get Q s.
Proof. done. Qed.

Lemma wp_gets {A} (f : St -> A) (Q : A -> St -> Prop) s : Q (f s) s -> wp (gets f) Q s.
Proof. done. Qed.

Lemma wp_put (Q : unit -> St -> Prop) s s' : Q tt s' -> wp (put s') Q s.
Proof. done. Qed.

Lemma wp_modify (f : St -> St) (Q : unit -> St -> Prop) s : Q tt (f s) -> wp (modify f) Q s.
Proof. done. Qed.

Lemma wp_check b (Q : unit -> St -> Prop) s : b = true -> Q tt s -> wp (check b) Q s.
Proof. by intros ->. Qed.

Lemma wp_assert b (Q : unit -> St -> Prop) s : b = true -> Q tt s -> wp (kern_assert b) Q s.
Proof. by intros ->. Qed.

Lemma wp_if {A} (b : bool) (m m' : K St A) Q s :
  (b = true -> wp m Q s) -> (b = false -> wp m' Q s) -> wp (if b then m else m') Q s.
Proof. destruct b; auto. Qed.

Lemma wp_zoom {T A} (l : lens St T) (m : K T A) Q s :
  wp m (fun a t => Q a (lset l t s)) (lget l s) -> wp (zoom l m) Q s.
Proof. unfold wp, zoom. by destruct (m (lget l s)). Qed.

Lemma wp_loop {X R} (body : X -> K St (X + R)) (I : Z -> X -> St -> Prop) (Q : R -> St -> Prop) :
  (forall n x s, I n x s -> 0 <= n ->
     wp (body x) (fun r s' => match r with
                              | inl x' => exists n', I n' x' s' /\ 0 <= n' < n
                              | inr v => Q v s' end) s) ->
  forall d n x s, I n x s -> 0 <= n ->
    wp (loop d body x) (fun r s' => match r with
                              | inl x' => exists n', I n' x' s' /\ 0 <= n' <= n - 2 ^ Z.of_nat d
                              | inr v => Q v s' end) s.
Proof.
  intros Hbody d. induction d as [|d IH]; intros n x s HI Hn; simpl.
  - eapply wp_mono; [by eapply Hbody|]. intros [x'|v] s'; simpl; [|done].
    intros (n' & ? & ?). exists n'. split; [done|lia].
  - apply wp_bind. eapply wp_mono; [by eapply IH|].
    intros [x'|v] s'; simpl; [|done]. intros (n' & HI' & Hn').
    eapply wp_mono; [eapply IH; [done|lia]|].
    intros [x''|v] s''; simpl; [|done]. intros (n'' & ? & ?). exists n''. split; [done|].
    change (Z.pos (Pos.of_succ_nat d)) with (Z.of_nat (S d)).
    rewrite Nat2Z.inj_succ, Z.pow_succ_r; lia.
Qed.

(** The total-correctness rule of [while]: an invariant with a bound [n] on
    the iterations left. *)
Lemma wp_while_bound {X R} (body : X -> K St (X + R)) (I : Z -> X -> St -> Prop) (Q : R -> St -> Prop)
    n x s :
  (forall n x s, I n x s -> 0 <= n ->
     wp (body x) (fun r s' => match r with
                              | inl x' => exists n', I n' x' s' /\ 0 <= n' < n
                              | inr v => Q v s' end) s) ->
  I n x s -> 0 <= n < 2 ^ 33 -> wp (while body x) Q s.
Proof.
  intros Hbody HI Hn. unfold while. apply wp_bind.
  eapply wp_mono; [apply (wp_loop _ I Q Hbody 33 n); [done|lia]|].
  intros [x'|v] s'; simpl; [|done]. intros (n' & _ & ?).
  change (Z.of_nat 33) with 33 in *. lia.
Qed.

(** The rule with a measure computed from the state. *)
Lemma wp_while {X R} (body : X -> K St (X + R)) (I : X -> St -> Prop) (m : X -> St -> Z)
    (Q : R -> St -> Prop) x s :
  (forall x s, I x s -> 0 <= m x s ->
     wp (body x) (fun r s' => match r with
                              | inl x' => I x' s' /\ 0 <= m x' s' < m x s
                              | inr v => Q v s' end) s) ->
  I x s -> 0 <= m x s < 2 ^ 33 -> wp (while body x) Q s.
Proof.
  intros Hbody HI Hm. apply (wp_while_bound _ (fun n x s => I x s /\ n = m x s) _ (m x s)); [|done|lia].
  intros n x1 s1 [HI1 ->] Hn. eapply wp_mono; [by apply Hbody|].
  intros [x'|v] s'; [|done]. intros [? ?]. eauto.
Qed.

(** A loop that ends within [n] rounds, followed round by round. *)
Fixpoint wp_rounds {X R} (body : X -> K St (X + R)) (n : nat) (x : X) (Q : R -> St -> Prop) s : Prop :=
  match n with
  | O => False
  | S n => wp (body x) (fun r s' => match r with inl x' => wp_rounds body n x' Q s' | inr v => Q v s' end) s
  end.

Lemma wp_while_rounds {X R} (body : X -> K St (X + R)) n x (Q : R -> St -> Prop) s :
  wp_rounds body n x Q s -> Z.of_nat n < 2 ^ 33 -> wp (while body x) Q s.
Proof.
  intros H Hn. apply (wp_while_bound _ (fun k x s => wp_rounds body (Z.to_nat k) x Q s) _ (Z.of_nat n)); [|by rewrite Nat2Z.id|lia].
  intros k y s' Hk Hpos. destruct (Z.to_nat k) as [|k'] eqn:Ek; [done|]. simpl in Hk. eapply wp_mono; [exact Hk|].
  intros [x'|v] s2; [|done]. intros Hr. exists (Z.of_nat k'). rewrite Nat2Z.id. split; [done|lia].
Qed.

Lemma wp_for_nat (body : Z -> K St unit) (I : Z -> St -> Prop) n : forall i s,
  (forall j s, i <= j < i + Z.of_nat n -> I j s -> wp (body j) (fun _ s' => I (j + 1) s') s) ->
  I i s -> wp (for_nat n i body) (fun _ s' => I (i + Z.of_nat n) s') s.
Proof.
  induction n as [|n IH]; intros i s Hbody HI.
  - simpl. apply wp_ret. by rewrite Z.add_0_r.
  - simpl. apply wp_bind. eapply wp_mono; [apply Hbody; [lia|done]|].
    intros [] s' HI'. replace (i + Z.of_nat (S n)) with (i + 1 + Z.of_nat n) by lia.
    apply IH; [|done]. intros j s1 Hj. apply Hbody. lia.
Qed.

(** The rule of [for_range]: an invariant indexed by the counter. *)
Lemma wp_for (body : Z -> K St unit) (I : Z -> St -> Prop) lo hi s :
  lo <= hi ->
  (forall j s, lo <= j < hi -> I j s -> wp (body j) (fun _ s' => I (j + 1) s') s) ->
  I lo s -> wp (for_range lo hi body) (fun _ s' => I hi s') s.
Proof.
  intros Hle Hbody HI. unfold for_range.
  eapply wp_mono; [apply (wp_for_nat body I); [|exact HI]|].
  - intros j s1 Hj. apply Hbody. lia.
  - intros [] s1. by replace (lo + Z.of_nat (Z.to_nat (hi - lo))) with hi by lia.
Qed.
End wp.

(** ** Sums over an index range [0, n) *)

Fixpoint zsum_nat (f : Z -> Z) (n : nat) : Z :=
  match n with O => 0 | S n' => zsum_nat f n' + f (Z.of_nat n') end.
(** Sealed, so that no tactic computes a sum over all physical pages. *)
Definition zsum_def (f : Z -> Z) (n : Z) : Z := zsum_nat f (Z.to_nat n).
Definition zsum_aux : seal zsum_def. Proof. by eexists. Qed.
Definition zsum := unseal zsum_aux.
Lemma zsum_unseal : zsum = zsum_def.
Proof. apply seal_eq. Qed.
Ltac unseal_zsum := rewrite zsum_unseal; unfold zsum_def.

Lemma zsum_nat_ext f g n :
  (forall i, 0 <= i < Z.of_nat n -> f i = g i) -> zsum_nat f n = zsum_nat g n.
Proof.
  induction n as [|n IH]; intros H; simpl; [done|]. rewrite IH, H by (intros; try apply H; lia). done.
Qed.

Lemma zsum_ext f g n : (forall i, 0 <= i < n -> f i = g i) -> zsum f n = zsum g n.
Proof. intros H. unseal_zsum. apply zsum_nat_ext. intros i Hi. apply H. lia. Qed.

Lemma zsum_0 f : zsum f 0 = 0.
Proof. by unseal_zsum. Qed.

Lemma zsum_succ f n : 0 <= n -> zsum f (n + 1) = zsum f n + f n.
Proof.
  intros Hn. unseal_zsum. replace (Z.to_nat (n + 1)) with (S (Z.to_nat n)) by lia. simpl.
  by rewrite Z2Nat.id.
Qed.

Lemma zsum_const_0 f n : (forall i, 0 <= i < n -> f i = 0) -> zsum f n = 0.
Proof.
  intros H. rewrite (zsum_ext f (fun _ => 0)) by done. unseal_zsum.
  induction (Z.to_nat n) as [|m IH]; simpl; lia.
Qed.

(** Changing one term changes the sum by the difference. *)
Lemma zsum_upd f g k n : 0 <= k < n -> (forall i, i <> k -> g i = f i) ->
  zsum g n = zsum f n + g k - f k.
Proof.
  intros Hk Hg. unseal_zsum. remember (Z.to_nat n) as m eqn:Em.
  assert (Hm : k < Z.of_nat m) by lia. clear Em. induction m as [|m IH]; simpl; [lia|].
  destruct (decide (k = Z.of_nat m)) as [->|Hne].
  - rewrite (zsum_nat_ext g f) by (intros; apply Hg; lia). lia.
  - rewrite IH, (Hg (Z.of_nat m)) by lia. lia.
Qed.

Lemma zsum_nonneg f n : (forall i, 0 <= i < n -> 0 <= f i) -> 0 <= zsum f n.
Proof.
  intros H. unseal_zsum. remember (Z.to_nat n) as m eqn:Em.
  assert (Hm : forall i, 0 <= i < Z.of_nat m -> 0 <= f i) by (intros; apply H; lia).
  clear Em H. induction m as [|m IH]; simpl; [done|].
  pose proof (Hm (Z.of_nat m) ltac:(lia)).
  pose proof (IH ltac:(intros; apply Hm; lia)). lia.
Qed.

(** A term of a sum of non-negative terms is at most the sum. *)
Lemma zsum_term f k n : 0 <= k < n -> (forall i, 0 <= i < n -> 0 <= f i) -> f k <= zsum f n.
Proof.
  intros Hk H. rewrite (zsum_upd (fun i => if decide (i = k) then 0 else f i) f k n Hk).
  - rewrite decide_True by done.
    enough (0 <= zsum (fun i => if decide (i = k) then 0 else f i) n) by lia.
    apply zsum_nonneg. intros i Hi. case_decide; [lia|auto].
  - intros i Hi. by rewrite decide_False.
Qed.

Lemma zsum_two f j k n c : j <> k -> 0 <= j < n -> 0 <= k < n ->
  (forall i, 0 <= i < n -> 0 <= f i) -> c <= f j + f k -> c <= zsum f n.
Proof.
  intros Hjk Hj Hk H Hc. set (g := fun i => if decide (i = j) then 0 else f i).
  rewrite (zsum_upd g f j n Hj) by (intros i Hi; unfold g; by rewrite decide_False).
  assert (Hg : g k <= zsum g n).
  { apply zsum_term; [done|]. intros i Hi. unfold g. case_decide; [lia|auto]. }
  unfold g in Hg at 1. rewrite decide_False in Hg by done. unfold g at 2.
  rewrite decide_True by done. lia.
Qed.

Lemma zsum_positive f n : 0 < zsum f n -> exists k, 0 <= k < n /\ f k <> 0.
Proof.
  unseal_zsum. remember (Z.to_nat n) as m eqn:Em. intros Hp.
  assert (exists k, 0 <= k < Z.of_nat m /\ f k <> 0) as (k & ? & ?); [|exists k; split; [lia|done]].
  clear Em. induction m as [|m IH]; simpl in *; [lia|].
  destruct (decide (f (Z.of_nat m) = 0)) as [E|E]; [|exists (Z.of_nat m); split; [lia|done]].
  destruct IH as (k & ? & ?); [lia|]. exists k. split; [lia|done].
Qed.

Lemma zsum_extend f n m : 0 <= n <= m -> (forall i, n <= i < m -> f i = 0) -> zsum f m = zsum f n.
Proof.
  intros Hnm H. replace m with (n + Z.of_nat (Z.to_nat (m - n))) in * by lia.
  induction (Z.to_nat (m - n)) as [|k IH]; [by rewrite Z.add_0_r|].
  replace (n + Z.of_nat (S k)) with (n + Z.of_nat k + 1) by lia.
  rewrite zsum_succ, H, IH by (intros; try apply H; lia). lia.
Qed.

Lemma zsum_le f g n : (forall i, 0 <= i < n -> f i <= g i) -> zsum f n <= zsum g n.
Proof.
  intros H. unseal_zsum. remember (Z.to_nat n) as m eqn:Em.
  assert (Hm : forall i, 0 <= i < Z.of_nat m -> f i <= g i) by (intros; apply H; lia).
  clear Em H. induction m as [|m IH]; simpl; [done|].
  pose proof (Hm (Z.of_nat m) ltac:(lia)).
  pose proof (IH ltac:(intros; apply Hm; lia)). lia.
Qed.

(** A part of a sum of non-negative terms. *)
Lemma zsum_prefix f k n : 0 <= k <= n -> (forall i, k <= i < n -> 0 <= f i) -> zsum f k <= zsum f n.
Proof.
  intros Hk Hf. pose (g := fun i => if decide (i < k) then f i else 0).
  rewrite (zsum_ext f g k) by (intros i Hi; unfold g; by rewrite decide_True by lia).
  rewrite <- (zsum_extend g k n) by (done || (intros i Hi; unfold g; by rewrite decide_False by lia)).
  apply zsum_le. intros i Hi. unfold g. case_decide; [done|]. apply Hf. lia.
Qed.
(** At least [n] terms are positive. *)
Lemma zsum_ones f lo n m : 0 <= lo -> 0 <= n -> lo + n <= m -> (forall i, 0 <= i < m -> 0 <= f i) -> (forall i, lo <= i < lo + n -> 1 <= f i) -> n <= zsum f m.
Proof.
  intros Hlo Hn Hm Hf H1. transitivity (zsum f (lo + n)); [|apply zsum_prefix; [lia|]; intros; apply Hf; lia].
  assert (Hk : forall k, Z.of_nat k <= n -> Z.of_nat k <= zsum f (lo + Z.of_nat k)).
  { induction k as [|k IH]; intros Hk; [apply zsum_nonneg; intros; apply Hf; lia|].
    replace (lo + Z.of_nat (S k)) with (lo + Z.of_nat k + 1) by lia. rewrite zsum_succ by lia.
    pose proof (H1 (lo + Z.of_nat k) ltac:(lia)). specialize (IH ltac:(lia)). lia. }
  specialize (Hk (Z.to_nat n)). rewrite Z2Nat.id in Hk by done. by apply Hk.
Qed.

Lemma zsum_const c n : 0 <= n -> zsum (fun _ => c) n = c * n.
Proof.
  intros Hn. unseal_zsum. rewrite <- (Z2Nat.id n Hn) at 2.
  induction (Z.to_nat n) as [|m IH]; simpl; lia.
Qed.

(** One step of symbolic execution of a kernel function; calls of other
    functions are left to the caller of the tactic. *)
Ltac wp_step :=
  lazymatch goal with
  | |- wp (mbind _ _) _ _ => apply wp_bind
  | |- wp (mret _) _ _ => apply wp_ret
  | |- wp get _ _ => apply wp_get
  | |- wp (gets _) _ _ => apply wp_gets
  | |- wp (put _) _ _ => apply wp_put
  | |- wp (modify _) _ _ => apply wp_modify
  | |- wp (zoom _ _) _ _ => apply wp_zoom
  | |- wp (check _) _ _ => apply wp_check; [try first [reflexivity | solve [unfold in_array; lia]]|]
  | |- wp (kern_assert _) _ _ => apply wp_assert; [try first [reflexivity | solve [unfold in_array; lia]]|]
  end.
Ltac wp_steps := repeat (wp_step; cbv beta; simpl lget; simpl lset).
(** Use a specification lemma for the call at the head. *)
Tactic Notation "wp_call" uconstr(H) := eapply wp_mono; [eapply H|cbv beta].
(** Unfold the monad (not the functions of the model) and simplify. *)
Ltac krun :=
  cbv [mbind K_bind mret K_ret get put gets modify check kern_assert panic fault spin zoom];
  simpl.
(** Decide the integer comparisons of the goal that [lia] can settle. *)
Ltac zbool :=
  repeat match goal with
  | |- context [?a =? ?b] =>
      first [rewrite (proj2 (Z.eqb_eq a b)) by lia | rewrite (proj2 (Z.eqb_neq a b)) by lia]
  | |- context [?a <? ?b] =>
      first [rewrite (proj2 (Z.ltb_lt a b)) by lia | rewrite (proj2 (Z.ltb_ge a b)) by lia]
  | |- context [?a <=? ?b] =>
      first [rewrite (proj2 (Z.leb_le a b)) by lia | rewrite (proj2 (Z.leb_gt a b)) by lia]
  end; simpl negb; cbv iota.
(** Linear arithmetic with division and remainder by constants. *)
Ltac zdiv := Z.to_euclidean_division_equations; lia.
(** Split the conditionals of the goal. *)
Ltac zcases :=
  repeat match goal with |- context [if ?b then _ else _] => destruct b eqn:? end.
(** A conjunction of facts at hand. *)
Ltac by_parts := simpl; split_and?; first [assumption | reflexivity].
(** Loops are reasoned about with their rules, never unfolded. *)
#[global] Opaque while for_range.
