(* ===== verification/Lock.v ===== *)
(** * Kernel locks and the integer helpers of kern/lib

    [Types] is kern/lib/types.c; [Kstack] the part of struct kstack the locks
    read; [Spinlock] kern/lib/spinlock.c (built without DEBUG_DEADLOCK and
    DEBUG_LOCKHOLDING, as kern/config.mk does), as functions run by one
    processor and as the interleaving machine of [NUM_CPUS] processors;
    [Reentrant] kern/lib/reentrant_lock.c. *)

From stdpp Require Import base gmap list numbers.
From S2P Require Import Prelude.

Definition NUM_CPUS : Z := 8.
Definition NUM_IDS : Z := 64.

Module Types.
Definition max (a b : Z) : Z := if b <? a then a else b.
Definition min (a b : Z) : Z := if a <? b then a else b.
Definition rounddown (a n : Z) : Z := u32 (a - a mod n).
Definition roundup (a n : Z) : Z := rounddown (u32 (a + n - 1)) n.
End Types.

Definition KSTACK_MAGIC : Z := 2557891634. (* 0x98765432 *)

(** The header of the kernel stack the processor is running on: what
    [ROUNDDOWN(read_esp(), KSTACK_SIZE)] points to. *)
Record kstack : Type := Kstack { cpu_idx : Z; magic : Z }.

(** A kernel stack that seg_init or seg_init_proc has initialised. *)
Class kstack_ok (ks : kstack) : Prop := {
  ks_magic : magic ks = KSTACK_MAGIC;
  ks_cpu : 0 <= cpu_idx ks < NUM_CPUS
}.

Module Spinlock.
Record spinlock_t : Type := Mk { lock_holder : Z; lock : Z }.

#[global] Instance spinlock_t_inhabited : Inhabited spinlock_t := populate (Mk 0 0).

Definition set_holder (v : Z) : K spinlock_t unit := modify (fun l => Mk v (lock l)).

(** The atomic exchange of the lock word. *)
Definition xchg_lock (newval : Z) : K spinlock_t Z :=
  old ← gets lock;
  modify (fun l => Mk (lock_holder l) newval) ;;
  mret old.

Definition spinlock_init : K spinlock_t unit :=
  set_holder (NUM_CPUS + 1) ;;
  modify (fun l => Mk (lock_holder l) 0).

Definition spinlock_holding (ks : kstack) : K spinlock_t bool :=
  l ← get;
  if lock l =? 0 then mret false
  else
    kern_assert (magic ks =? KSTACK_MAGIC) ;;
    mret (lock_holder l =? cpu_idx ks).

(** A processor that finds the word set exchanges 1 for 1 until another
    processor clears it; in a run of one processor that is [Spin]. *)
Definition spinlock_acquire_A (ks : kstack) : K spinlock_t unit :=
  old ← xchg_lock 1;
  if negb (old =? 0) then spin
  else
    kern_assert (magic ks =? KSTACK_MAGIC) ;;
    set_holder (cpu_idx ks).

Definition spinlock_try_acquire_A (ks : kstack) : K spinlock_t Z :=
  old_val ← xchg_lock 1;
  (if old_val =? 0 then
     kern_assert (magic ks =? KSTACK_MAGIC) ;;
     set_holder (cpu_idx ks)
   else mret tt) ;;
  mret old_val.

Definition spinlock_release_A : K spinlock_t unit :=
  set_holder (NUM_CPUS + 1) ;;
  xchg_lock 0 ;;
  mret tt.

Definition spinlock_acquire (ks : kstack) : K spinlock_t unit := spinlock_acquire_A ks.
Definition spinlock_release : K spinlock_t unit := spinlock_release_A.
Definition spinlock_try_acquire (ks : kstack) : K spinlock_t Z := spinlock_try_acquire_A ks.

Definition free_lock : spinlock_t := Mk (NUM_CPUS + 1) 0.
Definition held_lock (ks : kstack) : spinlock_t := Mk (cpu_idx ks) 1.

Lemma acquire_free ks h : kstack_ok ks ->
  spinlock_acquire ks (Mk h 0) = Ok tt (held_lock ks).
Proof.
  intros [Hm _]. unfold spinlock_acquire, spinlock_acquire_A, xchg_lock, kern_assert; simpl.
  by rewrite Hm.
Qed.

Lemma acquire_held ks h v : v <> 0 -> spinlock_acquire ks (Mk h v) = Spin.
Proof.
  intros Hv. unfold spinlock_acquire, spinlock_acquire_A, xchg_lock; simpl.
  cbv. by destruct v.
Qed.

Lemma release_any l : spinlock_release l = Ok tt free_lock.
Proof. done. Qed.

(** ** Several processors

    Each processor runs [acquire; critical section; release] forever; a
    step is one access of the shared lock.  [PAcquire] spins on the
    exchange, [PGot] has seen 0 and has not yet stored the holder,
    [PCrit] is between acquire and release, [PRel] has reset the holder
    and has not yet cleared the word. *)
Inductive pc : Type := PIdle | PAcquire | PGot | PCrit | PRel.
#[global] Instance pc_eq_dec : EqDecision pc.
Proof. solve_decision. Defined.

Record mstate : Type := MState { mlock : spinlock_t; mpc : Z -> pc }.
Definition upd (f : Z -> pc) (c : Z) (p : pc) : Z -> pc :=
  fun c' => if decide (c' = c) then p else f c'.

Definition minit : mstate := MState free_lock (fun _ => PIdle).

Inductive mstep : mstate -> mstate -> Prop :=
| step_call l f c : f c = PIdle ->
    mstep (MState l f) (MState l (upd f c PAcquire))
| step_xchg_busy l f c l' old : f c = PAcquire ->
    xchg_lock 1 l = Ok old l' -> old <> 0 ->
    mstep (MState l f) (MState l' f)
| step_xchg_free l f c l' : f c = PAcquire ->
    xchg_lock 1 l = Ok 0 l' ->
    mstep (MState l f) (MState l' (upd f c PGot))
| step_holder l f c l' : f c = PGot ->
    set_holder c l = Ok tt l' ->
    mstep (MState l f) (MState l' (upd f c PCrit))
| step_unholder l f c l' : f c = PCrit ->
    set_holder (NUM_CPUS + 1) l = Ok tt l' ->
    mstep (MState l f) (MState l' (upd f c PRel))
| step_clear l f c l' old : f c = PRel ->
    xchg_lock 0 l = Ok old l' ->
    mstep (MState l f) (MState l' (upd f c PIdle)).

Definition owns (p : pc) : bool := match p with PGot | PCrit | PRel => true | _ => false end.

(** Either the word is clear and nobody owns the lock, or it is 1, exactly
    one processor owns it, and the holder field names it while it is in
    its critical section. *)
Definition minv (m : mstate) : Prop :=
  (lock (mlock m) = 0 /\ forall c, owns (mpc m c) = false) \/
  (lock (mlock m) = 1 /\ exists c, owns (mpc m c) = true /\
     (forall c', c' <> c -> owns (mpc m c') = false) /\
     (mpc m c = PCrit -> lock_holder (mlock m) = c)).

Lemma upd_eq f c p : upd f c p c = p.
Proof. unfold upd. by rewrite decide_True. Qed.
Lemma upd_ne f c p c' : c' <> c -> upd f c p c' = f c'.
Proof. intros. unfold upd. by rewrite decide_False. Qed.

Lemma minv_owner l f c : minv (MState l f) -> owns (f c) = true ->
  lock l = 1 /\ (forall c', c' <> c -> owns (f c') = false) /\
  (f c = PCrit -> lock_holder l = c).
Proof.
  intros [[_ H]|(H1 & c0 & H2 & H3 & H4)] Hc; simpl in *; [by rewrite H in Hc|].
  destruct (decide (c = c0)) as [->|Hne]; [done|]. by rewrite H3 in Hc.
Qed.

Lemma minv_step m m' : mstep m m' -> minv m -> minv m'.
Proof.
  intros Hs Hi. destruct Hs as [l f c Hc|l f c l' old Hc Hx Ho|l f c l' Hc Hx
    |l f c l' Hc Hx|l f c l' Hc Hx|l f c l' old Hc Hx]; simpl in *.
  - destruct Hi as [[Hl Hn]|(Hl & c0 & Ho & Hn & Hh)]; [left|right]; split; try done; simpl in *.
    + intros c'. destruct (decide (c' = c)) as [->|]; [by rewrite upd_eq|by rewrite upd_ne].
    + exists c0. assert (c0 <> c) by (intros ->; by rewrite Hc in Ho).
      rewrite upd_ne by done. split; [done|]. split; [|done].
      intros c' Hc'. destruct (decide (c' = c)) as [->|]; [by rewrite upd_eq|].
      rewrite upd_ne by done. auto.
  - unfold xchg_lock in Hx; simpl in Hx. injection Hx as <- <-.
    destruct Hi as [[Hl _]|(Hl & Hr)]; simpl in *; [done|]. right. by split.
  - unfold xchg_lock in Hx; simpl in Hx. injection Hx as Hl <-.
    destruct Hi as [[_ Hn]|(Hl' & _)]; simpl in *; [|lia]. right. split; [done|].
    exists c. simpl. rewrite upd_eq. repeat split; [|done].
    intros c' Hc'. by rewrite upd_ne.
  - injection Hx as <-. destruct (minv_owner _ _ c Hi) as (Hl & Hn & _); [by rewrite Hc|].
    right. split; [done|]. exists c. simpl. rewrite upd_eq. repeat split.
    intros c' Hc'. rewrite upd_ne; auto.
  - injection Hx as <-. destruct (minv_owner _ _ c Hi) as (Hl & Hn & _); [by rewrite Hc|].
    right. split; [done|]. exists c. simpl. rewrite upd_eq. repeat split; [|done].
    intros c' Hc'. rewrite upd_ne; auto.
  - unfold xchg_lock in Hx; simpl in Hx. injection Hx as _ <-.
    destruct (minv_owner _ _ c Hi) as (Hl & Hn & _); [by rewrite Hc|].
    left. split; [done|]. intros c'. simpl.
    destruct (decide (c' = c)) as [->|]; [by rewrite upd_eq|]. rewrite upd_ne; auto.
Qed.

Lemma minv_reachable m : rtc mstep minit m -> minv m.
Proof.
  intros H. assert (Hi : minv minit) by (left; done).
  revert Hi. generalize minit H. clear H. intros m0 H. induction H; [done|].
  eauto using minv_step.
Qed.


End Spinlock.

Module Reentrant.
Definition UNLOCKED : Z := 4294967295.
Record reentrantlock : Type := Mk { lock : Z; count : Z }.

Definition reentrantlock_init : K reentrantlock unit :=
  modify (fun l => Mk UNLOCKED (count l)) ;;
  modify (fun l => Mk (lock l) 0).

Definition reentrantlock_holding : K reentrantlock bool :=
  l ← get; mret (0 <? count l).

(** Atomic compare-and-exchange of the lock word: the old value. *)
Definition cmpxchg_lock (oldval newval : Z) : K reentrantlock Z :=
  lv ← gets lock;
  (if lv =? oldval then modify (fun l => Mk newval (count l)) else mret tt) ;;
  mret lv.

Definition incr_count : K reentrantlock unit :=
  modify (fun l => Mk (lock l) (u32 (count l + 1))).

Definition reentrantlock_acquire (ks : kstack) : K reentrantlock unit :=
  lv ← cmpxchg_lock UNLOCKED (cpu_idx ks);
  if negb (lv =? cpu_idx ks) && negb (lv =? UNLOCKED) then spin
  else incr_count.

Definition reentrantlock_try_acquire (ks : kstack) : K reentrantlock Z :=
  lv ← cmpxchg_lock UNLOCKED (cpu_idx ks);
  if (lv =? cpu_idx ks) || (lv =? UNLOCKED) then incr_count ;; mret 1
  else mret 0.

Definition reentrantlock_release : K reentrantlock unit :=
  modify (fun l => Mk (lock l) (u32 (count l - 1))) ;;
  l ← get;
  if count l =? 0 then modify (fun l => Mk UNLOCKED (count l)) else mret tt.

(** [n] nested calls. *)
Fixpoint times (n : nat) (m : K reentrantlock unit) : K reentrantlock unit :=
  match n with O => mret tt | S n' => m ;; times n' m end.

Lemma acquire_owned ks n : 0 <= n < W32 - 1 ->
  reentrantlock_acquire ks (Mk (cpu_idx ks) n) = Ok tt (Mk (cpu_idx ks) (n + 1)).
Proof.
  intros Hn. unfold reentrantlock_acquire, cmpxchg_lock, incr_count, mbind, K_bind; simpl.
  assert (u32 (n + 1) = n + 1) as E by (apply Z.mod_small; unfold W32 in *; lia).
  destruct (cpu_idx ks =? UNLOCKED) eqn:E1; simpl; rewrite Z.eqb_refl; simpl; cbv [modify]; simpl;
    by rewrite E.
Qed.

Lemma times_acquire ks k : forall n, 0 <= n -> n + Z.of_nat k < W32 ->
  times k (reentrantlock_acquire ks) (Mk (cpu_idx ks) n) =
  Ok tt (Mk (cpu_idx ks) (n + Z.of_nat k)).
Proof.
  induction k as [|k IH]; intros n Hn Hk; [by rewrite Z.add_0_r|].
  cbn [times]. unfold mbind at 1, K_bind at 1. rewrite acquire_owned by lia.
  rewrite IH by lia. do 2 f_equal. lia.
Qed.

Lemma times_release c k : forall n, 0 <= n -> n + Z.of_nat k < W32 -> 0 < n ->
  times k reentrantlock_release (Mk c (n + Z.of_nat k)) = Ok tt (Mk c n).
Proof.
  induction k as [|k IH]; intros n Hn Hk Hp; [by rewrite Z.add_0_r|].
  cbn [times]. unfold mbind at 1, K_bind at 1.
  assert (reentrantlock_release (Mk c (n + Z.of_nat (S k))) =
          Ok tt (Mk c (n + Z.of_nat k))) as ->; [|apply IH; lia].
  cbv [reentrantlock_release mbind K_bind modify get]; cbn [count lock].
  assert (u32 (n + Z.of_nat (S k) - 1) = n + Z.of_nat k) as ->.
  { unfold u32. rewrite Z.mod_small by (unfold W32 in *; lia). lia. }
  cbn [count]. by rewrite (proj2 (Z.eqb_neq (n + Z.of_nat k) 0)) by lia.
Qed.

(** The lock is reentrant: [n] nested acquisitions by one processor
    followed by [n] releases leave it as [reentrantlock_init] does, and
    until the last of them every other processor that tries is refused. *)
Theorem reentrant_roundtrip ks ks' n :
  (0 < n)%nat -> Z.of_nat n < W32 -> cpu_idx ks <> UNLOCKED -> cpu_idx ks' <> cpu_idx ks ->
  exists l, times n (reentrantlock_acquire ks) (Mk UNLOCKED 0) = Ok tt l /\
  times n reentrantlock_release l = Ok tt (Mk UNLOCKED 0) /\
  reentrantlock_try_acquire ks' l = Ok 0 l /\
  reentrantlock_acquire ks' l = Spin.
Proof.
  intros Hn Hb Hu Hne. destruct n as [|n]; [lia|].
  exists (Mk (cpu_idx ks) (1 + Z.of_nat n)).
  assert (reentrantlock_acquire ks (Mk UNLOCKED 0) = Ok tt (Mk (cpu_idx ks) 1)) as E.
  { unfold reentrantlock_acquire, cmpxchg_lock, incr_count. krun. by rewrite andb_false_r. }
  repeat split.
  - cbn [times]. unfold mbind, K_bind. rewrite E, times_acquire by lia. done.
  - assert (forall k m s, times (S k) m s = (times k m ;; m) s) as Hcomm.
    { intros k m. induction k as [|k IH]; intros s; cbn [times].
      - unfold mbind, K_bind, mret, K_ret. by destruct (m s) as [[]| | | |].
      - unfold mbind, K_bind in *. destruct (m s) as [[] s'| | | |] eqn:Es; try done.
        rewrite <- (IH s'). done. }
    rewrite Hcomm. unfold mbind, K_bind. rewrite times_release by lia. done.
  - unfold reentrantlock_try_acquire, cmpxchg_lock. krun.
    rewrite (proj2 (Z.eqb_neq (cpu_idx ks) UNLOCKED)) by done. simpl.
    by rewrite (proj2 (Z.eqb_neq (cpu_idx ks) (cpu_idx ks'))),
      (proj2 (Z.eqb_neq (cpu_idx ks) UNLOCKED)) by congruence.
  - unfold reentrantlock_acquire, cmpxchg_lock. krun.
    rewrite (proj2 (Z.eqb_neq (cpu_idx ks) UNLOCKED)) by done. simpl.
    by rewrite (proj2 (Z.eqb_neq (cpu_idx ks) (cpu_idx ks'))),
      (proj2 (Z.eqb_neq (cpu_idx ks) UNLOCKED)) by congruence.
Qed.

Lemma reentrant_roundtrip_witness :
  exists l, times 3 (reentrantlock_acquire (Kstack 0 0)) (Mk UNLOCKED 0) = Ok tt l /\
  times 3 reentrantlock_release l = Ok tt (Mk UNLOCKED 0).
Proof.
  destruct (reentrant_roundtrip (Kstack 0 0) (Kstack 1 0) 3) as (l & H1 & H2 & _);
    [lia|by vm_compute|by vm_compute|by vm_compute|].
  exists l. split; assumption.
Defined.
End Reentrant.
