(* ===== verification/Pmmap.v ===== *)
(** * The physical memory map (kern/dev/mboot.c)

    The firmware's E820 entries, inserted in order of their start address,
    merged, and read back by row number.  The two singly linked lists that
    thread the slots ([next] and [type_next], kern/lib/queue.h) are the
    sequences of slots they link. *)

From stdpp Require Import base gmap list numbers sorting.
From S2P Require Import Prelude Lock.

Definition PAGESIZE : Z := 4096.

Definition MEM_RAM : Z := 1.
Definition MEM_RESERVED : Z := 2.
Definition MEM_ACPI : Z := 3.
Definition MEM_NVS : Z := 4.

Record mboot_mmap : Type := MMap {
  size : Z; base_addr_low : Z; base_addr_high : Z;
  length_low : Z; length_high : Z; mtype : Z
}.
(** sizeof(mboot_mmap_t) *)
Definition SIZEOF_MMAP : Z := 24.

Record pmmap : Type := Pm { start : Z; end_ : Z; type : Z }.

Record st : Type := St {
  pmmap_slots_next_free : Z;
  pmmap_list : list pmmap;
  pmmap_sublist : Z -> list pmmap;
  max_usable_memory : Z;
  mem_npages : Z;
  pmmap_nentries : Z
}.

(** The zeroed globals at boot. *)
Definition st0 : st := St 0 [] (fun _ => []) 0 0 0.

Definition set_list (l : list pmmap) (s : st) : st :=
  St (pmmap_slots_next_free s) l (pmmap_sublist s) (max_usable_memory s) (mem_npages s)
     (pmmap_nentries s).
Definition set_sublist (f : Z -> list pmmap) (s : st) : st :=
  St (pmmap_slots_next_free s) (pmmap_list s) f (max_usable_memory s) (mem_npages s)
     (pmmap_nentries s).

Definition PMMAP_USABLE : Z := 0.
Definition PMMAP_RESV : Z := 1.
Definition PMMAP_ACPI : Z := 2.
Definition PMMAP_NVS : Z := 3.

Definition PMMAP_SUBLIST_NR (type : Z) : Z :=
  if type =? MEM_RAM then PMMAP_USABLE
  else if type =? MEM_RESERVED then PMMAP_RESV
  else if type =? MEM_ACPI then PMMAP_ACPI
  else if type =? MEM_NVS then PMMAP_NVS else -1.

(** pmmap_alloc_slot: [false] is NULL, the array of 128 slots is used up. *)
Definition pmmap_alloc_slot : K st bool :=
  s ← get;
  if pmmap_slots_next_free s =? 128 then mret false
  else
    put (St (pmmap_slots_next_free s + 1) (pmmap_list s) (pmmap_sublist s)
            (max_usable_memory s) (mem_npages s) (pmmap_nentries s)) ;;
    mret true.

(** The scan of pmmap_insert: the new slot goes after the last slot before
    the first one that starts above it. *)
Fixpoint slist_insert (x : pmmap) (l : list pmmap) : list pmmap :=
  match l with
  | [] => [x]
  | slot :: l' => if start x <? start slot then x :: slot :: l' else slot :: slist_insert x l'
  end.

Definition pmmap_insert (start end_ type : Z) : K st unit :=
  ok ← pmmap_alloc_slot;
  if negb ok then panic
  else modify (fun s => set_list (slist_insert (Pm start end_ type) (pmmap_list s)) s).

(** Step 1 of pmmap_merge.  After a merge SLIST_FOREACH moves on to the slot
    behind the removed one. *)
Fixpoint merge_list (l : list pmmap) : list pmmap :=
  match l with
  | slot :: ((next_slot :: rest) as l') =>
      if (start slot <=? start next_slot) && (start next_slot <=? end_ slot)
         && (type slot =? type next_slot)
      then Pm (start slot) (Types.max (end_ slot) (end_ next_slot)) (type slot) :: merge_list rest
      else slot :: merge_list l'
  | _ => l
  end.

(** Step 2: [pre] holds the slots already linked into each sublist; the
    next slot of a type goes behind the last one. *)
Fixpoint link_sublists (l : list pmmap) (pre : Z -> list pmmap) : K st (Z -> list pmmap) :=
  match l with
  | [] => mret pre
  | slot :: l' =>
      let sublist_nr := PMMAP_SUBLIST_NR (type slot) in
      kern_assert (negb (sublist_nr =? -1)) ;;
      link_sublists l' (fun nr => if nr =? sublist_nr then pre nr ++ [slot] else pre nr)
  end.

Definition pmmap_merge : K st unit :=
  modify (fun s => set_list (merge_list (pmmap_list s)) s) ;;
  s ← get;
  pre ← link_sublists (pmmap_list s) (fun _ => []);
  modify (fun s => set_sublist (fun nr => pre nr ++ pmmap_sublist s nr) s) ;;
  match last (pre PMMAP_USABLE) with
  | Some slot => modify (fun s => St (pmmap_slots_next_free s) (pmmap_list s) (pmmap_sublist s)
                                     (end_ slot) (mem_npages s) (pmmap_nentries s))
  | None => mret tt
  end.

(** The range an entry below 4G covers, clipped to 32 bits. *)
Definition entry_end (p : mboot_mmap) : Z :=
  if negb (length_high p =? 0) || (4294967295 - base_addr_low p <=? length_low p)
  then 4294967295 else u32 (base_addr_low p + length_low p).

(** The copy loop of pmmap_init; [off] is p - mbi->mmap_addr. *)
Definition copy_entry (mmap_length : Z) (mmap : Z -> mboot_mmap) (off : Z) : K st (Z + unit) :=
  if negb (off <? mmap_length) then mret (inr tt)
  else
    let p := mmap off in
    (if negb (base_addr_high p =? 0) then mret tt
     else pmmap_insert (base_addr_low p) (entry_end p) (mtype p)) ;;
    mret (inl (u32 (off + SIZEOF_MMAP))).

(** [mmap off] is the entry [off] bytes into the firmware's table. *)
Definition pmmap_init (mmap_length : Z) (mmap : Z -> mboot_mmap) : K st unit :=
  modify (set_list []) ;;
  modify (set_sublist (fun _ => [])) ;;
  while (copy_entry mmap_length mmap) 0 ;;
  pmmap_merge ;;
  modify (fun s => St (pmmap_slots_next_free s) (pmmap_list s) (pmmap_sublist s)
    (max_usable_memory s) (mem_npages s) (pmmap_nentries s + Z.of_nat (length (pmmap_list s)))) ;;
  modify (fun s => St (pmmap_slots_next_free s) (pmmap_list s) (pmmap_sublist s)
    (max_usable_memory s) (Types.rounddown (max_usable_memory s) PAGESIZE / PAGESIZE)
    (pmmap_nentries s)).

Definition get_size : K st Z := gets pmmap_nentries.

(** The scan shared by get_mms, get_mml and is_usable: the slot number
    [idx], NULL when the list is shorter, and the count reached. *)
Fixpoint slist_nth (l : list pmmap) (i idx : Z) : option pmmap * Z :=
  match l with
  | [] => (None, i)
  | slot :: l' => if i =? idx then (Some slot, i) else slist_nth l' (i + 1) idx
  end.

Definition row {A} (idx : Z) (dflt : A) (f : pmmap -> A) : K st A :=
  s ← get;
  let '(slot, i) := slist_nth (pmmap_list s) 0 idx in
  match slot with
  | None => mret dflt
  | Some slot => if i =? pmmap_nentries s then mret dflt else mret (f slot)
  end.

Definition get_mms (idx : Z) : K st Z := row idx 0 start.
Definition get_mml (idx : Z) : K st Z := row idx 0 (fun slot => u32 (end_ slot - start slot)).
Definition is_usable (idx : Z) : K st Z :=
  row idx 0 (fun slot => if type slot =? MEM_RAM then 1 else 0).

(** ** Facts *)

(** Address [a] lies in a range of type [t]. *)
Definition covered (l : list pmmap) (t a : Z) : Prop :=
  exists e, e ∈ l /\ type e = t /\ start e <= a < end_ e.

(** Every range is one of 32-bit addresses and has a known type. *)
Definition entry_wf (e : pmmap) : Prop :=
  0 <= start e <= end_ e /\ end_ e < W32.
Definition known_type (t : Z) : Prop := 1 <= t <= 4.

Definition by_start (a b : pmmap) : Prop := start a <= start b.
#[global] Instance by_start_trans : Transitive by_start.
Proof. unfold by_start. intros ????. lia. Qed.

Lemma slist_insert_elem x l e : e ∈ slist_insert x l <-> e = x \/ e ∈ l.
Proof.
  induction l as [|y l IH]; simpl; [set_solver|].
  case_match; rewrite !elem_of_cons; [done|]. rewrite IH. tauto.
Qed.

Lemma slist_insert_length x l : length (slist_insert x l) = S (length l).
Proof. induction l as [|y l IH]; simpl; [done|]. case_match; simpl; congruence. Qed.

Lemma slist_insert_sorted x l :
  StronglySorted by_start l -> StronglySorted by_start (slist_insert x l).
Proof.
  induction 1 as [|y l Hs IH Hf]; simpl; [by repeat constructor|].
  case_match eqn:E.
  - constructor; [by constructor|]. constructor; [unfold by_start; lia|].
    eapply Forall_impl; [done|]. unfold by_start. intros z. lia.
  - constructor; [done|]. apply Forall_forall. intros z [->|Hz]%slist_insert_elem.
    + unfold by_start. lia.
    + by eapply Forall_forall in Hf.
Qed.

Lemma merge_list_ind (P : list pmmap -> Prop) :
  P [] -> (forall x, P [x]) ->
  (forall x y l, P l -> P (y :: l) -> P (x :: y :: l)) -> forall l, P l.
Proof.
  intros H0 H1 H2 l. assert (P l /\ forall x, P (x :: l)) as [? _]; [|done].
  induction l as [|y l [IH IH']]; [auto|]. split; [auto|]. intros x. by apply H2.
Qed.

Lemma merge_list_cons2 x y l :
  merge_list (x :: y :: l) =
  if (start x <=? start y) && (start y <=? end_ x) && (type x =? type y)
  then Pm (start x) (Types.max (end_ x) (end_ y)) (type x) :: merge_list l
  else x :: merge_list (y :: l).
Proof. reflexivity. Qed.

Lemma merge_list_covered l t a : covered (merge_list l) t a <-> covered l t a.
Proof.
  unfold covered. induction l as [|x|x y l IH IH'] using merge_list_ind; [done|done|].
  rewrite merge_list_cons2. case_match eqn:E.
  - setoid_rewrite elem_of_cons. setoid_rewrite elem_of_cons.
    split.
    + intros (e & [->|He] & Ht & Ha); simpl in *.
      * unfold Types.max in Ha. case_match.
        -- exists x. naive_solver.
        -- destruct (decide (a < end_ x)); [exists x; naive_solver|].
           exists y. split; [by right; left|]. split; [lia|]. lia.
      * destruct IH as [IH _]. destruct IH as (e' & ? & ? & ?); naive_solver.
    + intros (e & [->|[->|He]] & Ht & Ha).
      * eexists. split; [by left|]. simpl. split; [done|]. unfold Types.max. case_match; lia.
      * eexists. split; [by left|]. simpl. split; [lia|]. unfold Types.max. case_match; lia.
      * destruct IH as [_ IH]. destruct IH as (e' & ? & ? & ?); naive_solver.
  - setoid_rewrite elem_of_cons. setoid_rewrite elem_of_cons in IH'.
    split.
    + intros (e & [->|He] & Hr); [naive_solver|].
      destruct IH' as [IH' _]. destruct IH' as (e' & He' & Hr'); [naive_solver|].
      exists e'. rewrite elem_of_cons. naive_solver.
    + intros (e & [->|He] & Hr); [naive_solver|]. rewrite elem_of_cons in He.
      destruct IH' as [_ IH']. destruct IH' as (e' & He' & Hr'); naive_solver.
Qed.

Lemma merge_list_start l e : e ∈ merge_list l -> exists e', e' ∈ l /\ start e = start e'.
Proof.
  revert e. induction l as [|x|x y l IH IH'] using merge_list_ind; [naive_solver..|].
  intros e. rewrite merge_list_cons2. case_match; intros [->|He]%elem_of_cons.
  - exists x. split; [set_solver|done].
  - destruct (IH _ He) as (e' & ? & ?). exists e'. split; [set_solver|done].
  - exists x. split; [set_solver|done].
  - destruct (IH' _ He) as (e' & ? & ?). exists e'. split; [set_solver|done].
Qed.

Lemma merge_list_sorted l : StronglySorted by_start l -> StronglySorted by_start (merge_list l).
Proof.
  induction l as [|x|x y l IH IH'] using merge_list_ind; [done|done|].
  intros Hs. inversion_clear Hs as [|?? Hs' Hx]. inversion_clear Hs' as [|?? Hs'' Hy].
  rewrite merge_list_cons2. case_match.
  - constructor; [by apply IH|]. apply Forall_forall. intros e He. unfold by_start. simpl.
    apply merge_list_start in He as (e' & He' & ->).
    rewrite Forall_forall in Hx. apply Hx. set_solver.
  - constructor; [by apply IH'; constructor|]. apply Forall_forall. intros e He. unfold by_start.
    apply merge_list_start in He as (e' & He' & ->).
    rewrite Forall_forall in Hx. by apply Hx.
Qed.

Lemma merge_list_Forall (P : pmmap -> Prop) l :
  (forall x y, P x -> P y -> P (Pm (start x) (Types.max (end_ x) (end_ y)) (type x))) ->
  Forall P l -> Forall P (merge_list l).
Proof.
  intros HP. induction l as [|x|x y l IH IH'] using merge_list_ind; [done|done|].
  intros Hf. rewrite !Forall_cons in Hf. destruct Hf as (Hx & Hy & Hl).
  rewrite merge_list_cons2. case_match; constructor; auto.
Qed.

Lemma merge_list_length l : (length (merge_list l) <= length l)%nat.
Proof.
  induction l as [|x|x y l IH IH'] using merge_list_ind; [done|done|].
  rewrite merge_list_cons2. case_match; simpl in *; lia.
Qed.

Lemma slist_nth_lookup l : forall i (k : nat) e, l !! k = Some e ->
  slist_nth l i (i + Z.of_nat k) = (Some e, i + Z.of_nat k).
Proof.
  induction l as [|x l IH]; intros i k e He; [done|]. simpl.
  destruct k as [|k]; simplify_eq/=.
  - by rewrite Z.add_0_r, Z.eqb_refl.
  - zbool.
    replace (i + Z.of_nat (S k)) with (i + 1 + Z.of_nat k) by lia. auto.
Qed.

(** The table the rows are read from: [pmmap_nentries] counts the list. *)
Definition table_ok (s : st) : Prop := pmmap_nentries s = Z.of_nat (length (pmmap_list s)).

Lemma row_lookup {A} (s : st) idx (d : A) f e :
  table_ok s -> 0 <= idx -> pmmap_list s !! Z.to_nat idx = Some e ->
  row idx d f s = Ok (f e) s.
Proof.
  intros Ht Hi He. unfold row. krun.
  pose proof (slist_nth_lookup (pmmap_list s) 0 (Z.to_nat idx) e He) as E.
  rewrite Z.add_0_l, Z2Nat.id in E by done. rewrite E.
  apply lookup_lt_Some in He. rewrite Ht.
  by rewrite (proj2 (Z.eqb_neq idx _)) by lia.
Qed.

(** A firmware entry: 32-bit fields, and one of the four known types when
    the entry is used. *)
Definition mmap_wf (p : mboot_mmap) : Prop :=
  is_u32 (base_addr_low p) /\ is_u32 (length_low p) /\
  (base_addr_high p = 0 -> known_type (mtype p)).

(** What the firmware table says about address [a]. *)
Definition firmware_covers (mmap : Z -> mboot_mmap) (n t a : Z) : Prop :=
  exists i, 0 <= i < n /\ base_addr_high (mmap (SIZEOF_MMAP * i)) = 0 /\
    mtype (mmap (SIZEOF_MMAP * i)) = t /\
    base_addr_low (mmap (SIZEOF_MMAP * i)) <= a < entry_end (mmap (SIZEOF_MMAP * i)).

Lemma entry_end_wf p : mmap_wf p -> base_addr_low p <= entry_end p < W32.
Proof.
  intros (Hb & Hl & _). unfold is_u32, entry_end, u32, W32 in *.
  case_match; [lia|]. rewrite Z.mod_small; lia.
Qed.

Record copied (mmap : Z -> mboot_mmap) (i : Z) (s : st) : Prop := {
  cp_sorted : StronglySorted by_start (pmmap_list s);
  cp_wf : Forall (fun e => entry_wf e /\ known_type (type e)) (pmmap_list s);
  cp_slots : 0 <= pmmap_slots_next_free s <= i;
  cp_len : Z.of_nat (length (pmmap_list s)) <= i;
  cp_count : pmmap_nentries s = 0;
  cp_cov : forall t a, covered (pmmap_list s) t a <-> firmware_covers mmap i t a
}.

Lemma firmware_covers_succ mmap i t a : 0 <= i ->
  firmware_covers mmap (i + 1) t a <->
  firmware_covers mmap i t a \/
  (base_addr_high (mmap (SIZEOF_MMAP * i)) = 0 /\ mtype (mmap (SIZEOF_MMAP * i)) = t /\
   base_addr_low (mmap (SIZEOF_MMAP * i)) <= a < entry_end (mmap (SIZEOF_MMAP * i))).
Proof.
  intros Hi. unfold firmware_covers. split.
  - intros (j & Hj & Hr). destruct (decide (j = i)) as [->|]; [by right|].
    left. exists j. split; [lia|done].
  - intros [(j & Hj & Hr)|Hr]; [exists j|exists i]; (split; [lia|done]).
Qed.

Lemma insert_copied mmap i s :
  0 <= i < 128 -> mmap_wf (mmap (SIZEOF_MMAP * i)) ->
  base_addr_high (mmap (SIZEOF_MMAP * i)) = 0 -> copied mmap i s ->
  let p := mmap (SIZEOF_MMAP * i) in
  wp (pmmap_insert (base_addr_low p) (entry_end p) (mtype p))
     (fun _ s' => copied mmap (i + 1) s') s.
Proof.
  intros Hi Hp Hh [Hs Hw Hf Hlen Hc Hcov] p. unfold pmmap_insert, pmmap_alloc_slot.
  wp_steps. zbool. wp_steps. simpl. wp_steps.
  pose proof (entry_end_wf _ Hp) as He. destruct Hp as (Hb & _ & Ht). specialize (Ht Hh).
  split; simpl; [by apply slist_insert_sorted| |lia|rewrite slist_insert_length; lia|done|].
  - apply Forall_forall. intros e [->|Hin]%slist_insert_elem.
    + repeat split; simpl; unfold is_u32 in *; subst p; try lia; apply Ht.
    + rewrite Forall_forall in Hw. by apply Hw.
  - intros t a. rewrite firmware_covers_succ, <- Hcov by lia. unfold covered.
    setoid_rewrite slist_insert_elem. split.
    + intros (e & [->|Hin] & Hr); [right|left]; naive_solver.
    + intros [(e & Hin & Hr)|(_ & Hr)]; [naive_solver|]. eexists. split; [by left|done].
Qed.

Lemma copy_loop mmap n :
  0 <= n <= 128 -> (forall i, 0 <= i < n -> mmap_wf (mmap (SIZEOF_MMAP * i))) ->
  forall s, copied mmap 0 s ->
  wp (while (copy_entry (SIZEOF_MMAP * n) mmap) 0) (fun _ s' => copied mmap n s') s.
Proof.
  intros Hn Hwf s Hs. unfold SIZEOF_MMAP in *.
  apply (wp_while _ (fun off s => exists i, off = 24 * i /\ 0 <= i <= n /\ copied mmap i s)
                    (fun off _ => 24 * n - off)); [|by exists 0; split; [|split; [lia|]]|lia].
  clear s Hs. intros off s (i & -> & Hi & Hs) _. unfold copy_entry.
  destruct (24 * i <? 24 * n) eqn:E; simpl negb; cbv iota; wp_steps.
  - apply Z.ltb_lt in E.
    assert (Hx : u32 (24 * i + SIZEOF_MMAP) = 24 * (i + 1)).
    { unfold u32, W32, SIZEOF_MMAP. rewrite Z.mod_small; lia. }
    destruct (base_addr_high (mmap (24 * i)) =? 0) eqn:Eh; simpl negb; cbv iota.
    + wp_call (insert_copied mmap i s); [lia|apply Hwf; lia|by apply Z.eqb_eq|done|].
      intros [] s' Hs'. wp_steps. rewrite Hx. split; [|lia]. exists (i + 1). split; [done|].
      split; [lia|done].
    + wp_steps. rewrite Hx. split; [|lia]. exists (i + 1). split; [done|]. split; [lia|].
      destruct Hs as [???? Hc Hcov]. split; [done..|lia|lia|done|].
      intros t a. rewrite firmware_covers_succ, <- Hcov by lia. apply Z.eqb_neq in Eh.
      unfold SIZEOF_MMAP. tauto.
  - assert (i = n) as -> by lia. done.
Qed.

Lemma link_sublists_ok l : forall pre s,
  Forall (fun e => known_type (type e)) l ->
  exists pre', link_sublists l pre s = Ok pre' s.
Proof.
  induction l as [|x l IH]; intros pre s Hl; simpl; [eauto|].
  apply Forall_cons in Hl as [Hx Hl]. krun.
  assert (negb (PMMAP_SUBLIST_NR (type x) =? -1) = true) as ->; [|by apply IH].
  unfold known_type, PMMAP_SUBLIST_NR, MEM_RAM, MEM_RESERVED, MEM_ACPI, MEM_NVS in *.
  repeat case_match; try reflexivity. lia.
Qed.

Lemma pmmap_init_wp mmap n :
  0 <= n <= 128 -> (forall i, 0 <= i < n -> mmap_wf (mmap (SIZEOF_MMAP * i))) ->
  wp (pmmap_init (SIZEOF_MMAP * n) mmap)
     (fun _ s => StronglySorted by_start (pmmap_list s) /\ Forall entry_wf (pmmap_list s) /\
        table_ok s /\ Z.of_nat (length (pmmap_list s)) <= n /\
        forall t a, covered (pmmap_list s) t a <-> firmware_covers mmap n t a) st0.
Proof.
  intros Hn Hwf. unfold pmmap_init. wp_steps.
  wp_call (copy_loop mmap n Hn Hwf).
  { split; simpl; [constructor|constructor|lia|lia|done|].
    intros t a. unfold covered, firmware_covers. split; [set_solver|]. intros (i & ? & _). lia. }
  intros [] s [Hs Hw _ Hlen Hc Hcov]. unfold pmmap_merge. wp_steps.
  assert (Hm : Forall (fun e => entry_wf e /\ known_type (type e)) (merge_list (pmmap_list s))).
  { apply merge_list_Forall; [|done]. intros x y [Hx Ht] [Hy _]. split; [|done].
    unfold entry_wf, Types.max in *; simpl. case_match; lia. }
  destruct (link_sublists_ok (merge_list (pmmap_list s)) (fun _ => [])
    (set_list (merge_list (pmmap_list s)) s)) as [pre Epre].
  { eapply Forall_impl; [done|]. naive_solver. }
  eapply wp_of_eq; [exact Epre|]. wp_steps.
  assert (Hfin : StronglySorted by_start (merge_list (pmmap_list s)) /\
    Forall entry_wf (merge_list (pmmap_list s)) /\
    Z.of_nat (length (merge_list (pmmap_list s))) <= n /\
    forall t a, covered (merge_list (pmmap_list s)) t a <-> firmware_covers mmap n t a).
  { split; [by apply merge_list_sorted|]. split; [eapply Forall_impl; [done|naive_solver]|].
    split; [pose proof (merge_list_length (pmmap_list s)); lia|]. intros t a. by rewrite merge_list_covered. }
  destruct Hfin as (? & ? & ? & ?).
  destruct (last (pre PMMAP_USABLE)); wp_steps; unfold table_ok; simpl; rewrite Hc; auto.
Qed.



(** The merge pass stops short: a range that overlaps the result of a merge
    is left unmerged, because the iteration has moved past it. *)
Example merge_list_incomplete :
  merge_list [Pm 0 10 1; Pm 5 15 1; Pm 12 20 1] = [Pm 0 15 1; Pm 12 20 1].
Proof. reflexivity. Qed.
