(* ===== verification/Pmm.v ===== *)
(** * Physical memory management (kern/pmm/MATIntro, MATInit, MATOp)

    The allocation table AT of physical pages, its initialisation from the
    memory map, and the page allocator. *)

From stdpp Require Import base gmap list numbers sorting.
From S2P Require Import Prelude Lock Pmmap.
Import Spinlock.

Definition VM_USERLO : Z := 1073741824.     (* 0x40000000 *)
Definition VM_USERHI : Z := 4026531840.     (* 0xF0000000 *)
Definition VM_USERLO_PI : Z := Eval cbv in VM_USERLO / PAGESIZE.
Definition VM_USERHI_PI : Z := Eval cbv in VM_USERHI / PAGESIZE.
(** The number of entries of AT. *)
Definition AT_SIZE : Z := 1048576.          (* 1 << 20 *)

Record ATStruct : Type := At { perm : Z; allocated : Z }.
#[global] Instance ATStruct_inhabited : Inhabited ATStruct := populate (At 0 0).
#[global] Instance ATStruct_eq_dec : EqDecision ATStruct.
Proof. solve_decision. Defined.

(** The globals of the layers; [e820] is the state of the memory map below
    them, and an index that [AT] does not bind reads as the zeroed entry. *)
Record pmm : Type := Pmm {
  e820 : Pmmap.st;
  mem_lk : spinlock_t;
  NUM_PAGES : Z;
  AT : gmap Z ATStruct;
  last_palloc_index : Z
}.

(** The globals after the BSS has been cleared; [last_palloc_index] is
    initialised data. *)
Definition pmm0 : pmm := Pmm Pmmap.st0 inhabitant 0 ∅ VM_USERLO_PI.

Definition l_e820 : lens pmm Pmmap.st :=
  Lens e820 (fun x s => Pmm x (mem_lk s) (NUM_PAGES s) (AT s) (last_palloc_index s)).
Definition l_mem_lk : lens pmm spinlock_t :=
  Lens mem_lk (fun x s => Pmm (e820 s) x (NUM_PAGES s) (AT s) (last_palloc_index s)).
Definition set_AT (x : gmap Z ATStruct) (s : pmm) : pmm :=
  Pmm (e820 s) (mem_lk s) (NUM_PAGES s) x (last_palloc_index s).
Definition set_last (x : Z) (s : pmm) : pmm := Pmm (e820 s) (mem_lk s) (NUM_PAGES s) (AT s) x.

Module MATIntro.
Definition mem_spinlock_init : K pmm unit := zoom l_mem_lk spinlock_init.
Definition mem_lock (ks : kstack) : K pmm unit := zoom l_mem_lk (spinlock_acquire ks).
Definition mem_unlock : K pmm unit := zoom l_mem_lk spinlock_release.

Definition get_nps : K pmm Z := gets NUM_PAGES.
Definition set_nps (nps : Z) : K pmm unit :=
  modify (fun s => Pmm (e820 s) (mem_lk s) nps (AT s) (last_palloc_index s)).

Definition at_is_norm (page_index : Z) : K pmm Z :=
  check (in_array page_index AT_SIZE) ;;
  p ← gets (fun s => perm (AT s !!! page_index));
  mret (if 1 <? p then 1 else 0).

Definition at_set_perm (page_index p : Z) : K pmm unit :=
  check (in_array page_index AT_SIZE) ;;
  modify (fun s => set_AT (<[page_index := At p (allocated (AT s !!! page_index))]> (AT s)) s) ;;
  modify (fun s => set_AT (<[page_index := At (perm (AT s !!! page_index)) 0]> (AT s)) s).

Definition at_is_allocated (page_index : Z) : K pmm Z :=
  check (in_array page_index AT_SIZE) ;;
  a ← gets (fun s => allocated (AT s !!! page_index));
  mret (if 0 <? a then 1 else a).

Definition at_set_allocated (page_index a : Z) : K pmm unit :=
  check (in_array page_index AT_SIZE) ;;
  modify (fun s => set_AT (<[page_index := At (perm (AT s !!! page_index)) a]> (AT s)) s).
End MATIntro.
Import MATIntro.

Module MATInit.
(** The first loop of pmem_init: the highest address of the map. *)
Definition nps_body (pmmap_size : Z) (x : Z * Z) : K pmm ((Z * Z) + Z) :=
  let '(entry_idx, nps) := x in
  if negb (entry_idx <? pmmap_size) then mret (inr nps)
  else
    mms ← zoom l_e820 (get_mms entry_idx);
    mml ← zoom l_e820 (get_mml entry_idx);
    let cur_addr := u32 (mms + mml) in
    mret (inl (u32 (entry_idx + 1), if nps <? cur_addr then cur_addr else nps)).

(** The search for a row that contains page [pg_idx]. *)
Definition find_body (pmmap_size pg_idx : Z) (x : Z * Z * Z)
    : K pmm ((Z * Z * Z) + (Z * Z)) :=
  let '(entry_idx, flag, isnorm) := x in
  if negb ((entry_idx <? pmmap_size) && (flag =? 0)) then mret (inr (flag, isnorm))
  else
    isnorm ← zoom l_e820 (is_usable entry_idx);
    start ← zoom l_e820 (get_mms entry_idx);
    len ← zoom l_e820 (get_mml entry_idx);
    let flag := if (start <=? u32 (pg_idx * PAGESIZE))
                   && (u32 (u32 (pg_idx + 1) * PAGESIZE) <=? u32 (start + len))
                then 1 else flag in
    mret (inl (u32 (entry_idx + 1), flag, isnorm)).

Definition init_page (pmmap_size pg_idx : Z) : K pmm unit :=
  if (pg_idx <? VM_USERLO_PI) || (VM_USERHI_PI <=? pg_idx) then at_set_perm pg_idx 1
  else
    r ← while (find_body pmmap_size pg_idx) (0, 0, 0);
    let '(flag, isnorm) := r in
    if negb (flag =? 0) && negb (isnorm =? 0) then at_set_perm pg_idx 2
    else at_set_perm pg_idx 0.

(** Of the calls of devinit only pmmap_init changes the modelled globals;
    the clearing of the BSS in seg_init is the initial state [pmm0]. *)
Definition devinit (mmap_length : Z) (mmap : Z -> mboot_mmap) : K pmm unit :=
  zoom l_e820 (pmmap_init mmap_length mmap).

Definition pmem_init (mmap_length : Z) (mmap : Z -> mboot_mmap) : K pmm unit :=
  devinit mmap_length mmap ;;
  mem_spinlock_init ;;
  pmmap_size ← zoom l_e820 get_size;
  nps ← while (nps_body pmmap_size) (0, 0);
  let nps := (nps - nps mod PAGESIZE) / PAGESIZE in
  set_nps nps ;;
  for_range 0 nps (init_page pmmap_size).
End MATInit.

Module MATOp.
Definition palloc_body (nps : Z) (x : Z * Z * bool)
    : K pmm ((Z * Z * bool) + Z) :=
  let '(palloc_index, palloc_free_index, first) := x in
  last ← gets last_palloc_index;
  if negb ((negb (palloc_index =? last) || first) && (palloc_free_index =? nps))
  then mret (inr palloc_free_index)
  else
    norm ← at_is_norm palloc_index;
    free ← (if negb (norm =? 0) then
              a ← at_is_allocated palloc_index; mret (a =? 0)
            else mret false);
    let palloc_free_index := if (free : bool) then palloc_index else palloc_free_index in
    let palloc_index := u32 (palloc_index + 1) in
    let palloc_index := if VM_USERHI_PI <=? palloc_index then VM_USERLO_PI else palloc_index in
    mret (inl (palloc_index, palloc_free_index, false)).

Definition palloc (ks : kstack) : K pmm Z :=
  mem_lock ks ;;
  nps ← get_nps;
  last ← gets last_palloc_index;
  palloc_free_index ← while (palloc_body nps) (last, nps, true);
  palloc_free_index ←
    (if palloc_free_index =? nps then
       modify (set_last VM_USERLO_PI) ;;
       mret 0
     else
       at_set_allocated palloc_free_index 1 ;;
       modify (set_last palloc_free_index) ;;
       mret palloc_free_index);
  mem_unlock ;;
  mret palloc_free_index.

Definition pfree (ks : kstack) (pfree_index : Z) : K pmm unit :=
  mem_lock ks ;;
  at_set_allocated pfree_index 0 ;;
  mem_unlock.
End MATOp.
Import MATInit MATOp.

(** ** The page allocator

    A page is available when it is normal and not allocated. *)
Definition norm (s : pmm) (i : Z) : Prop := 1 < perm (AT s !!! i).
Definition avail (s : pmm) (i : Z) : Prop := norm s i /\ allocated (AT s !!! i) <= 0.
Definition user_page (i : Z) : Prop := VM_USERLO_PI <= i < VM_USERHI_PI.

#[global] Instance norm_dec s i : Decision (norm s i).
Proof. unfold norm. apply _. Defined.
#[global] Instance avail_dec s i : Decision (avail s i).
Proof. unfold avail. apply _. Defined.

(** What every operation keeps: only pages of user memory below NUM_PAGES
    are normal, flags are unsigned, only normal pages are allocated, the search starts inside user memory,
    and the lock is free between operations. *)
Record at_inv (s : pmm) : Prop := {
  pi_nps : 0 <= NUM_PAGES s <= AT_SIZE;
  pi_norm : forall i, norm s i -> user_page i /\ i < NUM_PAGES s;
  pi_flags : forall i, 0 <= allocated (AT s !!! i);
  pi_taken : forall i, 0 < allocated (AT s !!! i) -> norm s i;
  pi_last : user_page (last_palloc_index s)
}.
Definition pmm_inv (s : pmm) : Prop := lock (mem_lk s) = 0 /\ at_inv s.

Ltac pmm_consts :=
  unfold user_page, VM_USERLO_PI, VM_USERHI_PI, AT_SIZE, VM_USERLO, VM_USERHI, PAGESIZE, W32 in *.

(** The steps from [last] to [i], going up and around. *)
Definition cdist (last i : Z) : Z :=
  if last <=? i then i - last else (VM_USERHI_PI - last) + (i - VM_USERLO_PI).
Definition cnext (i : Z) : Z := if VM_USERHI_PI <=? i + 1 then VM_USERLO_PI else i + 1.

Lemma mem_lock_free ks s : kstack_ok ks -> lock (mem_lk s) = 0 ->
  mem_lock ks s = Ok tt (lset l_mem_lk (held_lock ks) s).
Proof.
  intros Hks Hl. unfold mem_lock, zoom. destruct s as [? [h v] ? ? ?]; simpl in *.
  subst. by rewrite acquire_free.
Qed.

Lemma at_is_norm_eq s i : 0 <= i < AT_SIZE ->
  at_is_norm i s = Ok (if decide (norm s i) then 1 else 0) s.
Proof.
  intros Hi. unfold at_is_norm, norm. krun. unfold in_array. zbool. krun.
  case_decide; zbool; done.
Qed.

Lemma at_is_allocated_eq s i : 0 <= i < AT_SIZE -> 0 <= allocated (AT s !!! i) ->
  exists a, at_is_allocated i s = Ok a s /\ (a = 0 <-> allocated (AT s !!! i) <= 0) /\ 0 <= a <= 1.
Proof.
  intros Hi Ha. unfold at_is_allocated. krun. unfold in_array. zbool. krun.
  eexists; split; [reflexivity|]. case_match; lia.
Qed.

Definition palloc_measure (last : Z) (x : Z * Z * bool) : Z :=
  let '(i, _, first) := x in
  if first then VM_USERHI_PI - VM_USERLO_PI + 1
  else if i =? last then 0 else VM_USERHI_PI - VM_USERLO_PI - cdist last i.

(** Loop invariant: the first [k] pages from [last] on have been seen. *)
Definition palloc_loop_inv (s : pmm) (x : Z * Z * bool) : Prop :=
  let '(i, free, first) := x in
  let last := last_palloc_index s in
  user_page i /\
  exists k, 0 <= k <= VM_USERHI_PI - VM_USERLO_PI /\
    (if first then k = 0 /\ i = last
     else 0 < k /\ (i = last /\ k = VM_USERHI_PI - VM_USERLO_PI \/ i <> last /\ k = cdist last i)) /\
    (free = NUM_PAGES s /\ (forall j, user_page j -> cdist last j < k -> ~ avail s j) \/
     avail s free /\ cdist last free = k - 1 /\
     forall j, user_page j -> cdist last j < cdist last free -> ~ avail s j).

(** The result of the search: the first available page from [last] on. *)
Definition palloc_found (s : pmm) (r : Z) : Prop :=
  r = NUM_PAGES s /\ (forall j, ~ avail s j) \/
  avail s r /\ forall j, user_page j ->
    cdist (last_palloc_index s) j < cdist (last_palloc_index s) r -> ~ avail s j.

Lemma cdist_bound last i : user_page last -> user_page i ->
  0 <= cdist last i < VM_USERHI_PI - VM_USERLO_PI.
Proof. intros. unfold cdist. pmm_consts. case_match; lia. Qed.

Lemma cdist_inj last i j : user_page last -> user_page i -> user_page j ->
  cdist last i = cdist last j -> i = j.
Proof. intros. unfold cdist in *. pmm_consts. repeat case_match; lia. Qed.

Lemma cdist_next last i : user_page last -> user_page i ->
  (cnext i = last /\ cdist last i = VM_USERHI_PI - VM_USERLO_PI - 1) \/
  (cnext i <> last /\ cdist last (cnext i) = cdist last i + 1).
Proof. intros. unfold cnext, cdist. pmm_consts. repeat case_match; lia. Qed.

Lemma cnext_user i : user_page i -> user_page (cnext i).
Proof. intros. unfold cnext. pmm_consts. case_match; lia. Qed.

Lemma palloc_body_spec s x :
  at_inv s -> palloc_loop_inv s x ->
  wp (palloc_body (NUM_PAGES s) x)
    (fun r s' => s' = s /\ match r with
       | inl x' => palloc_loop_inv s x' /\
           0 <= palloc_measure (last_palloc_index s) x' < palloc_measure (last_palloc_index s) x
       | inr v => palloc_found s v end) s.
Proof.
  intros [Hnps Hnorm Hfl _ Hlast] Hx. destruct x as [[i free] first].
  destruct Hx as (Hi & k & Hk & Hfirst & Hfree).
  unfold palloc_body. wp_steps. set (last := last_palloc_index s) in *.
  pose proof (cdist_bound last i Hlast Hi) as Hb.
  destruct ((negb (i =? last) || first) && (free =? NUM_PAGES s)) eqn:E; simpl negb; cbv iota.
  - (* the loop goes on: [free = nps] and [i] is the [k]-th page *)
    assert (Hk' : k = cdist last i).
    { destruct first; [destruct Hfirst as [-> ->]; unfold cdist; zbool; lia|].
      destruct Hfirst as (? & [[-> ?]|[? ?]]); [|done]. exfalso.
      rewrite Z.eqb_refl in E. done. }
    assert (Hnone : forall j, user_page j -> cdist last j < k -> ~ avail s j).
    { destruct Hfree as [[_ ?]|[Ha _]]; [done|]. destruct Ha as [Hn _].
      apply Hnorm in Hn. assert (free = NUM_PAGES s) by lia. lia. }
    assert (Hrange : 0 <= i < AT_SIZE) by (pmm_consts; lia).
    wp_steps. eapply wp_of_eq; [by apply at_is_norm_eq|]. cbv beta.
    wp_steps. apply (wp_mono _ (fun (fr : bool) s' => s' = s /\ (fr = true <-> avail s i))).
    { unfold avail. case_decide as Hn; zbool.
      - destruct (at_is_allocated_eq s i Hrange (Hfl i)) as (a & Ea & Ha & _).
        wp_steps. eapply wp_of_eq; [exact Ea|]. cbv beta. wp_steps.
        split; [done|]. rewrite Z.eqb_eq. tauto.
      - wp_steps. split; [done|]. split; [done|tauto]. }
    intros fr s' [-> Hfr]. wp_steps. split; [done|].
    assert (Ei : u32 (i + 1) = i + 1) by (unfold u32; pmm_consts; rewrite Z.mod_small; lia).
    rewrite Ei. fold (cnext i).
    pose proof (cnext_user i Hi) as Hin.
    pose proof (cdist_next last i Hlast Hi) as Hnx.
    pose proof (cdist_bound last (cnext i) Hlast Hin) as Hb'.
    split.
    + split; [done|]. fold last. exists (k + 1). split; [pmm_consts; lia|]. split; [cbv iota; lia|].
      destruct fr.
      * right. destruct Hfr as [Hfr _]. rewrite <- Hk'. split; [auto|]. split; [lia|done].
      * left. split; [lia|]. intros j Hj Hd Hav.
        destruct (decide (cdist last j = k)) as [Hjk|].
        -- assert (j = i) as -> by (apply (cdist_inj last); [done..|congruence]).
           destruct Hfr as [_ Hfr]. discriminate (Hfr Hav).
        -- apply (Hnone j); [done|lia|done].
    + unfold palloc_measure. destruct first; zcases; pmm_consts; try lia.
  - (* exit *)
    wp_steps. split; [done|]. unfold palloc_found.
    destruct Hfree as [[-> Hnone]|(Ha & _ & Hmin)]; [|by right]. left. split; [done|].
    rewrite Z.eqb_refl, andb_true_r in E. apply orb_false_iff in E as [E ->].
    assert (i = last) as -> by lia. destruct Hfirst as (_ & [[_ Hkk]|[? _]]); [|done].
    intros j Hav. assert (Hj : user_page j) by apply (Hnorm j (proj1 Hav)).
    pose proof (cdist_bound last j Hlast Hj). apply (Hnone j Hj); [lia|done].
Qed.

Lemma palloc_search s :
  at_inv s ->
  wp (while (palloc_body (NUM_PAGES s)) (last_palloc_index s, NUM_PAGES s, true))
     (fun v s' => s' = s /\ palloc_found s v) s.
Proof.
  intros Hinv.
  apply (wp_while _ (fun x s' => s' = s /\ palloc_loop_inv s x)
                    (fun x _ => palloc_measure (last_palloc_index s) x)).
  - intros x s' [-> Hx] _. wp_call palloc_body_spec; [done..|].
    intros [x'|v] s' [-> ?]; tauto.
  - split; [done|]. split; [exact (pi_last s Hinv)|]. exists 0. split; [pmm_consts; lia|]. split; [done|].
    left. split; [done|]. intros j Hj. pose proof (cdist_bound _ j (pi_last _ Hinv) Hj). lia.
  - unfold palloc_measure. pmm_consts. lia.
Qed.

(** The effect of palloc on the allocator's state. *)
Definition palloc_post (s : pmm) (r : Z) (s' : pmm) : Prop :=
  pmm_inv s' /\ e820 s' = e820 s /\ NUM_PAGES s' = NUM_PAGES s /\
  (r = 0 /\ (forall j, ~ avail s j) /\ AT s' = AT s \/
   user_page r /\ avail s r /\
   (forall j, user_page j ->
      cdist (last_palloc_index s) j < cdist (last_palloc_index s) r -> ~ avail s j) /\
   AT s' = <[r := At (perm (AT s !!! r)) 1]> (AT s)).

Lemma at_inv_set_allocated s s' r a :
  at_inv s -> user_page (last_palloc_index s') -> 0 <= a -> (0 < a -> norm s r) ->
  NUM_PAGES s' = NUM_PAGES s -> AT s' = <[r := At (perm (AT s !!! r)) a]> (AT s) ->
  at_inv s'.
Proof.
  intros [Hn Hnorm Hf Ht Hl] Hl' Ha Ha' En Ea. split; [by rewrite En| | | |done].
  - intros i. unfold norm. rewrite Ea, En. destruct (decide (i = r)) as [->|].
    + rewrite lookup_total_insert_eq. apply Hnorm.
    + rewrite lookup_total_insert_ne by done. apply Hnorm.
  - intros i. rewrite Ea. destruct (decide (i = r)) as [->|].
    + by rewrite lookup_total_insert_eq.
    + by rewrite lookup_total_insert_ne by done.
  - intros i. unfold norm. rewrite Ea. destruct (decide (i = r)) as [->|].
    + by rewrite lookup_total_insert_eq.
    + rewrite lookup_total_insert_ne by done. apply Ht.
Qed.

Lemma palloc_wp ks s : kstack_ok ks -> pmm_inv s -> wp (palloc ks) (palloc_post s) s.
Proof.
  intros Hks [Hl Hinv]. unfold palloc.
  wp_steps. eapply wp_of_eq; [by apply mem_lock_free|]. cbv beta.
  set (s1 := lset l_mem_lk (held_lock ks) s).
  assert (Hinv1 : at_inv s1) by by destruct Hinv.
  unfold get_nps. wp_steps. wp_call (palloc_search s1); [done|].
  intros v s' [-> Hv]. wp_steps.
  destruct (v =? NUM_PAGES s1) eqn:E.
  - apply Z.eqb_eq in E as ->. unfold mem_unlock. wp_steps.
    eapply wp_of_eq; [apply release_any|]. wp_steps.
    destruct Hv as [[_ Hv]|[[Hn _] _]]; [|apply Hinv1 in Hn; lia].
    split; [|split; [done|split; [done|left; done]]].
    split; [done|]. destruct Hinv. split; simpl; try done.
  - apply Z.eqb_neq in E. destruct Hv as [[? _]|[Hav Hmin]]; [done|].
    assert (Hu : user_page v) by apply (pi_norm _ Hinv1 v), Hav.
    unfold at_set_allocated, mem_unlock. wp_steps.
    { unfold in_array. pmm_consts. lia. }
    wp_steps. eapply wp_of_eq; [apply release_any|]. wp_steps.
    split; [|split; [done|split; [done|right; done]]].
    split; [done|]. eapply (at_inv_set_allocated s _ v 1); try done. intros _. apply Hav.
Qed.


Lemma pfree_wp ks s i : kstack_ok ks -> pmm_inv s -> 0 <= i < AT_SIZE ->
  wp (pfree ks i) (fun _ s' => pmm_inv s' /\ e820 s' = e820 s /\ NUM_PAGES s' = NUM_PAGES s /\
    last_palloc_index s' = last_palloc_index s /\
    AT s' = <[i := At (perm (AT s !!! i)) 0]> (AT s)) s.
Proof.
  intros Hks [Hl Hinv] Hi. unfold pfree, at_set_allocated, mem_unlock.
  wp_steps. eapply wp_of_eq; [by apply mem_lock_free|]. cbv beta.
  wp_steps. eapply wp_of_eq; [apply release_any|].
  split; [|done]. split; [done|]. eapply (at_inv_set_allocated s _ i 0); try done. exact (pi_last s Hinv).
Qed.

(** ** Initialisation

    What pmem_init computes, as functions of the memory map. *)
Definition max_end (l : list pmmap) : Z := fold_left Z.max (end_ <$> l) 0.

Definition row_contains (i : Z) (e : pmmap) : bool :=
  (start e <=? i * PAGESIZE) && ((i + 1) * PAGESIZE <=? end_ e).

(** The first row that contains the page decides. *)
Fixpoint first_fit (l : list pmmap) (i : Z) : option bool :=
  match l with
  | [] => None
  | e :: l' => if row_contains i e then Some (type e =? MEM_RAM) else first_fit l' i
  end.

Definition page_perm (l : list pmmap) (i : Z) : Z :=
  if (i <? VM_USERLO_PI) || (VM_USERHI_PI <=? i) then 1
  else match first_fit l i with Some true => 2 | _ => 0 end.

Section init.
Context (l : list pmmap).
Hypothesis Hwf : Forall entry_wf l.
Hypothesis Hlen : Z.of_nat (length l) <= 128.

(** The memory map below is [l]. *)
Definition has_map (s : pmm) : Prop := pmmap_list (e820 s) = l /\ table_ok (e820 s).

Lemma zoom_row {A} s k (d : A) f e :
  has_map s -> 0 <= k -> l !! Z.to_nat k = Some e ->
  zoom l_e820 (row k d f) s = Ok (f e) s.
Proof.
  intros [Hl Ht] Hk He. unfold zoom. simpl. rewrite (row_lookup _ _ _ _ e) by (congruence || done).
  by destruct s.
Qed.

Lemma row_wf k e : l !! k = Some e ->
  0 <= start e <= end_ e /\ end_ e < W32 /\ u32 (start e + u32 (end_ e - start e)) = end_ e.
Proof.
  intros He. assert (Hw : entry_wf e) by (rewrite Forall_lookup in Hwf; eauto).
  destruct Hw as [? ?]. split; [done|]. split; [done|]. unfold u32.
  rewrite (Z.mod_small (_ - _)) by lia. rewrite Z.mod_small; lia.
Qed.

Lemma lookup_row k : 0 <= k < Z.of_nat (length l) -> exists e, l !! Z.to_nat k = Some e.
Proof. intros Hk. apply lookup_lt_is_Some. lia. Qed.

Lemma max_end_snoc l' e : max_end (l' ++ [e]) = Z.max (max_end l') (end_ e).
Proof. unfold max_end. by rewrite fmap_app, fold_left_app. Qed.

Lemma nps_body_spec s k nps :
  has_map s -> 0 <= k <= Z.of_nat (length l) -> nps = max_end (take (Z.to_nat k) l) ->
  wp (nps_body (Z.of_nat (length l)) (k, nps))
     (fun r s' => s' = s /\ match r with
        | inl (k', nps') => k' = k + 1 /\ k < Z.of_nat (length l) /\
                            nps' = max_end (take (Z.to_nat k') l)
        | inr v => v = max_end l end) s.
Proof.
  intros Hm Hk ->. unfold nps_body. destruct (k <? Z.of_nat (length l)) eqn:E; simpl negb; cbv iota.
  - destruct (lookup_row k) as [e He]; [lia|].
    destruct (row_wf _ e He) as (? & ? & Hu).
    wp_step. eapply wp_of_eq; [apply zoom_row; [done|lia|exact He]|].
    wp_step. eapply wp_of_eq; [apply zoom_row; [done|lia|exact He]|].
    wp_steps. split; [done|]. rewrite Hu.
    assert (Ek : u32 (k + 1) = k + 1) by (unfold u32, W32; rewrite Z.mod_small; lia).
    rewrite Ek. split; [done|]. split; [lia|].
    replace (Z.to_nat (k + 1)) with (S (Z.to_nat k)) by lia.
    rewrite (take_S_r _ _ _ He), max_end_snoc. case_match; lia.
  - wp_steps. split; [done|]. by rewrite take_ge by lia.
Qed.

Lemma nps_loop s : has_map s ->
  wp (while (nps_body (Z.of_nat (length l))) (0, 0)) (fun v s' => s' = s /\ v = max_end l) s.
Proof.
  intros Hm.
  apply (wp_while _ (fun x s' => s' = s /\ 0 <= x.1 <= Z.of_nat (length l) /\
                                 x.2 = max_end (take (Z.to_nat x.1) l))
                    (fun x _ => Z.of_nat (length l) - x.1)).
  - intros [k nps] s' (-> & Hk & Hn) _. simpl in Hk, Hn. subst nps.
    wp_call nps_body_spec; [done|lia|done|]. intros [[k' nps']|v] s' [-> H]; simpl; [|done].
    destruct H as (-> & ? & ->). split; [|lia]. split; [done|]. split; [lia|done].
  - split; [done|]. simpl. split; [lia|done].
  - simpl. lia.
Qed.

(** The search for page [i] has passed [k] rows. *)
Definition find_inv (i : Z) (x : Z * Z * Z) : Prop :=
  let '(k, flag, isnorm) := x in
  0 <= k <= Z.of_nat (length l) /\
  (flag = 0 /\ first_fit l i = first_fit (drop (Z.to_nat k) l) i \/
   flag = 1 /\ first_fit l i = Some (negb (isnorm =? 0))).

Lemma find_body_spec s i x :
  has_map s -> user_page i -> find_inv i x ->
  wp (find_body (Z.of_nat (length l)) i x)
     (fun r s' => s' = s /\ match r with
        | inl x' => find_inv i x' /\
            0 <= Z.of_nat (length l) - x'.1.1 < Z.of_nat (length l) - x.1.1
        | inr (flag, isnorm) =>
            flag = 0 /\ first_fit l i = None \/
            flag = 1 /\ first_fit l i = Some (negb (isnorm =? 0)) end) s.
Proof.
  intros Hm Hi Hx. destruct x as [[k flag] isnorm]. destruct Hx as [Hk Hx]. unfold find_body.
  destruct ((k <? Z.of_nat (length l)) && (flag =? 0)) eqn:E; simpl negb; cbv iota.
  - apply andb_true_iff in E as [E1 ->%Z.eqb_eq]. apply Z.ltb_lt in E1.
    destruct Hx as [[_ Hx]|[? _]]; [|done].
    destruct (lookup_row k) as [e He]; [lia|]. destruct (row_wf _ e He) as (? & ? & Hu).
    do 3 (wp_step; eapply wp_of_eq; [apply zoom_row; [done|lia|exact He]|]).
    wp_steps. split; [done|]. rewrite Hu.
    assert (Ek : u32 (k + 1) = k + 1) by (unfold u32, W32; rewrite Z.mod_small; lia).
    assert (Ei : u32 (i * PAGESIZE) = i * PAGESIZE /\
                 u32 (u32 (i + 1) * PAGESIZE) = (i + 1) * PAGESIZE).
    { unfold u32. pmm_consts. rewrite (Z.mod_small (i + 1)) by lia. rewrite !Z.mod_small; lia. }
    destruct Ei as [-> ->]. fold (row_contains i e). rewrite Ek.
    rewrite (drop_S _ _ _ He) in Hx. simpl in Hx. split; [|simpl; lia]. split; [lia|].
    destruct (row_contains i e); [right|left]; (split; [done|]); rewrite Hx; [by case_match|].
    by replace (Z.to_nat (k + 1)) with (S (Z.to_nat k)) by lia.
  - wp_steps. split; [done|]. destruct Hx as [[-> Hx]|Hx]; [|by right]. left. split; [done|].
    rewrite Hx, drop_ge; [done|]. simpl in E. rewrite andb_true_r in E. lia.
Qed.

Lemma init_page_spec s i :
  has_map s -> 0 <= i < AT_SIZE ->
  wp (init_page (Z.of_nat (length l)) i)
     (fun _ s' => s' = set_AT (<[i := At (page_perm l i) 0]> (AT s)) s) s.
Proof.
  intros Hm Hi.
  assert (Hset : forall p, wp (at_set_perm i p)
      (fun _ s' => s' = set_AT (<[i := At p 0]> (AT s)) s) s).
  { intros p. unfold at_set_perm. wp_steps. unfold set_AT. simpl.
    by rewrite lookup_total_insert_eq, insert_insert_eq. }
  unfold init_page, page_perm. case_match eqn:E; [apply Hset|].
  assert (Hu : user_page i) by (pmm_consts; lia).
  wp_steps. apply (wp_mono _ (fun r s' => s' = s /\
    (let '(flag, isnorm) := r in flag = 0 /\ first_fit l i = None \/
     flag = 1 /\ first_fit l i = Some (negb (isnorm =? 0))))).
  - apply (wp_while _ (fun x s' => s' = s /\ find_inv i x)
                      (fun x _ => Z.of_nat (length l) - x.1.1)); [|split; [done|]|simpl; lia].
    + intros x s' [-> Hx] _. wp_call find_body_spec; [done..|].
      intros [x'|[flag isnorm]] s' [-> H]; tauto.
    + split; [lia|]. by left.
  - intros [flag isnorm] s' [-> [[-> ->]|[-> ->]]]; [apply Hset|].
    destruct (isnorm =? 0); apply Hset.
Qed.
End init.

Lemma max_end_bound l : Forall entry_wf l -> 0 <= max_end l < W32.
Proof.
  intros Hf. induction l as [|e l IH] using rev_ind; [done|].
  apply Forall_app in Hf as [Hf [[He Hu] _]%Forall_cons]. rewrite max_end_snoc.
  specialize (IH Hf). lia.
Qed.

Lemma nps_round l : Forall entry_wf l ->
  (max_end l - max_end l mod PAGESIZE) / PAGESIZE = max_end l / PAGESIZE /\
  0 <= max_end l / PAGESIZE <= AT_SIZE.
Proof. intros Hb%max_end_bound. pmm_consts. zdiv. Qed.

Lemma first_fit_row l i b : first_fit l i = Some b ->
  exists e, e ∈ l /\ row_contains i e = true /\ b = (type e =? MEM_RAM).
Proof.
  induction l as [|e l IH]; simpl; [done|]. case_match.
  - intros [= <-]. exists e. split; [set_solver|done].
  - intros (e' & ? & ? & ?)%IH. exists e'. split; [set_solver|done].
Qed.

Lemma page_perm_norm l i : 1 < page_perm l i ->
  user_page i /\ forall a, i * PAGESIZE <= a < (i + 1) * PAGESIZE -> covered l MEM_RAM a.
Proof.
  unfold page_perm. case_match eqn:E; [lia|]. case_match eqn:Ef; [|lia].
  case_match; [|lia]. intros _. split; [unfold user_page; lia|]. intros a Ha.
  apply first_fit_row in Ef as (e & He & Hr & Ht). exists e. split; [done|].
  unfold row_contains in Hr. lia.
Qed.

Lemma pmem_init_wp mmap n :
  0 <= n <= 128 -> (forall i, 0 <= i < n -> mmap_wf (mmap (SIZEOF_MMAP * i))) ->
  wp (pmem_init (SIZEOF_MMAP * n) mmap)
     (fun _ s => let l := pmmap_list (e820 s) in
        pmm_inv s /\ NUM_PAGES s = max_end l / PAGESIZE /\
        (forall i, AT s !!! i = if decide (0 <= i < NUM_PAGES s) then At (page_perm l i) 0 else At 0 0) /\
        (forall t a, covered l t a <-> firmware_covers mmap n t a) /\
        pmmap_init (SIZEOF_MMAP * n) mmap Pmmap.st0 = Ok tt (e820 s)) pmm0.
Proof.
  intros Hn Hmm. unfold pmem_init, devinit. wp_steps.
  destruct (proj1 (wp_elim _ _ _) (pmmap_init_wp mmap n Hn Hmm))
    as ([] & e & Ee & _ & Hwf & Ht & Hlen & Hcov).
  eapply wp_of_eq; [exact Ee|]. cbv beta.
  set (l := pmmap_list e) in *. unfold mem_spinlock_init. wp_steps.
  eapply wp_of_eq; [reflexivity|]. unfold get_size. wp_steps.
  match goal with |- wp _ _ ?s => set (s1 := s) end.
  assert (Hm : has_map l s1) by done.
  unfold table_ok in Ht. simpl e820. rewrite Ht. fold l.
  wp_call (nps_loop l Hwf ltac:(lia)); [done|]. intros v s' [-> ->].
  destruct (nps_round l Hwf) as [En Hnps].
  rewrite En. unfold set_nps. wp_steps.
  set (nps := max_end l / PAGESIZE) in *.
  match goal with |- wp _ _ ?s => set (s2 := s) end.
  eapply wp_mono; [apply (wp_for _ (fun k s => exists A, s = set_AT A s2 /\
    forall i, A !!! i = if decide (0 <= i < k) then At (page_perm l i) 0 else At 0 0)); [lia| |]|].
  - intros j s Hj (A & -> & HA). wp_call (init_page_spec l Hwf ltac:(lia)); [done|lia|].
    intros [] s' ->. eexists. split; [done|]. simpl. intros i.
    destruct (decide (i = j)) as [->|].
    + rewrite lookup_total_insert_eq. by rewrite decide_True by lia.
    + rewrite lookup_total_insert_ne, HA by done. repeat case_decide; done || lia.
  - exists ∅. split; [done|]. intros i. rewrite decide_False by lia. done.
  - intros [] s (A & -> & HA). simpl. fold l nps. split; [|done].
    split; [done|]. split; simpl; [done| | | |unfold user_page, VM_USERLO_PI, VM_USERHI_PI; lia].
    + intros i. unfold norm. simpl. rewrite HA. case_decide; simpl; [|lia].
      intros Hp%page_perm_norm. split; [apply Hp|lia].
    + intros i. rewrite HA. by case_decide.
    + intros i. rewrite HA. by case_decide.
Qed.

(** On a firmware table of at most 128 entries with known types,
    pmem_init returns and establishes the allocator's invariant; NUM_PAGES
    is the highest address of the map in pages, every page below it gets
    permission 1 outside user memory, 2 when the first range of the map
    that contains the page is usable and 0 otherwise, all pages are free,
    and every address of a normal page is usable memory according to the
    firmware's own table. *)
Theorem pmem_init_correct mmap n :
  0 <= n <= 128 -> (forall i, 0 <= i < n -> mmap_wf (mmap (SIZEOF_MMAP * i))) ->
  wp (pmem_init (SIZEOF_MMAP * n) mmap)
     (fun _ s => let l := pmmap_list (e820 s) in
        pmm_inv s /\ NUM_PAGES s = max_end l / PAGESIZE /\
        (forall i, 0 <= i < NUM_PAGES s -> AT s !!! i = At (page_perm l i) 0) /\
        (forall i a, norm s i -> i * PAGESIZE <= a < (i + 1) * PAGESIZE ->
           firmware_covers mmap n MEM_RAM a)) pmm0.
Proof.
  intros Hn Hmm. wp_call (pmem_init_wp mmap n Hn Hmm). simpl.
  intros [] s (Hinv & Hnps & HA & Hcov & _). split; [done|]. split; [done|]. split.
  - intros i Hi. rewrite HA. by rewrite decide_True.
  - intros i a Hnm Ha. apply Hcov. unfold norm in Hnm. rewrite HA in Hnm.
    case_decide; simpl in Hnm; [|lia]. by eapply page_perm_norm.
Qed.

(** A machine with usable memory at [1M, 3G). *)
Definition demo_mmap (off : Z) : mboot_mmap :=
  if off =? 0 then MMap 20 0 0 654336 0 1 else MMap 20 1048576 0 3220176896 0 1.

Lemma demo_mmap_wf i : mmap_wf (demo_mmap (SIZEOF_MMAP * i)).
Proof.
  unfold demo_mmap. destruct (SIZEOF_MMAP * i =? 0); repeat split; simpl; unfold W32; lia.
Qed.

Lemma pmem_init_correct_witness :
  wp (pmem_init (SIZEOF_MMAP * 2) demo_mmap) (fun _ s => pmm_inv s) pmm0.
Proof.
  eapply wp_mono; [apply (pmem_init_correct demo_mmap 2); [lia|]|].
  - intros i _. apply demo_mmap_wf.
  - intros [] s (H & _). exact H.
Defined.

(** An allocator with pages 262144 to 262146, the first one taken. *)
Definition demo_ks : kstack := Kstack 0 KSTACK_MAGIC.
Definition demo_pmm : pmm :=
  Pmm Pmmap.st0 free_lock 262147
    (<[262144 := At 2 1]> (<[262145 := At 2 0]> (<[262146 := At 2 0]> ∅))) 262144.

Lemma demo_pmm_inv : pmm_inv demo_pmm.
Proof.
  assert (HA : forall i, AT demo_pmm !!! i =
    if decide (i = 262144) then At 2 1 else if decide (i = 262145) then At 2 0
    else if decide (i = 262146) then At 2 0 else At 0 0).
  { intros i. simpl. repeat case_decide; subst; [done..|].
    by rewrite !lookup_total_insert_ne by done. }
  split; [done|]. split.
  - simpl. pmm_consts. lia.
  - intros i. unfold norm. rewrite HA. simpl. repeat case_decide; simpl; pmm_consts; lia.
  - intros i. rewrite HA. repeat case_decide; simpl; lia.
  - intros i. unfold norm. rewrite HA. repeat case_decide; simpl; lia.
  - simpl. pmm_consts. lia.
Qed.


(** ** Counting the available pages *)
Definition availb (e : ATStruct) : bool := (1 <? perm e) && (allocated e <=? 0).
Definition navail (A : gmap Z ATStruct) : Z := zsum (fun i => Z.b2z (availb (A !!! i))) AT_SIZE.

Lemma availb_spec s i : availb (AT s !!! i) = true <-> avail s i.
Proof. unfold availb, avail, norm. rewrite andb_true_iff, Z.ltb_lt, Z.leb_le. done. Qed.

Lemma navail_insert A i e : 0 <= i < AT_SIZE ->
  navail (<[i := e]> A) = navail A + Z.b2z (availb e) - Z.b2z (availb (A !!! i)).
Proof.
  intros Hi. unfold navail.
  rewrite (zsum_upd (fun i => Z.b2z (availb (A !!! i))) _ i AT_SIZE Hi).
  - by rewrite lookup_total_insert_eq.
  - intros j Hj. by rewrite lookup_total_insert_ne.
Qed.

Lemma navail_positive s : 0 < navail (AT s) -> exists j, avail s j.
Proof.
  intros (k & _ & Hk)%zsum_positive. exists k. apply availb_spec.
  by destruct (availb (AT s !!! k)).
Qed.

(** While pages are available palloc takes one of them. *)
Lemma palloc_some ks s : kstack_ok ks -> pmm_inv s -> 0 < navail (AT s) ->
  wp (palloc ks) (fun r s' => pmm_inv s' /\ NUM_PAGES s' = NUM_PAGES s /\ user_page r /\ avail s r /\
    AT s' = <[r := At (perm (AT s !!! r)) 1]> (AT s) /\
    navail (AT s') = navail (AT s) - 1) s.
Proof.
  intros Hks Hinv Hpos. wp_call palloc_wp; [done..|].
  intros r s' (Hinv' & _ & Hn & [(_ & Hno & _)|(Hu & Hav & _ & HA)]).
  { destruct (navail_positive s Hpos) as [j Hj]. by destruct (Hno j). }
  split; [done|]. split; [done|]. split; [done|]. split; [done|]. split; [done|].
  rewrite HA, navail_insert by (pmm_consts; lia).
  apply availb_spec in Hav. rewrite Hav. unfold availb at 1. simpl. rewrite andb_false_r. simpl. lia.
Qed.

(** Freeing an allocated page makes it available. *)
Lemma pfree_taken ks s i : kstack_ok ks -> pmm_inv s -> 0 <= i < AT_SIZE ->
  0 < allocated (AT s !!! i) ->
  wp (pfree ks i) (fun _ s' => pmm_inv s' /\ NUM_PAGES s' = NUM_PAGES s /\
    AT s' = <[i := At (perm (AT s !!! i)) 0]> (AT s) /\
    navail (AT s') = navail (AT s) + 1) s.
Proof.
  intros Hks Hinv Hi Ha. wp_call pfree_wp; [done..|].
  intros [] s' (Hinv' & _ & Hn & _ & HA). split; [done|]. split; [done|]. split; [done|].
  rewrite HA, navail_insert by done. pose proof (pi_taken _ (proj2 Hinv) i Ha) as Hnm.
  unfold norm in Hnm. unfold availb. simpl. zbool. simpl. lia.
Qed.
