(* ===== verification/Container.v ===== *)
(** * Resource containers (kern/pmm/MContainer)

    Every process has a container with a page quota; a process allocates,
    frees and hands pages to children through its container. *)

From stdpp Require Import base gmap list numbers.
From S2P Require Import Prelude Lock Pmmap Pmm.
Import Spinlock MATIntro MATInit MATOp.

Definition MAX_CHILDREN : Z := 3.

Record SContainer : Type := Con {
  quota : Z; usage : Z; parent : Z; nchildren : Z; used : Z
}.
#[global] Instance SContainer_inhabited : Inhabited SContainer := populate (Con 0 0 0 0 0).
#[global] Instance SContainer_eq_dec : EqDecision SContainer.
Proof. solve_decision. Defined.

(** The fields of CONTAINER are of type int. *)
Record cont : Type := Cont {
  mat : pmm;
  CONTAINER : gmap Z SContainer;
  container_lks : gmap Z spinlock_t
}.
Definition cont0 : cont := Cont pmm0 ∅ ∅.

Definition l_mat : lens cont pmm :=
  Lens mat (fun x s => Cont x (CONTAINER s) (container_lks s)).
Definition l_lk (id : Z) : lens cont spinlock_t :=
  Lens (fun s => container_lks s !!! id)
       (fun x s => Cont (mat s) (CONTAINER s) (<[id := x]> (container_lks s))).
Definition set_con (id : Z) (c : SContainer) (s : cont) : cont :=
  Cont (mat s) (<[id := c]> (CONTAINER s)) (container_lks s).

Module MContainer.
(** [CONTAINER[id]] *)
Definition con (id : Z) : K cont SContainer :=
  check (in_array id NUM_IDS) ;; gets (fun s => CONTAINER s !!! id).
Definition update_con (id : Z) (f : SContainer -> SContainer) : K cont unit :=
  check (in_array id NUM_IDS) ;; modify (fun s => set_con id (f (CONTAINER s !!! id)) s).

Definition set_quota (x : Z) (c : SContainer) := Con x (usage c) (parent c) (nchildren c) (used c).
Definition set_usage (x : Z) (c : SContainer) := Con (quota c) x (parent c) (nchildren c) (used c).
Definition set_parent (x : Z) (c : SContainer) := Con (quota c) (usage c) x (nchildren c) (used c).
Definition set_nchildren (x : Z) (c : SContainer) := Con (quota c) (usage c) (parent c) x (used c).
Definition set_used (x : Z) (c : SContainer) := Con (quota c) (usage c) (parent c) (nchildren c) x.

Definition lks_init (id : Z) : K cont unit :=
  check (in_array id NUM_IDS) ;; zoom (l_lk id) spinlock_init.
Definition lk_acquire (ks : kstack) (id : Z) : K cont unit :=
  check (in_array id NUM_IDS) ;; zoom (l_lk id) (spinlock_acquire ks).
Definition lk_release (id : Z) : K cont unit :=
  check (in_array id NUM_IDS) ;; zoom (l_lk id) spinlock_release.

Definition quota_body (nps : Z) (x : Z * Z) : K cont ((Z * Z) + Z) :=
  let '(idx, real_quota) := x in
  if negb (idx <? nps) then mret (inr real_quota)
  else
    norm ← zoom l_mat (at_is_norm idx);
    free ← (if negb (norm =? 0) then
              a ← zoom l_mat (at_is_allocated idx); mret (a =? 0)
            else mret false);
    mret (inl (u32 (idx + 1), if (free : bool) then u32 (real_quota + 1) else real_quota)).

Definition container_init (mmap_length : Z) (mmap : Z -> mboot_mmap) : K cont unit :=
  zoom l_mat (pmem_init mmap_length mmap) ;;
  nps ← zoom l_mat get_nps;
  real_quota ← while (quota_body nps) (1, 0);
  update_con 0 (set_quota (s32 real_quota)) ;;
  update_con 0 (set_usage 0) ;;
  update_con 0 (set_parent 0) ;;
  update_con 0 (set_nchildren 0) ;;
  update_con 0 (set_used 1) ;;
  for_range 0 NUM_IDS lks_init.

Definition container_get_parent (id : Z) : K cont Z := c ← con id; mret (u32 (parent c)).
Definition container_get_nchildren (id : Z) : K cont Z := c ← con id; mret (u32 (nchildren c)).
Definition container_get_quota (id : Z) : K cont Z := c ← con id; mret (u32 (quota c)).
Definition container_get_usage (id : Z) : K cont Z := c ← con id; mret (u32 (usage c)).

(** [usage + n] and the comparison are unsigned. *)
Definition container_can_consume (id n : Z) : K cont Z :=
  c ← con id;
  mret (if u32 (u32 (usage c) + n) <=? u32 (quota c) then 1 else 0).

(** The early return leaves the lock held, as in the source. *)
Definition container_split (ks : kstack) (id quota : Z) : K cont Z :=
  lk_acquire ks id ;;
  c ← con id;
  let nc := u32 (nchildren c) in
  let child := u32 (id * MAX_CHILDREN + 1 + nc) in
  if NUM_IDS <=? child then mret NUM_IDS
  else
    update_con child (set_used 1) ;;
    update_con child (set_quota (s32 quota)) ;;
    update_con child (set_usage 0) ;;
    update_con child (set_parent (s32 id)) ;;
    update_con child (set_nchildren 0) ;;
    c ← con id;
    update_con id (set_usage (s32 (u32 (usage c) + quota))) ;;
    c ← con id;
    nc' ← int_add (nchildren c) 1;
    update_con id (set_nchildren nc') ;;
    lk_release id ;;
    mret child.

Definition container_alloc (ks : kstack) (id : Z) : K cont Z :=
  lk_acquire ks id ;;
  c ← con id;
  u1 ← int_add (usage c) 1;
  page_index ←
    (if u1 <=? quota c then
       update_con id (set_usage u1) ;;
       zoom l_mat (palloc ks)
     else mret 0);
  lk_release id ;;
  mret page_index.

Definition container_free (ks : kstack) (id page_index : Z) : K cont unit :=
  lk_acquire ks id ;;
  a ← zoom l_mat (at_is_allocated page_index);
  (if negb (a =? 0) then
     zoom l_mat (pfree ks page_index) ;;
     c ← con id;
     (if 0 <? usage c then update_con id (set_usage (usage c - 1)) else mret tt)
   else mret tt) ;;
  lk_release id.
End MContainer.
Import MContainer.

(** ** The resource invariant *)

Definition room (C : gmap Z SContainer) : Z :=
  zsum (fun id => quota (C !!! id) - usage (C !!! id)) NUM_IDS.

(** A container is the root or the child number [k] of a container. *)
Definition in_tree (C : gmap Z SContainer) (id : Z) : Prop :=
  id = 0 \/ exists p k, 0 <= p < NUM_IDS /\ 0 <= k < nchildren (C !!! p) /\
                        id = p * MAX_CHILDREN + 1 + k.

Record con_ok (C : gmap Z SContainer) : Prop := {
  ck_usage : forall id, 0 <= usage (C !!! id) <= quota (C !!! id);
  ck_quota : forall id, quota (C !!! id) <= AT_SIZE;
  ck_children : forall id, 0 <= nchildren (C !!! id) <= MAX_CHILDREN;
  ck_unused : forall id, used (C !!! id) = 0 -> C !!! id = inhabitant;
  ck_tree : forall id, used (C !!! id) <> 0 -> in_tree C id
}.

(** Locks are free between operations, and no more pages are promised to
    containers than are available. *)
Record cont_inv (s : cont) : Prop := {
  ci_pmm : pmm_inv (mat s);
  ci_lks : forall id, lock (container_lks s !!! id) = 0;
  ci_con : con_ok (CONTAINER s);
  ci_room : room (CONTAINER s) <= navail (AT (mat s))
}.

Lemma room_insert C id c : 0 <= id < NUM_IDS ->
  room (<[id := c]> C) = room C + (quota c - usage c) - (quota (C !!! id) - usage (C !!! id)).
Proof.
  intros Hid. unfold room.
  rewrite (zsum_upd (fun id => quota (C !!! id) - usage (C !!! id)) _ id NUM_IDS Hid).
  - by rewrite lookup_total_insert_eq.
  - intros j Hj. by rewrite lookup_total_insert_ne.
Qed.

Lemma room_ge C id : con_ok C -> 0 <= id < NUM_IDS -> quota (C !!! id) - usage (C !!! id) <= room C.
Proof.
  intros H Hid. apply (zsum_term (fun id => quota (C !!! id) - usage (C !!! id)) id); [done|].
  intros i _. pose proof (ck_usage _ H i). lia.
Qed.

Lemma lks_insert_free (L : gmap Z spinlock_t) id l :
  lock l = 0 -> (forall j, lock (L !!! j) = 0) -> forall j, lock (<[id := l]> L !!! j) = 0.
Proof.
  intros Hl HL j. destruct (decide (j = id)) as [->|].
  - by rewrite lookup_total_insert_eq.
  - by rewrite lookup_total_insert_ne.
Qed.

(** Changing the usage of one container within its quota. *)
Lemma con_ok_usage C id u : con_ok C -> used (C !!! id) <> 0 -> 0 <= u <= quota (C !!! id) ->
  con_ok (<[id := set_usage u (C !!! id)]> C).
Proof.
  intros [H1 H2 H3 H4 H5] Hu Hb.
  assert (Hc : forall j, nchildren (<[id := set_usage u (C !!! id)]> C !!! j) = nchildren (C !!! j)).
  { intros j. destruct (decide (j = id)) as [->|].
    - by rewrite lookup_total_insert_eq.
    - by rewrite lookup_total_insert_ne. }
  assert (Ht : forall j, in_tree C j -> in_tree (<[id := set_usage u (C !!! id)]> C) j).
  { intros j [->|(p & k & Hp & Hk & ->)]; [by left|right]. exists p, k. by rewrite Hc. }
  split; intros j; rewrite ?Hc; [| |done| |]; destruct (decide (j = id)) as [->|Hne];
    rewrite ?lookup_total_insert_eq, ?lookup_total_insert_ne by done; simpl; auto.
  done.
Qed.

(** Entering and leaving a container's critical section. *)
Lemma lk_acquire_wp ks id s : kstack_ok ks -> 0 <= id < NUM_IDS ->
  lock (container_lks s !!! id) = 0 ->
  lk_acquire ks id s = Ok tt (lset (l_lk id) (held_lock ks) s).
Proof.
  intros Hks Hid Hl. unfold lk_acquire, in_array. krun. zbool. krun.
  destruct (container_lks s !!! id) as [h v]. simpl in Hl. subst v. by rewrite acquire_free.
Qed.

Lemma lk_release_wp id s : 0 <= id < NUM_IDS ->
  lk_release id s = Ok tt (lset (l_lk id) free_lock s).
Proof. intros Hid. unfold lk_release, in_array. krun. zbool. by krun. Qed.

Lemma int_add_eq {St} a b (s : St) : -2147483648 <= a + b < 2147483648 -> int_add a b s = Ok (a + b) s.
Proof. intros H. unfold int_add. krun. zbool. done. Qed.

Lemma insert_lk_idem (L : gmap Z spinlock_t) id a b : <[id := a]> (<[id := b]> L) = <[id := a]> L.
Proof. apply insert_insert_eq. Qed.

Ltac lk_acquire_step :=
  wp_step; eapply wp_of_eq; [apply lk_acquire_wp; done|]; cbv beta.
Ltac lk_release_step :=
  eapply wp_of_eq; [apply lk_release_wp; done|]; cbv beta.

(** What container_alloc does: within the quota it takes an available page
    and counts it, otherwise it changes nothing and returns 0. *)
Definition alloc_post (id : Z) (s : cont) (r : Z) (s' : cont) : Prop :=
  let c := CONTAINER s !!! id in
  cont_inv s' /\ NUM_PAGES (mat s') = NUM_PAGES (mat s) /\
  if decide (usage c < quota c) then
    user_page r /\ avail (mat s) r /\
    AT (mat s') = <[r := At (perm (AT (mat s) !!! r)) 1]> (AT (mat s)) /\
    CONTAINER s' = <[id := set_usage (usage c + 1) c]> (CONTAINER s)
  else r = 0 /\ AT (mat s') = AT (mat s) /\ CONTAINER s' = CONTAINER s.

Lemma container_alloc_wp ks id s :
  kstack_ok ks -> cont_inv s -> 0 <= id < NUM_IDS ->
  wp (container_alloc ks id) (alloc_post id s) s.
Proof.
  intros Hks [Hp Hl Hc Hr] Hid. unfold container_alloc, con, update_con.
  pose proof (ck_usage _ Hc id) as Hu. pose proof (ck_quota _ Hc id) as Hq.
  pose proof (room_ge _ id Hc Hid) as Hg. lk_acquire_step. wp_steps. simpl CONTAINER.
  set (c := CONTAINER s !!! id) in *.
  eapply wp_of_eq; [apply int_add_eq; pmm_consts; lia|]. wp_steps.
  destruct (usage c + 1 <=? quota c) eqn:E.
  - wp_steps. wp_call (palloc_some ks (mat s)); [done|done|lia|].
    intros r m (Hm & Hn & Hur & Hav & HA & Hnav). wp_steps. lk_release_step. wp_steps.
    unfold alloc_post. fold c. rewrite decide_True by lia.
    split; [|by_parts]. split; simpl; [done| | |].
    + rewrite insert_lk_idem. by apply lks_insert_free.
    + apply con_ok_usage; fold c; [done| |lia].
      intros Hz. apply (ck_unused _ Hc) in Hz. fold c in Hz. rewrite Hz in E. done.
    + rewrite room_insert by done. fold c. simpl. lia.
  - wp_steps. lk_release_step. wp_steps. unfold alloc_post. fold c. rewrite decide_False by lia.
    split; [|by_parts]. split; simpl; try done. rewrite insert_lk_idem. by apply lks_insert_free.
Qed.

Definition free_post (id page : Z) (s s' : cont) : Prop :=
  let c := CONTAINER s !!! id in
  cont_inv s' /\ NUM_PAGES (mat s') = NUM_PAGES (mat s) /\
  if decide (0 < allocated (AT (mat s) !!! page)) then
    AT (mat s') = <[page := At (perm (AT (mat s) !!! page)) 0]> (AT (mat s)) /\
    CONTAINER s' = if 0 <? usage c then <[id := set_usage (usage c - 1) c]> (CONTAINER s)
                   else CONTAINER s
  else AT (mat s') = AT (mat s) /\ CONTAINER s' = CONTAINER s.

Lemma zoom_at_is_allocated s i : 0 <= i < AT_SIZE -> 0 <= allocated (AT (mat s) !!! i) ->
  exists a, zoom l_mat (at_is_allocated i) s = Ok a s /\
            (a = 0 <-> allocated (AT (mat s) !!! i) <= 0).
Proof.
  intros Hi Ha. destruct (at_is_allocated_eq (mat s) i Hi Ha) as (a & Ea & Hz & _).
  exists a. split; [|done]. unfold zoom. simpl. rewrite Ea. by destruct s.
Qed.

Lemma usage_pos_used C id : con_ok C -> 0 < usage (C !!! id) -> used (C !!! id) <> 0.
Proof. intros Hc Hu Hz. apply (ck_unused _ Hc) in Hz. rewrite Hz in Hu. done. Qed.

Lemma container_free_wp ks id page s :
  kstack_ok ks -> cont_inv s -> 0 <= id < NUM_IDS -> 0 <= page < AT_SIZE ->
  wp (container_free ks id page) (fun _ s' => free_post id page s s') s.
Proof.
  intros Hks [Hp Hl Hc Hr] Hid Hpg. unfold container_free, con, update_con.
  pose proof (ck_usage _ Hc id) as Hu. lk_acquire_step. wp_step.
  destruct (zoom_at_is_allocated (lset (l_lk id) (held_lock ks) s) page Hpg) as (a & Ea & Ha).
  { apply (pi_flags _ (proj2 Hp)). }
  eapply wp_of_eq; [exact Ea|]. simpl in Ha. unfold free_post.
  set (c := CONTAINER s !!! id) in *.
  destruct (a =? 0) eqn:Ez; simpl negb; cbv iota; wp_steps.
  - lk_release_step. rewrite decide_False by lia. split; [|by_parts].
    split; simpl; try done. rewrite insert_lk_idem. by apply lks_insert_free.
  - wp_call (pfree_taken ks (mat s) page); [done|done|done|simpl; lia|].
    intros [] m (Hm & Hn & HA & Hnav). wp_steps. simpl. fold c.
    destruct (0 <? usage c) eqn:Eu; wp_steps; lk_release_step;
      rewrite decide_True by lia; (split; [|by_parts]); split; simpl; try done;
      try (rewrite insert_lk_idem; by apply lks_insert_free).
    + apply con_ok_usage; [done| |fold c; lia]. apply (usage_pos_used _ _ Hc). fold c. lia.
    + rewrite room_insert by done. fold c. simpl. lia.
    + lia.
Qed.

(** The containers after a split. *)
Definition split_con (C : gmap Z SContainer) (id q : Z) : gmap Z SContainer :=
  let c := C !!! id in
  let child := id * MAX_CHILDREN + 1 + nchildren c in
  <[id := Con (quota c) (usage c + q) (parent c) (nchildren c + 1) (used c)]>
    (<[child := Con q 0 id 0 1]> C).

Record split_ok (C : gmap Z SContainer) (id q : Z) : Prop := {
  so_id : 0 <= id;
  so_used : used (C !!! id) <> 0;
  so_children : nchildren (C !!! id) < MAX_CHILDREN;
  so_child : id * MAX_CHILDREN + 1 + nchildren (C !!! id) < NUM_IDS;
  so_quota : 0 <= q;
  so_room : usage (C !!! id) + q <= quota (C !!! id)
}.

Lemma split_child_fresh C id q : con_ok C -> split_ok C id q ->
  let child := id * MAX_CHILDREN + 1 + nchildren (C !!! id) in
  child <> id /\ 0 <= child < NUM_IDS /\ C !!! child = inhabitant.
Proof.
  intros Hc [Hid Hus Hch Hlt Hq Hr] child. pose proof (ck_children _ Hc id) as Hn.
  unfold MAX_CHILDREN in *. split; [lia|]. split; [lia|].
  apply (ck_unused _ Hc). destruct (decide (used (C !!! child) = 0)) as [?|Hu]; [done|exfalso].
  apply (ck_tree _ Hc) in Hu as [?|(p & k & Hp & Hk & He)]; [lia|].
  pose proof (ck_children _ Hc p). unfold MAX_CHILDREN in *.
  assert (p = id) as -> by lia. lia.
Qed.

Lemma split_lookup C id q j : con_ok C -> split_ok C id q ->
  let c := C !!! id in
  let child := id * MAX_CHILDREN + 1 + nchildren c in
  split_con C id q !!! j =
  if decide (j = id) then Con (quota c) (usage c + q) (parent c) (nchildren c + 1) (used c)
  else if decide (j = child) then Con q 0 id 0 1 else C !!! j.
Proof.
  intros Hc Hs c child. unfold split_con. fold c child. repeat case_decide; subst.
  - by rewrite lookup_total_insert_eq.
  - rewrite lookup_total_insert_ne by done. by rewrite lookup_total_insert_eq.
  - by rewrite !lookup_total_insert_ne by done.
Qed.

Lemma con_ok_split C id q : con_ok C -> split_ok C id q ->
  con_ok (split_con C id q) /\ room (split_con C id q) = room C.
Proof.
  intros Hc Hs. destruct (split_child_fresh C id q Hc Hs) as (Hne & Hch & Hfr).
  pose proof (split_lookup C id q) as HL. specialize (fun j => HL j Hc Hs). cbv zeta in HL.
  destruct Hs as [Hid Hus Hnc Hlt Hq Hr].
  set (child := id * MAX_CHILDREN + 1 + nchildren (C !!! id)) in *.
  pose proof (ck_usage _ Hc) as H1. pose proof (ck_quota _ Hc) as H2.
  pose proof (ck_children _ Hc) as H3. pose proof (ck_unused _ Hc) as H4.
  assert (Hmono : forall j, in_tree C j -> in_tree (split_con C id q) j).
  { intros j [->|(p & k & Hp & Hk & ->)]; [by left|right]. exists p, k. split; [done|].
    split; [|done]. rewrite HL. repeat case_decide; subst; simpl; try lia.
    rewrite Hfr in Hk. simpl in Hk. lia. }
  pose proof (H1 id). pose proof (H2 id). pose proof (H3 id).
  split; [split|].
  - intros j. rewrite HL. repeat case_decide; simpl; auto; lia.
  - intros j. rewrite HL. repeat case_decide; simpl; auto; lia.
  - intros j. rewrite HL. repeat case_decide; simpl; unfold MAX_CHILDREN in *; auto; lia.
  - intros j. rewrite HL. repeat case_decide; simpl; auto; done.
  - intros j. rewrite HL. repeat case_decide; simpl; intros Hu; subst.
    + apply Hmono. by apply (ck_tree _ Hc).
    + right. exists id, (nchildren (C !!! id)). rewrite HL, decide_True by done. simpl.
      unfold MAX_CHILDREN in *. split; [lia|]. split; [lia|done].
    + apply Hmono. by apply (ck_tree _ Hc).
  - unfold split_con. fold child. rewrite room_insert by (unfold MAX_CHILDREN in *; lia).
    rewrite room_insert by done. rewrite lookup_total_insert_ne, Hfr by done. simpl. lia.
Qed.

Definition split_post (id q : Z) (s : cont) (r : Z) (s' : cont) : Prop :=
  cont_inv s' /\ r = id * MAX_CHILDREN + 1 + nchildren (CONTAINER s !!! id) /\
  mat s' = mat s /\ CONTAINER s' = split_con (CONTAINER s) id q.

Lemma container_split_wp ks id q s :
  kstack_ok ks -> cont_inv s -> split_ok (CONTAINER s) id q ->
  wp (container_split ks id q) (split_post id q s) s.
Proof.
  intros Hks [Hp Hl Hc Hr] Hs. pose proof (con_ok_split _ _ _ Hc Hs) as [Hok Hroom].
  destruct (split_child_fresh _ _ _ Hc Hs) as (Hne & Hch & Hfr).
  pose proof (ck_usage _ Hc id) as Hu. pose proof (ck_quota _ Hc id) as Hq.
  pose proof (ck_children _ Hc id) as Hn. destruct Hs as [Hid Hus Hnc Hlt Hq0 Hq1].
  assert (Hid' : 0 <= id < NUM_IDS) by (unfold MAX_CHILDREN in *; lia).
  unfold container_split, con, update_con. lk_acquire_step. wp_steps. simpl CONTAINER.
  set (c := CONTAINER s !!! id) in *.
  unfold MAX_CHILDREN, NUM_IDS, AT_SIZE in *.
  rewrite (u32_small (nchildren c)) by (unfold W32; lia).
  rewrite (u32_small (id * 3 + 1 + nchildren c)) by (unfold W32; lia).
  set (child := id * 3 + 1 + nchildren c) in *. zbool.
  wp_steps; try (unfold in_array; lia). simpl CONTAINER.
  rewrite ?lookup_total_insert_eq, ?insert_insert_eq.
  rewrite (lookup_total_insert_ne _ child id) by done. simpl. fold c.
  eapply wp_of_eq; [apply int_add_eq; unfold W32; lia|]. wp_steps; try (unfold in_array; lia).
  lk_release_step. wp_steps. rewrite Hfr. simpl.
  rewrite ?lookup_total_insert_eq, ?insert_insert_eq.
  assert (HC : <[id:=set_nchildren (nchildren c + 1) (set_usage (s32 (u32 (usage c) + q)) c)]>
                 (<[child:=Con (s32 q) 0 (s32 id) 0 1]> (CONTAINER s)) = split_con (CONTAINER s) id q).
  { unfold split_con. fold c. unfold MAX_CHILDREN. fold child.
    rewrite !s32_small, u32_small by (unfold W32; rewrite ?u32_small; unfold W32; lia). done. }
  unfold set_nchildren, set_usage, set_quota, set_parent, set_used in *. simpl in *.
  rewrite HC. split; [|by_parts]. split; simpl; [done| |done|lia].
  by apply lks_insert_free.
Qed.

(** ** Initialisation *)

Definition quota_inv (s : cont) (x : Z * Z) : Prop :=
  let '(idx, real_quota) := x in
  1 <= idx <= Z.max 1 (NUM_PAGES (mat s)) /\
  real_quota = zsum (fun i => Z.b2z (availb (AT (mat s) !!! i))) idx.

Lemma count_bound f n : 0 <= n -> 0 <= zsum (fun i => Z.b2z (f i)) n <= n.
Proof.
  intros Hn. split; [apply zsum_nonneg; intros; by destruct (f i)|].
  rewrite <- (Z.mul_1_l n) at 2. rewrite <- (zsum_const 1 n Hn).
  apply zsum_le. intros i _. by destruct (f i).
Qed.

Lemma quota_body_spec s x : pmm_inv (mat s) -> quota_inv s x ->
  wp (quota_body (NUM_PAGES (mat s)) x)
     (fun r s' => s' = s /\ match r with
        | inl x' => quota_inv s x' /\
            0 <= Z.max 1 (NUM_PAGES (mat s)) - x'.1 < Z.max 1 (NUM_PAGES (mat s)) - x.1
        | inr v => v = zsum (fun i => Z.b2z (availb (AT (mat s) !!! i)))
                            (Z.max 1 (NUM_PAGES (mat s))) end) s.
Proof.
  intros [_ Hinv] Hx. destruct x as [idx rq]. destruct Hx as [Hi ->].
  pose proof (pi_nps _ Hinv) as Hn. unfold quota_body.
  destruct (idx <? NUM_PAGES (mat s)) eqn:E; simpl negb; cbv iota; wp_steps.
  - assert (Hr : 0 <= idx < AT_SIZE) by lia.
    eapply wp_of_eq; [by apply at_is_norm_eq|]. wp_steps.
    apply (wp_mono _ (fun (fr : bool) s' => s' = s /\ fr = availb (AT (mat s) !!! idx))).
    { destruct s as [m C L]. simpl in *. unfold availb. case_decide as Hnm; zbool.
      - destruct (at_is_allocated_eq m idx Hr (pi_flags _ Hinv idx)) as (a & Ea & Ha & _).
        wp_steps. eapply wp_of_eq; [exact Ea|]. wp_steps. split; [done|].
        unfold norm in Hnm. apply eq_true_iff_eq. lia.
      - wp_steps. split; [done|]. unfold norm in Hnm. symmetry. apply andb_false_iff. left. lia. }
    intros fr s' [-> ->]. wp_steps. split; [done|].
    pose proof (count_bound (fun i => availb (AT (mat s) !!! i)) idx ltac:(lia)) as Hb.
    unfold AT_SIZE in *. rewrite (u32_small (idx + 1)) by (unfold W32; lia).
    split; [|simpl; lia]. split; [lia|]. rewrite zsum_succ by lia.
    destruct (availb _); simpl; [|lia]. rewrite u32_small; unfold W32; lia.
  - split; [done|]. f_equal. lia.
Qed.

Lemma quota_loop s : pmm_inv (mat s) ->
  wp (while (quota_body (NUM_PAGES (mat s))) (1, 0))
     (fun v s' => s' = s /\ v = navail (AT (mat s))) s.
Proof.
  intros Hinv. pose proof (pi_nps _ (proj2 Hinv)) as Hn. pose proof (pi_norm _ (proj2 Hinv)) as Hnm.
  assert (Hz : forall i, i < 1 \/ NUM_PAGES (mat s) <= i ->
             Z.b2z (availb (AT (mat s) !!! i)) = 0).
  { intros i Hi. destruct (availb _) eqn:E; [|done]. apply availb_spec in E as [E _].
    apply Hnm in E. pmm_consts. lia. }
  apply (wp_while _ (fun x s' => s' = s /\ quota_inv s x)
                    (fun x _ => Z.max 1 (NUM_PAGES (mat s)) - x.1)).
  - intros x s' [-> Hx] _. wp_call quota_body_spec; [done..|].
    intros [x'|v] s' [-> H]; [tauto|]. split; [done|]. rewrite H. symmetry. unfold navail.
    apply zsum_extend; [unfold AT_SIZE in *; lia|]. intros i Hi. apply Hz. lia.
  - split; [done|]. split; [lia|]. change 1 with (0 + 1). rewrite zsum_succ, zsum_0, Hz by lia. done.
  - simpl. unfold AT_SIZE in *. lia.
Qed.

Definition root_con (q : Z) : gmap Z SContainer := <[0 := Con q 0 0 0 1]> ∅.

Lemma root_con_ok q : 0 <= q <= AT_SIZE -> con_ok (root_con q) /\ room (root_con q) = q.
Proof.
  intros Hq.
  assert (HL : forall j, root_con q !!! j = if decide (j = 0) then Con q 0 0 0 1 else inhabitant).
  { intros j. unfold root_con. case_decide; subst.
    - by rewrite lookup_total_insert_eq.
    - by rewrite lookup_total_insert_ne by done. }
  split.
  - split; intros j; rewrite HL; case_decide; simpl; unfold MAX_CHILDREN, AT_SIZE in *;
      try lia; try done. by left.
  - unfold root_con. rewrite room_insert by done. unfold room. rewrite zsum_const_0, lookup_total_empty.
    + simpl. lia.
    + intros i _. by rewrite lookup_total_empty.
Qed.

Lemma lks_init_loop s : (forall j, lock (container_lks s !!! j) = 0) ->
  wp (for_range 0 NUM_IDS lks_init)
     (fun _ s' => mat s' = mat s /\ CONTAINER s' = CONTAINER s /\
        forall j, lock (container_lks s' !!! j) = 0) s.
Proof.
  intros Hl.
  apply (wp_for _ (fun _ s' => mat s' = mat s /\ CONTAINER s' = CONTAINER s /\
        forall j, lock (container_lks s' !!! j) = 0)); [done| |done].
  intros j s' Hj (Hm & HC & HL). unfold lks_init. wp_steps. eapply wp_of_eq; [reflexivity|].
  split; [done|]. split; [done|]. by apply lks_insert_free.
Qed.

Lemma container_init_wp mmap n :
  0 <= n <= 128 -> (forall i, 0 <= i < n -> mmap_wf (mmap (SIZEOF_MMAP * i))) ->
  wp (container_init (SIZEOF_MMAP * n) mmap)
     (fun _ s => cont_inv s /\ CONTAINER s = root_con (navail (AT (mat s))) /\
        (forall i, 0 <= i < NUM_PAGES (mat s) ->
           AT (mat s) !!! i = At (page_perm (pmmap_list (e820 (mat s))) i) 0) /\
        NUM_PAGES (mat s) = max_end (pmmap_list (e820 (mat s))) / PAGESIZE /\
        pmmap_init (SIZEOF_MMAP * n) mmap Pmmap.st0 = Ok tt (e820 (mat s))) cont0.
Proof.
  intros Hn Hmm. unfold container_init, update_con, get_nps. wp_steps.
  wp_call (pmem_init_wp mmap n Hn Hmm). intros [] m (Hinv & Hnps & HA & _ & He). wp_steps.
  match goal with |- wp _ _ ?s => set (s1 := s) end.
  wp_call (quota_loop s1); [done|]. intros v s' [-> ->]. simpl. wp_steps. simpl.
  pose proof (count_bound (fun i => availb (AT m !!! i)) AT_SIZE ltac:(done)) as Hb.
  change (0 <= navail (AT m) <= AT_SIZE) in Hb.
  match goal with |- wp _ _ ?s => set (s2 := s) end.
  assert (HC : CONTAINER s2 = root_con (navail (AT m))).
  { unfold s2, s1. simpl. rewrite ?lookup_total_insert_eq, ?insert_insert_eq. unfold root_con.
    rewrite s32_small by (unfold AT_SIZE in *; lia). done. }
  wp_call (lks_init_loop s2); [done|]. intros [] s (Hm & HC' & HL).
  assert (Em : mat s = m) by done. rewrite HC', HC, Em.
  destruct (root_con_ok (navail (AT m))) as [Hok Hroom]; [lia|].
  split; [split; rewrite ?HC', ?HC, ?Em; [done..|lia]|]. split; [done|]. split; [|done].
  intros i Hi. rewrite HA. by rewrite decide_True.
Qed.

(** ** Any sequence of operations

    The steps processes take through their containers; a split happens
    under the guards that sys_spawn checks. *)
Inductive cstep (ks : kstack) : cont -> cont -> Prop :=
| cs_alloc id r s s' : 0 <= id < NUM_IDS ->
    container_alloc ks id s = Ok r s' -> cstep ks s s'
| cs_free id page s s' : 0 <= id < NUM_IDS -> 0 <= page < AT_SIZE ->
    container_free ks id page s = Ok tt s' -> cstep ks s s'
| cs_split id q r s s' : split_ok (CONTAINER s) id q ->
    container_split ks id q s = Ok r s' -> cstep ks s s'.

Lemma cstep_inv ks s s' : kstack_ok ks -> cont_inv s -> cstep ks s s' -> cont_inv s'.
Proof.
  intros Hks Hinv Hstep. destruct Hstep as [id r s s' Hid E|id page s s' Hid Hpg E|id q r s s' Hok E].
  - apply (wp_result _ _ _ _ _ (container_alloc_wp ks id s Hks Hinv Hid) E).
  - apply (wp_result _ _ _ _ _ (container_free_wp ks id page s Hks Hinv Hid Hpg) E).
  - apply (wp_result _ _ _ _ _ (container_split_wp ks id q s Hks Hinv Hok) E).
Qed.

Lemma csteps_inv ks s s' : kstack_ok ks -> cont_inv s -> rtc (cstep ks) s s' -> cont_inv s'.
Proof. intros Hks Hinv H. induction H; eauto using cstep_inv. Qed.

(** C8: after container_init and any sequence of allocations, frees and
    splits, the pages promised to all containers together never exceed the
    pages that are available, and every container below its quota gets a
    page: container_alloc returns a free user page, marks it and counts it. *)
Theorem container_quota_honoured ks mmap n s0 s id :
  kstack_ok ks -> 0 <= n <= 128 ->
  (forall i, 0 <= i < n -> mmap_wf (mmap (SIZEOF_MMAP * i))) ->
  container_init (SIZEOF_MMAP * n) mmap cont0 = Ok tt s0 ->
  rtc (cstep ks) s0 s -> 0 <= id < NUM_IDS ->
  room (CONTAINER s) <= navail (AT (mat s)) /\
  wp (container_alloc ks id) (alloc_post id s) s.
Proof.
  intros Hks Hn Hmm E0 Hsteps Hid.
  destruct (wp_result _ _ _ _ _ (container_init_wp mmap n Hn Hmm) E0) as [Hinv _].
  apply csteps_inv in Hsteps; [|done..]. split; [apply Hsteps|by apply container_alloc_wp].
Qed.

(** Container_init gives the root container every available page and
    establishes the invariant. *)
Theorem container_init_correct mmap n :
  0 <= n <= 128 -> (forall i, 0 <= i < n -> mmap_wf (mmap (SIZEOF_MMAP * i))) ->
  wp (container_init (SIZEOF_MMAP * n) mmap)
     (fun _ s => cont_inv s /\ CONTAINER s = root_con (navail (AT (mat s)))) cont0.
Proof. intros Hn Hmm. wp_call (container_init_wp mmap n Hn Hmm). by intros [] s (? & ? & _). Qed.

(** Under the guards of sys_spawn a split gives a fresh container to the
    child, moves exactly [q] pages of the parent's quota to it, keeps the
    total of promised pages and touches no page. *)
Theorem container_split_correct ks id q s :
  kstack_ok ks -> cont_inv s -> split_ok (CONTAINER s) id q ->
  CONTAINER s !!! (id * MAX_CHILDREN + 1 + nchildren (CONTAINER s !!! id)) = inhabitant /\
  room (split_con (CONTAINER s) id q) = room (CONTAINER s) /\
  wp (container_split ks id q) (split_post id q s) s.
Proof.
  intros Hks Hinv Hok. split; [by apply (split_child_fresh _ _ _ (ci_con _ Hinv) Hok)|].
  split; [apply (con_ok_split _ _ _ (ci_con _ Hinv) Hok)|by apply container_split_wp].
Qed.

(** Container_free gives back an allocated page exactly once: the page
    becomes available and the usage goes down, and freeing a page that is
    not allocated changes nothing. *)
Theorem container_free_correct ks id page s :
  kstack_ok ks -> cont_inv s -> 0 <= id < NUM_IDS -> 0 <= page < AT_SIZE ->
  wp (container_free ks id page) (fun _ s' => free_post id page s s') s.
Proof. apply container_free_wp. Qed.

(** C36: a split of a container whose next child index is out of range
    returns NUM_IDS with the container's lock held: the next operation on
    this container spins forever. *)
Theorem container_split_full_spins ks id q s :
  kstack_ok ks -> cont_inv s -> 0 <= id < NUM_IDS ->
  NUM_IDS <= id * MAX_CHILDREN + 1 + nchildren (CONTAINER s !!! id) ->
  exists s', container_split ks id q s = Ok NUM_IDS s' /\
    container_alloc ks id s' = Spin /\ container_split ks id q s' = Spin /\
    forall page, container_free ks id page s' = Spin.
Proof.
  intros Hks Hinv Hid Hfull. pose proof (ck_children _ (ci_con _ Hinv) id) as Hn.
  set (s' := lset (l_lk id) (held_lock ks) s).
  assert (Hspin : lk_acquire ks id s' = Spin).
  { unfold lk_acquire, in_array. krun. zbool. krun. rewrite lookup_total_insert_eq.
    unfold held_lock. by rewrite acquire_held. }
  exists s'. split.
  - unfold container_split. unfold mbind, K_bind at 1.
    rewrite lk_acquire_wp by (done || apply Hinv). fold s'.
    unfold con, in_array. krun. zbool. krun. unfold MAX_CHILDREN, NUM_IDS in *.
    rewrite (u32_small (nchildren _)) by (unfold W32; lia).
    rewrite u32_small by (unfold W32; lia). by zbool.
  - unfold container_alloc, container_split, container_free.
    unfold mbind, K_bind. by rewrite Hspin.
Qed.

(** ** Concrete instances *)

(** Two pages are available, one of them promised to the root. *)
Definition demo_cont : cont := Cont demo_pmm (root_con 1) ∅.

Lemma demo_navail : navail (AT demo_pmm) = 2.
Proof.
  simpl. rewrite !navail_insert by done. unfold navail.
  rewrite zsum_const_0 by (intros; by rewrite lookup_total_empty).
  rewrite !lookup_total_insert_ne by done. rewrite !lookup_total_empty. done.
Qed.

Lemma demo_cont_inv : cont_inv demo_cont.
Proof.
  destruct (root_con_ok 1) as [Hok Hroom]; [unfold AT_SIZE; lia|].
  split; [apply demo_pmm_inv|done|exact Hok|].
  change (room (root_con 1) <= navail (AT demo_pmm)). rewrite Hroom, demo_navail. lia.
Qed.

(** The root has given [q] of its two pages to child 1. *)
Definition demo_child (q : Z) : cont := Cont demo_pmm (split_con (root_con 2) 0 q) ∅.

Lemma demo_child_inv q : 0 <= q <= 2 -> cont_inv (demo_child q).
Proof.
  intros Hq. destruct (root_con_ok 2) as [Hok Hroom]; [unfold AT_SIZE; lia|].
  destruct (con_ok_split (root_con 2) 0 q Hok) as [Hok' Hroom'].
  { split; try done; [lia|]. unfold root_con. rewrite lookup_total_insert_eq. simpl. lia. }
  split; [apply demo_pmm_inv|done|exact Hok'|].
  change (room (split_con (root_con 2) 0 q) <= navail (AT demo_pmm)).
  rewrite Hroom', Hroom, demo_navail. lia.
Qed.

(** The machine of [demo_mmap] starts with at least 10000 pages. *)
Lemma demo_init_pages s : container_init (SIZEOF_MMAP * 2) demo_mmap cont0 = Ok tt s ->
  CONTAINER s = root_con (navail (AT (mat s))) /\ 10000 <= navail (AT (mat s)).
Proof.
  intros E. destruct (wp_result _ _ _ _ _ (container_init_wp demo_mmap 2 ltac:(lia)
    (fun i _ => demo_mmap_wf i)) E) as (_ & HC & HA & Hn & Ee). split; [done|].
  assert (El : pmmap_list (e820 (mat s)) = [Pm 0 654336 1; Pm 1048576 3221225472 1]).
  { transitivity (match pmmap_init (SIZEOF_MMAP * 2) demo_mmap Pmmap.st0 with
                  | Ok _ e => pmmap_list e | _ => [] end); [by rewrite Ee|by vm_compute]. }
  rewrite El in HA, Hn. change (NUM_PAGES (mat s) = 786432) in Hn. unfold navail.
  apply (zsum_ones _ 262144); [lia|lia|unfold AT_SIZE; lia|intros i _; by destruct (availb _)|].
  intros i Hi. rewrite HA by lia. assert (Ef : first_fit [Pm 0 654336 1; Pm 1048576 3221225472 1] i = Some true).
  { cbn [first_fit row_contains start end_ type]. unfold row_contains. cbn [start end_]. unfold PAGESIZE.
    rewrite (proj2 (Z.leb_gt ((i + 1) * 4096) 654336)), andb_false_r by lia. rewrite !(proj2 (Z.leb_le _ _)) by lia. reflexivity. }
  unfold page_perm. rewrite Ef. unfold VM_USERLO_PI, VM_USERHI_PI. zbool. cbn [orb]. reflexivity.
Qed.
Lemma demo_init_quota s : container_init (SIZEOF_MMAP * 2) demo_mmap cont0 = Ok tt s ->
  CONTAINER s = root_con (navail (AT (mat s))) /\ 2 <= navail (AT (mat s)).
Proof. intros E. destruct (demo_init_pages s E) as [HC HA]. split; [done|lia]. Qed.

#[global] Instance demo_ks_ok : kstack_ok demo_ks.
Proof. by split. Qed.

Lemma container_quota_honoured_witness :
  exists s0, container_init (SIZEOF_MMAP * 2) demo_mmap cont0 = Ok tt s0 /\
    room (CONTAINER s0) <= navail (AT (mat s0)).
Proof.
  assert (Hmm : forall i, 0 <= i < 2 -> mmap_wf (demo_mmap (SIZEOF_MMAP * i)))
    by (intros; apply demo_mmap_wf).
  destruct (proj1 (wp_elim _ _ _) (container_init_wp demo_mmap 2 ltac:(lia) Hmm))
    as ([] & s0 & E & _).
  exists s0. split; [exact E|].
  apply (container_quota_honoured demo_ks demo_mmap 2 s0 s0 0 demo_ks_ok);
    [lia|exact Hmm|exact E|apply rtc_refl|unfold NUM_IDS; lia].
Defined.

Lemma container_init_correct_witness :
  wp (container_init (SIZEOF_MMAP * 2) demo_mmap) (fun _ s => cont_inv s) cont0.
Proof.
  eapply wp_mono; [apply (container_init_correct demo_mmap 2); [lia|]|].
  - intros i _. apply demo_mmap_wf.
  - intros [] s [H _]. exact H.
Defined.

Lemma demo_split_ok : split_ok (CONTAINER demo_cont) 0 1.
Proof. by split. Qed.

Lemma container_split_correct_witness :
  wp (container_split demo_ks 0 1) (split_post 0 1 demo_cont) demo_cont /\
  exists s, container_split demo_ks 0 1 demo_cont = Ok 1 s.
Proof.
  split; [|eexists; vm_compute; reflexivity].
  apply container_split_correct; [exact demo_ks_ok|apply demo_cont_inv|apply demo_split_ok].
Defined.

Lemma container_free_correct_witness :
  wp (container_free demo_ks 0 262144) (fun _ s' => free_post 0 262144 demo_cont s') demo_cont.
Proof.
  apply container_free_correct;
    [exact demo_ks_ok|apply demo_cont_inv|unfold NUM_IDS; lia|unfold AT_SIZE; lia].
Defined.

Lemma container_split_full_spins_witness :
  exists s', container_split demo_ks 21 0 demo_cont = Ok NUM_IDS s' /\
    container_alloc demo_ks 21 s' = Spin.
Proof.
  destruct (container_split_full_spins demo_ks 21 0 demo_cont demo_ks_ok demo_cont_inv)
    as (s' & E & Ha & _); [unfold NUM_IDS; lia|vm_compute; discriminate|].
  exists s'. split; [exact E|exact Ha].
Defined.

(** ** A quota that wraps

    The root has used its whole quota of 1 page.  The check of sys_spawn
    lets a child with quota 2^32 - 1 through, because [usage + n] wraps, and
    the split then takes the root's usage back to 0. *)
Definition spent_cont : cont := Cont demo_pmm (<[0 := Con 1 1 0 0 1]> ∅) ∅.

Example quota_check_wraps :
  match (ok ← container_can_consume 0 4294967295;
         child ← container_split demo_ks 0 4294967295;
         c ← con 0; mret (ok, child, usage c)) spent_cont with
  | Ok (ok, child, u) _ => ok = 1 /\ child = 1 /\ u = 0
  | _ => False
  end.
Proof. vm_compute. auto. Qed.
