(* ===== verification/Mem.v ===== *)
(** * Physical memory

    Physical memory is one map from addresses to bytes; a 32-bit word is
    four bytes, the least significant one first.  The kernel maps all of
    physical memory one to one, so its pointers are physical addresses. *)

From stdpp Require Import base gmap list numbers.
From S2P Require Import Prelude.

Abbreviation mem := (gmap Z Z).

Definition load8 (m : mem) (a : Z) : Z := m !!! a.
Definition store8 (m : mem) (a v : Z) : mem := <[a := v mod 256]> m.

Definition load32 (m : mem) (a : Z) : Z :=
  load8 m a + 256 * load8 m (a + 1) + 65536 * load8 m (a + 2) + 16777216 * load8 m (a + 3).
Definition store32 (m : mem) (a v : Z) : mem :=
  store8 (store8 (store8 (store8 m a v) (a + 1) (v / 256)) (a + 2) (v / 65536)) (a + 3) (v / 16777216).

(** Every cell holds a byte. *)
Definition mem_ok (m : mem) : Prop := forall a, 0 <= load8 m a < 256.

Lemma load8_store8_same m a v : load8 (store8 m a v) a = v mod 256.
Proof. unfold load8, store8. by rewrite lookup_total_insert_eq. Qed.

Lemma load8_store8_ne m a b v : a <> b -> load8 (store8 m a v) b = load8 m b.
Proof. intros. unfold load8, store8. by rewrite lookup_total_insert_ne. Qed.

Lemma load8_store32_out m a b v : b < a \/ a + 4 <= b -> load8 (store32 m a v) b = load8 m b.
Proof. intros. unfold store32. rewrite !load8_store8_ne by lia. done. Qed.

Lemma load32_store32_same m a v : is_u32 v -> load32 (store32 m a v) a = v.
Proof.
  intros Hv. unfold load32, store32.
  rewrite (load8_store8_same _ (a + 3)).
  do 3 rewrite (load8_store8_ne _ (a + 3)) by lia. rewrite (load8_store8_same _ (a + 2)).
  do 2 rewrite (load8_store8_ne _ (a + 2)) by lia. rewrite (load8_store8_same _ (a + 1)).
  rewrite (load8_store8_ne _ (a + 1)) by lia. rewrite (load8_store8_same _ a).
  unfold is_u32, W32 in Hv. zdiv.
Qed.

(** Loads agree where the bytes agree. *)
Lemma load32_ext m m' a : (forall b, a <= b < a + 4 -> load8 m' b = load8 m b) ->
  load32 m' a = load32 m a.
Proof. intros H. unfold load32. rewrite !H by lia. done. Qed.

Lemma load32_store32_ne m a b v : a + 4 <= b \/ b + 4 <= a ->
  load32 (store32 m a v) b = load32 m b.
Proof. intros. apply load32_ext. intros c Hc. apply load8_store32_out. lia. Qed.

Lemma mem_ok_store8 m a v : mem_ok m -> mem_ok (store8 m a v).
Proof.
  intros H b. destruct (decide (a = b)) as [->|Hne].
  - rewrite load8_store8_same. apply Z.mod_pos_bound. lia.
  - by rewrite load8_store8_ne.
Qed.

Lemma mem_ok_store32 m a v : mem_ok m -> mem_ok (store32 m a v).
Proof. intros. unfold store32. by do 4 apply mem_ok_store8. Qed.

Lemma load32_range m a : mem_ok m -> is_u32 (load32 m a).
Proof.
  intros H. unfold load32, is_u32, W32.
  pose proof (H a). pose proof (H (a + 1)). pose proof (H (a + 2)). pose proof (H (a + 3)). lia.
Qed.

Lemma mem_ok_empty : mem_ok ∅.
Proof. intros a. unfold load8. by rewrite lookup_total_empty. Qed.

Create HintDb mem discriminated.
#[export] Hint Resolve mem_ok_store8 mem_ok_store32 load32_range mem_ok_empty : mem.
