(* ===== verification/Vmm.v ===== *)
(** * Virtual memory (kern/vmm)

    The page directories and page tables of the processes in physical
    memory, the operations of the layers MPTIntro, MPTOp, MPTComm, MPTKern,
    MPTNew and MPTInit on them, and the walk of the processor's memory
    management unit that gives them their meaning. *)

From stdpp Require Import base gmap list numbers.
From S2P Require Import Prelude Lock Pmmap Pmm Container Mem.
Import Spinlock MContainer.

(** Where the linker puts the two arrays and the kernel stacks of the
    processes: page aligned, in kernel memory, not overlapping. *)
Class layout : Type := {
  PDirPool : Z;
  IDPTbl : Z;
  proc_kstack : Z;
  PDirPool_aligned : PDirPool mod 4096 = 0;
  IDPTbl_aligned : IDPTbl mod 4096 = 0;
  PDirPool_kernel : 4096 <= PDirPool /\ PDirPool + NUM_IDS * 4096 <= VM_USERLO;
  IDPTbl_kernel : 4096 <= IDPTbl /\ IDPTbl + 1024 * 4096 <= VM_USERLO;
  proc_kstack_aligned : proc_kstack mod 4096 = 0;
  proc_kstack_kernel : 4096 <= proc_kstack /\ proc_kstack + NUM_IDS * 4096 <= VM_USERLO;
  layout_disjoint : PDirPool + NUM_IDS * 4096 <= IDPTbl \/ IDPTbl + 1024 * 4096 <= PDirPool;
  proc_kstack_disjoint :
    (proc_kstack + NUM_IDS * 4096 <= PDirPool \/ PDirPool + NUM_IDS * 4096 <= proc_kstack) /\
    (proc_kstack + NUM_IDS * 4096 <= IDPTbl \/ IDPTbl + 1024 * 4096 <= proc_kstack)
}.

Definition PTE_P : Z := 1.
Definition PTE_W : Z := 2.
Definition PTE_U : Z := 4.
Definition PTE_G : Z := 256.
Definition PT_PERM_PTU : Z := Z.lor (Z.lor PTE_P PTE_W) PTE_U.
Definition MagicNumber : Z := 1048577.

Definition PDIRSIZE : Z := Eval cbv in PAGESIZE * 1024.
Definition VM_USERLO_PDE : Z := Eval cbv in VM_USERLO / PDIRSIZE.
Definition VM_USERHI_PDE : Z := Eval cbv in VM_USERHI / PDIRSIZE.

Definition ADDR_MASK (x : Z) : Z := Z.land x 4294963200.  (* 0xfffff000 *)
Definition PDE_ADDR (x : Z) : Z := Z.shiftr x 22.
Definition PTE_ADDR (x : Z) : Z := Z.land (Z.shiftr x 12) 1023.

Definition CR0_PE : Z := 1.
Definition CR0_MP : Z := 2.
Definition CR0_EM : Z := 4.
Definition CR0_TS : Z := 8.
Definition CR0_NE : Z := 32.
Definition CR0_WP : Z := 65536.
Definition CR0_AM : Z := 262144.
Definition CR0_PG : Z := 2147483648.
Definition CR4_PGE : Z := 128.

(** The containers below, physical memory, and the control registers of the
    processor. *)
Record vm : Type := Vm { cn : cont; phys : mem; cr0 : Z; cr3 : Z; cr4 : Z }.

Definition l_cn : lens vm cont :=
  Lens cn (fun x s => Vm x (phys s) (cr0 s) (cr3 s) (cr4 s)).
Definition set_phys (m : mem) (s : vm) : vm := Vm (cn s) m (cr0 s) (cr3 s) (cr4 s).

(** A load and a store of the kernel through a pointer. *)
Definition read32 (a : Z) : K vm Z := gets (fun s => load32 (phys s) a).
Definition write32 (a v : Z) : K vm unit := modify (fun s => set_phys (store32 (phys s) a v) s).

Definition rcr0 : K vm Z := gets cr0.
Definition rcr4 : K vm Z := gets cr4.
Definition lcr0 (v : Z) : K vm unit := modify (fun s => Vm (cn s) (phys s) v (cr3 s) (cr4 s)).
Definition lcr3 (v : Z) : K vm unit := modify (fun s => Vm (cn s) (phys s) (cr0 s) v (cr4 s)).
Definition lcr4 (v : Z) : K vm unit := modify (fun s => Vm (cn s) (phys s) (cr0 s) (cr3 s) v).

Definition set_cr3 (pdir : Z) : K vm unit := lcr3 pdir.

Definition enable_paging : K vm unit :=
  v4 ← rcr4;
  lcr4 (Z.lor v4 CR4_PGE) ;;
  v0 ← rcr0;
  let v0 := Z.lor v0 (Z.lor CR0_PE (Z.lor CR0_PG (Z.lor CR0_AM (Z.lor CR0_WP (Z.lor CR0_NE CR0_MP))))) in
  let v0 := Z.ldiff v0 (Z.lor CR0_EM CR0_TS) in
  lcr0 v0.

Section vmm.
Context `{layout}.

(** [&PDirPool[p][d]] and [&IDPTbl[d][t]] *)
Definition pde_at (p d : Z) : Z := PDirPool + 4096 * p + 4 * d.
Definition idpte_at (d t : Z) : Z := IDPTbl + 4096 * d + 4 * t.
Definition check_pde (p d : Z) : K vm unit := check (in_array p NUM_IDS && in_array d 1024).

(** ** MPTIntro *)
Definition set_pdir_base (index : Z) : K vm unit :=
  check (in_array index NUM_IDS) ;; set_cr3 (pde_at index 0).

Definition get_pdir_entry (proc_index pde_index : Z) : K vm Z :=
  check_pde proc_index pde_index ;; read32 (pde_at proc_index pde_index).

Definition set_pdir_entry (proc_index pde_index page_index : Z) : K vm unit :=
  let addr := u32 (Z.shiftl page_index 12) in
  check_pde proc_index pde_index ;;
  write32 (pde_at proc_index pde_index) (Z.lor addr PT_PERM_PTU).

Definition set_pdir_entry_identity (proc_index pde_index : Z) : K vm unit :=
  check (in_array pde_index 1024) ;;
  let addr := idpte_at pde_index 0 in
  check_pde proc_index pde_index ;;
  write32 (pde_at proc_index pde_index) (Z.lor addr PT_PERM_PTU).

Definition rmv_pdir_entry (proc_index pde_index : Z) : K vm unit :=
  check_pde proc_index pde_index ;; write32 (pde_at proc_index pde_index) 0.

Definition get_ptbl_entry (proc_index pde_index pte_index : Z) : K vm Z :=
  check_pde proc_index pde_index ;;
  pde ← read32 (pde_at proc_index pde_index);
  let pt := ADDR_MASK pde in
  read32 (u32 (pt + 4 * pte_index)).

Definition set_ptbl_entry (proc_index pde_index pte_index page_index perm : Z) : K vm unit :=
  check_pde proc_index pde_index ;;
  pde ← read32 (pde_at proc_index pde_index);
  let pt := ADDR_MASK pde in
  write32 (u32 (pt + 4 * pte_index)) (Z.lor (u32 (Z.shiftl page_index 12)) perm).

Definition set_ptbl_entry_identity (pde_index pte_index perm : Z) : K vm unit :=
  let addr := Z.lor (u32 (Z.shiftl pde_index 22)) (u32 (Z.shiftl pte_index 12)) in
  check (in_array pde_index 1024 && in_array pte_index 1024) ;;
  write32 (idpte_at pde_index pte_index) (Z.lor addr perm).

Definition rmv_ptbl_entry (proc_index pde_index pte_index : Z) : K vm unit :=
  check_pde proc_index pde_index ;;
  pde ← read32 (pde_at proc_index pde_index);
  let pt := ADDR_MASK pde in
  write32 (u32 (pt + 4 * pte_index)) 0.

(** ** MPTOp *)
Definition get_ptbl_entry_by_va (proc_index vaddr : Z) : K vm Z :=
  let pde_index := PDE_ADDR vaddr in
  pde ← get_pdir_entry proc_index pde_index;
  if negb (pde =? 0) then get_ptbl_entry proc_index pde_index (PTE_ADDR vaddr) else mret 0.

Definition get_pdir_entry_by_va (proc_index vaddr : Z) : K vm Z :=
  get_pdir_entry proc_index (PDE_ADDR vaddr).

Definition rmv_ptbl_entry_by_va (proc_index vaddr : Z) : K vm unit :=
  let pde_index := PDE_ADDR vaddr in
  pde ← get_pdir_entry proc_index pde_index;
  if negb (pde =? 0) then rmv_ptbl_entry proc_index pde_index (PTE_ADDR vaddr) else mret tt.

Definition rmv_pdir_entry_by_va (proc_index vaddr : Z) : K vm unit :=
  rmv_pdir_entry proc_index (PDE_ADDR vaddr).

Definition set_ptbl_entry_by_va (proc_index vaddr page_index perm : Z) : K vm unit :=
  set_ptbl_entry proc_index (PDE_ADDR vaddr) (PTE_ADDR vaddr) page_index perm.

Definition set_pdir_entry_by_va (proc_index vaddr page_index : Z) : K vm unit :=
  set_pdir_entry proc_index (PDE_ADDR vaddr) page_index.

Definition kernel_pde (d : Z) : bool := (d <? VM_USERLO_PDE) || (VM_USERHI_PDE <=? d).
Definition identity_perm (d : Z) : Z :=
  if kernel_pde d then Z.lor (Z.lor PTE_P PTE_W) PTE_G else Z.lor PTE_P PTE_W.

Definition idptbl_init (mmap_length : Z) (mmap : Z -> mboot_mmap) : K vm unit :=
  zoom l_cn (container_init mmap_length mmap) ;;
  for_range 0 1024 (fun pde_index =>
    let perm := identity_perm pde_index in
    for_range 0 1024 (fun pte_index => set_ptbl_entry_identity pde_index pte_index perm)).

(** ** MPTComm *)
Definition pdir_init (mmap_length : Z) (mmap : Z -> mboot_mmap) : K vm unit :=
  idptbl_init mmap_length mmap ;;
  for_range 0 NUM_IDS (fun proc_index =>
    for_range 0 1024 (fun pde_index =>
      if kernel_pde pde_index then set_pdir_entry_identity proc_index pde_index
      else rmv_pdir_entry proc_index pde_index)).

Definition alloc_ptbl (ks : kstack) (proc_index vaddr : Z) : K vm Z :=
  page_index ← zoom l_cn (container_alloc ks proc_index);
  let pde_index := PDE_ADDR vaddr in
  if page_index =? 0 then mret 0
  else
    set_pdir_entry_by_va proc_index vaddr page_index ;;
    for_range 0 1024 (fun pte_index => rmv_ptbl_entry proc_index pde_index pte_index) ;;
    mret page_index.

Definition free_ptbl (ks : kstack) (proc_index vaddr : Z) : K vm unit :=
  pde ← get_pdir_entry_by_va proc_index vaddr;
  let page_index := Z.shiftr pde 12 in
  rmv_pdir_entry proc_index (PDE_ADDR vaddr) ;;
  zoom l_cn (container_free ks proc_index page_index).

(** ** MPTKern *)
Definition pdir_init_kern (mmap_length : Z) (mmap : Z -> mboot_mmap) : K vm unit :=
  pdir_init mmap_length mmap ;;
  for_range VM_USERLO_PDE VM_USERHI_PDE (fun pde_index => set_pdir_entry_identity 0 pde_index).

Definition map_page (ks : kstack) (proc_index vaddr page_index perm : Z) : K vm Z :=
  pde_entry ← get_pdir_entry_by_va proc_index vaddr;
  let pde_page_index := Z.shiftr pde_entry 12 in
  if pde_entry =? 0 then
    pde_page_index ← alloc_ptbl ks proc_index vaddr;
    if pde_page_index =? 0 then mret MagicNumber
    else set_ptbl_entry_by_va proc_index vaddr page_index perm ;; mret pde_page_index
  else set_ptbl_entry_by_va proc_index vaddr page_index perm ;; mret pde_page_index.

Definition unmap_page (proc_index vaddr : Z) : K vm Z :=
  pte_entry ← get_ptbl_entry_by_va proc_index vaddr;
  (if negb (pte_entry =? 0) then rmv_ptbl_entry_by_va proc_index vaddr else mret tt) ;;
  mret pte_entry.

(** ** MPTNew *)
Definition alloc_page (ks : kstack) (proc_index vaddr perm : Z) : K vm Z :=
  page_index ← zoom l_cn (container_alloc ks proc_index);
  if negb (page_index =? 0) then map_page ks proc_index vaddr page_index perm
  else mret MagicNumber.

Definition alloc_mem_quota (ks : kstack) (id quota : Z) : K vm Z :=
  child ← zoom l_cn (container_split ks id quota);
  mret child.

(** ** MPTInit *)
Definition paging_init (mmap_length : Z) (mmap : Z -> mboot_mmap) : K vm unit :=
  pdir_init_kern mmap_length mmap ;;
  set_pdir_base 0 ;;
  enable_paging.

Definition paging_init_ap : K vm unit := set_pdir_base 0 ;; enable_paging.
End vmm.
