(* ===== verification/VmmSpec.v ===== *)
(** * Correctness of the virtual memory layers

    The walk of the memory management unit over the tables, the invariant
    of the tables, and what the operations of Vmm.v do to translations. *)

From stdpp Require Import base gmap list numbers.
From S2P Require Import Prelude Lock Pmmap Pmm Container Mem Vmm.
Import Spinlock MContainer.

(** ** The processor's view

    Two-level translation with 4K pages (CR4.PSE is off): the physical
    address, and the permission bits P, W, U that both entries grant. *)
Definition mmu_walk (m : mem) (pdir va : Z) : option (Z * Z) :=
  let pde := load32 m (pdir + 4 * (va / 4194304)) in
  if pde mod 2 =? 0 then None
  else
    let pte := load32 m (pde - pde mod 4096 + 4 * (va / 4096 mod 1024)) in
    if pte mod 2 =? 0 then None
    else Some (pte - pte mod 4096 + va mod 4096, Z.land (pde mod 8) (pte mod 8)).

Section spec.
Context `{layout}.

Definition user_pde (d : Z) : Prop := VM_USERLO_PDE <= d < VM_USERHI_PDE.
Definition user_proc (p : Z) : Prop := 1 <= p < NUM_IDS.
Definition owned (s : vm) (f : Z) : Prop :=
  user_page f /\ 0 < allocated (AT (mat (cn s)) !!! f).

(** Entry [d] of directory [p], entry [t] of the table in frame [f]. *)
Definition pde_of (m : mem) (p d : Z) : Z := load32 m (pde_at p d).
Definition pte_of (m : mem) (f t : Z) : Z := load32 m (4096 * f + 4 * t).

(** What a frame can be used for: a page table or a mapped page. *)
Inductive slot : Type := SPt (p d : Z) | SPg (p d t : Z).
#[global] Instance slot_eq_dec : EqDecision slot.
Proof. solve_decision. Defined.

Definition user_slot (sl : slot) : Prop :=
  match sl with
  | SPt p d => user_proc p /\ user_pde d
  | SPg p d t => user_proc p /\ user_pde d /\ 0 <= t < 1024
  end.

(** The table entry for page [(d, t)] of process [p], 0 without a table. *)
Definition entry_of (m : mem) (p d t : Z) : Z :=
  if pde_of m p d =? 0 then 0 else pte_of m (pde_of m p d / 4096) t.

Definition frame_of (m : mem) (sl : slot) : option Z :=
  match sl with
  | SPt p d => if pde_of m p d =? 0 then None else Some (pde_of m p d / 4096)
  | SPg p d t => if entry_of m p d t =? 0 then None else Some (entry_of m p d t / 4096)
  end.

Record pt_inv (s : vm) : Prop := {
  vi_cont : cont_inv (cn s);
  vi_mem : mem_ok (phys s);
  vi_kern : forall p d, 0 <= p < NUM_IDS -> 0 <= d < 1024 -> kernel_pde d = true \/ p = 0 ->
    pde_of (phys s) p d = idpte_at d 0 + 7;
  vi_id : forall d t, 0 <= d < 1024 -> 0 <= t < 1024 ->
    load32 (phys s) (idpte_at d t) = 4194304 * d + 4096 * t + identity_perm d;
  vi_pde : forall p d, user_slot (SPt p d) -> pde_of (phys s) p d = 0 \/
    exists f, pde_of (phys s) p d = 4096 * f + 7 /\ owned s f;
  vi_pte : forall p d t f, user_slot (SPg p d t) -> pde_of (phys s) p d = 4096 * f + 7 ->
    pte_of (phys s) f t = 0 \/
    exists g perm, pte_of (phys s) f t = 4096 * g + perm /\ 0 < perm < 4096 /\ owned s g;
  vi_inj : forall sl sl' f, user_slot sl -> user_slot sl' ->
    frame_of (phys s) sl = Some f -> frame_of (phys s) sl' = Some f -> sl = sl'
}.

Ltac vm_consts :=
  unfold user_pde, user_proc, user_page, VM_USERLO_PDE, VM_USERHI_PDE, VM_USERLO_PI, VM_USERHI_PI,
    is_u32, pde_at, idpte_at, VM_USERLO, VM_USERHI, NUM_IDS, AT_SIZE, W32 in *.
Ltac vm_layout :=
  pose proof PDirPool_kernel; pose proof IDPTbl_kernel; pose proof layout_disjoint; vm_consts.

(** ** Stores into the tables *)

Lemma pde_store_pde m p d v p' d' :
  is_u32 v -> 0 <= p < NUM_IDS -> 0 <= d < 1024 -> 0 <= p' < NUM_IDS -> 0 <= d' < 1024 ->
  pde_of (store32 m (pde_at p d) v) p' d' =
  if decide (p' = p /\ d' = d) then v else pde_of m p' d'.
Proof.
  intros Hv Hp Hd Hp' Hd'. unfold pde_of. case_decide as E.
  - destruct E as [-> ->]. by apply load32_store32_same.
  - apply load32_store32_ne. vm_consts. lia.
Qed.

Lemma pte_store_pde m p d v f t :
  0 <= p < NUM_IDS -> 0 <= d < 1024 -> user_page f -> 0 <= t ->
  pte_of (store32 m (pde_at p d) v) f t = pte_of m f t.
Proof. intros. apply load32_store32_ne. vm_layout. lia. Qed.

Lemma id_store_pde m p d v d' t :
  0 <= p < NUM_IDS -> 0 <= d < 1024 -> 0 <= d' < 1024 -> 0 <= t < 1024 ->
  load32 (store32 m (pde_at p d) v) (idpte_at d' t) = load32 m (idpte_at d' t).
Proof. intros. apply load32_store32_ne. vm_layout. lia. Qed.

Lemma pde_store_pte m f t v p d :
  user_page f -> 0 <= t < 1024 -> 0 <= p < NUM_IDS -> 0 <= d < 1024 ->
  pde_of (store32 m (4096 * f + 4 * t) v) p d = pde_of m p d.
Proof. intros. apply load32_store32_ne. vm_layout. lia. Qed.

Lemma id_store_pte m f t v d' t' :
  user_page f -> 0 <= t < 1024 -> 0 <= d' < 1024 -> 0 <= t' < 1024 ->
  load32 (store32 m (4096 * f + 4 * t) v) (idpte_at d' t') = load32 m (idpte_at d' t').
Proof. intros. apply load32_store32_ne. vm_layout. lia. Qed.

Lemma pte_store_pte m f t v f' t' :
  is_u32 v -> 0 <= t < 1024 -> 0 <= t' < 1024 ->
  pte_of (store32 m (4096 * f + 4 * t) v) f' t' =
  if decide (f' = f /\ t' = t) then v else pte_of m f' t'.
Proof.
  intros Hv Ht Ht'. unfold pte_of. case_decide as E.
  - destruct E as [-> ->]. by apply load32_store32_same.
  - apply load32_store32_ne. lia.
Qed.

(** ** The primitive operations on well-formed tables *)

Lemma user_pde_range d : user_pde d -> 0 <= d < 1024.
Proof. vm_consts. lia. Qed.
Lemma user_proc_range p : user_proc p -> 0 <= p < NUM_IDS.
Proof. vm_consts. lia. Qed.

Lemma check_pde_eq p d s : 0 <= p < NUM_IDS -> 0 <= d < 1024 -> check_pde p d s = Ok tt s.
Proof. intros. unfold check_pde, in_array. zbool. done. Qed.

Lemma get_pdir_entry_eq s p d : 0 <= p < NUM_IDS -> 0 <= d < 1024 ->
  get_pdir_entry p d s = Ok (pde_of (phys s) p d) s.
Proof. intros. unfold get_pdir_entry, mbind, K_bind. by rewrite check_pde_eq. Qed.

Lemma pde_value f : user_page f -> Z.lor (u32 (Z.shiftl f 12)) PT_PERM_PTU = 4096 * f + 7.
Proof.
  intros Hf. rewrite u32_small.
  - change PT_PERM_PTU with 7. rewrite (lor_shiftl f 12 7) by lia. lia.
  - rewrite Z.shiftl_mul_pow2 by done. vm_consts. lia.
Qed.

Lemma pte_value g perm : user_page g -> 0 <= perm < 4096 ->
  Z.lor (u32 (Z.shiftl g 12)) perm = 4096 * g + perm.
Proof.
  intros Hg Hp. rewrite u32_small.
  - rewrite lor_shiftl by lia. lia.
  - rewrite Z.shiftl_mul_pow2 by done. vm_consts. lia.
Qed.

Lemma set_pdir_entry_eq s p d f : 0 <= p < NUM_IDS -> 0 <= d < 1024 -> user_page f ->
  set_pdir_entry p d f s = Ok tt (set_phys (store32 (phys s) (pde_at p d) (4096 * f + 7)) s).
Proof.
  intros. unfold set_pdir_entry, mbind, K_bind. rewrite check_pde_eq, pde_value by done. done.
Qed.

Lemma rmv_pdir_entry_eq s p d : 0 <= p < NUM_IDS -> 0 <= d < 1024 ->
  rmv_pdir_entry p d s = Ok tt (set_phys (store32 (phys s) (pde_at p d) 0) s).
Proof. intros. unfold rmv_pdir_entry, mbind, K_bind. by rewrite check_pde_eq. Qed.

(** The address of entry [t] of the table that a directory entry points to. *)
Lemma pt_address f t : user_page f -> 0 <= t < 1024 ->
  u32 (ADDR_MASK (4096 * f + 7) + 4 * t) = 4096 * f + 4 * t.
Proof.
  intros Hf Ht. unfold ADDR_MASK. rewrite land_page_mask by (vm_consts; lia).
  replace ((4096 * f + 7) mod 4096) with 7 by (vm_consts; zdiv).
  rewrite u32_small; vm_consts; lia.
Qed.

Section table.
Context (s : vm) (p d t f : Z).
Hypothesis (Hp : 0 <= p < NUM_IDS) (Hd : 0 <= d < 1024) (Ht : 0 <= t < 1024).
Hypothesis (Hf : user_page f) (He : pde_of (phys s) p d = 4096 * f + 7).

Lemma get_ptbl_entry_eq : get_ptbl_entry p d t s = Ok (pte_of (phys s) f t) s.
Proof.
  unfold get_ptbl_entry, mbind, K_bind. rewrite check_pde_eq by done. unfold read32, gets.
  fold (pde_of (phys s) p d). by rewrite He, pt_address.
Qed.

Lemma set_ptbl_entry_eq g perm : user_page g -> 0 <= perm < 4096 ->
  set_ptbl_entry p d t g perm s =
  Ok tt (set_phys (store32 (phys s) (4096 * f + 4 * t) (4096 * g + perm)) s).
Proof.
  intros. unfold set_ptbl_entry, mbind, K_bind. rewrite check_pde_eq by done. unfold read32, gets.
  fold (pde_of (phys s) p d). by rewrite He, pt_address, pte_value.
Qed.

Lemma rmv_ptbl_entry_eq :
  rmv_ptbl_entry p d t s = Ok tt (set_phys (store32 (phys s) (4096 * f + 4 * t) 0) s).
Proof.
  unfold rmv_ptbl_entry, mbind, K_bind. rewrite check_pde_eq by done. unfold read32, gets.
  fold (pde_of (phys s) p d). by rewrite He, pt_address.
Qed.
End table.

(** ** The frames in use *)

Lemma entry_div f x : 0 <= x < 4096 -> (4096 * f + x) / 4096 = f.
Proof. intros. zdiv. Qed.

Lemma pde_cases s p d : pt_inv s -> user_slot (SPt p d) ->
  (pde_of (phys s) p d = 0 /\ frame_of (phys s) (SPt p d) = None /\
   forall t, entry_of (phys s) p d t = 0) \/
  exists f, pde_of (phys s) p d = 4096 * f + 7 /\ owned s f /\
    frame_of (phys s) (SPt p d) = Some f /\
    forall t, entry_of (phys s) p d t = pte_of (phys s) f t.
Proof.
  intros Hinv Hsl. destruct (vi_pde s Hinv p d Hsl) as [E|(f & E & Ho)];
    simpl; unfold entry_of; rewrite E.
  - left. done.
  - right. exists f. destruct Ho as [Hu Ha]. rewrite entry_div by lia.
    rewrite (proj2 (Z.eqb_neq (4096 * f + 7) 0)) by (vm_consts; lia). done.
Qed.

Lemma frame_owned s sl f : pt_inv s -> user_slot sl -> frame_of (phys s) sl = Some f -> owned s f.
Proof.
  intros Hinv Hsl Hf. destruct sl as [p d|p d t].
  - destruct (pde_cases s p d Hinv Hsl) as [(_ & E & _)|(f' & _ & Ho & E & _)]; congruence.
  - assert (Hsl' : user_slot (SPt p d)) by (destruct Hsl as (? & ? & _); done).
    destruct (pde_cases s p d Hinv Hsl') as [(_ & _ & E)|(f' & Ep & Ho & _ & E)];
      simpl in Hf; rewrite E in Hf; [done|].
    destruct (vi_pte s Hinv p d t f' Hsl Ep) as [Ez|(g & perm & Eg & Hperm & Hg)].
    + by rewrite Ez in Hf.
    + rewrite Eg, entry_div in Hf by lia. case_match; [done|]. congruence.
Qed.

(** A frame no slot uses. *)
Definition unused (s : vm) (f : Z) : Prop :=
  forall sl, user_slot sl -> frame_of (phys s) sl <> Some f.

Lemma avail_unused s f : pt_inv s -> avail (mat (cn s)) f -> unused s f.
Proof.
  intros Hinv [_ Ha] sl Hsl Hf. destruct (frame_owned s sl f Hinv Hsl Hf) as [_ ?]. lia.
Qed.

(** ** Changing the containers *)
Lemma inv_cont s c : pt_inv s -> cont_inv c ->
  (forall f, owned s f -> owned (lset l_cn c s) f) -> pt_inv (lset l_cn c s).
Proof.
  intros [? ? Hk Hi Hd Ht Hj] Hc Ho. split; simpl; [done|done|done|done| | |done].
  - intros p d Hsl. destruct (Hd p d Hsl) as [?|(f & ? & ?)]; [by left|right]. eauto.
  - intros p d t f Hsl Ep. destruct (Ht p d t f Hsl Ep) as [?|(g & perm & ? & ? & ?)]; [by left|].
    right. exists g, perm. auto.
Qed.

Lemma owned_alloc s c r :
  AT (mat c) = <[r := At (perm (AT (mat (cn s)) !!! r)) 1]> (AT (mat (cn s))) ->
  (forall f, owned s f -> owned (lset l_cn c s) f) /\
  (user_page r -> owned (lset l_cn c s) r).
Proof.
  intros HA. unfold owned. simpl. rewrite HA. split.
  - intros f [Hu Ha]. split; [done|]. destruct (decide (f = r)) as [->|].
    + rewrite lookup_total_insert_eq. simpl. lia.
    + by rewrite lookup_total_insert_ne.
  - intros Hu. split; [done|]. rewrite lookup_total_insert_eq. simpl. lia.
Qed.

(** ** Changing an entry of a table *)
Section set_pte.
Context (s : vm) (p d t f v : Z).
Hypothesis (Hinv : pt_inv s) (Hsl : user_slot (SPg p d t)).
Hypothesis (Ep : pde_of (phys s) p d = 4096 * f + 7).
Hypothesis Hv : v = 0 \/ exists g perm, v = 4096 * g + perm /\ 0 < perm < 4096 /\ owned s g /\
  forall sl, user_slot sl -> frame_of (phys s) sl = Some g -> sl = SPg p d t.

Let s' := set_phys (store32 (phys s) (4096 * f + 4 * t) v) s.

Lemma set_pte_facts : owned s f /\ is_u32 v /\ 0 <= t < 1024 /\ 0 <= p < NUM_IDS /\ 0 <= d < 1024 /\
  frame_of (phys s) (SPt p d) = Some f.
Proof.
  destruct Hsl as (Hp & Hd & Ht).
  destruct (pde_cases s p d Hinv (conj Hp Hd)) as [(E & _)|(f' & E & Ho & Ef & _)].
  { rewrite Ep in E. assert (f = - 7 / 4096) as -> by (vm_consts; zdiv). done. }
  assert (f' = f) as -> by lia. split; [done|]. split.
  - destruct Hv as [->|(g & perm & -> & ? & [Hg _] & _)]; vm_consts; lia.
  - split; [done|]. split; [by apply user_proc_range|]. split; [by apply user_pde_range|done].
Qed.

Lemma set_pte_pde p' d' : 0 <= p' < NUM_IDS -> 0 <= d' < 1024 ->
  pde_of (phys s') p' d' = pde_of (phys s) p' d'.
Proof. destruct set_pte_facts as ([? _] & ? & ? & ? & ? & _). intros. by apply pde_store_pte. Qed.

Lemma set_pte_entry p' d' t' : user_slot (SPg p' d' t') ->
  entry_of (phys s') p' d' t' =
  if decide (SPg p' d' t' = SPg p d t) then v else entry_of (phys s) p' d' t'.
Proof.
  destruct set_pte_facts as (Ho & Hv32 & Ht & Hp & Hd & Ef).
  intros (Hp' & Hd' & Ht'). unfold entry_of.
  rewrite set_pte_pde by auto using user_proc_range, user_pde_range.
  destruct (pde_cases s p' d' Hinv (conj Hp' Hd')) as [(E & _)|(f' & E & Ho' & Ef' & _)].
  - rewrite E. simpl. rewrite decide_False; [done|]. intros [= -> -> ->]. destruct Ho as [Hu _].
    vm_consts. lia.
  - rewrite E, entry_div by lia. destruct Ho' as [Hu' _].
    rewrite (proj2 (Z.eqb_neq (4096 * f' + 7) 0)) by (vm_consts; lia).
    unfold s'. simpl phys. rewrite pte_store_pte by done.
    destruct (decide (f' = f /\ t' = t)) as [[-> ->]|Hne].
    + assert (Heq : SPt p' d' = SPt p d).
      { apply (vi_inj s Hinv _ _ f); [done| |done|done]. by destruct Hsl as (? & ? & _). }
      injection Heq as -> ->. by rewrite decide_True.
    + rewrite decide_False; [done|]. intros [= -> -> ->]. apply Hne. split; [|done]. lia.
Qed.

Lemma set_pte_frame sl : user_slot sl ->
  frame_of (phys s') sl =
  if decide (sl = SPg p d t) then (if v =? 0 then None else Some (v / 4096))
  else frame_of (phys s) sl.
Proof.
  intros Hu. destruct sl as [p' d'|p' d' t']; unfold frame_of.
  - destruct Hu as [Hp' Hd']. rewrite decide_False by done.
    by rewrite set_pte_pde by auto using user_proc_range, user_pde_range.
  - rewrite set_pte_entry by done. by case_decide.
Qed.

Lemma set_pte_inv : pt_inv s'.
Proof.
  destruct set_pte_facts as (Ho & Hv32 & Ht & Hp & Hd & Ef). pose proof Ho as [Hu _].
  destruct Hinv as [Hc Hm Hk Hi Hpd Hpt Hj]. split; simpl; [done|by apply mem_ok_store32| | | | |].
  - intros p' d' ? ? ?. rewrite set_pte_pde by done. by apply Hk.
  - intros d' t' ? ?. rewrite id_store_pte by done. by apply Hi.
  - intros p' d' Hs. rewrite set_pte_pde by (destruct Hs; auto using user_proc_range, user_pde_range).
    by apply Hpd.
  - intros p' d' t' f' Hs Ep'. pose proof Hs as (Hp' & Hd' & Ht').
    rewrite set_pte_pde in Ep' by auto using user_proc_range, user_pde_range.
    rewrite pte_store_pte by done. case_decide as E; [|by eapply Hpt].
    destruct Hv as [->|(g & perm & -> & ? & ? & _)]; [by left|right]. by exists g, perm.
  - intros sl sl' x Hs Hs'. rewrite !set_pte_frame by done.
    destruct (decide (sl = SPg p d t)) as [->|]; destruct (decide (sl' = SPg p d t)) as [->|];
      [done| | |by apply Hj].
    + destruct Hv as [->|(g & perm & -> & ? & ? & Hun)]; [done|]. rewrite entry_div by lia.
      intros Hx Hx'. case_match; [done|]. simplify_eq. symmetry. by apply Hun.
    + destruct Hv as [->|(g & perm & -> & ? & ? & Hun)]; [done|]. rewrite entry_div by lia.
      intros Hx Hx'. case_match; [done|]. simplify_eq. by apply Hun.
Qed.
End set_pte.

(** ** Installing an empty table *)
Section install.
Context (s : vm) (p d f : Z) (m : mem).
Hypothesis (Hinv : pt_inv s) (Hsl : user_slot (SPt p d)) (Ep : pde_of (phys s) p d = 0).
Hypothesis (Ho : owned s f) (Hun : unused s f).
Hypothesis Hsame : forall a, ~ 4096 * f <= a < 4096 * f + 4096 ->
  ~ pde_at p d <= a < pde_at p d + 4 -> load8 m a = load8 (phys s) a.
Hypothesis (Hpde : pde_of m p d = 4096 * f + 7) (Hclear : forall t, 0 <= t < 1024 -> pte_of m f t = 0).
Hypothesis Hok : mem_ok m.

Lemma install_facts : 0 <= p < NUM_IDS /\ 0 <= d < 1024 /\ user_page f.
Proof. destruct Hsl. destruct Ho. auto using user_proc_range, user_pde_range. Qed.

Lemma install_pde p' d' : 0 <= p' < NUM_IDS -> 0 <= d' < 1024 ->
  pde_of m p' d' = if decide (p' = p /\ d' = d) then 4096 * f + 7 else pde_of (phys s) p' d'.
Proof.
  destruct install_facts as (Hp & Hd & Hu). intros Hp' Hd'. case_decide as E.
  - destruct E as [-> ->]. done.
  - apply load32_ext. intros b Hb. apply Hsame; vm_layout; lia.
Qed.

Lemma install_pte f' t : user_page f' -> 0 <= t < 1024 ->
  pte_of m f' t = if decide (f' = f) then 0 else pte_of (phys s) f' t.
Proof.
  destruct install_facts as (Hp & Hd & Hu). intros Hf' Ht. case_decide as E; subst; [auto|].
  apply load32_ext. intros b Hb. apply Hsame; vm_layout; lia.
Qed.

Lemma install_id d' t : 0 <= d' < 1024 -> 0 <= t < 1024 ->
  load32 m (idpte_at d' t) = load32 (phys s) (idpte_at d' t).
Proof.
  destruct install_facts as (Hp & Hd & Hu). intros Hd' Ht.
  apply load32_ext. intros b Hb. apply Hsame; vm_layout; lia.
Qed.

Lemma install_entry p' d' t' : user_slot (SPg p' d' t') ->
  entry_of m p' d' t' = entry_of (phys s) p' d' t'.
Proof.
  destruct install_facts as (Hp & Hd & Hu). intros (Hp' & Hd' & Ht'). unfold entry_of.
  rewrite install_pde by auto using user_proc_range, user_pde_range.
  destruct (decide (p' = p /\ d' = d)) as [[-> ->]|Hne].
  - rewrite entry_div, Ep, Hclear by (lia || done). by case_match.
  - destruct (pde_cases s p' d' Hinv (conj Hp' Hd')) as [(-> & _)|(f' & E & [Hu' _] & Ef & _)];
      [done|].
    rewrite E, entry_div, install_pte by (lia || done).
    destruct (decide (f' = f)) as [->|]; [|done]. exfalso. by apply (Hun (SPt p' d')).
Qed.

Lemma install_frame sl : user_slot sl ->
  frame_of m sl = if decide (sl = SPt p d) then Some f else frame_of (phys s) sl.
Proof.
  destruct install_facts as (Hp & Hd & Hu).
  intros Hs. destruct sl as [p' d'|p' d' t']; unfold frame_of.
  - destruct Hs as [Hp' Hd']. rewrite install_pde by auto using user_proc_range, user_pde_range.
    destruct (decide (p' = p /\ d' = d)) as [[-> ->]|Hne].
    + rewrite decide_True, entry_div by (done || lia).
      by rewrite (proj2 (Z.eqb_neq (4096 * f + 7) 0)) by (vm_consts; lia).
    + rewrite decide_False; [done|]. intros [= -> ->]. tauto.
  - by rewrite install_entry.
Qed.

Lemma install_inv : pt_inv (set_phys m s).
Proof.
  destruct install_facts as (Hp & Hd & Hu).
  pose proof Hinv as [Hc Hm Hk Hi Hpd Hpt Hj]. split; simpl; [done|done| | | | |].
  - intros p' d' Hp' Hd' Hkd. rewrite install_pde by done.
    case_decide as E; [|by apply Hk]. exfalso. destruct E as [-> ->].
    destruct Hsl as [Hup Hud]. unfold kernel_pde in Hkd. vm_consts. lia.
  - intros d' t' ? ?. rewrite install_id by done. by apply Hi.
  - intros p' d' Hs. pose proof Hs as [Hp' Hd'].
    rewrite install_pde by auto using user_proc_range, user_pde_range.
    case_decide; [right; by exists f|]. by apply Hpd.
  - intros p' d' t' f' Hs Ep'. pose proof Hs as (Hp' & Hd' & Ht').
    rewrite install_pde in Ep' by auto using user_proc_range, user_pde_range.
    case_decide as E.
    + assert (f' = f) as -> by lia. left. auto.
    + assert (Hu' : user_page f').
      { destruct (Hpd p' d' (conj Hp' Hd')) as [?|(f1 & ? & [? _])]; [vm_consts; lia|].
        assert (f' = f1) as -> by lia. done. }
      rewrite install_pte by done. case_decide; [by left|]. by eapply Hpt.
  - intros sl sl' x Hs Hs'. rewrite !install_frame by done.
    destruct (decide (sl = SPt p d)) as [->|]; destruct (decide (sl' = SPt p d)) as [->|];
      [done| | |by apply Hj].
    + intros [= ->] E. exfalso. by apply (Hun sl').
    + intros E [= ->]. exfalso. by apply (Hun sl).
Qed.
End install.

(** ** Addresses *)
Definition user_va (va : Z) : Prop := VM_USERLO <= va < VM_USERHI.
Definition pdx (va : Z) : Z := va / 4194304.
Definition ptx (va : Z) : Z := va / 4096 mod 1024.
Definition va_slot (p va : Z) : slot := SPg p (pdx va) (ptx va).

Lemma PDE_ADDR_eq va : PDE_ADDR va = pdx va.
Proof. unfold PDE_ADDR. by rewrite Z.shiftr_div_pow2. Qed.
Lemma PTE_ADDR_eq va : PTE_ADDR va = ptx va.
Proof. unfold PTE_ADDR. by rewrite (land_low _ 10), Z.shiftr_div_pow2. Qed.

Lemma pdx_range va : is_u32 va -> 0 <= pdx va < 1024.
Proof. unfold pdx. vm_consts. zdiv. Qed.
Lemma ptx_range va : 0 <= ptx va < 1024.
Proof. apply Z.mod_pos_bound. lia. Qed.
Lemma va_user_pde va : user_va va -> user_pde (pdx va).
Proof. unfold user_va, pdx. vm_consts. zdiv. Qed.
Lemma va_user_slot p va : user_proc p -> user_va va -> user_slot (va_slot p va).
Proof. intros. split; [done|]. split; [by apply va_user_pde|apply ptx_range]. Qed.
Lemma va_user_u32 va : user_va va -> is_u32 va.
Proof. unfold user_va. vm_consts. lia. Qed.

(** The slot names the page. *)
Lemma va_slot_inj p p' va va' : va_slot p va = va_slot p' va' -> p = p' /\ va / 4096 = va' / 4096.
Proof. unfold va_slot, pdx, ptx. intros [= -> Hd Ht]. split; [done|]. zdiv. Qed.

(** ** Allocating a table *)

(** Bytes outside the directories and outside frame [f] are untouched. *)
Definition bytes_kept (m m' : mem) (f : Z) : Prop :=
  forall a, ~ PDirPool <= a < PDirPool + NUM_IDS * 4096 -> a / 4096 <> f -> load8 m' a = load8 m a.

Lemma clear_table s p d f :
  user_slot (SPt p d) -> user_page f -> mem_ok (phys s) -> pde_of (phys s) p d = 4096 * f + 7 ->
  wp (for_range 0 1024 (fun t => rmv_ptbl_entry p d t))
     (fun _ s' => exists m, s' = set_phys m s /\ mem_ok m /\
        (forall a, ~ 4096 * f <= a < 4096 * f + 4096 -> load8 m a = load8 (phys s) a) /\
        forall t, 0 <= t < 1024 -> pte_of m f t = 0) s.
Proof.
  intros [Hp Hd] Hf Hok Ep. apply user_proc_range in Hp. apply user_pde_range in Hd.
  apply (wp_for _ (fun k s' => exists m, s' = set_phys m s /\ mem_ok m /\
        (forall a, ~ 4096 * f <= a < 4096 * f + 4096 -> load8 m a = load8 (phys s) a) /\
        forall t, 0 <= t < k -> pte_of m f t = 0)); [done| |].
  - intros k s' Hk (m & -> & Hm & Hs & Hz).
    eapply wp_of_eq.
    { apply (rmv_ptbl_entry_eq _ p d k f); try done. simpl. rewrite <- Ep.
      apply load32_ext. intros b Hb. apply Hs. vm_layout. lia. }
    simpl. exists (store32 m (4096 * f + 4 * k) 0). split; [done|].
    split; [by apply mem_ok_store32|]. split.
    + intros a Ha. rewrite load8_store32_out by lia. by apply Hs.
    + intros t Ht. rewrite pte_store_pte by (vm_consts; lia). case_decide; [done|]. apply Hz. lia.
  - exists (phys s). split; [by destruct s|]. split; [done|]. split; [done|]. intros; lia.
Qed.

(** The pages process [p] may still take. *)
Definition room_of (s : vm) (p : Z) : Z :=
  quota (CONTAINER (cn s) !!! p) - usage (CONTAINER (cn s) !!! p).

Definition owned_mono (s s' : vm) : Prop := forall f, owned s f -> owned s' f.
(** At most [n] pages of the quota of [p] are taken; nothing else changes in
    the containers, and the control registers are as before. *)
Definition grown (p n : Z) (C C' : Z -> SContainer) : Prop :=
  exists u, usage (C p) <= u <= usage (C p) + n /\ forall i, C' i = if decide (i = p) then set_usage u (C p) else C i.
Definition con_of (s : vm) (i : Z) : SContainer := CONTAINER (cn s) !!! i.
Definition spent (p n : Z) (s s' : vm) : Prop :=
  grown p n (con_of s) (con_of s') /\ cr0 s' = cr0 s /\ cr3 s' = cr3 s /\ cr4 s' = cr4 s.
Lemma grown_none p n C C' : 0 <= n -> (forall i, C' i = C i) -> grown p n C C'.
Proof. intros Hn E. exists (usage (C p)). split; [lia|]. intros i. rewrite E. case_decide as Hi; [|done]. rewrite Hi. by destruct (C p). Qed.
Lemma grown_trans p n n' C C1 C2 : grown p n C C1 -> grown p n' C1 C2 -> grown p (n + n') C C2.
Proof.
  intros (u & Hu & E) (u' & Hu' & E'). rewrite (E p), decide_True in Hu', E' by done. simpl in Hu'. exists u'. split; [lia|].
  intros i. rewrite E'. case_decide as Hi; [done|]. by rewrite E, decide_False.
Qed.
Lemma spent_alloc p s c : CONTAINER c = <[p := set_usage (usage (CONTAINER (cn s) !!! p) + 1) (CONTAINER (cn s) !!! p)]> (CONTAINER (cn s)) ->
  spent p 1 s (lset l_cn c s).
Proof.
  intros E. split; [|done]. exists (usage (con_of s p) + 1). split; [lia|]. intros i. unfold con_of. simpl. rewrite E.
  case_decide as Hi; [rewrite Hi; by rewrite lookup_total_insert_eq|by rewrite lookup_total_insert_ne].
Qed.
Lemma spent_none p n s c : 0 <= n -> CONTAINER c = CONTAINER (cn s) -> spent p n s (lset l_cn c s).
Proof. intros Hn E. split; [|done]. apply grown_none; [done|]. intros i. unfold con_of. simpl. by rewrite E. Qed.
Lemma spent_trans p n n' s s1 s2 : spent p n s s1 -> spent p n' s1 s2 -> spent p (n + n') s s2.
Proof. intros (G & ? & ? & ?) (G' & ? & ? & ?). split; [by eapply grown_trans|]. split_and!; congruence. Qed.
Lemma spent_room p n s s' : spent p n s s' -> room_of s p - n <= room_of s' p.
Proof. intros ((u & Hu & E) & _). specialize (E p). rewrite decide_True in E by done. unfold con_of in *. unfold room_of. rewrite E. simpl. lia. Qed.
Lemma spent_used p n s s' i : spent p n s s' -> used (CONTAINER (cn s') !!! i) = used (CONTAINER (cn s) !!! i).
Proof. intros ((u & _ & E) & _). specialize (E i). unfold con_of in E. rewrite E. case_decide as Hi; [|done]. by rewrite Hi. Qed.

Lemma alloc_ptbl_wp ks s p va :
  kstack_ok ks -> pt_inv s -> user_proc p -> user_va va -> pde_of (phys s) p (pdx va) = 0 ->
  wp (alloc_ptbl ks p va)
     (fun r s' => pt_inv s' /\ (owned_mono s s' /\ spent p 1 s s') /\
        (room_of s p < 1 /\ r = 0 /\ phys s' = phys s \/
         user_page r /\ pde_of (phys s') p (pdx va) = 4096 * r + 7 /\ avail (mat (cn s)) r /\
         (forall sl, user_slot sl ->
            frame_of (phys s') sl =
              if decide (sl = SPt p (pdx va)) then Some r else frame_of (phys s) sl) /\
         (forall p' d t, user_slot (SPg p' d t) ->
            entry_of (phys s') p' d t = entry_of (phys s) p' d t) /\
         bytes_kept (phys s) (phys s') r)) s.
Proof.
  intros Hks Hinv Hp Hva Ep. unfold alloc_ptbl. wp_steps.
  pose proof (va_user_pde va Hva) as Hd. pose proof (conj Hp Hd : user_slot (SPt p (pdx va))) as Hsl.
  wp_call container_alloc_wp; [done|apply Hinv|by apply user_proc_range|].
  intros r c (Hc & _ & Hr). case_decide as Hroom; [|destruct Hr as (-> & HA & HC)].
  - destruct Hr as (Hu & Hav & HA & HC). destruct (owned_alloc s c r HA) as [Hmono Hown].
    specialize (Hown Hu). assert (Hr0 : r <> 0) by (vm_consts; lia). rewrite (proj2 (Z.eqb_neq r 0) Hr0).
    pose proof (avail_unused s r Hinv Hav) as Hun.
    pose proof (inv_cont s c Hinv Hc Hmono) as Hinv1. set (s1 := lset l_cn c s) in *.
    unfold set_pdir_entry_by_va. rewrite PDE_ADDR_eq. wp_steps.
    eapply wp_of_eq; [apply set_pdir_entry_eq; auto using user_proc_range, user_pde_range|].
    cbv beta. wp_step. wp_call (clear_table (set_phys
      (store32 (phys s1) (pde_at p (pdx va)) (4096 * r + 7)) s1) p (pdx va) r Hsl Hu).
    { apply mem_ok_store32, Hinv1. }
    { simpl. rewrite pde_store_pde, decide_True
        by (done || auto using user_proc_range, user_pde_range || (vm_consts; lia)). done. }
    intros [] s' (m & -> & Hm & Hs & Hz). wp_steps. simpl in Hs.
    change (set_phys m (set_phys _ s1)) with (set_phys m s1).
    assert (Hsame : forall a, ~ 4096 * r <= a < 4096 * r + 4096 ->
      ~ pde_at p (pdx va) <= a < pde_at p (pdx va) + 4 -> load8 m a = load8 (phys s1) a).
    { intros a Ha Hb. rewrite Hs by done. apply load8_store32_out. lia. }
    assert (Hpde : pde_of m p (pdx va) = 4096 * r + 7).
    { transitivity (pde_of (store32 (phys s1) (pde_at p (pdx va)) (4096 * r + 7)) p (pdx va)).
      - apply load32_ext. intros b Hb. apply Hs. apply user_proc_range in Hp.
        apply user_pde_range in Hd. vm_layout. lia.
      - unfold pde_of. apply load32_store32_same. vm_consts. lia. }
    split; [by apply (install_inv s1 p (pdx va) r m)|]. split; [split; [exact Hmono|]|right].
    { exact (spent_alloc p s c HC). }
    split; [done|]. split; [done|]. split; [done|]. split; [|split].
    + intros sl Hu'. by apply (install_frame s1 p (pdx va) r m).
    + intros p' d t Hs'. by apply (install_entry s1 p (pdx va) r m).
    + intros a Ha Hb. apply Hsame; [zdiv|]. apply user_proc_range in Hp.
      apply user_pde_range in Hd. vm_consts. lia.
  - simpl. wp_steps.
    assert (Hmono : forall f, owned s f -> owned (lset l_cn c s) f).
    { unfold owned. simpl. by rewrite HA. }
    split; [by apply inv_cont|]. split; [split; [done|]|].
    { by apply spent_none. }
    left. unfold room_of. split; [lia|done].
Qed.

(** ** Mapping a page *)

(** The effect of a mapping on process [p]'s page of [va]. *)
Record mapped (s s' : vm) (p va f v : Z) : Prop := {
  mp_table : frame_of (phys s') (SPt p (pdx va)) = Some f;
  mp_entry : entry_of (phys s') p (pdx va) (ptx va) = v;
  mp_others : forall p' d t, user_slot (SPg p' d t) -> SPg p' d t <> va_slot p va ->
    entry_of (phys s') p' d t = entry_of (phys s) p' d t;
  mp_bytes : bytes_kept (phys s) (phys s') f
}.

Lemma set_pte_mapped s p va f v :
  pt_inv s -> user_proc p -> user_va va -> pde_of (phys s) p (pdx va) = 4096 * f + 7 ->
  (v = 0 \/ exists g perm, v = 4096 * g + perm /\ 0 < perm < 4096 /\ owned s g /\
     forall sl, user_slot sl -> frame_of (phys s) sl = Some g -> sl = va_slot p va) ->
  let s' := set_phys (store32 (phys s) (4096 * f + 4 * ptx va) v) s in
  pt_inv s' /\ owned_mono s s' /\ mapped s s' p va f v.
Proof.
  intros Hinv Hp Hva Ep Hv s'. pose proof (va_user_slot p va Hp Hva) as Hsl.
  pose proof (set_pte_facts s p (pdx va) (ptx va) f v Hinv Hsl Ep Hv) as (_ & _ & ? & _ & _ & Ef).
  split; [by apply (set_pte_inv s p (pdx va))|]. split; [by intros ?|]. split.
  - unfold s'. rewrite (set_pte_frame s p (pdx va) (ptx va) f v), decide_False; try done.
    by destruct Hsl as (? & ? & _).
  - unfold s'. rewrite (set_pte_entry s p (pdx va) (ptx va) f v), decide_True; done.
  - intros p' d t Hs Hne. unfold s'.
    rewrite (set_pte_entry s p (pdx va) (ptx va) f v), decide_False; done.
  - intros a Ha Hb. apply load8_store32_out. zdiv.
Qed.

Lemma map_page_wp ks s p va g perm :
  kstack_ok ks -> pt_inv s -> user_proc p -> user_va va -> owned s g -> 0 < perm < 4096 ->
  (forall sl, user_slot sl -> frame_of (phys s) sl = Some g -> sl = va_slot p va) ->
  wp (map_page ks p va g perm)
     (fun r s' => pt_inv s' /\ (owned_mono s s' /\ spent p 1 s s') /\
        (room_of s p < 1 /\ r = MagicNumber /\ phys s' = phys s \/
         user_page r /\ mapped s s' p va r (4096 * g + perm))) s.
Proof.
  intros Hks Hinv Hp Hva Hg Hperm Hun. pose proof (va_user_pde va Hva) as Hd.
  pose proof (user_proc_range p Hp) as Hp'. pose proof (user_pde_range _ Hd) as Hd'.
  pose proof (ptx_range va) as Ht. pose proof Hg as [Hgu _].
  unfold map_page, get_pdir_entry_by_va, set_ptbl_entry_by_va. rewrite PDE_ADDR_eq, PTE_ADDR_eq.
  wp_steps. eapply wp_of_eq; [by apply get_pdir_entry_eq|]. cbv beta.
  destruct (pde_cases s p (pdx va) Hinv (conj Hp Hd)) as [(E & En & _)|(f & E & [Hf _] & Ef & _)].
  - rewrite E. simpl. wp_steps. wp_call alloc_ptbl_wp; [done..|].
    intros r s1 (Hinv1 & [Hm1 Hsp1] & [(Hroom & -> & Hph)|(Hu & E1 & Hav & Hfr & Hen & Hby)]).
    + simpl. wp_steps. split; [done|]. split; [done|]. by left.
    + assert (Hr0 : r <> 0) by (vm_consts; lia). rewrite (proj2 (Z.eqb_neq r 0) Hr0). wp_steps.
      eapply wp_of_eq; [apply (set_ptbl_entry_eq s1 p (pdx va) (ptx va) r); done || lia|]. wp_steps.
      destruct (set_pte_mapped s1 p va r (4096 * g + perm) Hinv1 Hp Hva E1) as (Hi & Hmo & Hmp).
      { right. exists g, perm. split; [done|]. split; [done|]. split; [by apply Hm1|].
        intros sl Hs. rewrite Hfr by done. case_decide; [|by apply Hun].
        intros [= ->]. exfalso. destruct Hav as [_ Ha], Hg as [_ Hg]. lia. }
      split; [done|]. split; [split; [intros x Hx; by apply Hmo, Hm1|exact Hsp1]|]. right. split; [done|].
      destruct Hmp as [? ? Ho Hb]. split; [done|done| |].
      * intros p' d t Hs Hne. rewrite Ho by done. by apply Hen.
      * intros a Ha Hne. rewrite Hb by done. by apply Hby.
  - rewrite E, (proj2 (Z.eqb_neq (4096 * f + 7) 0)) by (vm_consts; lia).
    replace (Z.shiftr (4096 * f + 7) 12) with f
      by (rewrite Z.shiftr_div_pow2 by done; change (2 ^ 12) with 4096; zdiv).
    wp_steps. eapply wp_of_eq; [apply (set_ptbl_entry_eq s p (pdx va) (ptx va) f); done || lia|]. wp_steps.
    destruct (set_pte_mapped s p va f (4096 * g + perm) Hinv Hp Hva E) as (Hi & Hmo & Hmp).
    { right. by exists g, perm. }
    split; [done|]. split; [split; [done|]|by right]. by apply (spent_none p 1 s (cn s)).
Qed.

Lemma alloc_page_wp ks s p va perm :
  kstack_ok ks -> pt_inv s -> user_proc p -> user_va va -> 0 < perm < 4096 ->
  wp (alloc_page ks p va perm)
     (fun r s' => pt_inv s' /\ (owned_mono s s' /\ spent p 2 s s') /\
        (room_of s p < 2 /\ r = MagicNumber /\ phys s' = phys s \/
         user_page r /\ exists g, avail (mat (cn s)) g /\ mapped s s' p va r (4096 * g + perm))) s.
Proof.
  intros Hks Hinv Hp Hva Hperm. unfold alloc_page. wp_steps.
  wp_call container_alloc_wp; [done|apply Hinv|by apply user_proc_range|].
  intros g c (Hc & _ & Hr). case_decide as Hroom; [|destruct Hr as (-> & HA & HC)].
  - destruct Hr as (Hu & Hav & HA & HC). destruct (owned_alloc s c g HA) as [Hmono Hown].
    specialize (Hown Hu).
    assert (Hr0 : g <> 0) by (vm_consts; lia). rewrite (proj2 (Z.eqb_neq g 0) Hr0). simpl negb.
    cbv iota. pose proof (inv_cont s c Hinv Hc Hmono) as Hinv1. set (s1 := lset l_cn c s) in *.
    wp_call (map_page_wp ks s1 p va g perm); try done.
    { intros sl Hs E. exfalso. by apply (avail_unused s g Hinv Hav sl). }
    intros r s' (Hi & [Hm Hsp] & Hres). split; [done|]. split; [split; [intros x Hx; by apply Hm, Hmono|]|].
    { exact (spent_trans p 1 1 s s1 s' (spent_alloc p s c HC) Hsp). }
    destruct Hres as [(Hroom1 & -> & Hph)|[Hur Hmp]]; [left|right].
    { unfold room_of in *. simpl in Hroom1. rewrite HC, lookup_total_insert_eq in Hroom1.
      simpl in Hroom1. split; [lia|done]. }
    split; [done|]. exists g. split; [done|]. by destruct Hmp.
  - simpl. wp_steps.
    assert (Hmono : forall f, owned s f -> owned (lset l_cn c s) f).
    { unfold owned. simpl. by rewrite HA. }
    split; [by apply inv_cont|]. split; [split; [done|]|].
    { by apply spent_none. }
    left. unfold room_of. split; [lia|done].
Qed.

(** ** Reading and removing a mapping *)
Lemma get_ptbl_entry_by_va_eq s p va : pt_inv s -> user_proc p -> user_va va ->
  get_ptbl_entry_by_va p va s = Ok (entry_of (phys s) p (pdx va) (ptx va)) s.
Proof.
  intros Hinv Hp Hva. pose proof (va_user_pde va Hva) as Hd.
  pose proof (user_proc_range p Hp) as Hp'. pose proof (user_pde_range _ Hd) as Hd'.
  unfold get_ptbl_entry_by_va, mbind, K_bind. rewrite PDE_ADDR_eq, PTE_ADDR_eq.
  rewrite get_pdir_entry_eq by done.
  destruct (pde_cases s p (pdx va) Hinv (conj Hp Hd)) as [(E & _ & En)|(f & E & [Hf _] & _ & En)];
    rewrite E, En.
  - done.
  - rewrite (proj2 (Z.eqb_neq (4096 * f + 7) 0)) by (vm_consts; lia). simpl negb. cbv iota.
    apply get_ptbl_entry_eq; auto using ptx_range.
Qed.

Lemma unmap_page_wp s p va :
  pt_inv s -> user_proc p -> user_va va ->
  wp (unmap_page p va)
     (fun r s' => pt_inv s' /\ owned_mono s s' /\ cn s' = cn s /\
        r = entry_of (phys s) p (pdx va) (ptx va) /\
        entry_of (phys s') p (pdx va) (ptx va) = 0 /\
        forall p' d t, user_slot (SPg p' d t) -> SPg p' d t <> va_slot p va ->
          entry_of (phys s') p' d t = entry_of (phys s) p' d t) s.
Proof.
  intros Hinv Hp Hva. pose proof (va_user_pde va Hva) as Hd.
  pose proof (user_proc_range p Hp) as Hp'. pose proof (user_pde_range _ Hd) as Hd'.
  unfold unmap_page, rmv_ptbl_entry_by_va. wp_steps.
  eapply wp_of_eq; [by apply get_ptbl_entry_by_va_eq|]. wp_steps.
  rewrite PDE_ADDR_eq, PTE_ADDR_eq.
  destruct (pde_cases s p (pdx va) Hinv (conj Hp Hd)) as [(E & _ & En)|(f & E & [Hf _] & _ & En)].
  - pose proof (En (ptx va)) as En0. rewrite En0. simpl. wp_steps. split_and!; (done || by intros ?).
  - destruct (entry_of (phys s) p (pdx va) (ptx va) =? 0) eqn:Ez; simpl negb; cbv iota; wp_steps.
    + apply Z.eqb_eq in Ez. split_and!; (done || by intros ?).
    + eapply wp_of_eq; [by apply get_pdir_entry_eq|]. cbv beta.
      rewrite E, (proj2 (Z.eqb_neq (4096 * f + 7) 0)) by (vm_consts; lia). simpl negb. cbv iota.
      eapply wp_of_eq; [by apply (rmv_ptbl_entry_eq s p (pdx va) (ptx va) f); auto using ptx_range|].
      wp_steps.
      destruct (set_pte_mapped s p va f 0 Hinv Hp Hva E) as (Hi & Hmo & [_ He Ho _]); [by left|].
      repeat (split; [done|]). done.
Qed.

(** ** What the processor sees *)

Lemma identity_perm_cases d : identity_perm d = 259 \/ identity_perm d = 3.
Proof. unfold identity_perm. destruct (kernel_pde d); [by left|by right]. Qed.

Lemma walk_identity s p va :
  pt_inv s -> 0 <= p < NUM_IDS -> is_u32 va -> kernel_pde (pdx va) = true \/ p = 0 ->
  mmu_walk (phys s) (pde_at p 0) va = Some (va, Z.lor PTE_P PTE_W).
Proof.
  intros Hinv Hp Hva Hk. unfold mmu_walk.
  pose proof (pdx_range va Hva) as Hd. pose proof (ptx_range va) as Ht.
  replace (pde_at p 0 + 4 * (va / 4194304)) with (pde_at p (pdx va)) by (unfold pde_at, pdx; lia).
  fold (pde_of (phys s) p (pdx va)). rewrite (vi_kern s Hinv) by done.
  pose proof IDPTbl_aligned as Hal.
  assert (Em : (idpte_at (pdx va) 0 + 7) mod 4096 = 7).
  { unfold idpte_at. Z.to_euclidean_division_equations. lia. }
  assert (Em2 : (idpte_at (pdx va) 0 + 7) mod 2 = 1 /\ (idpte_at (pdx va) 0 + 7) mod 8 = 7).
  { unfold idpte_at in *. Z.to_euclidean_division_equations. lia. }
  destruct Em2 as [-> ->]. simpl. rewrite Em.
  replace (idpte_at (pdx va) 0 + 7 - 7 + 4 * (va / 4096 mod 1024))
    with (idpte_at (pdx va) (ptx va)) by (unfold idpte_at, ptx; lia).
  rewrite (vi_id s Hinv) by done. set (q := identity_perm (pdx va)).
  assert (Hq : q = 259 \/ q = 3) by apply identity_perm_cases.
  set (x := 4194304 * pdx va + 4096 * ptx va + q).
  assert (Hx : x mod 2 = 1 /\ x mod 8 = 3 /\ x - x mod 4096 + va mod 4096 = va).
  { unfold x, pdx, ptx. vm_consts. destruct Hq as [-> | ->]; zdiv. }
  destruct Hx as (-> & -> & ->). done.
Qed.

Lemma walk_user s p va :
  pt_inv s -> user_proc p -> user_va va ->
  let e := entry_of (phys s) p (pdx va) (ptx va) in
  mmu_walk (phys s) (pde_at p 0) va =
  if e mod 2 =? 0 then None else Some (e - e mod 4096 + va mod 4096, e mod 8).
Proof.
  intros Hinv Hp Hva e. unfold mmu_walk. pose proof (va_user_pde va Hva) as Hd.
  replace (pde_at p 0 + 4 * (va / 4194304)) with (pde_at p (pdx va)) by (unfold pde_at, pdx; lia).
  fold (pde_of (phys s) p (pdx va)). unfold e.
  destruct (pde_cases s p (pdx va) Hinv (conj Hp Hd)) as [(E & _ & En)|(f & E & _ & _ & En)];
    rewrite E, En; [done|].
  assert (Em : (4096 * f + 7) mod 2 = 1 /\ (4096 * f + 7) mod 8 = 7 /\ (4096 * f + 7) mod 4096 = 7)
    by zdiv.
  destruct Em as (-> & -> & ->). simpl.
  replace (4096 * f + 7 - 7 + 4 * (va / 4096 mod 1024)) with (4096 * f + 4 * ptx va)
    by (unfold ptx; lia).
  fold (pte_of (phys s) f (ptx va)). case_match; [done|]. do 2 f_equal.
  rewrite Z.land_comm, (land_low _ 3) by done. change (2 ^ 3) with 8. by rewrite Z.mod_mod.
Qed.

Lemma va_cases va : is_u32 va -> kernel_pde (pdx va) = true \/ user_va va.
Proof.
  intros Hva. unfold kernel_pde, user_va, pdx. vm_consts.
  destruct (_ || _) eqn:E; [by left|right].
  apply orb_false_iff in E as [E1 E2]. Z.to_euclidean_division_equations. lia.
Qed.

(** Translations depend on the entries only. *)
Lemma walk_same s s' p va :
  pt_inv s -> pt_inv s' -> 0 <= p < NUM_IDS -> is_u32 va ->
  (user_proc p -> user_va va ->
   entry_of (phys s') p (pdx va) (ptx va) = entry_of (phys s) p (pdx va) (ptx va)) ->
  mmu_walk (phys s') (pde_at p 0) va = mmu_walk (phys s) (pde_at p 0) va.
Proof.
  intros Hi Hi' Hp Hva He. destruct (decide (p = 0)) as [->|Hp0].
  { rewrite !walk_identity by (done || by right). done. }
  destruct (va_cases va Hva) as [Hk|Hu].
  { rewrite !walk_identity by (done || by left). done. }
  assert (Hup : user_proc p) by (vm_consts; lia).
  rewrite !walk_user, He by done. done.
Qed.

(** ** Initialisation *)

Lemma id_value d t q : 0 <= d < 1024 -> 0 <= t < 1024 -> 0 <= q < 4096 ->
  Z.lor (Z.lor (u32 (Z.shiftl d 22)) (u32 (Z.shiftl t 12))) q = 4194304 * d + 4096 * t + q.
Proof.
  intros Hd Ht Hq. rewrite !Z.shiftl_mul_pow2 by done.
  change (2 ^ 22) with 4194304. change (2 ^ 12) with 4096.
  rewrite !u32_small by (vm_consts; lia).
  rewrite (lor_aligned (d * 4194304) 22) by
    (try done; change (2 ^ 22) with 4194304; try lia; by rewrite Z.mod_mul).
  rewrite (lor_aligned _ 12) by (try done; change (2 ^ 12) with 4096; zdiv).
  lia.
Qed.

Lemma id_pde_value d : 0 <= d < 1024 ->
  Z.lor (idpte_at d 0) PT_PERM_PTU = idpte_at d 0 + 7 /\ is_u32 (idpte_at d 0 + 7).
Proof.
  intros Hd. pose proof IDPTbl_aligned as Hal. change PT_PERM_PTU with 7. split.
  - apply (lor_aligned _ 12); [done| |lia]. change (2 ^ 12) with 4096. unfold idpte_at. zdiv.
  - vm_layout. lia.
Qed.

Lemma set_id_eq s d t : 0 <= d < 1024 -> 0 <= t < 1024 ->
  set_ptbl_entry_identity d t (identity_perm d) s =
  Ok tt (set_phys (store32 (phys s) (idpte_at d t) (4194304 * d + 4096 * t + identity_perm d)) s).
Proof.
  intros Hd Ht. unfold set_ptbl_entry_identity, in_array. krun. zbool. simpl.
  rewrite id_value; [done|done|done|]. destruct (identity_perm_cases d) as [-> | ->]; lia.
Qed.

Lemma set_pdir_identity_eq s p d : 0 <= p < NUM_IDS -> 0 <= d < 1024 ->
  set_pdir_entry_identity p d s =
  Ok tt (set_phys (store32 (phys s) (pde_at p d) (idpte_at d 0 + 7)) s).
Proof.
  intros Hp Hd. unfold set_pdir_entry_identity, check_pde, in_array. krun. zbool. krun.
  by rewrite (proj1 (id_pde_value d Hd)).
Qed.

(** Entries of the identity tables before [(k, j)] are set. *)
Definition id_done (k j : Z) (s : vm) : Prop :=
  mem_ok (phys s) /\ forall d t, 0 <= d < 1024 -> 0 <= t < 1024 -> d < k \/ d = k /\ t < j ->
  load32 (phys s) (idpte_at d t) = 4194304 * d + 4096 * t + identity_perm d.

Lemma id_loop s : mem_ok (phys s) ->
  wp (for_range 0 1024 (fun d => let perm := identity_perm d in
        for_range 0 1024 (fun t => set_ptbl_entry_identity d t perm)))
     (fun _ s' => cn s' = cn s /\ id_done 1024 0 s') s.
Proof.
  intros Hok. apply (wp_for _ (fun k s' => cn s' = cn s /\ id_done k 0 s')); [done| |].
  - intros k s1 Hk (Hc & Hm & Hd). cbv zeta.
    eapply wp_mono; [apply (wp_for _ (fun j s' => cn s' = cn s /\ id_done k j s')); [done| |done]|].
    + intros j s2 Hj (Hc2 & Hm2 & Hd2). eapply wp_of_eq; [by apply set_id_eq|].
      split; [done|]. split; [by apply mem_ok_store32|]. simpl. intros d t Hd' Ht' Hlt.
      destruct (decide (d = k /\ t = j)) as [[-> ->]|Hne].
      * apply load32_store32_same. destruct (identity_perm_cases k) as [-> | ->]; vm_consts; lia.
      * rewrite load32_store32_ne by (vm_consts; lia). apply Hd2; [done|done|lia].
    + intros [] s2 (Hc2 & Hm2 & Hd2). split; [done|]. split; [done|].
      intros d t Hd' Ht' Hlt. apply Hd2; [done|done|lia].
  - split; [done|]. split; [done|]. intros; lia.
Qed.

(** Directory entries before [(k, j)] are set, process 0's up to [z]. *)
Definition dir_value (z p d : Z) : Z :=
  if kernel_pde d || (p =? 0) && (d <? z) then idpte_at d 0 + 7 else 0.
Definition dir_done (k j z : Z) (s : vm) : Prop :=
  id_done 1024 0 s /\ forall p d, 0 <= p < NUM_IDS -> 0 <= d < 1024 -> p < k \/ p = k /\ d < j ->
  pde_of (phys s) p d = dir_value z p d.

Lemma id_done_store_pde s p d v : 0 <= p < NUM_IDS -> 0 <= d < 1024 -> id_done 1024 0 s ->
  id_done 1024 0 (set_phys (store32 (phys s) (pde_at p d) v) s).
Proof.
  intros Hp Hd [Hm Hid]. split; [by apply mem_ok_store32|]. simpl. intros d' t' ? ? ?.
  rewrite id_store_pde by done. auto.
Qed.

Lemma dir_done_store s k j k' j' z z' v :
  0 <= k' < NUM_IDS -> 0 <= j' < 1024 -> v = dir_value z' k' j' -> is_u32 v ->
  (forall p d, 0 <= p < NUM_IDS -> 0 <= d < 1024 -> ~ (p = k' /\ d = j') ->
     dir_value z' p d = dir_value z p d) ->
  dir_done k j z s ->
  forall k2 j2, (forall p d, 0 <= d < 1024 -> p < k2 \/ p = k2 /\ d < j2 ->
                   p = k' /\ d = j' \/ p < k \/ p = k /\ d < j) ->
  dir_done k2 j2 z' (set_phys (store32 (phys s) (pde_at k' j') v) s).
Proof.
  intros Hk Hj -> Hv Hz [Hid Hpd] k2 j2 Hlt. split; [by apply id_done_store_pde|].
  simpl. intros p d Hp Hd Hb. rewrite pde_store_pde by done. case_decide as E.
  - by destruct E as [-> ->].
  - rewrite Hz by done. apply Hpd; [done|done|]. destruct (Hlt p d Hd Hb); [tauto|done].
Qed.

Lemma dir_loop s : id_done 1024 0 s ->
  wp (for_range 0 NUM_IDS (fun p => for_range 0 1024 (fun d =>
        if kernel_pde d then set_pdir_entry_identity p d else rmv_pdir_entry p d)))
     (fun _ s' => cn s' = cn s /\ dir_done NUM_IDS 0 0 s') s.
Proof.
  intros Hid. apply (wp_for _ (fun k s' => cn s' = cn s /\ dir_done k 0 0 s')); [done| |].
  - intros k s1 Hk (Hc & Hd).
    eapply wp_mono; [apply (wp_for _ (fun j s' => cn s' = cn s /\ dir_done k j 0 s')); [done| |done]|].
    + intros j s2 Hj (Hc2 & Hd2).
      assert (Hval : dir_value 0 k j = if kernel_pde j then idpte_at j 0 + 7 else 0).
      { unfold dir_value. rewrite (proj2 (Z.ltb_ge j 0)) by lia.
        by rewrite andb_false_r, orb_false_r. }
      destruct (kernel_pde j) eqn:Ek;
        (eapply wp_of_eq; [(by apply set_pdir_identity_eq) || (by apply rmv_pdir_entry_eq)|]);
        (split; [done|]); eapply dir_done_store; try done;
        [apply id_pde_value; done|intros; lia|intros; lia].
    + intros [] s2 (Hc2 & Hid2 & Hd2). split; [done|]. split; [done|].
      intros p d Hp Hd' Hlt. apply Hd2; [done|done|lia].
  - split; [done|]. split; [done|]. intros; lia.
Qed.

Lemma kern_loop s : dir_done NUM_IDS 0 0 s ->
  wp (for_range VM_USERLO_PDE VM_USERHI_PDE (fun d => set_pdir_entry_identity 0 d))
     (fun _ s' => cn s' = cn s /\ dir_done NUM_IDS 0 VM_USERHI_PDE s') s.
Proof.
  intros Hd. apply (wp_for _ (fun z s' => cn s' = cn s /\ dir_done NUM_IDS 0 z s')); [done| |].
  - intros z s1 Hz (Hc & Hd1). assert (Hz' : 0 <= z < 1024) by (vm_consts; lia).
    eapply wp_of_eq; [by apply set_pdir_identity_eq|]. split; [done|].
    assert (Hval : dir_value (z + 1) 0 z = idpte_at z 0 + 7).
    { unfold dir_value. rewrite (proj2 (Z.ltb_lt z (z + 1))) by lia. simpl. by rewrite orb_true_r. }
    eapply dir_done_store; try exact Hd1; try done; [by apply id_pde_value| |intros; lia].
    intros p d Hp Hd' Hne. unfold dir_value. destruct (p =? 0) eqn:E; simpl; [|done].
    destruct (d <? z + 1) eqn:E1, (d <? z) eqn:E2; done || lia.
  - split; [done|]. destruct Hd as [Hid Hd]. split; [done|]. intros p d Hp Hd' Hlt.
    rewrite Hd by done. unfold dir_value.
    destruct (kernel_pde d) eqn:E; [done|]. unfold kernel_pde in E. simpl.
    replace (d <? 0) with false by lia. replace (d <? VM_USERLO_PDE) with false by lia. done.
Qed.

(** The control register 0 with paging and write protection on. *)
Definition paging_on (s : vm) : Prop :=
  Z.testbit (cr0 s) 31 = true /\ Z.testbit (cr0 s) 16 = true /\ Z.testbit (cr0 s) 0 = true.

Lemma paging_init_wp mmap n m c0 c3 c4 :
  0 <= n <= 128 -> (forall i, 0 <= i < n -> mmap_wf (mmap (SIZEOF_MMAP * i))) -> mem_ok m ->
  wp (paging_init (SIZEOF_MMAP * n) mmap)
     (fun _ s => pt_inv s /\ cr3 s = pde_at 0 0 /\ paging_on s /\
        (forall p d, user_slot (SPt p d) -> pde_of (phys s) p d = 0) /\
        container_init (SIZEOF_MMAP * n) mmap cont0 = Ok tt (cn s)) (Vm cont0 m c0 c3 c4).
Proof.
  intros Hn Hmm Hok. unfold paging_init, pdir_init_kern, pdir_init, idptbl_init. wp_steps.
  destruct (proj1 (wp_elim _ _ _) (container_init_wp mmap n Hn Hmm)) as ([] & c & Ec & Hc & _).
  eapply wp_of_eq; [exact Ec|]. wp_steps.
  wp_call id_loop; [done|]. intros [] s1 (Hc1 & Hid1).
  wp_call dir_loop; [done|]. intros [] s2 (Hc2 & Hd2).
  wp_call kern_loop; [done|]. intros [] s3 (Hc3 & Hd3).
  unfold set_pdir_base, set_cr3, enable_paging, lcr3, lcr4, lcr0, rcr4, rcr0. wp_steps.
  destruct Hd3 as [[Hm3 Hid3] Hpd3].
  assert (Hpde : forall p d, 0 <= p < NUM_IDS -> 0 <= d < 1024 ->
    pde_of (phys s3) p d = dir_value VM_USERHI_PDE p d) by (intros; apply Hpd3; [done|done|lia]).
  assert (Hzero : forall p d, user_slot (SPt p d) -> pde_of (phys s3) p d = 0).
  { intros p d [Hp Hd]. rewrite Hpde by auto using user_proc_range, user_pde_range.
    unfold dir_value, kernel_pde. vm_consts.
    replace (p =? 0) with false by lia. replace (d <? 256) with false by lia.
    by replace (960 <=? d) with false by lia. }
  assert (Hnone : forall sl, user_slot sl -> frame_of (phys s3) sl = None).
  { intros [p d|p d t] Hsl; unfold frame_of, entry_of.
    - by rewrite Hzero.
    - destruct Hsl as (? & ? & _). by rewrite Hzero. }
  assert (Ecn : cn s3 = c) by by rewrite Hc3, Hc2, Hc1.
  split; [|split; [done|split; [|split; [done|simpl; by rewrite Ecn]]]].
  - split; simpl.
    + by rewrite Hc3, Hc2, Hc1.
    + done.
    + intros p d Hp Hd Hk. rewrite Hpde by done. unfold dir_value.
      destruct (kernel_pde d) eqn:E; [done|]. destruct Hk as [?| ->]; [done|].
      unfold kernel_pde in E. simpl. by replace (d <? VM_USERHI_PDE) with true by lia.
    + intros d t Hd Ht. apply Hid3; [done|done|lia].
    + intros p d Hsl. left. by apply Hzero.
    + intros p d t f Hsl E. exfalso. destruct Hsl as (Hp & Hd & _).
      rewrite Hzero in E by done. zdiv.
    + intros sl sl' f Hs Hs' E. by rewrite Hnone in E.
  - unfold paging_on. cbn [cr0]. split_and!; rewrite Z.ldiff_spec, Z.lor_spec;
      match goal with |- (_ || ?b) && _ = true => change b with true end;
      by rewrite orb_true_r.
Qed.

(** Nothing but the directories and the identity tables is written. *)
Definition tables_only (m m' : mem) : Prop := forall a,
  ~ PDirPool <= a < PDirPool + NUM_IDS * 4096 -> ~ IDPTbl <= a < IDPTbl + 1024 * 4096 -> load8 m' a = load8 m a.
Lemma tables_only_pde m0 m p d v : 0 <= p < NUM_IDS -> 0 <= d < 1024 -> tables_only m0 m -> tables_only m0 (store32 m (pde_at p d) v).
Proof. intros Hp Hd Hto a H1 H2. rewrite load8_store32_out by (vm_consts; lia). by apply Hto. Qed.
Lemma tables_only_id m0 m d t v : 0 <= d < 1024 -> 0 <= t < 1024 -> tables_only m0 m -> tables_only m0 (store32 m (idpte_at d t) v).
Proof. intros Hp Hd Hto a H1 H2. rewrite load8_store32_out by (vm_consts; lia). by apply Hto. Qed.
Lemma paging_init_keeps mmap n m c0 c3 c4 :
  0 <= n <= 128 -> (forall i, 0 <= i < n -> mmap_wf (mmap (SIZEOF_MMAP * i))) ->
  wp (paging_init (SIZEOF_MMAP * n) mmap) (fun _ s => tables_only m (phys s)) (Vm cont0 m c0 c3 c4).
Proof.
  intros Hn Hmm. unfold paging_init, pdir_init_kern, pdir_init, idptbl_init. wp_steps.
  destruct (proj1 (wp_elim _ _ _) (container_init_wp mmap n Hn Hmm)) as ([] & c & Ec & _).
  eapply wp_of_eq; [exact Ec|]. wp_steps.
  wp_call (wp_for _ (fun _ s => tables_only m (phys s)) 0 1024); [done| |done|].
  { intros d s Hd Hs. cbv zeta. apply (wp_for _ (fun _ s => tables_only m (phys s))); [done| |done].
    intros j s' Hj Hs'. eapply wp_of_eq; [by apply set_id_eq|]. by apply tables_only_id. }
  intros [] s1 H1. wp_call (wp_for _ (fun _ s => tables_only m (phys s)) 0 NUM_IDS); [done| |done|].
  { intros p s Hp Hs. apply (wp_for _ (fun _ s => tables_only m (phys s))); [done| |done].
    intros d s' Hd Hs'. destruct (kernel_pde d); (eapply wp_of_eq; [(by apply set_pdir_identity_eq) || (by apply rmv_pdir_entry_eq)|]); by apply tables_only_pde. }
  intros [] s2 H2. wp_call (wp_for _ (fun _ s => tables_only m (phys s)) VM_USERLO_PDE VM_USERHI_PDE); [done| |done|].
  { intros d s Hd Hs. assert (0 <= d < 1024) by (vm_consts; lia). eapply wp_of_eq; [by apply set_pdir_identity_eq|]. by apply tables_only_pde. }
  intros [] s3 H3. unfold set_pdir_base, set_cr3, enable_paging, lcr3, lcr4, lcr0, rcr4, rcr0. wp_steps. done.
Qed.

(** ** Removing a table *)
Section remove.
Context (s : vm) (p d f : Z) (c : cont).
Hypothesis (Hinv : pt_inv s) (Hsl : user_slot (SPt p d)) (Ep : pde_of (phys s) p d = 4096 * f + 7).
Hypothesis Hc : cont_inv c.
Hypothesis HA : AT (mat c) = <[f := At (perm (AT (mat (cn s)) !!! f)) 0]> (AT (mat (cn s))).

Let s' := lset l_cn c (set_phys (store32 (phys s) (pde_at p d) 0) s).

Lemma remove_facts : 0 <= p < NUM_IDS /\ 0 <= d < 1024 /\ owned s f /\
  frame_of (phys s) (SPt p d) = Some f.
Proof.
  destruct (pde_cases s p d Hinv Hsl) as [(E & _)|(f' & E & Ho & Ef & _)].
  { rewrite Ep in E. exfalso. zdiv. }
  assert (f' = f) as -> by lia. destruct Hsl. auto using user_proc_range, user_pde_range.
Qed.

Lemma remove_pde p' d' : 0 <= p' < NUM_IDS -> 0 <= d' < 1024 ->
  pde_of (phys s') p' d' = if decide (p' = p /\ d' = d) then 0 else pde_of (phys s) p' d'.
Proof. destruct remove_facts as (? & ? & _). intros. by apply pde_store_pde. Qed.

Lemma remove_entry p' d' t : user_slot (SPg p' d' t) ->
  entry_of (phys s') p' d' t =
  if decide (p' = p /\ d' = d) then 0 else entry_of (phys s) p' d' t.
Proof.
  destruct remove_facts as (? & ? & _). intros (Hp' & Hd' & Ht). unfold entry_of.
  rewrite remove_pde by auto using user_proc_range, user_pde_range.
  case_decide; [done|].
  destruct (pde_cases s p' d' Hinv (conj Hp' Hd')) as [(-> & _)|(f' & E & [Hu _] & _)]; [done|].
  rewrite E, entry_div by lia. unfold s'. simpl phys. rewrite pte_store_pde by (done || lia). done.
Qed.

Lemma remove_frame sl x : user_slot sl -> frame_of (phys s') sl = Some x ->
  frame_of (phys s) sl = Some x /\ x <> f.
Proof.
  intros Hs Hx. destruct remove_facts as (Hp & Hd & Ho & Ef).
  assert (Hold : frame_of (phys s) sl = Some x /\ sl <> SPt p d).
  { destruct sl as [p' d'|p' d' t]; unfold frame_of in *.
    - destruct Hs as [Hp' Hd'].
      rewrite remove_pde in Hx by auto using user_proc_range, user_pde_range.
      case_decide as E; [done|]. split; [done|]. intros [= -> ->]. tauto.
    - rewrite remove_entry in Hx by done. by case_decide. }
  destruct Hold as [Hold Hne]. split; [done|]. intros ->.
  apply Hne. by apply (vi_inj s Hinv _ _ f).
Qed.

Lemma remove_owned x : owned s x -> x <> f -> owned s' x.
Proof.
  intros [Hu Ha] Hne. split; [done|]. unfold s'. simpl. by rewrite HA, lookup_total_insert_ne.
Qed.

Lemma remove_inv : pt_inv s'.
Proof.
  destruct remove_facts as (Hp & Hd & Ho & Ef). pose proof Hinv as [_ Hm Hk Hi Hpd Hpt Hj].
  split; simpl; [done|by apply mem_ok_store32| | | | |].
  - intros p' d' Hp' Hd' Hkd. change (pde_of (phys s') p' d' = idpte_at d' 0 + 7).
    rewrite remove_pde by done. case_decide as E; [|by apply Hk]. exfalso.
    destruct E as [-> ->]. destruct Hsl as [Hup Hud]. unfold kernel_pde in Hkd. vm_consts. lia.
  - intros d' t' ? ?. rewrite id_store_pde by done. by apply Hi.
  - intros p' d' Hs. change (pde_of (phys s') p' d' = 0 \/
      exists f0, pde_of (phys s') p' d' = 4096 * f0 + 7 /\ owned s' f0).
    pose proof Hs as [Hp' Hd'].
    destruct (pde_cases s p' d' Hinv Hs) as [(E & _)|(f' & E & Ho' & Ef' & _)];
      rewrite remove_pde by auto using user_proc_range, user_pde_range;
      case_decide as Eq; try (by left).
    right. exists f'. split; [done|]. apply remove_owned; [done|]. intros ->.
    assert (Heq : SPt p' d' = SPt p d) by by apply (vi_inj s Hinv _ _ f).
    injection Heq. tauto.
  - intros p' d' t' f' Hs Ep'. change (pde_of (phys s') p' d' = 4096 * f' + 7) in Ep'.
    pose proof Hs as (Hp' & Hd' & Ht').
    rewrite remove_pde in Ep' by auto using user_proc_range, user_pde_range.
    case_decide as Eq; [exfalso; zdiv|].
    destruct (pde_cases s p' d' Hinv (conj Hp' Hd')) as [(E & _)|(f1 & E & [Hu _] & _ & En)].
    { exfalso. rewrite E in Ep'. zdiv. }
    assert (f1 = f') as -> by lia. rewrite pte_store_pde by (done || lia).
    destruct (Hpt p' d' t' f' Hs Ep') as [?|(g & q & Eg & Hq & Hg)]; [by left|right].
    exists g, q. split; [done|]. split; [done|]. apply remove_owned; [done|]. intros ->.
    assert (Hfr : frame_of (phys s) (SPg p' d' t') = Some f).
    { simpl. rewrite En, Eg, entry_div by lia. by rewrite (proj2 (Z.eqb_neq _ 0)) by (destruct Hg as [Hgu _]; vm_consts; lia). }
    by pose proof (vi_inj s Hinv (SPg p' d' t') (SPt p d) f Hs Hsl Hfr Ef).
  - intros sl sl' x Hs Hs' E E'. apply remove_frame in E as [E _]; [|done].
    apply remove_frame in E' as [E' _]; [|done]. by apply (Hj sl sl' x).
Qed.
End remove.

(** Clearing a directory entry that is clear. *)
Section clear.
Context (s : vm) (p d : Z) (c : cont).
Hypothesis (Hinv : pt_inv s) (Hsl : user_slot (SPt p d)) (Ep : pde_of (phys s) p d = 0).
Hypothesis (Hc : cont_inv c) (HA : AT (mat c) = AT (mat (cn s))).

Let m' := store32 (phys s) (pde_at p d) 0.

Lemma clear_pde p' d' : 0 <= p' < NUM_IDS -> 0 <= d' < 1024 -> pde_of m' p' d' = pde_of (phys s) p' d'.
Proof.
  destruct Hsl as [Hp Hd]. intros. unfold m'.
  rewrite pde_store_pde by auto using user_proc_range, user_pde_range || (vm_consts; lia).
  case_decide as Eq; [|done]. by destruct Eq as [-> ->].
Qed.

Lemma clear_pte f t : user_page f -> 0 <= t -> pte_of m' f t = pte_of (phys s) f t.
Proof. destruct Hsl. intros. apply pte_store_pde; auto using user_proc_range, user_pde_range. Qed.

Lemma clear_entry p' d' t : user_slot (SPg p' d' t) -> entry_of m' p' d' t = entry_of (phys s) p' d' t.
Proof.
  intros (Hp1 & Hd1 & Ht1). unfold entry_of.
  rewrite clear_pde by auto using user_proc_range, user_pde_range.
  destruct (pde_cases s p' d' Hinv (conj Hp1 Hd1)) as [(-> & _)|(f & E1 & [Hf _] & _)]; [done|].
  rewrite E1, entry_div, clear_pte by (done || lia). done.
Qed.

Lemma clear_frame sl : user_slot sl -> frame_of m' sl = frame_of (phys s) sl.
Proof.
  destruct sl as [p' d'|p' d' t]; intros Hs; unfold frame_of.
  - destruct Hs. by rewrite clear_pde by auto using user_proc_range, user_pde_range.
  - by rewrite clear_entry.
Qed.

Lemma clear_inv : pt_inv (lset l_cn c (set_phys m' s)).
Proof.
  assert (Ho : forall f, owned s f -> owned (lset l_cn c (set_phys m' s)) f)
    by (unfold owned; simpl; by rewrite HA).
  pose proof Hsl as [Hp Hd]. pose proof Hinv as [_ Hm Hk Hi Hpd Hpte Hj]. split; simpl.
  - done.
  - by apply mem_ok_store32.
  - intros. rewrite clear_pde by done. by apply Hk.
  - intros. unfold m'. rewrite id_store_pde by auto using user_proc_range, user_pde_range. by apply Hi.
  - intros p' d' Hs. rewrite clear_pde by (destruct Hs; auto using user_proc_range, user_pde_range).
    destruct (Hpd p' d' Hs) as [?|(f & ? & ?)]; eauto.
  - intros p' d' t f Hs.
    rewrite clear_pde by (destruct Hs as (? & ? & _); auto using user_proc_range, user_pde_range).
    intros E1. assert (Hf : user_page f).
    { destruct (Hpd p' d') as [?|(f1 & ? & [? _])]; [by destruct Hs as (? & ? & _)|exfalso; zdiv|].
      by assert (f = f1) as -> by lia. }
    rewrite clear_pte by (done || destruct Hs; lia).
    destruct (Hpte p' d' t f Hs E1) as [?|(g & q & ? & ? & ?)]; [by left|right].
    exists g, q. auto.
  - intros sl sl' f Hs Hs'. rewrite !clear_frame by done. by apply Hj.
Qed.
End clear.

Lemma page0_not_allocated s : pt_inv s -> ~ 0 < allocated (AT (mat (cn s)) !!! 0).
Proof.
  intros Hinv Ha. pose proof (proj2 (ci_pmm _ (vi_cont s Hinv))) as Hat.
  apply (pi_taken _ Hat), (pi_norm _ Hat) in Ha. vm_consts. lia.
Qed.

Lemma free_ptbl_wp ks s p va :
  kstack_ok ks -> pt_inv s -> user_proc p -> user_va va ->
  wp (free_ptbl ks p va)
     (fun _ s' => pt_inv s' /\ frame_of (phys s') (SPt p (pdx va)) = None /\
        (forall p' d t, user_slot (SPg p' d t) ->
          entry_of (phys s') p' d t =
          if decide (p' = p /\ d = pdx va) then 0 else entry_of (phys s) p' d t) /\
        forall f, frame_of (phys s) (SPt p (pdx va)) = Some f -> avail (mat (cn s')) f) s.
Proof.
  intros Hks Hinv Hp Hva. pose proof (va_user_pde va Hva) as Hd.
  pose proof (user_proc_range p Hp) as Hp'. pose proof (user_pde_range _ Hd) as Hd'.
  unfold free_ptbl, get_pdir_entry_by_va. rewrite PDE_ADDR_eq. wp_steps.
  eapply wp_of_eq; [by apply get_pdir_entry_eq|]. wp_steps.
  eapply wp_of_eq; [by apply rmv_pdir_entry_eq|]. wp_steps. cbn [cn phys set_phys].
  destruct (pde_cases s p (pdx va) Hinv (conj Hp Hd)) as [(E & En & Ez)|(f & E & [Hf Ha] & Ef & En)];
    rewrite E.
  - wp_call container_free_wp; [done|apply Hinv|done|done|].
    intros [] c (Hc & _ & Hr). change (Z.shiftr 0 12) with 0 in Hr.
    rewrite decide_False in Hr by by apply page0_not_allocated. destruct Hr as [HA HC].
    split; [by apply (clear_inv s p (pdx va) c)|].
    split; [by rewrite (clear_frame s p (pdx va))|]. split; [|by rewrite En].
    intros p' d t Hs. simpl. rewrite (clear_entry s p (pdx va)) by done.
    case_decide as Eq; [|done]. by destruct Eq as [-> ->].
  - replace (Z.shiftr (4096 * f + 7) 12) with f
      by (rewrite Z.shiftr_div_pow2 by done; change (2 ^ 12) with 4096; zdiv).
    wp_call container_free_wp; [done|apply Hinv|done|vm_consts; lia|].
    intros [] c (Hc & _ & Hr). rewrite decide_True in Hr by done. destruct Hr as [HA HC].
    split; [by apply (remove_inv s p (pdx va) f c)|]. split; [|split].
    + simpl. rewrite pde_store_pde, decide_True by done. done.
    + intros p' d t Hs. by apply (remove_entry s p (pdx va) f c).
    + rewrite Ef. intros x [= <-]. unfold avail, norm. simpl. rewrite HA, lookup_total_insert_eq.
      simpl. split; [|lia]. apply (pi_taken _ (proj2 (ci_pmm _ (vi_cont s Hinv))) f Ha).
Qed.

Lemma alloc_mem_quota_wp ks s id q :
  kstack_ok ks -> pt_inv s -> split_ok (CONTAINER (cn s)) id q ->
  wp (alloc_mem_quota ks id q)
     (fun r s' => pt_inv s' /\ (phys s' = phys s /\ s' = lset l_cn (cn s') s) /\ owned_mono s s' /\
                  split_post id q (cn s) r (cn s')) s.
Proof.
  intros Hks Hinv Hok. unfold alloc_mem_quota. wp_steps.
  wp_call container_split_wp; [done|apply Hinv|done|].
  intros r c Hpost. wp_steps. pose proof Hpost as (Hc & _ & Hmat & _).
  assert (Hmono : forall f, owned s f -> owned (lset l_cn c s) f).
  { unfold owned. simpl. by rewrite Hmat. }
  split; [by apply inv_cont|]. done.
Qed.

(** ** Any sequence of operations on behalf of processes *)
Inductive vstep (ks : kstack) : vm -> vm -> Prop :=
| vs_alloc p va perm r s s' : user_proc p -> user_va va -> 0 < perm < 4096 ->
    alloc_page ks p va perm s = Ok r s' -> vstep ks s s'
| vs_unmap p va r s s' : user_proc p -> user_va va ->
    unmap_page p va s = Ok r s' -> vstep ks s s'
| vs_free p va s s' : user_proc p -> user_va va ->
    free_ptbl ks p va s = Ok tt s' -> vstep ks s s'
| vs_quota id q r s s' : split_ok (CONTAINER (cn s)) id q ->
    alloc_mem_quota ks id q s = Ok r s' -> vstep ks s s'.

Lemma vstep_inv ks s s' : kstack_ok ks -> pt_inv s -> vstep ks s s' -> pt_inv s'.
Proof.
  intros Hks Hinv Hst.
  destruct Hst as [p va q r s s' ? ? ? E|p va r s s' ? ? E|p va s s' ? ? E|id q r s s' Hok E].
  - by apply (wp_result _ _ _ _ _ (alloc_page_wp ks s p va q ltac:(done) Hinv ltac:(done)
      ltac:(done) ltac:(done)) E).
  - by apply (wp_result _ _ _ _ _ (unmap_page_wp s p va Hinv ltac:(done) ltac:(done)) E).
  - by apply (wp_result _ _ _ _ _ (free_ptbl_wp ks s p va ltac:(done) Hinv ltac:(done)
      ltac:(done)) E).
  - by apply (wp_result _ _ _ _ _ (alloc_mem_quota_wp ks s id q ltac:(done) Hinv Hok) E).
Qed.

Lemma vsteps_inv ks s s' : kstack_ok ks -> pt_inv s -> rtc (vstep ks) s s' -> pt_inv s'.
Proof. intros Hks Hinv Hst. induction Hst; eauto using vstep_inv. Qed.

(** A user page that process [p] can reach. *)
Lemma walk_frame s p va pa fl : pt_inv s -> user_proc p -> user_va va ->
  mmu_walk (phys s) (pde_at p 0) va = Some (pa, fl) ->
  frame_of (phys s) (va_slot p va) = Some (pa / 4096).
Proof.
  intros Hinv Hp Hva. rewrite walk_user by done. unfold va_slot, frame_of.
  set (e := entry_of _ _ _ _). destruct (e mod 2 =? 0) eqn:E; [done|]. intros [= <- _].
  assert (He : e <> 0) by (intros He; by rewrite He in E).
  rewrite (proj2 (Z.eqb_neq e 0) He). f_equal. zdiv.
Qed.

(** Starting from any memory contents, paging_init establishes the
    invariant of the page tables and turns paging and write protection on
    with the kernel's directory: every address translates to itself and
    only for the supervisor, and no other process has a user page mapped. *)
Theorem paging_init_correct mmap n m c0 c3 c4 :
  0 <= n <= 128 -> (forall i, 0 <= i < n -> mmap_wf (mmap (SIZEOF_MMAP * i))) -> mem_ok m ->
  wp (paging_init (SIZEOF_MMAP * n) mmap)
     (fun _ s => pt_inv s /\ paging_on s /\
        (forall va, is_u32 va -> mmu_walk (phys s) (cr3 s) va = Some (va, Z.lor PTE_P PTE_W)) /\
        (forall p va, user_proc p -> user_va va -> mmu_walk (phys s) (pde_at p 0) va = None))
     (Vm cont0 m c0 c3 c4).
Proof.
  intros Hn Hmm Hok. wp_call (paging_init_wp mmap n m c0 c3 c4 Hn Hmm Hok).
  intros [] s (Hinv & Hcr & Hpg & Hz & _). split; [done|]. split; [done|]. split.
  - intros va Hva. rewrite Hcr. by apply walk_identity; [| | |right].
  - intros p va Hp Hva. rewrite walk_user by done. unfold entry_of.
    by rewrite Hz by by (split; [|apply va_user_pde]).
Qed.

(** C24: a page fault served by alloc_page.  On success the process's page
    translates to a page that was free, with the requested permissions, and
    every other page of every process translates as before; on failure
    (MagicNumber) no translation changes.  A process with two pages of
    quota left does not fail.  The invariant is kept, and no byte
    outside the directories and the table that was returned is written. *)
Theorem alloc_page_correct ks s p va perm :
  kstack_ok ks -> pt_inv s -> user_proc p -> user_va va -> 0 < perm < 4096 -> perm mod 2 = 1 ->
  wp (alloc_page ks p va perm)
     (fun r s' => pt_inv s' /\
        (forall p' va', 0 <= p' < NUM_IDS -> is_u32 va' ->
           r = MagicNumber \/ ~ (p' = p /\ va' / 4096 = va / 4096) ->
           mmu_walk (phys s') (pde_at p' 0) va' = mmu_walk (phys s) (pde_at p' 0) va') /\
        (2 <= room_of s p -> r <> MagicNumber) /\
        (r <> MagicNumber -> bytes_kept (phys s) (phys s') r /\
           exists g, avail (mat (cn s)) g /\ forall va', user_va va' -> va' / 4096 = va / 4096 ->
             mmu_walk (phys s') (pde_at p 0) va' = Some (4096 * g + va' mod 4096, perm mod 8))) s.
Proof.
  intros Hks Hinv Hp Hva Hperm Hodd. wp_call alloc_page_wp; [done..|].
  intros r s' (Hi & Hmo & [(Hroom & -> & Hph)|(Hur & g & Hav & [_ He Ho Hb])]); (split; [done|]).
  - split; [|split; [lia|done]]. intros. by rewrite Hph.
  - assert (Hnm : r <> MagicNumber) by (unfold MagicNumber; vm_consts; lia). split; [|split; [done|]].
    + intros p' va' Hp' Hva' [-> |Hne]; [done|].
      apply walk_same; [done..|]. intros Hup Huv. apply Ho; [by apply va_user_slot|].
      intros Hsl. apply va_slot_inj in Hsl. tauto.
    + intros _. split; [done|]. exists g. split; [done|]. intros va' Huv Hpg.
      rewrite walk_user by done.
      replace (pdx va') with (pdx va) by (unfold pdx; zdiv).
      replace (ptx va') with (ptx va) by (unfold ptx; zdiv). rewrite He.
      replace ((4096 * g + perm) mod 2 =? 0) with false by zdiv.
      do 2 f_equal; zdiv.
Qed.

(** C4: isolation.  After paging_init and any sequence of page allocations,
    unmappings, table removals and quota splits, two translations of user
    processes lead to the same frame only if they are the same page of the
    same process; the frame is an allocated page of user memory and is not
    used as a page table; and kernel addresses stay identity-mapped without
    user access in every process. *)
Theorem process_isolation ks mmap n m c0 c3 c4 s0 s p p' va va' pa pa' fl fl' :
  kstack_ok ks -> 0 <= n <= 128 -> (forall i, 0 <= i < n -> mmap_wf (mmap (SIZEOF_MMAP * i))) ->
  mem_ok m -> paging_init (SIZEOF_MMAP * n) mmap (Vm cont0 m c0 c3 c4) = Ok tt s0 ->
  rtc (vstep ks) s0 s ->
  user_proc p -> user_va va -> mmu_walk (phys s) (pde_at p 0) va = Some (pa, fl) ->
  user_proc p' -> user_va va' -> mmu_walk (phys s) (pde_at p' 0) va' = Some (pa', fl') ->
  (pa / 4096 = pa' / 4096 -> p = p' /\ va / 4096 = va' / 4096) /\
  owned s (pa / 4096) /\
  (forall q d, user_slot (SPt q d) -> frame_of (phys s) (SPt q d) <> Some (pa / 4096)) /\
  (forall q a, 0 <= q < NUM_IDS -> is_u32 a -> kernel_pde (pdx a) = true ->
     mmu_walk (phys s) (pde_at q 0) a = Some (a, Z.lor PTE_P PTE_W)).
Proof.
  intros Hks Hn Hmm Hok E0 Hst Hp Hva Hw Hp' Hva' Hw'.
  destruct (wp_result _ _ _ _ _ (paging_init_wp mmap n m c0 c3 c4 Hn Hmm Hok) E0) as [Hinv0 _].
  pose proof (vsteps_inv ks s0 s Hks Hinv0 Hst) as Hinv.
  pose proof (walk_frame s p va pa fl Hinv Hp Hva Hw) as Hf.
  pose proof (walk_frame s p' va' pa' fl' Hinv Hp' Hva' Hw') as Hf'.
  pose proof (va_user_slot p va Hp Hva) as Hs. split_and!.
  - intros Heq. rewrite <- Heq in Hf'. apply va_slot_inj.
    apply (vi_inj s Hinv _ _ (pa / 4096)); [done|by apply va_user_slot|done..].
  - by apply (frame_owned s (va_slot p va)).
  - intros q d Hq E. by pose proof (vi_inj s Hinv _ _ _ Hq Hs E Hf).
  - intros q a Hq Ha Hk. apply walk_identity; [done..|by left].
Qed.

(** Unmap_page returns the entry of the page, after which the page does
    not translate, and leaves every other translation alone. *)
Theorem unmap_page_correct s p va :
  pt_inv s -> user_proc p -> user_va va ->
  wp (unmap_page p va)
     (fun r s' => pt_inv s' /\ r = entry_of (phys s) p (pdx va) (ptx va) /\
        mmu_walk (phys s') (pde_at p 0) va = None /\
        forall p' va', 0 <= p' < NUM_IDS -> is_u32 va' -> ~ (p' = p /\ va' / 4096 = va / 4096) ->
          mmu_walk (phys s') (pde_at p' 0) va' = mmu_walk (phys s) (pde_at p' 0) va') s.
Proof.
  intros Hinv Hp Hva. wp_call unmap_page_wp; [done..|].
  intros r s' (Hi & _ & _ & -> & Hz & Ho). split; [done|]. split; [done|]. split.
  - by rewrite walk_user, Hz by done.
  - intros p' va' Hp' Hva' Hne. apply walk_same; [done..|]. intros Hup Huv.
    apply Ho; [by apply va_user_slot|]. intros Hsl. apply va_slot_inj in Hsl. tauto.
Qed.

(** C38: when the last page of a quota is taken for a page whose table is
    missing, alloc_page fails with MagicNumber and the page it took stays
    allocated and counted although nothing maps it: the page is lost. *)
Theorem alloc_page_leaks ks s p va perm :
  kstack_ok ks -> pt_inv s -> user_proc p -> user_va va ->
  pde_of (phys s) p (pdx va) = 0 ->
  usage (CONTAINER (cn s) !!! p) + 1 = quota (CONTAINER (cn s) !!! p) ->
  wp (alloc_page ks p va perm)
     (fun r s' => r = MagicNumber /\ phys s' = phys s /\
        usage (CONTAINER (cn s') !!! p) = quota (CONTAINER (cn s') !!! p) /\
        exists g, avail (mat (cn s)) g /\ owned s' g /\ unused s' g) s.
Proof.
  intros Hks Hinv Hp Hva Ep Hroom. pose proof (va_user_pde va Hva) as Hd.
  pose proof (user_proc_range p Hp) as Hp'. pose proof (user_pde_range _ Hd) as Hd'.
  unfold alloc_page. wp_steps. wp_call container_alloc_wp; [done|apply Hinv|done|].
  intros g c (Hc & _ & Hr). rewrite decide_True in Hr by lia. destruct Hr as (Hu & Hav & HA & HC).
  assert (Hg0 : g <> 0) by (vm_consts; lia). rewrite (proj2 (Z.eqb_neq g 0) Hg0). simpl negb.
  cbv iota. unfold map_page, get_pdir_entry_by_va, alloc_ptbl. rewrite PDE_ADDR_eq. wp_steps.
  eapply wp_of_eq; [by apply get_pdir_entry_eq|]. simpl phys. rewrite Ep. simpl. wp_steps.
  wp_call container_alloc_wp; [done..|]. intros r c2 (Hc2 & _ & Hr2). simpl in Hr2.
  rewrite HC, lookup_total_insert_eq in Hr2. simpl in Hr2.
  rewrite decide_False in Hr2 by lia. destruct Hr2 as (-> & HA2 & HC2). simpl. wp_steps.
  split; [done|]. split; [done|]. split.
  - cbn [cn lset l_cn]. rewrite HC2, lookup_total_insert_eq. simpl. lia.
  - exists g. split; [done|]. split; [|by apply (avail_unused s g Hinv Hav)].
    split; [done|]. simpl. rewrite HA2, ?HA, lookup_total_insert_eq. simpl. lia.
Qed.
End spec.

(** ** Concrete instances *)
#[global, refine] Instance demo_layout : layout :=
  {| PDirPool := 16777216; IDPTbl := 33554432; proc_kstack := 67108864 |}.
Proof. all: try reflexivity; unfold NUM_IDS, VM_USERLO; lia. Defined.

Definition demo_vm : vm := Vm cont0 ∅ 0 0 0.

Lemma demo_mmap_all i : 0 <= i < 2 -> mmap_wf (demo_mmap (SIZEOF_MMAP * i)).
Proof. intros _. apply demo_mmap_wf. Qed.

Lemma demo_paging_init : exists s,
  paging_init (SIZEOF_MMAP * 2) demo_mmap demo_vm = Ok tt s /\ pt_inv s /\
  (forall p d, user_slot (SPt p d) -> pde_of (phys s) p d = 0) /\
  container_init (SIZEOF_MMAP * 2) demo_mmap cont0 = Ok tt (cn s).
Proof.
  destruct (proj1 (wp_elim _ _ _)
    (paging_init_wp demo_mmap 2 ∅ 0 0 0 ltac:(lia) demo_mmap_all mem_ok_empty))
    as ([] & s & E & Hinv & _ & _ & Hz & Ec).
  exists s. split; [exact E|]. split; [exact Hinv|]. split; [exact Hz|exact Ec].
Qed.

(** With no tables in place the containers can be any. *)
Lemma inv_no_tables s c : pt_inv s -> cont_inv c ->
  (forall p d, user_slot (SPt p d) -> pde_of (phys s) p d = 0) -> pt_inv (lset l_cn c s).
Proof.
  intros [? ? Hk Hi Hd Ht Hj] Hc Hz. split; simpl; [done|done|done|done| | |done].
  - intros p d Hsl. left. by apply Hz.
  - intros p d t f (Hp & Hd' & _) E. exfalso. rewrite Hz in E by done. zdiv.
Qed.

(** Child 1 has a quota of [q] pages and no table. *)
Lemma demo_process q : 0 <= q <= 2 -> exists s, pt_inv s /\ cn s = demo_child q /\
  forall p d, user_slot (SPt p d) -> pde_of (phys s) p d = 0.
Proof.
  intros Hq. destruct demo_paging_init as (s & _ & Hinv & Hz & _).
  exists (lset l_cn (demo_child q) s). split; [|done].
  apply inv_no_tables; [done|by apply demo_child_inv|done].
Qed.

Lemma user_proc_1 : user_proc 1.
Proof. unfold user_proc, NUM_IDS. lia. Qed.
Lemma user_va_lo : user_va VM_USERLO.
Proof. unfold user_va, VM_USERLO, VM_USERHI. lia. Qed.

Lemma paging_init_correct_witness :
  wp (paging_init (SIZEOF_MMAP * 2) demo_mmap) (fun _ s => pt_inv s /\ paging_on s) demo_vm.
Proof.
  eapply wp_mono; [apply (paging_init_correct demo_mmap 2 ∅ 0 0 0)|].
  - lia.
  - apply demo_mmap_all.
  - apply mem_ok_empty.
  - intros [] s (H1 & H2 & _). split; [exact H1|exact H2].
Defined.

Lemma alloc_page_correct_witness :
  exists s, cn s = demo_child 2 /\ wp (alloc_page demo_ks 1 VM_USERLO 7) (fun _ s' => pt_inv s') s.
Proof.
  destruct (demo_process 2) as (s & Hinv & Hc & Hz); [lia|]. exists s. split; [exact Hc|].
  eapply wp_mono; [apply (alloc_page_correct demo_ks s 1 VM_USERLO 7)|].
  - exact demo_ks_ok.
  - exact Hinv.
  - exact user_proc_1.
  - exact user_va_lo.
  - lia.
  - reflexivity.
  - intros r s' (H & _). exact H.
Defined.

Lemma unmap_page_correct_witness :
  exists s, wp (unmap_page 1 VM_USERLO)
    (fun _ s' => mmu_walk (phys s') (pde_at 1 0) VM_USERLO = None) s.
Proof.
  destruct (demo_process 2) as (s & Hinv & _); [lia|]. exists s.
  eapply wp_mono; [apply (unmap_page_correct s 1 VM_USERLO Hinv user_proc_1 user_va_lo)|].
  intros r s' (_ & _ & H & _). exact H.
Defined.

Lemma alloc_page_leaks_witness :
  exists s, wp (alloc_page demo_ks 1 VM_USERLO 7) (fun r _ => r = MagicNumber) s.
Proof.
  destruct (demo_process 1) as (s & Hinv & Hc & Hz); [lia|]. exists s.
  eapply wp_mono; [apply (alloc_page_leaks demo_ks s 1 VM_USERLO 7)|].
  - exact demo_ks_ok.
  - exact Hinv.
  - exact user_proc_1.
  - exact user_va_lo.
  - apply Hz. split; [exact user_proc_1|apply va_user_pde, user_va_lo].
  - rewrite Hc. vm_compute. reflexivity.
  - intros r s' (H & _). exact H.
Defined.

Lemma entry7 g : (4096 * g + 7) mod 2 = 1 /\
  4096 * g + 7 - (4096 * g + 7) mod 4096 + VM_USERLO mod 4096 = 4096 * g /\ (4096 * g + 7) mod 8 = 7.
Proof. unfold VM_USERLO. zdiv. Qed.

(** After paging_init, a split and a page fault process 1 has a page. *)
Lemma demo_mapped : exists s0 s g,
  paging_init (SIZEOF_MMAP * 2) demo_mmap demo_vm = Ok tt s0 /\ rtc (vstep demo_ks) s0 s /\
  mmu_walk (phys s) (pde_at 1 0) VM_USERLO = Some (4096 * g, 7).
Proof.
  destruct demo_paging_init as (s0 & E0 & Hinv & _ & Ec).
  destruct (demo_init_quota _ Ec) as [HC Hq].
  assert (Hso : split_ok (CONTAINER (cn s0)) 0 2).
  { rewrite HC. unfold root_con. split; rewrite ?lookup_total_insert_eq; simpl; done || lia. }
  destruct (proj1 (wp_elim _ _ _) (alloc_mem_quota_wp demo_ks s0 0 2 demo_ks_ok Hinv Hso))
    as (r1 & s1 & E1 & Hinv1 & _ & _ & _ & _ & _ & HC1).
  assert (Hroom : 2 <= room_of s1 1).
  { unfold room_of. rewrite HC1, HC. unfold split_con, root_con.
    rewrite lookup_total_insert_eq, lookup_total_insert_ne by done. simpl.
    rewrite lookup_total_insert_eq. done. }
  destruct (proj1 (wp_elim _ _ _) (alloc_page_wp demo_ks s1 1 VM_USERLO 7 demo_ks_ok Hinv1
    user_proc_1 user_va_lo ltac:(lia))) as (r2 & s2 & E2 & Hinv2 & _ & Hres).
  destruct Hres as [(? & _)|(_ & g & _ & [_ He _ _])]; [lia|].
  exists s0, s2, g. split; [exact E0|]. split.
  - eapply rtc_l; [eapply vs_quota; [exact Hso|exact E1]|].
    eapply rtc_l; [|apply rtc_refl]. eapply vs_alloc; [exact user_proc_1|exact user_va_lo| |exact E2].
    lia.
  - rewrite (walk_user _ _ _ Hinv2 user_proc_1 user_va_lo), He.
    destruct (entry7 g) as (-> & -> & ->). reflexivity.
Qed.

Lemma process_isolation_witness :
  exists s g, mmu_walk (phys s) (pde_at 1 0) VM_USERLO = Some (4096 * g, 7) /\
    owned s (4096 * g / 4096).
Proof.
  destruct demo_mapped as (s0 & s & g & E0 & Hst & Hw). exists s, g. split; [exact Hw|].
  apply (process_isolation demo_ks demo_mmap 2 ∅ 0 0 0 s0 s 1 1 VM_USERLO VM_USERLO
           (4096 * g) (4096 * g) 7 7).
  - exact demo_ks_ok.
  - lia.
  - apply demo_mmap_all.
  - apply mem_ok_empty.
  - exact E0.
  - exact Hst.
  - exact user_proc_1.
  - exact user_va_lo.
  - exact Hw.
  - exact user_proc_1.
  - exact user_va_lo.
  - exact Hw.
Defined.
