(* ===== verification/Str.v ===== *)
(** * Memory and string functions (kern/lib/string, user/lib/string)

    The kernel and the user library have the same memory functions; the
    functions only the user library has are at the end of the definitions. *)

From stdpp Require Import base gmap list numbers.
From S2P Require Import Prelude Mem.

(** ** The string instructions

    [step] is 1 with the direction flag clear and -1 with it set. *)
Fixpoint rep_movsb (k : nat) (step : Z) (m : mem) (d s : Z) : mem :=
  match k with
  | O => m
  | S k => rep_movsb k step (store8 m d (load8 m s)) (u32 (d + step)) (u32 (s + step))
  end.
Fixpoint rep_movsl (k : nat) (step : Z) (m : mem) (d s : Z) : mem :=
  match k with
  | O => m
  | S k => rep_movsl k step (store32 m d (load32 m s)) (u32 (d + 4 * step)) (u32 (s + 4 * step))
  end.
Fixpoint rep_stosb (k : nat) (m : mem) (d c : Z) : mem :=
  match k with O => m | S k => rep_stosb k (store8 m d c) (u32 (d + 1)) c end.
Fixpoint rep_stosl (k : nat) (m : mem) (d c : Z) : mem :=
  match k with O => m | S k => rep_stosl k (store32 m d c) (u32 (d + 4)) c end.

(** ** Memory *)
Definition memset (m : mem) (v c n : Z) : mem :=
  if n =? 0 then m
  else if (v mod 4 =? 0) && (n mod 4 =? 0) then
    let c := Z.land c 255 in
    let c := Z.lor (u32 (Z.shiftl c 24)) (Z.lor (Z.shiftl c 16) (Z.lor (Z.shiftl c 8) c)) in
    rep_stosl (Z.to_nat (n / 4)) m v c
  else rep_stosb (Z.to_nat n) m v c.

Definition memmove (m : mem) (dst src n : Z) : mem :=
  if (src <? dst) && (dst <? u32 (src + n)) then
    let s := u32 (src + n) in
    let d := u32 (dst + n) in
    if (s mod 4 =? 0) && (d mod 4 =? 0) && (n mod 4 =? 0)
    then rep_movsl (Z.to_nat (n / 4)) (-1) m (u32 (d - 4)) (u32 (s - 4))
    else rep_movsb (Z.to_nat n) (-1) m (u32 (d - 1)) (u32 (s - 1))
  else if (src mod 4 =? 0) && (dst mod 4 =? 0) && (n mod 4 =? 0)
    then rep_movsl (Z.to_nat (n / 4)) 1 m dst src
    else rep_movsb (Z.to_nat n) 1 m dst src.

Definition memcpy (m : mem) (dst src n : Z) : mem := memmove m dst src n.
Definition memzero (m : mem) (v n : Z) : mem := memset m v 0 n.

(** ** Strings: programs on the memory *)
Definition ld (p : Z) : K mem Z := gets (fun m => load8 m p).
Definition st8 (p v : Z) : K mem unit := modify (fun m => store8 m p v).

Definition strncmp (p q n : Z) : K mem Z :=
  '(p, q, n) ← while (fun '(p, q, n) =>
    if negb (0 <? n) then mret (inr (p, q, n))
    else
      a ← ld p; b ← ld q;
      if negb (a =? 0) && (a =? b) then mret (inl (u32 (p + 1), u32 (q + 1), n - 1))
      else mret (inr (p, q, n))) (p, q, n);
  if n =? 0 then mret 0 else a ← ld p; b ← ld q; mret (a - b).

Definition strnlen (s size : Z) : K mem Z :=
  while (fun '(s, size, n) =>
    if negb (0 <? size) then mret (inr n)
    else
      a ← ld s;
      if negb (a =? 0) then n ← int_add n 1; mret (inl (u32 (s + 1), size - 1, n))
      else mret (inr n)) (s, size, 0).

Definition strcmp (p q : Z) : K mem Z :=
  '(p, q) ← while (fun '(p, q) =>
    a ← ld p; b ← ld q;
    if negb (a =? 0) && (a =? b) then mret (inl (u32 (p + 1), u32 (q + 1)))
    else mret (inr (p, q))) (p, q);
  a ← ld p; b ← ld q; mret (a - b).

Definition strchr (s c : Z) : K mem Z :=
  while (fun s =>
    a ← ld s;
    if a =? 0 then mret (inr 0)
    else if a =? c then mret (inr s)
    else mret (inl (u32 (s + 1)))) s.

Definition memcmp (v1 v2 n : Z) : K mem Z :=
  while (fun '(s1, s2, n) =>
    if 0 <? n then
      a ← ld s1; b ← ld s2;
      if negb (a =? b) then mret (inr (a - b)) else mret (inl (u32 (s1 + 1), u32 (s2 + 1), n - 1))
    else mret (inr 0)) (v1, v2, n).

(** n is an int: it counts down past zero. *)
Definition strncpy (s t n : Z) : K mem Z :=
  '(s', n) ← while (fun '(s, t, n) =>
    if 0 <? n then
      a ← ld t;
      st8 s a ;;
      if negb (a =? 0) then mret (inl (u32 (s + 1), u32 (t + 1), n - 1)) else mret (inr (u32 (s + 1), n - 1))
    else mret (inr (s, n - 1))) (s, t, n);
  while (fun '(s, n) =>
    if 0 <? n then st8 s 0 ;; mret (inl (u32 (s + 1), n - 1)) else mret (inr tt)) (s', n) ;;
  mret s.

(** *** Of the user library only *)
Definition strlen (s : Z) : K mem Z :=
  while (fun '(s, n) =>
    a ← ld s;
    if negb (a =? 0) then n ← int_add n 1; mret (inl (u32 (s + 1), n)) else mret (inr n)) (s, 0).

Definition strcpy (dst src : Z) : K mem Z :=
  while (fun '(d, s) =>
    a ← ld s;
    st8 d a ;;
    if negb (a =? 0) then mret (inl (u32 (d + 1), u32 (s + 1))) else mret (inr tt)) (dst, src) ;;
  mret dst.

Definition user_strncpy (dst src size : Z) : K mem Z :=
  while (fun '(i, d, s) =>
    if i <? size then
      a ← ld s;
      st8 d a ;;
      b ← ld s;
      mret (inl (i + 1, u32 (d + 1), if negb (b =? 0) then u32 (s + 1) else s))
    else mret (inr tt)) (0, dst, src) ;;
  mret dst.

Definition strlcpy (dst src size : Z) : K mem Z :=
  if 0 <? size then
    d ← while (fun '(d, s, size) =>
      let size := size - 1 in
      if negb (0 <? size) then mret (inr d)
      else
        a ← ld s;
        if negb (a =? 0) then st8 d a ;; mret (inl (u32 (d + 1), u32 (s + 1), size))
        else mret (inr d)) (dst, src, size);
    st8 d 0 ;;
    mret (u32 (d - dst))
  else mret 0.

Definition strfind (s c : Z) : K mem Z :=
  while (fun s =>
    a ← ld s;
    if a =? 0 then mret (inr s)
    else if a =? c then mret (inr s)
    else mret (inl (u32 (s + 1)))) s.

Definition memchr (s c n : Z) : K mem Z :=
  let ends := u32 (s + n) in
  while (fun s =>
    if s <? ends then
      a ← ld s;
      if a =? c mod 256 then mret (inr s) else mret (inl (u32 (s + 1)))
    else mret (inr 0)) s.

(** The digit of a character in strtol; none for other characters. *)
Definition strtol_digit (a : Z) : option Z :=
  if (48 <=? a) && (a <=? 57) then Some (a - 48)
  else if (97 <=? a) && (a <=? 122) then Some (a - 97 + 10)
  else if (65 <=? a) && (a <=? 90) then Some (a - 65 + 10)
  else None.

(** The result and the value stored through endptr.  Overflow of the long
    val is undefined. *)
Definition strtol (s base : Z) : K mem (Z * Z) :=
  s ← while (fun s =>
    a ← ld s;
    if (a =? 32) || (a =? 9) then mret (inl (u32 (s + 1))) else mret (inr s)) s;
  a ← ld s;
  let '(s, neg) := if a =? 43 then (u32 (s + 1), false)
                   else if a =? 45 then (u32 (s + 1), true) else (s, false) in
  a0 ← ld s; a1 ← ld (u32 (s + 1));
  let '(s, base) :=
    if ((base =? 0) || (base =? 16)) && ((a0 =? 48) && (a1 =? 120)) then (u32 (s + 2), 16)
    else if (base =? 0) && (a0 =? 48) then (u32 (s + 1), 8)
    else if base =? 0 then (s, 10) else (s, base) in
  '(s, val) ← while (fun '(s, val) =>
    a ← ld s;
    match strtol_digit a with
    | None => mret (inr (s, val))
    | Some dig =>
        if base <=? dig then mret (inr (s, val))
        else
          check ((-2147483648 <=? val * base) && (val * base <? 2147483648)) ;;
          val ← int_add (val * base) dig;
          mret (inl (u32 (s + 1), val))
    end) (s, 0);
  mret (if neg : bool then - val else val, s).

(** ** Copying *)
(** The bytes a 32-bit store writes, and those a copy of a word writes. *)
Lemma load8_store32_in m a v b : a <= b < a + 4 -> load8 (store32 m a v) b = v / 256 ^ (b - a) mod 256.
Proof.
  intros Hb. unfold store32. assert (b = a \/ b = a + 1 \/ b = a + 2 \/ b = a + 3) as [->|[->|[->| ->]]] by lia.
  - rewrite 3 load8_store8_ne, load8_store8_same by lia. rewrite Z.sub_diag. by rewrite Z.pow_0_r, Z.div_1_r.
  - rewrite 2 load8_store8_ne, load8_store8_same by lia. by replace (a + 1 - a) with 1 by lia.
  - rewrite load8_store8_ne, load8_store8_same by lia. by replace (a + 2 - a) with 2 by lia.
  - rewrite load8_store8_same by lia. by replace (a + 3 - a) with 3 by lia.
Qed.

Lemma load32_byte m a i : mem_ok m -> 0 <= i < 4 -> load32 m a / 256 ^ i mod 256 = load8 m (a + i).
Proof.
  intros Hm Hi. unfold load32. pose proof (Hm a). pose proof (Hm (a + 1)). pose proof (Hm (a + 2)). pose proof (Hm (a + 3)).
  assert (i = 0 \/ i = 1 \/ i = 2 \/ i = 3) as [->|[->|[->| ->]]] by lia.
  - rewrite Z.pow_0_r, Z.div_1_r, Z.add_0_r. zdiv.
  - change (256 ^ 1) with 256. zdiv.
  - change (256 ^ 2) with 65536. zdiv.
  - change (256 ^ 3) with 16777216. zdiv.
Qed.

Definition copied (m m' : mem) (d s n : Z) : Prop :=
  forall a, load8 m' a = if decide (d <= a < d + n) then load8 m (s + (a - d)) else load8 m a.

(** Memory up to the top of the address space. *)
Definition range (p n : Z) : Prop := 0 <= p /\ 0 <= n /\ p + n <= W32.

Lemma copied_byte m d s : mem_ok m -> copied m (store8 m d (load8 m s)) d s 1.
Proof.
  intros Hm a. case_decide as Ha.
  - replace a with d by lia. rewrite load8_store8_same, Z.sub_diag, Z.add_0_r. apply Z.mod_small, Hm.
  - apply load8_store8_ne. lia.
Qed.

Lemma copied_word m d s : mem_ok m -> copied m (store32 m d (load32 m s)) d s 4.
Proof.
  intros Hm a. case_decide as Ha.
  - rewrite load8_store32_in, load32_byte by (done || lia). done.
  - apply load8_store32_out. lia.
Qed.

Lemma copied_ok m m' d s n : mem_ok m -> copied m m' d s n -> mem_ok m'.
Proof. intros Hm Hc a. rewrite Hc. case_decide; apply Hm. Qed.

(** Copying a first part, then the rest, in either direction. *)
Lemma copied_up m m1 m2 d s k n : 0 <= k -> 0 <= n -> d <= s \/ s + (k + n) <= d ->
  copied m m1 d s k -> copied m1 m2 (d + k) (s + k) n -> copied m m2 d s (k + n).
Proof.
  intros Hk Hn Ho H1 H2 a. rewrite H2. case_decide as Ha.
  - rewrite H1, decide_False, decide_True by lia. f_equal. lia.
  - rewrite H1. destruct (decide (d <= a < d + k)); [by rewrite decide_True by lia|by rewrite decide_False by lia].
Qed.

Lemma copied_down m m1 m2 d s k n : 0 <= k -> 0 <= n -> s <= d ->
  copied m m1 (d + n) (s + n) k -> copied m1 m2 d s n -> copied m m2 d s (k + n).
Proof.
  intros Hk Hn Ho H1 H2 a. rewrite H2. case_decide as Ha.
  - rewrite H1, decide_False, decide_True by lia. done.
  - rewrite H1. destruct (decide (d + n <= a < d + n + k)); [rewrite decide_True by lia; f_equal; lia|by rewrite decide_False by lia].
Qed.

Lemma u32_end x : 0 <= x <= W32 -> u32 x = x \/ x = W32 /\ u32 x = 0.
Proof. intros Hx. destruct (decide (x = W32)) as [->|]; [by right|left]. apply u32_small. lia. Qed.

Lemma movsb_up k : forall m d s, mem_ok m -> range d (Z.of_nat k) -> range s (Z.of_nat k) ->
  d <= s \/ s + Z.of_nat k <= d -> copied m (rep_movsb k 1 m d s) d s (Z.of_nat k).
Proof.
  induction k as [|k IH]; intros m d s Hm Hd Hs Ho; [intros a; rewrite decide_False by lia; done|].
  cbn [rep_movsb]. unfold range in *. replace (Z.of_nat (S k)) with (1 + Z.of_nat k) by lia.
  eapply copied_up; [lia|lia|lia|by apply copied_byte|].
  destruct k as [|k]; [intros a; rewrite decide_False by lia; done|].
  rewrite !u32_small by lia. apply IH; [by eapply copied_ok, copied_byte|lia..].
Qed.

Lemma movsl_up k : forall m d s, mem_ok m -> range d (4 * Z.of_nat k) -> range s (4 * Z.of_nat k) ->
  d <= s \/ s + 4 * Z.of_nat k <= d -> copied m (rep_movsl k 1 m d s) d s (4 * Z.of_nat k).
Proof.
  induction k as [|k IH]; intros m d s Hm Hd Hs Ho; [intros a; rewrite decide_False by lia; done|].
  cbn [rep_movsl]. unfold range in *. replace (4 * Z.of_nat (S k)) with (4 + 4 * Z.of_nat k) by lia.
  eapply copied_up; [lia|lia|lia|by apply copied_word|].
  destruct k as [|k]; [intros a; rewrite decide_False by lia; done|].
  rewrite !u32_small by lia. apply IH; [by eapply copied_ok, copied_word|lia..].
Qed.

Lemma movsb_down k : forall m d s, mem_ok m -> range d (Z.of_nat k) -> range s (Z.of_nat k) -> s <= d ->
  copied m (rep_movsb k (-1) m (u32 (d + Z.of_nat k - 1)) (u32 (s + Z.of_nat k - 1))) d s (Z.of_nat k).
Proof.
  induction k as [|k IH]; intros m d s Hm Hd Hs Ho; [intros a; rewrite decide_False by lia; done|].
  cbn [rep_movsb]. unfold range in *. rewrite !u32_small by lia.
  replace (d + Z.of_nat (S k) - 1) with (d + Z.of_nat k) by lia.
  replace (s + Z.of_nat (S k) - 1) with (s + Z.of_nat k) by lia.
  replace (Z.of_nat (S k)) with (1 + Z.of_nat k) by lia.
  eapply copied_down; [lia|lia|lia|by apply copied_byte|]. apply IH; [by eapply copied_ok, copied_byte|lia..].
Qed.

Lemma movsl_down k : forall m d s, mem_ok m -> range d (4 * Z.of_nat k) -> range s (4 * Z.of_nat k) -> s <= d ->
  copied m (rep_movsl k (-1) m (u32 (d + 4 * Z.of_nat k - 4)) (u32 (s + 4 * Z.of_nat k - 4))) d s (4 * Z.of_nat k).
Proof.
  induction k as [|k IH]; intros m d s Hm Hd Hs Ho; [intros a; rewrite decide_False by lia; done|].
  cbn [rep_movsl]. unfold range in *. rewrite !u32_small by lia.
  replace (d + 4 * Z.of_nat (S k) - 4) with (d + 4 * Z.of_nat k) by lia.
  replace (s + 4 * Z.of_nat (S k) - 4) with (s + 4 * Z.of_nat k) by lia.
  replace (4 * Z.of_nat (S k)) with (4 + 4 * Z.of_nat k) by lia.
  eapply copied_down; [lia|lia|lia|by apply copied_word|]. apply IH; [by eapply copied_ok, copied_word|lia..].
Qed.

Lemma memmove_copied m dst src n : mem_ok m -> range dst n -> range src n ->
  copied m (memmove m dst src n) dst src n.
Proof.
  intros Hm Hd Hs. unfold memmove, range in *.
  assert (Hl : n mod 4 = 0 -> 4 * Z.of_nat (Z.to_nat (n / 4)) = n) by (intros; zdiv).
  assert (Hb : Z.of_nat (Z.to_nat n) = n) by lia.
  destruct ((src <? dst) && (dst <? u32 (src + n))) eqn:E.
  - assert (Eu : forall p k, u32 (u32 (p + n) - k) = u32 (p + n - k)).
    { intros p k. unfold u32. by rewrite Zminus_mod_idemp_l. }
    rewrite !Eu. destruct ((u32 (src + n) mod 4 =? 0) && (u32 (dst + n) mod 4 =? 0) && (n mod 4 =? 0)) eqn:E4.
    + pose proof (movsl_down (Z.to_nat (n / 4)) m dst src Hm) as Hc. rewrite Hl in Hc by lia. apply Hc; unfold range; lia.
    + pose proof (movsb_down (Z.to_nat n) m dst src Hm) as Hc. rewrite Hb in Hc. apply Hc; unfold range; lia.
  - assert (Ho : dst <= src \/ src + n <= dst).
    { destruct (u32_end (src + n) ltac:(lia)) as [E1|[E1 E2]]; [rewrite E1 in E|]; lia. }
    destruct ((src mod 4 =? 0) && (dst mod 4 =? 0) && (n mod 4 =? 0)) eqn:E4.
    + pose proof (movsl_up (Z.to_nat (n / 4)) m dst src Hm) as Hc. rewrite Hl in Hc by lia. apply Hc; unfold range; lia.
    + pose proof (movsb_up (Z.to_nat n) m dst src Hm) as Hc. rewrite Hb in Hc. apply Hc; unfold range; lia.
Qed.

(** Copying through a temporary: all bytes are read before any is written. *)
Definition read_bytes (m : mem) (p n : Z) : list Z := (fun i => load8 m (p + i)) <$> seqZ 0 n.
Fixpoint write_bytes (m : mem) (p : Z) (l : list Z) : mem :=
  match l with [] => m | x :: l => write_bytes (store8 m p x) (p + 1) l end.

Lemma mem_ok_write_bytes l : forall m p, mem_ok m -> mem_ok (write_bytes m p l).
Proof. induction l as [|x l IH]; intros m p Hm; [done|]. apply IH. by apply mem_ok_store8. Qed.
Lemma load8_write_bytes l : forall m p a, Forall (fun x => 0 <= x < 256) l ->
  load8 (write_bytes m p l) a = if decide (p <= a < p + Z.of_nat (length l)) then l !!! Z.to_nat (a - p) else load8 m a.
Proof.
  induction l as [|x l IH]; intros m p a Hl; [by rewrite decide_False by (simpl; lia)|].
  apply Forall_cons in Hl as [Hx Hl]. cbn [write_bytes length]. rewrite IH by done.
  destruct (decide (p + 1 <= a < p + 1 + Z.of_nat (length l))).
  - rewrite decide_True by lia. replace (Z.to_nat (a - p)) with (S (Z.to_nat (a - (p + 1)))) by lia. done.
  - destruct (decide (a = p)) as [->|].
    + rewrite load8_store8_same, decide_True, Z.sub_diag by lia. apply Z.mod_small, Hx.
    + rewrite load8_store8_ne, decide_False by lia. done.
Qed.

Lemma read_bytes_ok m p n : mem_ok m -> Forall (fun x => 0 <= x < 256) (read_bytes m p n).
Proof. intros Hm. apply Forall_fmap, Forall_true. intros i. apply Hm. Qed.
Lemma read_bytes_length m p n : length (read_bytes m p n) = Z.to_nat n.
Proof. unfold read_bytes. by rewrite length_fmap, length_seqZ. Qed.
Lemma read_bytes_lookup m p n i : 0 <= i < n -> read_bytes m p n !!! Z.to_nat i = load8 m (p + i).
Proof.
  intros Hi. apply list_lookup_total_correct. unfold read_bytes. apply list_lookup_fmap_Some. exists i.
  split; [done|]. apply lookup_seqZ. lia.
Qed.

Lemma copied_bytes m d s n : mem_ok m -> 0 <= n -> copied m (write_bytes m d (read_bytes m s n)) d s n.
Proof.
  intros Hm Hn a. rewrite load8_write_bytes by (by apply read_bytes_ok). rewrite read_bytes_length, Z2Nat.id by done.
  case_decide; [|done]. apply read_bytes_lookup. lia.
Qed.

(** C40: memmove copies correctly however the two areas overlap: whichever
    of its four loops runs (forwards or backwards, by bytes or by words),
    the memory is afterwards what copying through a temporary buffer gives. *)
Theorem memmove_equiv m dst src n : mem_ok m -> range dst n -> range src n ->
  forall a, load8 (memmove m dst src n) a = load8 (write_bytes m dst (read_bytes m src n)) a.
Proof.
  intros Hm Hd Hs a. rewrite (memmove_copied m dst src n Hm Hd Hs a), (copied_bytes m dst src n Hm); [done|].
  by destruct Hd as (_ & ? & _).
Qed.

Definition demo_mem : mem := write_bytes ∅ 100 [1; 2; 3; 4; 5; 6; 7; 8; 9].
Lemma memmove_equiv_witness :
  read_bytes (memmove demo_mem 104 100 8) 100 12 = [1; 2; 3; 4; 1; 2; 3; 4; 5; 6; 7; 8] /\
  forall a, load8 (memmove demo_mem 104 100 8) a = load8 (write_bytes demo_mem 104 (read_bytes demo_mem 100 8)) a.
Proof.
  split; [vm_compute; reflexivity|]. apply memmove_equiv; [|unfold range, W32; lia..].
  unfold demo_mem. simpl. auto 10 with mem.
Defined.

(** ** Filling *)
Definition filled (m m' : mem) (d n c : Z) : Prop :=
  forall a, load8 m' a = if decide (d <= a < d + n) then c mod 256 else load8 m a.

Lemma filled_ok m m' d n c : mem_ok m -> filled m m' d n c -> mem_ok m'.
Proof. intros Hm Hf a. rewrite Hf. case_decide; [zdiv|apply Hm]. Qed.
Lemma filled_app m m1 m2 d k n c : 0 <= k -> 0 <= n -> filled m m1 d k c -> filled m1 m2 (d + k) n c ->
  filled m m2 d (k + n) c.
Proof.
  intros Hk Hn H1 H2 a. rewrite H2. case_decide; [by rewrite decide_True by lia|]. rewrite H1.
  destruct (decide (d <= a < d + k)); [by rewrite decide_True by lia|by rewrite decide_False by lia].
Qed.

Lemma stosb_filled k : forall m d c, range d (Z.of_nat k) -> filled m (rep_stosb k m d c) d (Z.of_nat k) c.
Proof.
  induction k as [|k IH]; intros m d c Hd; [intros a; rewrite decide_False by lia; done|].
  cbn [rep_stosb]. unfold range in *. replace (Z.of_nat (S k)) with (1 + Z.of_nat k) by lia.
  eapply filled_app; [lia|lia| |].
  - intros a. case_decide; [replace a with d by lia; apply load8_store8_same|apply load8_store8_ne; lia].
  - destruct k as [|k]; [intros a; rewrite decide_False by lia; done|]. rewrite u32_small by lia. apply IH. lia.
Qed.

(** The four bytes of the word that memset stores. *)
Lemma splat_byte c i : 0 <= i < 4 ->
  let b := Z.land c 255 in
  Z.lor (u32 (Z.shiftl b 24)) (Z.lor (Z.shiftl b 16) (Z.lor (Z.shiftl b 8) b)) / 256 ^ i mod 256 = c mod 256.
Proof.
  intros Hi b. assert (Hb : b = c mod 256) by (apply (land_low c 8); done). assert (0 <= b < 256) by zdiv.
  rewrite u32_small by (rewrite Z.shiftl_mul_pow2 by done; unfold W32; lia).
  rewrite (lor_shiftl b 8 b) by (change (2 ^ 8) with 256; lia). change (2 ^ 8) with 256.
  rewrite (lor_shiftl b 16) by (change (2 ^ 16) with 65536; lia). change (2 ^ 16) with 65536.
  rewrite (lor_shiftl b 24) by (change (2 ^ 24) with 16777216; lia). change (2 ^ 24) with 16777216. rewrite <- Hb.
  assert (i = 0 \/ i = 1 \/ i = 2 \/ i = 3) as [->|[->|[->| ->]]] by lia.
  - rewrite Z.pow_0_r, Z.div_1_r. zdiv.
  - change (256 ^ 1) with 256. zdiv.
  - change (256 ^ 2) with 65536. zdiv.
  - change (256 ^ 3) with 16777216. zdiv.
Qed.

Lemma stosl_filled k : forall m d c w, range d (4 * Z.of_nat k) ->
  (forall i, 0 <= i < 4 -> w / 256 ^ i mod 256 = c mod 256) -> filled m (rep_stosl k m d w) d (4 * Z.of_nat k) c.
Proof.
  induction k as [|k IH]; intros m d c w Hd Hw; [intros a; rewrite decide_False by lia; done|].
  cbn [rep_stosl]. unfold range in *. replace (4 * Z.of_nat (S k)) with (4 + 4 * Z.of_nat k) by lia.
  apply (filled_app _ (store32 m d w)); [lia|lia| |].
  - intros a. case_decide; [rewrite load8_store32_in by lia; apply Hw; lia|apply load8_store32_out; lia].
  - destruct k as [|k]; [intros a; rewrite decide_False by lia; done|]. rewrite u32_small by lia. apply IH; [lia|done].
Qed.

Lemma memset_filled m v c n : range v n -> filled m (memset m v c n) v n c.
Proof.
  intros Hr. unfold memset, range in *. destruct (n =? 0) eqn:E0; [intros a; rewrite decide_False by lia; done|].
  destruct ((v mod 4 =? 0) && (n mod 4 =? 0)) eqn:E4.
  - replace n with (4 * Z.of_nat (Z.to_nat (n / 4))) at 2 by zdiv. apply stosl_filled; [unfold range; zdiv|].
    intros i Hi. by apply splat_byte.
  - replace n with (Z.of_nat (Z.to_nat n)) at 2 by lia. apply stosb_filled. unfold range. lia.
Qed.

(** ** Strings

    [cstr m p l]: at [p] lies the string with the characters [l]. *)
Record cstr (m : mem) (p : Z) (l : list Z) : Prop := {
  cs_range : 0 <= p /\ p + Z.of_nat (length l) + 1 < W32;
  cs_chars : forall i x, l !! i = Some x -> load8 m (p + Z.of_nat i) = x;
  cs_nonzero : forall x, x ∈ l -> x <> 0;
  cs_end : load8 m (p + Z.of_nat (length l)) = 0
}.

Lemma cstr_cons m p x l : cstr m p (x :: l) -> load8 m p = x /\ x <> 0 /\ cstr m (u32 (p + 1)) l.
Proof.
  intros [H1 H2 H3 H4]. simpl in *. rewrite u32_small by (unfold W32 in *; lia). split; [|split].
  - rewrite <- (H2 0%nat x) by done. f_equal. lia.
  - apply H3. set_solver.
  - split; [lia| | |].
    + intros i y Hi. rewrite <- (H2 (S i) y) by done. f_equal. lia.
    + intros y Hy. apply H3. by right.
    + rewrite <- H4. f_equal. lia.
Qed.
Lemma cstr_nil m p : cstr m p [] -> load8 m p = 0.
Proof. intros [_ _ _ H4]. rewrite Z.add_0_r in H4. done. Qed.

(** The difference at the first place where two strings differ. *)
Fixpoint compare_str (l l' : list Z) : Z :=
  match l, l' with
  | [], [] => 0
  | [], b :: _ => - b
  | a :: _, [] => a
  | a :: l, b :: l' => if a =? b then compare_str l l' else a - b
  end.

Lemma compare_str_eq l : forall l', (forall x, x ∈ l -> x <> 0) -> (forall x, x ∈ l' -> x <> 0) ->
  compare_str l l' = 0 <-> l = l'.
Proof.
  induction l as [|a l IH]; intros [|b l'] Hl Hl'; simpl.
  - done.
  - pose proof (Hl' b ltac:(set_solver)). split; [lia|done].
  - pose proof (Hl a ltac:(set_solver)). split; [lia|done].
  - destruct (a =? b) eqn:E.
    + apply Z.eqb_eq in E as ->. rewrite IH by set_solver. naive_solver.
    + split; [lia|]. intros [= -> _]. lia.
Qed.

Lemma strncmp_wp m n p q l l' : cstr m p l -> cstr m q l' -> 0 <= n < W32 ->
  wp (strncmp p q n) (fun r m' => m' = m /\ r = compare_str (take (Z.to_nat n) l) (take (Z.to_nat n) l')) m.
Proof.
  intros Hl Hl' Hn. unfold strncmp, ld. apply wp_bind. set (C := compare_str (take (Z.to_nat n) l) (take (Z.to_nat n) l')).
  apply (wp_mono _ (fun '(p', q', n') m' => m' = m /\ C = if n' =? 0 then 0 else load8 m p' - load8 m q')).
  - apply (wp_while _ (fun '(p', q', n') m' => m' = m /\ 0 <= n' <= n /\ exists k k', cstr m p' k /\ cstr m q' k' /\
        C = compare_str (take (Z.to_nat n') k) (take (Z.to_nat n') k')) (fun '(_, _, n') _ => n'));
      [| |unfold W32 in *; lia].
    + intros [[p' q'] n'] m' (-> & Hn' & k & k' & Hk & Hk' & EC) _.
      destruct (decide (n' = 0)) as [->|Hnz]; [simpl; wp_steps; done|].
      rewrite (proj2 (Z.ltb_lt 0 n')) by lia. simpl negb. cbv iota. wp_steps.
      replace (Z.to_nat n') with (S (Z.to_nat (n' - 1))) in EC by lia.
      destruct k as [|x k]; [apply cstr_nil in Hk; rewrite Hk|apply cstr_cons in Hk as (Hx & Hx0 & Hk); rewrite Hx];
        (destruct k' as [|y k']; [apply cstr_nil in Hk'; rewrite Hk'|apply cstr_cons in Hk' as (Hy & Hy0 & Hk'); rewrite Hy]);
        simpl in EC.
      * simpl. wp_steps. rewrite Hk, Hk'. split; [done|]. by zcases.
      * simpl. wp_steps. rewrite Hk, Hy. split; [done|]. zcases; lia.
      * rewrite (proj2 (Z.eqb_neq x 0)) by done. simpl. wp_steps. rewrite Hx, Hk'. split; [done|]. zcases; lia.
      * rewrite (proj2 (Z.eqb_neq x 0)) by done. simpl. destruct (x =? y) eqn:E; wp_steps.
        -- split; [|lia]. split; [done|]. split; [lia|]. eauto.
        -- rewrite Hx, Hy. split; [done|]. zcases; lia.
    + split; [done|]. split; [lia|]. eauto.
  - intros [[p' q'] n'] m' (-> & ->). destruct (n' =? 0); wp_steps; done.
Qed.

Lemma strcmp_wp m p q l l' : cstr m p l -> cstr m q l' ->
  wp (strcmp p q) (fun r m' => m' = m /\ r = compare_str l l') m.
Proof.
  intros Hl Hl'. unfold strcmp, ld. apply wp_bind.
  apply (wp_mono _ (fun '(p', q') m' => m' = m /\ compare_str l l' = load8 m p' - load8 m q')).
  - pose proof (cs_range _ _ _ Hl) as Hr.
    apply (wp_while_bound _ (fun n '(p', q') m' => m' = m /\ exists k k', cstr m p' k /\ cstr m q' k' /\
        n = Z.of_nat (length k) /\ compare_str l l' = compare_str k k') _ (Z.of_nat (length l)));
      [| |unfold W32 in *; lia].
    + intros n [p' q'] m' (-> & k & k' & Hk & Hk' & -> & EC) _. wp_steps.
      destruct k as [|x k]; [apply cstr_nil in Hk; rewrite Hk|apply cstr_cons in Hk as (Hx & Hx0 & Hk); rewrite Hx];
        (destruct k' as [|y k']; [apply cstr_nil in Hk'; rewrite Hk'|apply cstr_cons in Hk' as (Hy & Hy0 & Hk'); rewrite Hy]);
        simpl in EC.
      * simpl. wp_steps. rewrite Hk, Hk'. done.
      * simpl. wp_steps. rewrite Hk, Hy. done.
      * rewrite (proj2 (Z.eqb_neq x 0)) by done. simpl. wp_steps. rewrite Hx, Hk'. split; [done|lia].
      * rewrite (proj2 (Z.eqb_neq x 0)) by done. simpl. destruct (x =? y) eqn:E; wp_steps.
        -- exists (Z.of_nat (length k)). split; [|simpl; lia]. split; [done|]. eauto 6.
        -- rewrite Hx, Hy. done.
    + split; [done|]. eauto 6.
  - intros [p' q'] m' (-> & ->). wp_steps. done.
Qed.

(** Strcmp and strncmp return, change nothing, and compare strings:
    the result is zero exactly when the strings (for strncmp, their first
    [n] characters) are equal, and otherwise it is the difference at the
    first character where they differ. *)
Theorem string_comparison m p q n l l' : cstr m p l -> cstr m q l' -> 0 <= n < W32 ->
  wp (strcmp p q) (fun r m' => m' = m /\ r = compare_str l l' /\ (r = 0 <-> l = l')) m /\
  wp (strncmp p q n) (fun r m' => m' = m /\ r = compare_str (take (Z.to_nat n) l) (take (Z.to_nat n) l') /\
    (r = 0 <-> take (Z.to_nat n) l = take (Z.to_nat n) l')) m.
Proof.
  intros Hl Hl' Hn. pose proof (cs_nonzero _ _ _ Hl) as Hz. pose proof (cs_nonzero _ _ _ Hl') as Hz'. split.
  - wp_call strcmp_wp; [done..|]. intros r m' (-> & ->). split; [done|]. split; [done|]. by apply compare_str_eq.
  - wp_call strncmp_wp; [done..|]. intros r m' (-> & ->). split; [done|]. split; [done|].
    apply compare_str_eq; intros x Hx%subseteq_take; auto.
Qed.

Definition demo_strings : mem := write_bytes (write_bytes ∅ 100 [97; 98; 99; 0]) 200 [97; 98; 120; 0].
Lemma demo_cstr p x : p = 100 /\ x = 99 \/ p = 200 /\ x = 120 -> cstr demo_strings p [97; 98; x].
Proof.
  intros [[-> ->]|[-> ->]]; (split; [unfold W32; simpl; lia| |set_solver by lia|reflexivity]);
    (intros i x Hi; do 3 (destruct i as [|i]; [injection Hi as <-; reflexivity|])); done.
Qed.
Lemma string_comparison_witness :
  strcmp 100 200 demo_strings = Ok (-21) demo_strings /\ strncmp 100 200 2 demo_strings = Ok 0 demo_strings.
Proof.
  destruct (string_comparison demo_strings 100 200 2 [97; 98; 99] [97; 98; 120]) as [H1 H2].
  - apply demo_cstr. by left.
  - apply demo_cstr. by right.
  - unfold W32. lia.
  - apply wp_elim in H1 as (r & m & E & -> & -> & _). apply wp_elim in H2 as (r' & m' & E' & -> & -> & _). by split.
Defined.

(** ** Bounded copies *)
Lemma write_bytes_snoc l : forall m p x,
  write_bytes m p (l ++ [x]) = store8 (write_bytes m p l) (p + Z.of_nat (length l)) x.
Proof.
  induction l as [|y l IH]; intros m p x; simpl; [by rewrite Z.add_0_r|]. rewrite IH. f_equal. lia.
Qed.

Lemma cstr_bytes m p l : mem_ok m -> cstr m p l -> Forall (fun x => 0 <= x < 256) l.
Proof.
  intros Hm Hl. apply Forall_lookup. intros i x Hi. rewrite <- (cs_chars _ _ _ Hl i x Hi). apply Hm.
Qed.

(** The characters of [l] at [p], the memory elsewhere untouched. *)
Lemma cstr_written m p l : Forall (fun x => 0 <= x < 256) l -> (forall x, x ∈ l -> x <> 0) ->
  0 <= p /\ p + Z.of_nat (length l) + 1 < W32 -> cstr (write_bytes m p (l ++ [0])) p l.
Proof.
  intros Hb Hz Hr. assert (Hb' : Forall (fun x => 0 <= x < 256) (l ++ [0])).
  { apply Forall_app. split; [done|]. apply Forall_singleton. lia. }
  split; [done| |done|].
  - intros i x Hi. pose proof (lookup_lt_Some _ _ _ Hi) as Hlt.
    rewrite load8_write_bytes, decide_True by (done || rewrite length_app; simpl; lia).
    replace (Z.to_nat (p + Z.of_nat i - p)) with i by lia. apply list_lookup_total_correct. by apply lookup_app_l_Some.
  - rewrite load8_write_bytes, decide_True by (done || rewrite length_app; simpl; lia).
    replace (Z.to_nat (p + Z.of_nat (length l) - p)) with (length l) by lia. apply list_lookup_total_correct.
    rewrite lookup_app_r, Nat.sub_diag by lia. done.
Qed.

Definition disjoint_areas (p n q k : Z) : Prop := p + n <= q \/ q + k <= p.

Lemma strlcpy_wp m dst src size l : mem_ok m -> cstr m src l -> 1 <= size -> 0 <= dst -> dst + size < W32 ->
  disjoint_areas src (Z.of_nat (length l) + 1) dst size ->
  wp (strlcpy dst src size)
     (fun r m' => r = Z.of_nat (length (take (Z.to_nat (size - 1)) l)) /\
        m' = write_bytes m dst (take (Z.to_nat (size - 1)) l ++ [0])) m.
Proof.
  intros Hm Hl Hs Hd Hds Hdis. unfold strlcpy, ld, st8. zbool. pose proof (cs_range _ _ _ Hl) as Hr.
  pose proof (cstr_bytes _ _ _ Hm Hl) as Hb.
  assert (Hrd : forall i, (i <= length l)%nat -> Z.of_nat i < size -> load8 (write_bytes m dst (take i l)) (src + Z.of_nat i) =
      match l !! i with Some x => x | None => 0 end).
  { intros i Hi His. rewrite load8_write_bytes, decide_False; [| |by apply Forall_take].
    - destruct (l !! i) as [x|] eqn:E; [by apply (cs_chars _ _ _ Hl)|].
      apply lookup_ge_None in E. replace i with (length l) by lia. exact (cs_end _ _ _ Hl).
    - rewrite length_take. unfold disjoint_areas in Hdis. lia. }
  apply wp_bind. apply (wp_mono _ (fun d m' => d = dst + Z.of_nat (length (take (Z.to_nat (size - 1)) l)) /\
    m' = write_bytes m dst (take (Z.to_nat (size - 1)) l))).
  - apply (wp_while _ (fun '(d, s, k) m' => exists i, (i <= length l)%nat /\ Z.of_nat i < size /\ d = dst + Z.of_nat i /\
        s = src + Z.of_nat i /\ k = size - Z.of_nat i /\ m' = write_bytes m dst (take i l)) (fun '(_, _, k) _ => k));
      [| |unfold W32 in *; lia].
    + intros [[d s] k] m' (i & Hi & His & -> & -> & -> & ->) _.
      destruct (decide (size - Z.of_nat i - 1 = 0)) as [E|E]; zbool; wp_steps.
      * replace (Z.to_nat (size - 1)) with i by lia. rewrite length_take. split; [lia|done].
      * rewrite Hrd by lia. destruct (l !! i) as [x|] eqn:Ei.
        -- pose proof (cs_nonzero _ _ _ Hl x ltac:(by eapply list_elem_of_lookup_2)). zbool. wp_steps.
           pose proof (lookup_lt_Some _ _ _ Ei). split; [|lia]. exists (S i). split; [lia|]. split; [lia|].
           rewrite !u32_small by (unfold W32 in *; lia). split; [lia|]. split; [lia|]. split; [lia|].
           rewrite (take_S_r _ _ _ Ei), write_bytes_snoc. f_equal. rewrite length_take. lia.
        -- zbool. wp_steps. apply lookup_ge_None in Ei. rewrite !take_ge by lia. split; [lia|done].
    + exists 0%nat. repeat split; lia || done.
  - intros d m' (-> & ->). wp_steps. split; [|by rewrite write_bytes_snoc].
    rewrite u32_small; [lia|]. rewrite length_take. unfold W32 in *. lia.
Qed.

(** Strlcpy never writes outside the [size] bytes of its destination
    and always leaves a string there: the source, cut to [size - 1]
    characters; it returns the number of characters copied. *)
Theorem strlcpy_bounded m dst src size l : mem_ok m -> cstr m src l -> 1 <= size -> 0 <= dst -> dst + size < W32 ->
  disjoint_areas src (Z.of_nat (length l) + 1) dst size ->
  wp (strlcpy dst src size)
     (fun r m' => r = Z.min (Z.of_nat (length l)) (size - 1) /\ cstr m' dst (take (Z.to_nat (size - 1)) l) /\
        forall a, ~ dst <= a < dst + size -> load8 m' a = load8 m a) m.
Proof.
  intros Hm Hl Hs Hd Hds Hdis. wp_call strlcpy_wp; [done..|]. intros r m' (-> & ->).
  pose proof (cstr_bytes _ _ _ Hm Hl) as Hb. set (k := take (Z.to_nat (size - 1)) l).
  assert (Hk : Forall (fun x => 0 <= x < 256) k) by (by apply Forall_take).
  assert (Hlen : Z.of_nat (length k) = Z.min (Z.of_nat (length l)) (size - 1)) by (unfold k; rewrite length_take; lia).
  split; [done|]. split.
  - apply cstr_written; [done| |unfold W32 in *; lia]. intros x Hx%subseteq_take. by apply (cs_nonzero _ _ _ Hl).
  - intros a Ha. rewrite load8_write_bytes, decide_False; [done| |].
    + rewrite length_app. simpl. lia.
    + apply Forall_app. split; [done|]. apply Forall_singleton. lia.
Qed.

Lemma strlcpy_bounded_witness :
  wp (strlcpy 300 100 3) (fun r m' => r = 2 /\ cstr m' 300 [97; 98] /\ load8 m' 303 = 0) demo_strings.
Proof.
  eapply wp_mono; [apply (strlcpy_bounded demo_strings 300 100 3 [97; 98; 99])|].
  - unfold demo_strings. simpl. auto 10 with mem.
  - apply demo_cstr. by left.
  - lia.
  - lia.
  - unfold W32. lia.
  - unfold disjoint_areas. simpl. lia.
  - intros r m' (-> & Hc & Ho). split; [reflexivity|]. split; [exact Hc|]. rewrite Ho by lia. reflexivity.
Defined.
