(* ===== verification/Copy.v ===== *)
(** * Copying between kernel and user memory (kern/lib/pmap)

    The kernel reaches a user page through the page table of its process and
    the one-to-one mapping of physical memory. *)

From stdpp Require Import base gmap list numbers.
From S2P Require Import Prelude Lock Pmmap Pmm Container Mem Vmm VmmSpec Str.

Section ops.
Context `{layout} (ks : kstack).
Definition PTE_PUW : Z := Z.lor (Z.lor PTE_P PTE_U) PTE_W.

(** The page of [uva], allocated if it is not there. *)
Definition user_page_pa (pmap_id uva : Z) : K vm Z :=
  uva_pa ← get_ptbl_entry_by_va pmap_id uva;
  uva_pa ← (if Z.land uva_pa PTE_P =? 0
            then alloc_page ks pmap_id uva PTE_PUW ;; get_ptbl_entry_by_va pmap_id uva
            else mret uva_pa);
  mret (u32 (Z.land uva_pa 0xfffff000 + uva mod PAGESIZE)).

Definition chunk (len pa : Z) : Z :=
  if len <? PAGESIZE - pa mod PAGESIZE then len else PAGESIZE - pa mod PAGESIZE.

Definition pt_copyin (pmap_id uva kva len : Z) : K vm Z :=
  if negb ((VM_USERLO <=? uva) && (u32 (uva + len) <=? VM_USERHI)) then mret 0
  else if VM_USERHI <? u32 (kva + len) then mret 0
  else while (fun '(uva, kva, len, copied) =>
    if negb (len =? 0) then
      uva_pa ← user_page_pa pmap_id uva;
      let size := chunk len uva_pa in
      modify (fun s => set_phys (memcpy (phys s) kva uva_pa size) s) ;;
      mret (inl (u32 (uva + size), u32 (kva + size), len - size, u32 (copied + size)))
    else mret (inr copied)) (uva, kva, len, 0).

Definition pt_copyout (kva pmap_id uva len : Z) : K vm Z :=
  if negb ((VM_USERLO <=? uva) && (u32 (uva + len) <=? VM_USERHI)) then mret 0
  else if VM_USERHI <? u32 (kva + len) then mret 0
  else while (fun '(uva, kva, len, copied) =>
    if negb (len =? 0) then
      uva_pa ← user_page_pa pmap_id uva;
      let size := chunk len uva_pa in
      modify (fun s => set_phys (memcpy (phys s) uva_pa kva size) s) ;;
      mret (inl (u32 (uva + size), u32 (kva + size), len - size, u32 (copied + size)))
    else mret (inr copied)) (uva, kva, len, 0).

Definition pt_memset (pmap_id va c len : Z) : K vm Z :=
  while (fun '(va, len, set) =>
    if negb (len =? 0) then
      pa ← user_page_pa pmap_id va;
      let size := chunk len pa in
      modify (fun s => set_phys (memset (phys s) pa c size) s) ;;
      mret (inl (u32 (va + size), len - size, u32 (set + size)))
    else mret (inr set)) (va, len, 0).
End ops.

(** ** Stores that leave the page tables alone *)
Section spec.
Context `{layout}.

Ltac vm_consts :=
  unfold user_pde, user_proc, user_page, VM_USERLO_PDE, VM_USERHI_PDE, VM_USERLO_PI, VM_USERHI_PI,
    is_u32, pde_at, idpte_at, VM_USERLO, VM_USERHI, NUM_IDS, AT_SIZE, W32 in *.
Ltac vm_layout :=
  pose proof PDirPool_kernel; pose proof IDPTbl_kernel; pose proof layout_disjoint; vm_consts.

(** Kernel memory outside the directories and the identity tables, and
    mapped user pages. *)
Definition harmless (s : vm) (a : Z) : Prop :=
  (0 <= a < VM_USERLO /\ ~ PDirPool <= a < PDirPool + NUM_IDS * 4096 /\ ~ IDPTbl <= a < IDPTbl + 1024 * 4096) \/
  exists p d t, user_slot (SPg p d t) /\ frame_of (phys s) (SPg p d t) = Some (a / 4096).

Section stores.
Context (s : vm) (m' : mem) (Hinv : pt_inv s) (Hok : mem_ok m').
Context (Hsame : forall a, ~ harmless s a -> load8 m' a = load8 (phys s) a).

Lemma not_harmless_low a : 0 <= a < VM_USERLO ->
  (PDirPool <= a < PDirPool + NUM_IDS * 4096 \/ IDPTbl <= a < IDPTbl + 1024 * 4096) -> ~ harmless s a.
Proof.
  intros Ha Hin [(_ & ? & ?)|(p & d & t & Hs & Ef)]; [lia|].
  destruct (frame_owned s _ _ Hinv Hs Ef) as [Hf _]. vm_consts. zdiv.
Qed.

Lemma kept_pde p d : 0 <= p < NUM_IDS -> 0 <= d < 1024 -> pde_of m' p d = pde_of (phys s) p d.
Proof.
  intros Hp Hd. apply load32_ext. intros b Hb. apply Hsame, not_harmless_low; vm_layout; lia.
Qed.

Lemma kept_id d t : 0 <= d < 1024 -> 0 <= t < 1024 -> load32 m' (idpte_at d t) = load32 (phys s) (idpte_at d t).
Proof.
  intros Hd Ht. apply load32_ext. intros b Hb. apply Hsame, not_harmless_low; vm_layout; lia.
Qed.

Lemma kept_pte p d f t : user_slot (SPt p d) -> pde_of (phys s) p d = 4096 * f + 7 -> 0 <= t < 1024 ->
  pte_of m' f t = pte_of (phys s) f t.
Proof.
  intros Hs E Ht. apply load32_ext. intros b Hb. apply Hsame. intros [Hlow|(p' & d' & t' & Hs' & Ef)].
  - destruct (pde_cases s p d Hinv Hs) as [(E0 & _)|(f' & E' & [Hf _] & _)].
    + rewrite E in E0. vm_consts. lia.
    + assert (f = f') as -> by lia. vm_consts. lia.
  - replace (b / 4096) with f in Ef by zdiv.
    assert (Ef' : frame_of (phys s) (SPt p d) = Some f).
    { simpl. rewrite E, entry_div by lia. rewrite (proj2 (Z.eqb_neq _ 0)); [done|]. zdiv. }
    by pose proof (vi_inj s Hinv _ _ _ Hs' Hs Ef Ef').
Qed.

Lemma kept_entry p d t : user_slot (SPg p d t) -> entry_of m' p d t = entry_of (phys s) p d t.
Proof.
  intros (Hp & Hd & Ht). unfold entry_of. rewrite kept_pde by auto using user_proc_range, user_pde_range.
  destruct (pde_cases s p d Hinv (conj Hp Hd)) as [(-> & _)|(f & E & _)]; [done|].
  rewrite E, entry_div by lia. by rewrite (kept_pte p d f t).
Qed.

Lemma kept_frame sl : user_slot sl -> frame_of m' sl = frame_of (phys s) sl.
Proof.
  destruct sl as [p d|p d t]; intros Hs; unfold frame_of.
  - destruct Hs. by rewrite kept_pde by auto using user_proc_range, user_pde_range.
  - by rewrite kept_entry.
Qed.

Lemma kept_inv : pt_inv (set_phys m' s).
Proof.
  pose proof Hinv as [Hc _ Hk Hi Hpd Hpt Hj]. split; simpl.
  - done.
  - done.
  - intros. rewrite kept_pde by done. by apply Hk.
  - intros. rewrite kept_id by done. by apply Hi.
  - intros p d Hs. rewrite kept_pde by (destruct Hs; auto using user_proc_range, user_pde_range). by apply Hpd.
  - intros p d t f (Hp & Hd & Ht). rewrite kept_pde by auto using user_proc_range, user_pde_range. intros E.
    rewrite (kept_pte p d f t) by done. by apply (Hpt p d t f).
  - intros sl sl' f Hs Hs'. rewrite !kept_frame by done. by apply Hj.
Qed.
End stores.

(** ** Mapped user memory *)
Definition walks (s : vm) (p va pa : Z) : Prop := exists fl, mmu_walk (phys s) (pde_at p 0) va = Some (pa, fl).

Lemma walks_fun s p va pa pa' : walks s p va pa -> walks s p va pa' -> pa = pa'.
Proof. intros [? E] [? E']. congruence. Qed.

Section mapped.
Context (ks : kstack) (s : vm) (p va pa : Z).
Context (Hinv : pt_inv s) (Hp : user_proc p) (Hva : user_va va) (Hw : walks s p va pa).

Lemma walks_frame : exists g perm, entry_of (phys s) p (pdx va) (ptx va) = 4096 * g + perm /\ 0 < perm < 4096 /\
  perm mod 2 = 1 /\ user_page g /\ pa = 4096 * g + va mod 4096 /\ frame_of (phys s) (va_slot p va) = Some g.
Proof.
  destruct Hw as [fl E]. rewrite walk_user in E by done. pose proof (va_user_slot p va Hp Hva) as Hs.
  set (e := entry_of (phys s) p (pdx va) (ptx va)) in *. destruct (e mod 2 =? 0) eqn:E2; [done|]. injection E as <- _.
  assert (Hsl : user_slot (SPt p (pdx va))) by (split; [done|by apply va_user_pde]).
  destruct (pde_cases s p (pdx va) Hinv Hsl) as [(_ & _ & E0)|(f & Ep & _ & _ & Ee)]; [by unfold e in E2; rewrite E0 in E2|].
  destruct (vi_pte s Hinv p (pdx va) (ptx va) f Hs Ep) as [Ez|(g & perm & Eg & Hperm & [Hg _])];
    [by unfold e in E2; rewrite Ee, Ez in E2|].
  assert (E : e = 4096 * g + perm) by (unfold e; by rewrite Ee).
  exists g, perm. split; [done|]. split; [done|]. split; [zdiv|]. split; [done|]. split; [zdiv|].
  unfold va_slot. simpl. fold e. rewrite E, entry_div by lia. rewrite (proj2 (Z.eqb_neq _ 0)); [done|]. vm_consts. lia.
Qed.

Lemma user_page_pa_eq : user_page_pa ks p va s = Ok pa s.
Proof.
  destruct walks_frame as (g & perm & E & Hperm & Hodd & Hg & -> & _).
  unfold user_page_pa. unfold mbind at 1, K_bind at 1. rewrite get_ptbl_entry_by_va_eq, E by done.
  rewrite (land_low _ 1 PTE_P) by done. change (2 ^ 1) with 2.
  rewrite (proj2 (Z.eqb_neq _ 0)) by zdiv. krun. f_equal. vm_consts.
  change 0xfffff000 with 4294963200. rewrite land_page_mask by (unfold is_u32, W32; lia).
  unfold PAGESIZE. rewrite u32_small; [zdiv|unfold W32; zdiv].
Qed.

(** The rest of the page. *)
Lemma walks_page i : 0 <= i -> va mod 4096 + i < 4096 -> walks s p (va + i) (pa + i) /\ user_va (va + i).
Proof.
  intros Hi Hin. assert (Ed : pdx (va + i) = pdx va /\ ptx (va + i) = ptx va) by (unfold pdx, ptx; zdiv).
  destruct Ed as [Ed Et]. assert (Hv : user_va (va + i)) by (unfold user_va in *; vm_consts; zdiv). split; [|done].
  destruct Hw as [fl E]. exists fl. rewrite walk_user in E |- * by done. rewrite Ed, Et.
  destruct (_ =? 0); [done|]. injection E as <- <-. do 2 f_equal. zdiv.
Qed.

Lemma walks_harmless i : 0 <= i -> va mod 4096 + i < 4096 -> harmless s (pa + i) /\ VM_USERLO <= pa + i < VM_USERHI.
Proof.
  intros Hi Hin. destruct walks_frame as (g & perm & _ & _ & _ & Hg & Epa & Ef). split.
  - right. exists p, (pdx va), (ptx va). split; [by apply va_user_slot|]. rewrite Epa.
    replace ((4096 * g + va mod 4096 + i) / 4096) with g by zdiv. done.
  - vm_consts. rewrite Epa. zdiv.
Qed.

Lemma pa_page : pa mod 4096 = va mod 4096.
Proof. destruct walks_frame as (g & _ & _ & _ & _ & _ & -> & _). zdiv. Qed.
End mapped.

(** A kernel buffer. *)
Definition kernel_area (a n : Z) : Prop :=
  0 <= a /\ 0 <= n /\ a + n <= VM_USERLO /\ (a + n <= PDirPool \/ PDirPool + NUM_IDS * 4096 <= a) /\
  (a + n <= IDPTbl \/ IDPTbl + 1024 * 4096 <= a).

Lemma kernel_harmless s a n b : kernel_area a n -> a <= b < a + n -> harmless s b.
Proof. intros Ha Hb. left. unfold kernel_area in Ha. vm_consts. lia. Qed.

Lemma kept_walks s m' p va pa : pt_inv s -> mem_ok m' -> (forall a, ~ harmless s a -> load8 m' a = load8 (phys s) a) ->
  user_proc p -> user_va va -> walks s p va pa <-> walks (set_phys m' s) p va pa.
Proof.
  intros Hinv Hok Hs Hp Hva. unfold walks.
  rewrite (walk_user (set_phys m' s)) by (done || by apply kept_inv). rewrite walk_user by done. simpl.
  rewrite (kept_entry s m' Hinv Hs) by (by apply va_user_slot). done.
Qed.

Lemma chunk_bounds len pa : 0 < len -> 0 < chunk len pa <= len /\ pa mod 4096 + chunk len pa <= 4096.
Proof. intros Hl. unfold chunk, PAGESIZE. destruct (_ <? _) eqn:E; zdiv. Qed.

Lemma copy_guard uva kva len : VM_USERLO <= uva -> 0 <= len -> uva + len <= VM_USERHI -> 0 <= kva -> kva + len <= VM_USERLO ->
  negb ((VM_USERLO <=? uva) && (u32 (uva + len) <=? VM_USERHI)) = false /\ (VM_USERHI <? u32 (kva + len)) = false.
Proof.
  intros. vm_consts. rewrite !u32_small by (unfold W32; lia). rewrite (proj2 (Z.leb_le _ _)) by lia.
  rewrite (proj2 (Z.leb_le (uva + len) _)) by lia. split; [done|]. apply Z.ltb_ge. lia.
Qed.

Lemma pt_copyin_wp ks s p uva kva len (pa_at : Z -> Z) :
  pt_inv s -> user_proc p -> VM_USERLO <= uva -> 0 <= len -> uva + len <= VM_USERHI -> kernel_area kva len ->
  (forall i, 0 <= i < len -> walks s p (uva + i) (pa_at i)) ->
  wp (pt_copyin ks p uva kva len)
     (fun r s' => r = len /\ exists m', s' = set_phys m' s /\ mem_ok m' /\ pt_inv s' /\
        forall a, load8 m' a = if decide (kva <= a < kva + len) then load8 (phys s) (pa_at (a - kva))
                               else load8 (phys s) a) s.
Proof.
  intros Hinv Hp Hlo Hlen Hhi Hk Hw. pose proof Hk as (Hk0 & _ & Hk1 & _). unfold pt_copyin.
  destruct (copy_guard uva kva len) as [-> ->]; [done..|].
  assert (Hua : forall i, 0 <= i < len -> user_va (uva + i)) by (intros; unfold user_va; lia).
  apply (wp_while _ (fun '(u, kv, l, c) s' => exists k m', 0 <= k <= len /\ u = uva + k /\ kv = kva + k /\ l = len - k /\
      c = k /\ s' = set_phys m' s /\ mem_ok m' /\ forall a, load8 m' a =
        if decide (kva <= a < kva + k) then load8 (phys s) (pa_at (a - kva)) else load8 (phys s) a)
    (fun '(_, _, l, _) _ => l)); [| |vm_consts; lia].
  - intros [[[u kv] l] c] s' (k & m' & Hkl & -> & -> & -> & -> & -> & Hok & Hm') _.
    destruct (decide (len - k = 0)) as [E|E].
    + rewrite E. simpl. wp_steps. replace k with len in * by lia. split; [done|].
      exists m'. split; [done|]. split; [done|]. split; [|done]. apply kept_inv; [done|done|]. intros a Ha. rewrite Hm', decide_False; [done|]. intros Hin. by apply Ha, (kernel_harmless s kva len).
    + rewrite (proj2 (Z.eqb_neq _ 0)) by done. simpl negb. cbv iota.
      assert (Hs : forall a, ~ harmless s a -> load8 m' a = load8 (phys s) a).
      { intros a Ha. rewrite Hm', decide_False; [done|]. intros Hin. apply Ha, (kernel_harmless s kva len); [done|lia]. }
      pose proof (Hw k ltac:(lia)) as Hwk. pose proof (Hua k ltac:(lia)) as Huk.
      apply wp_bind. eapply wp_of_eq; [apply user_page_pa_eq; [by apply kept_inv|done|exact Huk|by apply kept_walks]|].
      set (pa := pa_at k) in *. pose proof (chunk_bounds (len - k) pa ltac:(lia)) as [Hc1 Hc2]. set (sz := chunk (len - k) pa) in *.
      pose proof (pa_page s p (uva + k) pa Hinv Hp Huk Hwk) as Epa.
      wp_steps. split; [|lia]. exists (k + sz), (memcpy m' (kva + k) pa sz).
      assert (Hpr : forall i, 0 <= i < sz -> VM_USERLO <= pa + i < VM_USERHI /\ pa_at (k + i) = pa + i).
      { intros i Hi. split; [apply (walks_harmless s p (uva + k) pa Hinv Hp Huk Hwk i); lia|].
        destruct (walks_page s p (uva + k) pa Hinv Hp Huk Hwk i) as [Hwi _]; [lia|lia|].
        eapply walks_fun; [apply Hw; lia|]. by replace (uva + (k + i)) with (uva + k + i) by lia. }
      pose proof (proj1 (Hpr 0 ltac:(lia))) as Hpa0. pose proof (proj1 (Hpr (sz - 1) ltac:(lia))) as Hpa1.
      assert (Hc : copied m' (memcpy m' (kva + k) pa sz) (kva + k) pa sz)
        by (apply memmove_copied; [done|unfold range; vm_consts; lia..]).
      split; [lia|]. rewrite !u32_small by (vm_consts; lia). split; [lia|]. split; [lia|]. split; [lia|]. split; [lia|].
      split; [done|]. split; [by eapply copied_ok|]. intros a. rewrite Hc.
      destruct (decide (kva + k <= a < kva + k + sz)) as [Ha|Ha].
      * destruct (Hpr (a - (kva + k)) ltac:(lia)) as [Hx1 Hx2]. rewrite Hm', decide_False, decide_True by (vm_consts; lia).
        rewrite <- Hx2. do 2 f_equal. lia.
      * rewrite Hm'. destruct (decide (kva <= a < kva + k)); [by rewrite decide_True by lia|by rewrite decide_False by lia].
  - exists 0, (phys s). split; [lia|]. repeat (split; [lia|]). split; [by destruct s|]. split; [apply Hinv|].
    intros a. by rewrite decide_False by lia.
Qed.

(** Pt_copyin returns, and copies what the process sees: byte [i] of
    the kernel buffer is then what the process has at [uva + i]; no other
    byte of memory changes, and the page tables stay well-formed.  The
    pages are mapped; how they lie in physical memory does not matter. *)
Theorem pt_copyin_correct ks s p uva kva len (pa_at : Z -> Z) :
  pt_inv s -> user_proc p -> VM_USERLO <= uva -> 0 <= len -> uva + len <= VM_USERHI -> kernel_area kva len ->
  (forall i, 0 <= i < len -> walks s p (uva + i) (pa_at i)) ->
  wp (pt_copyin ks p uva kva len)
     (fun r s' => r = len /\ pt_inv s' /\ cn s' = cn s /\
        forall a, load8 (phys s') a = if decide (kva <= a < kva + len) then load8 (phys s) (pa_at (a - kva))
                                      else load8 (phys s) a) s.
Proof.
  intros. wp_call pt_copyin_wp; [done..|]. intros r s' (-> & m' & -> & _ & Hi & Hm). done.
Qed.

(** Different user addresses lie at different physical ones. *)
Lemma walks_inj s p va p' va' pa : pt_inv s -> user_proc p -> user_proc p' -> user_va va -> user_va va' ->
  walks s p va pa -> walks s p' va' pa -> p = p' /\ va = va'.
Proof.
  intros Hinv Hp Hp' Hva Hva' Hw Hw'.
  destruct (walks_frame s p va pa Hinv Hp Hva Hw) as (g & _ & _ & _ & _ & _ & E & Ef).
  destruct (walks_frame s p' va' pa Hinv Hp' Hva' Hw') as (g' & _ & _ & _ & _ & _ & E' & Ef').
  assert (g = g') as <- by zdiv.
  pose proof (vi_inj s Hinv _ _ _ (va_user_slot p va Hp Hva) (va_user_slot p' va' Hp' Hva') Ef Ef') as Es.
  apply va_slot_inj in Es as [-> Es]. split; [done|zdiv].
Qed.

(** ** Writing to user memory *)

(** The first [k] bytes have arrived, and nothing else has changed. *)
Definition arrived (s : vm) (src : Z -> Z) (pa_at : Z -> Z) (k : Z) (m : mem) : Prop :=
  mem_ok m /\ (forall i, 0 <= i < k -> load8 m (pa_at i) = src i) /\
  forall a, (forall i, 0 <= i < k -> a <> pa_at i) -> load8 m a = load8 (phys s) a.

Section write.
Context (ks : kstack) (s : vm) (p uva len : Z) (src pa_at : Z -> Z).
Context (Hinv : pt_inv s) (Hp : user_proc p) (Hlo : VM_USERLO <= uva) (Hlen : 0 <= len) (Hhi : uva + len <= VM_USERHI).
Context (Hw : forall i, 0 <= i < len -> walks s p (uva + i) (pa_at i)).

Lemma write_va i : 0 <= i < len -> user_va (uva + i).
Proof. unfold user_va. lia. Qed.
Lemma write_inj i j : 0 <= i < len -> 0 <= j < len -> pa_at i = pa_at j -> i = j.
Proof.
  intros Hi Hj E. pose proof (Hw i Hi) as Hwi. rewrite E in Hwi.
  pose proof (walks_inj s p _ p _ _ Hinv Hp Hp (write_va i Hi) (write_va j Hj) Hwi (Hw j Hj)). lia.
Qed.
Lemma write_pa i : 0 <= i < len -> harmless s (pa_at i) /\ VM_USERLO <= pa_at i < VM_USERHI.
Proof.
  intros Hi. rewrite <- (Z.add_0_r (pa_at i)).
  apply (walks_harmless s p (uva + i) (pa_at i) Hinv Hp (write_va i Hi) (Hw i Hi)); zdiv.
Qed.
Lemma arrived_harmless k m : k <= len -> arrived s src pa_at k m -> forall a, ~ harmless s a -> load8 m a = load8 (phys s) a.
Proof. intros Hkl (_ & _ & Ho) a Ha. apply Ho. intros i Hi ->. apply Ha, write_pa. lia. Qed.
Lemma arrived_kernel k m a : k <= len -> arrived s src pa_at k m -> 0 <= a < VM_USERLO -> load8 m a = load8 (phys s) a.
Proof. intros Hkl (_ & _ & Ho) Ha. apply Ho. intros i Hi ->. pose proof (proj2 (write_pa i ltac:(lia))). lia. Qed.
Lemma arrived_inv k m : k <= len -> arrived s src pa_at k m -> pt_inv (set_phys m s).
Proof. intros Hkl Hd. apply kept_inv; [done|apply Hd|by apply (arrived_harmless k)]. Qed.
Lemma arrived_walks k m q va pa : k <= len -> arrived s src pa_at k m -> user_proc q -> user_va va ->
  walks s q va pa <-> walks (set_phys m s) q va pa.
Proof. intros Hkl Hd. apply kept_walks; [done|apply Hd|by apply (arrived_harmless k)]. Qed.
Lemma arrived_none : arrived s src pa_at 0 (phys s).
Proof. split; [apply Hinv|]. split; [intros; lia|done]. Qed.

(** One round of the loops: the rest of a page. *)
Lemma write_chunk k m : 0 <= k < len -> arrived s src pa_at k m ->
  let pa := pa_at k in let sz := chunk (len - k) pa in
  user_page_pa ks p (uva + k) (set_phys m s) = Ok pa (set_phys m s) /\
  0 < sz <= len - k /\ VM_USERLO <= pa /\ pa + sz <= VM_USERHI /\
  forall m', mem_ok m' -> (forall a, load8 m' a = if decide (pa <= a < pa + sz) then src (k + (a - pa)) else load8 m a) ->
    arrived s src pa_at (k + sz) m'.
Proof.
  intros Hk Hdn pa sz. pose proof (Hw k Hk) as Hwk. pose proof (write_va k Hk) as Huk.
  split. { apply user_page_pa_eq; [by apply (arrived_inv k); [lia|]|done|done|by apply (arrived_walks k); [lia|..]]. }
  pose proof (chunk_bounds (len - k) pa ltac:(lia)) as [Hc1 Hc2]. fold sz in Hc1, Hc2.
  pose proof (pa_page s p (uva + k) pa Hinv Hp Huk Hwk) as Epa.
  assert (Hpr : forall i, 0 <= i < sz -> pa_at (k + i) = pa + i).
  { intros i Hi. destruct (walks_page s p (uva + k) pa Hinv Hp Huk Hwk i) as [Hwi _]; [lia|lia|].
    eapply walks_fun; [apply Hw; lia|]. by replace (uva + (k + i)) with (uva + k + i) by lia. }
  pose proof (proj2 (write_pa k ltac:(lia))) as Hpa0. pose proof (proj2 (write_pa (k + (sz - 1)) ltac:(lia))) as Hpa1.
  rewrite (Hpr (sz - 1)) in Hpa1 by lia. fold pa in Hpa0. split; [done|]. split; [lia|]. split; [lia|].
  intros m' Hok Hm'. destruct Hdn as (_ & Hi1 & Ho1). split; [done|]. split.
  - intros i Hi. rewrite Hm'. destruct (decide (i < k)) as [Hik|Hik].
    + rewrite decide_False; [by apply Hi1; lia|]. intros Hin. assert (i = k + (pa_at i - pa)); [|lia].
      apply write_inj; [lia|lia|]. rewrite Hpr by lia. lia.
    + replace (pa_at i) with (pa + (i - k)) by (rewrite <- Hpr by lia; f_equal; lia). rewrite decide_True by lia. f_equal. lia.
  - intros a Ha. rewrite Hm', decide_False; [apply Ho1; intros i Hi; apply Ha; lia|]. intros Hin.
    apply (Ha (k + (a - pa))); [lia|]. rewrite Hpr by lia. lia.
Qed.
End write.

Lemma pt_copyout_wp ks s p uva kva len (pa_at : Z -> Z) :
  pt_inv s -> user_proc p -> VM_USERLO <= uva -> 0 <= len -> uva + len <= VM_USERHI -> kernel_area kva len ->
  (forall i, 0 <= i < len -> walks s p (uva + i) (pa_at i)) ->
  wp (pt_copyout ks kva p uva len)
     (fun r s' => r = len /\ exists m, s' = set_phys m s /\ arrived s (fun i => load8 (phys s) (kva + i)) pa_at len m) s.
Proof.
  intros Hinv Hp Hlo Hlen Hhi (Hk0 & _ & Hk1 & _) Hw. unfold pt_copyout.
  destruct (copy_guard uva kva len) as [-> ->]; [done..|]. set (src := fun i => load8 (phys s) (kva + i)).
  apply (wp_while _ (fun '(u, kv, l, c) s' => exists k m, 0 <= k <= len /\ u = uva + k /\ kv = kva + k /\ l = len - k /\
      c = k /\ s' = set_phys m s /\ arrived s src pa_at k m) (fun '(_, _, l, _) _ => l)); [| |vm_consts; lia].
  - intros [[[u kv] l] c] s' (k & m & Hkl & -> & -> & -> & -> & -> & Hdn) _. destruct (decide (len - k = 0)) as [E|E].
    + rewrite E. simpl. wp_steps. replace k with len in * by lia. split; [done|]. by exists m.
    + rewrite (proj2 (Z.eqb_neq _ 0)) by done. simpl negb. cbv iota. pose proof Hdn as (Hok & _).
      destruct (write_chunk ks s p uva len src pa_at Hinv Hp Hlo Hhi Hw k m ltac:(lia) Hdn) as (Epg & Hsz & Hpl & Hph & Hnext).
      apply wp_bind. eapply wp_of_eq; [exact Epg|]. set (pa := pa_at k) in *. set (sz := chunk (len - k) pa) in *.
      assert (Hc : copied m (memcpy m pa (kva + k) sz) pa (kva + k) sz)
        by (apply memmove_copied; [done|unfold range; vm_consts; lia..]).
      wp_steps. split; [|lia]. exists (k + sz), (memcpy m pa (kva + k) sz).
      split; [lia|]. rewrite !u32_small by (vm_consts; lia). split; [lia|]. split; [lia|]. split; [lia|]. split; [lia|].
      split; [done|]. apply Hnext; [by eapply copied_ok|]. intros a. rewrite Hc. case_decide; [|done].
      rewrite (arrived_kernel s p uva len src pa_at Hinv Hp Hlo Hhi Hw k m) by (done || lia). unfold src. f_equal. lia.
  - exists 0, (phys s). split; [lia|]. repeat (split; [lia|]). split; [by destruct s|]. by apply arrived_none.
Qed.

Lemma pt_memset_wp ks s p uva c len (pa_at : Z -> Z) :
  pt_inv s -> user_proc p -> VM_USERLO <= uva -> 0 <= len -> uva + len <= VM_USERHI -> 0 <= c < 256 ->
  (forall i, 0 <= i < len -> walks s p (uva + i) (pa_at i)) ->
  wp (pt_memset ks p uva c len)
     (fun r s' => r = len /\ exists m, s' = set_phys m s /\ arrived s (fun _ => c) pa_at len m) s.
Proof.
  intros Hinv Hp Hlo Hlen Hhi Hc Hw. unfold pt_memset. set (src := fun _ : Z => c).
  apply (wp_while _ (fun '(u, l, n) s' => exists k m, 0 <= k <= len /\ u = uva + k /\ l = len - k /\
      n = k /\ s' = set_phys m s /\ arrived s src pa_at k m) (fun '(_, l, _) _ => l)); [| |vm_consts; lia].
  - intros [[u l] n] s' (k & m & Hkl & -> & -> & -> & -> & Hdn) _. destruct (decide (len - k = 0)) as [E|E].
    + rewrite E. simpl. wp_steps. replace k with len in * by lia. split; [done|]. by exists m.
    + rewrite (proj2 (Z.eqb_neq _ 0)) by done. simpl negb. cbv iota. pose proof Hdn as (Hok & _).
      destruct (write_chunk ks s p uva len src pa_at Hinv Hp Hlo Hhi Hw k m ltac:(lia) Hdn) as (Epg & Hsz & Hpl & Hph & Hnext).
      apply wp_bind. eapply wp_of_eq; [exact Epg|]. set (pa := pa_at k) in *. set (sz := chunk (len - k) pa) in *.
      assert (Hf : filled m (memset m pa c sz) pa sz c) by (apply memset_filled; unfold range; vm_consts; lia).
      wp_steps. split; [|lia]. exists (k + sz), (memset m pa c sz).
      split; [lia|]. rewrite !u32_small by (vm_consts; lia). split; [lia|]. split; [lia|]. split; [lia|].
      split; [done|]. apply Hnext; [by eapply filled_ok|]. intros a. rewrite Hf. case_decide; [|done]. unfold src. zdiv.
  - exists 0, (phys s). split; [lia|]. repeat (split; [lia|]). split; [by destruct s|]. by apply arrived_none.
Qed.

(** Pt_copyout returns, and the process then sees at [uva + i] byte [i]
    of the kernel buffer; no other byte of memory changes, and the page
    tables stay well-formed. *)
Theorem pt_copyout_correct ks s p uva kva len (pa_at : Z -> Z) :
  pt_inv s -> user_proc p -> VM_USERLO <= uva -> 0 <= len -> uva + len <= VM_USERHI -> kernel_area kva len ->
  (forall i, 0 <= i < len -> walks s p (uva + i) (pa_at i)) ->
  wp (pt_copyout ks kva p uva len)
     (fun r s' => r = len /\ pt_inv s' /\ cn s' = cn s /\
        (forall i, 0 <= i < len -> walks s' p (uva + i) (pa_at i) /\ load8 (phys s') (pa_at i) = load8 (phys s) (kva + i)) /\
        forall a, (forall i, 0 <= i < len -> a <> pa_at i) -> load8 (phys s') a = load8 (phys s) a) s.
Proof.
  intros Hinv Hp Hlo Hlen Hhi Hk Hw. wp_call pt_copyout_wp; [done..|]. intros r s' (-> & m & -> & Hd). split; [done|].
  set (src := fun i => _) in Hd. split; [by apply (arrived_inv s p uva len src pa_at Hinv Hp Hlo Hhi Hw len)|]. split; [done|]. split; [|apply Hd].
  intros i Hi. split; [|by apply Hd].
  apply (arrived_walks s p uva len src pa_at Hinv Hp Hlo Hhi Hw len m); [done|done|done|by apply (write_va uva len)|by apply Hw].
Qed.
End spec.

(** ** A concrete instance: the page process 1 got after a page fault. *)
Lemma demo_user_page : exists s g, pt_inv s /\ forall i, 0 <= i < 4096 -> walks s 1 (VM_USERLO + i) (4096 * g + i).
Proof.
  destruct demo_mapped as (s0 & s & g & E0 & Hst & Hw). exists s, g.
  destruct demo_paging_init as (s0' & E0' & Hinv0 & _). assert (s0' = s0) as -> by congruence.
  pose proof (vsteps_inv demo_ks s0 s demo_ks_ok Hinv0 Hst) as Hinv. split; [exact Hinv|].
  intros i Hi. apply (walks_page s 1 VM_USERLO (4096 * g) Hinv user_proc_1 user_va_lo).
  - by exists 7.
  - lia.
  - change (VM_USERLO mod 4096) with 0. lia.
Qed.

Lemma pt_copyin_correct_witness : exists s g,
  wp (pt_copyin demo_ks 1 VM_USERLO 4096 100)
     (fun r s' => r = 100 /\ load8 (phys s') 4100 = load8 (phys s) (4096 * g + 4)) s.
Proof.
  destruct demo_user_page as (s & g & Hinv & Hw). exists s, g.
  eapply wp_mono; [apply (pt_copyin_correct demo_ks s 1 VM_USERLO 4096 100 (fun i => 4096 * g + i))|].
  - exact Hinv.
  - exact user_proc_1.
  - lia.
  - lia.
  - unfold VM_USERLO, VM_USERHI. lia.
  - unfold kernel_area, VM_USERLO, NUM_IDS. simpl. lia.
  - intros i Hi. apply Hw. lia.
  - intros r s' (-> & _ & _ & Hc). split; [reflexivity|]. rewrite Hc, decide_True by lia. reflexivity.
Defined.

Lemma pt_copyout_correct_witness : exists s g,
  wp (pt_copyout demo_ks 4096 1 VM_USERLO 100)
     (fun r s' => r = 100 /\ load8 (phys s') (4096 * g + 4) = load8 (phys s) 4100) s.
Proof.
  destruct demo_user_page as (s & g & Hinv & Hw). exists s, g.
  eapply wp_mono; [apply (pt_copyout_correct demo_ks s 1 VM_USERLO 4096 100 (fun i => 4096 * g + i))|].
  - exact Hinv.
  - exact user_proc_1.
  - lia.
  - lia.
  - unfold VM_USERLO, VM_USERHI. lia.
  - unfold kernel_area, VM_USERLO, NUM_IDS. simpl. lia.
  - intros i Hi. apply Hw. lia.
  - intros r s' (-> & _ & _ & Hc & _). split; [reflexivity|]. by apply Hc.
Defined.
