(* ===== verification/Fmt.v ===== *)
(** * Formatted output (kern/lib/printfmt, user/lib/printfmt, user/lib/atoi)

    vprintfmt and the functions that collect its output in memory, and atoi.
    Characters are their codes. *)

From stdpp Require Import base gmap list numbers.
From S2P Require Import Prelude Mem Str.

Definition W64 : Z := 18446744073709551616.
Definition u64 (x : Z) : Z := x mod W64.
Definition s64 (x : Z) : Z := let y := u64 x in if y <? 9223372036854775808 then y else y - W64.
(** char is signed *)
Definition s8 (x : Z) : Z := if x <? 128 then x else x - 256.
Definition load64 (m : mem) (a : Z) : Z := load32 m a + W32 * load32 m (a + 4).

(** Operations on int: overflow is undefined. *)
Definition is_int (x : Z) : bool := (-2147483648 <=? x) && (x <? 2147483648).
Definition int_mul {St} (a b : Z) : K St Z := check (is_int (a * b)) ;; mret (a * b).

(** ** vprintfmt

    [putch] outputs a character; the format, the arguments and the strings
    lie in the memory [l_mem].  A va_list is the address of the next
    argument. *)
Section vprintfmt.
Context {St : Type} (l_mem : lens St mem) (putch : Z -> K St unit).

Definition rd (p : Z) : K St Z := gets (fun s => load8 (lget l_mem s) p).
Definition va_arg32 (ap : Z) : K St (Z * Z) := gets (fun s => (load32 (lget l_mem s) ap, u32 (ap + 4))).
Definition va_arg64 (ap : Z) : K St (Z * Z) := gets (fun s => (load64 (lget l_mem s) ap, u32 (ap + 8))).

(** "0123456789abcdef"[d] *)
Definition digit_chars : list Z := [48; 49; 50; 51; 52; 53; 54; 55; 56; 57; 97; 98; 99; 100; 101; 102].
Definition digit_char (d : Z) : K St Z := check (in_array d 16) ;; mret (digit_chars !!! Z.to_nat d).

(** while (--width > 0) putch(padc) *)
Definition pad_before (width padc : Z) : K St unit :=
  while (fun width =>
    width ← int_add width (-1);
    if 0 <? width then putch padc ;; mret (inl width) else mret (inr tt)) width.

(** [k] bounds the depth of the recursion: a 64-bit number has at most 64
    digits. *)
Fixpoint printnum_rec (k : nat) (num base width padc : Z) : K St unit :=
  match k with
  | O => out_of_fuel
  | S k =>
      (if base <=? num then
         width ← int_add width (-1);
         printnum_rec k (num / base) base width padc
       else pad_before width padc) ;;
      d ← digit_char (num mod base);
      putch d
  end.
Definition printnum : Z -> Z -> Z -> Z -> K St unit := printnum_rec 64.

Definition getuint (ap lflag : Z) : K St (Z * Z) :=
  if 2 <=? lflag then va_arg64 ap else va_arg32 ap.
Definition getint (ap lflag : Z) : K St (Z * Z) :=
  if 2 <=? lflag then '(v, ap) ← va_arg64 ap; mret (s64 v, ap)
  else '(v, ap) ← va_arg32 ap; mret (s32 v, ap).

(** The variables of a %-escape sequence. *)
Record conv : Type := Conv {
  c_fmt : Z; c_ap : Z; c_padc : Z; c_width : Z; c_precision : Z; c_lflag : Z; c_altflag : Z
}.
(** process_precision *)
Definition process_precision (c : conv) : conv :=
  if c_width c <? 0 then Conv (c_fmt c) (c_ap c) (c_padc c) (c_precision c) (-1) (c_lflag c) (c_altflag c) else c.

(** The loop of the width field, from its first digit [ch] on. *)
Definition scan_digits (ch fmt : Z) : K St (Z * Z) :=
  while (fun '(precision, ch, fmt) =>
    x ← int_mul precision 10;
    x ← int_add x ch;
    let precision := x - 48 in
    ch ← rd fmt;
    let ch := s8 ch in
    if (ch <? 48) || (57 <? ch) then mret (inr (precision, fmt))
    else mret (inl (precision, ch, u32 (fmt + 1)))) (0, ch, fmt).

(** One round at reswitch: a flag or width field, or the conversion. *)
Definition reswitch (c : conv) : K St (conv + Z * conv) :=
  ch ← rd (c_fmt c);
  let fmt := u32 (c_fmt c + 1) in
  let c := Conv fmt (c_ap c) (c_padc c) (c_width c) (c_precision c) (c_lflag c) (c_altflag c) in
  if (ch =? 45) || (ch =? 48) then (* - 0 *)
    mret (inl (Conv fmt (c_ap c) ch (c_width c) (c_precision c) (c_lflag c) (c_altflag c)))
  else if (49 <=? ch) && (ch <=? 57) then (* 1 to 9 *)
    '(precision, fmt) ← scan_digits ch fmt;
    mret (inl (process_precision (Conv fmt (c_ap c) (c_padc c) (c_width c) precision (c_lflag c) (c_altflag c))))
  else if ch =? 42 then (* * *)
    '(v, ap) ← va_arg32 (c_ap c);
    mret (inl (process_precision (Conv fmt ap (c_padc c) (c_width c) (s32 v) (c_lflag c) (c_altflag c))))
  else if ch =? 46 then (* . *)
    mret (inl (Conv fmt (c_ap c) (c_padc c) (if c_width c <? 0 then 0 else c_width c) (c_precision c) (c_lflag c) (c_altflag c)))
  else if ch =? 35 then (* # *)
    mret (inl (Conv fmt (c_ap c) (c_padc c) (c_width c) (c_precision c) (c_lflag c) 1))
  else if ch =? 108 then (* l *)
    lflag ← int_add (c_lflag c) 1;
    mret (inl (Conv fmt (c_ap c) (c_padc c) (c_width c) (c_precision c) lflag (c_altflag c)))
  else mret (inr (ch, c)).

(** for (; width > 0; width--) putch(c) *)
Definition pad_while (width c : Z) : K St Z :=
  while (fun width =>
    if 0 <? width then putch c ;; mret (inl (width - 1)) else mret (inr width)) width.

(** case 's': the string at [p]. *)
Definition print_string (p : Z) (c : conv) : K St unit :=
  width ← (if (0 <? c_width c) && negb (c_padc c =? 45) then
             n ← zoom l_mem (strnlen p (u32 (c_precision c)));
             width ← int_add (c_width c) (- n);
             pad_while width (c_padc c)
           else mret (c_width c));
  width ← while (fun '(p, precision, width) =>
    ch ← rd p;
    let ch := s8 ch in
    if ch =? 0 then mret (inr width)
    else if (0 <=? precision) && (precision - 1 <? 0) then mret (inr width)
    else
      let precision := if precision <? 0 then precision else precision - 1 in
      (if negb (c_altflag c =? 0) && ((ch <? 32) || (126 <? ch)) then putch 63 else putch ch) ;;
      width ← int_add width (-1);
      mret (inl (u32 (p + 1), precision, width))) (p, c_precision c, width);
  _ ← pad_while width 32;
  mret tt.

(** The default case: back to behind the % sign. *)
Definition back_to_percent (fmt : Z) : K St Z :=
  while (fun fmt =>
    ch ← rd (u32 (fmt - 1));
    if negb (ch =? 37) then mret (inl (u32 (fmt - 1))) else mret (inr fmt)) (u32 (fmt - 1)).

(** [null_str] is the address of "(null)"; [octal] is the code for %o, where
    the kernel and the user library differ. *)
Context (null_str : Z) (octal : conv -> K St (Z * Z)).

Definition print_hex (c : conv) : K St (Z * Z) :=
  '(num, ap) ← getuint (c_ap c) (c_lflag c);
  printnum num 16 (c_width c) (c_padc c) ;;
  mret (c_fmt c, ap).
Definition print_pointer (c : conv) : K St (Z * Z) :=
  putch 48 ;;
  putch 120 ;;
  '(num, ap) ← va_arg32 (c_ap c);
  printnum num 16 (c_width c) (c_padc c) ;;
  mret (c_fmt c, ap).

(** The switch on the conversion; the results are the new fmt and ap. *)
Definition convert (ch : Z) (c : conv) : K St (Z * Z) :=
  if ch =? 99 then (* c *)
    '(v, ap) ← va_arg32 (c_ap c);
    putch (s32 v) ;;
    mret (c_fmt c, ap)
  else if ch =? 115 then (* s *)
    '(p, ap) ← va_arg32 (c_ap c);
    print_string (if p =? 0 then null_str else p) c ;;
    mret (c_fmt c, ap)
  else if ch =? 100 then (* d *)
    '(num, ap) ← getint (c_ap c) (c_lflag c);
    (if num <? 0 then
       putch 45 ;;
       check (negb (num =? -9223372036854775808)) ;;
       printnum (- num) 10 (c_width c) (c_padc c)
     else printnum num 10 (c_width c) (c_padc c)) ;;
    mret (c_fmt c, ap)
  else if ch =? 117 then (* u *)
    '(num, ap) ← getuint (c_ap c) (c_lflag c);
    printnum num 10 (c_width c) (c_padc c) ;;
    mret (c_fmt c, ap)
  else if ch =? 111 then octal c (* o *)
  else if ch =? 112 then print_pointer c (* p *)
  else if ch =? 120 then print_hex c (* x *)
  else if ch =? 37 then putch ch ;; mret (c_fmt c, c_ap c) (* % *)
  else
    putch 37 ;;
    fmt ← back_to_percent (c_fmt c);
    mret (fmt, c_ap c).

Definition vprintfmt (fmt ap : Z) : K St unit :=
  while (fun '(fmt, ap) =>
    ch ← rd fmt;
    let fmt := u32 (fmt + 1) in
    if negb (ch =? 37) then
      if ch =? 0 then mret (inr tt) else putch ch ;; mret (inl (fmt, ap))
    else
      '(ch, c) ← while reswitch (Conv fmt ap 32 (-1) (-1) 0 0);
      r ← convert ch c;
      mret (inl r)) (fmt, ap).
End vprintfmt.

(** %o: in the kernel it falls through to %p; the user library prints XXX. *)
Definition kern_octal {St} (l_mem : lens St mem) (putch : Z -> K St unit) : conv -> K St (Z * Z) :=
  print_pointer l_mem putch.
Definition user_octal {St} (putch : Z -> K St unit) (c : conv) : K St (Z * Z) :=
  putch 88 ;; putch 88 ;; putch 88 ;; mret (c_fmt c, c_ap c).

(** vprintfmt as it is built into the kernel and into user programs. *)
Definition kern_vprintfmt {St} (l_mem : lens St mem) (putch : Z -> K St unit) (null_str fmt ap : Z) : K St unit :=
  vprintfmt l_mem putch null_str (kern_octal l_mem putch) fmt ap.
Definition user_vprintfmt {St} (l_mem : lens St mem) (putch : Z -> K St unit) (null_str fmt ap : Z) : K St unit :=
  vprintfmt l_mem putch null_str (user_octal putch) fmt ap.
(** A variadic function: [ap] is the address behind the last named
    parameter. *)
Definition user_printfmt {St} (l_mem : lens St mem) (putch : Z -> K St unit) (null_str fmt ap : Z) : K St unit :=
  user_vprintfmt l_mem putch null_str fmt ap.

(** A caller of a variadic function stores its arguments. *)
Fixpoint push_args (a : Z) (args : list Z) (m : mem) : mem :=
  match args with [] => m | x :: l => push_args (a + 4) l (store32 m a x) end.

(** ** sprintf (user/lib/printfmt.c)

    A function with a local variable [t]. *)
Definition with_local {M T A} (t : T) (p : K (M * T) A) : K M (A * T) := fun m =>
  match p (m, t) with
  | Ok a (m', t') => Ok (a, t') m'
  | Panic => Panic
  | Fault => Fault
  | Spin => Spin
  | OutOfFuel => OutOfFuel
  end.
Definition l_fst {M T} : lens (M * T) M := Lens fst (fun m s => (m, s.2)).
Definition l_snd {M T} : lens (M * T) T := Lens snd (fun t s => (s.1, t)).

Record sprintbuf : Type := Sprintbuf { sb_buf : Z; sb_ebuf : Z; sb_cnt : Z }.

Definition sprintputch (ch : Z) : K (mem * sprintbuf) unit :=
  b ← zoom l_snd get;
  cnt ← int_add (sb_cnt b) 1;
  if sb_buf b <? sb_ebuf b then
    zoom l_fst (st8 (sb_buf b) ch) ;;
    zoom l_snd (put (Sprintbuf (u32 (sb_buf b + 1)) (sb_ebuf b) cnt))
  else zoom l_snd (put (Sprintbuf (sb_buf b) (sb_ebuf b) cnt)).

Section user_printf.
Context (null_str : Z).

Definition vsprint (buf ebuf fmt ap : Z) : K mem Z :=
  '(_, b) ← with_local (Sprintbuf buf ebuf 0)
    (user_vprintfmt l_fst sprintputch null_str fmt ap);
  st8 (sb_buf b) 0 ;;
  mret (sb_cnt b).
Definition vsprintf (buf fmt ap : Z) : K mem Z := vsprint buf 4294967295 fmt ap.
Definition vsnprintf (buf n fmt ap : Z) : K mem Z := vsprint buf (u32 (buf + n - 1)) fmt ap.
Definition sprintf (buf fmt ap : Z) : K mem Z := vsprintf buf fmt ap.
Definition snprintf (buf n fmt ap : Z) : K mem Z := vsnprintf buf n fmt ap.
End user_printf.

(** ** atoi (user/lib/atoi.c): the result goes to the address [i]. *)
Definition atoi (buf i : Z) : K mem Z :=
  c ← ld buf;
  let '(negative, numstart) := if c =? 43 then (0, 1) else if c =? 45 then (1, 1) else (0, 0) in
  '(acc, loc) ← while (fun '(acc, loc) =>
    c ← ld (u32 (buf + loc));
    let c := s8 c in
    if (48 <=? c) && (c <=? 57) then
      acc ← int_mul acc 10;
      acc ← int_add acc (c - 48);
      loc ← int_add loc 1;
      mret (inl (acc, loc))
    else mret (inr (acc, loc))) (0, numstart);
  if numstart =? loc then mret 0
  else
    modify (fun m => store32 m i (u32 (if negb (negative =? 0) then - acc else acc))) ;;
    mret loc.
