(* ===== verification/FmtSpec.v ===== *)
(** * What formatted output prints

    A format is a list of pieces: text and conversions with a flag and a
    width.  The pieces say what the format looks like in memory, which
    arguments it takes and what it prints; vprintfmt prints that on any sink
    of characters.  The functions that print to memory are such sinks. *)

From stdpp Require Import base gmap list numbers.
From S2P Require Import Prelude Mem Str Fmt.

(** ** Numerals *)
Definition digit_of (d : Z) : Z := digit_chars !!! Z.to_nat d.
Definition digit_value (c : Z) : Z := if c <? 58 then c - 48 else c - 87.
(** The number a numeral denotes. *)
Definition value (base : Z) (l : list Z) : Z := foldl (fun a c => a * base + digit_value c) 0 l.

Fixpoint numeral_rec (k : nat) (base n : Z) : list Z :=
  match k with
  | O => []
  | S k => (if base <=? n then numeral_rec k base (n / base) else []) ++ [digit_of (n mod base)]
  end.
Definition numeral (base n : Z) : list Z := numeral_rec 64 base n.

Lemma digit_of_value d : 0 <= d < 16 -> digit_value (digit_of d) = d.
Proof.
  intros Hd. assert (Hin : d ∈ seqZ 0 16) by (apply elem_of_seqZ; lia). clear Hd. revert d Hin.
  apply Forall_forall. apply (bool_decide_unpack _). by vm_compute.
Qed.
Lemma digit_of_range d : 0 <= d < 16 -> 48 <= digit_of d < 103 /\ (d < 10 -> digit_of d = 48 + d).
Proof.
  intros Hd. assert (Hin : d ∈ seqZ 0 16) by (apply elem_of_seqZ; lia). clear Hd. revert d Hin.
  apply Forall_forall. apply (bool_decide_unpack _). by vm_compute.
Qed.

Lemma value_app base l l' a :
  foldl (fun a c => a * base + digit_value c) a (l ++ l') =
  foldl (fun a c => a * base + digit_value c) (foldl (fun a c => a * base + digit_value c) a l) l'.
Proof. apply foldl_app. Qed.

(** A numeral denotes its number, and has no leading zero. *)
Lemma numeral_rec_value k : forall base n, 2 <= base <= 16 -> 0 <= n < 2 ^ Z.of_nat k -> k <> O ->
  value base (numeral_rec k base n) = n /\ (exists c l, numeral_rec k base n = c :: l /\ (c = 48 -> n = 0)) /\
  Forall (fun c => exists d, 0 <= d < base /\ c = digit_of d) (numeral_rec k base n).
Proof.
  induction k as [|k IH]; intros base n Hb Hn Hk; [done|]. cbn [numeral_rec].
  pose proof (Z.mod_pos_bound n base ltac:(lia)) as Hm.
  assert (Hd : Forall (fun c => exists d, 0 <= d < base /\ c = digit_of d) [digit_of (n mod base)]) by (repeat constructor; eauto).
  rewrite Nat2Z.inj_succ, Z.pow_succ_r in Hn by lia.
  destruct (Z.leb_spec base n) as [Hle|Hlt].
  - assert (Hq : 1 <= n / base < 2 ^ Z.of_nat k) by (split; [apply Z.div_le_lower_bound; lia|apply Z.div_lt_upper_bound; nia]).
    destruct k as [|k]; [simpl in Hq; lia|].
    destruct (IH base (n / base) Hb ltac:(lia) ltac:(done)) as (Hv & (c & l & El & Hc) & Hf). split.
    + unfold value in *. rewrite value_app, Hv. simpl. rewrite digit_of_value by lia.
      rewrite (Z.div_mod n base) at 3 by lia. lia.
    + split; [|by apply Forall_app]. rewrite El. exists c, (l ++ [digit_of (n mod base)]). split; [done|]. intros E.
      specialize (Hc E). lia.
  - split; [unfold value; simpl; rewrite digit_of_value by lia; rewrite Z.mod_small by lia; done|].
    split; [|done]. eexists _, []. split; [done|]. rewrite Z.mod_small by lia. intros E.
    pose proof (digit_of_value n ltac:(lia)) as E'. rewrite E in E'. vm_compute in E'. done.
Qed.

Lemma numeral_value base n : 2 <= base <= 16 -> 0 <= n < W64 -> value base (numeral base n) = n.
Proof. intros. apply numeral_rec_value; [done|done|done]. Qed.
Lemma numeral_digits base n : 2 <= base <= 16 -> 0 <= n < W64 ->
  Forall (fun c => exists d, 0 <= d < base /\ c = digit_of d) (numeral base n).
Proof. intros. by apply (numeral_rec_value 64). Qed.
Lemma numeral_head base n : 2 <= base <= 16 -> 0 <= n < W64 ->
  exists c l, numeral base n = c :: l /\ (c = 48 -> n = 0).
Proof. intros. by apply (numeral_rec_value 64). Qed.
Lemma numeral_length base n : 2 <= base <= 16 -> (1 <= length (numeral base n) <= 64)%nat.
Proof.
  intros Hb. unfold numeral. assert (forall k n, k <> O -> (1 <= length (numeral_rec k base n) <= k)%nat); [|auto].
  induction k as [|k IH]; intros m Hk; [done|]. cbn [numeral_rec]. rewrite length_app. simpl.
  destruct (base <=? m); [|simpl; lia]. destruct k as [|k]; [simpl; lia|]. pose proof (IH (m / base) ltac:(done)). lia.
Qed.

Lemma numeral_rec_short f : forall base n k, 2 <= base -> 0 <= n < base ^ Z.of_nat (S k) -> (length (numeral_rec f base n) <= S k)%nat.
Proof.
  induction f as [|f IH]; intros base n k Hb Hn; [cbn; lia|]. cbn [numeral_rec]. rewrite length_app. cbn [length].
  destruct (Z.leb_spec base n) as [Hle|?]; [|cbn; lia]. rewrite Nat2Z.inj_succ, Z.pow_succ_r in Hn by lia. destruct k as [|k]; [rewrite Z.pow_0_r in Hn; lia|].
  enough (length (numeral_rec f base (n / base)) <= S k)%nat by lia. apply IH; [done|].
  split; [apply Z.div_pos; lia|]. apply Z.div_lt_upper_bound; lia.
Qed.

(** ** Formats as lists of pieces *)
Inductive nkind : Type := Signed | Unsigned | Hex.
(** A character of text, %%, %c with its argument, %s with a width and the
    string at [p], and a number with flag, width and size. *)
Inductive piece : Type :=
| PText (c : Z)
| PPercent
| PChar (c : Z)
| PStr (w p : Z) (l : list Z)
| PNum (k : nkind) (zero : bool) (w : Z) (ll : bool) (n : Z).

Definition width_text (w : Z) : list Z := if w =? 0 then [] else numeral 10 w.
(** The flag, the width and the size of an escape sequence. *)
Definition escape_fields (zero : bool) (w : Z) (ll : bool) : list Z :=
  (if zero then [48] else []) ++ width_text w ++ (if ll then [108; 108] else []).
Definition kind_char (k : nkind) : Z := match k with Signed => 100 | Unsigned => 117 | Hex => 120 end.
Definition kind_base (k : nkind) : Z := match k with Hex => 16 | _ => 10 end.
Definition piece_text (x : piece) : list Z :=
  match x with
  | PText c => [c]
  | PPercent => 37 :: escape_fields false 0 false ++ [37]
  | PChar _ => 37 :: escape_fields false 0 false ++ [99]
  | PStr w _ _ => 37 :: escape_fields false w false ++ [115]
  | PNum k zero w ll _ => 37 :: escape_fields zero w ll ++ [kind_char k]
  end.
(** The arguments, as 32-bit words. *)
Definition piece_args (x : piece) : list Z :=
  match x with
  | PText _ | PPercent => []
  | PChar c => [u32 c]
  | PStr _ p _ => [p]
  | PNum _ _ _ false n => [u32 n]
  | PNum _ _ _ true n => [u32 (u64 n); u64 n / W32]
  end.
Definition padded (w c : Z) (l : list Z) : list Z := replicate (Z.to_nat w - length l) c ++ l.
Definition piece_out (x : piece) : list Z :=
  match x with
  | PText c => [c]
  | PPercent => [37]
  | PChar c => [c mod 256]
  | PStr w _ l => padded w 32 l
  | PNum k zero w _ n =>
      (if n <? 0 then [45] else []) ++ padded w (if zero then 48 else 32) (numeral (kind_base k) (Z.abs n))
  end.
Definition piece_ok (x : piece) : Prop :=
  match x with
  | PText c => 0 < c < 256 /\ c <> 37
  | PPercent => True
  | PChar c => -2147483648 <= c < 2147483648
  | PStr w p l => 0 <= w < 2147483600 /\ is_u32 p /\ p <> 0 /\ Z.of_nat (length l) < 1073741824 /\ Forall (fun c => 0 <= c < 256) l
  | PNum k _ w ll n => 0 <= w < 2147483600 /\
      match k, ll with
      | Signed, false => -2147483648 <= n < 2147483648
      | Signed, true => -9223372036854775808 < n < 9223372036854775808
      | _, false => is_u32 n
      | _, true => 0 <= n < W64
      end
  end.
Definition format_text (ps : list piece) : list Z := ps ≫= piece_text.
Definition format_args (ps : list piece) : list Z := ps ≫= piece_args.
Definition format_out (ps : list piece) : list Z := ps ≫= piece_out.

(** The bytes [l] lie at [a], outside [area]. *)
Definition at_text (m : mem) (area : Z -> Prop) (a : Z) (l : list Z) : Prop :=
  forall i x, l !! i = Some x -> load8 m (a + Z.of_nat i) = x /\ ~ area (a + Z.of_nat i).
Definition at_words (m : mem) (area : Z -> Prop) (a : Z) (l : list Z) : Prop :=
  forall i x, l !! i = Some x -> load32 m (a + 4 * Z.of_nat i) = x /\
    forall b, 0 <= b < 4 -> ~ area (a + 4 * Z.of_nat i + b).
Definition at_strings (m : mem) (area : Z -> Prop) (ps : list piece) : Prop :=
  forall w p l, PStr w p l ∈ ps -> cstr m p l /\ forall i, 0 <= i <= Z.of_nat (length l) -> ~ area (p + i).

Record format_at (m : mem) (area : Z -> Prop) (fmt ap : Z) (ps : list piece) : Prop := {
  fa_text : at_text m area fmt (format_text ps ++ [0]);
  fa_args : at_words m area ap (format_args ps);
  fa_strings : at_strings m area ps;
  fa_ok : Forall piece_ok ps;
  fa_fmt : 0 <= fmt /\ fmt + Z.of_nat (length (format_text ps)) + 1 < W32;
  fa_ap : 0 <= ap /\ ap + 4 * Z.of_nat (length (format_args ps)) < W32
}.

(** ** Sinks: what vprintfmt needs of its putch *)
Class sink {St} (l_mem : lens St mem) (putch : Z -> K St unit) : Type := {
  (** The state represents the memory [m] the call started with and the
      characters [l] printed since. *)
  sk_rep : mem -> list Z -> St -> Prop;
  (** The memory it may write, the characters it takes, and how many. *)
  sk_area : Z -> Prop;
  sk_char : Z -> Prop;
  sk_max : Z;
  sk_load m l s a : sk_rep m l s -> ~ sk_area a -> load8 (lget l_mem s) a = load8 m a;
  sk_lens m l s : sk_rep m l s -> lset l_mem (lget l_mem s) s = s;
  sk_put m l s c : sk_rep m l s -> sk_char (c mod 256) -> Z.of_nat (length l) < sk_max ->
    wp (putch c) (fun _ s' => sk_rep m (l ++ [c mod 256]) s') s
}.

(** A step of int arithmetic that does not overflow. *)
Lemma wp_int_add {St} a b (Q : Z -> St -> Prop) s : -2147483648 <= a + b < 2147483648 -> Q (a + b) s -> wp (int_add a b) Q s.
Proof. intros H HQ. unfold int_add. by do 3 wp_step. Qed.
Lemma wp_int_mul {St} a b (Q : Z -> St -> Prop) s : -2147483648 <= a * b < 2147483648 -> Q (a * b) s -> wp (int_mul a b) Q s.
Proof. intros H HQ. unfold int_mul, is_int. by do 3 wp_step. Qed.
(** Decide the conditions of a conditional. *)
Ltac zcond := zbool; cbn [orb andb negb]; cbv iota.
Ltac wp_int := apply wp_bind; first [apply wp_int_add|apply wp_int_mul]; [try lia|cbv beta].

Lemma strnlen_wp m p l size Q : cstr m p l -> Z.of_nat (length l) < 2147483647 -> Z.of_nat (length l) < size ->
  Q (Z.of_nat (length l)) m -> wp (strnlen p size) Q m.
Proof.
  intros Hc Hl Hn HQ. unfold strnlen. apply (wp_while_rounds _ (S (length l))); [|lia].
  assert (H0 : 0 <= 0) by lia. change (Z.of_nat (length l)) with (0 + Z.of_nat (length l)) in HQ.
  change (Z.of_nat (length l)) with (0 + Z.of_nat (length l)) in Hl. revert H0 Hl HQ. generalize 0 at 2 3 4 7 as a.
  revert p size Hc Hn. induction l as [|x l IH]; intros p size Hc Hn a Ha Hl HQ; cbn [wp_rounds length] in Hn, Hl, HQ |- *; zcond; wp_step; unfold ld; wp_step.
  - apply cstr_nil in Hc as ->. zcond. wp_step. by rewrite Z.add_0_r in HQ.
  - apply cstr_cons in Hc as (-> & Hx & Hc). zcond. wp_int. wp_step. apply IH; [done|lia|lia|lia|].
    by replace (a + 1 + Z.of_nat (length l)) with (a + Z.of_nat (S (length l))) by lia.
Qed.

Section print.
Context {St : Type} (l_mem : lens St mem) (putch : Z -> K St unit) `{!sink l_mem putch}.
Context (null_str : Z) (octal : conv -> K St (Z * Z)) (m : mem).

Lemma rd_eq l s a : sk_rep m l s -> ~ sk_area a -> rd l_mem a s = Ok (load8 m a) s.
Proof. intros Hs Ha. unfold rd, gets. by rewrite (sk_load m l) by done. Qed.

(** What is still allowed to be printed. *)
Definition room (l out : list Z) : Prop :=
  Forall sk_char out /\ Z.of_nat (length l + length out) <= sk_max.

Lemma room_split l a b : room l (a ++ b) -> room l a /\ room (l ++ a) b.
Proof. intros [Hf Hl]. apply Forall_app in Hf as [? ?]. rewrite length_app in Hl. unfold room. rewrite length_app. split; (split; [done|lia]). Qed.

Lemma put_wp l s c out Q : sk_rep m l s -> room l ((c mod 256) :: out) ->
  (forall s', sk_rep m (l ++ [c mod 256]) s' -> room (l ++ [c mod 256]) out -> Q tt s') -> wp (putch c) Q s.
Proof.
  intros Hs Hr HQ. change (c mod 256 :: out) with ([c mod 256] ++ out) in Hr. apply room_split in Hr as [[Hf Hl] Hr].
  eapply wp_mono; [apply (sk_put m l); [done|by apply Forall_inv in Hf|simpl in Hl; lia]|]. intros [] s' Hs'. by apply HQ.
Qed.
Lemma put_char_wp l s c out Q : 0 <= c < 256 -> sk_rep m l s -> room l (c :: out) ->
  (forall s', sk_rep m (l ++ [c]) s' -> room (l ++ [c]) out -> Q tt s') -> wp (putch c) Q s.
Proof. intros Hc Hs Hr HQ. apply (put_wp l s c out); [done|..]; by rewrite Z.mod_small. Qed.

(** ** Padding and numbers *)
Lemma pad_before_wp w c out Q l s : 0 <= c < 256 -> -2147483648 < w < 2147483648 -> sk_rep m l s ->
  let pad := replicate (Z.to_nat (w - 1)) c in
  room l (pad ++ out) -> (forall s', sk_rep m (l ++ pad) s' -> room (l ++ pad) out -> Q tt s') -> wp (pad_before putch w c) Q s.
Proof.
  cbv zeta. intros Hc Hw Hs Hr HQ. unfold pad_before. apply (wp_while_rounds _ (S (Z.to_nat (w - 1)))); [|lia].
  remember (Z.to_nat (w - 1)) as n eqn:En. revert l s w Hw En Hs Hr HQ.
  induction n as [|n IH]; intros l s w Hw En Hs Hr HQ; cbn [wp_rounds]; wp_int; cbv beta.
  - zbool. wp_step. apply HQ; by rewrite ?app_nil_r.
  - zbool. wp_step. eapply put_char_wp; [done|done|exact Hr|]. intros s' Hs' Hr'. wp_step.
    apply (IH (l ++ [c]) s' (w + -1)); [lia|lia|done|done|]. intros s2 Hs2 Hr2. rewrite <- app_assoc in Hs2, Hr2. by apply HQ.
Qed.

Lemma printnum_rec_wp k c : forall n base w out Q l s, 2 <= base <= 16 -> 0 <= n < 2 ^ Z.of_nat k -> (k <> 0)%nat ->
  0 <= c < 256 -> -2147483648 + Z.of_nat k < w < 2147483648 -> (k <= 64)%nat -> sk_rep m l s ->
  let num := numeral_rec k base n in
  let text := padded w c num in
  room l (text ++ out) -> (forall s', sk_rep m (l ++ text) s' -> room (l ++ text) out -> Q tt s') ->
  wp (printnum_rec putch k n base w c) Q s.
Proof.
  cbv zeta. induction k as [|k IH]; intros n base w out Q l s Hb Hn Hk Hc Hw Hk64 Hs Hr HQ; [done|].
  cbn [printnum_rec numeral_rec] in *.
  rewrite Nat2Z.inj_succ, Z.pow_succ_r in Hn by lia. pose proof (Z.mod_pos_bound n base ltac:(lia)) as Hm.
  assert (Hlast : forall l s, sk_rep m l s -> room l (digit_of (n mod base) :: out) ->
    (forall s', sk_rep m (l ++ [digit_of (n mod base)]) s' -> room (l ++ [digit_of (n mod base)]) out -> Q tt s') ->
    wp (d ← digit_char (n mod base); putch d) Q s).
  { intros l1 s1 Hs1 Hr1 HQ1. unfold digit_char. do 3 wp_step. apply (put_char_wp l1 s1 _ out); [|done|exact Hr1|exact HQ1].
    pose proof (digit_of_range (n mod base) ltac:(lia)). unfold digit_of in *. lia. }
  unfold padded in *. destruct (Z.leb_spec base n) as [Hle|Hlt]; wp_step.
  - wp_int. assert (Hq : 0 <= n / base < 2 ^ Z.of_nat k) by (split; [apply Z.div_pos; lia|apply Z.div_lt_upper_bound; nia]).
    destruct k as [|k]; [simpl in *; pose proof (Z.div_le_lower_bound n base 1 ltac:(lia) ltac:(lia)); lia|].
    rewrite length_app in Hr, HQ. cbn [length] in Hr, HQ.
    replace (Z.to_nat w - (length (numeral_rec (S k) base (n / base)) + 1))%nat
      with (Z.to_nat (w + -1) - length (numeral_rec (S k) base (n / base)))%nat in * by lia.
    rewrite <- !app_assoc in Hr.
    apply (IH (n / base) base (w + -1) ([digit_of (n mod base)] ++ out) _ l); [done|done|done|done|lia|lia|done|by rewrite <- app_assoc|].
    intros s' Hs' Hr'. eapply Hlast; [done|done|]. intros s2 Hs2 Hr2. rewrite <- !app_assoc in Hs2, Hr2. by apply HQ.
  - simpl app in *. cbn [length] in Hr, HQ. replace (Z.to_nat w - 1)%nat with (Z.to_nat (w - 1)) in * by lia.
    rewrite <- app_assoc in Hr. eapply pad_before_wp; [done|lia|done|exact Hr|]. intros s' Hs' Hr'.
    eapply Hlast; [done|done|]. intros s2 Hs2 Hr2. rewrite <- app_assoc in Hs2, Hr2. by apply HQ.
Qed.

Lemma printnum_wp n base w c out Q l s : 2 <= base <= 16 -> 0 <= n < W64 -> 0 <= c < 256 -> -1 <= w < 2147483648 ->
  sk_rep m l s -> let text := padded w c (numeral base n) in
  room l (text ++ out) -> (forall s', sk_rep m (l ++ text) s' -> room (l ++ text) out -> Q tt s') ->
  wp (printnum putch n base w c) Q s.
Proof. intros. eapply printnum_rec_wp; eauto; lia. Qed.

(** ** Reading the format *)
Lemma at_text_cons A a x l : at_text m A a (x :: l) -> load8 m a = x /\ ~ A a /\ at_text m A (a + 1) l.
Proof.
  intros H. destruct (H 0%nat x eq_refl) as [H1 H2]. rewrite Z.add_0_r in H1, H2. split_and!; [done|done|].
  intros i y Hi. rewrite <- Z.add_assoc, Z.add_1_l, <- Nat2Z.inj_succ. by apply H.
Qed.
Lemma at_text_app A a l l' : at_text m A a (l ++ l') -> at_text m A a l /\ at_text m A (a + Z.of_nat (length l)) l'.
Proof.
  intros H. split.
  - intros i x Hi. apply H. by apply lookup_app_l_Some.
  - intros i x Hi. rewrite <- Z.add_assoc, <- Nat2Z.inj_add. apply H. rewrite lookup_app_r by lia. by rewrite Nat.add_comm, Nat.add_sub.
Qed.
Lemma rd_text a x l' l s Q : at_text m sk_area a (x :: l') -> sk_rep m l s -> Q x s -> wp (rd l_mem a) Q s.
Proof. intros (Hx & Ha & _)%at_text_cons Hs HQ. eapply wp_of_eq; [by eapply rd_eq|]. by rewrite Hx. Qed.

Lemma s8_small x : 0 <= x < 128 -> s8 x = x.
Proof. intros. unfold s8. by zbool. Qed.
Lemma foldl_digits_mono ds : forall a, Forall (fun c => 48 <= c <= 57) ds -> 0 <= a ->
  a <= foldl (fun a c => a * 10 + digit_value c) a ds.
Proof.
  induction ds as [|d ds IH]; intros a Hd Ha; [simpl; lia|]. apply Forall_cons in Hd as [Hd Hds]. simpl.
  assert (digit_value d = d - 48) as -> by (unfold digit_value; zbool; lia).
  pose proof (IH (a * 10 + (d - 48)) Hds ltac:(lia)). lia.
Qed.

(** The width field. *)
Lemma scan_digits_wp d ds fmt x rest Q l s :
  Forall (fun c => 48 <= c <= 57) (d :: ds) -> 0 <= x < 128 -> ~ 48 <= x <= 57 -> value 10 (d :: ds) < 2147483600 ->
  at_text m sk_area fmt (ds ++ x :: rest) -> 0 <= fmt -> fmt + Z.of_nat (length ds) < W32 -> sk_rep m l s ->
  Q (value 10 (d :: ds), fmt + Z.of_nat (length ds)) s -> wp (scan_digits l_mem d fmt) Q s.
Proof.
  intros Hd Hx Hnx Hv Ht Hf Hlen Hs HQ. unfold scan_digits. unfold value in *.
  apply (wp_while_rounds _ (S (length ds))); [|unfold W32 in *; lia].
  assert (0 <= 0) as Ha by lia. revert Ha Hd Hv HQ. generalize 0 at 2 3 4 5 as a. revert d fmt Ht Hf Hlen.
  induction ds as [|d' ds IH]; intros d fmt Ht Hf Hlen a Ha Hd Hv HQ; apply Forall_cons in Hd as [Hd Hds];
    cbn [wp_rounds foldl] in Hv, HQ |- *; assert (Hdv : digit_value d = d - 48) by (unfold digit_value; zbool; lia); rewrite Hdv in *.
  - simpl in HQ, Hv. wp_int. wp_int. wp_step. eapply rd_text; [exact Ht|done|]. rewrite s8_small by lia.
    destruct (Z.ltb_spec x 48), (Z.ltb_spec 57 x); try lia; simpl; wp_step; rewrite Z.add_0_r in HQ;
    by replace (a * 10 + d - 48) with (a * 10 + (d - 48)) by lia.
  - pose proof (foldl_digits_mono (d' :: ds) (a * 10 + (d - 48)) Hds ltac:(lia)) as Hm. cbn [foldl] in Hm.
    wp_int. wp_int. wp_step. pose proof Ht as (_ & _ & Ht')%at_text_cons. eapply rd_text; [exact Ht|done|].
    pose proof (Forall_inv Hds) as Hd'. cbv beta in Hd'. rewrite s8_small by lia. zbool. simpl orb. cbv iota. wp_step. cbn [length] in *.
    rewrite u32_small by (unfold W32 in *; lia).
    apply (IH d' (fmt + 1)); [done|lia|lia|lia|done|..];
      replace (a * 10 + d - 48) with (a * 10 + (d - 48)) by lia; [exact Hv|].
    by replace (fmt + 1 + Z.of_nat (length ds)) with (fmt + Z.of_nat (S (length ds))) by lia.
Qed.

(** A character that is not a flag or a width is the conversion. *)
Definition is_conversion (x : Z) : Prop := x = 37 \/ x = 99 \/ x = 100 \/ x = 115 \/ x = 117 \/ x = 120.

Section fields.
Context (l : list Z) (s : St) (Hs : sk_rep m l s).
(** The field at the format pointer is read and the rest is done in the
    rounds left. *)
Abbreviation rounds n c Q := (wp_rounds (reswitch l_mem) n c Q s).

Lemma field_conversion n x rest c Q : at_text m sk_area (c_fmt c) (x :: rest) -> 0 <= c_fmt c -> c_fmt c + 1 < W32 ->
  is_conversion x ->
  Q (x, Conv (c_fmt c + 1) (c_ap c) (c_padc c) (c_width c) (c_precision c) (c_lflag c) (c_altflag c)) s -> rounds (S n) c Q.
Proof.
  intros Ht H0 H1 Hx HQ. cbn [wp_rounds]. unfold reswitch. wp_step. eapply rd_text; [exact Ht|done|].
  rewrite u32_small by lia. destruct Hx as [->|[->|[->|[->|[->| ->]]]]]; zcond; by wp_step.
Qed.
Lemma field_zero n rest c Q : at_text m sk_area (c_fmt c) (48 :: rest) -> 0 <= c_fmt c -> c_fmt c + 1 < W32 ->
  rounds n (Conv (c_fmt c + 1) (c_ap c) 48 (c_width c) (c_precision c) (c_lflag c) (c_altflag c)) Q -> rounds (S n) c Q.
Proof.
  intros Ht H0 H1 HQ. cbn [wp_rounds]. unfold reswitch. wp_step. eapply rd_text; [exact Ht|done|].
  rewrite u32_small by lia. zcond. by wp_step.
Qed.
Lemma field_l n rest c Q : at_text m sk_area (c_fmt c) (108 :: rest) -> 0 <= c_fmt c -> c_fmt c + 1 < W32 -> 0 <= c_lflag c < 100 ->
  rounds n (Conv (c_fmt c + 1) (c_ap c) (c_padc c) (c_width c) (c_precision c) (c_lflag c + 1) (c_altflag c)) Q -> rounds (S n) c Q.
Proof.
  intros Ht H0 H1 Hl HQ. cbn [wp_rounds]. unfold reswitch. wp_step. eapply rd_text; [exact Ht|done|].
  rewrite u32_small by lia. zcond. cbn [c_lflag]. wp_int. by wp_step.
Qed.

Lemma numeral10_digits w : 0 <= w < W64 -> Forall (fun c => 48 <= c <= 57) (numeral 10 w).
Proof.
  intros Hw. eapply Forall_impl; [apply (numeral_digits 10); [lia|done]|]. intros c (d & Hd & ->).
  pose proof (digit_of_range d ltac:(lia)) as [_ E]. rewrite E; lia.
Qed.

Lemma field_width n w x rest c Q : at_text m sk_area (c_fmt c) (width_text w ++ x :: rest) -> 0 <= c_fmt c ->
  c_fmt c + Z.of_nat (length (width_text w)) + 1 < W32 -> 0 <= w < 2147483600 -> 0 <= x < 128 -> ~ 48 <= x <= 57 ->
  c_width c = -1 -> c_precision c = -1 ->
  rounds n (Conv (c_fmt c + Z.of_nat (length (width_text w))) (c_ap c) (c_padc c) (if w =? 0 then -1 else w) (-1) (c_lflag c) (c_altflag c)) Q ->
  rounds (if w =? 0 then n else S n) c Q.
Proof.
  unfold width_text. destruct (Z.eqb_spec w 0) as [->|Hw0].
  { intros _ _ _ _ _ _ E1 E2. destruct c; simpl in *. subst. by rewrite Z.add_0_r. }
  intros Ht H0 H1 Hw Hx Hnx Ew Ep HQ. cbn [wp_rounds]. unfold reswitch.
  assert (Hw64 : 0 <= w < W64) by (unfold W64; lia).
  destruct (numeral_head 10 w ltac:(lia) Hw64) as (d & ds & Ed & Hd0).
  pose proof (numeral10_digits w Hw64) as Hds. pose proof (numeral_value 10 w ltac:(lia) Hw64) as Hv. rewrite Ed in *.
  pose proof (Forall_inv Hds) as Hd. cbv beta in Hd. cbn [length app] in *. pose proof Ht as (_ & _ & Ht')%at_text_cons.
  wp_step. eapply rd_text; [exact Ht|done|]. rewrite u32_small by lia. assert (d <> 48) by auto. zcond.
  wp_step. eapply scan_digits_wp; [exact Hds|exact Hx|exact Hnx|lia|exact Ht'|lia|lia|exact Hs|]. rewrite Hv.
  wp_step. unfold process_precision. cbn. rewrite Ew. zbool. cbn.
  by replace (c_fmt c + 1 + Z.of_nat (length ds)) with (c_fmt c + Z.of_nat (S (length ds))) by lia.
Qed.
End fields.

(** A whole %-escape sequence, from behind the % sign. *)
Lemma escape_wp zero w ll x rest fmt ap Q l s : sk_rep m l s ->
  at_text m sk_area fmt (escape_fields zero w ll ++ x :: rest) -> is_conversion x -> 0 <= w < 2147483600 ->
  0 <= fmt -> fmt + Z.of_nat (length (escape_fields zero w ll)) + 1 < W32 ->
  Q (x, Conv (fmt + Z.of_nat (length (escape_fields zero w ll)) + 1) ap (if zero then 48 else 32)
          (if w =? 0 then -1 else w) (-1) (if ll then 2 else 0) 0) s ->
  wp (while (reswitch l_mem) (Conv fmt ap 32 (-1) (-1) 0 0)) Q s.
Proof.
  intros Hs Ht Hx Hw H0 H1 HQ. unfold escape_fields in *. rewrite !length_app in H1, HQ.
  set (k1 := (if ll then 3 else 1)%nat). set (k2 := if w =? 0 then k1 else S k1).
  apply (wp_while_rounds _ (if zero then S k2 else k2)); [|subst k1 k2; destruct zero, (w =? 0), ll; simpl; lia].
  remember (fmt + Z.of_nat (length (if zero then [48] else []))) as f1 eqn:Ef1.
  rewrite <- !app_assoc in Ht. pose proof Ht as (_ & Ht1)%at_text_app. rewrite <- Ef1 in Ht1. pose proof Ht1 as (_ & Ht2)%at_text_app.
  remember (f1 + Z.of_nat (length (width_text w))) as f2 eqn:Ef2.
  set (pc := if zero then 48 else 32) in *. set (ww := if w =? 0 then -1 else w) in *.
  assert (G1 : wp_rounds (reswitch l_mem) k1 (Conv f2 ap pc ww (-1) 0 0) Q s).
  { subst k1. destruct ll; cbn [app length] in *.
    - pose proof Ht2 as (_ & _ & Ht3)%at_text_cons. pose proof Ht3 as (_ & _ & Ht4)%at_text_cons.
      eapply field_l; [done|exact Ht2|cbn [c_fmt c_lflag]; lia..|]. eapply field_l; [done|exact Ht3|cbn [c_fmt c_lflag]; lia..|].
      eapply field_conversion; [done|exact Ht4|cbn [c_fmt c_lflag]; lia..|done|]. cbn.
      by replace (f2 + 1 + 1 + 1) with (fmt + Z.of_nat (length (if zero then [48] else []) + (length (width_text w) + 2)) + 1) by lia.
    - eapply field_conversion; [done|exact Ht2|cbn [c_fmt]; lia..|done|]. cbn.
      by replace (f2 + 1) with (fmt + Z.of_nat (length (if zero then [48] else []) + (length (width_text w) + 0)) + 1) by lia. }
  assert (G2 : wp_rounds (reswitch l_mem) k2 (Conv f1 ap pc (-1) (-1) 0 0) Q s).
  { assert (exists y r, (if ll then [108; 108] else []) ++ x :: rest = y :: r /\ 0 <= y < 128 /\ ~ 48 <= y <= 57) as (y & r & Ey & Hy & Hy').
    { unfold is_conversion in Hx. destruct ll; (eexists _, _; split; [reflexivity|]); lia. }
    rewrite Ey in Ht1. eapply field_width; [done|exact Ht1|(cbn [c_fmt c_width c_precision]; lia)..|cbn [c_fmt]; rewrite <- Ef2; exact G1]. }
  subst k2 pc. rewrite Ef1 in G2. destruct zero; cbn [length] in *.
  - eapply field_zero; [done|exact Ht|cbn [c_fmt]; lia..|exact G2].
  - by rewrite Z.add_0_r in G2.
Qed.

(** ** Arguments *)
Lemma at_words_cons A a x l : at_words m A a (x :: l) ->
  (load32 m a = x /\ forall b, 0 <= b < 4 -> ~ A (a + b)) /\ at_words m A (a + 4) l.
Proof.
  intros H. split; [by specialize (H 0%nat x eq_refl); rewrite Z.add_0_r in H|].
  intros i y Hi. replace (a + 4 + 4 * Z.of_nat i) with (a + 4 * Z.of_nat (S i)) by lia. by apply H.
Qed.
Lemma at_words_app A a l l' : at_words m A a (l ++ l') -> at_words m A a l /\ at_words m A (a + 4 * Z.of_nat (length l)) l'.
Proof.
  intros H. split.
  - intros i x Hi. apply H. by apply lookup_app_l_Some.
  - intros i x Hi. replace (a + 4 * Z.of_nat (length l) + 4 * Z.of_nat i) with (a + 4 * Z.of_nat (length l + i)) by lia.
    apply H. rewrite lookup_app_r by lia. by rewrite Nat.add_comm, Nat.add_sub.
Qed.
Lemma load32_arg a x l' l s : at_words m sk_area a (x :: l') -> sk_rep m l s -> load32 (lget l_mem s) a = x.
Proof.
  intros ([<- Ha] & _)%at_words_cons Hs. unfold load32.
  rewrite !(sk_load m l s) by (done || (rewrite <- (Z.add_0_r a) at 1; apply Ha; lia) || (apply Ha; lia)). done.
Qed.
Lemma va_arg32_wp a x l' l s Q : at_words m sk_area a (x :: l') -> sk_rep m l s -> 0 <= a -> a + 4 < W32 ->
  Q (x, a + 4) s -> wp (va_arg32 l_mem a) Q s.
Proof. intros Ha Hs H0 H1 HQ. unfold va_arg32. wp_step. erewrite load32_arg by done. by rewrite u32_small by lia. Qed.
Lemma va_arg64_wp a x y l' l s Q : at_words m sk_area a (x :: y :: l') -> sk_rep m l s -> 0 <= a -> a + 8 < W32 ->
  Q (x + W32 * y, a + 8) s -> wp (va_arg64 l_mem a) Q s.
Proof.
  intros Ha Hs H0 H1 HQ. unfold va_arg64, load64. wp_step. erewrite load32_arg by done. apply at_words_cons in Ha as [_ Ha].
  erewrite load32_arg by done. by rewrite u32_small by lia.
Qed.

(** ** Strings *)
Lemma cstr_sink p l out s : cstr m p l -> (forall i, 0 <= i <= Z.of_nat (length l) -> ~ sk_area (p + i)) -> sk_rep m out s ->
  cstr (lget l_mem s) p l.
Proof.
  intros [H1 H2 H3 H4] Ha Hs. split; [done| |done|].
  - intros i x Hi. pose proof (lookup_lt_Some _ _ _ Hi). rewrite (sk_load m out) by (done || (apply Ha; lia)). by apply H2.
  - by rewrite (sk_load m out) by (done || (apply Ha; lia)).
Qed.

Lemma pad_while_wp w c out Q l s : 0 <= c < 256 -> w < 2147483648 -> sk_rep m l s ->
  let pad := replicate (Z.to_nat w) c in
  room l (pad ++ out) -> (forall s', sk_rep m (l ++ pad) s' -> room (l ++ pad) out -> Q (Z.min 0 w) s') -> wp (pad_while putch w c) Q s.
Proof.
  cbv zeta. intros Hc Hw Hs Hr HQ. unfold pad_while. apply (wp_while_rounds _ (S (Z.to_nat w))); [|lia].
  remember (Z.to_nat w) as n eqn:En. revert l s w Hw En Hs Hr HQ.
  induction n as [|n IH]; intros l s w Hw En Hs Hr HQ; cbn [wp_rounds]; zcond; wp_step.
  - rewrite Z.min_r in HQ by lia. apply HQ; by rewrite ?app_nil_r.
  - eapply put_char_wp; [done|done|exact Hr|]. intros s' Hs' Hr'. wp_step.
    apply (IH (l ++ [c]) s' (w - 1)); [lia|lia|done|done|]. intros s2 Hs2 Hr2. rewrite <- app_assoc in Hs2, Hr2.
    replace (Z.min 0 (w - 1)) with (Z.min 0 w) by lia. by apply HQ.
Qed.

Lemma s8_mod x : 0 <= x < 256 -> s8 x mod 256 = x /\ (s8 x = 0 <-> x = 0).
Proof. intros Hx. unfold s8. destruct (Z.ltb_spec x 128); split; zdiv. Qed.

Lemma print_string_wp p fmt ap w str out Q l s : sk_rep m l s -> cstr m p str ->
  (forall i, 0 <= i <= Z.of_nat (length str) -> ~ sk_area (p + i)) -> Z.of_nat (length str) < 1073741824 ->
  Forall (fun c => 0 <= c < 256) str -> 0 <= w < 2147483600 ->
  let text := padded w 32 str in
  room l (text ++ out) -> (forall s', sk_rep m (l ++ text) s' -> room (l ++ text) out -> Q tt s') ->
  wp (print_string l_mem putch p (Conv fmt ap 32 (if w =? 0 then -1 else w) (-1) 0 0)) Q s.
Proof.
  cbv zeta. intros Hs Hc Ha Hlen Hb Hw Hr HQ. unfold print_string, padded in *. cbn [c_width c_padc c_precision c_altflag].
  set (pad := replicate (Z.to_nat w - length str) 32) in *. rewrite <- app_assoc in Hr.
  wp_step. eapply (wp_mono _ (fun w' s' => -1073741824 <= w' <= 0 /\ sk_rep m (l ++ pad) s' /\ room (l ++ pad) (str ++ out))).
  { subst pad. destruct (Z.eqb_spec w 0) as [->|Hw0]; zcond.
    { wp_step. simpl. rewrite app_nil_r. split_and!; [lia..|done|done]. }
    do 2 wp_step. eapply strnlen_wp; [by eapply cstr_sink|lia|change (u32 (-1)) with 4294967295; lia|]. rewrite (sk_lens m l) by done. wp_int.
    replace (Z.to_nat w - length str)%nat with (Z.to_nat (w + - Z.of_nat (length str))) in * by lia.
    eapply pad_while_wp; [lia|lia|done|exact Hr|]. intros s' Hs' Hr'. split_and!; [lia..|done|done]. }
  intros w' s1 (Hw' & Hs1 & Hr1). wp_step. rewrite app_assoc in HQ. clear Hr. revert Hs1 Hr1 HQ. generalize (l ++ pad) as l1. clear l pad s Hs w Hw.
  intros l1 Hs1 Hr1 HQ. apply (wp_while_rounds _ (S (length str))); [|lia].
  assert (Hw2 : -2147483648 + Z.of_nat (length str) < w' <= 0) by lia. clear Hw' Hlen.
  revert p w' l1 s1 Hc Ha Hs1 Hr1 HQ Hw2. induction str as [|x str IH]; intros p w' l1 s1 Hc Ha Hs1 Hr1 HQ Hw2; cbn [wp_rounds].
  - wp_step. eapply wp_of_eq; [eapply rd_eq; [done|]|].
    { rewrite <- (Z.add_0_r p). apply Ha. simpl. lia. }
    apply cstr_nil in Hc as ->. change (s8 0) with 0. zcond. wp_step. wp_step. eapply (pad_while_wp _ _ out); [lia|lia|done| |].
    + replace (Z.to_nat w') with 0%nat by lia. done.
    + replace (Z.to_nat w') with 0%nat by lia. intros s' Hs' Hr'. wp_step. by apply HQ.
  - pose proof (cs_range _ _ _ Hc) as Hrg. cbn [length] in Hrg. wp_step. eapply wp_of_eq; [eapply rd_eq; [done|]|].
    { rewrite <- (Z.add_0_r p). apply Ha. lia. }
    apply cstr_cons in Hc as (-> & Hx & Hc). apply Forall_cons in Hb as [Hbx Hb]. destruct (s8_mod x Hbx) as [Em E0].
    rewrite (proj2 (Z.eqb_neq (s8 x) 0)) by (intros E; apply Hx, E0, E).
    cbn [Z.eqb Z.leb Z.ltb Z.compare andb negb]. wp_step. apply (put_wp l1 s1 _ (str ++ out)); [done|rewrite Em; exact Hr1|]. rewrite Em. intros s2 Hs2 Hr2.
    cbn [length] in Hw2. wp_int. wp_step. apply (IH Hb _ _ (l1 ++ [x])); [done| |done|done| |lia].
    + rewrite u32_small by lia. intros i Hi. replace (p + 1 + i) with (p + (i + 1)) by lia. apply Ha. cbn [length]. lia.
    + intros s' Hs' Hr'. rewrite <- app_assoc in Hs', Hr'. by apply HQ.
Qed.

(** ** Conversions *)
Lemma u64_words n : u32 (u64 n) + W32 * (u64 n / W32) = u64 n.
Proof. unfold u32. pose proof (Z.div_mod (u64 n) W32 ltac:(done)). lia. Qed.
Lemma s64_u64 n : -9223372036854775808 <= n < 9223372036854775808 -> s64 (u64 n) = n.
Proof. intros Hn. unfold s64, u64, W64. rewrite Z.mod_mod by done. destruct (Z.ltb_spec (n mod 18446744073709551616) 9223372036854775808); zdiv. Qed.
Lemma s32_u32 n : -2147483648 <= n < 2147483648 -> s32 (u32 n) = n.
Proof. intros Hn. unfold s32, u32, W32. rewrite Z.mod_mod by done. destruct (Z.ltb_spec (n mod 4294967296) 2147483648); zdiv. Qed.
Lemma padded_width w c l : 0 <= w -> padded (if w =? 0 then -1 else w) c l = padded w c l.
Proof. intros Hw. by destruct (Z.eqb_spec w 0) as [->|?]. Qed.

Section number.
Context (k : nkind) (zero : bool) (w : Z) (ll : bool) (n : Z) (Hok : piece_ok (PNum k zero w ll n)) (fmt ap : Z) (rest : list Z).
Abbreviation x := (PNum k zero w ll n).
Abbreviation lflag := (if ll then 2 else 0).
Context (Hw : at_words m sk_area ap (piece_args x ++ rest)) (H0 : 0 <= ap) (H1 : ap + 4 * Z.of_nat (length (piece_args x)) < W32).

Lemma getuint_wp Q l s : k <> Signed -> sk_rep m l s -> Q (n, ap + 4 * Z.of_nat (length (piece_args x))) s -> wp (getuint l_mem ap lflag) Q s.
Proof.
  intros Hk Hs HQ. destruct Hok as [_ Hn]. unfold getuint. cbn [piece_args] in *. destruct ll; zcond; cbn [app length] in *.
  - eapply va_arg64_wp; [exact Hw|exact Hs|lia|lia|]. rewrite u64_words.
    unfold u64. rewrite Z.mod_small by (destruct k; done || lia). exact HQ.
  - eapply va_arg32_wp; [exact Hw|exact Hs|lia|lia|]. rewrite u32_small by (destruct k; done || (unfold is_u32, W32 in *; lia)). exact HQ.
Qed.
Lemma getint_wp Q l s : k = Signed -> sk_rep m l s -> Q (n, ap + 4 * Z.of_nat (length (piece_args x))) s -> wp (getint l_mem ap lflag) Q s.
Proof.
  intros Hk Hs HQ. destruct Hok as [_ Hn]. rewrite Hk in Hn. unfold getint. cbn [piece_args] in *. destruct ll; zcond; cbn [app length] in *.
  - wp_step. eapply va_arg64_wp; [exact Hw|exact Hs|lia|lia|]. wp_step. rewrite u64_words, s64_u64 by lia. exact HQ.
  - wp_step. eapply va_arg32_wp; [exact Hw|exact Hs|lia|lia|]. wp_step. rewrite s32_u32 by lia. exact HQ.
Qed.

End number.

Lemma convert_num_wp k zero w ll n fmt ap rest out Q l s : let x := PNum k zero w ll n in
  piece_ok x -> at_words m sk_area ap (piece_args x ++ rest) -> 0 <= ap -> ap + 4 * Z.of_nat (length (piece_args x)) < W32 -> sk_rep m l s -> room l (piece_out x ++ out) ->
  (forall s', sk_rep m (l ++ piece_out x) s' -> room (l ++ piece_out x) out -> Q (fmt, ap + 4 * Z.of_nat (length (piece_args x))) s') ->
  wp (convert l_mem putch null_str octal (kind_char k) (Conv fmt ap (if zero then 48 else 32) (if w =? 0 then -1 else w) (-1)
        (if ll then 2 else 0) 0)) Q s.
Proof.
  cbv zeta. intros Hok Hw H0 H1 Hs Hr HQ. pose proof Hok as [Hwd Hn]. unfold W64, is_u32, W32 in Hn.
  assert (Hpad : 0 <= (if zero then 48 else 32) < 256) by (destruct zero; lia).
  assert (Hww : -1 <= (if w =? 0 then -1 else w) < 2147483648) by (destruct (w =? 0); lia).
  unfold convert, print_hex. cbn [c_ap c_lflag c_width c_padc c_fmt piece_out] in Hr, HQ |- *.
  destruct (Z.ltb_spec n 0) as [Hneg|Hpos].
  - destruct k; [|destruct ll; lia..]. cbn [kind_char kind_base] in Hr, HQ |- *. zcond. wp_step. eapply (getint_wp Signed); [exact Hok|exact Hw|lia|exact H1|done|exact Hs|]. zcond.
    wp_step. wp_step. cbn [app] in Hr. apply (put_char_wp l s 45 (padded w (if zero then 48 else 32) (numeral 10 (Z.abs n)) ++ out)); [lia|done|exact Hr|].
    intros s1 Hs1 Hr1. wp_step. wp_step; [destruct ll; zbool; lia|]. rewrite <- (padded_width w) in Hr1 by lia. rewrite (Z.abs_neq n) in * by lia.
    eapply printnum_wp; [lia|unfold W64; destruct ll; lia|exact Hpad|exact Hww|exact Hs1|exact Hr1|].
    intros s2 Hs2 Hr2. wp_step. rewrite padded_width, <- app_assoc in Hs2, Hr2 by lia. by apply HQ.
  - rewrite (Z.abs_eq n) in * by lia. cbn [app] in Hr, HQ. rewrite <- (padded_width w) in Hr, HQ by lia.
    destruct k; cbn [kind_char kind_base] in Hr, HQ |- *; zcond; wp_step; [eapply (getint_wp Signed)|eapply (getuint_wp Unsigned)|eapply (getuint_wp Hex)]; (try first [exact Hok|exact Hw|exact H1|exact Hs|done]); zcond; wp_step;
    (eapply printnum_wp; [lia|unfold W64; destruct ll; lia|exact Hpad|exact Hww|exact Hs|exact Hr|]);
    intros s2 Hs2 Hr2; wp_step; by apply HQ.
Qed.

(** ** The whole format *)
Lemma format_at_cons A fmt ap x ps : format_at m A fmt ap (x :: ps) ->
  at_text m A fmt (piece_text x ++ format_text ps ++ [0]) /\ at_words m A ap (piece_args x ++ format_args ps) /\ piece_ok x /\
  (0 <= fmt /\ fmt + Z.of_nat (length (piece_text x)) + 1 < W32) /\ (0 <= ap /\ ap + 4 * Z.of_nat (length (piece_args x)) < W32) /\
  format_at m A (fmt + Z.of_nat (length (piece_text x))) (ap + 4 * Z.of_nat (length (piece_args x))) ps.
Proof.
  intros [Ht Ha Hs Hok [H0 H1] [H2 H3]]. apply Forall_cons in Hok as [Hok Hoks].
  unfold format_text, format_args in *. rewrite bind_cons, <- app_assoc in Ht. rewrite bind_cons in *. rewrite length_app in *.
  split_and!; [done|done|done|lia|lia|lia|lia|]. apply at_text_app in Ht as [_ Ht]. apply at_words_app in Ha as [_ Ha].
  split; [done|done| |done|unfold format_text; lia|unfold format_args; lia]. intros w p str Hin. apply (Hs w p str). by right.
Qed.

(** One round of the loop: a character, or an escape sequence. *)
Definition round (fmt ap : Z) : K St (Z * Z + unit) :=
  ch ← rd l_mem fmt;
  let fmt := u32 (fmt + 1) in
  if negb (ch =? 37) then
    if ch =? 0 then mret (inr tt) else putch ch ;; mret (inl (fmt, ap))
  else
    '(ch, c) ← while (reswitch l_mem) (Conv fmt ap 32 (-1) (-1) 0 0);
    r ← convert l_mem putch null_str octal ch c;
    mret (inl r).

Lemma round_escape_wp zero w ll x fmt ap rest Q l s : sk_rep m l s ->
  let text := 37 :: escape_fields zero w ll ++ [x] in
  at_text m sk_area fmt (text ++ rest) -> is_conversion x -> 0 <= w < 2147483600 -> 0 <= fmt -> fmt + Z.of_nat (length text) + 1 < W32 ->
  wp (convert l_mem putch null_str octal x
       (Conv (fmt + Z.of_nat (length text)) ap (if zero then 48 else 32) (if w =? 0 then -1 else w) (-1) (if ll then 2 else 0) 0))
     (fun r s' => Q (inl r) s') s ->
  wp (round fmt ap) Q s.
Proof.
  cbv zeta. intros Hs Ht Hx Hw H0 H1 HQ. cbn [app length] in *. rewrite length_app in H1, HQ. cbn [length] in H1, HQ.
  rewrite <- app_assoc in Ht. cbn [app] in Ht. unfold round. wp_step. eapply rd_text; [exact Ht|exact Hs|].
  apply at_text_cons in Ht as (_ & _ & Ht). zcond. rewrite u32_small by lia. wp_step.
  eapply escape_wp; [exact Hs|exact Ht|exact Hx|exact Hw|lia|lia|]. wp_step.
  replace (fmt + 1 + Z.of_nat (length (escape_fields zero w ll)) + 1) with (fmt + Z.of_nat (S (length (escape_fields zero w ll) + 1))) by lia.
  eapply wp_mono; [exact HQ|]. intros r s' HQ'. by wp_step.
Qed.

Lemma piece_wp x fmt ap ps out Q l s : format_at m sk_area fmt ap (x :: ps) -> sk_rep m l s -> room l (piece_out x ++ out) ->
  (forall s', sk_rep m (l ++ piece_out x) s' -> room (l ++ piece_out x) out ->
     Q (inl (fmt + Z.of_nat (length (piece_text x)), ap + 4 * Z.of_nat (length (piece_args x)))) s') ->
  wp (round fmt ap) Q s.
Proof.
  intros Hf Hs Hr HQ. pose proof Hf as (Ht & Ha & Hok & [H0 H1] & [H2 H3] & _)%format_at_cons. pose proof (fa_strings _ _ _ _ _ Hf) as Hstr.
  destruct x as [c| |c|w p str|k zero w ll n].
  - destruct Hok as [? ?]. unfold round. wp_step. eapply rd_text; [exact Ht|exact Hs|]. cbn [piece_text length] in *. zcond.
    rewrite u32_small by lia. wp_step. eapply put_char_wp; [lia|exact Hs|exact Hr|]. intros s' Hs' Hr'. wp_step.
    replace ap with (ap + 4 * Z.of_nat (length (piece_args (PText c)))) at 1 by (cbn; lia). by apply HQ.
  - eapply round_escape_wp; [exact Hs|exact Ht|by left|lia|lia|exact H1|].
    unfold convert. zcond. cbn [c_fmt c_ap]. wp_step. eapply put_char_wp; [lia|exact Hs|exact Hr|]. intros s' Hs' Hr'. wp_step.
    replace ap with (ap + 4 * Z.of_nat (length (piece_args PPercent))) at 1 by (cbn; lia). by apply HQ.
  - eapply round_escape_wp; [exact Hs|exact Ht|unfold is_conversion; lia|lia|lia|exact H1|].
    unfold convert. zcond. cbn [c_fmt c_ap]. wp_step. eapply va_arg32_wp; [exact Ha|exact Hs|lia|exact H3|]. rewrite s32_u32 by exact Hok.
    wp_step. eapply put_wp; [exact Hs|exact Hr|]. intros s' Hs' Hr'. wp_step. by apply HQ.
  - destruct Hok as (Hw & Hp & Hp0 & Hlen & Hb). destruct (Hstr w p str ltac:(by left)) as [Hc Hna].
    eapply round_escape_wp; [exact Hs|exact Ht|unfold is_conversion; lia|lia|lia|exact H1|].
    unfold convert. zcond. cbn [c_fmt c_ap]. wp_step. eapply va_arg32_wp; [exact Ha|exact Hs|lia|exact H3|]. zcond. wp_step.
    eapply print_string_wp; [exact Hs|exact Hc|exact Hna|exact Hlen|exact Hb|exact Hw|exact Hr|]. intros s' Hs' Hr'. wp_step. by apply HQ.
  - pose proof Hok as [Hw _]. eapply round_escape_wp; [exact Hs|exact Ht|unfold is_conversion; destruct k; cbn; lia|lia|lia|exact H1|].
    eapply convert_num_wp; [exact Hok|exact Ha|lia|exact H3|exact Hs|exact Hr|exact HQ].
Qed.

Lemma piece_text_length x : (1 <= length (piece_text x))%nat.
Proof. destruct x; cbn; lia. Qed.
Lemma format_text_length ps : (length ps <= length (format_text ps))%nat.
Proof.
  induction ps as [|x ps IH]; [done|]. unfold format_text in *. rewrite bind_cons, length_app. cbn [length].
  pose proof (piece_text_length x). lia.
Qed.

(** The output of a format is the concatenation of what its pieces print. *)
Lemma vprintfmt_wp fmt ap ps Q l s : format_at m sk_area fmt ap ps -> sk_rep m l s -> room l (format_out ps) ->
  (forall s', sk_rep m (l ++ format_out ps) s' -> Q tt s') -> wp (vprintfmt l_mem putch null_str octal fmt ap) Q s.
Proof.
  intros Hf Hs Hr HQ. unfold vprintfmt. apply (wp_while_rounds _ (S (length ps))).
  2: { pose proof (format_text_length ps). pose proof (fa_fmt _ _ _ _ _ Hf). unfold W32 in *. lia. }
  revert fmt ap l s Hf Hs Hr HQ. induction ps as [|x ps IH]; intros fmt ap l s Hf Hs Hr HQ.
  - cbn [wp_rounds]. wp_step. eapply rd_text; [exact (fa_text _ _ _ _ _ Hf)|exact Hs|]. zcond. wp_step. apply HQ. by rewrite app_nil_r.
  - unfold format_out in *. rewrite bind_cons in Hr, HQ. change (length (x :: ps)) with (S (length ps)).
    pose proof Hf as (_ & _ & _ & _ & _ & Hf')%format_at_cons. simpl wp_rounds.
    eapply piece_wp; [exact Hf|exact Hs|exact Hr|]. intros s' Hs' Hr'. eapply IH; [exact Hf'|exact Hs'|exact Hr'|].
    intros s2 Hs2. rewrite <- app_assoc in Hs2. by apply HQ.
Qed.
End print.

(** ** Formats in another memory *)
Section ext.
Context (m m' : mem) (A A' : Z -> Prop) (Hm : forall a, ~ A a -> load8 m' a = load8 m a) (HA : forall a, A' a -> A a).

Lemma at_text_ext a l : at_text m A a l -> at_text m' A' a l.
Proof. intros H i x Hi. destruct (H i x Hi) as [? Ha]. rewrite Hm by done. split; [done|]. intros Ha'. by apply Ha, HA. Qed.
Lemma at_strings_ext ps : at_strings m A ps -> at_strings m' A' ps.
Proof.
  intros H w p l Hin. destruct (H w p l Hin) as [[C1 C2 C3 C4] Ha]. split; [|intros i Hi Ha'; by apply (Ha i Hi), HA]. split; [done| |done|].
  - intros i x Hi. pose proof (lookup_lt_Some _ _ _ Hi). rewrite Hm; [by apply C2|apply Ha; lia].
  - rewrite Hm; [done|apply Ha; lia].
Qed.
Lemma format_at_ext fmt ap ps : format_at m A fmt ap ps -> format_at m' A' fmt ap ps.
Proof.
  intros [F1 F2 F3 F4 F5 F6]. split; [by apply at_text_ext| |by apply at_strings_ext|done|done|done].
  intros i x Hi. destruct (F2 i x Hi) as [<- Hx]. split; [|intros b Hb Ha'; by apply (Hx b Hb), HA].
  apply load32_ext. intros b Hb. replace b with (ap + 4 * Z.of_nat i + (b - (ap + 4 * Z.of_nat i))) by lia. apply Hm, Hx. lia.
Qed.
End ext.

(** ** Calls with arguments *)
Definition args_at (ap : Z) (n : nat) (a : Z) : Prop := ap <= a < ap + 4 * Z.of_nat n.

Lemma push_args_out args : forall a m b, ~ a <= b < a + 4 * Z.of_nat (length args) -> load8 (push_args a args m) b = load8 m b.
Proof.
  induction args as [|x args IH]; intros a m b Hb; [done|]. cbn [push_args length] in *. rewrite IH by lia. apply load8_store32_out. lia.
Qed.
Lemma push_args_in args : forall a m i x, Forall is_u32 args -> args !! i = Some x -> load32 (push_args a args m) (a + 4 * Z.of_nat i) = x.
Proof.
  induction args as [|y args IH]; intros a m i x Hu Hi; [done|]. apply Forall_cons in Hu as [Hy Hu]. cbn [push_args]. destruct i as [|i].
  - injection Hi as <-. rewrite Z.add_0_r. rewrite <- (load32_store32_same m a y Hy) at 2. apply load32_ext. intros b Hb. apply push_args_out. lia.
  - replace (a + 4 * Z.of_nat (S i)) with (a + 4 + 4 * Z.of_nat i) by lia. by apply IH.
Qed.
Lemma push_args_ok args : forall a m, mem_ok m -> mem_ok (push_args a args m).
Proof. induction args as [|x args IH]; intros a m Hm; [done|]. apply IH. by apply mem_ok_store32. Qed.
Lemma format_args_u32 ps : Forall piece_ok ps -> Forall is_u32 (format_args ps).
Proof.
  intros Hok. apply Forall_bind. eapply Forall_impl; [exact Hok|]. intros x Hx.
  destruct x as [| |c|w p l|k zero w [|] n]; cbn in *; repeat constructor; try apply u32_range; try apply Hx.
  - apply Z.div_pos; [|done]. apply Z.mod_pos_bound. done.
  - apply Z.div_lt_upper_bound; [done|]. apply (Z.mod_pos_bound n W64). done.
Qed.

(** A format whose arguments the caller is about to store. *)
Record literal (ap : Z) (m : mem) (A : Z -> Prop) (fmt : Z) (ps : list piece) : Prop := {
  li_text : at_text m A fmt (format_text ps ++ [0]);
  li_strings : at_strings m A ps;
  li_ok : Forall piece_ok ps;
  li_fmt : 0 <= fmt /\ fmt + Z.of_nat (length (format_text ps)) + 1 < W32;
  li_ap : 0 <= ap /\ ap + 4 * Z.of_nat (length (format_args ps)) < W32
}.
Lemma literal_pushed ap m A n fmt ps : (length (format_args ps) <= n)%nat -> literal ap m (fun a => A a \/ args_at ap n a) fmt ps ->
  (forall a, args_at ap n a -> ~ A a) -> format_at (push_args ap (format_args ps) m) A fmt ap ps.
Proof.
  intros Hn [H1 H2 H3 H4 H5] Hd. assert (Hout : forall b, ~ args_at ap n b -> load8 (push_args ap (format_args ps) m) b = load8 m b).
  { intros b Hb. apply push_args_out. unfold args_at in Hb. lia. }
  split; [| | |done|done|done].
  - eapply at_text_ext; [| |exact H1]; [intros; apply Hout; tauto|tauto].
  - intros i x Hi. pose proof (lookup_lt_Some _ _ _ Hi). split; [by apply push_args_in; [apply format_args_u32|]|].
    intros b Hb. apply Hd. unfold args_at. lia.
  - eapply at_strings_ext; [| |exact H2]; [intros; apply Hout; tauto|tauto].
Qed.

(** ** Printing to memory *)
Lemma wp_with_local {M T A} (t : T) (p : K (M * T) A) Q s :
  wp p (fun a s' => Q (a, s'.2) s'.1) (s, t) -> wp (with_local t p) Q s.
Proof. unfold wp, with_local. by destruct (p (s, t)) as [a [m' t']| | | |]. Qed.

Lemma store8_mod m p x : store8 m p (x mod 256) = store8 m p x.
Proof. unfold store8. by rewrite Z.mod_mod. Qed.
Lemma take_snoc_ge {A} n (l : list A) x : (n <= length l)%nat -> take n (l ++ [x]) = take n l.
Proof. intros. rewrite take_app_le by lia. done. Qed.

Section sprint.
Context (buf ebuf mx : Z) (H0 : 0 <= buf) (H1 : buf <= ebuf) (H2 : ebuf < W32) (Hmx : 0 <= mx < 2147483648).
Abbreviation cap := (Z.to_nat (ebuf - buf)).

(** The buffer holds the characters printed so far, as far as they fit. *)
Definition sprint_rep (m : mem) (l : list Z) (s : mem * sprintbuf) : Prop :=
  s = (write_bytes m buf (take cap l), Sprintbuf (buf + Z.of_nat (length (take cap l))) ebuf (Z.of_nat (length l))) /\
  Forall (fun c => 0 <= c < 256) l /\ Z.of_nat (length l) <= mx.

Program Definition sprint_sink : sink l_fst sprintputch := {|
  sk_rep := sprint_rep;
  sk_area a := buf <= a < buf + Z.min (ebuf - buf) mx;
  sk_char _ := True;
  sk_max := mx
|}.
Next Obligation.
  intros m l s a (-> & Hb & Hl) Ha. cbn [lget l_fst fst]. rewrite load8_write_bytes by (by apply Forall_take).
  rewrite decide_False; [done|]. rewrite length_take. lia.
Qed.
Next Obligation. by intros m l s (-> & _ & _). Qed.
Next Obligation.
  intros m l s c (-> & Hb & Hl) _ Hlt. unfold sprintputch. do 3 wp_step. cbn [lget l_snd snd sb_cnt sb_buf sb_ebuf]. wp_int.
  assert (Hb' : Forall (fun c => 0 <= c < 256) (l ++ [c mod 256])) by (apply Forall_app_2; [done|]; repeat constructor; apply Z.mod_pos_bound; lia).
  rewrite length_take. destruct (Z.ltb_spec (buf + Z.of_nat (cap `min` length l)) ebuf) as [Hin|Hout]; unfold st8.
  - do 5 wp_step. cbn. split; [|split; [done|rewrite length_app; cbn; lia]].
    rewrite (take_ge l), (take_ge (l ++ _)) by (rewrite ?length_app; cbn; lia). rewrite write_bytes_snoc, store8_mod, length_app.
    rewrite u32_small by lia. cbn [length]. f_equal; [f_equal; lia|f_equal; lia].
  - do 2 wp_step. cbn. split; [|split; [done|rewrite length_app; cbn; lia]]. rewrite take_snoc_ge by lia. rewrite length_take, length_app. cbn.
    f_equal. f_equal; lia.
Qed.

Context (m : mem) (fmt ap null_str : Z) (ps : list piece).
Context (Hf : format_at m (fun a => buf <= a < buf + Z.min (ebuf - buf) mx) fmt ap ps) (Hout : Z.of_nat (length (format_out ps)) <= mx).

Lemma vsprint_wp : wp (vsprint null_str buf ebuf fmt ap)
  (fun r m' => r = Z.of_nat (length (format_out ps)) /\ m' = write_bytes m buf (take cap (format_out ps) ++ [0])) m.
Proof.
  unfold vsprint, user_vprintfmt. wp_step. apply wp_with_local. eapply (vprintfmt_wp l_fst sprintputch (sink0 := sprint_sink) _ _ m _ _ ps _ []).
  - exact Hf.
  - split_and!; [|constructor|cbn; lia]. rewrite take_nil. cbn. by rewrite Z.add_0_r.
  - split; [by apply Forall_true|]. cbn. lia.
  - intros s' (-> & Hb & Hl). cbn [app snd fst sb_buf sb_cnt] in *. unfold st8. do 3 wp_step. split; [done|]. by rewrite write_bytes_snoc.
Qed.
End sprint.

Lemma load8_write_outside l : forall m p a, ~ p <= a < p + Z.of_nat (length l) -> load8 (write_bytes m p l) a = load8 m a.
Proof.
  induction l as [|x l IH]; intros m p a Ha; [done|]. cbn [write_bytes length] in *. rewrite IH by lia.
  unfold load8, store8. by rewrite lookup_total_insert_ne by lia.
Qed.


(** A format with a number and a string, in memory. *)
Definition demo_pieces : list piece := [PText 110; PText 61; PNum Signed true 4 false (-42); PText 32; PStr 0 400 [72; 105]].
Definition demo_fmt : mem :=
  write_bytes (store32 (store32 (write_bytes ∅ 100 (format_text demo_pieces ++ [0])) 200 (u32 (-42))) 204 400) 400 [72; 105; 0].
Lemma demo_cases {A} (l : list A) (P : nat -> A -> Prop) : (fix all i l := match l with [] => True | x :: l => P i x /\ all (S i) l end) O l ->
  forall i x, l !! i = Some x -> P i x.
Proof.
  enough (H : forall l j, (fix all i l := match l with [] => True | x :: l => P i x /\ all (S i) l end) j l ->
    forall i x, l !! i = Some x -> P (j + i)%nat x) by apply (H l O).
  clear l. induction l as [|y l IH]; intros j Hl i x Hi; [done|]. destruct Hl as [H1 H2]. destruct i as [|i].
  - injection Hi as <-. by rewrite Nat.add_0_r.
  - rewrite Nat.add_succ_r. by apply (IH (S j) H2).
Qed.
Lemma demo_format : format_at demo_fmt (fun a => 300 <= a < 320) 100 200 demo_pieces.
Proof.
  split.
  - refine (demo_cases _ _ _). vm_compute format_text. cbn [app]. repeat (split; [split; [reflexivity|lia]|]). exact I.
  - refine (demo_cases _ _ _). vm_compute format_args. repeat (split; [split; [reflexivity|lia]|]). exact I.
  - intros w p l Hin. apply list_elem_of_In in Hin. cbn in Hin. destruct_or? Hin; try discriminate Hin; try done.
    injection Hin as <- <- <-. split; [|cbn; lia]. split; [cbn; unfold W32; lia| |set_solver by lia|reflexivity].
    refine (demo_cases _ _ _). repeat (split; [reflexivity|]). exact I.
  - unfold demo_pieces. repeat constructor; cbn; unfold is_u32, W32; try lia.
  - vm_compute. split; [discriminate|reflexivity].
  - vm_compute. split; [discriminate|reflexivity].
Qed.


(** ** atoi reads what %d prints *)
Definition decimal (n : Z) : list Z := (if n <? 0 then [45] else []) ++ numeral 10 (Z.abs n).

Lemma decimal_bytes n : -2147483648 < n < 2147483648 -> Forall (fun c => 0 <= c < 256) (decimal n ++ [0]).
Proof.
  intros Hn. unfold decimal. assert (Forall (fun c => 0 <= c < 256) (numeral 10 (Z.abs n))).
  { eapply Forall_impl; [apply numeral10_digits; unfold W64; lia|]. cbn. lia. }
  rewrite !Forall_app, Forall_singleton. split; [split; [|done]|lia]. destruct (n <? 0); [|constructor]. apply Forall_singleton. lia.
Qed.
Lemma ld_text m a x l Q : at_text m (fun _ => False) a (x :: l) -> Q x m -> wp (ld a) Q m.
Proof. intros (Hx & _)%at_text_cons HQ. unfold ld. wp_step. by rewrite Hx. Qed.

Lemma atoi_digits_wp m buf ds loc acc Q : at_text m (fun _ => False) (buf + loc) (ds ++ [0]) -> Forall (fun c => 48 <= c <= 57) ds ->
  0 <= acc -> foldl (fun a c => a * 10 + digit_value c) acc ds < 2147483648 -> 0 <= loc -> Z.of_nat (length ds) < 2147480000 ->
  loc + Z.of_nat (length ds) < 2147483648 -> 0 <= buf -> buf + loc + Z.of_nat (length ds) < W32 ->
  Q (foldl (fun a c => a * 10 + digit_value c) acc ds, loc + Z.of_nat (length ds)) m ->
  wp (while (fun '(acc, loc) =>
    c ← ld (u32 (buf + loc));
    let c := s8 c in
    if (48 <=? c) && (c <=? 57) then
      acc ← int_mul acc 10;
      acc ← int_add acc (c - 48);
      loc ← int_add loc 1;
      mret (inl (acc, loc))
    else mret (inr (acc, loc))) (acc, loc)) Q m.
Proof.
  intros Ht Hd Ha Hv Hl Hlen Hloc Hb Hw HQ. apply (wp_while_rounds _ (S (length ds))); [|lia].
  revert acc loc Ht Ha Hv Hl Hloc Hw HQ. clear Hlen.
  induction ds as [|d ds IH]; intros acc loc Ht Ha Hv Hl Hloc Hw HQ; cbn [wp_rounds length] in Hloc, Hw, HQ |- *; rewrite u32_small by (unfold W32 in *; lia); wp_step;
    (eapply ld_text; [exact Ht|]).
  - change (s8 0) with 0. zcond. wp_step. rewrite Z.add_0_r in HQ. exact HQ.
  - apply Forall_cons in Hd as [Hd Hds]. cbn [foldl] in *. rewrite s8_small by lia.
    assert (Hdv : digit_value d = d - 48) by (unfold digit_value; zbool; lia). rewrite Hdv in *.
    pose proof (foldl_digits_mono ds (acc * 10 + (d - 48)) Hds ltac:(lia)) as Hm.
    rewrite (proj2 (Z.leb_le 48 d)), (proj2 (Z.leb_le d 57)) by lia. cbn [andb]. do 3 wp_int. wp_step. apply IH; [done| |lia|done|lia|lia|lia|].
    + apply at_text_cons in Ht as (_ & _ & Ht). by rewrite Z.add_assoc.
    + by replace (loc + 1 + Z.of_nat (length ds)) with (loc + Z.of_nat (S (length ds))) by lia.
Qed.

Lemma atoi_wp m buf i n Q : -2147483648 < n < 2147483648 -> at_text m (fun _ => False) buf (decimal n ++ [0]) ->
  0 <= buf -> buf + 16 < W32 -> Q (Z.of_nat (length (decimal n))) (store32 m i (u32 n)) -> wp (atoi buf i) Q m.
Proof.
  intros Hn Ht Hb Hb16 HQ. assert (Hn64 : 0 <= Z.abs n < W64) by (unfold W64; lia).
  pose proof (numeral_rec_short 64 10 (Z.abs n) 9 ltac:(lia) ltac:(cbn; lia)) as Hlen. fold (numeral 10 (Z.abs n)) in Hlen.
  pose proof (numeral10_digits (Z.abs n) Hn64) as Hds. pose proof (numeral_value 10 (Z.abs n) ltac:(lia) Hn64) as Hv. unfold value in Hv.
  destruct (numeral_head 10 (Z.abs n) ltac:(lia) Hn64) as (d & ds & Ed & _). unfold decimal in *.
  assert (Hd : 48 <= d <= 57) by (rewrite Ed in Hds; by apply Forall_inv in Hds).
  assert (Hlen0 : (0 < length (numeral 10 (Z.abs n)))%nat) by (rewrite Ed; cbn; lia).
  unfold atoi. wp_step. destruct (Z.ltb_spec n 0) as [Hneg|Hpos]; cbn [app length] in *.
  - eapply ld_text; [exact Ht|]. apply at_text_cons in Ht as (_ & _ & Ht). zcond. wp_step.
    eapply atoi_digits_wp; [exact Ht|exact Hds|lia|lia|lia|lia|lia|lia|unfold W32 in *; lia|]. rewrite Hv. zcond. wp_step. wp_step. wp_step.
    replace (- Z.abs n) with n by lia. by replace (1 + Z.of_nat (length (numeral 10 (Z.abs n)))) with (Z.of_nat (S (length (numeral 10 (Z.abs n))))) by lia.
  - eapply ld_text; [by rewrite Ed in Ht|]. zcond. wp_step. rewrite <- (Z.add_0_r buf) in Ht.
    eapply atoi_digits_wp; [exact Ht|exact Hds|lia|lia|lia|lia|lia|lia|unfold W32 in *; lia|]. rewrite Hv. zcond. wp_step. wp_step. wp_step.
    replace (Z.abs n) with n in * by lia. exact HQ.
Qed.

(** C31: atoi reads back what sprintf("%d") prints: for -2^31 < n < 2^31 it
    returns the number of characters and stores n. *)
Theorem sprintf_atoi_roundtrip m null_str buf fmt ap i n : -2147483648 < n < 2147483648 -> 0 <= buf -> buf + 16 < W32 ->
  format_at m (fun a => buf <= a < buf + 16) fmt ap [PNum Signed false 0 false n] ->
  wp (r ← sprintf null_str buf fmt ap; r' ← atoi buf i; mret (r, r'))
     (fun '(r, r') m' => r' = r /\ s32 (load32 m' i) = n) m.
Proof.
  intros Hn Hb Hb16 Hf. set (ps := [PNum Signed false 0 false n]) in *.
  assert (Eo : format_out ps = decimal n) by (unfold format_out; cbn; by rewrite app_nil_r).
  assert (Hlen : (length (decimal n) <= 11)%nat).
  { pose proof (numeral_rec_short 64 10 (Z.abs n) 9 ltac:(lia) ltac:(cbn; lia)). unfold decimal. rewrite length_app.
    unfold numeral. destruct (n <? 0); cbn [length]; lia. }
  unfold sprintf, vsprintf. wp_step. eapply wp_mono; [apply (vsprint_wp buf 4294967295 (Z.of_nat (length (format_out ps))) Hb ltac:(unfold W32 in *; lia) ltac:(done) ltac:(rewrite Eo; lia)
     m fmt ap null_str ps); [|lia]|].
  - rewrite Eo. eapply format_at_ext; [| |exact Hf]; [done|cbn; lia].
  - intros r m' [-> ->]. rewrite Eo. rewrite take_ge by (unfold W32 in *; lia). wp_step. apply (atoi_wp _ _ _ n); [done| |done|done|].
    + intros j x Hj. split; [|tauto]. pose proof (lookup_lt_Some _ _ _ Hj) as Hlt. rewrite load8_write_bytes by apply decimal_bytes, Hn.
      rewrite decide_True by lia. apply list_lookup_total_correct. by replace (Z.to_nat (buf + Z.of_nat j - buf)) with j by lia.
    + wp_step. split; [done|]. rewrite load32_store32_same by apply u32_range. by apply s32_u32; lia.
Qed.

Definition demo_int : mem := store32 (write_bytes ∅ 100 [37; 100; 0]) 200 (u32 (-2147483647)).
Lemma demo_int_format : format_at demo_int (fun a => 300 <= a < 316) 100 200 [PNum Signed false 0 false (-2147483647)].
Proof.
  split.
  - refine (demo_cases _ _ _). vm_compute format_text. cbn [app]. repeat (split; [split; [reflexivity|lia]|]). exact I.
  - refine (demo_cases _ _ _). vm_compute format_args. repeat (split; [split; [reflexivity|lia]|]). exact I.
  - intros w p l Hin. apply list_elem_of_singleton in Hin. discriminate.
  - repeat constructor; cbn; lia.
  - vm_compute. split; [discriminate|reflexivity].
  - vm_compute. split; [discriminate|reflexivity].
Qed.
Lemma sprintf_atoi_roundtrip_witness :
  wp (r ← sprintf 0 300 100 200; r' ← atoi 300 400; mret (r, r'))
     (fun '(r, r') m' => r' = r /\ s32 (load32 m' 400) = -2147483647) demo_int.
Proof.
  apply (sprintf_atoi_roundtrip demo_int 0 300 100 200 400 (-2147483647)); [lia|lia|unfold W32; lia|exact demo_int_format].
Defined.
