(* ===== verification/Serial.v ===== *)
(** * The serial line (kern/dev/serial)

    The chip behind COM1 is a 16550: a receiver with the bytes that have
    arrived, a transmitter with a queue, and the registers that configure
    it.  Time passes with every access of a port; the byte at the head of
    the queue leaves it after [u_rate] more accesses.  serial_intr is in
    Console.v, since it is a use of cons_intr. *)

From stdpp Require Import base gmap list numbers.
From S2P Require Import Prelude.

Definition COM_RX : Z := 0.
Definition COM_TX : Z := 0.
Definition COM_DLL : Z := 0.
Definition COM_DLM : Z := 1.
Definition COM_IER : Z := 1.
Definition COM_IIR : Z := 2.
Definition COM_FCR : Z := 2.
Definition COM_LCR : Z := 3.
Definition COM_LCR_DLAB : Z := 128.
Definition COM_LCR_WLEN8 : Z := 3.
Definition COM_MCR : Z := 4.
Definition COM_LSR : Z := 5.
Definition COM_LSR_DATA : Z := 1.
Definition COM_LSR_TXRDY : Z := 32.

(** ** The chip *)
Record uart : Type := Uart {
  u_present : bool;      (* is there a chip at COM1 *)
  u_rate : Z;
  u_rx : list Z;         (* received, not yet read *)
  u_fifo : list Z;       (* to be sent *)
  u_wait : Z;            (* accesses until the head of the queue is sent *)
  u_line : list Z;       (* sent *)
  u_regs : gmap Z Z;     (* IER, FCR, LCR, MCR by their offset *)
  u_div : gmap Z Z       (* the divisor latch *)
}.
Definition upd_rx (x : list Z) (u : uart) : uart :=
  Uart (u_present u) (u_rate u) x (u_fifo u) (u_wait u) (u_line u) (u_regs u) (u_div u).
Definition upd_tx (f : list Z) (w : Z) (l : list Z) (u : uart) : uart :=
  Uart (u_present u) (u_rate u) (u_rx u) f w l (u_regs u) (u_div u).
Definition upd_regs (r d : gmap Z Z) (u : uart) : uart :=
  Uart (u_present u) (u_rate u) (u_rx u) (u_fifo u) (u_wait u) (u_line u) r d.

Definition tick (u : uart) : uart :=
  match u_fifo u with
  | [] => u
  | c :: f => if u_wait u =? 0 then upd_tx f (u_rate u) (u_line u ++ [c]) u
              else upd_tx (c :: f) (u_wait u - 1) (u_line u) u
  end.
Definition dlab (u : uart) : bool := Z.testbit (u_regs u !!! COM_LCR) 7.
(** The queue holds 16 bytes when it is enabled in the FCR. *)
Definition fifo_size (u : uart) : Z := if Z.testbit (u_regs u !!! COM_FCR) 0 then 16 else 1.

Definition com_status (u : uart) : Z :=
  (if bool_decide (u_rx u = []) then 0 else COM_LSR_DATA) + (if bool_decide (u_fifo u = []) then COM_LSR_TXRDY else 0).
(** inb(COM1 + off) *)
Definition com_in (off : Z) : K uart Z :=
  modify tick ;;
  u ← get;
  if negb (u_present u) then mret 255
  else if off =? COM_LSR then mret (com_status u)
  else if off =? COM_RX then
    if dlab u then mret (u_div u !!! COM_DLL)
    else match u_rx u with
         | [] => mret 0
         | c :: l => put (upd_rx l u) ;; mret c
         end
  else mret (u_regs u !!! off).
(** outb(COM1 + off, v) *)
Definition com_out (off v : Z) : K uart unit :=
  modify tick ;;
  u ← get;
  let v := v mod 256 in
  if negb (u_present u) then mret tt
  else if (off <=? COM_DLM) && dlab u then put (upd_regs (u_regs u) (<[off := v]> (u_div u)) u)
  else if off =? COM_TX then
    if Z.of_nat (length (u_fifo u)) <? fifo_size u then
      put (upd_tx (u_fifo u ++ [v]) (if bool_decide (u_fifo u = []) then u_rate u else u_wait u) (u_line u) u)
    else mret tt
  else
    let u := if (off =? COM_FCR) && Z.testbit v 1 then upd_rx [] u else u in
    let u := if (off =? COM_FCR) && Z.testbit v 2 then upd_tx [] (u_wait u) (u_line u) u else u in
    put (upd_regs (<[off := v]> (u_regs u)) (u_div u) u).

(** ** The driver *)
Record serial : Type := Serial { su : uart; serial_exists : bool }.
Definition l_su : lens serial uart := Lens su (fun u s => Serial u (serial_exists s)).

(** inb(0x84), four times *)
Definition delay : K uart unit :=
  modify tick ;; modify tick ;; modify tick ;; modify tick.

Definition serial_proc_data : K serial Z :=
  lsr ← zoom l_su (com_in COM_LSR);
  if negb (negb (Z.land lsr COM_LSR_DATA =? 0)) then mret (-1)
  else zoom l_su (com_in COM_RX).

Definition serial_reformatnewline (c : Z) : K uart Z :=
  if c =? 10 then
    com_out COM_TX 13 ;;
    com_out COM_TX 10 ;;
    mret 1
  else mret 0.

Definition serial_wait : K uart unit :=
  while (fun i =>
    lsr ← com_in COM_LSR;
    if (Z.land lsr COM_LSR_TXRDY =? 0) && (i <? 12800) then delay ;; mret (inl (i + 1))
    else mret (inr tt)) 0.

Definition serial_putc (c : Z) : K serial unit :=
  s ← get;
  if negb (serial_exists s) then mret tt
  else
    zoom l_su (
      serial_wait ;;
      r ← serial_reformatnewline c;
      if r =? 0 then com_out COM_TX c else mret tt).

Definition serial_init : K serial unit :=
  zoom l_su (
    com_out COM_IER 0 ;;
    com_out COM_LCR COM_LCR_DLAB ;;
    com_out COM_DLL (Z.land 1 255) ;;
    com_out COM_DLM (Z.shiftr 1 8) ;;
    com_out COM_LCR (Z.land COM_LCR_WLEN8 (Z.lnot COM_LCR_DLAB)) ;;
    com_out COM_FCR 199 ;;
    com_out COM_MCR 11) ;;
  lsr ← zoom l_su (com_in COM_LSR);
  modify (fun s => Serial (su s) (negb (lsr =? 255))) ;;
  zoom l_su (com_in COM_IIR) ;;
  zoom l_su (com_in COM_RX) ;;
  mret tt.

(** ** What goes over the line *)

(** The bytes accepted so far, in the order in which they are sent. *)
Definition sent (u : uart) : list Z := u_line u ++ u_fifo u.
Definition crlf (c : Z) : list Z := if c =? 10 then [13; 10] else [c mod 256].
(** The accesses until the queue is empty. *)
Definition busy (u : uart) : Z :=
  match u_fifo u with [] => 0 | _ :: f => u_wait u + 1 + Z.of_nat (length f) * (u_rate u + 1) end.

(** The line as the driver uses it: configured for eight data bits with the
    queue on, at most two bytes in it, and fast enough for the driver's
    patience. *)
Record line_ok (u : uart) : Prop := {
  lo_present : u_present u = true;
  lo_dlab : dlab u = false;
  lo_fifo : fifo_size u = 16;
  lo_rate : 0 <= u_rate u < 32000;
  lo_wait : 0 <= u_wait u <= u_rate u;
  lo_two : (length (u_fifo u) <= 2)%nat
}.

Lemma tick_ok u : line_ok u -> line_ok (tick u) /\ sent (tick u) = sent u /\ busy (tick u) = Z.max 0 (busy u - 1) /\
  u_rate (tick u) = u_rate u /\ u_rx (tick u) = u_rx u.
Proof.
  intros [H1 H2 H3 H4 H5 H6]. unfold tick, sent, busy. destruct (u_fifo u) as [|c f] eqn:Ef.
  - rewrite Ef. split; [by constructor; rewrite ?Ef|]. split_and!; done.
  - cbn [length] in H6. destruct (Z.eqb_spec (u_wait u) 0) as [E|E]; cbn; (split; [constructor; cbn; done || lia|]); split_and!; try done.
    + by rewrite <- app_assoc.
    + destruct f as [|c' f]; cbn [length]; lia.
    + lia.
Qed.
Lemma busy_zero u : line_ok u -> busy u = 0 <-> u_fifo u = [].
Proof. intros [H1 H2 H3 H4 H5 H6]. unfold busy. destruct (u_fifo u); [done|]. split; [nia|done]. Qed.
Lemma busy_bound u : line_ok u -> 0 <= busy u <= 64000.
Proof.
  intros [H1 H2 H3 H4 H5 H6]. unfold busy. destruct (u_fifo u) as [|c [|c' f]]; cbn [length] in *; [lia|lia|].
  replace (length f) with O in * by lia. lia.
Qed.
(** Time has passed: nothing received, nothing new to send. *)
Definition waited (u u' : uart) : Prop := line_ok u' /\ sent u' = sent u /\ u_rx u' = u_rx u.
Lemma waited_tick u u' : waited u u' -> waited u (tick u') /\ busy (tick u') = Z.max 0 (busy u' - 1).
Proof. intros (H & E1 & E2). destruct (tick_ok u' H) as (H' & E1' & Eb & _ & E2'). split; [|done]. split_and!; congruence. Qed.

Lemma com_status_txrdy u : (Z.land (com_status u) COM_LSR_TXRDY =? 0) = negb (bool_decide (u_fifo u = [])).
Proof. unfold com_status. do 2 case_bool_decide; reflexivity. Qed.
Lemma com_status_data u : (Z.land (com_status u) COM_LSR_DATA =? 0) = bool_decide (u_rx u = []).
Proof. unfold com_status. do 2 case_bool_decide; reflexivity. Qed.

Lemma com_lsr_wp u u0 Q : waited u0 u ->
  (forall u', waited u0 u' -> busy u' = Z.max 0 (busy u - 1) -> Q (com_status u') u') -> wp (com_in COM_LSR) Q u.
Proof.
  intros Hw HQ. apply waited_tick in Hw as [Hw Eb]. unfold com_in. do 4 wp_step. rewrite (lo_present _ (proj1 Hw)). by apply HQ.
Qed.

(** The queue empties before the driver loses patience. *)
Lemma serial_wait_wp u Q : line_ok u -> (forall u', waited u u' -> u_fifo u' = [] -> Q tt u') -> wp serial_wait Q u.
Proof.
  intros Hu HQ. unfold serial_wait.
  apply (wp_while _ (fun i u' => waited u u' /\ 0 <= i <= 12800 /\ busy u' <= 64000 - 5 * i) (fun i _ => 12801 - i)).
  - intros i u1 (Hw & Hi & Hb) _. wp_step. eapply com_lsr_wp; [exact Hw|]. intros u2 Hw2 Eb2. rewrite com_status_txrdy.
    case_bool_decide as Hf; cbn [negb andb].
    + wp_step. by apply HQ.
    + pose proof (busy_bound u2 (proj1 Hw2)) as Hb2. assert (busy u2 <> 0) by (by rewrite busy_zero by apply Hw2). zbool.
      wp_step. unfold delay. repeat wp_step. apply waited_tick in Hw2 as [Hw2 E1].
      do 3 (apply waited_tick in Hw2 as [Hw2 ?]). split; [split; [done|lia]|lia].
  - split; [split; [done|by split]|]. pose proof (busy_bound u Hu). lia.
  - lia.
Qed.

Lemma com_tx_wp u v Q : line_ok u -> (length (u_fifo u) <= 1)%nat ->
  (forall u', line_ok u' -> sent u' = sent u ++ [v mod 256] -> u_rx u' = u_rx u -> (length (u_fifo u') <= S (length (u_fifo u)))%nat -> Q tt u') ->
  wp (com_out COM_TX v) Q u.
Proof.
  intros Hu Hl HQ. destruct (tick_ok u Hu) as ([H1 H2 H3 H4 H5 H6] & Es & _ & _ & Er).
  assert (Hl' : (length (u_fifo (tick u)) <= length (u_fifo u))%nat).
  { unfold tick. destruct (u_fifo u) eqn:Ef; [by rewrite Ef|]. destruct (_ =? _); cbn; lia. }
  unfold com_out. do 4 wp_step. rewrite H1, H2, H3, andb_false_r. cbn [negb]. change (COM_TX =? COM_TX) with true. cbv iota. zbool. wp_step. apply HQ.
  - constructor; cbn; try done. { case_bool_decide; lia. } rewrite length_app. cbn. lia.
  - unfold sent in *. cbn. by rewrite app_assoc, Es.
  - done.
  - cbn. rewrite length_app. cbn. lia.
Qed.

Lemma serial_putc_wp s c Q : line_ok (su s) -> serial_exists s = true ->
  (forall u', line_ok u' -> sent u' = sent (su s) ++ crlf c -> u_rx u' = u_rx (su s) -> Q tt (Serial u' true)) -> wp (serial_putc c) Q s.
Proof.
  destruct s as [u e]. cbn. intros Hu -> HQ. unfold serial_putc. do 2 wp_step. cbn [negb serial_exists]. do 2 wp_step. cbn [lget l_su su].
  apply serial_wait_wp; [done|]. intros u1 (Hu1 & Es & Er) Hf. unfold serial_reformatnewline, crlf in *. wp_step.
  destruct (Z.eqb_spec c 10) as [->|Hc]; wp_step.
  - eapply com_tx_wp; [done|by rewrite Hf; cbn; lia|]. intros u2 Hu2 Es2 Er2 Hl2. rewrite Hf in Hl2. wp_step.
    eapply com_tx_wp; [done|done|]. intros u3 Hu3 Es3 Er3 _. wp_step. zbool. wp_step. apply HQ; [done| |congruence].
    rewrite Es3, Es2, Es, <- app_assoc. done.
  - zbool. eapply com_tx_wp; [done|by rewrite Hf; cbn; lia|]. intros u2 Hu2 Es2 Er2 _. apply HQ; [done| |congruence]. by rewrite Es2, Es.
Qed.

(** Without a chip nothing is done. *)
Lemma serial_putc_absent s c : serial_exists s = false -> serial_putc c s = Ok tt s.
Proof. intros E. unfold serial_putc. krun. by rewrite E. Qed.

(** What a configuration write leaves alone. *)
Definition conf (rate : Z) (R D : gmap Z Z) (u : uart) : Prop :=
  u_present u = true /\ u_rate u = rate /\ u_regs u = R /\ u_div u = D /\ 0 <= u_wait u <= rate.
Lemma conf_tick rate R D u : 0 <= rate -> conf rate R D u -> conf rate R D (tick u) /\
  (u_fifo u = [] -> u_fifo (tick u) = []) /\ u_rx (tick u) = u_rx u.
Proof.
  intros Hr (H1 & H2 & H3 & H4 & H5). unfold tick. destruct (u_fifo u) eqn:Ef; [by split_and!|].
  destruct (Z.eqb_spec (u_wait u) 0); cbn; split_and!; try done; unfold conf; cbn; split_and!; done || lia.
Qed.
Lemma com_reg_wp rate R D u off v Q : 0 <= rate -> conf rate R D u -> 0 <= v < 256 -> 0 <= off -> (off = 0 -> Z.testbit (R !!! COM_LCR) 7 = true) ->
  (forall u', conf rate (if (off <=? 1) && Z.testbit (R !!! COM_LCR) 7 then R else <[off := v]> R)
                (if (off <=? 1) && Z.testbit (R !!! COM_LCR) 7 then <[off := v]> D else D) u' ->
     ((off = COM_FCR /\ Z.testbit v 1 = true /\ Z.testbit v 2 = true) \/ (u_fifo u = [] /\ u_rx u = []) -> u_fifo u' = [] /\ u_rx u' = []) -> Q tt u') ->
  wp (com_out off v) Q u.
Proof.
  intros Hr Hc Hv Ho Hd HQ. destruct (conf_tick _ _ _ _ Hr Hc) as ((H1 & H2 & H3 & H4 & H5) & Hf & Hx). unfold com_out. do 4 wp_step.
  rewrite Z.mod_small by lia. rewrite H1. cbn [negb]. unfold dlab in *. rewrite H3. change COM_DLM with 1. change COM_TX with 0.
  destruct ((off <=? 1) && Z.testbit (R !!! COM_LCR) 7) eqn:E.
  - wp_step. apply HQ; [unfold conf; cbn; rewrite H4; done|]. cbn. rewrite Hx. intros [(-> & _)|[? ?]]; [discriminate|]. split; [by apply Hf|done].
  - assert (off <> 0) by (intros ->; by rewrite Hd in E). zbool. wp_step. destruct (Z.eqb_spec off COM_FCR) as [->|Hn]; cbn [andb].
    + apply HQ; [destruct (Z.testbit v 1), (Z.testbit v 2); unfold conf; cbn; by rewrite H3|].
      destruct (Z.testbit v 1), (Z.testbit v 2); cbn; rewrite ?Hx; intros [(_ & ? & ?)|[? ?]]; try discriminate; split; try done; by apply Hf.
    + apply HQ; [unfold conf; cbn; by rewrite H3|]. cbn. rewrite Hx. intros [(? & _)|[? ?]]; [done|]. split; [by apply Hf|done].
Qed.

Lemma com_idle_wp rate R D u off Q : 0 <= rate -> conf rate R D u -> u_fifo u = [] -> u_rx u = [] ->
  (forall u', conf rate R D u' -> u_fifo u' = [] -> u_rx u' = [] ->
     Q (if off =? COM_LSR then com_status u' else if off =? COM_RX then (if dlab u' then D !!! COM_DLL else 0) else R !!! off) u') ->
  wp (com_in off) Q u.
Proof.
  intros Hr Hc Hf Hx HQ. destruct (conf_tick _ _ _ _ Hr Hc) as (Hc' & Hf' & Hx'). specialize (Hf' Hf). rewrite Hx in Hx'.
  specialize (HQ _ Hc' Hf' Hx'). destruct Hc' as (H1 & _ & H3 & H4 & _). unfold com_in. do 4 wp_step. rewrite H1, Hx', H3, H4. cbn [negb].
  destruct (off =? COM_LSR); [by wp_step|]. destruct (off =? COM_RX); [destruct (dlab _)|]; by wp_step.
Qed.

Lemma serial_init_wp s Q : u_present (su s) = true -> dlab (su s) = false -> 0 <= u_rate (su s) < 32000 -> 0 <= u_wait (su s) <= u_rate (su s) ->
  (forall u, line_ok u -> u_fifo u = [] -> u_rx u = [] -> u_regs u !!! COM_IER = 0 ->
     u_div u !!! COM_DLL = 1 -> u_div u !!! COM_DLM = 0 -> Q tt (Serial u true)) ->
  wp serial_init Q s.
Proof.
  destruct s as [u e]. cbn. intros Hp Hd Hrt Hw HQ. unfold serial_init. unfold dlab in Hd. assert (Hc : conf (u_rate u) (u_regs u) (u_div u) u) by done.
  revert Hc Hd. generalize (u_regs u) (u_div u). remember (u_rate u) as rate. intros R D Hc Hd.
  assert (H0 : 0 <= rate) by lia. do 2 wp_step. cbn [lget l_su su].
  do 5 (wp_step; eapply com_reg_wp;
    [exact H0|exact Hc|vm_compute; split; congruence|vm_compute; congruence|try done; intros _; by rewrite lookup_total_insert_eq|];
    clear Hc; intros ?u Hc _).
  wp_step. eapply com_reg_wp; [exact H0|exact Hc|done|done|done|]. clear Hc; intros u6 Hc [Hf6 Hx6]; [by left|].
  eapply com_reg_wp; [exact H0|exact Hc|done|done|done|]. clear Hc; intros u7 Hc [Hf7 Hx7]; [by right|].
  repeat (rewrite ?(lookup_total_insert_ne _ COM_MCR), ?(lookup_total_insert_ne _ COM_FCR), ?lookup_total_insert_eq in Hc by done; cbn in Hc).
  rewrite Hd in Hc. cbn [COM_IER Z.leb Z.compare andb] in Hc.
  (* what is read finds the queues empty *)
  do 2 wp_step. eapply (com_idle_wp _ _ _ u7); [exact H0|exact Hc|done|done|]. clear Hc. intros u8 Hc Hf8 Hx8. cbn [negb].
  unfold com_status. rewrite Hf8, Hx8. do 4 wp_step. cbn.
  eapply (com_idle_wp _ _ _ u8); [exact H0|exact Hc|done|done|]. clear Hc. intros u9 Hc Hf9 Hx9. do 2 wp_step. cbn.
  eapply (com_idle_wp _ _ _ u9); [exact H0|exact Hc|done|done|]. intros u10 (C1 & C2 & C3 & C4 & C5) Hf10 Hx10. apply HQ.
  - constructor; rewrite ?C1, ?C2, ?Hf10; try done; try (cbn; lia); unfold dlab, fifo_size; rewrite C3.
    + by rewrite !lookup_total_insert_ne, lookup_total_insert_eq by done.
    + by rewrite lookup_total_insert_ne, lookup_total_insert_eq by done.
  - done.
  - done.
  - rewrite C3. by rewrite !lookup_total_insert_ne, lookup_total_insert_eq by done.
  - rewrite C4. by rewrite lookup_total_insert_ne, lookup_total_insert_eq by done.
  - rewrite C4. by rewrite lookup_total_insert_eq.
Qed.
