(* ===== verification/Video.v ===== *)
(** * The screen (kern/dev/video)

    The text display is memory of 16-bit cells that the driver writes through
    a pointer, with a controller whose registers hold the cursor.
    video_init is in Console.v: it prints, and what prints uses this file.
    The specification is a sheet of paper that is never torn off: the screen
    is always the window on its last 25 rows. *)

From stdpp Require Import base gmap list numbers.
From S2P Require Import Prelude Mem Str.

Definition MONO_BASE : Z := 948. (* 0x3B4 *)
Definition MONO_BUF : Z := 720896. (* 0xB0000 *)
Definition CGA_BASE : Z := 980. (* 0x3D4 *)
Definition CGA_BUF : Z := 753664. (* 0xB8000 *)
Definition CRT_ROWS : Z := 25.
Definition CRT_COLS : Z := 80.
Definition CRT_SIZE : Z := CRT_ROWS * CRT_COLS.

Definition u16 (x : Z) : Z := x mod 65536.
Definition load16 (m : mem) (a : Z) : Z := load8 m a + 256 * load8 m (a + 1).
Definition store16 (m : mem) (a v : Z) : mem := store8 (store8 m a v) (a + 1) (v / 256).

(** struct video, the ports of the controller and the memory. *)
Record video : Type := Video { crt_buf : Z; crt_pos : Z; active_console : Z }.
Record vga : Type := Vga {
  vmem : mem;
  terminal : video;
  addr_6845 : Z;
  crt_index : gmap Z Z;  (* the index register at each base port *)
  crt_regs : gmap Z Z    (* the registers of the controller *)
}.
Definition set_vmem (m : mem) (v : vga) : vga := Vga m (terminal v) (addr_6845 v) (crt_index v) (crt_regs v).
Definition set_terminal (t : video) (v : vga) : vga := Vga (vmem v) t (addr_6845 v) (crt_index v) (crt_regs v).
Definition set_addr_6845 (a : Z) (v : vga) : vga := Vga (vmem v) (terminal v) a (crt_index v) (crt_regs v).
Definition l_vmem : lens vga mem := Lens vmem set_vmem.

Definition is_crt_base (p : Z) : bool := (p =? MONO_BASE) || (p =? CGA_BASE).
(** outb and inb on the ports of the controller *)
Definition crt_out (p v : Z) : K vga unit := modify (fun s =>
  if is_crt_base p then Vga (vmem s) (terminal s) (addr_6845 s) (<[p := v mod 256]> (crt_index s)) (crt_regs s)
  else if is_crt_base (p - 1) then
    Vga (vmem s) (terminal s) (addr_6845 s) (crt_index s) (<[crt_index s !!! (p - 1) := v mod 256]> (crt_regs s))
  else s).
Definition crt_in (p : Z) : K vga Z := gets (fun s =>
  if is_crt_base (p - 1) then crt_regs s !!! (crt_index s !!! (p - 1)) else 255).

Definition set_pos (pos : Z) : K vga unit :=
  modify (fun s => set_terminal (Video (crt_buf (terminal s)) pos (active_console (terminal s))) s).
(** terminal.crt_buf[i] = v *)
Definition put_cell (i v : Z) : K vga unit :=
  modify (fun s => set_vmem (store16 (vmem s) (u32 (crt_buf (terminal s) + 2 * i)) v) s).

Definition video_scroll : K vga unit :=
  t ← gets terminal;
  if CRT_SIZE <=? crt_pos t then
    modify (fun s => set_vmem (memmove (vmem s) (crt_buf t) (u32 (crt_buf t + 2 * CRT_COLS)) ((CRT_SIZE - CRT_COLS) * 2)) s) ;;
    for_range (CRT_SIZE - CRT_COLS) CRT_SIZE (fun i => put_cell i (Z.lor 1792 32)) ;;
    set_pos (u16 (crt_pos t - CRT_COLS))
  else mret tt.
(** move that little blinky thing *)
Definition video_cursor : K vga unit :=
  a ← gets addr_6845;
  pos ← gets (fun s => crt_pos (terminal s));
  crt_out a 14 ;;
  crt_out (a + 1) (Z.shiftr pos 8) ;;
  crt_out a 15 ;;
  crt_out (a + 1) pos.

(** [k] bounds the recursion: a tab prints blanks. *)
Fixpoint video_putc_rec (k : nat) (c : Z) : K vga unit :=
  let c := if Z.land c (Z.lnot 255) =? 0 then Z.lor c 1792 else c in
  let ch := Z.land c 255 in
  pos ← gets (fun s => crt_pos (terminal s));
  (if ch =? 8 then
     if 0 <? pos then
       set_pos (pos - 1) ;;
       put_cell (pos - 1) (Z.lor (Z.land c (Z.lnot 255)) 32)
     else mret tt
   else if ch =? 10 then
     let pos := u16 (pos + CRT_COLS) in
     set_pos (pos - pos mod CRT_COLS)
   else if ch =? 13 then set_pos (pos - pos mod CRT_COLS)
   else if ch =? 9 then
     match k with
     | O => out_of_fuel
     | S k => video_putc_rec k 32 ;; video_putc_rec k 32 ;; video_putc_rec k 32 ;; video_putc_rec k 32 ;; video_putc_rec k 32
     end
   else
     put_cell pos c ;;
     set_pos (u16 (pos + 1))) ;;
  video_scroll ;;
  video_cursor.
Definition video_putc : Z -> K vga unit := video_putc_rec 1.

Definition video_set_cursor (x y : Z) : K vga unit := set_pos (u16 (x * CRT_COLS + y)).
Definition video_clear_screen : K vga unit := for_range 0 CRT_SIZE (fun i => put_cell i 32).

(** ** The paper

    Cells in rows of 80, without end; [p_top] is the first row that the
    screen shows. *)
Record paper : Type := Paper { p_cell : Z -> Z; p_pos : Z; p_top : Z }.
Definition BLANK : Z := 1824. (* a blank, white on black *)
Definition write_cell (i v : Z) (f : Z -> Z) : Z -> Z := fun j => if decide (j = i) then v else f j.
Definition paper_at (f : Z -> Z) (pos top : Z) : paper := Paper f pos (Z.max top (pos / 80 - 24)).
(** The attribute byte that the driver gives a character. *)
Definition cell_of (c : Z) : Z := if decide (0 <= c < 256) then 1792 + c else u16 c.

Definition paper_char (c : Z) (p : paper) : paper :=
  paper_at (write_cell (p_pos p) (cell_of c) (p_cell p)) (p_pos p + 1) (p_top p).
Definition paper_putc (c : Z) (p : paper) : paper :=
  if c =? 8 then
    if p_top p * 80 <? p_pos p then Paper (write_cell (p_pos p - 1) BLANK (p_cell p)) (p_pos p - 1) (p_top p) else p
  else if c =? 10 then paper_at (p_cell p) ((p_pos p / 80 + 1) * 80) (p_top p)
  else if c =? 13 then Paper (p_cell p) (p_pos p / 80 * 80) (p_top p)
  else if c =? 9 then Nat.iter 5 (paper_char 32) p
  else paper_char c p.

(** The screen shows the last rows of the paper; below them the paper is
    blank; the cursor is where the paper is written next. *)
Record shows (v : vga) (p : paper) : Prop := {
  sh_mem : mem_ok (vmem v);
  sh_buf : 0 <= crt_buf (terminal v) /\ crt_buf (terminal v) + 2 * CRT_SIZE < W32;
  sh_cells : forall i, 0 <= i < CRT_SIZE -> load16 (vmem v) (crt_buf (terminal v) + 2 * i) = p_cell p (p_top p * 80 + i);
  sh_blank : forall j, (p_top p + 25) * 80 <= j -> p_cell p j = BLANK;
  sh_top : 0 <= p_top p;
  sh_pos : crt_pos (terminal v) = p_pos p - p_top p * 80;
  sh_range : 0 <= crt_pos (terminal v) < CRT_SIZE
}.

(** ** The driver implements the paper *)
Lemma load16_store16_same m a v : load16 (store16 m a v) a = v mod 65536.
Proof.
  unfold load16, store16. rewrite (load8_store8_ne _ (a + 1) a), !load8_store8_same by lia.
  zdiv.
Qed.
Lemma load16_ext m m' a : (forall b, a <= b < a + 2 -> load8 m' b = load8 m b) -> load16 m' a = load16 m a.
Proof. intros H. unfold load16. rewrite !H by lia. done. Qed.
Lemma load8_store16_out m a b v : b < a \/ a + 2 <= b -> load8 (store16 m a v) b = load8 m b.
Proof. intros. unfold store16. by rewrite !load8_store8_ne by lia. Qed.
Lemma load16_store16_ne m a b v : a + 2 <= b \/ b + 2 <= a -> load16 (store16 m a v) b = load16 m b.
Proof. intros. apply load16_ext. intros c Hc. apply load8_store16_out. lia. Qed.

(** Arithmetic on positions of the screen. *)
Ltac crt := unfold CRT_SIZE, CRT_ROWS, CRT_COLS in *; lia.

(** Only the screen memory has changed, and the pointers have not. *)
Record kept (v v' : vga) : Prop := {
  kp_buf : crt_buf (terminal v') = crt_buf (terminal v);
  kp_addr : addr_6845 v' = addr_6845 v;
  kp_mem : forall a, ~ crt_buf (terminal v) <= a < crt_buf (terminal v) + 2 * CRT_SIZE -> load8 (vmem v') a = load8 (vmem v) a
}.
#[global] Instance kept_refl : Reflexive kept.
Proof. intros v. by split. Qed.
#[global] Instance kept_trans : Transitive kept.
Proof.
  intros v1 v2 v3 [A1 A2 A3] [B1 B2 B3]. split; [congruence|congruence|]. intros a Ha. rewrite B3 by (by rewrite A1). by apply A3.
Qed.

(** A screen whose cursor may be just below the last row. *)
Record drawn (v : vga) (f : Z -> Z) (pos top : Z) : Prop := {
  dr_mem : mem_ok (vmem v);
  dr_buf : 0 <= crt_buf (terminal v) /\ crt_buf (terminal v) + 2 * CRT_SIZE < W32;
  dr_cells : forall i, 0 <= i < CRT_SIZE -> load16 (vmem v) (crt_buf (terminal v) + 2 * i) = f (top * 80 + i);
  dr_blank : forall j, (top + 25) * 80 <= j -> f j = BLANK;
  dr_top : 0 <= top;
  dr_pos : crt_pos (terminal v) = pos - top * 80;
  dr_range : 0 <= crt_pos (terminal v) <= CRT_SIZE
}.

Lemma put_cell_wp v i x Q : mem_ok (vmem v) -> 0 <= crt_buf (terminal v) /\ crt_buf (terminal v) + 2 * CRT_SIZE < W32 -> 0 <= i < CRT_SIZE ->
  (forall m, mem_ok m -> (forall j, 0 <= j < CRT_SIZE -> load16 m (crt_buf (terminal v) + 2 * j) =
       if decide (j = i) then u16 x else load16 (vmem v) (crt_buf (terminal v) + 2 * j)) ->
     kept v (set_vmem m v) -> Q tt (set_vmem m v)) -> wp (put_cell i x) Q v.
Proof.
  unfold CRT_SIZE, CRT_ROWS, CRT_COLS. intros Hm Hb Hi HQ. unfold put_cell. wp_step. rewrite u32_small by (unfold W32 in *; lia). apply HQ.
  - unfold store16. by do 2 apply mem_ok_store8.
  - intros j Hj. case_decide as E; [subst; apply load16_store16_same|]. apply load16_store16_ne. lia.
  - split; [done|done|]. unfold CRT_SIZE, CRT_ROWS, CRT_COLS. intros a Ha. apply load8_store16_out. lia.
Qed.

(** Clearing the last row. *)
Lemma clear_row_wp v Q : mem_ok (vmem v) -> 0 <= crt_buf (terminal v) /\ crt_buf (terminal v) + 2 * CRT_SIZE < W32 ->
  (forall m, mem_ok m -> (forall j, 0 <= j < CRT_SIZE -> load16 m (crt_buf (terminal v) + 2 * j) =
       if decide (1920 <= j) then BLANK else load16 (vmem v) (crt_buf (terminal v) + 2 * j)) ->
     kept v (set_vmem m v) -> Q tt (set_vmem m v)) ->
  wp (for_range (CRT_SIZE - CRT_COLS) CRT_SIZE (fun i => put_cell i (Z.lor 1792 32))) Q v.
Proof.
  intros Hm Hb HQ. eapply wp_mono; [apply (wp_for _ (fun i v' => exists m, v' = set_vmem m v /\ mem_ok m /\
    (forall j, 0 <= j < CRT_SIZE -> load16 m (crt_buf (terminal v) + 2 * j) =
       if decide (1920 <= j < i) then BLANK else load16 (vmem v) (crt_buf (terminal v) + 2 * j)) /\ kept v v'))|].
  - vm_compute. congruence.
  - intros i v' Hi (m & -> & Hm' & Hc & Hk). eapply put_cell_wp; [done|done|crt|]. cbn.
    intros m' Hm2 Hc2 Hk2. exists m'. split; [done|]. split; [done|]. split; [|by etrans].
    intros j Hj. rewrite Hc2, Hc by done. change (u16 (Z.lor 1792 32)) with BLANK.
    repeat case_decide; done || crt.
  - exists (vmem v). split; [by destruct v|]. split; [done|]. split; [|done]. intros j Hj. by rewrite decide_False by crt.
  - intros [] v' (m & -> & Hm' & Hc & Hk). apply HQ; [done| |done]. intros j Hj. rewrite Hc by done.
    repeat case_decide; done || crt.
Qed.

Lemma video_scroll_wp v f pos top Q : drawn v f pos top ->
  (forall v', shows v' (paper_at f pos top) -> kept v v' -> Q tt v') -> wp video_scroll Q v.
Proof.
  intros [D1 D2 D3 D4 D5 D6 D7] HQ. unfold video_scroll. do 2 wp_step. destruct (Z.leb_spec CRT_SIZE (crt_pos (terminal v))) as [Hle|Hlt].
  - assert (Etop : Z.max top (pos / 80 - 24) = top + 1).
    { replace pos with ((top + 25) * 80) by crt. rewrite Z.div_mul by lia. lia. }
    set (b := crt_buf (terminal v)) in *. rewrite (u32_small (b + 2 * CRT_COLS)) by (unfold W32 in *; crt). do 2 wp_step.
    set (m := memmove _ _ _ _).
    assert (Hcp : copied (vmem v) m b (b + 2 * CRT_COLS) ((CRT_SIZE - CRT_COLS) * 2)) by (apply memmove_copied; [done|..]; unfold range, W32 in *; crt).
    assert (Hm : mem_ok m) by (intros a; rewrite Hcp; case_decide; apply D1).
    assert (Hk : kept v (set_vmem m v)).
    { split; [done|done|]. intros a Ha. cbn. rewrite Hcp. rewrite decide_False by crt. done. }
    wp_step. eapply clear_row_wp; [done|done|]. cbn [terminal vmem set_vmem]. fold b. intros m' Hm' Hc' Hk'. unfold set_pos. wp_step. apply HQ.
    + split; cbn; fold b; [done|done| | |lia| |].
      * intros i Hi. rewrite Hc' by done. rewrite Etop. case_decide as Hi'.
        { symmetry. apply D4. lia. }
        replace ((top + 1) * 80 + i) with (top * 80 + (i + 80)) by lia. rewrite <- D3 by crt.
        unfold load16. rewrite !Hcp, !decide_True by crt. f_equal; [|f_equal]; f_equal; crt.
      * intros j Hj. apply D4. lia.
      * rewrite Etop. unfold u16. rewrite Z.mod_small by crt. crt.
      * unfold u16. rewrite Z.mod_small by crt. crt.
    + etrans; [exact Hk|]. etrans; [exact Hk'|]. by split.
  - wp_step. apply HQ; [|done]. assert (Etop : Z.max top (pos / 80 - 24) = top).
    { apply Z.max_l. assert (pos / 80 < top + 25); [|lia]. apply Z.div_lt_upper_bound; crt. }
    split; cbn; rewrite ?Etop; try done. crt.
Qed.

(** The controller shows the cursor where the driver has it. *)
Definition cursor_ok (v : vga) : Prop :=
  crt_regs v !!! 14 = crt_pos (terminal v) / 256 /\ crt_regs v !!! 15 = crt_pos (terminal v) mod 256.

Lemma video_cursor_wp v p Q : shows v p -> is_crt_base (addr_6845 v) = true ->
  (forall v', shows v' p -> kept v v' -> cursor_ok v' -> Q tt v') -> wp video_cursor Q v.
Proof.
  intros Hs Ha HQ. unfold video_cursor. do 4 wp_step. set (a := addr_6845 v) in *. set (pos := crt_pos (terminal v)).
  assert (Ha' : is_crt_base (a + 1) = false) by (unfold is_crt_base, MONO_BASE, CGA_BASE in *; lia).
  assert (Hpos : 0 <= pos < CRT_SIZE) by apply Hs.
  unfold crt_out. do 7 wp_step. rewrite !Ha, !Ha'. replace (a + 1 - 1) with a by lia. rewrite !Ha. cbn. rewrite !lookup_total_insert_eq. apply HQ.
  - by destruct Hs.
  - by split.
  - unfold cursor_ok. cbn. fold pos. rewrite lookup_total_insert_eq, lookup_total_insert_ne, lookup_total_insert_eq by done.
    rewrite Z.shiftr_div_pow2 by done. split; [|done]. rewrite Z.mod_small; [done|]. crt || (change (2 ^ 8) with 256; split; [zdiv|apply Z.div_lt_upper_bound; crt]).
Qed.

Lemma video_tail_wp v f pos top Q : drawn v f pos top -> is_crt_base (addr_6845 v) = true ->
  (forall v', shows v' (paper_at f pos top) -> kept v v' -> cursor_ok v' -> Q tt v') -> wp (video_scroll ;; video_cursor) Q v.
Proof.
  intros Hd Ha HQ. wp_step. eapply video_scroll_wp; [exact Hd|]. intros v1 Hs1 Hk1.
  eapply video_cursor_wp; [exact Hs1|by rewrite (kp_addr _ _ Hk1)|]. intros v2 Hs2 Hk2 Hc2. apply HQ; [done|by etrans|done].
Qed.

(** A character as the driver takes it apart. *)
Definition attr (c : Z) : Z := if Z.land c (Z.lnot 255) =? 0 then Z.lor c 1792 else c.
Lemma attr_facts c : -128 <= c < 256 ->
  u16 (attr c) = cell_of c /\ (Z.land (attr c) 255 =? 8) = (c =? 8) /\ (Z.land (attr c) 255 =? 10) = (c =? 10) /\
  (Z.land (attr c) 255 =? 13) = (c =? 13) /\ (Z.land (attr c) 255 =? 9) = (c =? 9).
Proof.
  intros Hc. assert (Hin : c ∈ seqZ (-128) 384) by (apply elem_of_seqZ; lia). clear Hc. revert c Hin.
  apply Forall_forall. apply (bool_decide_unpack _). by vm_compute.
Qed.

Lemma shows_drawn v p : shows v p -> drawn v (p_cell p) (p_pos p) (p_top p).
Proof. intros []. split; try done. lia. Qed.

(** The body of video_putc, with what it does for a tab. *)
Definition putc_with (tab : K vga unit) (c : Z) : K vga unit :=
  pos ← gets (fun s => crt_pos (terminal s));
  (if Z.land (attr c) 255 =? 8 then
     if 0 <? pos then set_pos (pos - 1) ;; put_cell (pos - 1) (Z.lor (Z.land (attr c) (Z.lnot 255)) 32) else mret tt
   else if Z.land (attr c) 255 =? 10 then set_pos (u16 (pos + CRT_COLS) - u16 (pos + CRT_COLS) mod CRT_COLS)
   else if Z.land (attr c) 255 =? 13 then set_pos (pos - pos mod CRT_COLS)
   else if Z.land (attr c) 255 =? 9 then tab
   else put_cell pos (attr c) ;; set_pos (u16 (pos + 1))) ;;
  video_scroll ;; video_cursor.
Lemma video_putc_unfold c : video_putc c = putc_with (let b := putc_with out_of_fuel 32 in b ;; b ;; b ;; b ;; b) c.
Proof. reflexivity. Qed.

Section putc.
Context (Q : unit -> vga -> Prop) (v : vga) (p : paper) (Hs : shows v p) (Hb : is_crt_base (addr_6845 v) = true).

Lemma putc_plain_wp tab c : -128 <= c < 256 -> c <> 8 -> c <> 9 -> c <> 10 -> c <> 13 ->
  (forall v', shows v' (paper_char c p) -> kept v v' -> cursor_ok v' -> Q tt v') -> wp (putc_with tab c) Q v.
Proof.
  intros Hc N1 N2 N3 N4 HQ. destruct (attr_facts c Hc) as (E & E8 & E10 & E13 & E9). destruct Hs as [S1 S2 S3 S4 S5 S6 S7].
  unfold putc_with. rewrite E8, E10, E13, E9. do 2 wp_step. zbool. do 2 wp_step. eapply put_cell_wp; [done|done|done|].
  intros m Hm Hcell Hk. unfold set_pos. wp_step.
  eapply (video_tail_wp _ (write_cell (p_pos p) (cell_of c) (p_cell p)) (p_pos p + 1) (p_top p)); [|done|].
  - split; cbn; [done|done| | |done|unfold u16; rewrite Z.mod_small; crt|unfold u16; rewrite Z.mod_small; crt].
    + intros i Hi. rewrite Hcell, E by done. unfold write_cell. repeat case_decide; first [done|lia|by apply S3].
    + intros j Hj. unfold write_cell. case_decide; [crt|by apply S4].
  - intros v' Hs' Hk' Hc'. apply HQ; [done|etrans; [exact Hk|]; etrans; [|exact Hk']; by split|done].
Qed.

(** Moving the cursor. *)
Lemma putc_move_wp pos' : p_top p * 80 <= pos' <= (p_top p + 25) * 80 ->
  (forall v', shows v' (paper_at (p_cell p) pos' (p_top p)) -> kept v v' -> cursor_ok v' -> Q tt v') ->
  wp (set_pos (pos' - p_top p * 80) ;; video_scroll ;; video_cursor) Q v.
Proof.
  intros Hp HQ. destruct Hs as [S1 S2 S3 S4 S5 S6 S7]. unfold set_pos. do 2 wp_step.
  eapply (video_tail_wp _ (p_cell p) pos' (p_top p)); [|done|].
  - split; cbn; try done. crt.
  - intros v' Hs' Hk' Hc'. apply HQ; [done|etrans; [|exact Hk']; by split|done].
Qed.
Lemma paper_at_same f pos top : pos < (top + 25) * 80 -> paper_at f pos top = Paper f pos top.
Proof. intros H. unfold paper_at. rewrite Z.max_l; [done|]. assert (pos / 80 < top + 25); [|lia]. apply Z.div_lt_upper_bound; lia. Qed.

Lemma putc_move tab c : c = 10 \/ c = 13 -> (forall v', shows v' (paper_putc c p) -> kept v v' -> cursor_ok v' -> Q tt v') ->
  wp (putc_with tab c) Q v.
Proof.
  intros Hc HQ. pose proof Hs as [S1 S2 S3 S4 S5 S6 S7]. destruct (attr_facts c ltac:(lia)) as (E & E8 & E10 & E13 & E9).
  unfold putc_with. rewrite E8, E10, E13, E9. do 2 wp_step. rewrite S6 in *.
  assert (Em : (p_pos p - p_top p * 80) mod 80 = p_pos p mod 80).
  { replace (p_pos p - p_top p * 80) with (p_pos p + (- p_top p) * 80) by lia. by rewrite Z.mod_add. }
  pose proof (Z.div_mod (p_pos p) 80 ltac:(lia)) as Hd. pose proof (Z.mod_pos_bound (p_pos p) 80 ltac:(lia)).
  assert (Hrow : p_top p <= p_pos p / 80 < p_top p + 25) by (split; [apply Z.div_le_lower_bound|apply Z.div_lt_upper_bound]; crt).
  destruct Hc as [->| ->]; zbool.
  - unfold u16. rewrite Z.mod_small by crt.
    replace (p_pos p - p_top p * 80 + CRT_COLS) with (p_pos p - p_top p * 80 + 1 * 80) by crt.
    change CRT_COLS with 80. rewrite (Z.mod_add _ 1 80), Em by lia.
    replace (p_pos p - p_top p * 80 + 1 * 80 - p_pos p mod 80) with ((p_pos p / 80 + 1) * 80 - p_top p * 80) by lia.
    apply putc_move_wp; [lia|exact HQ].
  - change CRT_COLS with 80. rewrite Em. replace (p_pos p - p_top p * 80 - p_pos p mod 80) with (p_pos p / 80 * 80 - p_top p * 80) by lia.
    apply putc_move_wp; [lia|]. rewrite paper_at_same by lia. exact HQ.
Qed.

Lemma putc_backspace_wp tab : (forall v', shows v' (paper_putc 8 p) -> kept v v' -> cursor_ok v' -> Q tt v') -> wp (putc_with tab 8) Q v.
Proof.
  intros HQ. destruct Hs as [S1 S2 S3 S4 S5 S6 S7]. unfold paper_putc in HQ. change (8 =? 8) with true in HQ. cbv iota in HQ.
  destruct (attr_facts 8 ltac:(lia)) as (E & E8 & _). unfold putc_with. rewrite E8. change (8 =? 8) with true. cbv iota.
  change (Z.lor (Z.land (attr 8) (Z.lnot 255)) 32) with 1824. do 2 wp_step. rewrite S6 in *.
  destruct (Z.ltb_spec 0 (p_pos p - p_top p * 80)).
  - rewrite (proj2 (Z.ltb_lt (p_top p * 80) (p_pos p))) in HQ by lia. unfold set_pos. do 3 wp_step.
    eapply put_cell_wp; [done|done|cbn; crt|]. cbn [terminal set_terminal vmem crt_buf]. intros m Hm Hcell Hk.
    eapply (video_tail_wp _ (write_cell (p_pos p - 1) BLANK (p_cell p)) (p_pos p - 1) (p_top p)); [|done|].
    + split; cbn; [done|done| | |done|lia|crt].
      * intros i Hi. rewrite Hcell by done. unfold write_cell. repeat case_decide; first [done|lia|by apply S3].
      * intros j Hj. unfold write_cell. case_decide; [crt|by apply S4].
    + intros v' Hs' Hk' Hc'. rewrite paper_at_same in Hs' by crt. apply HQ; [done|etrans; [|exact Hk']; etrans; [|exact Hk]; by split|done].
  - rewrite (proj2 (Z.ltb_ge (p_top p * 80) (p_pos p))) in HQ by lia. wp_step.
    eapply (video_tail_wp _ (p_cell p) (p_pos p) (p_top p)); [by apply shows_drawn|done|]. intros v' Hs' Hk' Hc'.
    rewrite paper_at_same in Hs' by crt. apply HQ; [by destruct p|done|done].
Qed.
End putc.

Lemma video_putc_wp v p c Q : shows v p -> is_crt_base (addr_6845 v) = true -> -128 <= c < 256 ->
  (forall v', shows v' (paper_putc c p) -> kept v v' -> cursor_ok v' -> Q tt v') -> wp (video_putc c) Q v.
Proof.
  intros Hs Hb Hc HQ. rewrite video_putc_unfold. cbv zeta.
  destruct (decide (c = 8)) as [->|N8]; [by eapply putc_backspace_wp|].
  destruct (decide (c = 10 \/ c = 13)) as [E|N]; [by eapply putc_move|].
  destruct (decide (c = 9)) as [->|N9]; [|eapply putc_plain_wp; try done; try lia; unfold paper_putc in HQ; revert HQ; by zbool].
  destruct (attr_facts 9 ltac:(lia)) as (_ & E8 & E10 & E13 & E9). unfold putc_with at 1. rewrite E8, E10, E13, E9.
  do 2 wp_step. zbool. wp_step.
  assert (Hsp : forall v1 p1, shows v1 p1 -> kept v v1 -> wp (putc_with out_of_fuel 32) (fun _ v2 => shows v2 (paper_char 32 p1) /\ kept v v2) v1).
  { intros v1 p1 Hs1 Hk1. eapply putc_plain_wp; [done|by rewrite (kp_addr _ _ Hk1)|lia|lia|lia|lia|lia|]. intros v2 Hs2 Hk2 _. split; [done|by etrans]. }
  assert (G : wp (let b := putc_with out_of_fuel 32 in b ;; b ;; b ;; b ;; b) (fun _ v2 => shows v2 (Nat.iter 5 (paper_char 32) p) /\ kept v v2) v).
  { cbv zeta. do 4 (wp_step; eapply wp_mono; [eapply Hsp; [eassumption|eassumption || reflexivity]|]; intros [] ?v [? ?]). by apply Hsp. }
  eapply wp_mono; [exact G|]. intros [] v2 [Hs2 Hk2].
  eapply video_tail_wp; [by apply shows_drawn|by rewrite (kp_addr _ _ Hk2)|]. intros v' Hs' Hk' Hc'. apply HQ; [|by etrans|done].
  unfold paper_putc. zbool. destruct Hs2 as [S1 S2 S3 S4 S5 S6 S7]. rewrite paper_at_same in Hs' by crt. by destruct (Nat.iter 5 _ p).
Qed.

(** Printing a text. *)
Fixpoint video_puts (l : list Z) : K vga unit :=
  match l with [] => mret tt | c :: l => video_putc c ;; video_puts l end.
Definition paper_puts (l : list Z) (p : paper) : paper := foldl (fun p c => paper_putc c p) p l.

(** C28: whatever is printed, the screen is the window on the last 25 rows of
    the paper on which the same text is written without end; the cursor stays
    on the screen and the controller shows it there, and no memory outside
    the screen is written. *)
Theorem screen_shows_paper v p l : shows v p -> is_crt_base (addr_6845 v) = true -> Forall (fun c => -128 <= c < 256) l ->
  wp (video_puts l) (fun _ v' => shows v' (paper_puts l p) /\ (l <> [] -> cursor_ok v') /\
    forall a, ~ crt_buf (terminal v) <= a < crt_buf (terminal v) + 2 * CRT_SIZE -> load8 (vmem v') a = load8 (vmem v) a) v.
Proof.
  intros Hs Hb Hl. enough (wp (video_puts l) (fun _ v' => shows v' (paper_puts l p) /\ (cursor_ok v \/ l <> [] -> cursor_ok v') /\ kept v v') v) as G.
  { eapply wp_mono; [exact G|]. intros [] v' (? & Hc & [_ _ ?]). split_and!; [done|by intros; apply Hc; right|done]. }
  revert v p Hs Hb. induction Hl as [|c l Hc Hl IH]; intros v p Hs Hb; cbn [video_puts]; wp_step; [by split_and!; [..|intros [?|?]|]|].
  eapply video_putc_wp; [done|done|done|]. intros v1 Hs1 Hk1 Hc1. eapply wp_mono; [apply (IH v1 _ Hs1); by rewrite (kp_addr _ _ Hk1)|].
  intros [] v2 (Hs2 & Hc2 & Hk2). split_and!; [done|intros _; apply Hc2; by left|by etrans].
Qed.

Definition demo_vga : vga := Vga ∅ (Video CGA_BUF 1998 0) CGA_BASE ∅ ∅.
Definition demo_paper : paper := Paper (fun j => if decide (j < 2000) then 0 else BLANK) 1998 0.
Lemma demo_shows : shows demo_vga demo_paper.
Proof.
  split; cbn; unfold CRT_SIZE, CRT_ROWS, CRT_COLS, CGA_BUF, W32; try lia.
  - intros a. unfold load8. by rewrite lookup_total_empty.
  - intros i Hi. unfold load16, load8. rewrite !lookup_total_empty, decide_True by lia. done.
  - intros j Hj. by rewrite decide_False by lia.
Qed.
(** Text that runs over the end of the last row scrolls the screen. *)
Lemma screen_shows_paper_witness :
  wp (video_puts [72; 105; 33; 10]) (fun _ v' => shows v' (paper_puts [72; 105; 33; 10] demo_paper) /\
    p_top (paper_puts [72; 105; 33; 10] demo_paper) = 2 /\ load8 (vmem v') 0 = 0) demo_vga.
Proof.
  eapply wp_mono; [apply (screen_shows_paper demo_vga demo_paper [72; 105; 33; 10])|].
  - exact demo_shows.
  - reflexivity.
  - repeat constructor; lia.
  - intros [] v' (Hs & _ & Hm). split; [exact Hs|]. split; [vm_compute; reflexivity|]. rewrite Hm; [reflexivity|]. vm_compute. intros [H _]. by apply H.
Defined.
