(* ===== verification/Keyboard.v ===== *)
(** * The keyboard (kern/dev/keyboard)

    The tables of key codes and the decoding of one scan code.  What
    kbd_proc_data prints before a reboot is an argument here; keyboard_intr
    is in Console.v. *)

From stdpp Require Import base gmap list numbers.
From S2P Require Import Prelude.

Definition SHIFT : Z := 1.
Definition CTL : Z := 2.
Definition ALT : Z := 4.
Definition CAPSLOCK : Z := 8.
Definition NUMLOCK : Z := 16.
Definition SCROLLLOCK : Z := 32.
Definition E0ESC : Z := 64.

Definition KEY_HOME : Z := 224.
Definition KEY_END : Z := 225.
Definition KEY_UP : Z := 226.
Definition KEY_DN : Z := 227.
Definition KEY_LF : Z := 228.
Definition KEY_RT : Z := 229.
Definition KEY_PGUP : Z := 230.
Definition KEY_PGDN : Z := 231.
Definition KEY_INS : Z := 232.
Definition KEY_DEL : Z := 233.

Definition KBS_DIB : Z := 1.

(** An initialised array of 256 bytes: the first elements, then single
    elements by their index; the rest is zero. *)
Definition table (l : list Z) (d : list (Z * Z)) : gmap Z Z :=
  list_to_map (d ++ zip (seqZ 0 (Z.of_nat (length l))) l).

Definition shiftcode : gmap Z Z := table [] [(29, CTL); (42, SHIFT); (54, SHIFT); (56, ALT); (157, CTL); (184, ALT)].
Definition togglecode : gmap Z Z := table [] [(58, CAPSLOCK); (69, NUMLOCK); (70, SCROLLLOCK)].

Definition special_keys : list (Z * Z) :=
  [(200, KEY_UP); (201, KEY_PGUP); (203, KEY_LF); (205, KEY_RT); (207, KEY_END); (208, KEY_DN); (209, KEY_PGDN); (210, KEY_INS); (211, KEY_DEL)].

Definition normalmap : gmap Z Z := table
  [0; 27; 49; 50; 51; 52; 53; 54;             (* 1 2 3 4 5 6 *)
   55; 56; 57; 48; 45; 61; 8; 9;              (* 7 8 9 0 - = *)
   113; 119; 101; 114; 116; 121; 117; 105;    (* q w e r t y u i *)
   111; 112; 91; 93; 10; 0; 97; 115;          (* o p [ ] a s *)
   100; 102; 103; 104; 106; 107; 108; 59;     (* d f g h j k l ; *)
   39; 96; 0; 92; 122; 120; 99; 118;          (* ' ` \ z x c v *)
   98; 110; 109; 44; 46; 47; 0; 42;           (* b n m , . / * *)
   0; 32; 0; 0; 0; 0; 0; 0;
   0; 0; 0; 0; 0; 0; 0; 55;                   (* 7 *)
   56; 57; 45; 52; 53; 54; 43; 49;            (* 8 9 - 4 5 6 + 1 *)
   50; 51; 48; 46; 0; 0; 0; 0]                (* 2 3 0 . *)
  ([(199, KEY_HOME); (156, 10); (181, 47)] ++ special_keys).

Definition shiftmap : gmap Z Z := table
  [0; 27; 33; 64; 35; 36; 37; 94;             (* ! @ # $ % ^ *)
   38; 42; 40; 41; 95; 43; 8; 9;              (* & * ( ) _ + *)
   81; 87; 69; 82; 84; 89; 85; 73;            (* Q W E R T Y U I *)
   79; 80; 123; 125; 10; 0; 65; 83;           (* O P { } A S *)
   68; 70; 71; 72; 74; 75; 76; 58;            (* D F G H J K L : *)
   34; 126; 0; 124; 90; 88; 67; 86;           (* quote ~ | Z X C V *)
   66; 78; 77; 60; 62; 63; 0; 42;             (* B N M < > ? * *)
   0; 32; 0; 0; 0; 0; 0; 0;
   0; 0; 0; 0; 0; 0; 0; 55;
   56; 57; 45; 52; 53; 54; 43; 49;
   50; 51; 48; 46; 0; 0; 0; 0]
  ([(199, KEY_HOME); (156, 10); (181, 47)] ++ special_keys).

(** C(x), as a byte *)
Definition C (x : Z) : Z := (x - 64) mod 256.
Definition ctlmap : gmap Z Z := table
  [0; 0; 0; 0; 0; 0; 0; 0;
   0; 0; 0; 0; 0; 0; 0; 0;
   C 81; C 87; C 69; C 82; C 84; C 89; C 85; C 73;
   C 79; C 80; 0; 0; 13; 0; C 65; C 83;
   C 68; C 70; C 71; C 72; C 74; C 75; C 76; 0;
   0; 0; 0; C 92; C 90; C 88; C 67; C 86;
   C 66; C 78; C 77; 0; 0; C 47; 0; 0]
  ([(151, KEY_HOME); (181, C 47)] ++ special_keys).

Definition charcode : list (gmap Z Z) := [normalmap; shiftmap; ctlmap; ctlmap].

(** The scan codes that have arrived, the state of the modifier keys and
    whether a reset was asked for at port 0x92. *)
Record kbd : Type := Kbd { scancodes : list Z; shift : Z; reset : bool }.

(** inb(KBSTATP) and inb(KBDATAP) *)
Definition kb_stat : K kbd Z := gets (fun k => if bool_decide (scancodes k = []) then 0 else KBS_DIB).
Definition kb_data : K kbd Z :=
  k ← get;
  match scancodes k with
  | [] => mret 0
  | d :: l => put (Kbd l (shift k) (reset k)) ;; mret d
  end.
Definition set_shift (x : Z) : K kbd unit := modify (fun k => Kbd (scancodes k) x (reset k)).

(** The character of a key that is down, without the special keys. *)
Definition key_char (sh data : Z) : K kbd Z :=
  check (in_array (Z.land sh (Z.lor CTL SHIFT)) 4) ;;
  check (in_array data 256) ;;
  let c := (charcode !!! Z.to_nat (Z.land sh (Z.lor CTL SHIFT))) !!! data in
  mret (if negb (Z.land sh CAPSLOCK =? 0) then
          if (97 <=? c) && (c <=? 122) then c + (65 - 97)
          else if (65 <=? c) && (c <=? 90) then c + (97 - 65)
          else c
        else c).

Section kbd.
Context {St : Type} (l_kbd : lens St kbd) (print_rebooting : K St unit).

Definition kbd_proc_data : K St Z :=
  st ← zoom l_kbd kb_stat;
  if Z.land st KBS_DIB =? 0 then mret (-1)
  else
    data ← zoom l_kbd kb_data;
    sh ← gets (fun s => shift (lget l_kbd s));
    if data =? 224 then
      zoom l_kbd (set_shift (Z.lor sh E0ESC)) ;;
      mret 0
    else if negb (Z.land data 128 =? 0) then
      let data := if negb (Z.land sh E0ESC =? 0) then data else Z.land data 127 in
      check (in_array data 256) ;;
      zoom l_kbd (set_shift (Z.land sh (Z.lnot (Z.lor (shiftcode !!! data) E0ESC)))) ;;
      mret 0
    else
      let '(data, sh) := if negb (Z.land sh E0ESC =? 0) then (Z.lor data 128, Z.land sh (Z.lnot E0ESC)) else (data, sh) in
      check (in_array data 256) ;;
      let sh := Z.lxor (Z.lor sh (shiftcode !!! data)) (togglecode !!! data) in
      zoom l_kbd (set_shift sh) ;;
      c ← zoom l_kbd (key_char sh data);
      (if (Z.land (Z.lnot sh) (Z.lor CTL ALT) =? 0) && (c =? KEY_DEL) then
         print_rebooting ;;
         zoom l_kbd (modify (fun k => Kbd (scancodes k) (shift k) true))
       else mret tt) ;;
      mret c.
End kbd.

(** ** Types

    One scan code gives a byte, and leaves the modifiers seven bits. *)
Definition after_key (sh data : Z) : Z * Z :=
  if negb (Z.land sh E0ESC =? 0) then (Z.lor data 128, Z.land sh (Z.lnot E0ESC)) else (data, sh).
Definition new_shift (sh data : Z) : Z := Z.lxor (Z.lor sh (shiftcode !!! data)) (togglecode !!! data).

Lemma table_range (t : gmap Z Z) n : forallb (fun i => (0 <=? t !!! i) && (t !!! i <? n)) (seqZ 0 256) = true ->
  forall i, 0 <= i < 256 -> 0 <= t !!! i < n.
Proof.
  intros H i Hi. rewrite forallb_forall in H. specialize (H i). rewrite <- list_elem_of_In, elem_of_seqZ in H. specialize (H ltac:(lia)). lia.
Qed.
Lemma key_char_wp sh data k Q : 0 <= data < 256 -> (forall c, 0 <= c < 256 -> Q c k) -> wp (key_char sh data) Q k.
Proof.
  intros Hd HQ. assert (Hi : 0 <= Z.land sh (Z.lor CTL SHIFT) < 4).
  { change (Z.lor CTL SHIFT) with (Z.ones 2). rewrite Z.land_ones by lia. apply Z.mod_pos_bound. lia. }
  unfold key_char. do 2 wp_step. do 3 wp_step. apply HQ. set (i := Z.land sh (Z.lor CTL SHIFT)) in *.
  assert (Hc : 0 <= (charcode !!! Z.to_nat i) !!! data < 256).
  { assert (i = 0 \/ i = 1 \/ i = 2 \/ i = 3) as [E|[E|[E|E]]] by lia; rewrite E; clear -Hd; revert data Hd; apply table_range; by vm_compute. }
  zcases; lia.
Qed.

Lemma land_small a b n : 0 <= n -> 0 <= a < 2 ^ n -> 0 <= Z.land a b < 2 ^ n.
Proof.
  intros Hn Ha. rewrite <- (Z.mod_small a (2 ^ n)) by done. rewrite <- Z.land_ones by done.
  rewrite <- Z.land_assoc, (Z.land_comm (Z.ones n)), Z.land_assoc, Z.land_ones by done. apply Z.mod_pos_bound. lia.
Qed.
Lemma lor_small a b n : 0 <= n -> 0 <= a < 2 ^ n -> 0 <= b < 2 ^ n -> 0 <= Z.lor a b < 2 ^ n.
Proof.
  intros Hn Ha Hb. rewrite <- (Z.mod_small a (2 ^ n)), <- (Z.mod_small b (2 ^ n)) by done. rewrite <- !Z.land_ones by done.
  rewrite <- Z.land_lor_distr_l, Z.land_ones by done. apply Z.mod_pos_bound. lia.
Qed.
Lemma lxor_small a b n : 0 <= n -> 0 <= a < 2 ^ n -> 0 <= b < 2 ^ n -> 0 <= Z.lxor a b < 2 ^ n.
Proof.
  intros Hn Ha Hb. assert (E : Z.lxor a b = Z.land (Z.lxor a b) (Z.ones n)).
  { apply Z.bits_inj'. intros i Hi. rewrite Z.land_spec, Z.lxor_spec. destruct (decide (i < n)).
    - by rewrite Z.ones_spec_low, andb_true_r by lia.
    - rewrite Z.ones_spec_high by lia. rewrite andb_false_r.
      rewrite <- (Z.mod_small a (2 ^ n)), <- (Z.mod_small b (2 ^ n)) by done. by rewrite !Z.mod_pow2_bits_high by lia. }
  rewrite E, Z.land_ones by done. apply Z.mod_pos_bound. lia.
Qed.

(** The keyboard as it can be: the controller delivers bytes, and the
    modifiers are seven bits. *)
Definition kbd_ok (k : kbd) : Prop := Forall (fun d => 0 <= d < 256) (scancodes k) /\ 0 <= shift k < 128.

Section proc.
Context {St : Type} (l_kbd : lens St kbd) (print_rebooting : K St unit).
(** The rest of the state, and what printing does to it. *)
Context (I : St -> Prop).
Context (Hget : forall k s, lget l_kbd (lset l_kbd k s) = k).
Context (Hset : forall k s, I s -> I (lset l_kbd k s)).
Context (Hprint : forall s, I s -> wp print_rebooting (fun _ s' => I s' /\ lget l_kbd s' = lget l_kbd s) s).

Lemma kbd_proc_data_wp s : I s -> kbd_ok (lget l_kbd s) ->
  wp (kbd_proc_data l_kbd print_rebooting) (fun c s' => I s' /\ kbd_ok (lget l_kbd s') /\
    match scancodes (lget l_kbd s) with
    | [] => c = -1 /\ lget l_kbd s' = lget l_kbd s
    | _ :: l => 0 <= c < 256 /\ scancodes (lget l_kbd s') = l
    end) s.
Proof.
  intros HI [Hsc Hsh]. unfold kbd_proc_data, kb_stat. do 3 wp_step.
  destruct (scancodes (lget l_kbd s)) as [|d l] eqn:Es; [rewrite bool_decide_eq_true_2 by done|rewrite bool_decide_eq_false_2 by done].
  { change (Z.land 0 KBS_DIB =? 0) with true. cbv iota. wp_step. split_and!; [by apply Hset|by rewrite Hget; split; rewrite ?Es|done|by rewrite Hget]. }
  change (Z.land KBS_DIB KBS_DIB =? 0) with false. cbv iota. apply Forall_cons in Hsc as [Hd Hl]. set (k := lget l_kbd s) in *.
  do 2 wp_step. unfold kb_data. do 2 wp_step. rewrite Hget, Es. do 5 wp_step. rewrite Hget. cbn [shift].
  set (s1 := lset l_kbd _ (lset l_kbd k s)). assert (HI1 : I s1) by (by repeat apply Hset). assert (G1 : lget l_kbd s1 = Kbd l (shift k) (reset k)) by apply Hget.
  assert (Hfin : forall sh s2, I s2 -> 0 <= sh < 128 -> lget l_kbd s2 = Kbd l (shift k) (reset k) ->
    I (lset l_kbd (Kbd l sh (reset k)) s2) /\ kbd_ok (lget l_kbd (lset l_kbd (Kbd l sh (reset k)) s2)) /\
    scancodes (lget l_kbd (lset l_kbd (Kbd l sh (reset k)) s2)) = l).
  { intros sh s2 H2 Hsh2 E2. rewrite Hget. split_and!; [by apply Hset|by split|done]. }
  destruct (d =? 224).
  { unfold set_shift. do 4 wp_step. rewrite G1. cbn. destruct (Hfin (Z.lor (shift k) E0ESC) s1) as (?&?&?); [done|by apply (lor_small _ _ 7)|done|]. by split_and!. }
  destruct (negb (Z.land d 128 =? 0)).
  { set (d' := if negb (Z.land (shift k) E0ESC =? 0) then d else Z.land d 127). assert (Hd' : 0 <= d' < 256) by (unfold d'; destruct (negb _); [done|by apply (land_small _ _ 8)]).
    unfold set_shift. do 6 wp_step. rewrite G1. cbn.
    destruct (Hfin (Z.land (shift k) (Z.lnot (Z.lor (shiftcode !!! d') E0ESC))) s1) as (?&?&?); [done|by apply (land_small _ _ 7)|done|]. by split_and!. }
  destruct (if negb (Z.land (shift k) E0ESC =? 0) then (Z.lor d 128, Z.land (shift k) (Z.lnot E0ESC)) else (d, shift k)) as [d2 sh2] eqn:E2.
  assert (0 <= d2 < 256 /\ 0 <= sh2 < 128) as [Hd2 Hsh2].
  { destruct (negb _); injection E2 as <- <-; [split; [by apply (lor_small _ _ 8)|by apply (land_small _ _ 7)]|done]. }
  set (sh3 := Z.lxor _ _). assert (Hsh3 : 0 <= sh3 < 128).
  { assert (0 <= shiftcode !!! d2 < 128) by (apply (table_range shiftcode 128); [by vm_compute|done]).
    assert (0 <= togglecode !!! d2 < 128) by (apply (table_range togglecode 128); [by vm_compute|done]).
    apply (lxor_small _ _ 7); [lia| |done]. by apply (lor_small _ _ 7). }
  unfold set_shift. do 5 wp_step. rewrite G1. cbn [scancodes reset].
  destruct (Hfin sh3 s1) as (HI2 & Hk2 & Hs2); [done|done|done|]. set (s2 := lset l_kbd (Kbd l sh3 (reset k)) s1) in *.
  do 2 wp_step. apply key_char_wp; [done|]. intros c Hc. wp_step.
  set (s3 := lset l_kbd (lget l_kbd s2) s2). assert (HI3 : I s3) by (by apply Hset). assert (G3 : lget l_kbd s3 = lget l_kbd s2) by apply Hget.
  destruct (_ && _); wp_step.
  - eapply wp_mono; [by apply Hprint|]. intros [] s4 [HI4 G4]. do 3 wp_step. rewrite Hget, G4, G3.
    split_and!; [by apply Hset| |lia|lia|done]. destruct Hk2. by split.
  - wp_step. rewrite G3. split_and!; done || lia.
Qed.
End proc.
