(* ===== verification/Console.v ===== *)
(** * The console (kern/dev/console, kern/lib/dprintf, debug, monitor)

    The console joins the serial line, the screen and the keyboard: output
    goes to the first two, input comes from the first and the last through a
    ring buffer.  On it are built formatted output, the messages of the
    kernel and the command interpreter of the monitor.

    The linker's addresses of the variables and string literals are fields
    of a class; the arguments of a variadic call are stored at [esp_args]. *)

From stdpp Require Import base gmap list numbers.
From S2P Require Import Prelude Lock Mem Str Fmt Serial Video Keyboard.

Definition CONSOLE_BUFFER_SIZE : Z := 512.
Definition BUFLEN : Z := 1024.

(** struct cons *)
Record cons_t : Type := Cons { cbuf : gmap Z Z; rpos : Z; wpos : Z }.

Record term : Type := Term {
  com : serial; vid : vga; kb : kbd; cons : cons_t;
  cons_lk : Spinlock.spinlock_t; debug_lk : Reentrant.reentrantlock
}.
Definition l_com : lens term serial := Lens com (fun x t => Term x (vid t) (kb t) (cons t) (cons_lk t) (debug_lk t)).
Definition l_vid : lens term vga := Lens vid (fun x t => Term (com t) x (kb t) (cons t) (cons_lk t) (debug_lk t)).
Definition l_kb : lens term kbd := Lens kb (fun x t => Term (com t) (vid t) x (cons t) (cons_lk t) (debug_lk t)).
Definition l_cons : lens term cons_t := Lens cons (fun x t => Term (com t) (vid t) (kb t) x (cons_lk t) (debug_lk t)).
Definition l_cons_lk : lens term Spinlock.spinlock_t := Lens cons_lk (fun x t => Term (com t) (vid t) (kb t) (cons t) x (debug_lk t)).
Definition l_debug_lk : lens term Reentrant.reentrantlock := Lens debug_lk (fun x t => Term (com t) (vid t) (kb t) (cons t) (cons_lk t) x).
Definition l_tmem : lens term mem := lens_comp l_vid l_vmem.

(** Addresses the linker chooses. *)
Class con_layout : Type := ConLayout {
  linebuf : Z;
  esp_args : Z;          (* where a caller puts variadic arguments *)
  lit_null : Z;          (* (null) *)
  lit_s : Z;             (* %s *)
  lit_read_error : Z;    (* read error: %e\n *)
  lit_rebooting : Z;     (* Rebooting!\n *)
  lit_addr_6845 : Z;     (* addr_6845:%x\n *)
  lit_normal : Z;        (* [D] %s:%d:  *)
  lit_panic : Z;         (* [P] %s:%d:  *)
  lit_warn : Z;          (* [W] %s:%d:  *)
  lit_from : Z;          (* \tfrom 0x%08x\n *)
  lit_kernel_panic : Z;  (* Kernel Panic !!!\n *)
  lit_prompt : Z;        (* $>  *)
  lit_whitespace : Z;    (* \t\r\n  *)
  lit_too_many : Z;      (* Too many arguments (max %d)\n *)
  lit_unknown : Z;       (* Unknown command '%s'\n *)
  lit_help_line : Z;     (* %s - %s\n *)
  lit_help : Z; lit_help_desc : Z; lit_kerninfo : Z; lit_kerninfo_desc : Z;
  lit_kerninfo_lines : list Z;   (* the formats of mon_kerninfo *)
  lit_banner : list Z;           (* the lines of monitor *)
  sym_start : Z; sym_etext : Z; sym_edata : Z; sym_end : Z
}.

(** ** Output *)
Definition cons_putc (c : Z) : K term unit :=
  zoom l_com (serial_putc c) ;;
  zoom l_vid (video_putc c).
Definition putchar (c : Z) : K term unit := cons_putc c.

Record dprintbuf : Type := Dprintbuf { d_idx : Z; d_cnt : Z; d_buf : gmap Z Z }.

Definition cputs (str : gmap Z Z) : K term unit :=
  while (fun i =>
    check (in_array i CONSOLE_BUFFER_SIZE) ;;
    let c := s8 (str !!! i) in
    if c =? 0 then mret (inr tt) else cons_putc c ;; mret (inl (i + 1))) 0.

Definition put_buf (i v : Z) : K (term * dprintbuf) unit :=
  check (in_array i CONSOLE_BUFFER_SIZE) ;;
  zoom l_snd (modify (fun b => Dprintbuf (d_idx b) (d_cnt b) (<[i := v mod 256]> (d_buf b)))).
Definition set_idx (i : Z) : K (term * dprintbuf) unit :=
  zoom l_snd (modify (fun b => Dprintbuf i (d_cnt b) (d_buf b))).

Definition putch (ch : Z) : K (term * dprintbuf) unit :=
  idx ← gets (fun s => d_idx s.2);
  put_buf idx ch ;;
  idx ← int_add idx 1;
  set_idx idx ;;
  (if idx =? CONSOLE_BUFFER_SIZE - 1 then
     put_buf idx 0 ;;
     buf ← gets (fun s => d_buf s.2);
     zoom l_fst (cputs buf) ;;
     set_idx 0
   else mret tt) ;;
  cnt ← gets (fun s => d_cnt s.2);
  cnt ← int_add cnt 1;
  zoom l_snd (modify (fun b => Dprintbuf (d_idx b) cnt (d_buf b))).

Section console.
Context `{con_layout} (ks : kstack).

Definition debug_init : K term unit := zoom l_debug_lk Reentrant.reentrantlock_init.
Definition debug_lock : K term unit := zoom l_debug_lk (Reentrant.reentrantlock_acquire ks).
Definition debug_unlock : K term unit := zoom l_debug_lk Reentrant.reentrantlock_release.

Definition vdprintf (fmt ap : Z) : K term Z :=
  debug_lock ;;
  '(_, b) ← with_local (Dprintbuf 0 0 ∅) (
    kern_vprintfmt (lens_comp l_fst l_tmem) putch lit_null fmt ap ;;
    idx ← gets (fun s => d_idx s.2);
    put_buf idx 0);
  cputs (d_buf b) ;;
  debug_unlock ;;
  mret (d_cnt b).

Definition dprintf (fmt : Z) (args : list Z) : K term Z :=
  zoom l_tmem (modify (push_args esp_args args)) ;;
  vdprintf fmt esp_args.

(** ** Messages (kern/lib/debug.c) *)
Definition debug_info (fmt ap : Z) : K term unit :=
  debug_lock ;;
  vdprintf fmt ap ;;
  debug_unlock.
Definition debug_normal (file line fmt ap : Z) : K term unit :=
  debug_lock ;;
  dprintf lit_normal [file; line] ;;
  vdprintf fmt ap ;;
  debug_unlock.
Definition debug_warn (file line fmt ap : Z) : K term unit :=
  debug_lock ;;
  dprintf lit_warn [file; line] ;;
  vdprintf fmt ap ;;
  debug_unlock.

Definition DEBUG_TRACEFRAMES : Z := 10.
(** The return addresses of at most [n] stack frames. *)
Fixpoint debug_frames (m : mem) (n : nat) (frame : Z) : list Z :=
  match n with
  | O => []
  | S n => if frame =? 0 then 0 :: debug_frames m n 0
           else load32 m (u32 (frame + 4)) :: debug_frames m n (load32 m frame)
  end.
Definition debug_trace (ebp : Z) : K term (list Z) :=
  gets (fun t => debug_frames (vmem (vid t)) (Z.to_nat DEBUG_TRACEFRAMES) ebp).
Fixpoint print_frames (eips : list Z) : K term unit :=
  match eips with
  | [] => mret tt
  | e :: l => if e =? 0 then mret tt else dprintf lit_from [e] ;; print_frames l
  end.
(** Up to the halt of the processor. *)
Definition debug_panic_message (ebp file line fmt ap : Z) : K term unit :=
  debug_lock ;;
  dprintf lit_panic [file; line] ;;
  vdprintf fmt ap ;;
  eips ← debug_trace ebp;
  print_frames eips ;;
  dprintf lit_kernel_panic [] ;;
  debug_unlock.
Definition debug_panic (ebp file line fmt ap : Z) : K term unit :=
  debug_panic_message ebp file line fmt ap ;;
  panic.

(** ** Input *)
Definition cons_intr (proc : K term Z) : K term unit :=
  zoom l_cons_lk (Spinlock.spinlock_acquire ks) ;;
  while (fun _ : unit =>
    c ← proc;
    if c =? -1 then mret (inr tt)
    else if c =? 0 then mret (inl tt)
    else
      w ← gets (fun t => wpos (cons t));
      check (in_array w CONSOLE_BUFFER_SIZE) ;;
      let w' := u32 (w + 1) in
      zoom l_cons (modify (fun b => Cons (<[w := c mod 256]> (cbuf b)) (rpos b) (if w' =? CONSOLE_BUFFER_SIZE then 0 else w'))) ;;
      mret (inl tt)) tt ;;
  zoom l_cons_lk Spinlock.spinlock_release.

Definition serial_intr : K term unit :=
  e ← gets (fun t : term => serial_exists (com t));
  if (e : bool) then cons_intr (zoom l_com serial_proc_data) else mret tt.
Definition serial_intenable : K term unit :=
  e ← gets (fun t : term => serial_exists (com t));
  if (e : bool) then
    zoom l_com (zoom l_su (com_out COM_IER 1)) ;;
    serial_intr
  else mret tt.
Definition print_rebooting : K term unit := dprintf lit_rebooting [] ;; mret tt.
Definition keyboard_intr : K term unit := cons_intr (kbd_proc_data l_kb print_rebooting).

Definition cons_getc : K term Z :=
  serial_intr ;;
  keyboard_intr ;;
  zoom l_cons_lk (Spinlock.spinlock_acquire ks) ;;
  b ← gets cons;
  if negb (rpos b =? wpos b) then
    check (in_array (rpos b) CONSOLE_BUFFER_SIZE) ;;
    let c := s8 (cbuf b !!! rpos b) in
    let r := u32 (rpos b + 1) in
    zoom l_cons (put (Cons (cbuf b) (if r =? CONSOLE_BUFFER_SIZE then 0 else r) (wpos b))) ;;
    zoom l_cons_lk Spinlock.spinlock_release ;;
    mret c
  else
    zoom l_cons_lk Spinlock.spinlock_release ;;
    mret 0.

Definition getchar : K term Z :=
  while (fun _ : unit =>
    c ← cons_getc;
    if c =? 0 then mret (inl tt) else mret (inr c)) tt.

(** NULL is 0. *)
Definition readline (prompt : Z) : K term Z :=
  (if negb (prompt =? 0) then dprintf lit_s [prompt] ;; mret tt else mret tt) ;;
  while (fun i =>
    c ← getchar;
    if c <? 0 then
      dprintf lit_read_error [u32 c] ;;
      mret (inr 0)
    else if ((c =? 8) || (c =? 127)) && (0 <? i) then
      putchar 8 ;;
      mret (inl (i - 1))
    else if (32 <=? c) && (i <? BUFLEN - 1) then
      putchar c ;;
      check (in_array i BUFLEN) ;;
      zoom l_tmem (st8 (u32 (linebuf + i)) c) ;;
      mret (inl (i + 1))
    else if (c =? 10) || (c =? 13) then
      putchar 10 ;;
      check (in_array i BUFLEN) ;;
      zoom l_tmem (st8 (u32 (linebuf + i)) 0) ;;
      mret (inr linebuf)
    else mret (inl i)) 0.

(** ** Start *)

(** [cga]: whether there is memory at CGA_BUF, that is, whether a value
    stored there is read back. *)
Definition video_init (cga : bool) : K term unit :=
  was ← gets (fun t => load16 (vmem (vid t)) CGA_BUF);
  (if cga then zoom l_tmem (modify (fun m => store16 m CGA_BUF 42330)) else mret tt) ;;
  cp ← (if negb cga then
          zoom l_vid (modify (set_addr_6845 MONO_BASE)) ;;
          dprintf lit_addr_6845 [MONO_BASE] ;;
          mret MONO_BUF
        else
          zoom l_tmem (modify (fun m => store16 m CGA_BUF was)) ;;
          zoom l_vid (modify (set_addr_6845 CGA_BASE)) ;;
          dprintf lit_addr_6845 [CGA_BASE] ;;
          mret CGA_BUF);
  a ← gets (fun t => addr_6845 (vid t));
  zoom l_vid (crt_out a 14) ;;
  hi ← zoom l_vid (crt_in (a + 1));
  zoom l_vid (crt_out a 15) ;;
  lo ← zoom l_vid (crt_in (a + 1));
  zoom l_vid (modify (set_terminal (Video cp (u16 (Z.lor (Z.shiftl hi 8) lo)) 0))).

Definition cons_init (cga : bool) : K term unit :=
  zoom l_cons (put (Cons ∅ 0 0)) ;;
  zoom l_com serial_init ;;
  video_init cga ;;
  zoom l_cons_lk Spinlock.spinlock_init.

(** ** The monitor (kern/lib/monitor.c) *)
Definition MAXARGS : Z := 16.
Definition commands : list (Z * Z) := [(lit_help, lit_help_desc); (lit_kerninfo, lit_kerninfo_desc)].

Definition mon_help : K term Z :=
  for_range 0 (Z.of_nat (length commands)) (fun i =>
    let c := commands !!! Z.to_nat i in
    dprintf lit_help_line [c.1; c.2] ;; mret tt) ;;
  mret 0.
Definition mon_kerninfo : K term Z :=
  dprintf (lit_kerninfo_lines !!! 0%nat) [] ;;
  dprintf (lit_kerninfo_lines !!! 1%nat) [sym_start] ;;
  dprintf (lit_kerninfo_lines !!! 2%nat) [sym_etext] ;;
  dprintf (lit_kerninfo_lines !!! 3%nat) [sym_edata] ;;
  dprintf (lit_kerninfo_lines !!! 4%nat) [sym_end] ;;
  dprintf (lit_kerninfo_lines !!! 5%nat) [Types.roundup (u32 (sym_end - sym_start)) 1024 / 1024] ;;
  mret 0.

(** *buf && strchr(WHITESPACE, *buf), and its negation of the second part *)
Definition tload (p : Z) : K term Z := zoom l_tmem (ld p).
Definition is_white (c : Z) : K term bool := r ← zoom l_tmem (strchr lit_whitespace c); mret (negb (r =? 0)).
Definition gobble (buf : Z) : K term Z :=
  while (fun buf =>
    c ← tload buf;
    if c =? 0 then mret (inr buf)
    else
      w ← is_white c;
      if (w : bool) then zoom l_tmem (st8 buf 0) ;; mret (inl (u32 (buf + 1))) else mret (inr buf)) buf.
Definition scan_arg (buf : Z) : K term Z :=
  while (fun buf =>
    c ← tload buf;
    if c =? 0 then mret (inr buf)
    else
      w ← is_white c;
      if negb w then mret (inl (u32 (buf + 1))) else mret (inr buf)) buf.

(** The arguments of the command line, or None when there are too many. *)
Definition parse_args (buf : Z) : K term (option (list Z)) :=
  while (fun '(buf, argv) =>
    buf ← gobble buf;
    c ← tload buf;
    if c =? 0 then mret (inr (Some argv))
    else if Z.of_nat (length argv) =? MAXARGS - 1 then mret (inr None)
    else
      let argv := argv ++ [buf] in
      buf ← scan_arg buf;
      mret (inl (buf, argv))) (buf, []).

(** The table of commands is searched in order. *)
Definition run_table (arg0 : Z) : list (Z * K term Z) -> K term (option (K term Z)) :=
  fix go l := match l with
  | [] => mret None
  | (name, f) :: l => r ← zoom l_tmem (strcmp arg0 name); if r =? 0 then mret (Some f) else go l
  end.
Definition runcmd (buf : Z) : K term Z :=
  args ← parse_args buf;
  match args with
  | None => dprintf lit_too_many [MAXARGS] ;; mret 0
  | Some [] => mret 0
  | Some (arg0 :: _) =>
      f ← run_table arg0 [(lit_help, mon_help); (lit_kerninfo, mon_kerninfo)];
      match f with
      | Some f => f
      | None => dprintf lit_unknown [arg0] ;; mret 0
      end
  end.

Definition monitor : K term unit :=
  dprintf (lit_banner !!! 0%nat) [] ;;
  dprintf (lit_banner !!! 1%nat) [] ;;
  dprintf (lit_banner !!! 2%nat) [] ;;
  dprintf (lit_banner !!! 3%nat) [] ;;
  while (fun _ : unit =>
    buf ← readline lit_prompt;
    if negb (buf =? 0) then
      r ← runcmd buf;
      if r <? 0 then mret (inr tt) else mret (inl tt)
    else mret (inl tt)) tt.
End console.
