(* ===== verification/ConsoleSpec.v ===== *)
(** * What the console prints and reads

    Output appears on the serial line and on the screen; formatted output is
    a sink of characters; the ring buffer of the input is a queue; readline
    edits a line. *)

From stdpp Require Import base gmap list numbers.
From S2P Require Import Prelude Lock Mem Str Fmt FmtSpec Serial Video Keyboard Console.

(** ** Printing *)

(** Devices that work: the serial line is there, or the driver knows that
    it is not; the screen shows the paper [p]. *)
Record term_ok (t : term) (p : paper) : Prop := {
  to_line : serial_exists (com t) = true -> line_ok (su (com t));
  to_shows : shows (vid t) p;
  to_base : is_crt_base (addr_6845 (vid t)) = true
}.
Definition serial_text (l : list Z) : list Z := l ≫= (fun c => crlf (s8 c)).
Definition screen_text (l : list Z) : list Z := s8 <$> l.

Definition screen_area (t : term) (a : Z) : Prop :=
  crt_buf (terminal (vid t)) <= a < crt_buf (terminal (vid t)) + 2 * CRT_SIZE.

(** From [t] to [t'] the bytes [l] have been printed, memory has changed at
    most in the screen and in [E], and nothing else has happened. *)
Record printed (E : Z -> Prop) (p : paper) (l : list Z) (t t' : term) : Prop := {
  pr_ok : term_ok t' (paper_puts (screen_text l) p);
  pr_sent : serial_exists (com t) = true -> sent (su (com t')) = sent (su (com t)) ++ serial_text l;
  pr_rx : u_rx (su (com t')) = u_rx (su (com t));
  pr_exists : serial_exists (com t') = serial_exists (com t);
  pr_buf : crt_buf (terminal (vid t')) = crt_buf (terminal (vid t));
  pr_mem : forall a, ~ screen_area t a -> ~ E a -> load8 (vmem (vid t')) a = load8 (vmem (vid t)) a;
  pr_kb : kb t' = kb t;
  pr_cons : cons t' = cons t;
  pr_cons_lk : cons_lk t' = cons_lk t;
  pr_debug_lk : debug_lk t' = debug_lk t
}.

Lemma printed_nil E t p : term_ok t p -> printed E p [] t t.
Proof. intros Hok. split; try done. intros _. by rewrite app_nil_r. Qed.
Lemma printed_app E p l l' t t' t'' : printed E p l t t' -> printed E (paper_puts (screen_text l) p) l' t' t'' -> printed E p (l ++ l') t t''.
Proof.
  intros [A1 A2 A3 A4 A5 A5' A6 A7 A8 A9] [B1 B2 B3 B4 B5 B5' B6 B7 B8 B9]. split; try congruence; [| |].
  - unfold screen_text, paper_puts in *. by rewrite fmap_app, foldl_app.
  - intros He. rewrite B2, A2 by congruence. unfold serial_text. by rewrite bind_app, app_assoc.
  - intros a Ha He. rewrite B5' by (unfold screen_area in *; rewrite ?A5; done). by apply A5'.
Qed.

Lemma s8_range c : 0 <= c < 256 -> -128 <= s8 c < 128.
Proof. intros. unfold s8. destruct (Z.ltb_spec c 128); lia. Qed.

Lemma cons_putc_wp E t p c Q : term_ok t p -> 0 <= c < 256 -> (forall t', printed E p [c] t t' -> Q tt t') -> wp (cons_putc (s8 c)) Q t.
Proof.
  intros [Hl Hs Hb] Hc HQ. unfold cons_putc. pose proof (s8_range c Hc) as H8.
  assert (Hvid : forall t1, vid t1 = vid t -> (forall v, shows v (paper_putc (s8 c) p) -> kept (vid t) v ->
     Q tt (Term (com t1) v (kb t1) (cons t1) (cons_lk t1) (debug_lk t1))) -> wp (zoom l_vid (video_putc (s8 c))) Q t1).
  { intros t1 Ev HQ1. wp_step. cbn [lget l_vid]. rewrite Ev. eapply video_putc_wp; [done|done|lia|]. intros v Hv Hk _. by apply HQ1. }
  destruct t as [[u e] v k cn clk dlk]. cbn [com vid su serial_exists] in *. do 2 wp_step. cbn [lget l_com com]. destruct e.
  - eapply serial_putc_wp; [by apply Hl|done|]. intros u' Hu' Es Er. apply Hvid; [done|]. cbn. intros v' Hv' Hk'. apply HQ.
    split; cbn; try done; [split; cbn; [done|done|by rewrite (kp_addr _ _ Hk')]|..|by apply Hk'|by intros; apply Hk']. intros _. unfold serial_text. cbn. by rewrite app_nil_r.
  - eapply wp_of_eq; [by apply serial_putc_absent|]. apply Hvid; [done|]. cbn. intros v' Hv' Hk'. apply HQ.
    split; cbn; try done; [split; cbn; [done|done|by rewrite (kp_addr _ _ Hk')]|by apply Hk'|by intros; apply Hk'].
Qed.

(** The buffer [b] holds [l] from the start on. *)
Definition holds (b : gmap Z Z) (l : list Z) : Prop := forall i x, l !! i = Some x -> b !!! Z.of_nat i = x.
Lemma holds_snoc b l x : holds b l -> holds (<[Z.of_nat (length l) := x]> b) (l ++ [x]).
Proof.
  intros Hb i y Hi. apply lookup_app_Some in Hi as [Hi|[Hle Hi]].
  - pose proof (lookup_lt_Some _ _ _ Hi). rewrite lookup_total_insert_ne by lia. by apply Hb.
  - apply list_lookup_singleton_Some in Hi as [Hi <-]. replace i with (length l) by lia. by rewrite lookup_total_insert_eq.
Qed.

Definition is_text (l : list Z) : Prop := Forall (fun c => 0 < c < 256) l.

Lemma cputs_wp E b l t p Q : term_ok t p -> holds b (l ++ [0]) -> is_text l -> Z.of_nat (length l) < 512 ->
  (forall t', printed E p l t t' -> Q tt t') -> wp (cputs b) Q t.
Proof.
  intros Hok Hb Hl Hlen HQ. unfold cputs. apply (wp_while_rounds _ (S (length l))); [|lia].
  assert (G : forall k done t', l = done ++ k -> printed E p done t t' ->
    wp_rounds (fun i => check (in_array i CONSOLE_BUFFER_SIZE) ;;
      let c := s8 (b !!! i) in if c =? 0 then mret (inr tt) else cons_putc c ;; mret (inl (i + 1))) (S (length k)) (Z.of_nat (length done)) Q t').
  2: { apply (G l []); [done|by apply printed_nil]. }
  induction k as [|c k IH]; intros done t' El Hp; cbn [wp_rounds]; rewrite El in Hlen, Hl; rewrite length_app in Hlen; cbn [length] in *.
  - rewrite app_nil_r in El. subst done. wp_step. wp_step; [unfold in_array, CONSOLE_BUFFER_SIZE; lia|].
    rewrite (Hb (length l) 0) by (by rewrite lookup_app_r, Nat.sub_diag by lia). change (s8 0 =? 0) with true. cbv iota. wp_step. by apply HQ.
  - apply Forall_app in Hl as [_ Hk]. apply Forall_cons in Hk as [Hc Hk].
    wp_step. wp_step; [unfold in_array, CONSOLE_BUFFER_SIZE; lia|].
    rewrite (Hb (length done) c) by (rewrite El, <- app_assoc, lookup_app_r, Nat.sub_diag by lia; done).
    rewrite (proj2 (Z.eqb_neq (s8 c) 0)) by (unfold s8; destruct (Z.ltb_spec c 128); lia). wp_step.
    eapply cons_putc_wp; [exact (pr_ok _ _ _ _ _ Hp)|lia|]. intros t1 Hp1. wp_step.
    replace (Z.of_nat (length done) + 1) with (Z.of_nat (length (done ++ [c]))) by (rewrite length_app; cbn; lia).
    apply IH; [by rewrite <- app_assoc|]. by eapply printed_app.
Qed.

(** ** Formatted output *)
Section dprint.
Context (E : Z -> Prop) (t0 : term) (p : paper) (Hok : term_ok t0 p).
Abbreviation l_dmem := (lens_comp l_fst l_tmem : lens (term * dprintbuf) mem).

(** What is printed and what is still in the buffer make up the output. *)
Definition dprint_rep (m : mem) (l : list Z) (s : term * dprintbuf) : Prop :=
  m = vmem (vid t0) /\ is_text l /\ exists l1 l2, l = l1 ++ l2 /\ printed E p l1 t0 s.1 /\ holds (d_buf s.2) l2 /\
    d_idx s.2 = Z.of_nat (length l2) /\ Z.of_nat (length l2) < 511 /\ d_cnt s.2 = Z.of_nat (length l).

Lemma put_buf_wp i v s Q : 0 <= i < 512 ->
  Q tt (s.1, Dprintbuf (d_idx s.2) (d_cnt s.2) (<[i := v mod 256]> (d_buf s.2))) -> wp (put_buf i v) Q s.
Proof. intros Hi HQ. unfold put_buf. wp_step. wp_step; [unfold in_array, CONSOLE_BUFFER_SIZE; lia|]. by do 2 wp_step. Qed.

Lemma putch_wp m l s c : dprint_rep m l s -> 0 < c mod 256 -> Z.of_nat (length l) < 2147483647 ->
  wp (putch c) (fun _ s' => dprint_rep m (l ++ [c mod 256]) s') s.
Proof.
  intros (-> & Ht & l1 & l2 & -> & Hp & Hh & Hi & H511 & Hn) Hc Hl. destruct s as [t [idx cnt buf]]. cbn [fst snd d_idx d_cnt d_buf] in *. subst idx cnt.
  pose proof (Z.mod_pos_bound c 256 ltac:(lia)) as Hcb.
  assert (Ht' : is_text ((l1 ++ l2) ++ [c mod 256])) by (apply Forall_app_2; [done|repeat constructor; lia]).
  unfold putch. do 2 wp_step. cbn [d_idx snd]. wp_step. apply put_buf_wp; [lia|]. cbn [fst snd d_idx d_cnt d_buf]. wp_int.
  unfold set_idx. do 3 wp_step. cbn [lget lset l_snd fst snd d_idx d_cnt d_buf]. wp_step. change (CONSOLE_BUFFER_SIZE - 1) with 511.
  pose proof (holds_snoc _ _ (c mod 256) Hh) as Hh'. rewrite length_app in Hl |- *.
  destruct (Z.eqb_spec (Z.of_nat (length l2) + 1) 511) as [E511|E511].
  - wp_step. apply put_buf_wp; [lia|]. cbn [fst snd d_idx d_cnt d_buf]. do 4 wp_step. cbn [lget l_fst fst snd d_buf].
    pose proof (pr_ok _ _ _ _ _ Hp) as Hok1.
    eapply (cputs_wp _ _ (l2 ++ [c mod 256])); [exact Hok1| | |rewrite length_app; cbn; lia|].
    { replace (Z.of_nat (length l2) + 1) with (Z.of_nat (length (l2 ++ [c mod 256]))) by (rewrite length_app; cbn; lia). by apply holds_snoc. }
    { rewrite <- app_assoc in Ht'. by apply Forall_app in Ht' as [_ ?]. }
    intros t' Hp'. do 2 wp_step. cbn [lset lget l_fst l_snd fst snd d_cnt]. do 2 wp_step. cbn [d_cnt snd]. wp_int. do 2 wp_step. cbn.
    split; [done|]. split; [done|]. exists ((l1 ++ l2) ++ [c mod 256]), []. rewrite app_nil_r. split_and!; try done.
    + rewrite <- app_assoc. by eapply printed_app.
    + rewrite !length_app. cbn. lia.
  - wp_step. cbn [fst snd d_cnt]. do 2 wp_step. cbn [d_cnt snd]. wp_int. do 2 wp_step. cbn. split; [done|]. split; [done|].
    exists l1, (l2 ++ [c mod 256]). rewrite <- app_assoc. split_and!; try done; rewrite ?length_app; cbn; lia.
Qed.

Program Definition dprint_sink : sink l_dmem putch := {|
  sk_rep := dprint_rep;
  sk_area a := screen_area t0 a \/ E a;
  sk_char c := 0 < c;
  sk_max := 2147483647
|}.
Next Obligation.
  intros m l [t b] a (-> & _ & l1 & l2 & _ & Hp & _) Ha. cbn. apply (pr_mem _ _ _ _ _ Hp); tauto.
Qed.
Next Obligation. by intros m l [[? [] ? ? ? ?] b] _. Qed.
Next Obligation. intros m l s c Hs Hc Hl. by apply putch_wp. Qed.
End dprint.

(** The lock of the messages is free, or held by this processor less than
    [b] times. *)
Definition lock_ready (ks : kstack) (b : Z) (l : Reentrant.reentrantlock) : Prop :=
  l = Reentrant.Mk Reentrant.UNLOCKED 0 \/ (exists n, l = Reentrant.Mk (cpu_idx ks) n /\ 0 < n < b).
(** It is held [d] times more than in [l]. *)
Definition lock_taken (ks : kstack) (d : Z) (l : Reentrant.reentrantlock) : Reentrant.reentrantlock :=
  Reentrant.Mk (cpu_idx ks) (Reentrant.count l + d).

Definition with_lock (l : Reentrant.reentrantlock) (t : term) : term := Term (com t) (vid t) (kb t) (cons t) (cons_lk t) l.
Lemma with_lock_id t : with_lock (debug_lk t) t = t.
Proof. by destruct t. Qed.

Section debug_lock.
Context (ks : kstack) (Hks : kstack_ok ks) (b : Z) (Hb : 0 < b < 1000).

Lemma debug_lock_wp t Q : lock_ready ks b (debug_lk t) -> Q tt (with_lock (lock_taken ks 1 (debug_lk t)) t) -> wp (debug_lock ks) Q t.
Proof.
  intros Hl HQ. unfold debug_lock. wp_step. destruct Hl as [E|(n & E & Hn)]; cbn; rewrite E in *.
  - unfold Reentrant.reentrantlock_acquire, Reentrant.cmpxchg_lock, Reentrant.incr_count. do 3 wp_step. cbn [Reentrant.lock]. zbool. do 3 wp_step.
    destruct Hks as [_ Hc]. unfold NUM_CPUS, Reentrant.UNLOCKED in *. zbool. cbn [negb andb]. wp_step. exact HQ.
  - eapply wp_of_eq; [apply Reentrant.acquire_owned; unfold W32; lia|]. exact HQ.
Qed.
Lemma lock_ready_taken l d : lock_ready ks b l -> 0 < d -> lock_ready ks (b + d) (lock_taken ks d l).
Proof. intros [->|(n & -> & Hn)] Hd; cbn; right; eexists; (split; [reflexivity|]); cbn; lia. Qed.
Lemma debug_unlock_wp t l Q : lock_ready ks b l -> debug_lk t = lock_taken ks 1 l -> Q tt (with_lock l t) -> wp debug_unlock Q t.
Proof.
  intros Hl Et HQ. unfold debug_unlock. wp_step. cbn. rewrite Et. unfold Reentrant.reentrantlock_release, lock_taken. do 4 wp_step. cbn.
  destruct Hl as [->|(n & -> & Hn)]; cbn in *.
  - change (u32 (0 + 1 - 1)) with 0. change (0 =? 0) with true. cbv iota. wp_step. exact HQ.
  - rewrite u32_small by (unfold W32 in *; lia). zbool. wp_step. replace (n + 1 - 1) with n by lia. exact HQ.
Qed.
End debug_lock.

Section messages.
Context `{con_layout} (ks : kstack) (Hks : kstack_ok ks).

Lemma printed_with_lock E p l t t' x : printed E p l t t' -> printed E p l (with_lock x t) (with_lock x t').
Proof. intros [[] ? ? ? ? ? ? ? ? ?]. by split. Qed.
Lemma term_ok_lock t p x : term_ok t p -> term_ok (with_lock x t) p.
Proof. by intros []. Qed.

(** vdprintf prints the rendered text. *)
Lemma vdprintf_wp E b t p fmt ap ps Q : 0 < b < 1000 -> term_ok t p -> lock_ready ks b (debug_lk t) ->
  format_at (vmem (vid t)) (fun a => screen_area t a \/ E a) fmt ap ps -> is_text (format_out ps) -> Z.of_nat (length (format_out ps)) < 2147483648 ->
  (forall t', printed E p (format_out ps) t t' -> Q (Z.of_nat (length (format_out ps))) t') -> wp (vdprintf ks fmt ap) Q t.
Proof.
  intros Hb Hok Hlk Hf Htx Hlen HQ. unfold vdprintf, kern_vprintfmt. wp_step. eapply debug_lock_wp; [done|exact Hb|exact Hlk|].
  set (t1 := with_lock _ t). wp_step. apply wp_with_local. wp_step.
  assert (Hok1 : term_ok t1 p) by (by apply term_ok_lock).
  eapply (vprintfmt_wp _ putch (sink0 := dprint_sink E t1 p) _ _ (vmem (vid t1)) fmt ap ps _ []).
  - exact Hf.
  - split; [done|]. split; [constructor|]. exists [], []. split_and!; try done. by apply printed_nil.
  - split; [|cbn; lia]. eapply Forall_impl; [exact Htx|]. cbn. lia.
  - intros [t2 [idx cnt buf]] (_ & _ & l1 & l2 & El & Hp & Hh & Hi & H511 & Hn). cbn [app fst snd d_idx d_buf d_cnt] in *. subst idx cnt.
    do 2 wp_step. cbn [d_idx snd]. apply put_buf_wp; [lia|]. cbn [fst snd d_buf d_cnt]. wp_step.
    assert (Ht2 : is_text l2) by (rewrite El in Htx; by apply Forall_app in Htx as [_ ?]).
    eapply (cputs_wp _ _ l2); [exact (pr_ok _ _ _ _ _ Hp)|by apply holds_snoc|exact Ht2|lia|]. intros t3 Hp3.
    assert (Hp' : printed E p (format_out ps) t1 t3) by (rewrite El; by eapply printed_app).
    wp_step. eapply debug_unlock_wp; [exact Hb|exact Hlk|exact (pr_debug_lk _ _ _ _ _ Hp')|]. wp_step. apply HQ.
    apply (printed_with_lock _ _ _ _ _ (debug_lk t)) in Hp'. subst t1. destruct t; exact Hp'.
Qed.

(** ** Calls with arguments *)
Definition args_area : nat -> Z -> Prop := args_at esp_args.

Definition with_mem (m : mem) (t : term) : term := Term (com t) (set_vmem m (vid t)) (kb t) (cons t) (cons_lk t) (debug_lk t).

Lemma dprintf_wp n b t p fmt ps Q : 0 < b < 1000 -> term_ok t p -> lock_ready ks b (debug_lk t) -> (length (format_args ps) <= n)%nat ->
  literal esp_args (vmem (vid t)) (fun a => screen_area t a \/ args_area n a) fmt ps -> (forall a, args_area n a -> ~ screen_area t a) ->
  is_text (format_out ps) -> Z.of_nat (length (format_out ps)) < 2147483648 ->
  (forall t', printed (args_area n) p (format_out ps) t t' -> Q (Z.of_nat (length (format_out ps))) t') ->
  wp (dprintf ks fmt (format_args ps)) Q t.
Proof.
  intros Hb Hok Hlk Hn Hlit Hdis Htx Hlen HQ. unfold dprintf. do 3 wp_step.
  set (m := push_args _ _ _). change (lset l_tmem m t) with (with_mem m t).
  assert (Hm : forall a, ~ args_area n a -> load8 m a = load8 (vmem (vid t)) a) by (intros a Ha; apply push_args_out; unfold args_area, args_at in Ha; lia).
  assert (Hok1 : term_ok (with_mem m t) p).
  { destruct Hok as [O1 [S1 S2 S3 S4 S5 S6 S7] O3]. split; [done| |done]. split; cbn; [by apply push_args_ok|done| |done|done|done|done].
    intros i Hi. rewrite <- (S3 i Hi). apply load16_ext. intros c Hc. apply Hm. intros Ha. apply (Hdis c Ha). unfold screen_area. crt. }
  eapply (vdprintf_wp (fun _ => False) b (with_mem m t)); [done|exact Hok1|exact Hlk| |exact Htx|exact Hlen|].
  - eapply format_at_ext; [| |exact (literal_pushed _ _ _ n _ _ Hn Hlit Hdis)]; [done|tauto].
  - intros t' [P1 P2 P3 P4 P5 P6 P7 P8 P9 P10]. apply HQ. split; try done. intros a Ha He. rewrite P6 by (done || tauto). by apply Hm.
Qed.

(** ** Messages of the kernel *)

(** The file, the line and a tag, as in [D] file:line: *)
Definition prefix_pieces (tag file : Z) (name : list Z) (line : Z) : list piece :=
  [PText 91; PText tag; PText 93; PText 32; PStr 0 file name; PText 58; PNum Signed false 0 false (s32 line); PText 58; PText 32].
Lemma prefix_args tag file name line : is_u32 line -> format_args (prefix_pieces tag file name line) = [file; line].
Proof.
  intros Hl. unfold format_args. cbn. f_equal. f_equal. unfold s32, u32. unfold is_u32, W32 in *.
  rewrite (Z.mod_small line) by done. destruct (Z.ltb_spec line 2147483648); zdiv.
Qed.

Section tagged.
Context (t : term) (p : paper) (tag lit file : Z) (name : list Z) (line fmt ap : Z) (ps : list piece).
Context (Hok : term_ok t p) (Hlk : lock_ready ks 100 (debug_lk t)) (Hline : is_u32 line).
Context (Hlit : literal esp_args (vmem (vid t)) (fun a => screen_area t a \/ args_area 2 a) lit (prefix_pieces tag file name line)).
Context (Hargs : forall a, args_area 2 a -> ~ screen_area t a).
Context (Hf : format_at (vmem (vid t)) (fun a => (screen_area t a \/ False) \/ args_area 2 a) fmt ap ps).
Let prefix := format_out (prefix_pieces tag file name line).
Context (Hp : is_text prefix) (Hm : is_text (format_out ps)).
Context (Hlen : Z.of_nat (length prefix) < 2147483648 /\ Z.of_nat (length (format_out ps)) < 2147483648).

(** The prefix, then the message. *)
Lemma tagged_wp : wp (debug_lock ks ;; dprintf ks lit [file; line] ;; vdprintf ks fmt ap ;; debug_unlock)
  (fun _ t' => printed (args_area 2) p (prefix ++ format_out ps) t t') t.
Proof.
  wp_step. eapply (debug_lock_wp ks Hks 100); [lia|exact Hlk|]. set (t1 := with_lock _ t). wp_step.
  pose proof (lock_ready_taken ks 100 ltac:(lia) (debug_lk t) 1 Hlk ltac:(lia)) as Hlk1. change (100 + 1) with 101 in Hlk1.
  rewrite <- (prefix_args tag file name line Hline).
  eapply (dprintf_wp 2 101 t1 p); [lia|by apply term_ok_lock|exact Hlk1|by rewrite prefix_args|exact Hlit|exact Hargs|exact Hp|exact (proj1 Hlen)|].
  intros t2 Hp2. wp_step. pose proof Hp2 as [[P1 P2 P3] _ _ _ P5 P6 _ _ _ P10]. fold prefix in Hp2.
  assert (Esc : forall a, screen_area t2 a <-> screen_area t a) by (intros a; unfold screen_area; by rewrite P5).
  eapply (vdprintf_wp (fun _ => False) 101 t2); [lia|exact (pr_ok _ _ _ _ _ Hp2)|by rewrite P10| |exact Hm|lia|].
  - eapply format_at_ext; [| |exact Hf]; [intros a Ha; apply P6; tauto|intros a; rewrite Esc; tauto].
  - intros t3 Hp3. assert (Hp' : printed (args_area 2) p (prefix ++ format_out ps) t1 t3).
    { eapply printed_app; [exact Hp2|]. destruct Hp3 as [Q1 Q2 Q3 Q4 Q5 Q6 Q7 Q8 Q9 Q10]. split; try done. intros a Ha _. apply Q6; [done|tauto]. }
    eapply (debug_unlock_wp ks 100); [lia|exact Hlk|exact (pr_debug_lk _ _ _ _ _ Hp')|].
    apply (printed_with_lock _ _ _ _ _ (debug_lk t)) in Hp'. subst t1. destruct t; exact Hp'.
Qed.
End tagged.
End messages.

(** C27: a message of the kernel appears once, whole and in order: debug_normal
    prints the tag with the file and the line and then the rendered message,
    on the serial line (with CR LF for a newline) and on the screen, and
    changes nothing else but the arguments it pushes. *)
Theorem debug_normal_prints `{con_layout} ks t p file name line fmt ap ps :
  kstack_ok ks -> term_ok t p -> lock_ready ks 100 (debug_lk t) -> is_u32 line ->
  let prefix := prefix_pieces 68 file name line in
  literal esp_args (vmem (vid t)) (fun a => screen_area t a \/ args_area 2 a) lit_normal prefix ->
  (forall a, args_area 2 a -> ~ screen_area t a) ->
  format_at (vmem (vid t)) (fun a => (screen_area t a \/ False) \/ args_area 2 a) fmt ap ps ->
  is_text (format_out prefix) -> is_text (format_out ps) ->
  Z.of_nat (length (format_out prefix)) < 2147483648 -> Z.of_nat (length (format_out ps)) < 2147483648 ->
  wp (debug_normal ks file line fmt ap) (fun _ t' => printed (args_area 2) p (format_out (prefix ++ ps)) t t') t.
Proof.
  intros Hks Hok Hlk Hline prefix Hlit Hargs Hf Hp Hm H1 H2. unfold format_out. rewrite bind_app.
  unfold debug_normal. apply (tagged_wp ks Hks t p 68 lit_normal file name line fmt ap ps); try assumption. by split.
Qed.

(** A kernel in whose memory the literals lie, with one message. *)
Definition demo_con_layout : con_layout := {|
  linebuf := 8192; esp_args := 5000; lit_null := 900; lit_s := 910; lit_read_error := 920; lit_rebooting := 940; lit_addr_6845 := 960;
  lit_normal := 1000; lit_panic := 1020; lit_warn := 1040; lit_from := 1060; lit_kernel_panic := 1080; lit_prompt := 1100;
  lit_whitespace := 1110; lit_too_many := 1120; lit_unknown := 1160; lit_help_line := 1190; lit_help := 1200; lit_help_desc := 1210;
  lit_kerninfo := 1250; lit_kerninfo_desc := 1260; lit_kerninfo_lines := [1300; 1340; 1360; 1380; 1400; 1420];
  lit_banner := [1500; 1560; 1620; 1680]; sym_start := 1048576; sym_etext := 1100000; sym_edata := 1200000; sym_end := 1300000
|}.
Definition demo_message : list piece := [PText 120; PText 61; PNum Hex true 4 false 171; PText 10].
Definition demo_prefix : list piece := prefix_pieces 68 2000 [97; 46; 99] 42.
Definition demo_con_literals : mem :=
  write_bytes (write_bytes (write_bytes ∅ 940 [82; 101; 98; 111; 111; 116; 105; 110; 103; 33; 10; 0]) 910 [37; 115; 0]) 1100 [36; 62; 32; 0].
Definition demo_con_mem : mem :=
  write_bytes (write_bytes (store32 (write_bytes demo_con_literals 1000 (format_text demo_prefix ++ [0])) 4000 171) 2000 [97; 46; 99; 0])
    3000 (format_text demo_message ++ [0]).
Definition demo_uart : uart := Uart true 2 [] [] 0 [] (<[COM_FCR := 199]> ∅) ∅.
Definition demo_term : term :=
  Term (Serial demo_uart true) (set_vmem demo_con_mem demo_vga) (Kbd [] 0 false) (Cons ∅ 0 0) Spinlock.free_lock (Reentrant.Mk Reentrant.UNLOCKED 0).
Definition demo_kstack : kstack := Kstack 0 KSTACK_MAGIC.

Lemma demo_con_mem_ok : mem_ok demo_con_mem.
Proof.
  unfold demo_con_mem, demo_con_literals. assert (W : forall l m a, mem_ok m -> mem_ok (write_bytes m a l)).
  { induction l as [|x l IH]; intros m a Hm; [done|]. cbn. apply IH. by apply mem_ok_store8. }
  do 2 apply W. apply mem_ok_store32. do 4 apply W. intros a. unfold load8. by rewrite lookup_total_empty.
Qed.
Lemma demo_con_mem_far a : ~ 900 <= a < 5000 -> load8 demo_con_mem a = 0.
Proof.
  intros Ha. unfold demo_con_mem, demo_con_literals. rewrite !load8_write_outside by (vm_compute length; lia). rewrite load8_store32_out by lia.
  rewrite !load8_write_outside by (vm_compute length; lia). unfold load8. by rewrite lookup_total_empty.
Qed.
Lemma demo_term_ok : term_ok demo_term demo_paper.
Proof.
  split; [|split|done]; cbn; unfold CRT_SIZE, CRT_ROWS, CRT_COLS, CGA_BUF, W32; try lia.
  - intros _. split; cbn; done || lia.
  - apply demo_con_mem_ok.
  - intros i Hi. unfold load16. rewrite !demo_con_mem_far by lia. by rewrite decide_True by lia.
  - intros j Hj. by rewrite decide_False by lia.
Qed.
(** Formats in the memory of the example. *)
Lemma demo_screen a : ~ 720000 <= a -> ~ screen_area demo_term a.
Proof. unfold screen_area. cbn. unfold CGA_BUF. lia. Qed.
Lemma demo_con_outside a : a < 5000 -> ~ (screen_area demo_term a \/ args_area (H := demo_con_layout) 2 a).
Proof. intros Ha [?%demo_screen|[? ?]]; [done|lia|cbn in *; lia]. Qed.
Lemma demo_literal : literal 5000 demo_con_mem (fun a => screen_area demo_term a \/ args_area (H := demo_con_layout) 2 a) 1000 demo_prefix.
Proof.
  split.
  - refine (demo_cases _ _ _). vm_compute format_text. cbn [app]. repeat (split; [split; [reflexivity|apply demo_con_outside; lia]|]). exact I.
  - intros w q l Hin. apply list_elem_of_In in Hin. cbn in Hin. destruct_or? Hin; try discriminate Hin; try done.
    injection Hin as <- <- <-. split; [|intros i Hi; apply demo_con_outside; cbn in Hi; lia].
    split; [cbn; unfold W32; lia| |set_solver by lia|reflexivity]. refine (demo_cases _ _ _). repeat (split; [reflexivity|]). exact I.
  - unfold demo_prefix, prefix_pieces. repeat constructor; cbn; unfold is_u32, W32; try lia. vm_compute. discriminate.
  - vm_compute. split; [discriminate|reflexivity].
  - vm_compute. split; [discriminate|reflexivity].
Qed.
Lemma demo_message_at : format_at demo_con_mem (fun a => (screen_area demo_term a \/ False) \/ args_area (H := demo_con_layout) 2 a) 3000 4000 demo_message.
Proof.
  assert (Ho : forall a, a < 5000 -> ~ ((screen_area demo_term a \/ False) \/ args_area (H := demo_con_layout) 2 a)).
  { intros a Ha Hc. apply (demo_con_outside a Ha). tauto. }
  split.
  - refine (demo_cases _ _ _). vm_compute format_text. cbn [app]. repeat (split; [split; [reflexivity|apply Ho; lia]|]). exact I.
  - refine (demo_cases _ _ _). vm_compute format_args. repeat (split; [split; [reflexivity|intros b Hb; apply Ho; lia]|]). exact I.
  - intros w q l Hin. apply list_elem_of_In in Hin. cbn in Hin. destruct_or? Hin; try discriminate Hin; try done.
  - unfold demo_message. repeat constructor; cbn; unfold is_u32, W32; lia.
  - vm_compute. split; [discriminate|reflexivity].
  - vm_compute. split; [discriminate|reflexivity].
Qed.
Lemma demo_kstack_ok : kstack_ok demo_kstack.
Proof. split; cbn; unfold NUM_CPUS; done || lia. Qed.

(** KERN_DEBUG prints [D] a.c:42: x=00ab on the line. *)
Lemma debug_normal_prints_witness :
  wp (debug_normal (H := demo_con_layout) demo_kstack 2000 42 3000 4000)
    (fun _ t' => sent (su (com t')) = [91; 68; 93; 32; 97; 46; 99; 58; 52; 50; 58; 32; 120; 61; 48; 48; 97; 98; 13; 10] /\
       p_top (paper_puts (screen_text (format_out (demo_prefix ++ demo_message))) demo_paper) = 2) demo_term.
Proof.
  pose proof (debug_normal_prints (H := demo_con_layout) demo_kstack demo_term demo_paper 2000 [97; 46; 99] 42 3000 4000 demo_message
    demo_kstack_ok demo_term_ok ltac:(left; reflexivity) ltac:(split; reflexivity || discriminate) demo_literal
    ltac:(intros a Ha; apply demo_screen; unfold args_area, args_at in Ha; cbn in Ha; lia) demo_message_at
    ltac:(apply (bool_decide_unpack _); vm_compute; exact I) ltac:(apply (bool_decide_unpack _); vm_compute; exact I)
    ltac:(vm_compute; reflexivity) ltac:(vm_compute; reflexivity)) as Hw.
  eapply wp_mono; [exact Hw|]. intros [] t' Hp. rewrite (pr_sent _ _ _ _ _ Hp eq_refl). split; vm_compute; reflexivity.
Defined.
