(* ===== verification/InputSpec.v ===== *)
(** * What the console reads

    The ring buffer is a queue of less than 512 characters; every key gives a
    byte; readline is an editor of one line. *)

From stdpp Require Import base gmap list numbers.
From S2P Require Import Prelude Lock Mem Str Fmt FmtSpec Serial Video Keyboard Console ConsoleSpec.

(** ** The ring buffer *)
Record ring_ok (b : cons_t) : Prop := {
  ro_r : 0 <= rpos b < 512;
  ro_w : 0 <= wpos b < 512;
  ro_bytes : forall i, 0 <= cbuf b !!! i < 256
}.
Definition pending_count (b : cons_t) : Z := (wpos b - rpos b) mod 512.
(** The characters between the two positions. *)
Definition pending (b : cons_t) : list Z :=
  (fun i => cbuf b !!! ((rpos b + i) mod 512)) <$> seqZ 0 (pending_count b).

(** One character arrives. *)
Definition feed (b : cons_t) (c : Z) : cons_t :=
  if c =? 0 then b
  else Cons (<[wpos b := c mod 256]> (cbuf b)) (rpos b) (if u32 (wpos b + 1) =? CONSOLE_BUFFER_SIZE then 0 else u32 (wpos b + 1)).
Definition feeds (l : list Z) (b : cons_t) : cons_t := foldl feed b l.
Definition nonzero (l : list Z) : list Z := filter (fun c => c <> 0) l.

Lemma feed_wpos b c : ring_ok b -> c <> 0 -> wpos (feed b c) = (wpos b + 1) mod 512.
Proof.
  intros [_ Hw _] Hc. unfold feed. zbool. cbn. rewrite u32_small by (unfold W32; lia). change CONSOLE_BUFFER_SIZE with 512.
  destruct (Z.eqb_spec (wpos b + 1) 512) as [E|E]; [by rewrite E|]. rewrite Z.mod_small by lia. done.
Qed.
Lemma feed_ok b c : ring_ok b -> ring_ok (feed b c).
Proof.
  intros Hb. destruct (decide (c = 0)) as [->|Hc]; [done|]. pose proof (feed_wpos b c Hb Hc) as Ew. destruct Hb as [H1 H2 H3].
  split; [unfold feed; by zbool|rewrite Ew; apply Z.mod_pos_bound; lia|].
  intros i. unfold feed. zbool. cbn. destruct (decide (wpos b = i)) as [->|]; [|by rewrite lookup_total_insert_ne].
  rewrite lookup_total_insert_eq. apply Z.mod_pos_bound. lia.
Qed.

(** It is appended to the queue, unless the queue is full. *)
Lemma feed_pending b c : ring_ok b -> 0 < c < 256 -> pending_count b < 511 ->
  pending (feed b c) = pending b ++ [c] /\ pending_count (feed b c) = pending_count b + 1.
Proof.
  intros Hb Hc Hn. pose proof (feed_wpos b c Hb ltac:(lia)) as Ew. destruct Hb as [H1 H2 H3].
  assert (En : pending_count (feed b c) = pending_count b + 1).
  { unfold pending_count in *. rewrite Ew. unfold feed. zbool. cbn. rewrite Zminus_mod_idemp_l.
    replace (wpos b + 1 - rpos b) with ((wpos b - rpos b) + 1) by lia. rewrite <- Zplus_mod_idemp_l. apply Z.mod_small.
    pose proof (Z.mod_pos_bound (wpos b - rpos b) 512 ltac:(lia)). lia. }
  split; [|done]. unfold pending. rewrite En. assert (H0 : 0 <= pending_count b) by (apply Z.mod_pos_bound; lia).
  assert (Ebuf : cbuf (feed b c) = <[wpos b := c]> (cbuf b) /\ rpos (feed b c) = rpos b).
  { unfold feed. zbool. cbn. by rewrite Z.mod_small by lia. }
  destruct Ebuf as [-> ->].
  assert (Epos : (rpos b + pending_count b) mod 512 = wpos b).
  { unfold pending_count. rewrite Zplus_mod_idemp_r. replace (rpos b + (wpos b - rpos b)) with (wpos b) by lia. apply Z.mod_small. done. }
  rewrite seqZ_app by lia. rewrite fmap_app. f_equal.
  - apply list_fmap_ext. intros i x Hi%lookup_seqZ. apply lookup_total_insert_ne. intros E.
    rewrite <- Epos in E. revert E. pose proof (Z.mod_pos_bound (rpos b + pending_count b) 512 ltac:(lia)). zdiv.
  - rewrite seqZ_cons, seqZ_nil by lia. rewrite Z.add_0_l. cbn. rewrite Epos. by rewrite lookup_total_insert_eq.
Qed.

Lemma feeds_pending l : forall b, ring_ok b -> Forall (fun c => 0 <= c < 256) l -> pending_count b + Z.of_nat (length (nonzero l)) < 512 ->
  pending (feeds l b) = pending b ++ nonzero l /\ ring_ok (feeds l b) /\ pending_count (feeds l b) = pending_count b + Z.of_nat (length (nonzero l)).
Proof.
  induction l as [|c l IH]; intros b Hb Hl Hn; [cbn; rewrite app_nil_r; split_and!; done || lia|].
  apply Forall_cons in Hl as [Hc Hl]. unfold nonzero in *. cbn [feeds foldl]. fold (feeds l (feed b c)). destruct (decide (c = 0)) as [->|Hc0].
  - rewrite filter_cons_False in * by tauto. by apply IH.
  - rewrite filter_cons_True in * by done. cbn [length] in Hn. destruct (feed_pending b c Hb ltac:(lia) ltac:(lia)) as [E1 E2].
    destruct (IH (feed b c)) as (I1 & I2 & I3); [by apply feed_ok|done|lia|]. rewrite I1, I3, E1, E2, <- app_assoc. cbn [length]. split_and!; done || lia.
Qed.
Lemma feeds_ok l : forall b, ring_ok b -> ring_ok (feeds l b).
Proof. induction l as [|c l IH]; intros b Hb; [done|]. by apply IH, feed_ok. Qed.
Lemma feeds_positions l : forall b, ring_ok b -> rpos (feeds l b) = rpos b /\ wpos (feeds l b) = (wpos b + Z.of_nat (length (nonzero l))) mod 512.
Proof.
  induction l as [|c l IH]; intros b Hb; [cbn; rewrite Z.add_0_r, Z.mod_small by apply Hb; done|].
  unfold nonzero in *. cbn [feeds foldl]. fold (feeds l (feed b c)). destruct (IH (feed b c) (feed_ok _ _ Hb)) as [-> ->].
  destruct (decide (c = 0)) as [->|Hc0].
  - rewrite filter_cons_False by tauto. by split.
  - rewrite filter_cons_True by done. cbn [length]. rewrite (feed_wpos _ _ Hb Hc0), Zplus_mod_idemp_l. split; [unfold feed; by zbool|f_equal; lia].
Qed.

(** The next character is taken from the front. *)
Definition pop (b : cons_t) : cons_t := Cons (cbuf b) (if u32 (rpos b + 1) =? CONSOLE_BUFFER_SIZE then 0 else u32 (rpos b + 1)) (wpos b).
Lemma pop_pending b c l : ring_ok b -> pending b = c :: l ->
  rpos b <> wpos b /\ cbuf b !!! rpos b = c /\ pending (pop b) = l /\ ring_ok (pop b) /\ pending_count (pop b) = pending_count b - 1.
Proof.
  intros [H1 H2 H3] E. assert (H0 : 0 < pending_count b).
  { assert (Hl : length (pending b) = S (length l)) by (by rewrite E). unfold pending in Hl. rewrite length_fmap, length_seqZ in Hl. lia. }
  assert (Hne : rpos b <> wpos b) by (intros Eq; unfold pending_count in H0; rewrite Eq, Z.sub_diag in H0; vm_compute in H0; discriminate).
  assert (Er : (if u32 (rpos b + 1) =? CONSOLE_BUFFER_SIZE then 0 else u32 (rpos b + 1)) = (rpos b + 1) mod 512).
  { rewrite u32_small by (unfold W32; lia). change CONSOLE_BUFFER_SIZE with 512.
    destruct (Z.eqb_spec (rpos b + 1) 512) as [Eq|Eq]; [by rewrite Eq|]. rewrite Z.mod_small by lia. done. }
  assert (En : pending_count (pop b) = pending_count b - 1).
  { unfold pending_count, pop in *. cbn. rewrite Er, Zminus_mod_idemp_r. replace (wpos b - (rpos b + 1)) with (wpos b - rpos b - 1) by lia.
    rewrite <- Zminus_mod_idemp_l. apply Z.mod_small. pose proof (Z.mod_pos_bound (wpos b - rpos b) 512 ltac:(lia)). lia. }
  unfold pending in E. rewrite seqZ_cons in E by lia. cbn [fmap list_fmap] in E. injection E as E1 E2.
  split_and!; [done| | | |done].
  - rewrite <- E1. f_equal. rewrite Z.add_0_r, Z.mod_small; done.
  - rewrite <- E2. unfold pending. rewrite En. cbn. rewrite Er. replace (Z.pred (pending_count b)) with (pending_count b - 1) by lia.
    rewrite <- (fmap_add_seqZ 1 0), <- list_fmap_compose by lia. apply list_fmap_ext. intros i x _. cbn.
    f_equal. rewrite Zplus_mod_idemp_l. f_equal. lia.
  - split; cbn; [rewrite Er; apply Z.mod_pos_bound; lia|done|done].
Qed.
Lemma pending_nil b : ring_ok b -> pending b = [] -> rpos b = wpos b.
Proof.
  intros [H1 H2 H3] E. apply fmap_nil_inv in E. assert (Hl : length (seqZ 0 (pending_count b)) = 0%nat) by (by rewrite E). rewrite length_seqZ in Hl.
  unfold pending_count in Hl. pose proof (Z.mod_pos_bound (wpos b - rpos b) 512 ltac:(lia)). assert ((wpos b - rpos b) mod 512 = 0) by lia. zdiv.
Qed.

(** ** Interrupts of the console *)
Definition with_cons (b : cons_t) (lk : Spinlock.spinlock_t) (t : term) : term := Term (com t) (vid t) (kb t) b lk (debug_lk t).

Section cons_intr.
Context (ks : kstack) (Hks : kstack_ok ks) (proc : K term Z).
(** [J n l t]: at most [n] characters are still to come, [l] have come;
    [Jend l t]: the device has no more. *)
Context (J : Z -> list Z -> term -> Prop) (Jend : list Z -> term -> Prop).
Context (Hstable : forall n l t b lk, J n l t -> J n l (with_cons b lk t)).
Context (Hend : forall l t b lk, Jend l t -> Jend l (with_cons b lk t)).
Context (Hproc : forall n l t, J n l t -> 0 <= n -> wp proc (fun c t' =>
  cons t' = cons t /\ cons_lk t' = cons_lk t /\ (c = -1 /\ Jend l t' \/ 0 <= c < 256 /\ 0 < n /\ J (n - 1) (l ++ [c]) t')) t).

Lemma cons_intr_wp n t Q : J n [] t -> 0 <= n < 4294967296 -> ring_ok (cons t) -> cons_lk t = Spinlock.free_lock ->
  (forall l t', Jend l t' -> cons t' = feeds l (cons t) -> Forall (fun c => 0 <= c < 256) l -> cons_lk t' = Spinlock.free_lock -> Q tt t') ->
  wp (cons_intr ks proc) Q t.
Proof.
  intros HJ Hn Hr Hlk HQ. unfold cons_intr. do 2 wp_step. cbn [lget l_cons_lk]. rewrite Hlk. unfold Spinlock.free_lock.
  eapply wp_of_eq; [by apply Spinlock.acquire_free|]. set (t1 := lset l_cons_lk _ t).
  assert (HJ1 : J n [] t1) by (apply (Hstable n [] t (cons t) (Spinlock.held_lock ks) HJ)). wp_step.
  apply (wp_mono _ (fun _ t' => exists l, Jend l t' /\ cons t' = feeds l (cons t) /\ Forall (fun c => 0 <= c < 256) l)).
  2: { intros [] t' (l & He & Ec & Hl). wp_step. eapply wp_of_eq; [apply Spinlock.release_any|]. eapply HQ; [|exact Ec|exact Hl|done].
       apply (Hend l t' (cons t') Spinlock.free_lock He). }
  apply (wp_while_bound _ (fun k _ t' => 0 <= k - 1 /\ exists l, J (k - 1) l t' /\ cons t' = feeds l (cons t) /\ Forall (fun c => 0 <= c < 256) l) _ (n + 1));
    [|split; [lia|]; exists []; replace (n + 1 - 1) with n by lia; split_and!; done|lia].
  intros k [] t' (Hk & l & HJ' & Ec & Hl) _. wp_step. eapply wp_mono; [by apply Hproc|].
  intros c t2 (Ec2 & _ & [[-> He]|(Hc & Hkp & HJ2)]).
  - zbool. wp_step. exists l. split_and!; [done|congruence|done].
  - zbool. assert (Hl' : Forall (fun c => 0 <= c < 256) (l ++ [c])) by (apply Forall_app_2; [done|by apply Forall_singleton]).
    destruct (Z.eqb_spec c 0) as [->|Hc0].
    + wp_step. exists (k - 1). split; [|lia]. split; [lia|]. exists (l ++ [0]). split_and!; [done| |done].
      unfold feeds in *. rewrite foldl_app. cbn [foldl]. unfold feed at 1. cbn. congruence.
    + assert (Hr2 : ring_ok (cons t2)) by (rewrite Ec2, Ec; by apply feeds_ok). do 3 wp_step.
      wp_step; [pose proof (ro_w _ Hr2); unfold in_array, CONSOLE_BUFFER_SIZE; lia|]. do 4 wp_step.
      exists (k - 1). split; [|lia]. split; [lia|]. exists (l ++ [c]). split_and!; [|unfold feeds; rewrite foldl_app|done].
      * cbn. exact (Hstable _ _ t2 _ (cons_lk t2) HJ2).
      * cbn [foldl]. fold (feeds l (cons t)). rewrite <- Ec, <- Ec2. unfold feed. zbool. reflexivity.
Qed.
End cons_intr.

(** ** The keyboard *)
Section keyboard.
Context `{con_layout} (ks : kstack) (Hks : kstack_ok ks).

(** Rebooting!\n *)
Definition rebooting_pieces : list piece := PText <$> [82; 101; 98; 111; 111; 116; 105; 110; 103; 33; 10].
(** A terminal on which the message before a reboot can be printed. *)
Definition can_print (t : term) : Prop :=
  (exists p, term_ok t p) /\ lock_ready ks 100 (debug_lk t) /\
  literal esp_args (vmem (vid t)) (fun a => screen_area t a \/ args_area 0 a) lit_rebooting rebooting_pieces.

Lemma can_print_ext t t' : can_print t -> com t' = com t -> vid t' = vid t -> debug_lk t' = debug_lk t -> can_print t'.
Proof.
  intros ([p [O1 O2 O3]] & Hl & Hlit) E1 E2 E3. unfold can_print, screen_area in *. rewrite E2, E3. split_and!; [|done|done].
  exists p. split; by rewrite ?E1, ?E2.
Qed.
Lemma args_area_0 a : ~ args_area 0 a.
Proof. unfold args_area, args_at. lia. Qed.
Lemma literal_kept t t' p l n fmt ps : printed (args_area n) p l t t' ->
  literal esp_args (vmem (vid t)) (fun a => screen_area t a \/ args_area n a) fmt ps ->
  literal esp_args (vmem (vid t')) (fun a => screen_area t' a \/ args_area n a) fmt ps.
Proof.
  intros Hp [L1 L2 L3 L4 L5]. assert (Hm : forall a, ~ (screen_area t a \/ args_area n a) -> load8 (vmem (vid t')) a = load8 (vmem (vid t)) a).
  { intros a Ha. apply (pr_mem _ _ _ _ _ Hp); tauto. }
  assert (Esc : forall a, screen_area t' a <-> screen_area t a) by (intros a; unfold screen_area; by rewrite (pr_buf _ _ _ _ _ Hp)).
  split; [| |done|done|done].
  - eapply at_text_ext; [exact Hm| |exact L1]. intros a. by rewrite Esc.
  - eapply at_strings_ext; [exact Hm| |exact L2]. intros a. by rewrite Esc.
Qed.

Lemma print_rebooting_wp t : can_print t -> wp (print_rebooting ks) (fun _ t' => can_print t' /\ kb t' = kb t /\ cons t' = cons t /\ cons_lk t' = cons_lk t) t.
Proof.
  intros ([p Hok] & Hlk & Hlit). unfold print_rebooting. wp_step. change [] with (format_args rebooting_pieces).
  eapply (dprintf_wp ks Hks 0 100 t p); [lia|done|done|cbn; lia|done|intros a Ha; by apply args_area_0 in Ha| |vm_compute; reflexivity|].
  - apply (bool_decide_unpack _). vm_compute. exact I.
  - intros t' Hp. wp_step. split_and!; try apply Hp. split; [exists (paper_puts (screen_text (format_out rebooting_pieces)) p); apply Hp|].
    split; [by rewrite (pr_debug_lk _ _ _ _ _ Hp)|]. by eapply literal_kept.
Qed.

Lemma keyboard_intr_wp t : can_print t -> kbd_ok (kb t) -> ring_ok (cons t) -> cons_lk t = Spinlock.free_lock ->
  Z.of_nat (length (scancodes (kb t))) < 4294967296 ->
  wp (keyboard_intr ks) (fun _ t' => scancodes (kb t') = [] /\ kbd_ok (kb t') /\ ring_ok (cons t') /\ rpos (cons t') = rpos (cons t) /\
    cons_lk t' = Spinlock.free_lock /\ can_print t') t.
Proof.
  intros Hcp Hk Hr Hlk Hn. unfold keyboard_intr.
  eapply (cons_intr_wp ks Hks _ (fun n l t => can_print t /\ kbd_ok (kb t) /\ n = Z.of_nat (length (scancodes (kb t))))
    (fun l t => can_print t /\ kbd_ok (kb t) /\ scancodes (kb t) = [])); [| | |by split_and!|lia|done|done|].
  - intros n l t1 b lk (Hc & Hk1 & ->). split_and!; [by apply (can_print_ext t1)|done|done].
  - intros l t1 b lk (Hc & Hk1 & E). split_and!; [by apply (can_print_ext t1)|done|done].
  - intros n l t1 (Hc1 & Hk1 & ->) _.
    eapply wp_mono; [apply (kbd_proc_data_wp l_kb (print_rebooting ks) (fun t => can_print t /\ cons t = cons t1 /\ cons_lk t = cons_lk t1)); [done| | |done|done]|].
    + intros k t2 (Hc2 & E1 & E2). split_and!; [by apply (can_print_ext t2)|done|done].
    + intros t2 (Hc2 & E1 & E2). eapply wp_mono; [by apply print_rebooting_wp|]. intros [] t3 (? & ? & ? & ?). split_and!; [done|congruence|congruence|done].
    + cbn. intros c t2 ((Hc2 & Ec & El) & Hk2 & Hm). split_and!; [done|done|]. destruct (scancodes (kb t1)) as [|d ds] eqn:Es.
      * left. destruct Hm as [-> Ek]. split; [done|]. split_and!; [done|done|by rewrite Ek].
      * right. destruct Hm as [Hb E]. cbn [length]. rewrite E. split_and!; try done; lia.
  - intros l t' (Hc' & Hk' & Es) Ec Hl Hlk'. rewrite Ec. split_and!; try done; [by apply feeds_ok|]. by apply feeds_positions.
Qed.
End keyboard.

(** C30: whatever scan codes the keyboard sends, keyboard_intr returns with all
    of them consumed: every table access is within its table, the modifiers
    stay seven bits and the positions of the ring buffer stay in it, also
    when the keys ask for a reboot. *)
Theorem keyboard_intr_type `{con_layout} ks t : kstack_ok ks -> can_print ks t -> kbd_ok (kb t) -> ring_ok (cons t) ->
  cons_lk t = Spinlock.free_lock -> Z.of_nat (length (scancodes (kb t))) < 4294967296 ->
  wp (keyboard_intr ks) (fun _ t' => scancodes (kb t') = [] /\ kbd_ok (kb t') /\ ring_ok (cons t') /\ rpos (cons t') = rpos (cons t) /\
    cons_lk t' = Spinlock.free_lock /\ can_print ks t') t.
Proof. intros. by apply keyboard_intr_wp. Qed.

(** Ctrl, Alt and Del on the example terminal. *)
Definition demo_keys : term := Term (com demo_term) (vid demo_term) (Kbd [29; 56; 224; 83; 224; 211; 184; 157] 0 false) (Cons ∅ 0 511)
  Spinlock.free_lock (debug_lk demo_term).
Lemma demo_can_print : can_print (H := demo_con_layout) demo_kstack demo_keys.
Proof.
  split; [exists demo_paper; destruct demo_term_ok; by split|]. split; [by left|]. split.
  - refine (demo_cases _ _ _). vm_compute format_text. cbn [app].
    repeat (split; [split; [reflexivity|intros [Hc|Hc]; [revert Hc; apply demo_screen; cbn; lia|by apply args_area_0 in Hc]]|]). exact I.
  - intros w q l Hin. apply list_elem_of_In in Hin. cbn in Hin. destruct_or? Hin; try discriminate Hin; try done.
  - unfold rebooting_pieces. repeat constructor; cbn; lia.
  - vm_compute. split; [discriminate|reflexivity].
  - vm_compute. split; [discriminate|reflexivity].
Qed.
Lemma keyboard_intr_type_witness :
  wp (keyboard_intr (H := demo_con_layout) demo_kstack) (fun _ t' => scancodes (kb t') = [] /\ ring_ok (cons t')) demo_keys.
Proof.
  eapply wp_mono; [apply (keyboard_intr_type (H := demo_con_layout) demo_kstack demo_keys demo_kstack_ok demo_can_print)|].
  - split; [repeat constructor; cbn; lia|cbn; lia].
  - split; cbn; try lia. intros i. rewrite lookup_total_empty. cbn. lia.
  - reflexivity.
  - vm_compute. reflexivity.
  - intros [] t' (E & _ & Hr & _). split; [exact E|exact Hr].
Defined.

(** ** Characters from the serial line *)
Lemma line_ok_rx l u : line_ok u -> line_ok (upd_rx l u).
Proof. by intros []. Qed.
Lemma serial_proc_data_wp s Q : line_ok (su s) ->
  (forall u, line_ok u -> sent u = sent (su s) ->
     match u_rx (su s) with
     | [] => u_rx u = [] -> Q (-1) (Serial u (serial_exists s))
     | c :: l => u_rx u = l -> Q c (Serial u (serial_exists s))
     end) -> wp serial_proc_data Q s.
Proof.
  destruct s as [u e]. cbn. intros Hu HQ. unfold serial_proc_data. do 2 wp_step. cbn [lget l_su su].
  eapply (com_lsr_wp u u); [by split|]. intros u1 (Hu1 & Es1 & Er1) _. rewrite com_status_data, Er1.
  destruct (u_rx u) as [|c l] eqn:Er; [rewrite bool_decide_eq_true_2 by done|rewrite bool_decide_eq_false_2 by done]; cbn [negb].
  - wp_step. by apply HQ.
  - wp_step. cbn [lget lset l_su su serial_exists]. destruct (tick_ok u1 Hu1) as (Hu2 & Es2 & _ & _ & Er2). unfold com_in. do 4 wp_step.
    rewrite (lo_present _ Hu2), (lo_dlab _ Hu2), Er2, Er1. cbn [negb]. change (COM_RX =? COM_LSR) with false. change (COM_RX =? COM_RX) with true. cbv iota.
    do 3 wp_step. apply HQ; [by apply line_ok_rx| |done]. unfold sent in *. cbn. congruence.
Qed.

(** What has been typed and not yet been read. *)
Definition arrived (t : term) : list Z := if serial_exists (com t) then u_rx (su (com t)) else [].
Definition input (t : term) : list Z := pending (cons t) ++ nonzero (arrived t).
Record listening (t : term) (inp : list Z) : Prop := {
  ls_ring : ring_ok (cons t);
  ls_lk : cons_lk t = Spinlock.free_lock;
  ls_kb : scancodes (kb t) = [];
  ls_line : serial_exists (com t) = true -> line_ok (su (com t));
  ls_bytes : Forall (fun c => 0 <= c < 256) (arrived t);
  ls_rx : Z.of_nat (length (arrived t)) < 4294967296;
  ls_input : input t = inp;
  ls_chars : Forall (fun c => 0 < c < 256) inp;
  ls_fits : Z.of_nat (length inp) < 512
}.
(** Reading leaves the output alone. *)
Record same_out (t t' : term) : Prop := {
  so_vid : vid t' = vid t;
  so_kb : kb t' = kb t;
  so_debug_lk : debug_lk t' = debug_lk t;
  so_exists : serial_exists (com t') = serial_exists (com t);
  so_sent : serial_exists (com t) = true -> sent (su (com t')) = sent (su (com t))
}.
#[global] Instance same_out_trans : Transitive same_out.
Proof. intros t1 t2 t3 [] []. split; try congruence. intros. rewrite so_sent1 by congruence. by apply so_sent0. Qed.
Lemma pending_count_length b : ring_ok b -> Z.of_nat (length (pending b)) = pending_count b.
Proof. intros. unfold pending. rewrite length_fmap, length_seqZ. apply Z2Nat.id. apply Z.mod_pos_bound. lia. Qed.

Section getc.
Context `{con_layout} (ks : kstack) (Hks : kstack_ok ks).

(** The serial interrupt moves what has arrived to the ring. *)
Lemma serial_feed_wp t Q : ring_ok (cons t) -> cons_lk t = Spinlock.free_lock -> serial_exists (com t) = true -> line_ok (su (com t)) ->
  Forall (fun c => 0 <= c < 256) (u_rx (su (com t))) -> Z.of_nat (length (u_rx (su (com t)))) < 4294967296 ->
  (forall t', same_out t t' -> line_ok (su (com t')) -> u_rx (su (com t')) = [] -> cons t' = feeds (u_rx (su (com t))) (cons t) ->
     cons_lk t' = Spinlock.free_lock -> Q tt t') -> wp (serial_intr ks) Q t.
Proof.
  intros L1 L2 Ee L4 L5 L5' HQ. unfold serial_intr. do 2 wp_step. rewrite Ee.
  eapply (cons_intr_wp ks Hks _
    (fun n l t' => same_out t t' /\ line_ok (su (com t')) /\ n = Z.of_nat (length (u_rx (su (com t')))) /\ u_rx (su (com t)) = l ++ u_rx (su (com t')))
    (fun l t' => same_out t t' /\ line_ok (su (com t')) /\ u_rx (su (com t')) = [] /\ u_rx (su (com t)) = l)).
  - intros n l t1 b lk ([] & ? & ? & ?). by split_and!.
  - intros l t1 b lk ([] & ? & ? & ?). by split_and!.
  - intros n l t1 (So & Hl1 & -> & El) _. wp_step. apply serial_proc_data_wp; [done|]. intros u Hu Es. cbn [lget l_com].
    assert (So' : same_out t (lset l_com (Serial u (serial_exists (com t1))) t1)) by (destruct So; split; cbn; try done; intros; rewrite Es; auto).
    destruct (u_rx (su (com t1))) as [|c l'] eqn:Er; intros Eu; (split; [done|]); (split; [done|]).
    + left. split; [done|]. rewrite app_nil_r in El. by split_and!.
    + right. rewrite El in L5. apply Forall_app in L5 as [_ Hc]. apply Forall_inv in Hc. cbn [length].
      split; [done|]. split; [lia|]. cbn. rewrite Eu. split_and!; [done|done|lia|by rewrite <- app_assoc].
  - split_and!; [by split|done|reflexivity|done].
  - lia.
  - done.
  - done.
  - intros l t' (So & Hl' & Er' & <-) Ec Hb Hlk'. by apply HQ.
Qed.
(** Without keys the keyboard interrupt does nothing. *)
Lemma keyboard_none_wp t Q : ring_ok (cons t) -> cons_lk t = Spinlock.free_lock -> scancodes (kb t) = [] -> Q tt t -> wp (keyboard_intr ks) Q t.
Proof.
  intros L1 L2 L3 HQ. unfold keyboard_intr.
  eapply (cons_intr_wp ks Hks _ (fun n l t' => l = [] /\ com t' = com t /\ vid t' = vid t /\ kb t' = kb t /\ debug_lk t' = debug_lk t)
    (fun l t' => l = [] /\ com t' = com t /\ vid t' = vid t /\ kb t' = kb t /\ debug_lk t' = debug_lk t) ltac:(done) ltac:(done) _ 0); [done|done|done|done|].
  - intros l [] (-> & E1 & E2 & E3 & E4) Ec _ Hlk. cbn in *. subst. destruct t. cbn in *. by subst.
  Unshelve. intros n l t1 (-> & E1 & E2 & E3 & E4) _. unfold kbd_proc_data, kb_stat. do 3 wp_step. cbn [lget l_kb]. rewrite E3, L3.
    rewrite bool_decide_eq_true_2 by done. change (Z.land 0 KBS_DIB =? 0) with true. cbv iota. wp_step. split; [done|]. split; [done|].
    left. split; [done|]. split_and!; try done.
Qed.

Lemma serial_intr_wp t inp Q : listening t inp ->
  (forall t', listening t' inp -> same_out t t' -> arrived t' = [] -> Q tt t') -> wp (serial_intr ks) Q t.
Proof.
  intros [L1 L2 L3 L4 L5 L5' L6 L7 L8] HQ. destruct (serial_exists (com t)) eqn:Ee.
  2: { unfold serial_intr. do 2 wp_step. rewrite Ee. wp_step. apply HQ; [by split; rewrite ?Ee|by split|]. unfold arrived. by rewrite Ee. }
  assert (Ea : arrived t = u_rx (su (com t))) by (unfold arrived; by rewrite Ee). rewrite Ea in *.
  assert (Hlen : Z.of_nat (length (nonzero (u_rx (su (com t))))) + pending_count (cons t) < 512).
  { rewrite <- L6 in L8. unfold input in L8. rewrite length_app, Ea in L8. pose proof (pending_count_length _ L1). lia. }
  destruct (feeds_pending (u_rx (su (com t))) (cons t) L1 L5 ltac:(lia)) as (F1 & F2 & F3).
  apply serial_feed_wp; try done; [by apply L4|]. intros t' So Hl' Er' Ec Hlk'.
  assert (Ea' : arrived t' = []) by (unfold arrived; destruct (serial_exists (com t')); done).
  apply HQ; [|done|done]. destruct So as [S1 S2 S3 S4 S5]. split; rewrite ?Ec, ?S2, ?Ea'; try done.
  unfold input. rewrite Ec, F1, Ea'. rewrite <- L6. unfold input. rewrite Ea. by rewrite app_nil_r.
Qed.

Lemma cons_getc_wp t c inp Q : listening t (c :: inp) ->
  (forall t', listening t' inp -> same_out t t' -> Q (s8 c) t') -> wp (cons_getc ks) Q t.
Proof.
  intros Hl HQ. unfold cons_getc. wp_step. eapply serial_intr_wp; [exact Hl|]. clear Hl. intros t1 Hl1 So1 Ea1. wp_step.
  rename t1 into t2, Ea1 into Ea2. destruct Hl1 as [L1 L2 L3 L4 L5 L5' L6 L7 L8]. apply keyboard_none_wp; [done|done|done|].
  unfold input in L6. rewrite Ea2 in L6. cbn [nonzero filter list_filter] in L6. rewrite app_nil_r in L6.
  destruct (pop_pending _ _ _ L1 L6) as (Hne & Ec & Ep & Hr & _). pose proof (ro_r _ L1) as Hrp.
  do 2 wp_step. cbn [lget l_cons_lk]. rewrite L2. unfold Spinlock.free_lock. eapply wp_of_eq; [by apply Spinlock.acquire_free|]. do 2 wp_step.
  cbn [cons lset l_cons_lk]. zbool. wp_step. wp_step; [unfold in_array, CONSOLE_BUFFER_SIZE; lia|]. do 5 wp_step. eapply wp_of_eq; [apply Spinlock.release_any|]. wp_step. rewrite Ec.
  apply Forall_cons in L7 as [_ L7]. cbn [length] in L8. apply HQ; [split; cbn; try done; [|lia]|].
  - unfold input. cbn. fold (pop (cons t2)). change (arrived _) with (arrived t2). rewrite Ea2. cbn. by rewrite app_nil_r.
  - etrans; [exact So1|]. by split.
Qed.

Lemma getchar_wp t c inp Q : listening t (c :: inp) ->
  (forall t', listening t' inp -> same_out t t' -> Q (s8 c) t') -> wp (getchar ks) Q t.
Proof.
  intros Hl HQ. unfold getchar. apply (wp_while_rounds _ 1); [|lia]. cbn [wp_rounds]. wp_step. eapply cons_getc_wp; [exact Hl|].
  intros t' Hl' So. pose proof (ls_chars _ _ Hl) as Hc. apply Forall_cons in Hc as [Hc _]. destruct (s8_mod c ltac:(lia)) as [_ E0].
  rewrite (proj2 (Z.eqb_neq (s8 c) 0)) by (intros E; apply E0 in E; lia). wp_step. by apply HQ.
Qed.
End getc.

(** ** readline: an editor of one line

    What the typed characters make of the line: the line, what is echoed and
    the rest of the input, when the line is ended.  A byte above 127 is read
    as a negative character, which readline takes for an error. *)
Fixpoint edit (line : list Z) (inp : list Z) : option (list Z * list Z * list Z) :=
  match inp with
  | [] => None
  | c :: inp =>
      let echo (x : Z) r := match r with Some (l, e, rest) => Some (l, x :: e, rest) | None => None end in
      if 128 <=? c then None
      else if ((c =? 8) || (c =? 127)) && (0 <? Z.of_nat (length line)) then echo 8 (edit (removelast line) inp)
      else if (32 <=? c) && (Z.of_nat (length line) <? BUFLEN - 1) then echo c (edit (line ++ [c]) inp)
      else if (c =? 10) || (c =? 13) then Some (line, [10], inp)
      else edit line inp
  end.

Section readline.
Context `{con_layout} (ks : kstack) (Hks : kstack_ok ks).
Context (t0 : term) (p0 : paper).

(** In the middle of a line: [out] has been printed, [line] is in the buffer,
    and memory elsewhere is as before. *)
Record session (out line inp : list Z) (t : term) : Prop := {
  se_ok : term_ok t (paper_puts (screen_text out) p0);
  se_in : listening t inp;
  se_sent : serial_exists (com t0) = true -> sent (su (com t)) = sent (su (com t0)) ++ serial_text out;
  se_exists : serial_exists (com t) = serial_exists (com t0);
  se_buf : crt_buf (terminal (vid t)) = crt_buf (terminal (vid t0));
  se_line : forall i x, line !! i = Some x -> load8 (vmem (vid t)) (linebuf + Z.of_nat i) = x;
  se_mem : forall a, ~ screen_area t0 a -> ~ linebuf <= a < linebuf + BUFLEN -> load8 (vmem (vid t)) a = load8 (vmem (vid t0)) a
}.
Context (Hlb : 0 <= linebuf /\ linebuf + BUFLEN < W32).
Context (Hdis : forall a, linebuf <= a < linebuf + BUFLEN -> ~ screen_area t0 a).

Lemma session_getchar out line c inp t Q : session out line (c :: inp) t ->
  (forall t', session out line inp t' -> Q (s8 c) t') -> wp (getchar ks) Q t.
Proof.
  intros [S1 S2 S3 S4 S5 S6 S7] HQ. eapply getchar_wp; [done|exact S2|]. intros t' Hl' [O1 O2 O3 O4 O5]. apply HQ.
  split; rewrite ?O1; try done.
  - destruct S1 as [A1 A2 A3]. split; rewrite ?O1; try done. apply (ls_line _ _ Hl').
  - intros E. rewrite O5 by congruence. by apply S3.
  - congruence.
Qed.

Lemma listening_printed E p l t t' inp : printed E p l t t' -> listening t inp -> listening t' inp.
Proof.
  intros [[A1 _ _] P2 P3 P4 _ _ P7 P8 P9 _] [L1 L2 L3 L4 L5 L5' L6 L7 L8].
  assert (Ea : arrived t' = arrived t) by (unfold arrived; by rewrite P4, P3).
  split; rewrite ?P8, ?P9, ?P7, ?Ea; try done. unfold input. by rewrite P8, Ea.
Qed.
Lemma session_putchar out line line' inp c t Q : session out line inp t -> 0 <= c < 128 -> (length line <= 1023)%nat -> line' `prefix_of` line ->
  (forall t', session (out ++ [c]) line' inp t' -> Q tt t') -> wp (putchar c) Q t.
Proof.
  intros [S1 S2 S3 S4 S5 S6 S7] Hc Hlen [k ->] HQ. unfold putchar. rewrite <- (s8_small c) by done.
  eapply (cons_putc_wp (fun _ => False)); [exact S1|lia|]. intros t' Hp. pose proof (listening_printed _ _ _ _ _ _ Hp S2) as Hl'.
  destruct Hp as [P1 P2 P3 P4 P5 P6 P7 P8 P9 P10]. apply HQ. rewrite length_app in Hlen.
  assert (Esc : forall a, screen_area t a <-> screen_area t0 a) by (intros a; unfold screen_area; by rewrite S5).
  split; try congruence; try done.
  - unfold screen_text, paper_puts in *. by rewrite fmap_app, foldl_app.
  - intros E. rewrite P2, S3 by congruence. unfold serial_text. by rewrite bind_app, app_assoc.
  - intros i x Hi. pose proof (lookup_lt_Some _ _ _ Hi). rewrite P6; [apply S6; by apply lookup_app_l_Some| |tauto].
    rewrite Esc. apply Hdis. unfold BUFLEN. lia.
  - intros a Ha Hb. rewrite P6; [by apply S7|by rewrite Esc|tauto].
Qed.

(** A character into the buffer. *)
Lemma session_store out line inp c t Q : session out line inp t -> (length line <= 1023)%nat -> 0 <= c < 256 ->
  (forall t', session out (line ++ [c]) inp t' -> Q tt t') -> wp (zoom l_tmem (st8 (u32 (linebuf + Z.of_nat (length line))) c)) Q t.
Proof.
  intros [S1 S2 S3 S4 S5 S6 S7] Hlen Hc HQ. unfold BUFLEN in *. rewrite u32_small by lia. unfold st8. do 2 wp_step. apply HQ.
  set (a0 := linebuf + Z.of_nat (length line)). cbn [lget l_tmem lens_comp l_vid l_vmem lset].
  assert (Hm : forall a, a <> a0 -> load8 (store8 (vmem (vid t)) a0 c) a = load8 (vmem (vid t)) a) by (intros; by apply load8_store8_ne).
  assert (Hsc : forall a, screen_area t0 a -> a <> a0) by (intros a Ha ->; eapply Hdis; [|exact Ha]; unfold a0; lia).
  split; cbn; try done.
  - destruct S1 as [A1 [B1 B2 B3 B4 B5 B6 B7] A3]. split; [done| |done]. split; cbn; try done; [by apply mem_ok_store8|].
    intros i Hi. rewrite <- (B3 i Hi). apply load16_ext. intros b Hb. apply Hm, Hsc. unfold screen_area. rewrite <- S5. crt.
  - destruct S2 as [L1 L2 L3 L4 L5 L5' L6 L7 L8]. by split.
  - intros i x Hi. apply lookup_app_Some in Hi as [Hi|[Hle Hi]].
    + pose proof (lookup_lt_Some _ _ _ Hi). rewrite Hm by (unfold a0; lia). by apply S6.
    + apply list_lookup_singleton_Some in Hi as [Hi <-]. replace i with (length line) by lia. fold a0. rewrite load8_store8_same. by apply Z.mod_small.
  - intros a Ha Hb. rewrite Hm by (unfold a0, BUFLEN in *; lia). by apply S7.
Qed.

Lemma removelast_prefix {A} (l : list A) : removelast l `prefix_of` l /\ length (removelast l) = (length l - 1)%nat.
Proof.
  destruct l as [|x l] using rev_ind; [done|]. rewrite removelast_last, length_app. cbn. split; [by exists [x]|lia].
Qed.

(** The loop of readline does what [edit] says. *)
Lemma edit_wp inp : forall line out t echo res rest Q, edit line inp = Some (res, echo, rest) -> session out line inp t -> (length line <= 1023)%nat ->
  (forall t', session (out ++ echo) (res ++ [0]) rest t' -> Q linebuf t') ->
  wp_rounds (fun i =>
    c ← getchar ks;
    if c <? 0 then
      dprintf ks lit_read_error [u32 c] ;;
      mret (inr 0)
    else if ((c =? 8) || (c =? 127)) && (0 <? i) then
      putchar 8 ;;
      mret (inl (i - 1))
    else if (32 <=? c) && (i <? BUFLEN - 1) then
      putchar c ;;
      check (in_array i BUFLEN) ;;
      zoom l_tmem (st8 (u32 (linebuf + i)) c) ;;
      mret (inl (i + 1))
    else if (c =? 10) || (c =? 13) then
      putchar 10 ;;
      check (in_array i BUFLEN) ;;
      zoom l_tmem (st8 (u32 (linebuf + i)) 0) ;;
      mret (inr linebuf)
    else mret (inl i)) (length inp) (Z.of_nat (length line)) Q t.
Proof.
  induction inp as [|c inp IH]; intros line out t echo res rest Q He Hs Hlen HQ; [done|]. cbn [edit] in He. cbn [length wp_rounds].
  pose proof (Forall_inv (ls_chars _ _ (se_in _ _ _ _ Hs))) as Hcp. cbv beta in Hcp.
  wp_step. eapply session_getchar; [exact Hs|]. clear Hs. intros t1 Hs1.
  destruct (Z.leb_spec 128 c) as [?|Hc]; [done|].
  rewrite s8_small by lia. rewrite (proj2 (Z.ltb_ge c 0)) by lia.
  destruct (((c =? 8) || (c =? 127)) && (0 <? Z.of_nat (length line))) eqn:Eb.
  { destruct (removelast_prefix line) as [Hpre Hl]. destruct (edit (removelast line) inp) as [[[res' echo'] rest']|] eqn:Ed; [|done]. injection He as <- <- <-.
    wp_step. eapply session_putchar; [exact Hs1|lia|exact Hlen|exact Hpre|]. intros t2 Hs2. wp_step.
    replace (Z.of_nat (length line) - 1) with (Z.of_nat (length (removelast line))) by lia.
    eapply IH; [exact Ed|exact Hs2|lia|]. intros t' Hs'. rewrite <- app_assoc in Hs'. by apply HQ. }
  destruct ((32 <=? c) && (Z.of_nat (length line) <? BUFLEN - 1)) eqn:Ei; change (BUFLEN - 1) with 1023 in *.
  { destruct (edit (line ++ [c]) inp) as [[[res' echo'] rest']|] eqn:Ed; [|done]. injection He as <- <- <-.
    wp_step. eapply session_putchar; [exact Hs1|lia|exact Hlen|done|]. intros t2 Hs2. wp_step.
    wp_step; [unfold in_array, BUFLEN; lia|]. wp_step. eapply session_store; [exact Hs2|exact Hlen|lia|]. intros t3 Hs3. wp_step.
    replace (Z.of_nat (length line) + 1) with (Z.of_nat (length (line ++ [c]))) by (rewrite length_app; cbn; lia).
    eapply IH; [exact Ed|exact Hs3|rewrite length_app; cbn; lia|]. intros t' Hs'. rewrite <- app_assoc in Hs'. by apply HQ. }
  destruct ((c =? 10) || (c =? 13)) eqn:En.
  { injection He as <- <- <-. wp_step. eapply session_putchar; [exact Hs1|lia|exact Hlen|done|]. intros t2 Hs2. wp_step.
    wp_step; [unfold in_array, BUFLEN; lia|]. wp_step. eapply session_store; [exact Hs2|exact Hlen|lia|]. intros t3 Hs3. wp_step. by apply HQ. }
  wp_step. eapply IH; [exact He|exact Hs1|exact Hlen|exact HQ].
Qed.
End readline.

(** C26: readline prints the prompt and edits the line that is typed: it
    returns the line that the typed characters make of it, with backspace
    and delete taking back the last character, echoes what it does on both
    devices, stops at the end of the line and leaves the rest of the input
    for the next call. *)
Theorem readline_edits `{con_layout} ks t p prompt ptxt inp line echo rest : kstack_ok ks -> term_ok t p -> lock_ready ks 100 (debug_lk t) ->
  prompt <> 0 -> let ps := [PStr 0 prompt ptxt] in
  literal esp_args (vmem (vid t)) (fun a => screen_area t a \/ args_area 1 a) lit_s ps -> is_text ptxt ->
  (forall a, args_area 1 a -> ~ screen_area t a) ->
  0 <= linebuf /\ linebuf + BUFLEN < W32 -> (forall a, linebuf <= a < linebuf + BUFLEN -> ~ screen_area t a) ->
  listening t inp -> edit [] inp = Some (line, echo, rest) ->
  wp (readline ks prompt) (fun r t' => r = linebuf /\
    (forall i x, (line ++ [0]) !! i = Some x -> load8 (vmem (vid t')) (linebuf + Z.of_nat i) = x) /\
    term_ok t' (paper_puts (screen_text (ptxt ++ echo)) p) /\
    (serial_exists (com t) = true -> sent (su (com t')) = sent (su (com t)) ++ serial_text (ptxt ++ echo)) /\
    listening t' rest) t.
Proof.
  intros Hks Hok Hlk Hp0 ps Hlit Htx Hargs Hlb Hdis Hin He. unfold readline. zbool.
  assert (Eo : format_out ps = ptxt) by (unfold format_out; cbn; by rewrite app_nil_r).
  pose proof (li_ok _ _ _ _ _ Hlit) as Hpo. apply Forall_inv in Hpo. destruct Hpo as (_ & _ & _ & Hlen & _).
  do 2 wp_step. change [prompt] with (format_args ps).
  eapply (dprintf_wp ks Hks 1 100 t p); [lia|done|done|cbn; lia|done|done|by rewrite Eo|rewrite Eo; lia|]. rewrite Eo. intros t1 Hp1. wp_step.
  pose proof (listening_printed _ _ _ _ _ _ Hp1 Hin) as Hin1. destruct Hp1 as [P1 P2 P3 P4 P5 P6 P7 P8 P9 P10].
  assert (Hdis1 : forall a, linebuf <= a < linebuf + BUFLEN -> ~ screen_area t1 a) by (intros a Ha; unfold screen_area; rewrite P5; by apply Hdis).
  apply (wp_while_rounds _ (length inp)).
  2: { pose proof (ls_fits _ _ Hin). lia. }
  eapply (edit_wp ks Hks t1 (paper_puts (screen_text ptxt) p) Hlb Hdis1 inp [] []); [exact He| |cbn; lia|].
  - split; try done. intros _. by rewrite app_nil_r.
  - intros t' [S1 S2 S3 S4 S5 S6 S7]. cbn [app] in *. split; [done|]. split; [done|]. split; [|split; [|done]].
    + unfold screen_text, paper_puts in *. by rewrite fmap_app, foldl_app.
    + intros E. rewrite S3, P2 by congruence. unfold serial_text. by rewrite bind_app, app_assoc.
Qed.

(** Someone has typed l s DEL x and Enter, and a after that. *)
Definition demo_typed : term := Term (Serial (upd_rx [108; 115; 127; 120; 13; 97] demo_uart) true) (vid demo_term) (Kbd [] 0 false) (Cons ∅ 0 0)
  Spinlock.free_lock (debug_lk demo_term).
Lemma demo_typed_ok : term_ok demo_typed demo_paper.
Proof. destruct demo_term_ok as [H1 H2 H3]. split; [intros _; destruct (H1 eq_refl); by split|done|done]. Qed.
Lemma demo_listening : listening demo_typed [108; 115; 127; 120; 13; 97].
Proof.
  split.
  - split; [done|done|]. intros i. cbn. rewrite lookup_total_empty. cbn. lia.
  - done.
  - done.
  - intros _. destruct demo_typed_ok as [H1 _ _]. by apply H1.
  - repeat constructor; lia.
  - done.
  - vm_compute. reflexivity.
  - repeat constructor; lia.
  - done.
Qed.
Lemma demo_prompt : literal 5000 (vmem (vid demo_typed))
  (fun a => screen_area demo_typed a \/ args_area (H := demo_con_layout) 1 a) 910 [PStr 0 1100 [36; 62; 32]].
Proof.
  assert (Ho : forall a, a < 5000 -> ~ (screen_area demo_typed a \/ args_area (H := demo_con_layout) 1 a)).
  { intros a Ha [Hc|[Hc _]]; [|cbn in Hc; lia]. revert Hc. apply demo_screen. lia. }
  split.
  - refine (demo_cases _ _ _). vm_compute format_text. cbn [app]. repeat (split; [split; [reflexivity|apply Ho; lia]|]). exact I.
  - intros w q l Hin. apply list_elem_of_singleton in Hin. injection Hin as -> -> ->. split; [|intros i Hi; apply Ho; cbn in Hi; lia].
    split; [cbn; unfold W32; lia| |set_solver by lia|reflexivity]. refine (demo_cases _ _ _). repeat (split; [reflexivity|]). exact I.
  - repeat constructor; cbn; unfold is_u32, W32; lia.
  - vm_compute. split; [discriminate|reflexivity].
  - vm_compute. split; [discriminate|reflexivity].
Qed.
Lemma readline_edits_witness :
  wp (readline (H := demo_con_layout) demo_kstack 1100) (fun r t' => r = 8192 /\ listening t' [97] /\
    load8 (vmem (vid t')) 8192 = 108 /\ load8 (vmem (vid t')) 8193 = 120 /\ load8 (vmem (vid t')) 8194 = 0 /\
    sent (su (com t')) = [36; 62; 32; 108; 115; 8; 120; 13; 10]) demo_typed.
Proof.
  pose proof (readline_edits (H := demo_con_layout) demo_kstack demo_typed demo_paper 1100 [36; 62; 32] [108; 115; 127; 120; 13; 97]
    [108; 120] [108; 115; 8; 120; 10] [97] demo_kstack_ok demo_typed_ok ltac:(left; reflexivity) ltac:(discriminate) demo_prompt
    ltac:(apply (bool_decide_unpack _); vm_compute; exact I)
    ltac:(intros a Ha; apply demo_screen; unfold args_area, args_at in Ha; cbn in Ha; lia)
    ltac:(vm_compute; split; [discriminate|reflexivity])
    ltac:(intros a Ha; apply demo_screen; unfold BUFLEN in Ha; cbn in Ha; lia) demo_listening ltac:(vm_compute; reflexivity)) as Hw.
  eapply wp_mono; [exact Hw|]. intros r t' (-> & Hm & _ & Hs & Hl). split; [reflexivity|]. split; [exact Hl|].
  split; [exact (Hm 0%nat 108 eq_refl)|]. split; [exact (Hm 1%nat 120 eq_refl)|]. split; [exact (Hm 2%nat 0 eq_refl)|].
  rewrite (Hs eq_refl). vm_compute. reflexivity.
Defined.

(** C37: the ring buffer does not notice that it is full: when 512 characters
    arrive before one is read, the write position meets the read position,
    all of them are lost and cons_getc finds nothing. *)
Theorem console_overrun_loses `{con_layout} ks t : kstack_ok ks -> ring_ok (cons t) -> cons_lk t = Spinlock.free_lock ->
  scancodes (kb t) = [] -> serial_exists (com t) = true -> line_ok (su (com t)) -> pending (cons t) = [] ->
  Forall (fun c => 0 < c < 256) (u_rx (su (com t))) -> length (u_rx (su (com t))) = 512%nat ->
  wp (cons_getc ks) (fun r t' => r = 0 /\ pending (cons t') = [] /\ arrived t' = []) t.
Proof.
  intros Hks Hr Hlk Hkb He Hl Hp Hrx Hn. unfold cons_getc. wp_step.
  apply serial_feed_wp; try done; [by eapply Forall_impl; [exact Hrx|]; cbn; lia|by rewrite Hn|]. intros t1 So Hl1 Er1 Ec1 Hlk1.
  assert (Hnz : nonzero (u_rx (su (com t))) = u_rx (su (com t))).
  { clear -Hrx. unfold nonzero. induction Hrx as [|c l Hc _ IH]; [done|]. rewrite filter_cons_True by lia. by rewrite IH. }
  destruct (feeds_positions (u_rx (su (com t))) (cons t) Hr) as [Fr Fw]. rewrite Hnz, Hn in Fw.
  pose proof (pending_nil _ Hr Hp) as Eq. pose proof (ro_r _ Hr) as Hrr.
  assert (Eq1 : rpos (cons t1) = wpos (cons t1)).
  { rewrite Ec1, Fr, Fw, Eq. change (Z.of_nat 512) with (1 * 512). rewrite Z.mod_add by lia. rewrite Z.mod_small by lia. done. }
  wp_step. apply keyboard_none_wp; [done|by rewrite Ec1; apply feeds_ok|done|by rewrite (so_kb _ _ So)|].
  do 2 wp_step. cbn [lget l_cons_lk]. rewrite Hlk1. unfold Spinlock.free_lock. eapply wp_of_eq; [by apply Spinlock.acquire_free|]. do 2 wp_step.
  cbn [cons lset l_cons_lk]. zbool. do 2 wp_step. eapply wp_of_eq; [apply Spinlock.release_any|]. wp_step. split; [done|]. split.
  - cbn. unfold pending, pending_count. rewrite Eq1, Z.sub_diag. reflexivity.
  - unfold arrived. cbn. destruct (serial_exists (com t1)); done.
Qed.

Definition demo_flood : term := Term (Serial (upd_rx (replicate 512 65) demo_uart) true) (vid demo_term) (Kbd [] 0 false) (Cons ∅ 7 7)
  Spinlock.free_lock (debug_lk demo_term).
Lemma console_overrun_loses_witness :
  wp (cons_getc (H := demo_con_layout) demo_kstack) (fun r t' => r = 0 /\ pending (cons t') = []) demo_flood.
Proof.
  eapply wp_mono; [apply (console_overrun_loses (H := demo_con_layout) demo_kstack demo_flood demo_kstack_ok)|].
  - split; cbn; [lia|lia|]. intros i. rewrite lookup_total_empty. cbn. lia.
  - reflexivity.
  - reflexivity.
  - reflexivity.
  - cbn. apply line_ok_rx. destruct demo_term_ok as [Hl _ _]. exact (Hl eq_refl).
  - vm_compute. reflexivity.
  - cbn [demo_flood com su u_rx upd_rx]. apply Forall_replicate. lia.
  - cbn [demo_flood com su u_rx upd_rx]. apply length_replicate.
  - intros r t' (E & Hp & _). split; [exact E|exact Hp].
Defined.
