(* ===== verification/User.v ===== *)
(** * The user library and the small user programs

    user/include/syscall.h, user/lib (printf, debug, proc, spinlock) and the
    programs user/idle and user/pingpong.  A user program sees its memory and
    the system call instruction, which is an argument: it takes the number
    of the call with the argument registers that the caller sets, and gives
    the error number and the result. *)

From stdpp Require Import base gmap list numbers.
From S2P Require Import Prelude Mem Str Fmt.

Definition SYS_puts : Z := 0.
Definition SYS_spawn : Z := 1.
Definition SYS_yield : Z := 2.
Definition SYS_open : Z := 3.
Definition SYS_close : Z := 4.
Definition SYS_read : Z := 5.
Definition SYS_write : Z := 6.
Definition SYS_mkdir : Z := 7.
Definition SYS_chdir : Z := 8.
Definition SYS_link : Z := 9.
Definition SYS_unlink : Z := 10.
Definition SYS_stat : Z := 11.
Definition MAX_BUF : Z := 512.

(** The addresses of the variables and literals of a program. *)
Class user_layout : Type := UserLayout {
  printbuf_addr : Z;    (* the local variable b of vcprintf *)
  uesp_args : Z;        (* where a caller puts variadic arguments *)
  u_null : Z;           (* (null) *)
  u_debug : Z; u_warn : Z; u_panic : Z;   (* [D] %s:%d:  and its like *)
  u_ping : Z; u_pong : Z; u_ding : Z;     (* ping started.\n and its like *)
  u_idle : Z;           (* idle\n *)
  u_launched : Z;       (* fstest in process %d.\n *)
  u_failed : Z          (* Failed to launch fstest.\n *)
}.

Section user.
Context {St : Type} (l_umem : lens St mem) (int30 : Z -> list Z -> K St (Z * Z)) `{user_layout}.

(** ** System calls: -1 for an error *)
Definition errno_result (r : Z * Z) (v : Z) : Z := if negb (r.1 =? 0) then -1 else v.

Definition sys_puts (s len : Z) : K St unit := int30 SYS_puts [s; len] ;; mret tt.
Definition sys_spawn (elf_id quota : Z) : K St Z :=
  r ← int30 SYS_spawn [elf_id; quota]; mret (errno_result r (s32 r.2)).
Definition sys_yield : K St unit := int30 SYS_yield [] ;; mret tt.
Definition sys_read (fd buf n : Z) : K St Z :=
  r ← int30 SYS_read [fd; buf; n]; mret (errno_result r (s32 r.2)).
Definition sys_write (fd p n : Z) : K St Z :=
  r ← int30 SYS_write [fd; p; n]; mret (errno_result r (s32 r.2)).
Definition sys_close (fd : Z) : K St Z :=
  r ← int30 SYS_close [fd]; mret (errno_result r 0).
Definition sys_fstat (fd st : Z) : K St Z :=
  r ← int30 SYS_stat [fd; st]; mret (errno_result r 0).
Definition sys_link (old new : Z) : K St Z :=
  r ← int30 SYS_link [old; new]; mret (errno_result r 0).
Definition sys_unlink (path : Z) : K St Z :=
  r ← int30 SYS_unlink [path]; mret (errno_result r 0).
Definition sys_open (path omode : Z) : K St Z :=
  r ← int30 SYS_open [path; omode]; mret (errno_result r (s32 r.2)).
Definition sys_mkdir (path : Z) : K St Z :=
  r ← int30 SYS_mkdir [path]; mret (errno_result r 0).
Definition sys_chdir (path : Z) : K St Z :=
  r ← int30 SYS_chdir [path]; mret (errno_result r 0).

Definition spawn (exec quota : Z) : K St Z := sys_spawn exec quota.
Definition yield : K St unit := sys_yield.

(** ** printf

    struct printbuf in memory: idx, cnt and the characters. *)
Definition pb_idx : Z := printbuf_addr.
Definition pb_cnt : Z := printbuf_addr + 4.
Definition pb_buf : Z := printbuf_addr + 8.
Definition uld32 (a : Z) : K St Z := gets (fun s => load32 (lget l_umem s) a).
Definition ust32 (a v : Z) : K St unit := zoom l_umem (modify (fun m => store32 m a (u32 v))).
Definition ust8 (a v : Z) : K St unit := zoom l_umem (st8 a v).

Definition putch (ch : Z) : K St unit :=
  idx ← uld32 pb_idx;
  let idx := s32 idx in
  idx' ← int_add idx 1;
  ust32 pb_idx idx' ;;
  check (in_array idx MAX_BUF) ;;
  ust8 (pb_buf + idx) ch ;;
  idx ← uld32 pb_idx;
  let idx := s32 idx in
  (if idx =? MAX_BUF - 1 then
     check (in_array idx MAX_BUF) ;;
     ust8 (pb_buf + idx) 0 ;;
     sys_puts pb_buf idx ;;
     ust32 pb_idx 0
   else mret tt) ;;
  cnt ← uld32 pb_cnt;
  cnt ← int_add (s32 cnt) 1;
  ust32 pb_cnt cnt.

Definition vcprintf (fmt ap : Z) : K St Z :=
  ust32 pb_idx 0 ;;
  ust32 pb_cnt 0 ;;
  user_vprintfmt l_umem putch u_null fmt ap ;;
  idx ← uld32 pb_idx;
  let idx := s32 idx in
  check (in_array idx MAX_BUF) ;;
  ust8 (pb_buf + idx) 0 ;;
  sys_puts pb_buf idx ;;
  cnt ← uld32 pb_cnt;
  mret (s32 cnt).

Definition printf (fmt : Z) (args : list Z) : K St Z :=
  zoom l_umem (modify (push_args uesp_args args)) ;;
  vcprintf fmt uesp_args.

(** ** debug, warn, panic (user/lib/debug.c) *)
Definition debug (file line fmt ap : Z) : K St unit :=
  printf u_debug [file; line] ;;
  vcprintf fmt ap ;;
  mret tt.
Definition warn (file line fmt ap : Z) : K St unit :=
  printf u_warn [file; line] ;;
  vcprintf fmt ap ;;
  mret tt.
Definition panic (file line fmt ap : Z) : K St unit :=
  printf u_panic [file; line] ;;
  vcprintf fmt ap ;;
  while (fun _ : unit => yield ;; mret (inl tt)) tt.

(** ** Spinlocks (user/lib/spinlock.c): a word of memory

    A program that finds the word set exchanges 1 for 1 until another
    process clears it, which the memory of this process does not show. *)
Definition xchg (addr newval : Z) : K St Z :=
  old ← uld32 addr;
  ust32 addr newval ;;
  mret old.
Definition spinlock_init (lk : Z) : K St unit := ust32 lk 0.
Definition spinlock_acquire (lk : Z) : K St unit :=
  old ← xchg lk 1;
  if negb (old =? 0) then spin else mret tt.
Definition spinlock_holding (lk : Z) : K St bool := v ← uld32 lk; mret (negb (v =? 0)).
Definition spinlock_release (lk : Z) : K St unit :=
  h ← spinlock_holding lk;
  if negb h then mret tt else xchg lk 0 ;; mret tt.

(** ** Programs *)
Definition ping_main : K St Z := printf u_ping [] ;; mret 0.
Definition pong_main : K St Z := printf u_pong [] ;; mret 0.
Definition ding_main : K St Z := printf u_ding [] ;; mret 0.
Definition idle_main : K St Z :=
  printf u_idle [] ;;
  fstest_pid ← spawn 4 1000;
  (if negb (fstest_pid =? -1) then printf u_launched [u32 fstest_pid]
   else printf u_failed []) ;;
  mret 0.
End user.
