(* ===== verification/UserSpec.v ===== *)
(** * What user programs print

    printf on the system call: its output is the rendered text, in order and
    without loss, whatever its length.  The kernel is seen through the class
    [puts_service], the contract of SYS_puts. *)

From stdpp Require Import base gmap list numbers.
From S2P Require Import Prelude Mem Str Fmt FmtSpec User.

(** What a program relies on: SYS_puts outputs the bytes of a text that is
    followed by a zero, and leaves the memory of the process alone. *)
Class puts_service {St} (l_umem : lens St mem) (int30 : Z -> list Z -> K St (Z * Z)) : Type := {
  output : St -> list Z;
  output_mem m s : output (lset l_umem m s) = output s;
  puts_prints s buf l : (forall i x, (l ++ [0]) !! i = Some x -> load8 (lget l_umem s) (buf + Z.of_nat i) = x) ->
    Forall (fun c => 0 < c < 256) l -> Z.of_nat (length l) < 512 -> 0 <= buf -> buf + 512 < W32 ->
    wp (int30 SYS_puts [buf; Z.of_nat (length l)])
       (fun _ s' => output s' = output s ++ l /\ lget l_umem s' = lget l_umem s) s
}.

(** ** The buffer of printf in memory *)
Section pbuf.
Context `{user_layout} (Hpb : 0 <= printbuf_addr /\ printbuf_addr + 520 < W32).

Definition pb_area (a : Z) : Prop := printbuf_addr <= a < printbuf_addr + 520.
(** The buffer holds [l] and the count [n]; memory outside it is [m0]. *)
Record pbuf (m0 : mem) (l : list Z) (n : Z) (m : mem) : Prop := {
  pb_out : forall a, ~ pb_area a -> load8 m a = load8 m0 a;
  pb_i : load32 m pb_idx = Z.of_nat (length l);
  pb_n : load32 m pb_cnt = n;
  pb_chars : forall i x, l !! i = Some x -> load8 m (pb_buf + Z.of_nat i) = x
}.

Lemma pbuf_byte m0 l n m i v : pbuf m0 l n m -> Z.of_nat (length l) <= i < 512 -> pbuf m0 l n (store8 m (pb_buf + i) v).
Proof.
  intros [B1 B2 B3 B4] Hi. unfold pb_area, pb_idx, pb_cnt, pb_buf in *. split; unfold pb_area, pb_idx, pb_cnt, pb_buf.
  - intros a Ha. rewrite load8_store8_ne by lia. by apply B1.
  - rewrite <- B2. apply load32_ext. intros b Hb. apply load8_store8_ne. lia.
  - rewrite <- B3. apply load32_ext. intros b Hb. apply load8_store8_ne. lia.
  - intros j x Hj. pose proof (lookup_lt_Some _ _ _ Hj). rewrite load8_store8_ne by lia. by apply B4.
Qed.
Lemma pbuf_cnt m0 l n m n' : pbuf m0 l n m -> is_u32 n' -> pbuf m0 l n' (store32 m pb_cnt n').
Proof.
  intros [B1 B2 B3 B4] Hn. unfold pb_area, pb_idx, pb_cnt, pb_buf in *. split; unfold pb_area, pb_idx, pb_cnt, pb_buf.
  - intros a Ha. rewrite load8_store32_out by lia. by apply B1.
  - by rewrite load32_store32_ne by lia.
  - by apply load32_store32_same.
  - intros j x Hj. rewrite load8_store32_out by lia. by apply B4.
Qed.
(** A new index: the characters in front of it are the text. *)
Lemma pbuf_idx m0 l l' n m : pbuf m0 l n m -> Z.of_nat (length l') <= 512 ->
  (forall i x, l' !! i = Some x -> load8 m (pb_buf + Z.of_nat i) = x) -> pbuf m0 l' n (store32 m pb_idx (Z.of_nat (length l'))).
Proof.
  intros [B1 B2 B3 B4] Hl Hx. unfold pb_area, pb_idx, pb_cnt, pb_buf in *. split; unfold pb_area, pb_idx, pb_cnt, pb_buf.
  - intros a Ha. rewrite load8_store32_out by lia. by apply B1.
  - apply load32_store32_same. unfold is_u32, W32. lia.
  - by rewrite load32_store32_ne by lia.
  - intros j x Hj. rewrite load8_store32_out by lia. by apply Hx.
Qed.
Lemma pbuf_push m0 l n m c : pbuf m0 l n m -> Z.of_nat (length l) < 512 ->
  pbuf m0 (l ++ [c mod 256]) n (store8 (store32 m pb_idx (Z.of_nat (length l) + 1)) (pb_buf + Z.of_nat (length l)) c).
Proof.
  intros [B1 B2 B3 B4] Hl. unfold pb_area, pb_idx, pb_cnt, pb_buf in *. split; unfold pb_area, pb_idx, pb_cnt, pb_buf.
  - intros a Ha. rewrite load8_store8_ne, load8_store32_out by lia. by apply B1.
  - rewrite length_app. cbn [length]. rewrite Nat2Z.inj_add, <- (load32_store32_same m printbuf_addr (Z.of_nat (length l) + Z.of_nat 1)) by (unfold is_u32, W32; lia).
    apply load32_ext. intros b Hb. apply load8_store8_ne. lia.
  - rewrite <- B3, <- (load32_store32_ne m printbuf_addr (printbuf_addr + 4) (Z.of_nat (length l) + 1)) by lia. apply load32_ext. intros b Hb. apply load8_store8_ne. lia.
  - intros j x Hj. apply lookup_app_Some in Hj as [Hj|[Hle Hj]].
    + pose proof (lookup_lt_Some _ _ _ Hj). rewrite load8_store8_ne, load8_store32_out by lia. by apply B4.
    + apply list_lookup_singleton_Some in Hj as [Hj <-]. replace j with (length l) by lia. apply load8_store8_same.
Qed.
End pbuf.

(** ** printf *)
Section printf.
Context {St : Type} (l_umem : lens St mem) `{!LensLaws l_umem} (int30 : Z -> list Z -> K St (Z * Z)) `{!puts_service l_umem int30}.
Context `{user_layout} (Hpb : 0 <= printbuf_addr /\ printbuf_addr + 520 < W32) (out0 : list Z).

Lemma uld32_wp a s (Q : Z -> St -> Prop) : Q (load32 (lget l_umem s) a) s -> wp (uld32 l_umem a) Q s.
Proof. intros HQ. unfold uld32. by wp_step. Qed.
Lemma ust32_wp a v s (Q : unit -> St -> Prop) : is_u32 v -> Q tt (lset l_umem (store32 (lget l_umem s) a v) s) -> wp (ust32 l_umem a v) Q s.
Proof. intros Hv HQ. unfold ust32. do 2 wp_step. rewrite u32_small by done. done. Qed.
Lemma ust8_wp a v s (Q : unit -> St -> Prop) : Q tt (lset l_umem (store8 (lget l_umem s) a v) s) -> wp (ust8 l_umem a v) Q s.
Proof. intros HQ. unfold ust8, st8. by do 2 wp_step. Qed.

(** What has been output and what is in the buffer is what was printed. *)
Definition printf_rep (m0 : mem) (l : list Z) (s : St) : Prop :=
  Forall (fun c => 0 < c < 256) l /\ exists l1 l2, l = l1 ++ l2 /\ output s = out0 ++ l1 /\ Z.of_nat (length l2) < 511 /\
    pbuf m0 l2 (Z.of_nat (length l)) (lget l_umem s).

(** The buffer is output. *)
Lemma user_flush_wp {A} m0 l n s (k : K St A) (Q : A -> St -> Prop) : pbuf m0 l n (lget l_umem s) -> Z.of_nat (length l) < 512 -> Forall (fun c => 0 < c < 256) l ->
  (forall s', output s' = output s ++ l -> pbuf m0 l n (lget l_umem s') -> wp k Q s') ->
  wp (check (in_array (Z.of_nat (length l)) MAX_BUF) ;; ust8 l_umem (pb_buf + Z.of_nat (length l)) 0 ;; sys_puts int30 pb_buf (Z.of_nat (length l)) ;; k) Q s.
Proof.
  intros Hb Hl Ht HQ. wp_step. wp_step; [unfold in_array, MAX_BUF; lia|]. wp_step. apply ust8_wp.
  set (m := store8 _ _ _). assert (Hb' : pbuf m0 l n m) by (apply pbuf_byte; [done|lia]).
  wp_step. unfold sys_puts. wp_step. eapply wp_mono; [apply puts_prints; [| exact Ht|lia|unfold pb_buf; lia|unfold pb_buf, W32 in *; lia]|].
  - rewrite lget_lset. intros i x Hi. apply lookup_app_Some in Hi as [Hi|[Hle Hi]]; [by apply Hb'|].
    apply list_lookup_singleton_Some in Hi as [Hi <-]. replace i with (length l) by lia. apply load8_store8_same.
  - intros r s' [E1 E2]. wp_step. rewrite output_mem in E1. rewrite lget_lset in E2. apply HQ; [done|by rewrite E2].
Qed.

Lemma uputch_wp m0 l s c : printf_rep m0 l s -> 0 < c mod 256 -> Z.of_nat (length l) < 2147483647 ->
  wp (putch l_umem int30 c) (fun _ s' => printf_rep m0 (l ++ [c mod 256]) s') s.
Proof.
  intros (Ht & l1 & l2 & El & Eo & H511 & Hb) Hc Hl. pose proof (Z.mod_pos_bound c 256 ltac:(lia)) as Hcb.
  assert (Ht' : Forall (fun c => 0 < c < 256) (l ++ [c mod 256])) by (apply Forall_app_2; [done|apply Forall_singleton; lia]).
  unfold putch. wp_step. apply uld32_wp. rewrite (pb_i _ _ _ _ Hb). rewrite s32_small by lia. wp_int. wp_step.
  apply ust32_wp; [unfold is_u32, W32; lia|]. wp_step. wp_step; [unfold in_array, MAX_BUF; lia|]. wp_step. apply ust8_wp. rewrite lget_lset, lset_lset.
  pose proof (pbuf_push m0 l2 _ _ c Hb ltac:(lia)) as Hb1. set (m1 := store8 _ _ _) in *. set (s1 := lset l_umem m1 s).
  assert (G1 : lget l_umem s1 = m1) by apply lget_lset. assert (O1 : output s1 = out0 ++ l1) by (by unfold s1; rewrite output_mem).
  assert (Htail : forall l1' l2' s2, l ++ [c mod 256] = l1' ++ l2' -> output s2 = out0 ++ l1' -> Z.of_nat (length l2') < 511 ->
    pbuf m0 l2' (Z.of_nat (length l)) (lget l_umem s2) ->
    wp (cnt ← uld32 l_umem pb_cnt; cnt ← int_add (s32 cnt) 1; ust32 l_umem pb_cnt cnt) (fun _ s' => printf_rep m0 (l ++ [c mod 256]) s') s2).
  { intros l1' l2' s2 E2 O2 H2 B2. wp_step. apply uld32_wp. rewrite (pb_n _ _ _ _ B2), s32_small by lia. wp_int.
    apply ust32_wp; [unfold is_u32, W32; lia|]. split; [done|]. exists l1', l2'. rewrite output_mem, lget_lset. split_and!; try done.
    replace (Z.of_nat (length (l ++ [c mod 256]))) with (Z.of_nat (length l) + 1) by (rewrite length_app; cbn; lia).
    eapply pbuf_cnt; [exact B2|unfold is_u32, W32; lia]. }
  wp_step. apply uld32_wp. rewrite G1, (pb_i _ _ _ _ Hb1). rewrite s32_small by (rewrite length_app; cbn; lia). wp_step. change (MAX_BUF - 1) with 511.
  destruct (Z.eqb_spec (Z.of_nat (length (l2 ++ [c mod 256]))) 511) as [E|E].
  - assert (Ht2 : Forall (fun c => 0 < c < 256) (l2 ++ [c mod 256])).
    { rewrite El, <- app_assoc in Ht'. by apply Forall_app in Ht' as [_ ?]. }
    eapply (user_flush_wp m0 (l2 ++ [c mod 256])); [by rewrite G1|lia|exact Ht2|]. intros s2 O2 B2. rewrite O1 in O2.
    apply ust32_wp; [unfold is_u32, W32; lia|]. apply (Htail (l ++ [c mod 256]) []); [by rewrite app_nil_r|by rewrite output_mem, O2, El, <- !app_assoc|cbn; lia|].
    rewrite lget_lset. change 0 with (Z.of_nat (length (@nil Z))). by eapply pbuf_idx.
  - wp_step. apply (Htail l1 (l2 ++ [c mod 256])); [by rewrite El, app_assoc|done| |by rewrite G1].
    rewrite length_app in E |- *. cbn [length] in *. lia.
Qed.

Program Definition printf_sink : sink l_umem (putch l_umem int30) := {|
  sk_rep := printf_rep;
  sk_area := pb_area;
  sk_char c := 0 < c;
  sk_max := 2147483647
|}.
Next Obligation. intros m l s a (_ & l1 & l2 & _ & _ & _ & Hb) Ha. by apply (pb_out _ _ _ _ Hb). Qed.
Next Obligation. intros m l s _. apply lset_lget. Qed.
Next Obligation. intros m l s c Hs Hc Hl. by apply uputch_wp. Qed.
End printf.

Section vcprintf.
Context {St : Type} (l_umem : lens St mem) `{!LensLaws l_umem} (int30 : Z -> list Z -> K St (Z * Z)) `{!puts_service l_umem int30}.
Context `{user_layout} (Hpb : 0 <= printbuf_addr /\ printbuf_addr + 520 < W32).

Lemma vcprintf_wp fmt ap ps s Q : format_at (lget l_umem s) pb_area fmt ap ps -> Forall (fun c => 0 < c < 256) (format_out ps) ->
  Z.of_nat (length (format_out ps)) < 2147483648 ->
  (forall s', output s' = output s ++ format_out ps -> (forall a, ~ pb_area a -> load8 (lget l_umem s') a = load8 (lget l_umem s) a) ->
     Q (Z.of_nat (length (format_out ps))) s') ->
  wp (vcprintf l_umem int30 fmt ap) Q s.
Proof.
  intros Hf Ht Hlen HQ. unfold vcprintf, user_vprintfmt. wp_step. apply ust32_wp; [unfold is_u32, W32; lia|]. wp_step.
  apply ust32_wp; [unfold is_u32, W32; lia|]. rewrite lget_lset, lset_lset.
  set (m0 := lget l_umem s). set (m1 := store32 (store32 m0 pb_idx 0) pb_cnt 0).
  assert (Hout : forall a, ~ pb_area a -> load8 m1 a = load8 m0 a).
  { intros a Ha. unfold m1, pb_area, pb_idx, pb_cnt in *. by rewrite !load8_store32_out by lia. }
  assert (Hb0 : pbuf m1 [] 0 m1).
  { split; [done| | |done]; unfold m1.
    - unfold pb_idx, pb_cnt. rewrite load32_store32_ne by lia. by apply load32_store32_same.
    - by apply load32_store32_same. }
  wp_step. eapply (vprintfmt_wp l_umem (putch l_umem int30) (sink0 := printf_sink l_umem int30 Hpb (output s)) _ _ m1 fmt ap ps _ []).
  - eapply format_at_ext; [exact Hout| |exact Hf]; done.
  - split; [constructor|]. exists [], []. split_and!; [done|by rewrite output_mem, app_nil_r|cbn; lia|by rewrite lget_lset].
  - split; [|cbn; lia]. eapply Forall_impl; [exact Ht|]. cbn. lia.
  - intros s1 (_ & l1 & l2 & El & Eo & H511 & Hb). cbn [app] in El, Hb. wp_step. apply uld32_wp. rewrite (pb_i _ _ _ _ Hb), s32_small by lia.
    eapply (user_flush_wp l_umem int30 Hpb m1 l2); [exact Hb|lia|rewrite El in Ht; by apply Forall_app in Ht as [_ ?]|].
    intros s2 O2 B2. wp_step. apply uld32_wp. wp_step. rewrite (pb_n _ _ _ _ B2), s32_small by lia. apply HQ.
    + by rewrite O2, Eo, El, <- app_assoc.
    + intros a Ha. rewrite (pb_out _ _ _ _ B2 a Ha). by apply Hout.
Qed.

(** With arguments: memory changes in the buffer and in the arguments. *)
Definition u_area (n : nat) (a : Z) : Prop := pb_area a \/ args_at uesp_args n a.
Lemma printf_wp n fmt ps s Q : (length (format_args ps) <= n)%nat -> literal uesp_args (lget l_umem s) (u_area n) fmt ps ->
  (forall a, args_at uesp_args n a -> ~ pb_area a) -> Forall (fun c => 0 < c < 256) (format_out ps) ->
  Z.of_nat (length (format_out ps)) < 2147483648 ->
  (forall s', output s' = output s ++ format_out ps -> (forall a, ~ u_area n a -> load8 (lget l_umem s') a = load8 (lget l_umem s) a) ->
     Q (Z.of_nat (length (format_out ps))) s') ->
  wp (printf l_umem int30 fmt (format_args ps)) Q s.
Proof.
  intros Hn Hlit Hdis Ht Hlen HQ. unfold printf. do 3 wp_step. set (m := push_args _ _ _).
  apply (vcprintf_wp fmt uesp_args ps); [rewrite lget_lset; by apply (literal_pushed _ _ _ n)|done|done|].
  rewrite output_mem, lget_lset. intros s' E Hm. apply HQ; [done|]. intros a Ha. unfold u_area, args_at in Ha. rewrite Hm by tauto.
  apply push_args_out. lia.
Qed.
Lemma literal_same n m m' fmt ps : (forall a, ~ u_area n a -> load8 m' a = load8 m a) -> literal uesp_args m (u_area n) fmt ps -> literal uesp_args m' (u_area n) fmt ps.
Proof. intros Hm [L1 L2 L3 L4 L5]. split; try done; [by eapply at_text_ext|by eapply at_strings_ext]. Qed.
End vcprintf.

(** ** The program idle *)
Definition text (l : list Z) : list piece := PText <$> l.
(** idle\n *)
Definition idle_pieces : list piece := text [105; 100; 108; 101; 10].
(** fstest in process %d.\n *)
Definition launched_pieces (pid : Z) : list piece :=
  text [102; 115; 116; 101; 115; 116; 32; 105; 110; 32; 112; 114; 111; 99; 101; 115; 115; 32] ++ [PNum Signed false 0 false pid] ++ text [46; 10].
(** Failed to launch fstest.\n *)
Definition failed_pieces : list piece :=
  text [70; 97; 105; 108; 101; 100; 32; 116; 111; 32; 108; 97; 117; 110; 99; 104; 32; 102; 115; 116; 101; 115; 116; 46; 10].
Definition idle_output (errno pid : Z) : list Z :=
  format_out idle_pieces ++ format_out (if errno =? 0 then launched_pieces pid else failed_pieces).

Lemma numeral_positive n : 0 <= n < W64 -> Forall (fun c => 0 < c < 256) (numeral 10 n).
Proof. intros Hn. eapply Forall_impl; [by apply numeral10_digits|]. cbn. lia. Qed.
Lemma launched_text pid : 0 <= pid < 2147483648 -> Forall (fun c => 0 < c < 256) (format_out (launched_pieces pid)) /\
  Z.of_nat (length (format_out (launched_pieces pid))) < 100.
Proof.
  intros Hp. unfold launched_pieces, format_out. rewrite !bind_app, !length_app, !Forall_app. cbn -[numeral Z.of_nat].
  rewrite (proj2 (Z.ltb_ge pid 0)), Z.abs_eq by lia. cbn -[numeral Z.of_nat]. change (padded 0 32 (numeral 10 pid)) with (numeral 10 pid). rewrite app_nil_r. split.
  - split_and!; [repeat constructor|apply numeral_positive; unfold W64; lia|repeat constructor].
  - pose proof (numeral_rec_short 64 10 pid 9 ltac:(lia) ltac:(cbn; lia)) as Hl. fold (numeral 10 pid) in Hl. lia.
Qed.


(** A kernel for the example: it outputs the bytes and spawns process 7. *)
Definition demo_int30 (n : Z) (args : list Z) : K (mem * list Z) (Z * Z) :=
  match args with
  | [buf; len] => (if n =? SYS_puts then modify (fun s => (s.1, s.2 ++ read_bytes s.1 buf len)) else mret tt) ;; mret (0, 7)
  | _ => mret (3, 0)
  end.
#[global] Instance l_fst_laws {M T} : LensLaws (@l_fst M T).
Proof. by split; intros; [|destruct s|]. Qed.
Lemma read_bytes_text m buf l : (forall i x, l !! i = Some x -> load8 m (buf + Z.of_nat i) = x) -> read_bytes m buf (Z.of_nat (length l)) = l.
Proof.
  intros Hl. apply list_eq. intros i. unfold read_bytes. rewrite list_lookup_fmap. destruct (l !! i) as [x|] eqn:Ex.
  - pose proof (lookup_lt_Some _ _ _ Ex). rewrite lookup_seqZ_lt by lia. cbn. f_equal. by apply Hl.
  - apply lookup_ge_None in Ex. by rewrite lookup_seqZ_ge by lia.
Qed.
Program Definition demo_service : puts_service l_fst demo_int30 := {| output s := s.2 |}.
Next Obligation. done. Qed.
Next Obligation.
  intros [m o] buf l Hl _ _ _ _. unfold demo_int30. change (SYS_puts =? SYS_puts) with true. cbv iota. do 3 wp_step. cbn.
  split; [|done]. f_equal. apply read_bytes_text. intros i x Hi. apply Hl. by apply lookup_app_l_Some.
Qed.
Definition demo_user_layout : user_layout := UserLayout 5000 6000 900 910 930 950 960 970 980 1000 1100 1200.
Definition demo_user_mem : mem :=
  write_bytes (write_bytes (write_bytes ∅ 1000 (format_text idle_pieces ++ [0])) 1100 (format_text (launched_pieces 7) ++ [0]))
    1200 (format_text failed_pieces ++ [0]).

Lemma demo_user_out a : a < 5000 -> ~ u_area (H := demo_user_layout) 1 a.
Proof. unfold u_area, pb_area, args_at. cbn. lia. Qed.
Lemma demo_user_literal fmt ps : Forall piece_ok ps -> format_text ps <> [] -> (length (format_args ps) <= 1)%nat -> 1000 <= fmt < 2000 -> Z.of_nat (length (format_text ps)) < 1000 ->
  (forall w p l, PStr w p l ∉ ps) ->
  (forall i x, (format_text ps ++ [0]) !! i = Some x -> load8 demo_user_mem (fmt + Z.of_nat i) = x) ->
  literal 6000 demo_user_mem (u_area (H := demo_user_layout) 1) fmt ps.
Proof.
  intros Hok _ Ha Hf Hl Hs Ht. split; [| |done|unfold W32; lia|unfold W32; lia].
  - intros i x Hi. split; [by apply Ht|]. apply demo_user_out. apply lookup_lt_Some in Hi. rewrite length_app in Hi. cbn in Hi. lia.
  - intros w p l Hin. by apply Hs in Hin.
Qed.
Lemma text_no_strings l w p q : PStr w p q ∉ text l.
Proof. unfold text. intros (c & E & _)%list_elem_of_fmap. discriminate. Qed.

