(* ===== verification/Thread.v ===== *)
(** * Threads (kern/thread, kern/pcpu/PCPUIntro, kern/lib/kstack)

    Kernel contexts, thread control blocks, thread queues, the current
    thread of each processor and the scheduler. *)

From stdpp Require Import base gmap list numbers.
From S2P Require Import Prelude Lock Pmmap Pmm Container Mem Vmm.
Import Spinlock MContainer.

Definition SCHED_SLICE : Z := 5.
Definition LAPIC_TIMER_INTR_FREQ : Z := 1000.
Definition NOFILE : Z := 16.

Inductive t_state : Type := TSTATE_READY | TSTATE_RUN | TSTATE_SLEEP | TSTATE_DEAD.
#[global] Instance t_state_eq_dec : EqDecision t_state.
Proof. solve_decision. Defined.

(** A saved kernel context; also the registers of the running processor,
    with [eip] the address execution continues at. *)
Record kctx : Type := Kctx { esp : Z; edi : Z; esi : Z; ebx : Z; ebp : Z; eip : Z }.
#[global] Instance kctx_inhabited : Inhabited kctx := populate (Kctx 0 0 0 0 0 0).
#[global] Instance kctx_eq_dec : EqDecision kctx.
Proof. solve_decision. Defined.

(** Pointers (channel, openfiles, cwd) are addresses. *)
Record TCB : Type := Tcb {
  state : t_state; cpuid : Z; prev : Z; next : Z; channel : Z;
  openfiles : gmap Z Z; cwd : Z
}.
#[global] Instance TCB_inhabited : Inhabited TCB := populate (Tcb TSTATE_READY 0 0 0 0 ∅ 0).

Record TQueue : Type := Tq { head : Z; tail : Z }.
#[global] Instance TQueue_inhabited : Inhabited TQueue := populate (Tq 0 0).

(** Per-processor data; the hardware description arch_info is in Mp.v. *)
Record pcpu_t : Type := Pcpu { inited : bool; booted : bool; kstack_ptr : Z; pcpu_idx : Z }.
#[global] Instance pcpu_inhabited : Inhabited pcpu_t := populate (Pcpu false false 0 0).

Record thr : Type := Thr {
  vmst : vm;
  pcpu : gmap Z pcpu_t;
  kctx_pool : gmap Z kctx;
  TCBPool : gmap Z TCB;
  TQueuePool : gmap Z TQueue;
  CURID : gmap Z Z;
  sched_lk : spinlock_t;
  sched_ticks : gmap Z Z;
  cpu : kctx;
  pcpu_inited : bool
}.

Definition l_vm : lens thr vm := Lens vmst (fun x s =>
  Thr x (pcpu s) (kctx_pool s) (TCBPool s) (TQueuePool s) (CURID s) (sched_lk s) (sched_ticks s) (cpu s)
  (pcpu_inited s)).
Definition l_sched_lk : lens thr spinlock_t := Lens sched_lk (fun x s =>
  Thr (vmst s) (pcpu s) (kctx_pool s) (TCBPool s) (TQueuePool s) (CURID s) x (sched_ticks s) (cpu s)
  (pcpu_inited s)).
Definition set_pcpu (x : gmap Z pcpu_t) (s : thr) : thr :=
  Thr (vmst s) x (kctx_pool s) (TCBPool s) (TQueuePool s) (CURID s) (sched_lk s) (sched_ticks s) (cpu s)
      (pcpu_inited s).
Definition set_kctx_pool (x : gmap Z kctx) (s : thr) : thr :=
  Thr (vmst s) (pcpu s) x (TCBPool s) (TQueuePool s) (CURID s) (sched_lk s) (sched_ticks s) (cpu s)
      (pcpu_inited s).
Definition set_TCBPool (x : gmap Z TCB) (s : thr) : thr :=
  Thr (vmst s) (pcpu s) (kctx_pool s) x (TQueuePool s) (CURID s) (sched_lk s) (sched_ticks s) (cpu s)
      (pcpu_inited s).
Definition set_TQueuePool (x : gmap Z TQueue) (s : thr) : thr :=
  Thr (vmst s) (pcpu s) (kctx_pool s) (TCBPool s) x (CURID s) (sched_lk s) (sched_ticks s) (cpu s)
      (pcpu_inited s).
Definition set_CURID (x : gmap Z Z) (s : thr) : thr :=
  Thr (vmst s) (pcpu s) (kctx_pool s) (TCBPool s) (TQueuePool s) x (sched_lk s) (sched_ticks s) (cpu s)
      (pcpu_inited s).
Definition set_ticks (x : gmap Z Z) (s : thr) : thr :=
  Thr (vmst s) (pcpu s) (kctx_pool s) (TCBPool s) (TQueuePool s) (CURID s) (sched_lk s) x (cpu s)
      (pcpu_inited s).
Definition set_cpu (x : kctx) (s : thr) : thr :=
  Thr (vmst s) (pcpu s) (kctx_pool s) (TCBPool s) (TQueuePool s) (CURID s) (sched_lk s) (sched_ticks s) x (pcpu_inited s).
Definition set_pcpu_inited (x : bool) (s : thr) : thr :=
  Thr (vmst s) (pcpu s) (kctx_pool s) (TCBPool s) (TQueuePool s) (CURID s) (sched_lk s) (sched_ticks s)
      (cpu s) x.

Module PCPUIntro.
Definition pcpu_at (i : Z) : K thr pcpu_t :=
  check (in_array i NUM_CPUS) ;; gets (fun s => pcpu s !!! i).
Definition pcpu_update (i : Z) (f : pcpu_t -> pcpu_t) : K thr unit :=
  check (in_array i NUM_CPUS) ;; modify (fun s => set_pcpu (<[i := f (pcpu s !!! i)]> (pcpu s)) s).

Definition pcpu_set_zero : K thr unit := modify (set_pcpu ∅).
Definition pcpu_fields_init (i : Z) : K thr unit :=
  pcpu_update i (fun p => Pcpu true (booted p) (kstack_ptr p) (pcpu_idx p)) ;;
  pcpu_update i (fun p => Pcpu (inited p) (booted p) (kstack_ptr p) i).

(** The kernel stack in use names the processor. *)
Definition get_kstack_cpu_idx (ks : kstack) : Z := cpu_idx ks.
Definition pcpu_cur (ks : kstack) : K thr pcpu_t := pcpu_at (get_kstack_cpu_idx ks).
Definition get_pcpu_idx (ks : kstack) : K thr Z := p ← pcpu_cur ks; mret (pcpu_idx p).
Definition set_pcpu_idx (index i : Z) : K thr unit :=
  pcpu_update index (fun p => Pcpu (inited p) (booted p) (kstack_ptr p) i).
Definition get_pcpu_kstack_pointer (i : Z) : K thr Z := p ← pcpu_at i; mret (kstack_ptr p).
Definition set_pcpu_kstack_pointer (i ks : Z) : K thr unit :=
  pcpu_update i (fun p => Pcpu (inited p) (booted p) ks (pcpu_idx p)).
Definition get_pcpu_boot_info (i : Z) : K thr bool := p ← pcpu_at i; mret (booted p).
Definition set_pcpu_boot_info (i : Z) (b : bool) : K thr unit :=
  pcpu_update i (fun p => Pcpu (inited p) b (kstack_ptr p) (pcpu_idx p)).
Definition get_pcpu_inited_info (i : Z) : K thr bool := p ← pcpu_at i; mret (inited p).
End PCPUIntro.
Import PCPUIntro.

Module PKCtxIntro.
Definition kctx_update (pid : Z) (f : kctx -> kctx) : K thr unit :=
  check (in_array pid NUM_IDS) ;;
  modify (fun s => set_kctx_pool (<[pid := f (kctx_pool s !!! pid)]> (kctx_pool s)) s).
Definition kctx_set_esp (pid v : Z) : K thr unit :=
  kctx_update pid (fun k => Kctx v (edi k) (esi k) (ebx k) (ebp k) (eip k)).
Definition kctx_set_eip (pid v : Z) : K thr unit :=
  kctx_update pid (fun k => Kctx (esp k) (edi k) (esi k) (ebx k) (ebp k) v).

(** cswitch.S, from its entry, where [esp] points at the return address, to
    its [ret]: the return address and the callee-saved registers are saved,
    the others loaded, and the new return address is written to the top of
    the new stack and popped from there. *)
Definition cswitch (from_pid to_pid : Z) : K thr unit :=
  s ← get;
  let r := cpu s in
  let ecx := load32 (phys (vmst s)) (esp r) in
  kctx_update from_pid (fun _ => Kctx (esp r) (edi r) (esi r) (ebx r) (ebp r) ecx) ;;
  s ← get;
  let k := kctx_pool s !!! to_pid in
  zoom l_vm (write32 (esp k) (eip k)) ;;
  modify (set_cpu (Kctx (u32 (esp k + 4)) (edi k) (esi k) (ebx k) (ebp k) (eip k))).

Definition kctx_switch (from_pid to_pid : Z) : K thr unit :=
  check (in_array from_pid NUM_IDS && in_array to_pid NUM_IDS) ;; cswitch from_pid to_pid.
End PKCtxIntro.
Import PKCtxIntro.

Module PTCBIntro.
Definition tcb (pid : Z) : K thr TCB :=
  check (in_array pid NUM_IDS) ;; gets (fun s => TCBPool s !!! pid).
Definition tcb_update (pid : Z) (f : TCB -> TCB) : K thr unit :=
  check (in_array pid NUM_IDS) ;;
  modify (fun s => set_TCBPool (<[pid := f (TCBPool s !!! pid)]> (TCBPool s)) s).

Definition with_state (x : t_state) (t : TCB) : TCB :=
  Tcb x (cpuid t) (prev t) (next t) (channel t) (openfiles t) (cwd t).
Definition with_cpuid (x : Z) (t : TCB) : TCB :=
  Tcb (state t) x (prev t) (next t) (channel t) (openfiles t) (cwd t).
Definition with_prev (x : Z) (t : TCB) : TCB :=
  Tcb (state t) (cpuid t) x (next t) (channel t) (openfiles t) (cwd t).
Definition with_next (x : Z) (t : TCB) : TCB :=
  Tcb (state t) (cpuid t) (prev t) x (channel t) (openfiles t) (cwd t).
Definition with_chan (x : Z) (t : TCB) : TCB :=
  Tcb (state t) (cpuid t) (prev t) (next t) x (openfiles t) (cwd t).
Definition with_openfiles (x : gmap Z Z) (t : TCB) : TCB :=
  Tcb (state t) (cpuid t) (prev t) (next t) (channel t) x (cwd t).
Definition with_cwd (x : Z) (t : TCB) : TCB :=
  Tcb (state t) (cpuid t) (prev t) (next t) (channel t) (openfiles t) x.

Definition tcb_get_state (pid : Z) : K thr t_state := t ← tcb pid; mret (state t).
Definition tcb_set_state (pid : Z) (x : t_state) : K thr unit := tcb_update pid (with_state x).
Definition tcb_get_cpu (pid : Z) : K thr Z := t ← tcb pid; mret (cpuid t).
Definition tcb_set_cpu (pid x : Z) : K thr unit := tcb_update pid (with_cpuid x).
Definition tcb_get_prev (pid : Z) : K thr Z := t ← tcb pid; mret (prev t).
Definition tcb_set_prev (pid x : Z) : K thr unit := tcb_update pid (with_prev x).
Definition tcb_get_next (pid : Z) : K thr Z := t ← tcb pid; mret (next t).
Definition tcb_set_next (pid x : Z) : K thr unit := tcb_update pid (with_next x).

(** [root] is the inode that namei returns for the root directory.  The
    memzero clears sizeof(struct file star) bytes: the first slot only. *)
Definition tcb_init_at_id (root pid : Z) : K thr unit :=
  tcb_update pid (with_state TSTATE_DEAD) ;;
  tcb_update pid (with_cpuid NUM_CPUS) ;;
  tcb_update pid (with_prev NUM_IDS) ;;
  tcb_update pid (with_next NUM_IDS) ;;
  tcb_update pid (with_chan 0) ;;
  tcb_update pid (fun t => with_openfiles (<[0 := 0]> (openfiles t)) t) ;;
  tcb_update pid (with_cwd root).

Definition tcb_get_chan (pid : Z) : K thr Z := t ← tcb pid; mret (channel t).
Definition tcb_set_chan (pid x : Z) : K thr unit := tcb_update pid (with_chan x).
Definition tcb_get_openfiles (pid : Z) : K thr (gmap Z Z) := t ← tcb pid; mret (openfiles t).
Definition tcb_set_openfiles (pid fd f : Z) : K thr unit :=
  check (in_array fd NOFILE) ;;
  tcb_update pid (fun t => with_openfiles (<[fd := f]> (openfiles t)) t).
Definition tcb_get_cwd (pid : Z) : K thr Z := t ← tcb pid; mret (cwd t).
Definition tcb_set_cwd (pid x : Z) : K thr unit := tcb_update pid (with_cwd x).
End PTCBIntro.
Import PTCBIntro.

Module PTQueueIntro.
Definition tq (chid : Z) : K thr TQueue :=
  check (in_array chid (NUM_IDS + NUM_CPUS)) ;; gets (fun s => TQueuePool s !!! chid).
Definition tq_update (chid : Z) (f : TQueue -> TQueue) : K thr unit :=
  check (in_array chid (NUM_IDS + NUM_CPUS)) ;;
  modify (fun s => set_TQueuePool (<[chid := f (TQueuePool s !!! chid)]> (TQueuePool s)) s).

Definition tqueue_get_head (chid : Z) : K thr Z := q ← tq chid; mret (head q).
Definition tqueue_set_head (chid x : Z) : K thr unit := tq_update chid (fun q => Tq x (tail q)).
Definition tqueue_get_tail (chid : Z) : K thr Z := q ← tq chid; mret (tail q).
Definition tqueue_set_tail (chid x : Z) : K thr unit := tq_update chid (fun q => Tq (head q) x).
Definition tqueue_init_at_id (chid : Z) : K thr unit :=
  tq_update chid (fun q => Tq NUM_IDS (tail q)) ;;
  tq_update chid (fun q => Tq (head q) NUM_IDS).
End PTQueueIntro.
Import PTQueueIntro.

Module PTQueueInit.
Definition tqueue_enqueue (chid pid : Z) : K thr unit :=
  tail ← tqueue_get_tail chid;
  if tail =? NUM_IDS then
    tcb_set_prev pid NUM_IDS ;;
    tcb_set_next pid NUM_IDS ;;
    tqueue_set_head chid pid ;;
    tqueue_set_tail chid pid
  else
    tcb_set_next tail pid ;;
    tcb_set_prev pid tail ;;
    tcb_set_next pid NUM_IDS ;;
    tqueue_set_tail chid pid.

Definition tqueue_dequeue (chid : Z) : K thr Z :=
  head ← tqueue_get_head chid;
  if negb (head =? NUM_IDS) then
    let pid := head in
    next ← tcb_get_next head;
    (if next =? NUM_IDS then
       tqueue_set_head chid NUM_IDS ;;
       tqueue_set_tail chid NUM_IDS
     else
       tcb_set_prev next NUM_IDS ;;
       tqueue_set_head chid next) ;;
    tcb_set_prev pid NUM_IDS ;;
    tcb_set_next pid NUM_IDS ;;
    mret pid
  else mret NUM_IDS.

Definition tqueue_remove (chid pid : Z) : K thr unit :=
  prev ← tcb_get_prev pid;
  next ← tcb_get_next pid;
  (if prev =? NUM_IDS then
     if next =? NUM_IDS then
       tqueue_set_head chid NUM_IDS ;;
       tqueue_set_tail chid NUM_IDS
     else
       tcb_set_prev next NUM_IDS ;;
       tqueue_set_head chid next
   else
     if next =? NUM_IDS then
       tcb_set_next prev NUM_IDS ;;
       tqueue_set_tail chid prev
     else
       (if negb (prev =? next) then tcb_set_next prev next else mret tt) ;;
       tcb_set_prev next prev) ;;
  tcb_set_prev pid NUM_IDS ;;
  tcb_set_next pid NUM_IDS.
End PTQueueInit.
Import PTQueueInit.

Module PCurID.
Definition get_curid (ks : kstack) : K thr Z :=
  i ← get_pcpu_idx ks;
  check (in_array i NUM_CPUS) ;; gets (fun s => CURID s !!! i).
Definition set_curid (ks : kstack) (curid : Z) : K thr unit :=
  i ← get_pcpu_idx ks;
  check (in_array i NUM_CPUS) ;; modify (fun s => set_CURID (<[i := curid]> (CURID s)) s).
End PCurID.
Import PCurID.

Definition l_cn_thr : lens thr cont := lens_comp l_vm l_cn.

Section threads.
Context `{layout}.

(** [proc_kstack[pid].kstack_hi]: the end of the 4K stack of the process. *)
Definition kstack_hi (pid : Z) : Z := proc_kstack + 4096 * (pid + 1).

Definition kctx_new (ks : kstack) (entry id quota : Z) : K thr Z :=
  ok ← zoom l_cn_thr (container_can_consume id quota);
  if negb (ok =? 0) then
    pid ← zoom l_vm (alloc_mem_quota ks id quota);
    (if negb (pid =? NUM_IDS) then
       check (in_array pid NUM_IDS) ;;
       kctx_set_esp pid (kstack_hi pid) ;;
       kctx_set_eip pid entry
     else mret tt) ;;
    mret pid
  else mret NUM_IDS.

(** The calls of the initialisation go down to pmem_init, which starts with
    devinit.  [devinit] is that call, on the state of the whole kernel, of
    which [l] gives the part of this file. *)
Section init.
Context {St : Type} (l : lens St thr) (devinit : K St unit).
Context (ks : kstack) (root mmap_length : Z) (mmap : Z -> mboot_mmap).

Definition tcb_init : K St unit :=
  devinit ;;
  zoom l (zoom l_vm (paging_init mmap_length mmap)) ;;
  zoom l (for_range 0 NUM_IDS (tcb_init_at_id root)).

Definition tqueue_init : K St unit :=
  tcb_init ;;
  zoom l (for_range 0 (NUM_IDS + NUM_CPUS) tqueue_init_at_id).

Definition thread_init : K St unit :=
  zoom l (for_range 0 NUM_CPUS (fun i => modify (fun s => set_ticks (<[i := 0]> (sched_ticks s)) s))) ;;
  zoom l (zoom l_sched_lk spinlock_init) ;;
  tqueue_init ;;
  zoom l (set_curid ks 0) ;;
  zoom l (tcb_set_state 0 TSTATE_RUN).
End init.

Definition sched_acquire (ks : kstack) : K thr unit := zoom l_sched_lk (spinlock_acquire ks).
Definition sched_release : K thr unit := zoom l_sched_lk spinlock_release.

Definition thread_spawn (ks : kstack) (entry id quota : Z) : K thr Z :=
  sched_acquire ks ;;
  pid ← kctx_new ks entry id quota;
  (if negb (pid =? NUM_IDS) then
     tcb_set_state pid TSTATE_READY ;;
     tqueue_enqueue NUM_IDS pid
   else mret tt) ;;
  sched_release ;;
  mret pid.

Definition thread_yield (ks : kstack) : K thr unit :=
  sched_acquire ks ;;
  old_cur_pid ← get_curid ks;
  tcb_set_state old_cur_pid TSTATE_READY ;;
  tqueue_enqueue NUM_IDS old_cur_pid ;;
  new_cur_pid ← tqueue_dequeue NUM_IDS;
  tcb_set_state new_cur_pid TSTATE_RUN ;;
  set_curid ks new_cur_pid ;;
  if negb (old_cur_pid =? new_cur_pid) then
    sched_release ;;
    kctx_switch old_cur_pid new_cur_pid
  else sched_release.

Definition sched_update (ks : kstack) : K thr unit :=
  sched_acquire ks ;;
  i ← get_pcpu_idx ks;
  check (in_array i NUM_CPUS) ;;
  modify (fun s => set_ticks
    (<[i := u32 (sched_ticks s !!! i + 1000 / LAPIC_TIMER_INTR_FREQ)]> (sched_ticks s)) s) ;;
  t ← gets (fun s => sched_ticks s !!! i);
  if SCHED_SLICE <=? t then
    modify (fun s => set_ticks (<[i := 0]> (sched_ticks s)) s) ;;
    sched_release ;;
    thread_yield ks
  else sched_release.

(** thread_sleep up to its context switch, and from there when the thread
    runs again; [lk] is the caller's lock, [None] the null pointer. *)
Definition thread_sleep_pre (ks : kstack) (chan : Z) (lk : option (lens thr spinlock_t)) : K thr unit :=
  curid ← get_curid ks;
  match lk with
  | None => panic
  | Some lk =>
      sched_acquire ks ;;
      tcb_set_state curid TSTATE_SLEEP ;;
      tcb_set_chan curid chan ;;
      zoom lk spinlock_release ;;
      sched_release ;;
      nextid ← tqueue_dequeue NUM_IDS;
      let nextid := if nextid =? NUM_IDS then curid else nextid in
      kctx_switch curid nextid
  end.

Definition thread_sleep_post (ks : kstack) (curid : Z) (lk : lens thr spinlock_t) : K thr unit :=
  sched_acquire ks ;;
  tcb_set_chan curid 0 ;;
  zoom lk (spinlock_acquire ks) ;;
  sched_release.

Definition thread_wakeup (ks : kstack) (chan : Z) : K thr unit :=
  sched_acquire ks ;;
  for_range 0 NUM_IDS (fun i =>
    st ← tcb_get_state i;
    c ← tcb_get_chan i;
    if bool_decide (st = TSTATE_SLEEP) && (c =? chan) then
      tcb_set_state i TSTATE_READY ;;
      tcb_set_chan i 0 ;;
      tqueue_enqueue NUM_IDS i
    else mret tt) ;;
  sched_release.
End threads.
