(* ===== verification/Queue.v ===== *)
(** * Thread queues as lists (kern/thread/PTQueueInit)

    The index-linked queues of TCBPool and TQueuePool implement disjoint
    FIFO lists of thread identifiers. *)

From stdpp Require Import base gmap list numbers.
From S2P Require Import Prelude Lock Pmmap Pmm Container Mem Vmm Thread.
Import PTCBIntro PTQueueIntro PTQueueInit.

Abbreviation hd_id := (List.hd NUM_IDS).
Abbreviation last_id l := (List.last l NUM_IDS).

(** [l] is linked: entered from [p], left to [q]. *)
Fixpoint seg (T : gmap Z TCB) (p : Z) (l : list Z) (q : Z) : Prop :=
  match l with
  | [] => True
  | a :: l' => prev (T !!! a) = p /\ next (T !!! a) = List.hd q l' /\ seg T a l' q
  end.

Lemma last_default (l : list Z) d d' : l <> [] -> List.last l d = List.last l d'.
Proof.
  induction l as [|a l IH]; [done|]. intros _. destruct l as [|b l]; [done|]. by apply IH.
Qed.

Lemma seg_app T p l1 l2 q :
  seg T p (l1 ++ l2) q <-> seg T p l1 (List.hd q l2) /\ seg T (List.last l1 p) l2 q.
Proof.
  revert p. induction l1 as [|a l1 IH]; intros p; simpl; [tauto|]. rewrite IH.
  destruct l1 as [|b l1]; [simpl; tauto|].
  change (List.last (a :: b :: l1) p) with (List.last (b :: l1) p).
  rewrite (last_default (b :: l1) a p) by done. simpl. tauto.
Qed.

Lemma seg_ext T T' p l q :
  (forall a, a ∈ l -> prev (T' !!! a) = prev (T !!! a) /\ next (T' !!! a) = next (T !!! a)) ->
  seg T p l q -> seg T' p l q.
Proof.
  revert p. induction l as [|a l IH]; intros p Hx; simpl; [done|].
  intros (Hp & Hn & Hs). destruct (Hx a) as [-> ->]; [set_solver|].
  split; [done|]. split; [done|]. apply IH; [|done]. intros b Hb. apply Hx. set_solver.
Qed.

Lemma last_cases (l : list Z) : l = [] \/ exists l' b, l = l' ++ [b].
Proof. destruct l using rev_ind; [by left|right]. eauto. Qed.

Lemma last_app (l1 l2 : list Z) d : l2 <> [] -> List.last (l1 ++ l2) d = List.last l2 d.
Proof.
  intros Hz. induction l1 as [|a l1 IH]; [done|]. rewrite <- IH. simpl. by destruct (l1 ++ l2) eqn:E;
    [destruct l1, l2|].
Qed.

Lemma last_snoc (l : list Z) b d : List.last (l ++ [b]) d = b.
Proof. apply List.last_last. Qed.

(** Updating one link. *)
Definition setp (a v : Z) (T : gmap Z TCB) : gmap Z TCB := <[a := with_prev v (T !!! a)]> T.
Definition setn (a v : Z) (T : gmap Z TCB) : gmap Z TCB := <[a := with_next v (T !!! a)]> T.

Arguments setp : simpl never.
Arguments setn : simpl never.

Lemma prev_setp a v T b : prev (setp a v T !!! b) = if decide (b = a) then v else prev (T !!! b).
Proof.
  unfold setp. case_decide as E; [subst; by rewrite lookup_total_insert_eq|].
  by rewrite lookup_total_insert_ne.
Qed.
Lemma next_setp a v T b : next (setp a v T !!! b) = next (T !!! b).
Proof.
  unfold setp. destruct (decide (b = a)) as [->|E]; [by rewrite lookup_total_insert_eq|].
  by rewrite lookup_total_insert_ne.
Qed.
Lemma next_setn a v T b : next (setn a v T !!! b) = if decide (b = a) then v else next (T !!! b).
Proof.
  unfold setn. case_decide as E; [subst; by rewrite lookup_total_insert_eq|].
  by rewrite lookup_total_insert_ne.
Qed.
Lemma prev_setn a v T b : prev (setn a v T !!! b) = prev (T !!! b).
Proof.
  unfold setn. destruct (decide (b = a)) as [->|E]; [by rewrite lookup_total_insert_eq|].
  by rewrite lookup_total_insert_ne.
Qed.

(** Everything but the links. *)
Definition core (t : TCB) : TCB := with_prev 0 (with_next 0 t).
Definition core_eq (T T' : gmap Z TCB) : Prop := forall a, core (T' !!! a) = core (T !!! a).

Lemma core_setp a v T : core_eq T (setp a v T).
Proof.
  intros b. unfold setp. destruct (decide (b = a)) as [->|E].
  - by rewrite lookup_total_insert_eq.
  - by rewrite lookup_total_insert_ne.
Qed.
Lemma core_setn a v T : core_eq T (setn a v T).
Proof.
  intros b. unfold setn. destruct (decide (b = a)) as [->|E].
  - by rewrite lookup_total_insert_eq.
  - by rewrite lookup_total_insert_ne.
Qed.
#[global] Instance core_eq_refl : Reflexive core_eq.
Proof. by intros ??. Qed.
#[global] Instance core_eq_trans : Transitive core_eq.
Proof. intros ??? H1 H2 a. by rewrite H2, H1. Qed.

Lemma core_eq_setp T T' a v : core_eq T T' -> core_eq T (setp a v T').
Proof. intros. etransitivity; [done|]. apply core_setp. Qed.
Lemma core_eq_setn T T' a v : core_eq T T' -> core_eq T (setn a v T').
Proof. intros. etransitivity; [done|]. apply core_setn. Qed.

Create HintDb queue discriminated.
#[export] Hint Resolve core_eq_setp core_eq_setn core_eq_refl : queue.

Ltac links := repeat first [rewrite prev_setp | rewrite next_setp | rewrite prev_setn | rewrite next_setn].

(** ** The queues *)
Record queues (T : gmap Z TCB) (TQ : gmap Z TQueue) (Q : Z -> list Z) : Prop := {
  qs_seg : forall c, 0 <= c < NUM_IDS + NUM_CPUS -> seg T NUM_IDS (Q c) NUM_IDS;
  qs_head : forall c, 0 <= c < NUM_IDS + NUM_CPUS -> head (TQ !!! c) = hd_id (Q c);
  qs_tail : forall c, 0 <= c < NUM_IDS + NUM_CPUS -> tail (TQ !!! c) = last_id (Q c);
  qs_ids : forall c a, a ∈ Q c -> 0 <= a < NUM_IDS;
  qs_nodup : forall c, NoDup (Q c);
  qs_disj : forall c c' a, a ∈ Q c -> a ∈ Q c' -> c = c'
}.

Definition qset (Q : Z -> list Z) (c : Z) (l : list Z) : Z -> list Z :=
  fun c' => if decide (c' = c) then l else Q c'.

Lemma queues_ext T TQ TQ' Q :
  (forall c, TQ !!! c = TQ' !!! c) -> queues T TQ Q -> queues T TQ' Q.
Proof. intros Hx [? Hh Ht ? ? ?]. split; auto; intros; rewrite <- Hx; auto. Qed.

(** Replacing the list of queue [c]: the other queues keep their links. *)
Lemma queues_update T T' TQ Q c l q :
  queues T TQ Q -> 0 <= c < NUM_IDS + NUM_CPUS ->
  seg T' NUM_IDS l NUM_IDS -> head q = hd_id l -> tail q = last_id l ->
  (forall a, a ∈ l -> 0 <= a < NUM_IDS /\ forall c', c' <> c -> a ∉ Q c') -> NoDup l ->
  (forall a c', c' <> c -> a ∈ Q c' ->
     prev (T' !!! a) = prev (T !!! a) /\ next (T' !!! a) = next (T !!! a)) ->
  queues T' (<[c := q]> TQ) (qset Q c l).
Proof.
  intros [Hs Hh Ht Hi Hn Hd] Hc Hl Eh Et Hel Hnd Hkeep. unfold qset. split.
  - intros c' Hc'. case_decide; [done|]. eapply seg_ext; [|by apply Hs].
    intros a Ha. by apply (Hkeep a c').
  - intros c' Hc'. case_decide; [subst; by rewrite lookup_total_insert_eq|].
    rewrite lookup_total_insert_ne by done. by apply Hh.
  - intros c' Hc'. case_decide; [subst; by rewrite lookup_total_insert_eq|].
    rewrite lookup_total_insert_ne by done. by apply Ht.
  - intros c' a. case_decide; [apply Hel|apply Hi].
  - intros c'. case_decide; [done|apply Hn].
  - intros c1 c2 a. repeat case_decide; subst; intros H1 H2; try done.
    + exfalso. destruct (Hel a H1) as [_ Hno]. by apply (Hno c2).
    + exfalso. destruct (Hel a H2) as [_ Hno]. by apply (Hno c1).
    + by apply (Hd c1 c2 a).
Qed.

(** ** The state operations as equations *)
Lemma tcb_set_prev_eq s a v : 0 <= a < NUM_IDS ->
  tcb_set_prev a v s = Ok tt (set_TCBPool (setp a v (TCBPool s)) s).
Proof. intros. unfold tcb_set_prev, tcb_update, in_array. krun. zbool. done. Qed.
Lemma tcb_set_next_eq s a v : 0 <= a < NUM_IDS ->
  tcb_set_next a v s = Ok tt (set_TCBPool (setn a v (TCBPool s)) s).
Proof. intros. unfold tcb_set_next, tcb_update, in_array. krun. zbool. done. Qed.
Lemma tcb_get_next_eq s a : 0 <= a < NUM_IDS ->
  tcb_get_next a s = Ok (next (TCBPool s !!! a)) s.
Proof. intros. unfold tcb_get_next, tcb, in_array. krun. zbool. done. Qed.
Lemma tcb_get_prev_eq s a : 0 <= a < NUM_IDS ->
  tcb_get_prev a s = Ok (prev (TCBPool s !!! a)) s.
Proof. intros. unfold tcb_get_prev, tcb, in_array. krun. zbool. done. Qed.
Lemma tqueue_get_tail_eq s c : 0 <= c < NUM_IDS + NUM_CPUS ->
  tqueue_get_tail c s = Ok (tail (TQueuePool s !!! c)) s.
Proof. intros. unfold tqueue_get_tail, tq, in_array. krun. zbool. done. Qed.
Lemma tqueue_get_head_eq s c : 0 <= c < NUM_IDS + NUM_CPUS ->
  tqueue_get_head c s = Ok (head (TQueuePool s !!! c)) s.
Proof. intros. unfold tqueue_get_head, tq, in_array. krun. zbool. done. Qed.
Lemma tqueue_set_tail_eq s c v : 0 <= c < NUM_IDS + NUM_CPUS ->
  tqueue_set_tail c v s =
  Ok tt (set_TQueuePool (<[c := Tq (head (TQueuePool s !!! c)) v]> (TQueuePool s)) s).
Proof. intros. unfold tqueue_set_tail, tq_update, in_array. krun. zbool. done. Qed.
Lemma tqueue_set_head_eq s c v : 0 <= c < NUM_IDS + NUM_CPUS ->
  tqueue_set_head c v s =
  Ok tt (set_TQueuePool (<[c := Tq v (tail (TQueuePool s !!! c))]> (TQueuePool s)) s).
Proof. intros. unfold tqueue_set_head, tq_update, in_array. krun. zbool. done. Qed.

(** One call of a queue or link operation. *)
Ltac qcall :=
  eapply wp_of_eq; [first
    [ apply tcb_set_prev_eq | apply tcb_set_next_eq | apply tcb_get_next_eq | apply tcb_get_prev_eq
    | apply tqueue_get_tail_eq | apply tqueue_get_head_eq
    | apply tqueue_set_tail_eq | apply tqueue_set_head_eq ]; try assumption|cbv beta].

(** The result of a queue operation: new links and new heads, nothing else. *)
Definition queue_post (s : thr) (Q : Z -> list Z) (s' : thr) : Prop :=
  exists T' TQ', s' = set_TQueuePool TQ' (set_TCBPool T' s) /\ core_eq (TCBPool s) T' /\ queues T' TQ' Q.

Ltac qpost :=
  eexists _, _; split; [unfold set_TQueuePool, set_TCBPool; simpl; reflexivity|simpl].

Lemma in_range_ne a : 0 <= a < NUM_IDS -> a <> NUM_IDS.
Proof. unfold NUM_IDS. lia. Qed.

Lemma hd_in (l : list Z) d : l <> [] -> List.hd d l ∈ l.
Proof. destruct l; [done|]. simpl. set_solver. Qed.

Lemma enqueue_wp s Q c pid :
  queues (TCBPool s) (TQueuePool s) Q -> 0 <= c < NUM_IDS + NUM_CPUS -> 0 <= pid < NUM_IDS ->
  (forall c', pid ∉ Q c') ->
  wp (tqueue_enqueue c pid) (fun _ s' => queue_post s (qset Q c (Q c ++ [pid])) s') s.
Proof.
  intros HQ Hc Hpid Hnot. pose proof (qs_tail _ _ _ HQ c Hc) as Et.
  pose proof (qs_seg _ _ _ HQ c Hc) as Hs. pose proof (qs_head _ _ _ HQ c Hc) as Eh.
  assert (Hnd : NoDup (Q c ++ [pid])).
  { apply NoDup_app. split; [apply HQ|]. split; [set_solver|apply NoDup_singleton]. }
  assert (Hel : forall a, a ∈ Q c ++ [pid] -> 0 <= a < NUM_IDS /\ forall c', c' <> c -> a ∉ Q c').
  { intros a [Ha| ->%list_elem_of_singleton]%elem_of_app; [|done].
    split; [by apply (qs_ids _ _ _ HQ c)|]. intros c' Hne Ha'. apply Hne.
    by apply (qs_disj _ _ _ HQ c' c a). }
  unfold tqueue_enqueue. wp_step. qcall. rewrite Et.
  destruct (last_cases (Q c)) as [E|(l & b & E)].
  - rewrite E in *. simpl. do 3 (wp_step; qcall). qcall. simpl.
    qpost. rewrite insert_insert_eq. split.
    { eauto 6 with queue. }
    eapply queues_update; try done.
    + simpl. links. by rewrite !decide_True.
    + by rewrite lookup_total_insert_eq.
    + intros a c' Hne Ha. links. assert (a <> pid) by (intros ->; by apply (Hnot c')).
      by rewrite !decide_False.
  - assert (Hb : b ∈ Q c) by (rewrite E; set_solver).
    assert (Hbr : 0 <= b < NUM_IDS) by by apply (qs_ids _ _ _ HQ c).
    rewrite E, last_snoc, (proj2 (Z.eqb_neq b NUM_IDS)) by by apply in_range_ne.
    do 3 (wp_step; qcall). qcall. simpl.
    qpost. split.
    { eauto 6 with queue. }
    assert (Hbp : b <> pid) by (intros ->; by apply (Hnot c)).
    rewrite E in Hs, Hnd, Hel. apply seg_app in Hs as [Hs1 (Hs2 & Hs3 & _)].
    apply NoDup_app in Hnd as (Hnd1 & _ & _). apply NoDup_app in Hnd1 as (_ & Hnd2 & _).
    eapply queues_update; try done.
    + rewrite <- app_assoc. apply seg_app. split.
      * eapply seg_ext; [|exact Hs1]. intros a Ha. links.
        assert (a <> pid) by (intros ->; apply (Hnot c); rewrite E; set_solver).
        assert (a <> b) by (intros ->; apply (Hnd2 b); set_solver).
        by rewrite !decide_False.
      * simpl. links. rewrite !(decide_True (P := pid = pid)), !(decide_False (P := b = pid)),
          decide_True by done. done.
    + simpl. rewrite Eh, E. by destruct l.
    + simpl. by rewrite last_snoc.
    + rewrite <- E. apply NoDup_app. split; [apply HQ|]. split; [set_solver|apply NoDup_singleton].
    + intros a c' Hne Ha. links. assert (a <> pid) by (intros ->; by apply (Hnot c')).
      assert (a <> b) by (intros ->; apply Hne; by apply (qs_disj _ _ _ HQ c' c b)).
      by rewrite !decide_False.
Qed.

Lemma dequeue_empty_wp s Q c :
  queues (TCBPool s) (TQueuePool s) Q -> 0 <= c < NUM_IDS + NUM_CPUS -> Q c = [] ->
  tqueue_dequeue c s = Ok NUM_IDS s.
Proof.
  intros HQ Hc E. unfold tqueue_dequeue, mbind, K_bind. rewrite tqueue_get_head_eq by done.
  by rewrite (qs_head _ _ _ HQ c Hc), E.
Qed.

Lemma dequeue_wp s Q c pid l :
  queues (TCBPool s) (TQueuePool s) Q -> 0 <= c < NUM_IDS + NUM_CPUS -> Q c = pid :: l ->
  wp (tqueue_dequeue c) (fun r s' => r = pid /\ queue_post s (qset Q c l) s') s.
Proof.
  intros HQ Hc E. pose proof (qs_tail _ _ _ HQ c Hc) as Et.
  pose proof (qs_seg _ _ _ HQ c Hc) as Hs. pose proof (qs_head _ _ _ HQ c Hc) as Eh.
  pose proof (qs_nodup _ _ _ HQ c) as Hnd. rewrite E in *. simpl in Eh.
  assert (Hin : pid ∈ Q c) by (rewrite E; set_solver).
  pose proof (qs_ids _ _ _ HQ c pid Hin) as Hpr. destruct Hs as (Hs1 & Hs2 & Hs3).
  apply NoDup_cons in Hnd as [Hnd1 Hnd2].
  assert (Hel : forall a, a ∈ l -> 0 <= a < NUM_IDS /\ forall c', c' <> c -> a ∉ Q c').
  { intros a Ha. assert (a ∈ Q c) by (rewrite E; set_solver).
    split; [by apply (qs_ids _ _ _ HQ c)|]. intros c' Hne Ha'. apply Hne.
    by apply (qs_disj _ _ _ HQ c' c a). }
  assert (Hoth : forall a c', c' <> c -> a ∈ Q c' -> a <> pid).
  { intros a c' Hne Ha ->. apply Hne. by apply (qs_disj _ _ _ HQ c' c pid). }
  unfold tqueue_dequeue. wp_step. qcall. rewrite Eh.
  rewrite (proj2 (Z.eqb_neq pid NUM_IDS)) by by apply in_range_ne. simpl negb. cbv iota.
  wp_step. qcall. rewrite Hs2. wp_step. destruct l as [|b l].
  - simpl. wp_step. qcall. qcall. do 2 (wp_step; qcall). wp_steps. split; [done|].
    qpost. rewrite insert_insert_eq. split.
    { eauto 6 with queue. }
    eapply queues_update; try done.
    + simpl. by rewrite lookup_total_insert_eq.
    + intros a c' Hne Ha. links. by rewrite !decide_False by by apply (Hoth a c').
  - assert (Hb : b <> pid) by set_solver. destruct (Hel b) as [Hbr _]; [set_solver|].
    cbn [List.hd]. rewrite (proj2 (Z.eqb_neq b NUM_IDS)) by by apply in_range_ne.
    wp_step. qcall. qcall. do 2 (wp_step; qcall). wp_steps. split; [done|].
    qpost. split.
    { eauto 6 with queue. }
    destruct Hs3 as (Hb1 & Hb2 & Hb3). apply NoDup_cons in Hnd2 as [Hnb Hnd3].
    eapply queues_update; try done.
    + simpl. links. rewrite decide_False, (decide_True (P := b = b)), decide_False by done.
      split; [done|]. split; [done|]. eapply seg_ext; [|exact Hb3]. intros a Ha. links.
      rewrite !decide_False by set_solver. done.
    + by constructor.
    + intros a c' Hne Ha. links. rewrite !(decide_False (P := a = pid)) by by apply (Hoth a c').
      rewrite decide_False; [done|]. intros ->. destruct (Hel b) as [_ Hno]; [set_solver|].
      by apply (Hno c').
Qed.

(** The neighbours of [pid] after it is unlinked. *)
Lemma seg_unlink T T' l1 pid l2 :
  NoDup (l1 ++ pid :: l2) -> seg T NUM_IDS (l1 ++ pid :: l2) NUM_IDS ->
  (forall a, a ∈ l1 -> prev (T' !!! a) = prev (T !!! a)) ->
  (forall a, a ∈ l1 -> a <> List.last l1 NUM_IDS -> next (T' !!! a) = next (T !!! a)) ->
  (forall a, a ∈ l2 -> next (T' !!! a) = next (T !!! a)) ->
  (forall a, a ∈ l2 -> a <> hd_id l2 -> prev (T' !!! a) = prev (T !!! a)) ->
  (l1 <> [] -> next (T' !!! List.last l1 NUM_IDS) = hd_id l2) ->
  (l2 <> [] -> prev (T' !!! hd_id l2) = List.last l1 NUM_IDS) ->
  seg T' NUM_IDS (l1 ++ l2) NUM_IDS.
Proof.
  intros Hnd Hs P1 N1 N2 P2 NL PH. apply seg_app in Hs as [Hs1 Hs2]. apply seg_app.
  apply NoDup_app in Hnd as (Hnd1 & _ & Hnd2). apply NoDup_cons in Hnd2 as [_ Hnd2]. split.
  - destruct (last_cases l1) as [-> |(l & b & ->)]; [done|].
    rewrite last_snoc in *. apply NoDup_app in Hnd1 as (_ & Hb & _).
    apply seg_app in Hs1 as [Hl (Hp & _ & _)]. apply seg_app. split.
    + eapply seg_ext; [|exact Hl]. intros a Ha. split; [apply P1; set_solver|].
      apply N1; [set_solver|]. intros ->. apply (Hb b); set_solver.
    + simpl. rewrite P1 by set_solver. split; [done|]. split; [|done]. apply NL. by destruct l.
  - destruct l2 as [|c l]; [done|]. simpl in *. destruct Hs2 as (_ & _ & _ & Hn & Hl).
    apply NoDup_cons in Hnd2 as [Hc _]. split; [by apply PH|]. split; [by rewrite N2 by set_solver|].
    eapply seg_ext; [|exact Hl]. intros a Ha. split; [|apply N2; set_solver].
    apply P2; [set_solver|]. intros ->. done.
Qed.

(** [T1] has the links around [pid] closed; [pid]'s own are cleared last. *)
Record closed (T T1 : gmap Z TCB) (l1 : list Z) (pid : Z) (l2 : list Z) : Prop := {
  cl_core : core_eq T T1;
  cl_prev : forall a, a <> pid -> prev (T1 !!! a) =
    if decide (l2 <> [] /\ a = hd_id l2) then last_id l1 else prev (T !!! a);
  cl_next : forall a, a <> pid -> next (T1 !!! a) =
    if decide (l1 <> [] /\ a = last_id l1) then hd_id l2 else next (T !!! a)
}.

Lemma remove_finish T TQ T1 Q c l1 pid l2 q :
  queues T TQ Q -> 0 <= c < NUM_IDS + NUM_CPUS -> Q c = l1 ++ pid :: l2 ->
  closed T T1 l1 pid l2 -> head q = hd_id (l1 ++ l2) -> tail q = last_id (l1 ++ l2) ->
  queues (setn pid NUM_IDS (setp pid NUM_IDS T1)) (<[c := q]> TQ) (qset Q c (l1 ++ l2)).
Proof.
  intros HQ Hc E [_ Hpr Hnx] Eh Et.
  pose proof (qs_seg _ _ _ HQ c Hc) as Hs. pose proof (qs_nodup _ _ _ HQ c) as Hnd.
  rewrite E in Hs, Hnd. destruct (proj1 (NoDup_app _ _) Hnd) as (Hnd1 & Hx & Hnd2).
  apply NoDup_cons in Hnd2 as [Hp2 Hnd2].
  assert (H1 : forall a, a ∈ l1 -> a <> pid /\ a ∉ l2).
  { clear -Hx. intros a Ha. specialize (Hx a Ha). set_solver. }
  assert (H2 : forall a, a ∈ l2 -> a <> pid) by (intros a Ha ->; done).
  assert (Hlast : l1 <> [] -> last_id l1 ∈ l1).
  { clear. destruct (last_cases l1) as [-> |(l & b & ->)]; [done|]. rewrite last_snoc. set_solver. }
  assert (Hhd : l2 <> [] -> hd_id l2 ∈ l2) by apply hd_in.
  set (T' := setn pid NUM_IDS (setp pid NUM_IDS T1)).
  assert (Hpr' : forall a, a <> pid -> prev (T' !!! a) = prev (T1 !!! a)).
  { intros a Ha. unfold T'. links. by rewrite decide_False. }
  assert (Hnx' : forall a, a <> pid -> next (T' !!! a) = next (T1 !!! a)).
  { intros a Ha. unfold T'. links. by rewrite decide_False. }
  eapply queues_update; try done.
  - apply (seg_unlink T T' l1 pid l2); try done.
    + intros a Ha. destruct (H1 a Ha) as [Hp1 Hn2]. rewrite Hpr', Hpr, decide_False by naive_solver. done.
    + intros a Ha Hl. destruct (H1 a Ha) as [Hp1 Hn2]. rewrite Hnx', Hnx, decide_False by naive_solver. done.
    + intros a Ha. pose proof (H2 a Ha). rewrite Hnx', Hnx, decide_False; [done| |done|done].
      intros [Hz ->]. by destruct (H1 _ (Hlast Hz)).
    + intros a Ha Hh. pose proof (H2 a Ha). rewrite Hpr', Hpr, decide_False by naive_solver. done.
    + intros Hz. destruct (H1 _ (Hlast Hz)) as [Hp1 _]. rewrite Hnx', Hnx, decide_True by done. done.
    + intros Hz. pose proof (H2 _ (Hhd Hz)). rewrite Hpr', Hpr, decide_True by done. done.
  - intros a Ha. assert (Ha2 : a ∈ Q c) by (rewrite E; clear -Ha; set_solver).
    split; [by apply (qs_ids _ _ _ HQ c)|].
    intros c' Hc' Ha'. apply Hc'. by apply (qs_disj _ _ _ HQ c' c a).
  - apply NoDup_app. split; [done|]. split; [|done]. intros a Ha. apply (H1 a Ha).
  - intros a c' Hc' Ha. assert (Hout : (a ∉ l1) /\ a <> pid /\ (a ∉ l2)).
    { assert (Ho : a ∉ l1 ++ pid :: l2).
      { intros Ha'. apply Hc'. apply (qs_disj _ _ _ HQ c' c a); [done|by rewrite E]. }
      clear -Ho. set_solver. }
    destruct Hout as (Ho1 & Hop & Ho2).
    rewrite Hpr', Hnx', Hpr, Hnx, !decide_False by naive_solver. done.
Qed.

(** Links [a -> b] and [a <- b] of the list around [pid]. *)
Lemma remove_neighbours T Q TQ c l1 pid l2 :
  queues T TQ Q -> 0 <= c < NUM_IDS + NUM_CPUS -> Q c = l1 ++ pid :: l2 ->
  0 <= pid < NUM_IDS /\ prev (T !!! pid) = last_id l1 /\ next (T !!! pid) = hd_id l2 /\
  head (TQ !!! c) = hd_id (l1 ++ [pid]) /\ tail (TQ !!! c) = last_id (pid :: l2) /\
  (l1 <> [] -> 0 <= last_id l1 < NUM_IDS /\ last_id l1 <> pid) /\
  (l2 <> [] -> 0 <= hd_id l2 < NUM_IDS /\ hd_id l2 <> pid) /\
  (l1 <> [] -> l2 <> [] -> last_id l1 <> hd_id l2).
Proof.
  intros HQ Hc E. pose proof (qs_nodup _ _ _ HQ c) as Hnd. pose proof (qs_seg _ _ _ HQ c Hc) as Hs.
  rewrite E in Hnd, Hs. apply NoDup_app in Hnd as (_ & Hx & [Hp2 _]%NoDup_cons).
  apply seg_app in Hs as [_ (Hp & Hn & _)].
  assert (Hids : forall a, a ∈ l1 \/ a = pid \/ a ∈ l2 -> 0 <= a < NUM_IDS).
  { intros a Ha. apply (qs_ids _ _ _ HQ c). rewrite E. clear -Ha. set_solver. }
  assert (Hlast : l1 <> [] -> last_id l1 ∈ l1).
  { clear. destruct (last_cases l1) as [-> |(l & b & ->)]; [done|]. rewrite last_snoc. set_solver. }
  assert (Hhd : l2 <> [] -> hd_id l2 ∈ l2) by apply hd_in.
  rewrite (qs_head _ _ _ HQ c Hc), (qs_tail _ _ _ HQ c Hc), E.
  split; [apply Hids; tauto|]. split; [done|]. split; [done|].
  split; [|split; [|split; [|split]]].
  - by destruct l1.
  - by rewrite last_app.
  - intros Hz. split; [apply Hids; auto|]. intros Hpid. apply (Hx _ (Hlast Hz)).
    rewrite Hpid. apply elem_of_cons. by left.
  - intros Hz. split; [apply Hids; auto|]. intros Hpid. pose proof (Hhd Hz). congruence.
  - intros Hz1 Hz2 Heq. apply (Hx _ (Hlast Hz1)). rewrite Heq.
    apply elem_of_cons. right. auto.
Qed.

Lemma remove_wp s Q c l1 pid l2 :
  queues (TCBPool s) (TQueuePool s) Q -> 0 <= c < NUM_IDS + NUM_CPUS -> Q c = l1 ++ pid :: l2 ->
  wp (tqueue_remove c pid) (fun _ s' => queue_post s (qset Q c (l1 ++ l2)) s') s.
Proof.
  intros HQ Hc E.
  destruct (remove_neighbours _ _ _ c l1 pid l2 HQ Hc E) as (Hpr & Hp & Hn & Eh & Et & H1 & H2 & H12).
  unfold tqueue_remove. wp_step. qcall. wp_step. qcall. rewrite Hp, Hn. wp_step.
  destruct (last_cases l1) as [E1|(l & b & E1)], l2 as [|d l2']; subst l1; rewrite ?last_snoc in *;
    simpl List.hd in *; try (destruct H1 as [Hb Hbp]; [by destruct l|]);
    try (destruct H2 as [Hd Hdp]; [done|]);
    try rewrite (proj2 (Z.eqb_neq b NUM_IDS)) by (by apply in_range_ne);
    try rewrite (proj2 (Z.eqb_neq d NUM_IDS)) by (by apply in_range_ne).
  - simpl. wp_step. qcall. qcall. wp_step. qcall. qcall. qpost. rewrite insert_insert_eq.
    split; [eauto 6 with queue|]. eapply (remove_finish _ _ _ _ _ [] pid []); try done.
    simpl. by rewrite lookup_total_insert_eq.
  - simpl. wp_step. qcall. qcall. wp_step. qcall. qcall. qpost. split; [eauto 6 with queue|].
    eapply (remove_finish _ _ _ _ _ [] pid (d :: l2')); try done.
    split; [eauto with queue| |]; intros a Ha; links; simpl; repeat case_decide; naive_solver.
  - simpl. wp_step. qcall. qcall. wp_step. qcall. qcall. qpost. split; [eauto 6 with queue|].
    eapply (remove_finish _ _ _ _ _ (l ++ [b]) pid []); try done.
    + split; [eauto with queue| |]; intros a Ha; links; rewrite ?last_snoc; simpl;
        repeat case_decide; try done; destruct l; naive_solver.
    + simpl. rewrite Eh. by destruct l.
    + simpl. by rewrite app_nil_r, last_snoc.
  - rewrite (proj2 (Z.eqb_neq b d)) by (apply H12; [by destruct l|done]). simpl.
    wp_step. qcall. qcall. wp_step. qcall. qcall.
    exists (setn pid NUM_IDS (setp pid NUM_IDS (setp d b (setn b d (TCBPool s))))), (TQueuePool s).
    split; [done|]. split; [eauto 6 with queue|].
    apply (queues_ext _ (<[c := TQueuePool s !!! c]> (TQueuePool s))).
    { intros c'. destruct (decide (c' = c)) as [->|]; [by rewrite lookup_total_insert_eq|].
      by rewrite lookup_total_insert_ne. }
    eapply (remove_finish _ _ _ _ _ (l ++ [b]) pid (d :: l2')); try done.
    + split; [eauto with queue| |]; intros a Ha; links; rewrite ?last_snoc; simpl;
        repeat case_decide; try done; destruct l; naive_solver.
    + simpl. rewrite Eh. by destruct l.
    + rewrite Et. symmetry. rewrite last_app by done. done.
Qed.

(** ** Refinement of FIFO lists *)
Inductive qop : Type := Enq (c pid : Z) | Deq (c : Z) | Rem (c pid : Z).

(** What the kernel runs, and what it means on lists. *)
Definition run_op (o : qop) : K thr Z :=
  match o with
  | Enq c pid => tqueue_enqueue c pid ;; mret 0
  | Deq c => tqueue_dequeue c
  | Rem c pid => tqueue_remove c pid ;; mret 0
  end.

Definition spec_op (Q : Z -> list Z) (o : qop) : (Z -> list Z) * Z :=
  match o with
  | Enq c pid => (qset Q c (Q c ++ [pid]), 0)
  | Deq c => match Q c with [] => (Q, NUM_IDS) | pid :: l => (qset Q c l, pid) end
  | Rem c pid => (qset Q c (filter (fun a => a <> pid) (Q c)), 0)
  end.

(** A thread is in one queue at most; only a member is removed. *)
Definition allowed (Q : Z -> list Z) (o : qop) : Prop :=
  match o with
  | Enq c pid => 0 <= c < NUM_IDS + NUM_CPUS /\ 0 <= pid < NUM_IDS /\ forall c', pid ∉ Q c'
  | Deq c => 0 <= c < NUM_IDS + NUM_CPUS
  | Rem c pid => 0 <= c < NUM_IDS + NUM_CPUS /\ pid ∈ Q c
  end.

Fixpoint run_ops (os : list qop) : K thr (list Z) :=
  match os with
  | [] => mret []
  | o :: os' => r ← run_op o; rs ← run_ops os'; mret (r :: rs)
  end.

Fixpoint spec_ops (Q : Z -> list Z) (os : list qop) : (Z -> list Z) * list Z :=
  match os with
  | [] => (Q, [])
  | o :: os' => let '(Q', r) := spec_op Q o in let '(Q'', rs) := spec_ops Q' os' in (Q'', r :: rs)
  end.

Fixpoint allowed_all (Q : Z -> list Z) (os : list qop) : Prop :=
  match os with [] => True | o :: os' => allowed Q o /\ allowed_all (spec_op Q o).1 os' end.

Lemma filter_neq_id (l : list Z) pid : pid ∉ l -> filter (fun a => a <> pid) l = l.
Proof.
  induction l as [|a l IH]; [done|]. intros [Ha Hl]%not_elem_of_cons.
  rewrite list.filter_cons_True by done. by rewrite IH.
Qed.

Lemma filter_neq_split (l1 l2 : list Z) pid : pid ∉ l1 -> pid ∉ l2 ->
  filter (fun a => a <> pid) (l1 ++ pid :: l2) = l1 ++ l2.
Proof.
  intros H1 H2. rewrite list.filter_app, list.filter_cons_False by tauto.
  by rewrite !filter_neq_id.
Qed.

Lemma queue_post_refl s Q : queues (TCBPool s) (TQueuePool s) Q -> queue_post s Q s.
Proof. intros HQ. exists (TCBPool s), (TQueuePool s). split; [by destruct s|]. done. Qed.

Lemma run_op_wp s Q o : queues (TCBPool s) (TQueuePool s) Q -> allowed Q o ->
  wp (run_op o) (fun r s' => r = (spec_op Q o).2 /\ queue_post s (spec_op Q o).1 s') s.
Proof.
  intros HQ Ha. destruct o as [c pid|c|c pid]; simpl in *.
  - destruct Ha as (? & ? & ?). wp_step. wp_call enqueue_wp; [done..|]. intros [] s' ?. by wp_steps.
  - destruct (Q c) as [|pid l] eqn:E.
    + eapply wp_of_eq; [by eapply dequeue_empty_wp|]. split; [done|]. by apply queue_post_refl.
    + by wp_call dequeue_wp.
  - destruct Ha as [Hc (l1 & l2 & E)%list_elem_of_split].
    pose proof (qs_nodup _ _ _ HQ c) as Hnd. rewrite E in Hnd.
    apply NoDup_app in Hnd as (_ & Hx & [Hp2 _]%NoDup_cons).
    rewrite E, filter_neq_split; [|intros Hp; apply (Hx pid Hp); set_solver|done].
    wp_step. wp_call (remove_wp s Q c l1 pid l2); [done..|]. intros [] s' ?. by wp_steps.
Qed.

Lemma queue_post_trans s s' s'' Q Q' :
  queue_post s Q s' -> queue_post s' Q' s'' -> queue_post s Q' s''.
Proof.
  intros (T & TQ & -> & Hc & _) (T' & TQ' & -> & Hc' & HQ'). exists T', TQ'.
  split; [by destruct s|]. split; [|done]. etransitivity; [exact Hc|exact Hc'].
Qed.

(** C9: the index-linked thread queues implement FIFO lists.  In any
    sequence of enqueue, dequeue and remove operations in which a thread is
    enqueued only when it is in no queue, every operation returns, a dequeue
    returns what the list of its queue says (the longest waiting thread, or
    NUM_IDS), the links represent the lists after each step, and no field of
    a thread control block other than the links changes. *)
Theorem queues_refine_fifo os : forall s Q,
  queues (TCBPool s) (TQueuePool s) Q -> allowed_all Q os ->
  wp (run_ops os) (fun rs s' => rs = (spec_ops Q os).2 /\ queue_post s (spec_ops Q os).1 s') s.
Proof.
  induction os as [|o os IH]; intros s Q HQ Ha; simpl.
  - wp_steps. split; [done|]. by apply queue_post_refl.
  - destruct Ha as [Ha Has]. destruct (spec_op Q o) as [Q1 r1] eqn:E1.
    destruct (spec_ops Q1 os) as [Q2 rs] eqn:E2. wp_step. wp_call run_op_wp; [done..|].
    rewrite E1. intros r s1 [-> Hp1]. simpl in *. wp_step.
    pose proof Hp1 as (T & TQ & -> & _ & HQ1).
    wp_call (IH _ Q1); [done..|]. rewrite E2. intros rs' s2 [-> Hp2]. wp_steps. split; [done|].
    by eapply queue_post_trans.
Qed.

(** All queues empty, as tqueue_init leaves them. *)
Definition demo_thr (T : gmap Z TCB) (TQ : gmap Z TQueue) : thr :=
  Thr (Vm cont0 ∅ 0 0 0) ∅ ∅ T TQ ∅ inhabitant ∅ inhabitant false.
Definition empty_tq : gmap Z TQueue :=
  foldr (fun c m => <[c := Tq NUM_IDS NUM_IDS]> m) ∅ (seqZ 0 (NUM_IDS + NUM_CPUS)).

Lemma empty_tq_lookup c : 0 <= c < NUM_IDS + NUM_CPUS -> empty_tq !!! c = Tq NUM_IDS NUM_IDS.
Proof.
  intros Hc. unfold empty_tq. assert (Hin : c ∈ seqZ 0 (NUM_IDS + NUM_CPUS)) by (apply elem_of_seqZ; lia).
  induction (seqZ 0 (NUM_IDS + NUM_CPUS)) as [|x l IH]; [set_solver|]. simpl.
  destruct (decide (c = x)) as [->|].
  - by rewrite lookup_total_insert_eq.
  - rewrite lookup_total_insert_ne by done. apply IH. set_solver.
Qed.

Lemma demo_queues T : queues T empty_tq (fun _ => []).
Proof.
  split; intros; try (by rewrite empty_tq_lookup); try done; try set_solver. apply NoDup_nil_2.
Qed.

Lemma queues_refine_fifo_witness :
  wp (run_ops [Enq 64 5; Enq 64 6; Enq 64 7; Rem 64 6; Deq 64; Deq 64; Deq 64])
     (fun rs _ => rs = [0; 0; 0; 0; 5; 7; 64]) (demo_thr ∅ empty_tq).
Proof.
  eapply wp_mono; [apply (queues_refine_fifo _ _ (fun _ => []))|].
  - apply demo_queues.
  - simpl. unfold NUM_IDS, NUM_CPUS. split_and!; try lia; intros; unfold qset;
      repeat case_decide; simpl; set_solver.
  - intros rs s' [-> _]. reflexivity.
Defined.
