(* ===== verification/Sched.v ===== *)
(** * The scheduler (kern/thread/PThread)

    Specification of the scheduler on one processor: the running thread and
    the list of ready threads. *)

From stdpp Require Import base gmap list numbers.
From S2P Require Import Prelude Lock Pmmap Pmm Container Mem Vmm VmmSpec Thread Queue.
Import Spinlock MContainer PCPUIntro PKCtxIntro PTCBIntro PTQueueIntro PTQueueInit PCurID.

(** The registers a switch saves and the registers it leaves. *)
Definition saved (s : thr) : kctx :=
  let r := cpu s in
  Kctx (esp r) (edi r) (esi r) (ebx r) (ebp r) (load32 (phys (vmst s)) (esp r)).
Definition restored (k : kctx) : kctx :=
  Kctx (u32 (esp k + 4)) (edi k) (esi k) (ebx k) (ebp k) (eip k).

(** The ready threads wait in queue NUM_IDS, the others are empty. *)
Definition only_ready (ready : list Z) : Z -> list Z :=
  fun c => if decide (c = NUM_IDS) then ready else [].

(** Processor [c] runs [cur], and [ready] waits: the states say so.  The
    thread that boots the processor, 0, is still marked as running after
    kern_main has switched to the first process. *)
Record sched_core (c : Z) (s : thr) (cur : Z) (ready : list Z) : Prop := {
  sc_cpu : 0 <= c < NUM_CPUS /\ pcpu_idx (pcpu s !!! c) = c;
  sc_queue : queues (TCBPool s) (TQueuePool s) (only_ready ready);
  sc_cur : CURID s !!! c = cur /\ 0 <= cur < NUM_IDS;
  sc_run : forall pid, 0 <= pid < NUM_IDS ->
    (pid = cur -> state (TCBPool s !!! pid) = TSTATE_RUN) /\ (state (TCBPool s !!! pid) = TSTATE_RUN -> pid = cur \/ pid = 0);
  sc_ready : forall pid, 0 <= pid < NUM_IDS -> state (TCBPool s !!! pid) = TSTATE_READY <-> pid ∈ ready
}.
Definition sched_inv (c : Z) (s : thr) (cur : Z) (ready : list Z) : Prop :=
  lock (sched_lk s) = 0 /\ sched_core c s cur ready.

(** A kernel stack of processor [c]. *)
Definition on_cpu (c : Z) (ks : kstack) : Prop := kstack_ok ks /\ cpu_idx ks = c.

Lemma only_ready_eq l : only_ready l NUM_IDS = l.
Proof. unfold only_ready. by rewrite decide_True. Qed.

Lemma qset_only_ready l l' c : qset (only_ready l) NUM_IDS l' c = only_ready l' c.
Proof. unfold qset, only_ready. by case_decide. Qed.

Lemma queues_same T TQ Q Q' : (forall c, Q c = Q' c) -> queues T TQ Q -> queues T TQ Q'.
Proof. intros E [? ? ? ? ? ?]. split; intros *; rewrite <- ?E; eauto. Qed.

Lemma cur_not_ready c s cur ready : sched_core c s cur ready -> cur ∉ ready.
Proof.
  intros [_ _ [_ Hc] Hr Hy] Hin. apply (Hy cur Hc) in Hin. assert (Hrun := proj1 (Hr cur Hc) eq_refl).
  congruence.
Qed.

Lemma ready_range c s cur ready a : sched_core c s cur ready -> a ∈ ready -> 0 <= a < NUM_IDS.
Proof. intros [_ Hq _ _ _] Ha. apply (qs_ids _ _ _ Hq NUM_IDS). by rewrite only_ready_eq. Qed.

(** ** The locks and the current thread *)
Lemma sched_acquire_eq ks s : kstack_ok ks -> lock (sched_lk s) = 0 ->
  sched_acquire ks s = Ok tt (lset l_sched_lk (held_lock ks) s).
Proof.
  intros Hks Hl. unfold sched_acquire, zoom. simpl. destruct (sched_lk s) as [h v]. simpl in Hl.
  subst v. by rewrite acquire_free.
Qed.

Lemma sched_release_eq s : sched_release s = Ok tt (lset l_sched_lk free_lock s).
Proof. reflexivity. Qed.

Lemma get_curid_eq c ks s : on_cpu c ks -> 0 <= c < NUM_CPUS -> pcpu_idx (pcpu s !!! c) = c ->
  get_curid ks s = Ok (CURID s !!! c) s.
Proof.
  intros [_ Hk] Hc Hp. unfold get_curid, get_pcpu_idx, pcpu_cur, pcpu_at, get_kstack_cpu_idx.
  rewrite Hk. unfold in_array. krun. zbool. krun. rewrite Hp. zbool. done.
Qed.

Lemma set_curid_eq c ks s v : on_cpu c ks -> 0 <= c < NUM_CPUS -> pcpu_idx (pcpu s !!! c) = c ->
  set_curid ks v s = Ok tt (set_CURID (<[c := v]> (CURID s)) s).
Proof.
  intros [_ Hk] Hc Hp. unfold set_curid, get_pcpu_idx, pcpu_cur, pcpu_at, get_kstack_cpu_idx.
  rewrite Hk. unfold in_array. krun. zbool. krun. rewrite Hp. zbool. done.
Qed.

Definition setst (a : Z) (v : t_state) (T : gmap Z TCB) : gmap Z TCB :=
  <[a := with_state v (T !!! a)]> T.
Arguments setst : simpl never.

Lemma tcb_set_state_eq s a v : 0 <= a < NUM_IDS ->
  tcb_set_state a v s = Ok tt (set_TCBPool (setst a v (TCBPool s)) s).
Proof. intros. unfold tcb_set_state, tcb_update, in_array. krun. zbool. done. Qed.

Lemma state_setst a v T b : state (setst a v T !!! b) = if decide (b = a) then v else state (T !!! b).
Proof.
  unfold setst. case_decide; [subst; by rewrite lookup_total_insert_eq|].
  by rewrite lookup_total_insert_ne.
Qed.

(** State changes leave the links alone, link changes the states. *)
Lemma queues_setst T TQ Q a v : queues T TQ Q -> queues (setst a v T) TQ Q.
Proof.
  intros [Hs ? ? ? ? ?]. split; [|done..]. intros c Hc. eapply seg_ext; [|by apply Hs].
  intros b _. unfold setst. destruct (decide (b = a)) as [->|].
  - by rewrite lookup_total_insert_eq.
  - by rewrite lookup_total_insert_ne.
Qed.

Lemma queues_links T T' TQ Q : (forall a, prev (T' !!! a) = prev (T !!! a) /\ next (T' !!! a) = next (T !!! a)) ->
  queues T TQ Q -> queues T' TQ Q.
Proof.
  intros E [Hs ? ? ? ? ?]. split; [|done..]. intros c Hc. eapply seg_ext; [|by apply Hs]. auto.
Qed.

Lemma core_state T T' a : core_eq T T' -> state (T' !!! a) = state (T !!! a).
Proof. intros E. specialize (E a). by injection E. Qed.
Lemma core_chan T T' a : core_eq T T' -> channel (T' !!! a) = channel (T !!! a).
Proof. intros E. specialize (E a). by injection E. Qed.

(** The context switch. *)
Lemma kctx_switch_eq s a b : 0 <= a < NUM_IDS -> 0 <= b < NUM_IDS -> a <> b ->
  kctx_switch a b s = Ok tt (set_cpu (restored (kctx_pool s !!! b))
    (lset l_vm (set_phys (store32 (phys (vmst s)) (esp (kctx_pool s !!! b)) (eip (kctx_pool s !!! b)))
                         (vmst s)) (set_kctx_pool (<[a := saved s]> (kctx_pool s)) s))).
Proof.
  intros Ha Hb Hab. unfold kctx_switch, cswitch, kctx_update, in_array. krun. zbool. krun.
  rewrite lookup_total_insert_ne by done. done.
Qed.

Section sched.
Context `{layout}.

(** What a switch from [cur] to [new] does to registers and contexts. *)
Definition switched (s s' : thr) (cur new : Z) : Prop :=
  if decide (new = cur) then cpu s' = cpu s /\ kctx_pool s' = kctx_pool s /\ vmst s' = vmst s
  else cpu s' = restored (kctx_pool s !!! new) /\
       kctx_pool s' = <[cur := saved s]> (kctx_pool s) /\
       vmst s' = set_phys (store32 (phys (vmst s)) (esp (kctx_pool s !!! new))
                                   (eip (kctx_pool s !!! new))) (vmst s).

Lemma ready_queue_in_range : 0 <= NUM_IDS < NUM_IDS + NUM_CPUS.
Proof. unfold NUM_IDS, NUM_CPUS. lia. Qed.

(** Putting the running thread at the end of the queue. *)
Lemma enqueue_ready_wp s c cur ready pid :
  sched_core c s cur ready -> 0 <= pid < NUM_IDS -> pid ∉ ready ->
  wp (tqueue_enqueue NUM_IDS pid)
     (fun _ s' => exists T' TQ', s' = set_TQueuePool TQ' (set_TCBPool T' s) /\
        core_eq (TCBPool s) T' /\ queues T' TQ' (only_ready (ready ++ [pid]))) s.
Proof.
  intros Hs Hp Hn. wp_call (enqueue_wp s (only_ready ready) NUM_IDS pid).
  - apply Hs.
  - apply ready_queue_in_range.
  - done.
  - intros c'. unfold only_ready. case_decide; [done|set_solver].
  - intros [] s' (T' & TQ' & -> & Hc & HQ). exists T', TQ'. split; [done|]. split; [done|].
    rewrite only_ready_eq in HQ. eapply queues_same; [|exact HQ]. apply qset_only_ready.
Qed.

(** Taking the first thread of the queue. *)
Lemma dequeue_ready_wp s pid l :
  queues (TCBPool s) (TQueuePool s) (only_ready (pid :: l)) ->
  wp (tqueue_dequeue NUM_IDS)
     (fun r s' => r = pid /\ exists T' TQ', s' = set_TQueuePool TQ' (set_TCBPool T' s) /\
        core_eq (TCBPool s) T' /\ queues T' TQ' (only_ready l)) s.
Proof.
  intros HQ. wp_call (dequeue_wp s (only_ready (pid :: l)) NUM_IDS pid l).
  - done.
  - apply ready_queue_in_range.
  - apply only_ready_eq.
  - intros r s' [-> (T' & TQ' & -> & Hc & HQ')]. split; [done|]. exists T', TQ'.
    split; [done|]. split; [done|]. eapply queues_same; [|exact HQ']. apply qset_only_ready.
Qed.

Lemma chan_setst a v T pid : channel (setst a v T !!! pid) = channel (T !!! pid).
Proof.
  unfold setst. destruct (decide (pid = a)) as [->|].
  - by rewrite lookup_total_insert_eq.
  - by rewrite lookup_total_insert_ne.
Qed.

(** The running thread goes to the end of the queue, the first comes off. *)
Lemma requeue_wp s cur ready new ready' (k : Z -> K thr unit) Q :
  queues (TCBPool s) (TQueuePool s) (only_ready ready) -> 0 <= cur < NUM_IDS -> cur ∉ ready ->
  ready ++ [cur] = new :: ready' ->
  (forall T TQ, queues T TQ (only_ready ready') ->
     (forall pid, state (T !!! pid) =
        if decide (pid = cur) then TSTATE_READY else state (TCBPool s !!! pid)) ->
     (forall pid, channel (T !!! pid) = channel (TCBPool s !!! pid)) ->
     wp (k new) Q (set_TQueuePool TQ (set_TCBPool T s))) ->
  wp (tcb_set_state cur TSTATE_READY ≫= fun _ => tqueue_enqueue NUM_IDS cur ≫= fun _ =>
      tqueue_dequeue NUM_IDS ≫= k) Q s.
Proof.
  intros HQ Hcr Hnr Hsplit Hk.
  wp_step. eapply wp_of_eq; [by apply tcb_set_state_eq|]. wp_step.
  wp_call (enqueue_wp _ (only_ready ready) NUM_IDS cur).
  { simpl. by apply queues_setst. }
  { apply ready_queue_in_range. }
  { done. }
  { intros c'. unfold only_ready. case_decide; [done|set_solver]. }
  intros [] s1 (T1 & TQ1 & -> & Hc1 & HQ1). simpl in Hc1. wp_step.
  wp_call (dequeue_ready_wp _ new ready').
  { simpl. eapply queues_same; [|exact HQ1]. intros c'. rewrite only_ready_eq, Hsplit.
    apply qset_only_ready. }
  intros r s2 (-> & T2 & TQ2 & -> & Hc2 & HQ2). simpl in Hc2.
  apply (Hk T2 TQ2); [done| |]; intros pid.
  - rewrite (core_state _ _ _ Hc2), (core_state _ _ _ Hc1). apply state_setst.
  - rewrite (core_chan _ _ _ Hc2), (core_chan _ _ _ Hc1). apply chan_setst.
Qed.

(** The states after the first thread is made the running one. *)
Lemma sched_core_next c s s' cur ready new ready' T :
  sched_core c s cur ready -> ready ++ [cur] = new :: ready' ->
  (forall pid, state (T !!! pid) =
     if decide (pid = cur) then TSTATE_READY else state (TCBPool s !!! pid)) ->
  pcpu s' = pcpu s -> CURID s' = <[c := new]> (CURID s) -> TCBPool s' = setst new TSTATE_RUN T ->
  queues (TCBPool s') (TQueuePool s') (only_ready ready') ->
  sched_core c s' new ready'.
Proof.
  intros Hsc Hsplit HT Hp Hcur ET HQ'. pose proof Hsc as [Hc HQ [Hcu Hcr] Hrun Hrdy].
  pose proof (cur_not_ready _ _ _ _ Hsc) as Hnr.
  assert (Hmem : forall a, a ∈ ready \/ a = cur <-> a = new \/ a ∈ ready').
  { intros a. rewrite <- (elem_of_cons ready' a new), <- Hsplit, elem_of_app, list_elem_of_singleton.
    done. }
  assert (Hnn : new ∉ ready').
  { assert (Hnd : NoDup (new :: ready')); [|by apply NoDup_cons in Hnd as [? _]].
    rewrite <- Hsplit. apply NoDup_app. split; [|split; [set_solver|apply NoDup_singleton]].
    pose proof (qs_nodup _ _ _ HQ NUM_IDS) as Hnd. by rewrite only_ready_eq in Hnd. }
  split.
  - by rewrite Hp.
  - done.
  - rewrite Hcur, lookup_total_insert_eq. split; [done|].
    destruct (proj2 (Hmem new) (or_introl eq_refl)) as [?| ->]; [by eapply ready_range|done].
  - intros pid Hpid. rewrite ET, state_setst. case_decide as E; [tauto|]. rewrite HT.
    case_decide as E2; [split; [done|intros; subst; done]|]. pose proof (Hrun pid Hpid). naive_solver.
  - intros pid Hpid. rewrite ET, state_setst. case_decide as E; [subst; done|]. rewrite HT.
    case_decide as E2; [|rewrite (Hrdy pid Hpid)]; specialize (Hmem pid); naive_solver.
Qed.

Lemma thread_yield_wp c ks s cur ready new ready' :
  on_cpu c ks -> sched_inv c s cur ready -> ready ++ [cur] = new :: ready' ->
  wp (thread_yield ks)
     (fun _ s' => sched_inv c s' new ready' /\ switched s s' cur new /\
        (forall pid, channel (TCBPool s' !!! pid) = channel (TCBPool s !!! pid) /\
           (pid <> cur -> pid <> new -> state (TCBPool s' !!! pid) = state (TCBPool s !!! pid))) /\
        sched_ticks s' = sched_ticks s /\ pcpu s' = pcpu s) s.
Proof.
  intros Hon [Hl Hsc] Hsplit. pose proof Hon as [Hks _].
  pose proof Hsc as [[Hc Hp] HQ [Hcur Hcr] Hrun Hrdy].
  assert (Hnew : 0 <= new < NUM_IDS).
  { assert (new ∈ ready ++ [cur]) as [?| ->%list_elem_of_singleton]%elem_of_app
      by (rewrite Hsplit; set_solver); [by eapply ready_range|done]. }
  unfold thread_yield. wp_step. eapply wp_of_eq; [by apply sched_acquire_eq|]. wp_step.
  eapply wp_of_eq; [by apply (get_curid_eq c)|]. cbn [CURID lset l_sched_lk]. rewrite Hcur.
  eapply (requeue_wp _ cur ready new ready'); [done|done|by eapply cur_not_ready|done|].
  intros T TQ HQ' HT Hch. wp_step.
  eapply wp_of_eq; [by apply tcb_set_state_eq|]. wp_step.
  eapply wp_of_eq; [by apply (set_curid_eq c)|]. cbv beta.
  assert (Hnext : forall lk s', lock lk = 0 -> pcpu s' = pcpu s -> sched_lk s' = lk ->
    CURID s' = <[c := new]> (CURID s) -> TCBPool s' = setst new TSTATE_RUN T -> TQueuePool s' = TQ ->
    sched_inv c s' new ready').
  { intros lk s' Hlk E1 E2 E3 E4 E5. split; [congruence|].
    eapply (sched_core_next c s); eauto. rewrite E4, E5. by apply queues_setst. }
  unfold switched. destruct (decide (new = cur)) as [->|Hne].
  - rewrite Z.eqb_refl. simpl negb. cbv iota. eapply wp_of_eq; [apply sched_release_eq|].
    split; [by apply (Hnext free_lock)|]. split; [done|]. split; [|done].
    intros pid. simpl. rewrite chan_setst, state_setst. split; [done|]. intros. by rewrite decide_False, HT, decide_False.
  - rewrite (proj2 (Z.eqb_neq cur new)) by done. simpl negb. cbv iota. wp_step.
    eapply wp_of_eq; [apply sched_release_eq|].
    eapply wp_of_eq; [by apply kctx_switch_eq|].
    split; [by apply (Hnext free_lock)|]. split; [done|]. split; [|done].
    intros pid. simpl. rewrite chan_setst, state_setst. split; [done|]. intros. by rewrite decide_False, HT, decide_False.
Qed.
(** ** Runs of the scheduler

    Between two calls a thread runs its own code, which changes registers
    and memory in any way but not the scheduler's tables. *)
Definition own_code (f : thr -> kctx * vm) (s : thr) : thr := set_cpu (f s).1 (lset l_vm (f s).2 s).
Fixpoint run_yields (l : list (kstack * (thr -> kctx * vm))) : K thr unit :=
  match l with
  | [] => mret tt
  | (ks, f) :: l => modify (own_code f) ;; thread_yield ks ;; run_yields l
  end.

Lemma own_code_inv c s cur ready f : sched_inv c s cur ready -> sched_inv c (own_code f s) cur ready.
Proof. intros [Hl [? ? ? ? ?]]. by split. Qed.

(** One turn of a queue, and [n] of them. *)
Definition turn (l : list Z) : list Z := match l with [] => [] | a :: l => l ++ [a] end.

Lemma turn_split cur ready : exists (new : Z) ready', ready ++ [cur] = new :: ready'.
Proof. destruct ready as [|a l]; [by exists cur, []|by exists a, (l ++ [cur])]. Qed.

Lemma turn_lookup (l : list Z) (k : nat) : l <> [] ->
  (forall i, Nat.iter k turn l !! i =
     if decide (i < length l)%nat then l !! ((i + k) mod length l)%nat else None) /\
  length (Nat.iter k turn l) = length l.
Proof.
  intros Hl. assert (Hn : length l <> 0%nat) by (destruct l; [done|simpl; lia]).
  induction k as [|k [IH IHl]]; simpl.
  - split; [|done]. intros i. case_decide.
    + rewrite Nat.add_0_r, Nat.mod_small by done. done.
    + apply lookup_ge_None_2. lia.
  - set (l' := Nat.iter k turn l) in *. destruct l' as [|a r] eqn:E; [simpl in IHl; lia|].
    simpl. split; [|rewrite length_app; simpl in *; lia]. intros i. simpl in IHl.
    destruct (decide (i < length r)%nat) as [Hi|Hi].
    + rewrite lookup_app_l by done. rewrite decide_True by lia.
      specialize (IH (S i)). rewrite decide_True in IH by lia. simpl in IH. rewrite IH.
      f_equal. f_equal. lia.
    + case_decide as Hi2.
      * assert (i = length r) as -> by lia. rewrite lookup_app_r, Nat.sub_diag by lia. simpl.
        specialize (IH 0%nat). rewrite decide_True in IH by lia. simpl in IH. rewrite IH.
        f_equal. rewrite <- IHl. replace (length r + S k)%nat with (k + 1 * S (length r))%nat by lia.
        by rewrite Nat.Div0.mod_add.
      * apply lookup_ge_None_2. rewrite length_app. simpl. lia.
Qed.

Lemma run_yields_wp c l s cur ready :
  Forall (fun x => on_cpu c x.1) l -> sched_inv c s cur ready ->
  wp (run_yields l)
     (fun _ s' => exists cur' ready', sched_inv c s' cur' ready' /\
        cur' :: ready' = Nat.iter (length l) turn (cur :: ready)) s.
Proof.
  intros Hl. revert s cur ready. induction Hl as [|[ks f] l Hon _ IH]; intros s cur ready Hinv.
  - simpl. wp_steps. by exists cur, ready.
  - simpl run_yields. destruct (turn_split cur ready) as (new & ready' & E). wp_steps.
    wp_call (thread_yield_wp c ks (own_code f s) cur ready new ready');
      [done|by apply own_code_inv|done|].
    intros [] s1 (Hinv1 & _). wp_call (IH s1 new ready'); [done|].
    intros [] s2 (cur2 & ready2 & Hinv2 & E2). exists cur2, ready2. split; [done|].
    rewrite E2, <- E. change (length ((ks, f) :: l)) with (S (length l)).
    by rewrite Nat.iter_succ_r.
Qed.

(** A thread that waits keeps its context until it is its turn. *)
Lemma run_yields_keeps c l s cur ready1 a ready2 :
  Forall (fun x => on_cpu c x.1) l -> sched_inv c s cur (ready1 ++ a :: ready2) ->
  length l = S (length ready1) ->
  wp (run_yields l)
     (fun _ s' => CURID s' !!! c = a /\ cpu s' = restored (kctx_pool s !!! a)) s.
Proof.
  intros Hl. revert s cur ready1 ready2. induction Hl as [|[ks f] l Hon _ IH]; [done|].
  intros s cur ready1 ready2 Hinv Hlen. simpl in Hlen.
  pose proof (cur_not_ready _ _ _ _ (proj2 Hinv)) as Hne.
  assert (Hnc : cur <> a) by set_solver.
  simpl run_yields. wp_steps. destruct ready1 as [|b r1].
  - destruct l; [|done]. simpl. wp_call (thread_yield_wp c ks (own_code f s) cur (a :: ready2)
      a (ready2 ++ [cur])); [done|by apply own_code_inv|done|].
    intros [] s1 (Hinv1 & Hsw & _). wp_steps. split; [apply Hinv1|].
    unfold switched in Hsw. rewrite decide_False in Hsw by done. by destruct Hsw as (-> & _).
  - wp_call (thread_yield_wp c ks (own_code f s) cur (b :: r1 ++ a :: ready2)
      b (r1 ++ a :: (ready2 ++ [cur]))); [done|by apply own_code_inv|simpl; by rewrite <- app_assoc|].
    intros [] s1 (Hinv1 & Hsw & _). wp_call (IH s1 b r1 (ready2 ++ [cur])); [done|simpl in *; lia|].
    intros [] s2 [Hc ->]. split; [done|]. f_equal. unfold switched in Hsw.
    rewrite decide_False in Hsw by set_solver. destruct Hsw as (_ & -> & _). simpl.
    by rewrite lookup_total_insert_ne.
Qed.
(** ** Timer interrupts *)
Lemma sched_update_wp c ks s cur ready new ready' :
  on_cpu c ks -> sched_inv c s cur ready -> ready ++ [cur] = new :: ready' ->
  0 <= sched_ticks s !!! c < SCHED_SLICE ->
  wp (sched_update ks)
     (fun _ s' => (pcpu s' = pcpu s /\ forall pid, pid <> cur -> pid <> new \/ sched_ticks s !!! c <> SCHED_SLICE - 1 ->
          state (TCBPool s' !!! pid) = state (TCBPool s !!! pid)) /\
        if decide (sched_ticks s !!! c = SCHED_SLICE - 1)
        then sched_inv c s' new ready' /\ switched s s' cur new /\ sched_ticks s' !!! c = 0
        else sched_inv c s' cur ready /\ cpu s' = cpu s /\ kctx_pool s' = kctx_pool s /\
             vmst s' = vmst s /\ sched_ticks s' !!! c = sched_ticks s !!! c + 1) s.
Proof.
  intros Hon [Hl Hsc] Hsplit Ht. pose proof Hon as [Hks Hk]. pose proof Hsc as [[Hc Hp] ? ? ? ?].
  unfold sched_update. wp_step. eapply wp_of_eq; [by apply sched_acquire_eq|]. wp_step.
  unfold get_pcpu_idx, pcpu_cur, pcpu_at, get_kstack_cpu_idx. rewrite Hk.
  assert (Hin : in_array c NUM_CPUS = true) by (unfold in_array, NUM_CPUS in *; lia).
  wp_steps; try exact Hin; cbn [lset l_sched_lk pcpu]; rewrite Hp; wp_steps; try exact Hin.
  simpl. rewrite lookup_total_insert_eq. change (1000 / LAPIC_TIMER_INTR_FREQ) with 1.
  unfold SCHED_SLICE in *. rewrite u32_small by (unfold W32; lia).
  destruct (5 <=? sched_ticks s !!! c + 1) eqn:E.
  - wp_steps. eapply wp_of_eq; [apply sched_release_eq|].
    wp_call (thread_yield_wp c ks); [done| |done|].
    { split; [done|]. by split. }
    intros [] s' (Hinv & Hsw & Hoth & Htk & Hpc). rewrite decide_True by lia.
    split; [split; [exact Hpc|intros pid ? [?|?]; [by apply Hoth|lia]]|]. split; [done|]. split; [exact Hsw|]. rewrite Htk. simpl. by rewrite lookup_total_insert_eq.
  - eapply wp_of_eq; [apply sched_release_eq|]. rewrite decide_False by lia.
    split; [done|]. split; [|simpl; by rewrite lookup_total_insert_eq]. split; [done|]. by split.
Qed.

Fixpoint run_ticks (l : list (kstack * (thr -> kctx * vm))) : K thr unit :=
  match l with
  | [] => mret tt
  | (ks, f) :: l => modify (own_code f) ;; sched_update ks ;; run_ticks l
  end.

Lemma run_ticks_wp c l s cur ready :
  Forall (fun x => on_cpu c x.1) l -> sched_inv c s cur ready ->
  0 <= sched_ticks s !!! c < SCHED_SLICE ->
  let n := sched_ticks s !!! c + Z.of_nat (length l) in
  wp (run_ticks l)
     (fun _ s' => exists cur' ready', sched_inv c s' cur' ready' /\
        cur' :: ready' = Nat.iter (Z.to_nat (n / SCHED_SLICE)) turn (cur :: ready) /\
        sched_ticks s' !!! c = n mod SCHED_SLICE) s.
Proof.
  intros Hl. unfold SCHED_SLICE. revert s cur ready.
  induction Hl as [|[ks f] l Hon _ IH]; intros s cur ready Hinv Ht; cbv zeta.
  - simpl. wp_steps. exists cur, ready. rewrite Z.add_0_r, Z.div_small, Z.mod_small by lia. done.
  - simpl run_ticks. destruct (turn_split cur ready) as (new & ready' & E). wp_steps.
    wp_call (sched_update_wp c ks (own_code f s) cur ready new ready');
      [done|by apply own_code_inv|done|done|].
    intros [] s1 [_ Hs1]. change (sched_ticks (own_code f s)) with (sched_ticks s) in Hs1.
    change (length ((ks, f) :: l)) with (S (length l)). rewrite Nat2Z.inj_succ.
    unfold SCHED_SLICE in Hs1. case_decide as Ec.
    + destruct Hs1 as (Hinv1 & _ & Ht1). wp_call (IH s1 new ready'); [done|lia|].
      rewrite Ht1, Ec. replace (5 - 1 + Z.succ (Z.of_nat (length l))) with (0 + Z.of_nat (length l) + 1 * 5) by lia.
      intros [] s2 (cur2 & ready2 & Hinv2 & E2 & Ht2). exists cur2, ready2.
      rewrite Z.mod_add, Z.div_add by done. split; [done|]. split; [|done].
      rewrite E2, <- E, Z2Nat.inj_add by (zdiv; lia). rewrite Nat.add_1_r, Nat.iter_succ_r. done.
    + destruct Hs1 as (Hinv1 & _ & _ & _ & Ht1). wp_call (IH s1 cur ready); [done|lia|].
      rewrite Ht1. intros [] s2 (cur2 & ready2 & Hinv2 & E2 & Ht2). exists cur2, ready2.
      replace (sched_ticks s !!! c + Z.succ (Z.of_nat (length l)))
        with (sched_ticks s !!! c + 1 + Z.of_nat (length l)) by lia. done.
Qed.
(** ** Waking up *)
Definition asleep_on (T : gmap Z TCB) (chan i : Z) : Prop :=
  state (T !!! i) = TSTATE_SLEEP /\ channel (T !!! i) = chan.
#[global] Instance asleep_on_dec T chan i : Decision (asleep_on T chan i).
Proof. apply _. Defined.

(** The threads below [k] that sleep on the channel, in increasing order. *)
Definition sleepers (T : gmap Z TCB) (chan k : Z) : list Z := filter (asleep_on T chan) (seqZ 0 k).

Lemma elem_of_sleepers T chan k i : i ∈ sleepers T chan k <-> 0 <= i < k /\ asleep_on T chan i.
Proof. unfold sleepers. rewrite list_elem_of_filter, elem_of_seqZ. tauto || naive_solver lia. Qed.

Lemma sleepers_take T chan k : 0 <= k -> asleep_on T chan k ->
  sleepers T chan (k + 1) = sleepers T chan k ++ [k].
Proof.
  intros Hk Ha. unfold sleepers. rewrite seqZ_app, filter_app by lia.
  change (seqZ (0 + k) 1) with [k]. by rewrite filter_cons_True.
Qed.

Lemma sleepers_skip T chan k : 0 <= k -> ~ asleep_on T chan k ->
  sleepers T chan (k + 1) = sleepers T chan k.
Proof.
  intros Hk Ha. unfold sleepers. rewrite seqZ_app, filter_app by lia.
  change (seqZ (0 + k) 1) with [k]. rewrite filter_cons_False by done. apply app_nil_r.
Qed.

Definition woken (T T' : gmap Z TCB) (chan k : Z) : Prop :=
  forall i, state (T' !!! i) =
              (if decide (i ∈ sleepers T chan k) then TSTATE_READY else state (T !!! i)) /\
            channel (T' !!! i) = if decide (i ∈ sleepers T chan k) then 0 else channel (T !!! i).

Lemma woken_succ T T' T2 chan k : 0 <= k -> asleep_on T chan k -> woken T T' chan k ->
  core_eq (<[k := with_chan 0 (with_state TSTATE_READY (T' !!! k))]> T') T2 ->
  woken T T2 chan (k + 1).
Proof.
  intros Hk Ha HW Hc i. rewrite (core_state _ _ _ Hc), (core_chan _ _ _ Hc).
  destruct (HW i) as [Hs Hch]. rewrite sleepers_take by done.
  destruct (decide (i = k)) as [->|Hne].
  - rewrite lookup_total_insert_eq, !decide_True by set_solver. done.
  - rewrite lookup_total_insert_ne, Hs, Hch by done. split; apply decide_ext; set_solver.
Qed.

Lemma woken_skip T T' chan k : 0 <= k -> ~ asleep_on T chan k -> woken T T' chan k ->
  woken T T' chan (k + 1).
Proof. intros Hk Ha HW i. rewrite sleepers_skip by done. apply HW. Qed.

Lemma wakeup_step s chan ready k T TQ :
  0 <= k < NUM_IDS ->
  (forall i, i ∈ ready -> state (TCBPool s !!! i) <> TSTATE_SLEEP) ->
  woken (TCBPool s) T chan k -> queues T TQ (only_ready (ready ++ sleepers (TCBPool s) chan k)) ->
  wp (st ← tcb_get_state k;
      c ← tcb_get_chan k;
      if bool_decide (st = TSTATE_SLEEP) && (c =? chan) then
        tcb_set_state k TSTATE_READY ;; tcb_set_chan k 0 ;; tqueue_enqueue NUM_IDS k
      else mret tt)
     (fun _ s' => exists T' TQ', s' = set_TQueuePool TQ' (set_TCBPool T' s) /\
        woken (TCBPool s) T' chan (k + 1) /\
        queues T' TQ' (only_ready (ready ++ sleepers (TCBPool s) chan (k + 1))))
     (set_TQueuePool TQ (set_TCBPool T s)).
Proof.
  intros Hk Hr HW HQ. assert (Hin : in_array k NUM_IDS = true) by (unfold in_array; lia).
  destruct (HW k) as [Hs Hc]. assert (Hnk : k ∉ sleepers (TCBPool s) chan k) by (rewrite elem_of_sleepers; lia).
  rewrite (decide_False (P := k ∈ _)) in Hs by done. rewrite (decide_False (P := k ∈ _)) in Hc by done.
  unfold tcb_get_state, tcb_get_chan, tcb. wp_steps; try exact Hin. simpl. rewrite Hs, Hc.
  destruct (decide (asleep_on (TCBPool s) chan k)) as [Ha|Ha].
  - destruct Ha as [Ha1 Ha2]. rewrite bool_decide_eq_true_2, Ha2, Z.eqb_refl by done. simpl.
    unfold tcb_set_state, tcb_set_chan, tcb_update. wp_steps; try exact Hin.
    simpl. rewrite lookup_total_insert_eq, insert_insert_eq.
    set (T1 := <[k := _]> T). wp_call (enqueue_wp (set_TQueuePool TQ (set_TCBPool T1 s))
      (only_ready (ready ++ sleepers (TCBPool s) chan k)) NUM_IDS k).
    + simpl. eapply queues_links; [|exact HQ]. unfold T1. intros i. destruct (decide (i = k)) as [->|].
      * by rewrite lookup_total_insert_eq.
      * by rewrite lookup_total_insert_ne.
    + apply ready_queue_in_range.
    + done.
    + intros c'. unfold only_ready. case_decide; [|set_solver].
      rewrite elem_of_app, elem_of_sleepers. intros [Hi|[? _]]; [by apply (Hr k)|lia].
    + intros [] s' (T2 & TQ2 & -> & Hc2 & HQ2). exists T2, TQ2. split; [done|].
      split; [eapply woken_succ; [lia|done|done|exact Hc2]|].
      rewrite only_ready_eq, <- app_assoc in HQ2. rewrite sleepers_take by (lia || done).
      eapply queues_same; [|exact HQ2]. apply qset_only_ready.
  - replace (bool_decide _ && _) with false.
    + wp_steps. exists T, TQ. split; [done|]. rewrite sleepers_skip by (lia || done).
      split; [apply woken_skip; [lia|done..]|done].
    + unfold asleep_on in Ha. symmetry. apply andb_false_iff. rewrite bool_decide_eq_false, Z.eqb_neq.
      destruct (decide (state (TCBPool s !!! k) = TSTATE_SLEEP)); [right; tauto|by left].
Qed.
Lemma thread_wakeup_wp c ks s cur ready chan :
  on_cpu c ks -> sched_inv c s cur ready ->
  wp (thread_wakeup ks chan)
     (fun _ s' => exists T TQ,
        s' = lset l_sched_lk free_lock (set_TQueuePool TQ (set_TCBPool T s)) /\
        woken (TCBPool s) T chan NUM_IDS /\
        sched_inv c s' cur (ready ++ sleepers (TCBPool s) chan NUM_IDS)) s.
Proof.
  intros [Hks _] [Hl Hsc]. pose proof Hsc as [Hc HQ Hcur Hrun Hrdy]. unfold thread_wakeup. wp_step.
  eapply wp_of_eq; [by apply sched_acquire_eq|].
  set (s1 := lset l_sched_lk (held_lock ks) s). wp_step.
  wp_call (wp_for _ (fun k s' => exists T TQ, s' = set_TQueuePool TQ (set_TCBPool T s1) /\
    woken (TCBPool s) T chan k /\
    queues T TQ (only_ready (ready ++ sleepers (TCBPool s) chan k))) 0 NUM_IDS s1); [done| | |].
  - intros k s' Hk (T & TQ & -> & HW & HQ'). apply (wakeup_step s1); [done| |done|done].
    intros i Hi Hs. change (TCBPool s1) with (TCBPool s) in Hs. apply Hrdy in Hi; [congruence|by eapply ready_range].
  - exists (TCBPool s), (TQueuePool s). split; [done|]. split; [done|].
    change (sleepers (TCBPool s) chan 0) with (@nil Z). by rewrite app_nil_r.
  - intros [] s' (T & TQ & -> & HW & HQ'). eapply wp_of_eq; [apply sched_release_eq|].
    exists T, TQ. split; [done|]. split; [done|]. split; [done|].
    split; simpl; [done|done|done| |]; intros pid Hpid; destruct (HW pid) as [-> _];
      case_decide as E; pose proof (proj1 (elem_of_sleepers (TCBPool s) chan NUM_IDS pid)) as Es.
    + destruct (Es E) as [_ [Hsl _]]. split; [|done]. intros ->.
      rewrite (proj1 (Hrun cur Hpid) eq_refl) in Hsl. done.
    + by apply Hrun.
    + split; [set_solver|done].
    + rewrite (Hrdy pid Hpid). set_solver.
Qed.

(** ** Creating threads *)

(** A process without a container has no thread. *)
Record thr_inv (c : Z) (s : thr) (cur : Z) (ready : list Z) : Prop := {
  ti_sched : sched_inv c s cur ready;
  ti_pt : pt_inv (vmst s);
  ti_dead : forall pid, 0 <= pid < NUM_IDS -> used (CONTAINER (cn (vmst s)) !!! pid) = 0 ->
                        state (TCBPool s !!! pid) = TSTATE_DEAD
}.

Definition fresh_kctx (k : kctx) (pid entry : Z) : kctx :=
  Kctx (kstack_hi pid) (edi k) (esi k) (ebx k) (ebp k) entry.

Lemma can_consume_eq (s : cont) id q : 0 <= id < NUM_IDS -> con_ok (CONTAINER s) -> 0 <= q ->
  usage (CONTAINER s !!! id) + q < W32 ->
  container_can_consume id q s =
  Ok (if usage (CONTAINER s !!! id) + q <=? quota (CONTAINER s !!! id) then 1 else 0) s.
Proof.
  intros Hid Hok Hq Hw. pose proof (ck_usage _ Hok id). pose proof (ck_quota _ Hok id).
  unfold AT_SIZE, W32 in *. unfold container_can_consume, con, in_array. krun. zbool. krun.
  rewrite !(u32_small (usage _)), (u32_small (quota _)), u32_small by (unfold W32; lia). done.
Qed.

(** The new thread joins the queue. *)
Lemma thr_inv_spawn c s s' cur ready id q T :
  let child := id * MAX_CHILDREN + 1 + nchildren (CONTAINER (cn (vmst s)) !!! id) in
  thr_inv c s cur ready -> split_ok (CONTAINER (cn (vmst s))) id q -> child <> cur ->
  0 <= child < NUM_IDS -> core_eq (setst child TSTATE_READY (TCBPool s)) T ->
  pcpu s' = pcpu s -> CURID s' = CURID s -> TCBPool s' = T -> lock (sched_lk s') = 0 ->
  queues (TCBPool s') (TQueuePool s') (only_ready (ready ++ [child])) -> pt_inv (vmst s') ->
  split_post id q (cn (vmst s)) child (cn (vmst s')) ->
  thr_inv c s' cur (ready ++ [child]).
Proof.
  intros child [[Hl Hsc] Hpt Hdead] Hok Hcc Hch HcT Ep Ec ET El HQ' Hpt' Hpost.
  pose proof Hsc as [Hc HQ Hcur Hrun Hrdy]. pose proof (ci_con _ (vi_cont _ Hpt)) as Hcon.
  assert (HT : forall pid, state (TCBPool s' !!! pid) =
    if decide (pid = child) then TSTATE_READY else state (TCBPool s !!! pid)).
  { intros pid. by rewrite ET, (core_state _ _ _ HcT), state_setst. }
  split; [split; [done|]|done|].
  - split; [by rewrite Ep|done|by rewrite Ec| |]; intros pid Hpid; rewrite HT; case_decide as E.
    + split; [congruence|done].
    + by apply Hrun.
    + split; [set_solver|done].
    + rewrite (Hrdy pid Hpid). set_solver.
  - intros pid Hpid. destruct Hpost as (_ & _ & _ & ->). rewrite HT.
    rewrite split_lookup by done. case_decide as Ei; [subst pid; simpl|].
    + intros Hu. destruct (so_used _ _ _ Hok). done.
    + case_decide as Ed; [done|]. rewrite decide_False by done. by apply Hdead.
Qed.

Lemma zoom_can_consume s id q : 0 <= id < NUM_IDS -> con_ok (CONTAINER (cn (vmst s))) -> 0 <= q ->
  usage (CONTAINER (cn (vmst s)) !!! id) + q < W32 ->
  zoom l_cn_thr (container_can_consume id q) s =
  Ok (if usage (CONTAINER (cn (vmst s)) !!! id) + q <=? quota (CONTAINER (cn (vmst s)) !!! id)
      then 1 else 0) s.
Proof. intros. unfold zoom. simpl. rewrite can_consume_eq by done. by destruct s as [[]]. Qed.

Lemma kctx_new_wp ks s entry id q :
  kstack_ok ks -> pt_inv (vmst s) -> split_ok (CONTAINER (cn (vmst s))) id q ->
  usage (CONTAINER (cn (vmst s)) !!! id) + q < W32 ->
  let child := id * MAX_CHILDREN + 1 + nchildren (CONTAINER (cn (vmst s)) !!! id) in
  wp (kctx_new ks entry id q)
     (fun r s' => r = child /\ 0 <= child < NUM_IDS /\ pt_inv (vmst s') /\
        split_post id q (cn (vmst s)) child (cn (vmst s')) /\ vmst s' = lset l_cn (cn (vmst s')) (vmst s) /\
        s' = set_kctx_pool (<[child := fresh_kctx (kctx_pool s !!! child) child entry]> (kctx_pool s))
               (lset l_vm (vmst s') s)) s.
Proof.
  intros Hks Hinv Hok Hw child. pose proof (ci_con _ (vi_cont _ Hinv)) as Hcon.
  destruct (split_child_fresh _ _ _ Hcon Hok) as (_ & Hch & _). fold child in Hch.
  pose proof Hok as [Hid Hus Hnc Hlt Hq Hr].
  assert (Hidr : 0 <= id < NUM_IDS) by (pose proof (ck_children _ Hcon id); unfold MAX_CHILDREN in *; lia).
  unfold kctx_new. wp_step. eapply wp_of_eq; [by apply zoom_can_consume|]. zbool. wp_steps.
  wp_call alloc_mem_quota_wp; [done..|]. cbn [lget l_vm vmst].
  intros r v (Hinv' & [_ Hph] & _ & Hpost). pose proof Hpost as (_ & Er & _ & _).
  assert (r = child) as -> by exact Er. wp_steps.
  rewrite (proj2 (Z.eqb_neq child NUM_IDS)) by lia. cbn [negb].
  unfold kctx_set_esp, kctx_set_eip, kctx_update. wp_steps.
  simpl. rewrite lookup_total_insert_eq, insert_insert_eq. done.
Qed.

Lemma thread_spawn_wp c ks s cur ready entry id q :
  on_cpu c ks -> thr_inv c s cur ready -> split_ok (CONTAINER (cn (vmst s))) id q ->
  usage (CONTAINER (cn (vmst s)) !!! id) + q < W32 ->
  let child := id * MAX_CHILDREN + 1 + nchildren (CONTAINER (cn (vmst s)) !!! id) in
  wp (thread_spawn ks entry id q)
     (fun r s' => r = child /\ 0 <= child < NUM_IDS /\ state (TCBPool s !!! child) = TSTATE_DEAD /\
        thr_inv c s' cur (ready ++ [child]) /\
        kctx_pool s' = <[child := fresh_kctx (kctx_pool s !!! child) child entry]> (kctx_pool s) /\
        split_post id q (cn (vmst s)) child (cn (vmst s')) /\
        vmst s' = lset l_cn (cn (vmst s')) (vmst s) /\ cpu s' = cpu s /\
        sched_ticks s' = sched_ticks s /\ pcpu s' = pcpu s) s.
Proof.
  intros [Hks _] [[Hl Hsc] Hpt Hdead] Hok Hw child. pose proof Hsc as [Hc HQ Hcur Hrun Hrdy].
  pose proof (ci_con _ (vi_cont _ Hpt)) as Hcon.
  destruct (split_child_fresh _ _ _ Hcon Hok) as (Hne & Hch & Hfr).
  fold child in Hne, Hch, Hfr.
  assert (Hd : state (TCBPool s !!! child) = TSTATE_DEAD) by (apply Hdead; [done|by rewrite Hfr]).
  assert (Hcc : child <> cur) by (intros E; apply (Hrun child Hch) in E; congruence).
  assert (Hcr : child ∉ ready) by (intros E; apply (Hrdy child Hch) in E; congruence).
  unfold thread_spawn. wp_step. eapply wp_of_eq; [by apply sched_acquire_eq|]. wp_step.
  wp_call kctx_new_wp; [done..|]. cbn [lset l_sched_lk vmst]. fold child.
  intros r s1 (-> & _ & Hpt1 & Hpost & Hph & Es1). rewrite Es1. wp_step.
  rewrite (proj2 (Z.eqb_neq child NUM_IDS)) by lia. cbn [negb]. wp_step.
  eapply wp_of_eq; [by apply tcb_set_state_eq|].
  wp_call (enqueue_wp _ (only_ready ready) NUM_IDS child).
  { simpl. by apply queues_setst. }
  { apply ready_queue_in_range. }
  { done. }
  { intros c'. unfold only_ready. case_decide; [done|set_solver]. }
  intros [] s2 (T & TQ & -> & HcT & HQT). simpl in HcT. wp_step.
  eapply wp_of_eq; [apply sched_release_eq|]. apply wp_ret.
  rewrite only_ready_eq in HQT. apply (queues_same _ _ _ (only_ready (ready ++ [child]))) in HQT;
    [|apply qset_only_ready].
  split; [done|]. split; [done|]. split; [done|]. split; [|done].
  apply (thr_inv_spawn c s _ cur ready id q T); try done.
Qed.

Lemma thread_spawn_refused c ks s cur ready entry id q :
  on_cpu c ks -> thr_inv c s cur ready -> 0 <= id < NUM_IDS -> 0 <= q ->
  quota (CONTAINER (cn (vmst s)) !!! id) < usage (CONTAINER (cn (vmst s)) !!! id) + q < W32 ->
  thread_spawn ks entry id q s = Ok NUM_IDS (lset l_sched_lk free_lock s).
Proof.
  intros [Hks _] [[Hl Hsc] Hpt _] Hid Hq Hw. unfold thread_spawn, mbind, K_bind.
  rewrite sched_acquire_eq by done. unfold kctx_new, mbind, K_bind.
  rewrite zoom_can_consume by (done || exact (ci_con _ (vi_cont _ Hpt)) || (simpl; lia)).
  cbn [lset l_sched_lk vmst]. zbool. done.
Qed.

(** ** Sleeping

    [lk] is a lock outside the scheduler's tables. *)
Definition outside (lk : lens thr spinlock_t) : Prop :=
  forall x s, exists v, lset lk x s = lset l_vm v s /\ phys v = phys (vmst s).

Definition slept (s s' : thr) (cur next chan : Z) : Prop :=
  cpu s' = restored (kctx_pool s !!! next) /\ kctx_pool s' !!! cur = saved s /\
  CURID s' = CURID s /\ pcpu s' = pcpu s /\ lock (sched_lk s') = 0 /\
  forall pid, state (TCBPool s' !!! pid) =
    if decide (pid = cur) then TSTATE_SLEEP else state (TCBPool s !!! pid).

Lemma thread_sleep_wp c ks s cur next ready chan lk :
  on_cpu c ks -> sched_inv c s cur (next :: ready) -> outside lk ->
  wp (thread_sleep_pre ks chan (Some lk))
     (fun _ s' => slept s s' cur next chan /\
        queues (TCBPool s') (TQueuePool s') (only_ready ready)) s.
Proof.
  intros Hon [Hl Hsc] Hlk. pose proof Hon as [Hks _].
  pose proof Hsc as [[Hc Hp] HQ [Hcur Hcr] Hrun Hrdy].
  pose proof (cur_not_ready _ _ _ _ Hsc) as Hnr.
  assert (Hnx : 0 <= next < NUM_IDS) by (eapply ready_range; [exact Hsc|set_solver]).
  unfold thread_sleep_pre. wp_step. eapply wp_of_eq; [by apply (get_curid_eq c)|]. rewrite Hcur.
  wp_step. eapply wp_of_eq; [by apply sched_acquire_eq|]. wp_step.
  eapply wp_of_eq; [by apply tcb_set_state_eq|]. wp_step.
  unfold tcb_set_chan, tcb_update. wp_steps.
  eapply (wp_of_eq _ _ _ tt free_lock); [reflexivity|].
  match goal with |- context [lset lk free_lock ?s] => destruct (Hlk free_lock s) as (v & -> & Hv) end.
  wp_step. eapply wp_of_eq; [apply sched_release_eq|]. simpl in Hv. wp_step.
  wp_call (dequeue_ready_wp _ next ready).
  { simpl. eapply queues_links; [|exact (queues_setst _ _ _ cur TSTATE_SLEEP HQ)]. intros a.
    destruct (decide (a = cur)) as [->|].
    - by rewrite lookup_total_insert_eq.
    - by rewrite lookup_total_insert_ne. }
  intros r s1 (-> & T & TQ & -> & HcT & HQT). simpl in HcT.
  rewrite (proj2 (Z.eqb_neq next NUM_IDS)) by lia.
  eapply wp_of_eq; [apply kctx_switch_eq; [done|done|set_solver]|].
  split; [|done]. split; [done|]. split.
  { simpl. rewrite lookup_total_insert_eq. unfold saved. simpl. by rewrite Hv. }
  split; [done|]. split; [done|]. split; [done|]. intros pid. simpl.
  rewrite (core_state _ _ _ HcT). rewrite <- state_setst. destruct (decide (pid = cur)) as [->|].
  - by rewrite lookup_total_insert_eq.
  - by rewrite lookup_total_insert_ne.
Qed.

(** The thread that was switched to yields: the sleeper's context is lost. *)
Lemma yield_after_sleep c ks s s' cur next r1 ready chan :
  on_cpu c ks -> sched_inv c s cur (next :: r1 :: ready) -> slept s s' cur next chan ->
  queues (TCBPool s') (TQueuePool s') (only_ready (r1 :: ready)) ->
  wp (thread_yield ks)
     (fun _ s'' => kctx_pool s'' !!! cur = saved s' /\ kctx_pool s'' !!! next = kctx_pool s' !!! next /\
        state (TCBPool s'' !!! cur) = TSTATE_READY) s'.
Proof.
  intros Hon [_ Hsc] (_ & _ & Ecur & Ep & Hl & Hst) HQ. pose proof Hon as [Hks _].
  pose proof Hsc as [[Hc Hp] HQ0 [Hcur Hcr] Hrun Hrdy].
  pose proof (cur_not_ready _ _ _ _ Hsc) as Hnr.
  assert (Hr1 : 0 <= r1 < NUM_IDS) by (eapply ready_range; [exact Hsc|set_solver]).
  assert (Hne : cur <> r1) by set_solver. assert (Hne' : cur <> next) by set_solver.
  unfold thread_yield. wp_step. eapply wp_of_eq; [by apply sched_acquire_eq|]. wp_step.
  eapply wp_of_eq; [apply (get_curid_eq c); [done|done|simpl; by rewrite Ep]|].
  cbn [CURID lset l_sched_lk]. rewrite Ecur, Hcur.
  eapply (requeue_wp _ cur (r1 :: ready) r1 (ready ++ [cur])); [done|done|set_solver|done|].
  intros T TQ HQ' HT _. wp_step. eapply wp_of_eq; [by apply tcb_set_state_eq|]. wp_step.
  eapply wp_of_eq; [apply (set_curid_eq c); [done|done|simpl; by rewrite Ep]|].
  rewrite (proj2 (Z.eqb_neq cur r1)) by done. cbn [negb]. wp_step.
  eapply wp_of_eq; [apply sched_release_eq|]. eapply wp_of_eq; [by apply kctx_switch_eq|]. simpl.
  rewrite lookup_total_insert_eq, lookup_total_insert_ne by done. split; [done|]. split; [done|].
  rewrite state_setst, decide_False, HT, decide_True by done. done.
Qed.

(** ** Initialisation *)
Definition boot_tcb (root : Z) : TCB := Tcb TSTATE_DEAD NUM_CPUS NUM_IDS NUM_IDS 0 {[0 := 0]} root.

Lemma tcb_loop root s : TCBPool s = ∅ ->
  wp (for_range 0 NUM_IDS (tcb_init_at_id root))
     (fun _ s' => exists T, s' = set_TCBPool T s /\
        forall pid, 0 <= pid < NUM_IDS -> T !!! pid = boot_tcb root) s.
Proof.
  intros E0. wp_call (wp_for _ (fun k s' => exists T, s' = set_TCBPool T s /\
    (forall pid, 0 <= pid < k -> T !!! pid = boot_tcb root) /\
    forall pid, k <= pid -> T !!! pid = inhabitant) 0 NUM_IDS); [done| | |].
  - intros k s' Hk (T & -> & HT & HT'). unfold tcb_init_at_id, tcb_update.
    assert (Hin : in_array k NUM_IDS = true) by (unfold in_array; lia). wp_steps; try exact Hin.
    eexists. split; [reflexivity|]. simpl. rewrite !lookup_total_insert_eq, !insert_insert_eq.
    rewrite (HT' k) by lia. split; intros pid Hpid.
    + destruct (decide (pid = k)) as [->|]; [by rewrite lookup_total_insert_eq|].
      rewrite lookup_total_insert_ne by done. apply HT. lia.
    + rewrite lookup_total_insert_ne by lia. apply HT'. lia.
  - exists ∅. split; [by destruct s; simpl in *; subst|]. split; [lia|]. intros. apply lookup_total_empty.
  - intros [] s' (T & -> & HT & _). by exists T.
Qed.

Lemma tq_loop s :
  wp (for_range 0 (NUM_IDS + NUM_CPUS) tqueue_init_at_id)
     (fun _ s' => exists TQ, s' = set_TQueuePool TQ s /\
        forall c, 0 <= c < NUM_IDS + NUM_CPUS -> TQ !!! c = Tq NUM_IDS NUM_IDS) s.
Proof.
  apply (wp_for _ (fun k s' => exists TQ, s' = set_TQueuePool TQ s /\
    forall c, 0 <= c < k -> TQ !!! c = Tq NUM_IDS NUM_IDS) 0 (NUM_IDS + NUM_CPUS)); [done| |].
  - intros k s' Hk (TQ & -> & HT). unfold tqueue_init_at_id, tq_update.
    assert (Hin : in_array k (NUM_IDS + NUM_CPUS) = true) by (unfold in_array; lia).
    wp_steps; try exact Hin. eexists. split; [reflexivity|]. simpl.
    rewrite lookup_total_insert_eq, insert_insert_eq. intros c Hc.
    destruct (decide (c = k)) as [->|]; [by rewrite lookup_total_insert_eq|].
    rewrite lookup_total_insert_ne by done. apply HT. lia.
  - exists (TQueuePool s). split; [by destruct s|]. lia.
Qed.

Lemma boot_sched s T TQ root ks : on_cpu 0 ks ->
  (forall c, 0 <= c < NUM_CPUS -> pcpu_idx (pcpu s !!! c) = c) -> lock (sched_lk s) = 0 ->
  (forall pid, 0 <= pid < NUM_IDS -> T !!! pid = boot_tcb root) ->
  (forall c, 0 <= c < NUM_IDS + NUM_CPUS -> TQ !!! c = Tq NUM_IDS NUM_IDS) ->
  CURID s !!! 0 = 0 -> TCBPool s = setst 0 TSTATE_RUN T -> TQueuePool s = TQ ->
  sched_inv 0 s 0 [].
Proof.
  intros Hon HP Hl HT HTQ Hc ET EQ. split; [done|].
  assert (Hst : forall pid, 0 <= pid < NUM_IDS -> state (TCBPool s !!! pid) =
    if decide (pid = 0) then TSTATE_RUN else TSTATE_DEAD).
  { intros pid Hpid. rewrite ET, state_setst. case_decide; [done|]. by rewrite HT. }
  split.
  - split; [done|]. by apply HP.
  - rewrite ET, EQ. apply queues_setst. apply (queues_same _ _ (fun _ => [])).
    { intros c. unfold only_ready. by case_decide. }
    split; intros; try (by rewrite HTQ); try done; try set_solver. apply NoDup_nil_2.
  - done.
  - intros pid Hpid. rewrite Hst by done. case_decide; naive_solver.
  - intros pid Hpid. rewrite Hst by done. case_decide; set_solver.
Qed.

(** What devinit leaves: the globals cleared, the processors numbered. *)
Record fresh (s : thr) : Prop := {
  fr_vm : cn (vmst s) = cont0;
  fr_mem : mem_ok (phys (vmst s));
  fr_tcb : TCBPool s = ∅;
  fr_cpu : forall c, 0 <= c < NUM_CPUS -> pcpu_idx (pcpu s !!! c) = c;
  fr_lock : lock (sched_lk s) = 0
}.
(** The threads after the initialisation, from [s]. *)
Record thread_ready (mmap_length : Z) (mmap : Z -> mboot_mmap) (s s' : thr) : Prop := {
  tr_inv : thr_inv 0 s' 0 [];
  tr_ticks : sched_ticks s' = sched_ticks s;
  tr_paging : paging_on (vmst s');
  tr_empty : forall p d, user_slot (SPt p d) -> pde_of (phys (vmst s')) p d = 0;
  tr_cont : container_init mmap_length mmap cont0 = Ok tt (cn (vmst s'));
  tr_pcpu : pcpu s' = pcpu s;
  tr_kept : tables_only (phys (vmst s)) (phys (vmst s'))
}.
Section init.
Context {St : Type} (l : lens St thr) `{!LensLaws l} (devinit : K St unit).
Context (ks : kstack) (root n : Z) (mmap : Z -> mboot_mmap) (Hon : on_cpu 0 ks).
Context (Hn : 0 <= n <= 128) (Hmm : forall i, 0 <= i < n -> mmap_wf (mmap (SIZEOF_MMAP * i))).

Lemma thread_init_wp s (R : St -> Prop) :
  (forall t, vmst t = vmst (lget l s) -> cpu t = cpu (lget l s) -> wp devinit (fun _ s1 => fresh (lget l s1) /\ R s1) (lset l t s)) ->
  wp (thread_init l devinit ks root (SIZEOF_MMAP * n) mmap)
     (fun _ s' => exists s1 t, R s1 /\ s' = lset l t s1 /\ thread_ready (SIZEOF_MMAP * n) mmap (lget l s1) t) s.
Proof.
  intros Hdev. unfold thread_init, tqueue_init, tcb_init. wp_step. apply wp_zoom.
  wp_call (wp_for _ (fun _ t => vmst t = vmst (lget l s) /\ cpu t = cpu (lget l s)) 0 NUM_CPUS); [done| |done|].
  { intros k t _ Ht. wp_steps. done. }
  intros [] t1 [Ht1 Hc1]. wp_step. apply wp_zoom. rewrite lget_lset by done. wp_step. eapply (wp_of_eq _ _ _ tt free_lock); [reflexivity|].
  rewrite lset_lset by done. do 3 wp_step. eapply wp_mono; [apply Hdev; done|]. clear t1 Ht1 Hc1. intros [] s1 [[Hv Hm HT HP Hl] HR].
  wp_step. apply wp_zoom. wp_step. change (lget l_vm (lget l s1)) with (vmst (lget l s1)).
  destruct (vmst (lget l s1)) as [c m c0 c3 c4] eqn:Ev. cbn [cn phys] in *. subst c.
  eapply wp_mono; [apply wp_and; [apply paging_init_wp; [exact Hn|exact Hmm|exact Hm]|apply paging_init_keeps; [exact Hn|exact Hmm]]|].
  intros [] v [(Hpt & _ & Hpg & Hno & Ec) Hk]. apply wp_zoom. rewrite lget_lset by done. cbn [lset l_vm].
  wp_call (tcb_loop root); [done|]. intros [] s3 (T & -> & HT3). rewrite lset_lset by done.
  apply wp_zoom. rewrite lget_lset by done. wp_call tq_loop. intros [] s4 (TQ & -> & HTQ). rewrite lset_lset by done.
  wp_step. apply wp_zoom. rewrite lget_lset by done. eapply wp_of_eq; [apply (set_curid_eq 0); [exact Hon|done|by apply HP]|]. rewrite lset_lset by done.
  apply wp_zoom. rewrite lget_lset by done. eapply wp_of_eq; [apply tcb_set_state_eq; done|]. rewrite lset_lset by done.
  eexists s1, _. split; [done|]. split; [reflexivity|]. split; try done; [|by rewrite Ev].
  split.
  - eapply (boot_sched _ T TQ root ks); [done|done|done|done|done|apply lookup_total_insert_eq|done|done].
  - exact Hpt.
  - intros pid Hpid. simpl.
    destruct (wp_result _ _ _ _ _ (container_init_wp mmap n Hn Hmm) Ec) as (_ & -> & _).
    rewrite state_setst. case_decide as E; [by subst|]. by rewrite HT3.
Qed.
End init.

(** ** The theorems *)

(** C5: round robin.  After any number [n] of yields on a processor, with
    any code of the threads in between, the running thread followed by the
    ready queue is the original sequence turned by [n] positions: no thread
    is lost, and each of the [k] threads runs within [k] yields. *)
Theorem yield_round_robin c l s cur ready :
  Forall (fun x => on_cpu c x.1) l -> sched_inv c s cur ready ->
  wp (run_yields l)
     (fun _ s' => exists cur' ready', sched_inv c s' cur' ready' /\
        length ready' = length ready /\
        forall i, (i <= length ready)%nat ->
          (cur' :: ready') !! i = (cur :: ready) !! ((i + length l) mod S (length ready))%nat) s.
Proof.
  intros Hl Hinv. wp_call run_yields_wp; [done..|].
  intros [] s' (cur' & ready' & Hinv' & E). exists cur', ready'. split; [done|].
  destruct (turn_lookup (cur :: ready) (length l)) as [HL Hlen]; [done|]. rewrite <- E in HL, Hlen.
  split; [simpl in Hlen; lia|]. intros i Hi. rewrite HL, decide_True by (simpl; lia). done.
Qed.

(** C19: context integrity.  A thread that yields while others wait runs
    again exactly when each of them has yielded once, and then with the
    stack pointer, callee-saved registers and return address it had when it
    yielded, whatever the other threads did to registers and memory. *)
Theorem yield_restores_context c ks l s cur r1 ready :
  on_cpu c ks -> Forall (fun x => on_cpu c x.1) l -> sched_inv c s cur (r1 :: ready) ->
  length l = S (length ready) ->
  wp (thread_yield ks ;; run_yields l)
     (fun _ s' => CURID s' !!! c = cur /\ cpu s' = restored (saved s)) s.
Proof.
  intros Hon Hl Hinv Hlen. assert (Hne : r1 <> cur).
  { pose proof (cur_not_ready _ _ _ _ (proj2 Hinv)). set_solver. }
  wp_step. wp_call (thread_yield_wp c ks s cur (r1 :: ready) r1 (ready ++ [cur])); [done..|].
  intros [] s1 (Hinv1 & Hsw & _).
  wp_call (run_yields_keeps c l s1 r1 ready cur []); [done..|].
  intros [] s' [Hc ->]. split; [done|]. unfold switched in Hsw.
  rewrite decide_False in Hsw by done. destruct Hsw as (_ & -> & _).
  by rewrite lookup_total_insert_eq.
Qed.

(** C20: preemption.  [n] timer interrupts on a processor turn the sequence
    of threads by [n / SCHED_SLICE] positions (counting the ticks already
    there), and the remainder stays in sched_ticks. *)
Theorem timer_preemption c l s cur ready :
  Forall (fun x => on_cpu c x.1) l -> sched_inv c s cur ready ->
  0 <= sched_ticks s !!! c < SCHED_SLICE ->
  let n := sched_ticks s !!! c + Z.of_nat (length l) in
  wp (run_ticks l)
     (fun _ s' => exists cur' ready', sched_inv c s' cur' ready' /\
        sched_ticks s' !!! c = n mod SCHED_SLICE /\ length ready' = length ready /\
        forall i, (i <= length ready)%nat -> (cur' :: ready') !! i =
          (cur :: ready) !! ((i + Z.to_nat (n / SCHED_SLICE)) mod S (length ready))%nat) s.
Proof.
  intros Hl Hinv Ht n. wp_call run_ticks_wp; [done..|].
  intros [] s' (cur' & ready' & Hinv' & E & Htk). exists cur', ready'. split; [done|].
  destruct (turn_lookup (cur :: ready) (Z.to_nat (n / SCHED_SLICE))) as [HL Hlen]; [done|].
  unfold n in HL, Hlen. rewrite <- E in HL, Hlen. split; [done|].
  split; [simpl in Hlen; lia|]. intros i Hi. rewrite HL, decide_True by (simpl; lia). done.
Qed.

(** Spawning.  With room in the parent's container a new thread, dead
    before, goes to the end of the ready queue with its context at the top
    of its own kernel stack and at the entry point, and every invariant is
    kept; a quota that does not fit is refused and changes nothing. *)
Theorem thread_spawn_correct c ks s cur ready entry id q :
  on_cpu c ks -> thr_inv c s cur ready -> 0 <= id < NUM_IDS -> 0 <= q ->
  let p := CONTAINER (cn (vmst s)) !!! id in
  let child := id * MAX_CHILDREN + 1 + nchildren p in
  used p <> 0 -> nchildren p < MAX_CHILDREN -> child < NUM_IDS -> usage p + q < W32 ->
  wp (thread_spawn ks entry id q)
     (fun r s' =>
        if decide (usage p + q <= quota p) then
          r = child /\ state (TCBPool s !!! child) = TSTATE_DEAD /\
          thr_inv c s' cur (ready ++ [child]) /\
          kctx_pool s' = <[child := fresh_kctx (kctx_pool s !!! child) child entry]> (kctx_pool s) /\
          split_post id q (cn (vmst s)) child (cn (vmst s')) /\ cpu s' = cpu s
        else r = NUM_IDS /\ s' = lset l_sched_lk free_lock s) s.
Proof.
  intros Hon Hinv Hid Hq p child Hus Hnc Hch Hw. destruct (decide (usage p + q <= quota p)) as [Hr|Hr].
  - wp_call thread_spawn_wp; [done..| |done|]; [by split; try lia|].
    intros r s' (-> & _ & ? & ? & ? & ? & _ & ? & _). done.
  - eapply wp_of_eq; [apply (thread_spawn_refused c ks s cur ready); try done; fold p; lia|]. done.
Qed.

(** Waking up.  thread_wakeup moves exactly the threads that sleep on
    the channel to the ready queue, in the order of their ids, clears their
    channels and leaves every other thread and the running one alone. *)
Theorem thread_wakeup_correct c ks s cur ready chan :
  on_cpu c ks -> sched_inv c s cur ready ->
  wp (thread_wakeup ks chan)
     (fun _ s' => sched_inv c s' cur (ready ++ sleepers (TCBPool s) chan NUM_IDS) /\
        woken (TCBPool s) (TCBPool s') chan NUM_IDS /\
        cpu s' = cpu s /\ kctx_pool s' = kctx_pool s /\ vmst s' = vmst s) s.
Proof.
  intros Hon Hinv. wp_call thread_wakeup_wp; [done..|].
  intros [] s' (T & TQ & -> & HW & Hs). done.
Qed.

(** C39: thread_sleep does not record the thread it switches to.  The next
    ready thread runs, but the current id still names the sleeper and the
    running thread is not marked as running; when it yields, its registers
    overwrite the saved context of the sleeper, whose own registers are
    lost, and the sleeper is made ready without a wakeup. *)
Theorem thread_sleep_loses_context c ks s cur next r1 ready chan lk :
  on_cpu c ks -> sched_inv c s cur (next :: r1 :: ready) -> outside lk ->
  wp (thread_sleep_pre ks chan (Some lk))
     (fun _ s' => cpu s' = restored (kctx_pool s !!! next) /\
        CURID s' !!! c = cur /\ state (TCBPool s' !!! cur) = TSTATE_SLEEP /\
        state (TCBPool s' !!! next) = TSTATE_READY /\ kctx_pool s' !!! cur = saved s /\
        forall ks', on_cpu c ks' -> wp (thread_yield ks')
           (fun _ s'' => kctx_pool s'' !!! cur = saved s' /\
              kctx_pool s'' !!! next = kctx_pool s' !!! next /\
              state (TCBPool s'' !!! cur) = TSTATE_READY) s') s.
Proof.
  intros Hon Hinv Hlk. wp_call thread_sleep_wp; [done..|]. intros [] s' [Hsl HQ].
  pose proof Hinv as [_ Hsc]. pose proof (cur_not_ready _ _ _ _ Hsc) as Hnr.
  pose proof Hsl as (-> & -> & -> & _ & _ & Hst). split; [done|]. split; [apply Hsc|].
  rewrite !Hst, decide_True, decide_False by set_solver. split; [done|]. split.
  { apply (sc_ready _ _ _ _ Hsc); [|set_solver]. eapply ready_range; [exact Hsc|set_solver]. }
  split; [done|]. intros ks' Hks'. by eapply yield_after_sleep.
Qed.
End sched.

(** ** Concrete instances *)

(** Thread 0 runs, 1 and 2 are ready, 3 and 4 sleep on channel 8; thread 1
    is stopped at 100 with its stack at 4096. *)
Definition demo_tcbs : gmap Z TCB :=
  <[0 := Tcb TSTATE_RUN 0 64 64 0 ∅ 0]> (<[1 := Tcb TSTATE_READY 0 64 2 0 ∅ 0]>
  (<[2 := Tcb TSTATE_READY 0 1 64 0 ∅ 0]> (<[3 := Tcb TSTATE_SLEEP 0 64 64 8 ∅ 0]>
  (<[4 := Tcb TSTATE_SLEEP 0 64 64 8 ∅ 0]>
     (foldr (fun pid m => <[pid := boot_tcb 0]> m) ∅ (seqZ 5 59)))))).
Definition demo_pcpus : gmap Z pcpu_t := <[1 := Pcpu true true 0 1]> {[0 := Pcpu true true 0 0]}.
Definition demo_sched (v : vm) : thr :=
  Thr v demo_pcpus {[1 := Kctx 4096 0 0 0 0 100]} demo_tcbs (<[64 := Tq 1 2]> empty_tq) {[0 := 0]}
      free_lock ∅ (Kctx 8192 1 2 3 4 200) true.

Lemma demo_tcbs_state pid : 0 <= pid < NUM_IDS -> state (demo_tcbs !!! pid) =
  if decide (pid = 0) then TSTATE_RUN else if decide (pid = 1 \/ pid = 2) then TSTATE_READY
  else if decide (pid = 3 \/ pid = 4) then TSTATE_SLEEP else TSTATE_DEAD.
Proof.
  intros Hpid. assert (Hin : pid ∈ seqZ 0 64) by (apply elem_of_seqZ; unfold NUM_IDS in *; lia).
  clear Hpid; revert pid Hin. apply Forall_forall. apply (bool_decide_unpack _). by vm_compute.
Qed.

Lemma demo_ready_queue T : (forall a, T !!! a = demo_tcbs !!! a) ->
  queues T (<[64 := Tq 1 2]> empty_tq) (only_ready [1; 2]).
Proof.
  intros E. unfold only_ready. split; intros c.
  - intros Hc. case_decide; [|done]. simpl. rewrite !E. done.
  - intros Hc. case_decide; [subst; done|]. rewrite lookup_total_insert_ne, empty_tq_lookup by done. done.
  - intros Hc. case_decide; [subst; done|]. rewrite lookup_total_insert_ne, empty_tq_lookup by done. done.
  - intros a. case_decide; unfold NUM_IDS; rewrite ?elem_of_cons, elem_of_nil; lia.
  - case_decide; [|constructor]. apply (bool_decide_unpack _). by vm_compute.
  - intros c' a. case_decide; [|set_solver]. case_decide; [by subst|set_solver].
Qed.

Lemma demo_sched_inv v : sched_inv 0 (demo_sched v) 0 [1; 2].
Proof.
  split; [reflexivity|]. split.
  - split; [unfold NUM_CPUS; lia|reflexivity].
  - by apply demo_ready_queue.
  - split; [reflexivity|unfold NUM_IDS; lia].
  - intros pid Hpid. change (TCBPool (demo_sched v)) with demo_tcbs. rewrite demo_tcbs_state by exact Hpid.
    repeat case_decide; split; (discriminate || lia || done).
  - intros pid Hpid. change (TCBPool (demo_sched v)) with demo_tcbs. rewrite demo_tcbs_state by exact Hpid.
    rewrite !elem_of_cons, elem_of_nil. repeat case_decide; split; (discriminate || lia || done).
Qed.

Lemma demo_on_cpu : on_cpu 0 demo_ks.
Proof. split; [apply demo_ks_ok|done]. Qed.

(** Each thread clobbers every register before it yields. *)
Definition clobber (s : thr) : kctx * vm := (Kctx 0 0 0 0 0 0, vmst s).
Definition demo_turn : kstack * (thr -> kctx * vm) := (demo_ks, clobber).

Lemma demo_turns n : Forall (fun x => on_cpu 0 x.1) (replicate n demo_turn).
Proof. apply Forall_replicate. exact demo_on_cpu. Qed.

Lemma yield_round_robin_witness :
  wp (run_yields (replicate 5 demo_turn)) (fun _ s' => CURID s' !!! 0 = 2) (demo_sched demo_vm).
Proof.
  eapply wp_mono; [apply (yield_round_robin 0 (replicate 5 demo_turn) _ 0 [1; 2])|].
  - apply demo_turns.
  - apply demo_sched_inv.
  - intros [] s' (cur' & ready' & Hinv & _ & HL). specialize (HL 0%nat ltac:(simpl; lia)).
    assert (cur' = 2) as <- by (simpl in HL; congruence). exact (proj1 (sc_cur _ _ _ _ (proj2 Hinv))).
Defined.

Lemma yield_restores_context_witness :
  wp (thread_yield demo_ks ;; run_yields (replicate 2 demo_turn))
     (fun _ s' => CURID s' !!! 0 = 0 /\ esp (cpu s') = 8196 /\ ebp (cpu s') = 4) (demo_sched demo_vm).
Proof.
  eapply wp_mono; [apply (yield_restores_context 0 demo_ks (replicate 2 demo_turn) _ 0 1 [2])|].
  - exact demo_on_cpu.
  - apply demo_turns.
  - apply demo_sched_inv.
  - reflexivity.
  - intros [] s' [Hc ->]. split; [exact Hc|split; reflexivity].
Defined.

Lemma timer_preemption_witness :
  wp (run_ticks (replicate 12 demo_turn))
     (fun _ s' => CURID s' !!! 0 = 2 /\ sched_ticks s' !!! 0 = 2) (demo_sched demo_vm).
Proof.
  eapply wp_mono; [apply (timer_preemption 0 (replicate 12 demo_turn) _ 0 [1; 2])|].
  - apply demo_turns.
  - apply demo_sched_inv.
  - change (0 <= 0 < SCHED_SLICE). unfold SCHED_SLICE. lia.
  - intros [] s' (cur' & ready' & Hinv & Ht & _ & HL). specialize (HL 0%nat ltac:(simpl; lia)).
    change (Some cur' = Some 2) in HL. injection HL as ->.
    split; [exact (proj1 (sc_cur _ _ _ _ (proj2 Hinv)))|exact Ht].
Defined.

(** A state that devinit leaves, and the threads after the initialisation. *)
Definition demo_fresh : thr :=
  Thr demo_vm {[0 := Pcpu true true 0 0; 1 := Pcpu true false 0 1; 2 := Pcpu true false 0 2; 3 := Pcpu true false 0 3; 4 := Pcpu true false 0 4;
    5 := Pcpu true false 0 5; 6 := Pcpu true false 0 6; 7 := Pcpu true false 0 7]} ∅ ∅ ∅ ∅ free_lock ∅ (Kctx 0 0 0 0 0 0) true.
Definition l_all : lens thr thr := Lens (fun s => s) (fun x _ => x).
#[global] Instance l_all_laws : LensLaws l_all.
Proof. by split. Qed.
Lemma demo_fresh_ok : fresh demo_fresh.
Proof.
  split; [done|apply mem_ok_empty|done| |done]. intros c Hc. assert (Hs : c ∈ seqZ 0 8) by (apply elem_of_seqZ; unfold NUM_CPUS in Hc; lia).
  clear Hc. revert c Hs. apply Forall_forall. apply (bool_decide_unpack _). by vm_compute.
Qed.
Lemma demo_booted : exists s, thr_inv 0 s 0 [] /\
  CONTAINER (cn (vmst s)) = root_con (navail (AT (mat (cn (vmst s))))) /\
  2 <= navail (AT (mat (cn (vmst s)))).
Proof.
  destruct (proj1 (wp_elim _ _ _) (thread_init_wp l_all (put demo_fresh) demo_ks 0 2 demo_mmap demo_on_cpu ltac:(lia) demo_mmap_all
    demo_fresh (fun _ => True) (fun _ _ _ => conj demo_fresh_ok I))) as ([] & s & _ & _ & t & _ & _ & [Hinv _ _ _ Ec _ _]).
  exists t. split; [exact Hinv|]. apply demo_init_quota. exact Ec.
Qed.

Lemma thread_spawn_correct_witness :
  exists s, thr_inv 0 s 0 [] /\
    wp (thread_spawn demo_ks 4096 0 2) (fun r s' => r = 1 /\ thr_inv 0 s' 0 [1]) s.
Proof.
  destruct demo_booted as (s & Hinv & HC & Hn). exists s. split; [exact Hinv|].
  pose proof (ck_quota _ (ci_con _ (vi_cont _ (ti_pt _ _ _ _ Hinv))) 0) as Hq.
  assert (HC0 : CONTAINER (cn (vmst s)) !!! 0 = Con (navail (AT (mat (cn (vmst s))))) 0 0 0 1)
    by (rewrite HC; reflexivity).
  eapply wp_mono; [apply (thread_spawn_correct 0 demo_ks s 0 [] 4096 0 2)|];
    try (rewrite HC0; cbn [used nchildren usage quota]).
  - exact demo_on_cpu.
  - exact Hinv.
  - unfold NUM_IDS. lia.
  - lia.
  - discriminate.
  - unfold MAX_CHILDREN. lia.
  - unfold MAX_CHILDREN, NUM_IDS. lia.
  - unfold W32. lia.
  - intros r s' H. cbv beta in H. rewrite decide_True in H by exact Hn.
    destruct H as (-> & _ & H & _). split; [reflexivity|exact H].
Defined.

Lemma thread_wakeup_correct_witness :
  wp (thread_wakeup demo_ks 8) (fun _ s' => sched_inv 0 s' 0 [1; 2; 3; 4]) (demo_sched demo_vm).
Proof.
  eapply wp_mono; [apply (thread_wakeup_correct 0 demo_ks _ 0 [1; 2] 8)|].
  - exact demo_on_cpu.
  - apply demo_sched_inv.
  - intros [] s' [H _].
    replace (sleepers (TCBPool (demo_sched demo_vm)) 8 NUM_IDS) with [3; 4] in H
      by (vm_compute; reflexivity). exact H.
Defined.

(** The lock of container 5 as the caller's lock. *)
Definition demo_lk : lens thr spinlock_t := lens_comp l_cn_thr (l_lk 5).

Lemma thread_sleep_loses_context_witness :
  wp (thread_sleep_pre demo_ks 8 (Some demo_lk))
     (fun _ s' => esp (cpu s') = 4100 /\ CURID s' !!! 0 = 0 /\ esp (kctx_pool s' !!! 0) = 8192 /\
        wp (thread_yield demo_ks) (fun _ s'' => esp (kctx_pool s'' !!! 0) = 4100) s')
     (demo_sched demo_vm).
Proof.
  eapply wp_mono; [apply (thread_sleep_loses_context 0 demo_ks _ 0 1 2 [] 8 demo_lk)|].
  - exact demo_on_cpu.
  - apply demo_sched_inv.
  - intros x s. eexists. split; reflexivity.
  - intros [] s' (Hcpu & Hc & _ & _ & Hk & Hy). rewrite Hcpu, Hk.
    split; [reflexivity|]. split; [exact Hc|]. split; [reflexivity|].
    eapply wp_mono; [apply Hy; exact demo_on_cpu|].
    intros [] s'' [-> _]. change (esp (cpu s') = 4100). rewrite Hcpu. reflexivity.
Defined.
