(* ===== verification/Ide.v ===== *)
(** * The disk (kern/dev/disk/ide, kern/lib/buf)

    The IDE controller as the driver sees it through its ports, and the
    driver.  The driver is run by one thread: where it sleeps until the disk
    has finished, the interrupt handler runs. *)

From stdpp Require Import base gmap list numbers.
From S2P Require Import Prelude Lock Mem Thread.
Import Spinlock.

Definition IDE_BSY : Z := 128.
Definition IDE_DRDY : Z := 64.
Definition IDE_DF : Z := 32.
Definition IDE_ERR : Z := 1.
Definition IDE_CMD_READ : Z := 32.
Definition IDE_CMD_WRITE : Z := 48.

Definition NBUF : Z := 10.
Definition BSIZE : Z := 512.
Definition B_BUSY : Z := 1.
Definition B_VALID : Z := 2.
Definition B_DIRTY : Z := 4.

#[global] Instance block_inhabited : Inhabited mem := populate ∅.

(** ** The controller

    It latches what is written to its ports.  [polls] counts the reads of
    the status port until it is ready again, [delay] is what a command sets
    it to; [bad] are the sectors it cannot read.  [written] records every
    sector written, the oldest first. *)
Record disk : Type := Disk {
  sectors : gmap (Z * Z) mem; bad : gset (Z * Z);
  port : gmap Z Z; polls : Z; delay : Z;
  written : list ((Z * Z) * mem)
}.

(** Drive and sector number in the task file registers. *)
Definition addressed (d : disk) : Z * Z :=
  (Z.land (Z.shiftr (port d !!! 0x1f6) 4) 1,
   Z.lor (port d !!! 0x1f3) (Z.lor (Z.shiftl (port d !!! 0x1f4) 8)
     (Z.lor (Z.shiftl (port d !!! 0x1f5) 16) (Z.shiftl (Z.land (port d !!! 0x1f6) 15) 24)))).

Definition outb (p v : Z) : K disk unit :=
  modify (fun d => Disk (sectors d) (bad d) (<[p := v]> (port d))
                        (if p =? 0x1f7 then delay d else polls d) (delay d) (written d)).

Definition status (d : disk) : Z :=
  Z.lor IDE_DRDY (if bool_decide (addressed d ∈ bad d) then IDE_ERR else 0).

Definition inb_status : K disk Z :=
  d ← get;
  if 0 <? polls d then
    put (Disk (sectors d) (bad d) (port d) (polls d - 1) (delay d) (written d)) ;;
    mret IDE_BSY
  else mret (status d).

(** 512 / 4 words through the data port. *)
Definition outsl (data : mem) : K disk unit :=
  d ← get;
  check (port d !!! 0x1f7 =? IDE_CMD_WRITE) ;;
  put (Disk (<[addressed d := data]> (sectors d)) (bad d) (port d) (polls d) (delay d)
            (written d ++ [(addressed d, data)])).
Definition insl : K disk mem :=
  d ← get;
  check (port d !!! 0x1f7 =? IDE_CMD_READ) ;;
  mret (sectors d !!! addressed d).

(** ** Buffers

    A pointer to a buffer is its index in bcache.buf, the list head has
    index NBUF, and the null pointer is -1. *)
Record buf : Type := Buf {
  flags : Z; dev : Z; sector : Z; b_prev : Z; b_next : Z; qnext : Z; data : mem
}.
#[global] Instance buf_inhabited : Inhabited buf := populate (Buf 0 0 0 0 0 0 ∅).
Definition NULL : Z := -1.

Record bio : Type := Bio {
  th : thr;
  ide_lk : spinlock_t; idequeue : Z; havedisk1 : Z; dsk : disk;
  bc_lk : spinlock_t; bufs : gmap Z buf
}.
Definition l_th : lens bio thr := Lens th (fun x s =>
  Bio x (ide_lk s) (idequeue s) (havedisk1 s) (dsk s) (bc_lk s) (bufs s)).
Definition l_ide_lk : lens bio spinlock_t := Lens ide_lk (fun x s =>
  Bio (th s) x (idequeue s) (havedisk1 s) (dsk s) (bc_lk s) (bufs s)).
Definition set_idequeue (x : Z) (s : bio) : bio :=
  Bio (th s) (ide_lk s) x (havedisk1 s) (dsk s) (bc_lk s) (bufs s).
Definition set_havedisk1 (x : Z) (s : bio) : bio :=
  Bio (th s) (ide_lk s) (idequeue s) x (dsk s) (bc_lk s) (bufs s).
Definition l_dsk : lens bio disk := Lens dsk (fun x s =>
  Bio (th s) (ide_lk s) (idequeue s) (havedisk1 s) x (bc_lk s) (bufs s)).
Definition l_bc_lk : lens bio spinlock_t := Lens bc_lk (fun x s =>
  Bio (th s) (ide_lk s) (idequeue s) (havedisk1 s) (dsk s) x (bufs s)).
Definition set_bufs (x : gmap Z buf) (s : bio) : bio :=
  Bio (th s) (ide_lk s) (idequeue s) (havedisk1 s) (dsk s) (bc_lk s) x.

Definition with_flags (x : Z) (b : buf) : buf :=
  Buf x (dev b) (sector b) (b_prev b) (b_next b) (qnext b) (data b).
Definition with_b_prev (x : Z) (b : buf) : buf :=
  Buf (flags b) (dev b) (sector b) x (b_next b) (qnext b) (data b).
Definition with_b_next (x : Z) (b : buf) : buf :=
  Buf (flags b) (dev b) (sector b) (b_prev b) x (qnext b) (data b).
Definition with_qnext (x : Z) (b : buf) : buf :=
  Buf (flags b) (dev b) (sector b) (b_prev b) (b_next b) x (data b).
Definition with_dev (x : Z) (b : buf) : buf :=
  Buf (flags b) x (sector b) (b_prev b) (b_next b) (qnext b) (data b).
Definition with_sector (x : Z) (b : buf) : buf :=
  Buf (flags b) (dev b) x (b_prev b) (b_next b) (qnext b) (data b).
Definition with_data (x : mem) (b : buf) : buf :=
  Buf (flags b) (dev b) (sector b) (b_prev b) (b_next b) (qnext b) x.

(** Access through a pointer to one of the buffers or the head. *)
Definition deref (b : Z) : K bio buf :=
  check (in_array b (NBUF + 1)) ;; gets (fun s => bufs s !!! b).
Definition bupd (b : Z) (f : buf -> buf) : K bio unit :=
  check (in_array b (NBUF + 1)) ;;
  modify (fun s => set_bufs (<[b := f (bufs s !!! b)]> (bufs s)) s).

(** The address of bcache, which thread_sleep and thread_wakeup get as a
    channel for a buffer, and of the other structures used as channels. *)
Class fs_layout : Type := { bcache_buf : Z; log_addr : Z; icache_inode : Z }.

Section ide.
Context `{fs_layout}.

Definition SIZEOF_BUF : Z := 536.
Definition buf_chan (b : Z) : Z := bcache_buf + SIZEOF_BUF * b.

Definition ide_wait (checkerr : bool) : K bio Z :=
  r ← zoom l_dsk (while (fun _ : unit =>
        r ← inb_status;
        if negb (Z.land r (Z.lor IDE_BSY IDE_DRDY) =? IDE_DRDY) then mret (inl tt) else mret (inr r)) tt);
  if checkerr && negb (Z.land r (Z.lor IDE_DF IDE_ERR) =? 0) then mret (-1) else mret 0.

(** [present]: what the status port shows while drive 1 is selected.  The
    routing of the interrupt (picenable, ioapicenable) is not modelled. *)
Definition ide_init (present : Z -> Z) : K bio unit :=
  zoom l_ide_lk spinlock_init ;;
  ide_wait false ;;
  zoom l_dsk (outb 0x1f6 (Z.lor 0xe0 (Z.shiftl 1 4))) ;;
  while (fun i =>
    if negb (i <? 1000) then mret (inr tt)
    else if negb (present i =? 0) then modify (set_havedisk1 1) ;; mret (inr tt)
    else mret (inl (i + 1))) 0 ;;
  zoom l_dsk (outb 0x1f6 (Z.lor 0xe0 (Z.shiftl 0 4))).

Definition ide_start (b : Z) : K bio unit :=
  kern_assert (negb (b =? NULL)) ;;
  ide_wait false ;;
  zoom l_dsk (outb 0x3f6 0) ;;
  zoom l_dsk (outb 0x1f2 1) ;;
  x ← deref b;
  zoom l_dsk (outb 0x1f3 (Z.land (sector x) 0xff)) ;;
  zoom l_dsk (outb 0x1f4 (Z.land (Z.shiftr (sector x) 8) 0xff)) ;;
  zoom l_dsk (outb 0x1f5 (Z.land (Z.shiftr (sector x) 16) 0xff)) ;;
  zoom l_dsk (outb 0x1f6 (Z.lor 0xe0 (Z.lor (Z.shiftl (Z.land (dev x) 1) 4)
                                            (Z.land (Z.shiftr (sector x) 24) 0x0f)))) ;;
  if negb (Z.land (flags x) B_DIRTY =? 0) then
    zoom l_dsk (outb 0x1f7 IDE_CMD_WRITE) ;;
    zoom l_dsk (outsl (data x))
  else zoom l_dsk (outb 0x1f7 IDE_CMD_READ).

Definition ide_intr (ks : kstack) : K bio unit :=
  zoom l_ide_lk (spinlock_acquire ks) ;;
  b ← gets idequeue;
  if b =? NULL then zoom l_ide_lk spinlock_release
  else
    x ← deref b;
    modify (set_idequeue (qnext x)) ;;
    (if Z.land (flags x) B_DIRTY =? 0 then
       r ← ide_wait true;
       if 0 <=? r then d ← zoom l_dsk insl; bupd b (with_data d) else mret tt
     else mret tt) ;;
    bupd b (fun x => with_flags (Z.lor (flags x) B_VALID) x) ;;
    bupd b (fun x => with_flags (Z.land (flags x) (Z.lnot B_DIRTY)) x) ;;
    zoom l_th (thread_wakeup ks (buf_chan b)) ;;
    q ← gets idequeue;
    (if negb (q =? NULL) then ide_start q else mret tt) ;;
    zoom l_ide_lk spinlock_release.

(** The loop over pp: walk the queue to its null pointer and store [b] there. *)
Definition append_queue (b : Z) : K bio unit :=
  q ← gets idequeue;
  if q =? NULL then modify (set_idequeue b)
  else while (fun p =>
    x ← deref p;
    if qnext x =? NULL then bupd p (with_qnext b) ;; mret (inr tt)
    else mret (inl (qnext x))) q.

(** The thread sleeps with ide_lk released until the disk interrupts. *)
Definition sleep_on_disk (ks : kstack) : K bio unit :=
  zoom l_ide_lk spinlock_release ;;
  ide_intr ks ;;
  zoom l_ide_lk (spinlock_acquire ks).

Definition ide_rw (ks : kstack) (b : Z) : K bio unit :=
  x ← deref b;
  kern_assert (negb (Z.land (flags x) B_BUSY =? 0)) ;;
  kern_assert (negb (Z.land (flags x) (Z.lor B_VALID B_DIRTY) =? B_VALID)) ;;
  h ← gets havedisk1;
  kern_assert ((dev x =? 0) || negb (h =? 0)) ;;
  zoom l_ide_lk (spinlock_acquire ks) ;;
  bupd b (with_qnext NULL) ;;
  append_queue b ;;
  q ← gets idequeue;
  (if q =? b then ide_start b else mret tt) ;;
  while (fun _ : unit =>
    x ← deref b;
    if negb (Z.land (flags x) (Z.lor B_VALID B_DIRTY) =? B_VALID)
    then sleep_on_disk ks ;; mret (inl tt)
    else mret (inr tt)) tt ;;
  zoom l_ide_lk spinlock_release.
End ide.
