(* ===== verification/IdeSpec.v ===== *)
(** * The disk driver serves requests in order

    A queue of buffers linked through [qnext], of which the first has been
    given to the controller, against a specification that handles one
    request after the other. *)

From stdpp Require Import base gmap list numbers.
From S2P Require Import Prelude Lock Mem Thread Queue Sched Ide.
Import Spinlock.

(** ** Flags *)
Definition flags_ok (f : Z) : Prop := 0 <= f < 8.
Definition busy (b : buf) : bool := Z.testbit (flags b) 0.
Definition valid (b : buf) : bool := Z.testbit (flags b) 1.
Definition dirty (b : buf) : bool := Z.testbit (flags b) 2.

Lemma flag_cases (P : Z -> Prop) f : flags_ok f ->
  P 0 -> P 1 -> P 2 -> P 3 -> P 4 -> P 5 -> P 6 -> P 7 -> P f.
Proof.
  intros Hf. unfold flags_ok in Hf. assert (f = 0 \/ f = 1 \/ f = 2 \/ f = 3 \/ f = 4 \/ f = 5 \/ f = 6
    \/ f = 7) as [->|[->|[->|[->|[->|[->|[->| ->]]]]]]] by lia; auto.
Qed.

Lemma busy_eq b : flags_ok (flags b) -> (Z.land (flags b) B_BUSY =? 0) = negb (busy b).
Proof. unfold busy. intros H. by pattern (flags b); apply flag_cases. Qed.
Lemma valid_eq b : flags_ok (flags b) -> (Z.land (flags b) B_VALID =? 0) = negb (valid b).
Proof. unfold valid. intros H. by pattern (flags b); apply flag_cases. Qed.
Lemma dirty_eq b : flags_ok (flags b) -> (Z.land (flags b) B_DIRTY =? 0) = negb (dirty b).
Proof. unfold dirty. intros H. by pattern (flags b); apply flag_cases. Qed.
Lemma synced_eq b : flags_ok (flags b) ->
  (Z.land (flags b) (Z.lor B_VALID B_DIRTY) =? B_VALID) = valid b && negb (dirty b).
Proof. unfold valid, dirty. intros H. by pattern (flags b); apply flag_cases. Qed.

(** The flags after a request. *)
Definition served_flags (f : Z) : Z := Z.land (Z.lor f B_VALID) (Z.lnot B_DIRTY).
Lemma served_flags_ok f : flags_ok f -> flags_ok (served_flags f) /\
  Z.testbit (served_flags f) 0 = Z.testbit f 0 /\ Z.testbit (served_flags f) 1 = true /\
  Z.testbit (served_flags f) 2 = false.
Proof. intros H. pattern f. apply flag_cases; [done|..]; done. Qed.

(** ** Requests *)
Definition key (b : buf) : Z * Z := (dev b, sector b).
Definition req_ok (b : buf) : Prop :=
  (dev b = 0 \/ dev b = 1) /\ 0 <= sector b < 268435456 /\ flags_ok (flags b).

(** Disk contents and the record of writes. *)
Definition store : Type := gmap (Z * Z) mem * list ((Z * Z) * mem).
Definition store_of (d : disk) : store := (sectors d, written d).

Definition begin_req (x : buf) (st : store) : store :=
  if dirty x then (<[key x := data x]> st.1, st.2 ++ [(key x, data x)]) else st.
Definition served (bd : gset (Z * Z)) (x : buf) (S : gmap (Z * Z) mem) : buf :=
  with_flags (served_flags (flags x))
    (if dirty x || bool_decide (key x ∈ bd) then x else with_data (S !!! key x) x).
Definition do_req (bd : gset (Z * Z)) (a : gmap Z buf * store) (b : Z) : gmap Z buf * store :=
  let st := begin_req (a.1 !!! b) a.2 in (<[b := served bd (a.1 !!! b) st.1]> a.1, st).

(** The controller works on the request of buffer [x]. *)
Definition started (d : disk) (x : buf) : Prop :=
  addressed d = key x /\ port d !!! 0x1f7 = if dirty x then IDE_CMD_WRITE else IDE_CMD_READ.

Record disk_ok (d : disk) : Prop := { dk_polls : 0 <= polls d < W32; dk_delay : 0 <= delay d < W32 }.

Lemma lba_bytes s : 0 <= s < 268435456 ->
  Z.lor (Z.land s 0xff) (Z.lor (Z.shiftl (Z.land (Z.shiftr s 8) 0xff) 8)
    (Z.lor (Z.shiftl (Z.land (Z.shiftr s 16) 0xff) 16) (Z.shiftl (Z.land (Z.shiftr s 24) 15) 24))) = s.
Proof.
  intros Hs. apply Z.bits_inj'. intros n Hn.
  rewrite !Z.lor_spec, !Z.shiftl_spec, Z.land_spec by done.
  change 0xff with (Z.ones 8). change 15 with (Z.ones 4).
  destruct (decide (n < 8)).
  { rewrite Z.ones_spec_low, !(Z.testbit_neg_r _ (n - _)) by lia. by rewrite andb_true_r, !orb_false_r. }
  rewrite Z.ones_spec_high, andb_false_r by lia. simpl.
  rewrite (Z.land_spec _ _ (n - 8)), Z.shiftr_spec by lia. replace (n - 8 + 8) with n by lia.
  destruct (decide (n < 16)).
  { rewrite Z.ones_spec_low, !(Z.testbit_neg_r _ (n - _)) by lia. by rewrite andb_true_r, !orb_false_r. }
  rewrite (Z.ones_spec_high 8 (n - 8)), andb_false_r by lia. simpl.
  rewrite (Z.land_spec _ _ (n - 16)), Z.shiftr_spec by lia. replace (n - 16 + 16) with n by lia.
  destruct (decide (n < 24)).
  { rewrite Z.ones_spec_low, !(Z.testbit_neg_r _ (n - _)) by lia. by rewrite andb_true_r, !orb_false_r. }
  rewrite (Z.ones_spec_high 8 (n - 16)), andb_false_r by lia. simpl.
  rewrite (Z.land_spec _ _ (n - 24)), Z.shiftr_spec by lia. replace (n - 24 + 24) with n by lia.
  destruct (decide (n < 28)); [by rewrite Z.ones_spec_low, andb_true_r by lia|].
  rewrite Z.ones_spec_high, andb_false_r by lia. symmetry. apply testbit_small with 28; lia.
Qed.

Lemma head_bits a h : (a = 0 \/ a = 1) -> 0 <= h < 16 ->
  let v := Z.lor 0xe0 (Z.lor (Z.shiftl (Z.land a 1) 4) h) in
  Z.land (Z.shiftr v 4) 1 = a /\ Z.land v 15 = h.
Proof.
  intros Ha Hh. assert (Hh' : h ∈ seqZ 0 16) by (apply elem_of_seqZ; lia).
  clear Hh. revert h Hh'. apply Forall_forall. apply (bool_decide_unpack _).
  destruct Ha as [->| ->]; by vm_compute.
Qed.

(** A disk that differs from [d] only in what it latched. *)
Definition same_store (d d' : disk) : Prop :=
  store_of d' = store_of d /\ bad d' = bad d /\ disk_ok d'.

Lemma same_store_refl d : disk_ok d -> same_store d d.
Proof. intros. split; [done|]. by split. Qed.

Lemma deref_eq s b : 0 <= b <= NBUF -> deref b s = Ok (bufs s !!! b) s.
Proof. intros Hb. unfold deref, in_array, NBUF in *. krun. zbool. done. Qed.

Section spec.
Context `{fs_layout}.

Lemma ide_wait_wp chk s : disk_ok (dsk s) ->
  wp (ide_wait chk)
     (fun r s' => exists d, s' = lset l_dsk d s /\ same_store (dsk s) d /\ port d = port (dsk s) /\
        r = if chk && bool_decide (addressed (dsk s) ∈ bad (dsk s)) then -1 else 0) s.
Proof.
  intros Hd. unfold ide_wait. wp_steps.
  wp_call (wp_while _ (fun _ d => same_store (dsk s) d /\ port d = port (dsk s)) (fun _ d => polls d)
    (fun r d => same_store (dsk s) d /\ port d = port (dsk s) /\ r = status d)).
  - intros [] d [(Hs & Hb & Ho) Hp] Hm. unfold inb_status. wp_steps.
    destruct (0 <? polls d) eqn:E; wp_steps.
    + simpl. wp_steps. simpl. destruct Ho. split; [|lia]. split; [|done]. split; [done|]. split; [done|]. split; simpl; lia.
    + replace (Z.land (status d) _ =? IDE_DRDY) with true; [by wp_steps|].
      unfold status. by destruct (bool_decide _).
  - split; [|done]. split; [done|]. by split.
  - destruct Hd. unfold W32 in *. simpl. lia.
  - intros r d (Hs & Hp & ->).
    assert (Ea : addressed d = addressed (dsk s)) by (unfold addressed; by rewrite Hp).
    assert (Eb : bad d = bad (dsk s)) by apply Hs.
    unfold status. rewrite Ea, Eb. destruct chk; simpl andb.
    + destruct (bool_decide _); wp_steps; by exists d.
    + wp_steps. by exists d.
Qed.

(** ide_init: the second disk is there if its port answers. *)
Lemma ide_init_wp present s : disk_ok (dsk s) ->
  wp (ide_init present) (fun _ s' => exists d h, s' = Bio (th s) free_lock (idequeue s) h d (bc_lk s) (bufs s) /\
    (h = havedisk1 s \/ h = 1) /\ same_store (dsk s) d) s.
Proof.
  intros Hd. unfold ide_init. do 2 wp_step. eapply (wp_of_eq _ _ _ tt free_lock); [reflexivity|]. wp_step.
  wp_call ide_wait_wp; [done|]. intros r s1 (d1 & -> & (S1 & B1 & O1) & _ & _). do 2 wp_step. unfold outb at 1. do 2 wp_step.
  match goal with |- wp _ _ ?x => set (s2 := x) end.
  wp_call (wp_while _ (fun i s' => 0 <= i <= 1000 /\ s' = s2) (fun i _ => 1000 - i)
    (fun _ s' => exists h, s' = set_havedisk1 h s2 /\ (h = havedisk1 s2 \/ h = 1))); [|by split|lia|].
  - intros i s' [Hi ->] _. destruct (Z.ltb_spec i 1000) as [Hlt|]; cbn [negb].
    + destruct (negb (present i =? 0)); [do 3 wp_step; exists 1; split; [done|by right]|wp_step; split; [split; [lia|done]|lia]].
    + wp_step. exists (havedisk1 s2). split; [by destruct s2|by left].
  - intros [] s' (h & -> & Hh). unfold outb. do 2 wp_step. eexists _, h. split; [reflexivity|]. split; [done|].
    split; [done|]. split; [done|]. destruct O1. by split.
Qed.

(** The registers after the request of [x] has been written to them. *)
Definition regs (x : buf) (v : Z) (p : gmap Z Z) : gmap Z Z :=
  <[0x1f7 := v]> (<[0x1f6 := Z.lor 0xe0 (Z.lor (Z.shiftl (Z.land (dev x) 1) 4)
      (Z.land (Z.shiftr (sector x) 24) 0x0f))]>
    (<[0x1f5 := Z.land (Z.shiftr (sector x) 16) 0xff]>
    (<[0x1f4 := Z.land (Z.shiftr (sector x) 8) 0xff]>
    (<[0x1f3 := Z.land (sector x) 0xff]> (<[0x1f2 := 1]> (<[0x3f6 := 0]> p)))))).

Lemma regs_addressed d x v p : req_ok x -> port d = regs x v p ->
  addressed d = key x /\ port d !!! 0x1f7 = v.
Proof.
  intros (Hd & Hs & _) E. unfold addressed. rewrite E. unfold regs.
  split; [|by rewrite lookup_total_insert_eq].
  rewrite (lookup_total_insert_ne _ 0x1f7 0x1f3), (lookup_total_insert_ne _ 0x1f6 0x1f3),
    (lookup_total_insert_ne _ 0x1f5 0x1f3), (lookup_total_insert_ne _ 0x1f4 0x1f3) by done.
  rewrite (lookup_total_insert_ne _ 0x1f7 0x1f4), (lookup_total_insert_ne _ 0x1f6 0x1f4),
    (lookup_total_insert_ne _ 0x1f5 0x1f4) by done.
  rewrite (lookup_total_insert_ne _ 0x1f7 0x1f5), (lookup_total_insert_ne _ 0x1f6 0x1f5) by done.
  rewrite (lookup_total_insert_ne _ 0x1f7 0x1f6) by done. rewrite !lookup_total_insert_eq.
  assert (Hh : 0 <= Z.land (Z.shiftr (sector x) 24) 15 < 16).
  { change 15 with (Z.ones 4). rewrite Z.land_ones by done. apply Z.mod_pos_bound. done. }
  destruct (head_bits (dev x) _ Hd Hh) as [-> ->]. unfold key. f_equal. by apply lba_bytes.
Qed.

Lemma ide_start_wp s b : 0 <= b < NBUF -> req_ok (bufs s !!! b) -> disk_ok (dsk s) ->
  wp (ide_start b)
     (fun _ s' => exists d, s' = lset l_dsk d s /\ started d (bufs s !!! b) /\ disk_ok d /\
        bad d = bad (dsk s) /\ store_of d = begin_req (bufs s !!! b) (store_of (dsk s))) s.
Proof.
  intros Hb Hx Hd. assert (Hin : in_array b (NBUF + 1) = true) by (unfold in_array; lia).
  unfold ide_start. wp_step. replace (b =? NULL) with false by (unfold NULL; lia). wp_steps.
  wp_call ide_wait_wp; [done|]. intros r s1 (d1 & -> & Hsame & Hport & _).
  unfold deref, outb, outsl. wp_steps. cbn [bufs].
  set (x := bufs s !!! b) in *. pose proof Hx as (_ & _ & Hf). rewrite dirty_eq, negb_involutive by done.
  destruct Hsame as (Hst & Hbad & [Hp Hdl]). unfold store_of, begin_req in *. injection Hst as Hst Hwr.
  destruct (dirty x) eqn:Ed; wp_steps.
  - change (<[503:=IDE_CMD_WRITE]> _) with (regs x IDE_CMD_WRITE (port d1)).
    cbn [port]. apply Z.eqb_eq. apply lookup_total_insert_eq.
  - change (<[503:=IDE_CMD_WRITE]> _) with (regs x IDE_CMD_WRITE (port d1)).
    set (d2 := Disk (sectors d1) (bad d1) (regs x IDE_CMD_WRITE (port d1)) _ _ _).
    destruct (regs_addressed d2 x IDE_CMD_WRITE (port d1) Hx eq_refl) as [Ea Ec]. rewrite Ea.
    eexists. split; [reflexivity|]. cbn [sectors written bad port]. unfold started. rewrite Ed.
    split; [split; [exact Ea|exact Ec]|]. split; [by split|]. split; [done|]. simpl.
    by rewrite Hst, Hwr.
  - change (<[503:=IDE_CMD_READ]> _) with (regs x IDE_CMD_READ (port d1)).
    eexists. split; [reflexivity|]. unfold started. rewrite Ed.
    split; [by eapply regs_addressed|]. split; [by split|]. split; [done|]. simpl. by rewrite Hst, Hwr.
Qed.

(** ** The queue *)
Fixpoint chain (B : gmap Z buf) (p : Z) (l : list Z) : Prop :=
  match l with
  | [] => p = NULL
  | a :: l => p = a /\ chain B (qnext (B !!! a)) l
  end.

Lemma chain_ext B B' p l : (forall a, a ∈ l -> qnext (B' !!! a) = qnext (B !!! a)) ->
  chain B p l -> chain B' p l.
Proof.
  revert p. induction l as [|a l IH]; intros p Hx; simpl; [done|]. intros [-> Hc].
  split; [done|]. rewrite Hx by set_solver. apply IH; [set_solver|done].
Qed.

(** [l] is the queue and its first request is under way. *)
Record io_inv (c : Z) (s : bio) (l : list Z) : Prop := {
  io_sched : exists cur ready, sched_inv c (th s) cur ready;
  io_disk : disk_ok (dsk s);
  io_chain : chain (bufs s) (idequeue s) l;
  io_nodup : NoDup l;
  io_req : forall b, b ∈ l -> 0 <= b < NBUF /\ req_ok (bufs s !!! b);
  io_started : match l with [] => True | b :: _ => started (dsk s) (bufs s !!! b) end
}.

(** What stays the same. *)
Definition io_frame (s s' : bio) : Prop :=
  havedisk1 s' = havedisk1 s /\ bc_lk s' = bc_lk s /\ bad (dsk s') = bad (dsk s) /\
  lock (ide_lk s') = 0.

Lemma wakeup_th c ks (s : bio) chan : on_cpu c ks -> (exists cur ready, sched_inv c (th s) cur ready) ->
  wp (zoom l_th (thread_wakeup ks chan))
     (fun _ s' => exists t, s' = lset l_th t s /\ exists cur ready, sched_inv c t cur ready) s.
Proof.
  intros Hon (cur & ready & Hs). wp_steps. wp_call thread_wakeup_wp; [done..|].
  intros [] t (T & TQ & _ & _ & Hs'). exists t. split; [done|]. eauto.
Qed.

Definition begin_next (B : gmap Z buf) (l : list Z) (st : store) : store :=
  match l with [] => st | n :: _ => begin_req (B !!! n) st end.

(** The handler up to the wakeup: the first buffer is served. *)
Lemma intr_served s b (k : K bio unit) Q : 0 <= b < NBUF -> req_ok (bufs s !!! b) -> disk_ok (dsk s) ->
  started (dsk s) (bufs s !!! b) ->
  (forall d, same_store (dsk s) d ->
     wp k Q (set_bufs (<[b := served (bad (dsk s)) (bufs s !!! b) (sectors (dsk s))]> (bufs s))
                      (lset l_dsk d s))) ->
  wp ((if Z.land (flags (bufs s !!! b)) B_DIRTY =? 0 then
         r ← ide_wait true;
         if 0 <=? r then d ← zoom l_dsk insl; bupd b (with_data d) else mret tt
       else mret tt) ≫= fun _ =>
      bupd b (fun x => with_flags (Z.lor (flags x) B_VALID) x) ≫= fun _ =>
      bupd b (fun x => with_flags (Z.land (flags x) (Z.lnot B_DIRTY)) x) ≫= fun _ => k) Q s.
Proof.
  intros Hb Hx Hd [Ha Hc] Hk. pose proof Hx as (_ & _ & Hf). rewrite dirty_eq by done.
  unfold served, bupd, served_flags in *. wp_step. revert Hk.
  destruct (dirty (bufs s !!! b)) eqn:Ed; simpl negb; simpl orb; cbv iota; intros Hk.
  - wp_steps. specialize (Hk (dsk s) (same_store_refl _ Hd)). simpl in *.
    rewrite lookup_total_insert_eq, insert_insert_eq. by destruct s.
  - wp_step. wp_call ide_wait_wp; [done|]. intros r s1 (d & -> & Hsame & Hp & ->). rewrite Ha. simpl andb.
    specialize (Hk d Hsame). revert Hk. destruct (bool_decide (key (bufs s !!! b) ∈ bad (dsk s))) eqn:Eb;
      [change (0 <=? -1) with false|change (0 <=? 0) with true]; cbv iota; intros Hk; wp_steps.
    + simpl in *. rewrite lookup_total_insert_eq, insert_insert_eq. by destruct s.
    + unfold insl. wp_steps; [simpl; by rewrite Hp, Hc|].
      simpl in *. rewrite !lookup_total_insert_eq, !insert_insert_eq.
      assert (E : sectors d !!! addressed d = sectors (dsk s) !!! key (bufs s !!! b)).
      { destruct Hsame as (Hst & _). unfold store_of in Hst. injection Hst as -> _.
        rewrite <- Ha. unfold addressed. by rewrite Hp. }
      rewrite E. by destruct s.
Qed.

Lemma served_frame bd x S : qnext (served bd x S) = qnext x /\ key (served bd x S) = key x /\
  flags (served bd x S) = served_flags (flags x) /\
  b_prev (served bd x S) = b_prev x /\ b_next (served bd x S) = b_next x.
Proof. unfold served, key. by destruct (_ || _). Qed.

Lemma key_inj x y : key x = key y -> dev x = dev y /\ sector x = sector y.
Proof. unfold key. by intros [= -> ->]. Qed.

Lemma served_req_ok bd x S : req_ok x -> req_ok (served bd x S).
Proof.
  intros (Hd & Hs & Hf). destruct (served_frame bd x S) as (_ & Hk & Hfl & _).
  apply key_inj in Hk as [Ed Es]. unfold req_ok. rewrite Ed, Es, Hfl.
  split; [done|]. split; [done|]. by apply served_flags_ok.
Qed.

Lemma io_inv_pop c s s' b l x : io_inv c s (b :: l) -> bufs s' = <[b := x]> (bufs s) ->
  qnext x = qnext (bufs s !!! b) -> idequeue s' = qnext (bufs s !!! b) ->
  chain (bufs s') (idequeue s') l /\ NoDup l /\ (b ∉ l) /\
  forall a, a ∈ l -> bufs s' !!! a = bufs s !!! a /\ 0 <= a < NBUF /\ req_ok (bufs s' !!! a).
Proof.
  intros [_ _ [_ Hch] [Hn Hnd]%NoDup_cons Hrq _] EB Eq Ei.
  assert (Hsame : forall a, a ∈ l -> bufs s' !!! a = bufs s !!! a).
  { intros a Ha. rewrite EB. apply lookup_total_insert_ne. set_solver. }
  split; [|split; [done|split; [done|]]].
  - rewrite Ei. eapply chain_ext; [|exact Hch]. intros a Ha. by rewrite Hsame.
  - intros a Ha. rewrite Hsame by done. split; [done|]. apply Hrq. set_solver.
Qed.

Lemma ide_intr_wp c ks s b l : on_cpu c ks -> lock (ide_lk s) = 0 -> io_inv c s (b :: l) ->
  wp (ide_intr ks)
     (fun _ s' => io_inv c s' l /\ io_frame s s' /\
        bufs s' = <[b := served (bad (dsk s)) (bufs s !!! b) (sectors (dsk s))]> (bufs s) /\
        store_of (dsk s') = begin_next (bufs s) l (store_of (dsk s))) s.
Proof.
  intros Hon Hl Hinv. pose proof Hinv as [Hsch Hd [Hq Hch] Hnd Hrq Hst]. pose proof Hon as [Hks _].
  destruct (Hrq b) as [Hb Hx]; [set_solver|].
  assert (Hin : in_array b (NBUF + 1) = true) by (unfold in_array; lia).
  unfold ide_intr. wp_steps. destruct (ide_lk s) as [h v] eqn:El. simpl in Hl. subst v.
  eapply wp_of_eq; [by apply acquire_free|]. wp_step. apply wp_gets. cbn [idequeue lset l_ide_lk]. rewrite Hq.
  replace (b =? NULL) with false by (unfold NULL; lia).
  apply wp_bind. eapply wp_of_eq; [apply deref_eq; lia|]. apply wp_bind, wp_modify. cbn [bufs lset l_ide_lk].
  match goal with |- wp _ _ ?s => set (s1 := s) end.
  apply (intr_served s1 b); [done..|]. intros d Hsame. set (x := served _ _ _).
  destruct (served_frame (bad (dsk s)) (bufs s !!! b) (sectors (dsk s))) as (Eq & _). fold x in Eq.
  wp_step. wp_call wakeup_th; [done|done|]. intros [] s2 (t & -> & Hsch2).
  match goal with |- wp _ _ ?s => set (s2 := s) end.
  destruct (io_inv_pop c s s2 b l x Hinv eq_refl Eq eq_refl) as (Hch2 & Hnd2 & Hbl & Hl2).
  destruct Hsame as (Hs & Hbd & Hdo). apply wp_bind, wp_gets, wp_bind.
  change (idequeue s2) with (qnext (bufs s !!! b)) in *.
  apply (wp_mono _ (fun _ s3 => exists d, s3 = lset l_dsk d s2 /\ disk_ok d /\ bad d = bad (dsk s) /\
    store_of d = begin_next (bufs s) l (store_of (dsk s)) /\
    match l with [] => True | n :: _ => started d (bufs s2 !!! n) end)).
  - destruct l as [|n l].
    + simpl in Hch2. rewrite Hch2. simpl. wp_steps. by exists d.
    + destruct Hch2 as [-> _]. destruct (Hl2 n) as (En & Hn & Hrn); [set_solver|].
      replace (n =? NULL) with false by (unfold NULL; lia). simpl negb. cbv iota.
      wp_call (ide_start_wp s2 n); [done..|]. intros [] s3 (d' & -> & Hst' & Hdo' & Hbd' & Hs').
      exists d'. split; [done|]. split; [done|]. split; [by rewrite Hbd'|]. split; [|done].
      rewrite Hs', En. change (dsk s2) with d. by rewrite Hs.
  - intros [] s3 (d' & -> & Hdo' & Hbd' & Hs' & Hst'). wp_steps.
    eapply (wp_of_eq _ _ _ tt free_lock); [reflexivity|]. split; [|done].
    split; [done|done|done|done| |done]. intros a Ha. by apply Hl2.
Qed.

(** Everything but the queue link. *)
Definition core (x : buf) : Z * Z * Z * Z * Z * mem :=
  (flags x, dev x, sector x, b_prev x, b_next x, data x).

Lemma core_proj x y : core x = core y -> flags x = flags y /\ key x = key y /\ data x = data y /\
  b_prev x = b_prev y /\ b_next x = b_next y.
Proof. unfold core, key. by intros [= -> -> -> -> -> ->]. Qed.

Lemma req_ok_core x y : core x = core y -> req_ok y -> req_ok x.
Proof.
  intros (Ef & Ek & _)%core_proj. apply key_inj in Ek as [Ed Es]. unfold req_ok. by rewrite Ef, Ed, Es.
Qed.
Lemma started_core d x y : core x = core y -> started d y -> started d x.
Proof. intros (Ef & Ek & _)%core_proj. unfold started, dirty. by rewrite Ef, Ek. Qed.
Lemma begin_core x y st : core x = core y -> begin_req x st = begin_req y st.
Proof. intros (Ef & Ek & Ed & _)%core_proj. unfold begin_req, dirty. by rewrite Ef, Ek, Ed. Qed.

Lemma core_qnext (B : gmap Z buf) p q a : core (<[p := with_qnext q (B !!! p)]> B !!! a) = core (B !!! a).
Proof.
  destruct (decide (a = p)) as [->|].
  - by rewrite lookup_total_insert_eq.
  - by rewrite lookup_total_insert_ne.
Qed.

Lemma nodup_bounded (l : list Z) n : NoDup l -> (forall a, a ∈ l -> 0 <= a < n) ->
  Z.of_nat (length l) <= Z.max 0 n.
Proof.
  intros Hnd Hr. assert (Hs : l ⊆+ seqZ 0 n).
  { apply NoDup_submseteq; [done|]. intros a Ha. apply elem_of_seqZ. pose proof (Hr a Ha). lia. }
  apply submseteq_length in Hs. rewrite length_seqZ in Hs. lia.
Qed.

(** Following the links of the queue to its last buffer. *)
Lemma chain_snoc B p l1 a b : chain B p (l1 ++ [a]) -> (b ∉ l1 ++ [a]) -> NoDup (l1 ++ [a]) ->
  qnext (B !!! b) = NULL ->
  chain (<[a := with_qnext b (B !!! a)]> B) p (l1 ++ [a; b]).
Proof.
  intros Hc Hb Hnd Hq. revert p Hc Hb Hnd. induction l1 as [|x l1 IH]; intros p; simpl.
  - intros [-> _] Hb _. rewrite lookup_total_insert_eq. simpl. split; [done|].
    rewrite lookup_total_insert_ne by set_solver. done.
  - intros [-> Hc] Hb [Hx Hnd]%NoDup_cons. split; [done|].
    rewrite lookup_total_insert_ne by set_solver. apply IH; [done|set_solver|done].
Qed.

Lemma append_queue_wp s b l : chain (bufs s) (idequeue s) l -> NoDup l -> b ∉ l ->
  (forall a, a ∈ l -> 0 <= a < NBUF) -> qnext (bufs s !!! b) = NULL -> 0 <= b < NBUF ->
  wp (append_queue b)
     (fun _ s' => exists q B, s' = set_idequeue q (set_bufs B s) /\ chain B q (l ++ [b]) /\
        (forall a, core (B !!! a) = core (bufs s !!! a))) s.
Proof.
  intros Hc Hnd Hb Hr Hq Hbr. unfold append_queue. apply wp_bind, wp_gets.
  destruct l as [|p0 l0].
  { simpl in Hc. rewrite Hc. simpl. wp_steps. exists b, (bufs s). split; [by destruct s|]. done. }
  pose proof Hc as [E0 _]. rewrite E0 in *. destruct (Hr p0) as [Hp0 _]; [set_solver|].
  replace (p0 =? NULL) with false by (unfold NULL; lia).
  apply (wp_while_bound _ (fun n p s' => s' = s /\ exists l1 l2, p0 :: l0 = l1 ++ p :: l2 /\
    chain (bufs s) p (p :: l2) /\ n = Z.of_nat (length l2)) _ (Z.of_nat (length l0))).
  - intros n p s' [-> (l1 & l2 & El & [_ Hc2] & ->)] _.
    destruct (Hr p) as [Hp Hp']; [rewrite El; set_solver|].
    apply wp_bind. eapply wp_of_eq; [apply deref_eq; lia|]. destruct l2 as [|a l2].
    + simpl in Hc2. rewrite Hc2. simpl. unfold bupd. wp_steps.
      exists p0, (<[p := with_qnext b (bufs s !!! p)]> (bufs s)).
      split; [rewrite <- E0; by destruct s|]. split; [|intros; apply core_qnext].
      rewrite El in Hc, Hb, Hnd. pose proof (chain_snoc _ _ _ _ _ Hc Hb Hnd Hq) as Hs.
      replace (l1 ++ [p; b]) with ((p0 :: l0) ++ [b]) in Hs by (by rewrite El, <- app_assoc). exact Hs.
    + destruct Hc2 as [-> Hc2]. destruct (Hr a) as [Ha _]; [rewrite El; set_solver|].
      replace (a =? NULL) with false by (unfold NULL; lia). wp_steps.
      exists (Z.of_nat (length l2)). split; [|simpl; lia]. split; [done|].
      exists (l1 ++ [p]), l2. rewrite <- app_assoc. done.
  - split; [done|]. exists [], l0. done.
  - pose proof (nodup_bounded (p0 :: l0) NBUF Hnd Hr) as Hlen. simpl in Hlen. unfold NBUF in *. lia.
Qed.

(** ** Waiting for a request *)
Definition rw_state (c : Z) (s s' : bio) (b : Z) (st0 : store) (fin rest : list Z) : Prop :=
  io_inv c s' rest /\ (exists st, (bufs s', st) = foldl (do_req (bad (dsk s))) (bufs s, st0) fin /\
    store_of (dsk s') = begin_next (bufs s') rest st) /\
  flags_ok (flags (bufs s' !!! b)) /\
  (valid (bufs s' !!! b) && negb (dirty (bufs s' !!! b)) = bool_decide (rest = [])) /\
  havedisk1 s' = havedisk1 s /\ bc_lk s' = bc_lk s /\ bad (dsk s') = bad (dsk s).

(** One interrupt serves the first request. *)
Lemma sleep_on_disk_wp c ks s s1 b st0 fin a rest : on_cpu c ks ->
  rw_state c s s1 b st0 fin (a :: rest) ->
  (a = b <-> rest = []) ->
  wp (sleep_on_disk ks)
     (fun _ s2 => rw_state c s s2 b st0 (fin ++ [a]) rest /\ ide_lk s2 = held_lock ks) s1.
Proof.
  intros Hon (Hinv & (st & Ef & Hst) & Hfl & Hv & Hh & Hbl & Hbd) Hab. pose proof Hon as [Hks _].
  unfold sleep_on_disk. wp_steps. eapply (wp_of_eq _ _ _ tt free_lock); [reflexivity|].
  wp_step. wp_call (ide_intr_wp c ks _ a rest); [done|done| |].
  { destruct Hinv. by split. }
  intros [] s2 (Hinv2 & (Fh & Fb & Fd & Fl) & EB & Es). cbn [dsk bufs havedisk1 bc_lk] in *.
  wp_steps. destruct (ide_lk s2) as [h v]. simpl in Fl. subst v. eapply wp_of_eq; [by apply acquire_free|].
  split; [|done]. pose proof (io_nodup _ _ _ Hinv) as [Hna Hnd]%NoDup_cons.
  destruct (io_req _ _ _ Hinv a) as [_ Hra]; [set_solver|].
  assert (Hstore : sectors (dsk s1) = (begin_req (bufs s1 !!! a) st).1).
  { simpl in Hst. by rewrite <- Hst. }
  split; [destruct Hinv2; by split|]. split; [|split; [|split; [|simpl; by rewrite Fh, Fb, Fd]]].
  - exists (begin_req (bufs s1 !!! a) st). cbn [bufs dsk]. rewrite foldl_snoc, <- Ef.
    unfold do_req. simpl fst. simpl snd. rewrite EB, Hbd, Hstore. split; [done|].
    rewrite Es. rewrite Hst. destruct rest as [|n rest]; [done|]. simpl.
    rewrite lookup_total_insert_ne by set_solver. done.
  - cbn [bufs]. rewrite EB. destruct (decide (b = a)) as [->|].
    + rewrite lookup_total_insert_eq. destruct (served_frame (bad (dsk s1)) (bufs s1 !!! a)
        (sectors (dsk s1))) as (_ & _ & -> & _). by apply served_flags_ok.
    + by rewrite lookup_total_insert_ne.
  - cbn [bufs]. rewrite EB. destruct (decide (b = a)) as [->|Hne].
    + rewrite lookup_total_insert_eq. unfold valid, dirty. destruct (served_frame (bad (dsk s1))
        (bufs s1 !!! a) (sectors (dsk s1))) as (_ & _ & -> & _).
      destruct (served_flags_ok _ Hfl) as (_ & _ & -> & ->).
      rewrite bool_decide_eq_true_2 by tauto. done.
    + rewrite lookup_total_insert_ne, Hv by done. rewrite !bool_decide_eq_false_2 by (done || naive_solver).
      done.
Qed.

Lemma rw_wait_wp c ks s b l st0 : on_cpu c ks -> io_inv c s (l ++ [b]) -> ide_lk s = held_lock ks ->
  store_of (dsk s) = begin_next (bufs s) (l ++ [b]) st0 ->
  valid (bufs s !!! b) && negb (dirty (bufs s !!! b)) = false ->
  wp (while (fun _ : unit =>
    x ← deref b;
    if negb (Z.land (flags x) (Z.lor B_VALID B_DIRTY) =? B_VALID)
    then sleep_on_disk ks ;; mret (inl tt)
    else mret (inr tt)) tt)
     (fun _ s' => rw_state c s s' b st0 (l ++ [b]) [] /\ ide_lk s' = held_lock ks) s.
Proof.
  intros Hon Hinv Hlk Hst Hv. destruct (io_req _ _ _ Hinv b) as [Hb Hrb]; [set_solver|].
  apply (wp_while_bound _ (fun n _ s' => exists fin rest, l ++ [b] = fin ++ rest /\
    n = Z.of_nat (length rest) /\ rw_state c s s' b st0 fin rest /\ ide_lk s' = held_lock ks)
    _ (Z.of_nat (length (l ++ [b])))).
  - intros n [] s1 (fin & rest & El & -> & Hrw & Hlk1) _. pose proof Hrw as (_ & _ & Hf & Hv1 & _).
    apply wp_bind. eapply wp_of_eq; [apply deref_eq; lia|]. rewrite synced_eq, Hv1 by done.
    destruct rest as [|a rest].
    + rewrite bool_decide_eq_true_2 by done. wp_steps. rewrite app_nil_r in El. by rewrite El.
    + rewrite bool_decide_eq_false_2 by done. simpl negb. cbv iota. wp_step.
      assert (Hlast : (a = b) <-> rest = []).
      { pose proof (io_nodup _ _ _ Hinv) as Hnd. rewrite El in Hnd. apply NoDup_app in Hnd as (_ & _ & Hnd).
        apply NoDup_cons in Hnd as [Hna _]. destruct rest as [|r1 rest _] using rev_ind.
        - apply app_inj_tail in El as [_ ->]. done.
        - rewrite app_comm_cons, app_assoc in El. apply app_inj_tail in El as [_ ->].
          split; [intros ->; set_solver|]. intros E. by apply app_nil in E as [_ ?]. }
      wp_call sleep_on_disk_wp; [done|done|done|]. intros [] s2 [Hrw2 Hlk2]. wp_steps.
      exists (Z.of_nat (length rest)). split; [|simpl; lia]. exists (fin ++ [a]), rest.
      rewrite <- app_assoc. done.
  - exists [], (l ++ [b]). split; [done|]. split; [done|]. split; [|done]. split; [done|].
    split; [by exists st0|]. split; [apply Hrb|]. rewrite Hv. split; [|done].
    rewrite bool_decide_eq_false_2; [done|]. intros E. by apply app_nil in E as [_ ?].
  - pose proof (nodup_bounded (l ++ [b]) NBUF (io_nodup _ _ _ Hinv)
      (fun a Ha => proj1 (io_req _ _ _ Hinv a Ha))) as Hlen. unfold NBUF in *. lia.
Qed.

(** Appending a request and starting it if the disk is idle. *)
Definition enqueued (c : Z) (s s' : bio) (b : Z) (l : list Z) (st0 : store) : Prop :=
  (forall a, core (bufs s' !!! a) = core (bufs s !!! a)) /\
  io_inv c s' (l ++ [b]) /\ store_of (dsk s') = begin_next (bufs s') (l ++ [b]) st0 /\
  ide_lk s' = ide_lk s /\ havedisk1 s' = havedisk1 s /\ bc_lk s' = bc_lk s /\
  bad (dsk s') = bad (dsk s).

Lemma rw_enqueue_wp c s b l st0 (k : K bio unit) Q :
  io_inv c s l -> b ∉ l -> 0 <= b < NBUF -> req_ok (bufs s !!! b) ->
  store_of (dsk s) = begin_next (bufs s) l st0 ->
  (forall s', enqueued c s s' b l st0 -> wp k Q s') ->
  wp (bupd b (with_qnext NULL) ≫= fun _ => append_queue b ≫= fun _ => gets idequeue ≫= fun q =>
      (if q =? b then ide_start b else mret tt) ≫= fun _ => k) Q s.
Proof.
  intros [Hsch Hd Hch Hnd Hrq Hst] Hbl Hb Hx Hs Hk. unfold bupd. wp_steps.
  match goal with |- wp _ _ ?s => set (s1 := s) end.
  wp_call (append_queue_wp s1 b l).
  { eapply chain_ext; [|exact Hch]. intros a Ha. unfold s1. simpl. by rewrite lookup_total_insert_ne by set_solver. }
  { done. } { done. } { intros a Ha. by apply Hrq. }
  { unfold s1. simpl. by rewrite lookup_total_insert_eq. } { done. }
  intros [] s2 (q & B & -> & Hch2 & Hcore).
  assert (Hc : forall a, core (B !!! a) = core (bufs s !!! a)).
  { intros a. rewrite Hcore. unfold s1. simpl. apply core_qnext. }
  apply wp_bind, wp_gets, wp_bind. cbn [idequeue set_idequeue]. set (s2 := set_idequeue q _).
  assert (Hr2 : forall a, a ∈ l ++ [b] -> 0 <= a < NBUF /\ req_ok (B !!! a)).
  { intros a [Ha| ->%list_elem_of_singleton]%elem_of_app.
    - destruct (Hrq a Ha) as [? Hra]. split; [done|]. eapply req_ok_core; [apply Hc|done].
    - split; [done|]. eapply req_ok_core; [apply Hc|done]. }
  assert (Hnd2 : NoDup (l ++ [b])).
  { apply NoDup_app. split; [done|]. split; [set_solver|apply NoDup_singleton]. }
  destruct l as [|n l].
  - destruct Hch2 as [-> Hch2]. rewrite Z.eqb_refl.
    wp_call (ide_start_wp s2 b); [done|apply Hr2; set_solver|done|].
    intros [] s3 (d & -> & Hst' & Hdo & Hbd & Es). apply Hk. split; [done|].
    split; [split; done|]. split; [|done]. simpl in *. by rewrite Es, Hs.
  - pose proof Hch2 as [-> _]. replace (n =? b) with false by (symmetry; apply Z.eqb_neq; set_solver).
    wp_steps. apply Hk. split; [done|]. split; [|split; [|done]].
    + split; try done. simpl. eapply started_core; [apply Hc|done].
    + simpl in *. rewrite Hs. symmetry. by apply begin_core.
Qed.

Lemma ide_rw_wp c ks s b l st0 :
  on_cpu c ks -> lock (ide_lk s) = 0 -> io_inv c s l -> b ∉ l -> 0 <= b < NBUF ->
  req_ok (bufs s !!! b) -> busy (bufs s !!! b) = true ->
  valid (bufs s !!! b) && negb (dirty (bufs s !!! b)) = false ->
  (dev (bufs s !!! b) = 0 \/ havedisk1 s <> 0) -> store_of (dsk s) = begin_next (bufs s) l st0 ->
  wp (ide_rw ks b)
     (fun _ s' => io_inv c s' [] /\ io_frame s s' /\
        exists B, (forall a, core (B !!! a) = core (bufs s !!! a)) /\
          (bufs s', store_of (dsk s')) = foldl (do_req (bad (dsk s))) (B, st0) (l ++ [b])) s.
Proof.
  intros Hon Hl Hinv Hbl Hb Hx Hbusy Hv Hdev Hst. pose proof Hon as [Hks _].
  pose proof Hx as (_ & _ & Hf). unfold ide_rw. apply wp_bind.
  eapply wp_of_eq; [apply deref_eq; lia|]. rewrite busy_eq, Hbusy, synced_eq, Hv by done. simpl negb.
  do 3 wp_step. apply wp_bind, wp_gets. wp_step.
  replace (_ || _) with true by (symmetry; apply orb_true_iff; rewrite negb_true_iff, Z.eqb_eq, Z.eqb_neq; tauto).
  wp_steps. destruct (ide_lk s) as [h v] eqn:El. simpl in Hl. subst v.
  eapply wp_of_eq; [by apply acquire_free|]. cbv beta.
  apply (rw_enqueue_wp c _ b l st0); [destruct Hinv; by split|done..|].
  intros s1 (Hcore & Hinv1 & Hst1 & Hl1 & Hh1 & Hb1 & Hd1). simpl in *. apply wp_bind.
  wp_call (rw_wait_wp c ks s1 b l st0); [done..| |].
  { destruct (core_proj _ _ (Hcore b)) as (Ef & _). unfold valid, dirty. by rewrite Ef. }
  intros [] s2 [(Hinv2 & (st & Efold & Es) & _ & _ & Hh2 & Hbc2 & Hbd2) _]. wp_steps.
  eapply (wp_of_eq _ _ _ tt free_lock); [reflexivity|]. split; [destruct Hinv2; by split|].
  split; [unfold io_frame; simpl; by rewrite Hh2, Hbc2, Hbd2, Hh1, Hb1, Hd1|].
  exists (bufs s1). split; [done|]. simpl in *. by rewrite Es, Efold, Hd1.
Qed.

(** With an idle disk: one request, done when the call returns. *)
Lemma ide_rw_idle c ks s b :
  on_cpu c ks -> lock (ide_lk s) = 0 -> io_inv c s [] -> 0 <= b < NBUF ->
  req_ok (bufs s !!! b) -> busy (bufs s !!! b) = true ->
  valid (bufs s !!! b) && negb (dirty (bufs s !!! b)) = false ->
  (dev (bufs s !!! b) = 0 \/ havedisk1 s <> 0) -> key (bufs s !!! b) ∉ bad (dsk s) ->
  wp (ide_rw ks b)
     (fun _ s' => io_inv c s' [] /\ io_frame s s' /\
        (forall a, a <> b -> core (bufs s' !!! a) = core (bufs s !!! a)) /\
        core (bufs s' !!! b) = core (with_flags (served_flags (flags (bufs s !!! b)))
          (with_data (if dirty (bufs s !!! b) then data (bufs s !!! b)
                      else sectors (dsk s) !!! key (bufs s !!! b)) (bufs s !!! b))) /\
        store_of (dsk s') = begin_req (bufs s !!! b) (store_of (dsk s))) s.
Proof.
  intros Hon Hl Hinv Hb Hx Hbusy Hv Hdev Hbad.
  wp_call (ide_rw_wp c ks s b [] (store_of (dsk s))); [done..|set_solver|done|done|done|done|done|done|].
  intros [] s' (Hinv' & Hfr & B & Hcore & E). simpl in E. unfold do_req in E. simpl in E.
  injection E as EB Es. split; [done|]. split; [done|]. rewrite EB. split; [|split].
  - intros a Ha. rewrite lookup_total_insert_ne by done. apply Hcore.
  - rewrite lookup_total_insert_eq. destruct (core_proj _ _ (Hcore b)) as (Ef & Ek & Ed & Ep & En).
    apply key_inj in Ek as Ek2. destruct Ek2 as [Edv Ese]. unfold served, core.
    rewrite (begin_core _ _ _ (Hcore b)). unfold dirty. rewrite Ef, Ek. fold (dirty (bufs s !!! b)).
    rewrite (bool_decide_eq_false_2 _ Hbad), orb_false_r. unfold begin_req.
    destruct (dirty (bufs s !!! b)); simpl; by rewrite ?Ef, ?Edv, ?Ese, ?Ep, ?En, ?Ed.
  - rewrite Es. by apply begin_core.
Qed.

End spec.

(** ** A concrete instance

    Buffer 3 is being written to sector 7 of drive 1; buffer 5 asks for the
    same sector. *)
#[global] Instance demo_fs_layout : fs_layout := {| bcache_buf := 65536; log_addr := 8; icache_inode := 131072 |}.
Definition demo_block : mem := {[0 := 42]}.
Definition demo_bufs : gmap Z buf :=
  <[5 := Buf B_BUSY 1 7 0 0 0 ∅]> {[3 := Buf (Z.lor B_BUSY B_DIRTY) 1 7 0 0 NULL demo_block]}.
Definition demo_disk : disk :=
  Disk {[(1, 7) := demo_block]} ∅ (regs (demo_bufs !!! 3) IDE_CMD_WRITE ∅) 2 3 [((1, 7), demo_block)].
Definition demo_bio : bio := Bio (demo_sched VmmSpec.demo_vm) free_lock 3 1 demo_disk free_lock demo_bufs.

Lemma demo_io_inv : io_inv 0 demo_bio [3].
Proof.
  split.
  - exists 0, [1; 2]. apply demo_sched_inv.
  - split; unfold W32; simpl; lia.
  - split; reflexivity.
  - apply NoDup_singleton.
  - intros b ->%list_elem_of_singleton. split; [unfold NBUF; lia|]. split; [by right|].
    split; [change (sector (bufs demo_bio !!! 3)) with 7; lia|split; [discriminate|reflexivity]].
  - split; reflexivity.
Qed.

