(* ===== verification/Bufcache.v ===== *)
(** * The buffer cache (kern/fs/bufcache)

    Ten buffers on a circular list through [b_prev] and [b_next], the most
    recently used first.  The operations are run by one thread; where they
    would sleep for a buffer that another thread holds the outcome is
    [Spin]. *)

From stdpp Require Import base gmap list numbers.
From S2P Require Import Prelude Lock Mem Thread Queue Sched Ide IdeSpec.
Import Spinlock.

(** ** The operations *)
Definition HEAD : Z := NBUF.
Definition NODEV : Z := 4294967295.

Section ops.
Context `{fs_layout}.

Definition bufcache_init : K bio unit :=
  zoom l_bc_lk spinlock_init ;;
  bupd HEAD (with_b_prev HEAD) ;;
  bupd HEAD (with_b_next HEAD) ;;
  for_range 0 NBUF (fun b =>
    h ← deref HEAD;
    bupd b (with_b_next (b_next h)) ;;
    bupd b (with_b_prev HEAD) ;;
    bupd b (with_dev NODEV) ;;
    h ← deref HEAD;
    bupd (b_next h) (with_b_prev b) ;;
    bupd HEAD (with_b_next b)).

(** Is the sector already cached? *)
Definition search_body (dev0 sector0 : Z) (b : Z) : K bio (Z + option Z) :=
  if b =? HEAD then mret (inr None)
  else
    x ← deref b;
    if (dev x =? dev0) && (sector x =? sector0) then
      if Z.land (flags x) B_BUSY =? 0 then
        bupd b (fun x => with_flags (Z.lor (flags x) B_BUSY) x) ;;
        zoom l_bc_lk spinlock_release ;;
        mret (inr (Some b))
      else spin
    else mret (inl (b_next x)).

(** Recycle the least recently used buffer that is neither busy nor dirty. *)
Definition recycle_body (dev0 sector0 : Z) (b : Z) : K bio (Z + Z) :=
  if b =? HEAD then panic
  else
    x ← deref b;
    if (Z.land (flags x) B_BUSY =? 0) && (Z.land (flags x) B_DIRTY =? 0) then
      bupd b (with_dev dev0) ;;
      bupd b (with_sector sector0) ;;
      bupd b (with_flags B_BUSY) ;;
      zoom l_bc_lk spinlock_release ;;
      mret (inr b)
    else mret (inl (b_prev x)).

Definition bufcache_get (ks : kstack) (dev0 sector0 : Z) : K bio Z :=
  zoom l_bc_lk (spinlock_acquire ks) ;;
  h ← deref HEAD;
  r ← while (search_body dev0 sector0) (b_next h);
  match r with
  | Some b => mret b
  | None => h ← deref HEAD; while (recycle_body dev0 sector0) (b_prev h)
  end.

Definition bufcache_read (ks : kstack) (dev0 sector0 : Z) : K bio Z :=
  b ← bufcache_get ks dev0 sector0;
  x ← deref b;
  (if Z.land (flags x) B_VALID =? 0 then ide_rw ks b else mret tt) ;;
  mret b.

Definition bufcache_write (ks : kstack) (b : Z) : K bio unit :=
  x ← deref b;
  kern_assert (negb (Z.land (flags x) B_BUSY =? 0)) ;;
  bupd b (fun x => with_flags (Z.lor (flags x) B_DIRTY) x) ;;
  ide_rw ks b.

Definition bufcache_release (ks : kstack) (b : Z) : K bio unit :=
  x ← deref b;
  kern_assert (negb (Z.land (flags x) B_BUSY =? 0)) ;;
  zoom l_bc_lk (spinlock_acquire ks) ;;
  x ← deref b;
  bupd (b_next x) (with_b_prev (b_prev x)) ;;
  x ← deref b;
  bupd (b_prev x) (with_b_next (b_next x)) ;;
  h ← deref HEAD;
  bupd b (with_b_next (b_next h)) ;;
  bupd b (with_b_prev HEAD) ;;
  h ← deref HEAD;
  bupd (b_next h) (with_b_prev b) ;;
  bupd HEAD (with_b_next b) ;;
  bupd b (fun x => with_flags (Z.land (flags x) (Z.lnot B_BUSY)) x) ;;
  zoom l_th (thread_wakeup ks (buf_chan b)) ;;
  zoom l_bc_lk spinlock_release.
End ops.

(** ** Circular lists

    [path f p l q]: following [f] from [p] one meets [l] and then [q]. *)
Fixpoint path (f : Z -> Z) (p : Z) (l : list Z) (q : Z) : Prop :=
  match l with
  | [] => f p = q
  | a :: l => f p = a /\ path f a l q
  end.
Definition fupd (f : Z -> Z) (a v : Z) : Z -> Z := fun x => if decide (x = a) then v else f x.
Fixpoint lastd (p : Z) (l : list Z) : Z := match l with [] => p | a :: l => lastd a l end.

Lemma path_ext f g p l q : (forall a, a = p \/ a ∈ l -> g a = f a) -> path f p l q -> path g p l q.
Proof.
  revert p. induction l as [|a l IH]; simpl; intros p Hx.
  - intros <-. apply Hx. by left.
  - intros [<- Hp]. split; [apply Hx; by left|]. apply IH; [|done].
    intros b [->|Hb]; apply Hx; set_solver.
Qed.

Lemma path_app f p l1 a l2 q : path f p (l1 ++ a :: l2) q <-> path f p l1 a /\ path f a l2 q.
Proof. revert p. induction l1 as [|x l1 IH]; simpl; intros p; [done|]. rewrite IH. tauto. Qed.

Lemma path_join f p l1 l2 q a b : path f p l1 b -> path f a l2 q -> f a = b -> path f p (l1 ++ l2) q.
Proof.
  revert p. induction l1 as [|x l1 IH]; simpl; intros p H1 H2 E.
  - destruct l2 as [|y l2]; simpl in *; [congruence|]. destruct H2 as [E2 H2]. split; [congruence|done].
  - destruct H1 as [<- H1]. split; [done|]. by apply IH.
Qed.

Lemma lastd_elem p l : lastd p l = p \/ lastd p l ∈ l.
Proof. revert p. induction l as [|a l IH]; simpl; intros p; [by left|]. destruct (IH a) as [->|?]; right; set_solver. Qed.

Lemma lastd_app p l1 a l2 : lastd p (l1 ++ a :: l2) = lastd a l2.
Proof. revert p. induction l1; simpl; auto. Qed.

(** Redirecting the last link of a path. *)
Lemma path_last_upd f p l q v : path f p l q -> NoDup (p :: l) -> path (fupd f (lastd p l) v) p l v.
Proof.
  revert p. induction l as [|a l IH]; simpl; intros p H Hnd.
  - unfold fupd. by rewrite decide_True.
  - destruct H as [<- H]. apply NoDup_cons in Hnd as [Hp Hnd]. split; [|by apply IH].
    unfold fupd. rewrite decide_False; [done|]. intros E. apply Hp, elem_of_cons.
    destruct (lastd_elem (f p) l) as [E2|E2]; [left; congruence|right]. by rewrite <- E in E2.
Qed.

(** Taking [b] out of a circle through [h]. *)
Lemma path_remove f h l1 b l2 : path f h (l1 ++ b :: l2) h -> NoDup (h :: l1 ++ b :: l2) ->
  path (fupd f (lastd h l1) (f b)) h (l1 ++ l2) h.
Proof.
  intros [H1 H2]%path_app Hnd.
  assert (Hh : (h ∉ l1) /\ (h <> b) /\ (h ∉ l2) /\ NoDup l1 /\ (b ∉ l1) /\ (forall x, x ∈ l1 -> x ∉ l2)).
  { apply NoDup_cons in Hnd as [Hh (Hn1 & Hx & Hn2)%NoDup_app]. apply NoDup_cons in Hn2 as [? ?].
    set_solver. }
  destruct Hh as (Hh1 & Hhb & Hh2 & Hn1 & Hb1 & Hx).
  apply (path_join _ _ _ _ _ b (f b)).
  - apply path_last_upd with b; [done|]. by apply NoDup_cons.
  - eapply path_ext; [|exact H2]. intros a Ha. unfold fupd. rewrite decide_False; [done|].
    intros ->. apply NoDup_cons in Hnd as [_ (_ & _ & Hn2)%NoDup_app]. apply NoDup_cons in Hn2 as [Hb2 _].
    destruct (lastd_elem h l1) as [E|E]; destruct Ha as [Ha|Ha]; try congruence; set_solver.
  - unfold fupd. rewrite decide_False; [done|]. intros E.
    destruct (lastd_elem h l1); [congruence|set_solver].
Qed.

(** A path starts the same way from any point with the same successor. *)
Lemma path_from f g p p' l q : path f p l q -> g p' = f p -> (forall a, a ∈ l -> g a = f a) ->
  path g p' l q.
Proof.
  intros Hp E Hx. destruct l as [|a l]; simpl in *; [congruence|]. destruct Hp as [<- Hp].
  split; [done|]. eapply path_ext; [|exact Hp]. intros b [->|Hb]; apply Hx; set_solver.
Qed.

(** Putting [b] at the front of a circle, and at its end. *)
Lemma path_push f h b l : path f h l h -> b <> h -> b ∉ l -> h ∉ l ->
  path (fupd (fupd f b (f h)) h b) h (b :: l) h.
Proof.
  intros Hp Hb Hbl Hhl. split; [unfold fupd; by rewrite decide_True|].
  apply (path_from f _ h); [done| |].
  - unfold fupd. by rewrite decide_False, decide_True.
  - intros a Ha. unfold fupd. rewrite !decide_False by set_solver. done.
Qed.

Lemma path_append f h b l : path f h l h -> b <> h -> b ∉ l -> NoDup (h :: l) ->
  path (fupd (fupd f b h) (lastd h l) b) h (l ++ [b]) h.
Proof.
  intros Hp Hb Hbl Hnd.
  assert (Hlb : lastd h l <> b) by (destruct (lastd_elem h l); set_solver).
  apply path_app. split.
  - apply path_last_upd with h; [|done]. eapply path_ext; [|exact Hp].
    intros a Ha. unfold fupd. rewrite decide_False; [done|set_solver].
  - simpl. unfold fupd. by rewrite decide_False, decide_True.
Qed.

(** Walking along a list until a test succeeds. *)
Fixpoint walk (f : Z -> Z) (p : Z) (l : list Z) (q : Z) : Prop :=
  match l with
  | [] => p = q
  | a :: l => p = a /\ walk f (f a) l q
  end.

Lemma path_walk f h l q : path f h l q -> walk f (f h) l q.
Proof. revert h. induction l as [|a l IH]; simpl; intros h; [done|]. intros [<- H]. auto. Qed.

Lemma walk_find {St R} (f : Z -> Z) (body : Z -> K St (Z + R)) (P : Z -> bool) (Q : R -> St -> Prop)
    p l q s :
  walk f p l q -> Z.of_nat (length l) < 2 ^ 32 ->
  (forall a, a ∈ l -> P a = false -> body a s = Ok (inl (f a)) s) ->
  (forall a, a ∈ l -> P a = true -> wp (body a) (fun r s' => exists v, r = inr v /\ Q v s') s) ->
  ((forall a, a ∈ l -> P a = false) -> wp (body q) (fun r s' => exists v, r = inr v /\ Q v s') s) ->
  wp (while body p) Q s.
Proof.
  intros Hw Hlen Hno Hyes Hend.
  apply (wp_while_bound _ (fun n p s' => s' = s /\ exists l1 l2, l = l1 ++ l2 /\ walk f p l2 q /\
    (forall a, a ∈ l1 -> P a = false) /\ n = Z.of_nat (length l2)) _ (Z.of_nat (length l))).
  - intros n p' s' [-> (l1 & l2 & El & Hw2 & H1 & ->)] _. destruct l2 as [|a l2].
    + simpl in Hw2. subst p'. rewrite app_nil_r in El. subst l1.
      eapply wp_mono; [by apply Hend|]. intros [?|v] s' (v' & E & HQ); [done|].
      injection E as ->. done.
    + destruct Hw2 as [-> Hw2]. assert (Ha : a ∈ l) by (rewrite El; set_solver).
      destruct (P a) eqn:EP.
      * eapply wp_mono; [by apply Hyes|]. intros [?|v] s' (v' & E & HQ); [done|]. injection E as ->. done.
      * eapply wp_of_eq; [by apply Hno|]. exists (Z.of_nat (length l2)). split; [|simpl; lia].
        split; [done|]. exists (l1 ++ [a]), l2. rewrite <- app_assoc. split; [done|]. split; [done|].
        split; [|done]. intros b [Hb| ->%list_elem_of_singleton]%elem_of_app; auto.
  - split; [done|]. exists [], l. split; [done|]. split; [done|]. split; [set_solver|done].
  - lia.
Qed.

(** ** The invariant *)
Definition nx (B : gmap Z buf) (a : Z) : Z := b_next (B !!! a).
Definition pv (B : gmap Z buf) (a : Z) : Z := b_prev (B !!! a).

(** The buffers in the order of the list. *)
Record ring (B : gmap Z buf) (l : list Z) : Prop := {
  rg_next : path (nx B) HEAD l HEAD;
  rg_prev : path (pv B) HEAD (rev l) HEAD;
  rg_nodup : NoDup l;
  rg_all : forall b, b ∈ l <-> 0 <= b < NBUF
}.

Definition good_key (s : bio) (k : Z * Z) : Prop :=
  (k.1 = 0 \/ k.1 = 1) /\ (k.1 = 0 \/ havedisk1 s <> 0) /\ 0 <= k.2 < 268435456 /\ k ∉ bad (dsk s).

(** A buffer is unused or holds a block; a block is in at most one buffer;
    a buffer nobody uses that is not dirty agrees with the disk. *)
Record cache_inv (c : Z) (s : bio) (l : list Z) : Prop := {
  ca_io : io_inv c s [];
  ca_ide : lock (ide_lk s) = 0;
  ca_bc : lock (bc_lk s) = 0;
  ca_ring : ring (bufs s) l;
  ca_flags : forall b, 0 <= b < NBUF -> flags_ok (flags (bufs s !!! b));
  ca_used : forall b, 0 <= b < NBUF ->
    (dev (bufs s !!! b) = NODEV /\ flags (bufs s !!! b) = 0) \/
    (good_key s (key (bufs s !!! b)) /\ valid (bufs s !!! b) = true);
  ca_uniq : forall a b, 0 <= a < NBUF -> 0 <= b < NBUF -> valid (bufs s !!! a) = true ->
    key (bufs s !!! a) = key (bufs s !!! b) -> a = b;
  ca_clean : forall b, 0 <= b < NBUF -> valid (bufs s !!! b) = true -> dirty (bufs s !!! b) = false ->
    busy (bufs s !!! b) = false -> data (bufs s !!! b) = sectors (dsk s) !!! key (bufs s !!! b)
}.

(** The buffer with the block of [k], and the contents of [k]. *)
Definition find_buf (B : gmap Z buf) (k : Z * Z) : option Z :=
  list.head (filter (fun b => key (B !!! b) = k) (seqZ 0 NBUF)).
Definition content (s : bio) (k : Z * Z) : mem :=
  match find_buf (bufs s) k with
  | Some b => data (bufs s !!! b)
  | None => sectors (dsk s) !!! k
  end.

Lemma find_buf_None B k : find_buf B k = None <-> forall b, 0 <= b < NBUF -> key (B !!! b) <> k.
Proof.
  unfold find_buf. rewrite head_None. split.
  - intros E b Hb Hk. assert (Hin : b ∈ filter (fun b => key (B !!! b) = k) (seqZ 0 NBUF)).
    { apply list_elem_of_filter. split; [done|]. apply elem_of_seqZ. lia. }
    rewrite E in Hin. set_solver.
  - intros Hno. destruct (filter _ _) as [|b l] eqn:E; [done|].
    assert (Hin : b ∈ filter (fun b => key (B !!! b) = k) (seqZ 0 NBUF)) by (rewrite E; set_solver).
    apply list_elem_of_filter in Hin as [Hk Hb]. apply elem_of_seqZ in Hb.
    destruct (Hno b); [lia|done].
Qed.

Lemma find_buf_Some B k b : find_buf B k = Some b -> 0 <= b < NBUF /\ key (B !!! b) = k.
Proof.
  unfold find_buf. intros Hin%head_Some_elem_of. apply list_elem_of_filter in Hin as [Hk Hb].
  apply elem_of_seqZ in Hb. split; [lia|done].
Qed.

Lemma find_buf_is c s l b : cache_inv c s l -> 0 <= b < NBUF -> valid (bufs s !!! b) = true ->
  find_buf (bufs s) (key (bufs s !!! b)) = Some b.
Proof.
  intros Hinv Hb Hv. destruct (find_buf (bufs s) (key (bufs s !!! b))) as [a|] eqn:E.
  - apply find_buf_Some in E as [Ha Hk]. f_equal. symmetry. by apply (ca_uniq _ _ _ Hinv).
  - rewrite find_buf_None in E. by destruct (E b Hb).
Qed.

Lemma content_cached c s l b : cache_inv c s l -> 0 <= b < NBUF -> valid (bufs s !!! b) = true ->
  content s (key (bufs s !!! b)) = data (bufs s !!! b).
Proof. intros. unfold content. by erewrite find_buf_is. Qed.

Lemma content_uncached s k : (forall b, 0 <= b < NBUF -> key (bufs s !!! b) <> k) ->
  content s k = sectors (dsk s) !!! k.
Proof. intros Hno. unfold content. by rewrite (proj2 (find_buf_None _ _) Hno). Qed.

(** A block nobody uses that is not dirty is the same on the disk. *)
Lemma content_clean c s l k : cache_inv c s l ->
  (forall b, 0 <= b < NBUF -> key (bufs s !!! b) = k -> busy (bufs s !!! b) = false /\
     dirty (bufs s !!! b) = false) ->
  k.1 <> NODEV -> content s k = sectors (dsk s) !!! k.
Proof.
  intros Hinv Hno Hk. unfold content. destruct (find_buf (bufs s) k) as [b|] eqn:E; [|done].
  apply find_buf_Some in E as [Hb Ek]. destruct (Hno b Hb Ek) as [H1 H2].
  destruct (ca_used _ _ _ Hinv b Hb) as [[Hd _]|[_ Hv]].
  - destruct Hk. by rewrite <- Ek.
  - rewrite (ca_clean _ _ _ Hinv b) by done. by rewrite Ek.
Qed.

Lemma good_key_dev s k : good_key s k -> k.1 <> NODEV.
Proof. intros (H & _). unfold NODEV. lia. Qed.

Lemma key_good_valid c s l b : cache_inv c s l -> 0 <= b < NBUF -> good_key s (key (bufs s !!! b)) ->
  valid (bufs s !!! b) = true.
Proof.
  intros Hinv Hb Hg. destruct (ca_used _ _ _ Hinv b Hb) as [[Hd _]|[_ Hv]]; [|done].
  by destruct (good_key_dev _ _ Hg).
Qed.

Definition links_eq (x y : buf) : Prop := b_prev x = b_prev y /\ b_next x = b_next y.

Lemma ring_ext B B' l : (forall a, links_eq (B' !!! a) (B !!! a)) -> ring B l -> ring B' l.
Proof.
  intros E [H1 H2 H3 H4]. split; [| |done|done]; (eapply path_ext; [|eassumption]); intros a _;
    unfold nx, pv; apply E.
Qed.

(** What a buffer holds, apart from its links. *)
Definition pay (x : buf) : Z * (Z * Z) * mem := (flags x, key x, data x).

Lemma pay_core x y : core x = core y -> pay x = pay y.
Proof. intros (Ef & Ek & Ed & _)%core_proj. unfold pay. by rewrite Ef, Ek, Ed. Qed.
Lemma pay_proj x y : pay x = pay y -> flags x = flags y /\ key x = key y /\ data x = data y.
Proof. unfold pay, key. by intros [= -> -> -> ->]. Qed.

(** Changing what one buffer holds. *)
Lemma cache_inv_update c s s' l l' b : cache_inv c s l -> 0 <= b < NBUF -> ring (bufs s') l' ->
  (forall a, a <> b -> pay (bufs s' !!! a) = pay (bufs s !!! a)) ->
  havedisk1 s' = havedisk1 s -> bad (dsk s') = bad (dsk s) ->
  let x := bufs s' !!! b in
  flags_ok (flags x) -> good_key s (key x) -> valid x = true ->
  (forall a, 0 <= a < NBUF -> a <> b -> key (bufs s !!! a) <> key x) ->
  (dirty x = false -> busy x = false -> data x = sectors (dsk s') !!! key x) ->
  (forall k, k <> key x -> sectors (dsk s') !!! k = sectors (dsk s) !!! k) ->
  io_inv c s' [] -> lock (ide_lk s') = 0 -> lock (bc_lk s') = 0 -> cache_inv c s' l'.
Proof.
  intros [Hio Hil Hbl Hr Hf Hu Hun Hcl] Hb Hr' Ho Hd1 Hbad x Hfx Hgx Hvx Hux Hcx Hs Hio' Hil' Hbl'.
  assert (Hoth : forall a, a <> b -> flags (bufs s' !!! a) = flags (bufs s !!! a) /\
    key (bufs s' !!! a) = key (bufs s !!! a) /\ data (bufs s' !!! a) = data (bufs s !!! a)).
  { intros a Ha. by apply pay_proj, Ho. }
  assert (Hg : forall k, good_key s k -> good_key s' k).
  { unfold good_key. by rewrite Hd1, Hbad. }
  split; try done.
  - intros a Ha. destruct (decide (a = b)) as [->|Hne]; [done|]. destruct (Hoth a Hne) as (-> & _). auto.
  - intros a Ha. destruct (decide (a = b)) as [->|Hne]; [right; auto|].
    destruct (Hoth a Hne) as (Ef & Ek & _). unfold valid. rewrite Ef, Ek. apply key_inj in Ek as [-> _].
    destruct (Hu a Ha) as [?|[? ?]]; [by left|right; auto].
  - intros a1 a2 H1 H2. destruct (decide (a1 = b)) as [->|N1]; destruct (decide (a2 = b)) as [->|N2];
      [done| | |].
    + destruct (Hoth a2 N2) as (_ & -> & _). intros _ E. destruct (Hux a2 H2 N2). done.
    + destruct (Hoth a1 N1) as (_ & -> & _). intros _ E. destruct (Hux a1 H1 N1). done.
    + unfold valid. destruct (Hoth a1 N1) as (-> & -> & _). destruct (Hoth a2 N2) as (_ & -> & _).
      by apply Hun.
  - intros a Ha. destruct (decide (a = b)) as [->|Hne]; [by intros; apply Hcx|].
    destruct (Hoth a Hne) as (Ef & Ek & Ed). unfold valid, dirty, busy. rewrite Ef, Ek, Ed.
    intros. rewrite Hs by (by apply Hux). by apply Hcl.
Qed.

(** Only buffer [b] has changed, and not its links. *)
Record changed (s s' : bio) (b : Z) : Prop := {
  cg_others : forall a, a <> b -> core (bufs s' !!! a) = core (bufs s !!! a);
  cg_links : links_eq (bufs s' !!! b) (bufs s !!! b);
  cg_disk1 : havedisk1 s' = havedisk1 s;
  cg_bad : bad (dsk s') = bad (dsk s)
}.

Lemma cache_inv_change c s s' l b : cache_inv c s l -> 0 <= b < NBUF -> changed s s' b ->
  let x := bufs s' !!! b in
  flags_ok (flags x) -> good_key s (key x) -> valid x = true ->
  (forall a, 0 <= a < NBUF -> a <> b -> key (bufs s !!! a) <> key x) ->
  (dirty x = false -> busy x = false -> data x = sectors (dsk s') !!! key x) ->
  (forall k, k <> key x -> sectors (dsk s') !!! k = sectors (dsk s) !!! k) ->
  io_inv c s' [] -> lock (ide_lk s') = 0 -> lock (bc_lk s') = 0 -> cache_inv c s' l.
Proof.
  intros Hinv Hb [Ho Hlk Hd1 Hbad] x. apply (cache_inv_update c s s' l l b); try done.
  - eapply ring_ext; [|apply Hinv]. intros a. destruct (decide (a = b)) as [->|Ha]; [done|].
    destruct (core_proj _ _ (Ho a Ha)) as (_ & _ & _ & ? & ?). by split.
  - intros a Ha. by apply pay_core, Ho.
Qed.

(** ** Getting a buffer *)
Lemma key_eqb x d sc : (dev x =? d) && (sector x =? sc) = bool_decide (key x = (d, sc)).
Proof.
  apply eq_true_iff_eq. rewrite andb_true_iff, bool_decide_eq_true, !Z.eqb_eq. unfold key.
  split; [by intros [-> ->]|by intros [= -> ->]].
Qed.

Lemma ring_length B l : ring B l -> Z.of_nat (length l) <= NBUF.
Proof.
  intros Hr. pose proof (nodup_bounded l NBUF (rg_nodup _ _ Hr)) as H.
  assert (Hb : forall a, a ∈ l -> 0 <= a < NBUF) by (intros; by apply (rg_all _ _ Hr)).
  specialize (H Hb). unfold NBUF in *. lia.
Qed.

Lemma bupd_eq s b f : 0 <= b <= NBUF -> bupd b f s = Ok tt (set_bufs (<[b := f (bufs s !!! b)]> (bufs s)) s).
Proof. intros Hb. unfold bupd, in_array, NBUF in *. krun. zbool. done. Qed.

Lemma bc_acquire_eq ks s : kstack_ok ks -> lock (bc_lk s) = 0 ->
  zoom l_bc_lk (spinlock_acquire ks) s = Ok tt (lset l_bc_lk (held_lock ks) s).
Proof.
  intros Hks Hl. unfold zoom. simpl. destruct (bc_lk s) as [h v]. simpl in Hl. subst v.
  by rewrite acquire_free.
Qed.
Lemma bc_release_eq s : zoom l_bc_lk spinlock_release s = Ok tt (lset l_bc_lk free_lock s).
Proof. reflexivity. Qed.

Section get.
Context `{fs_layout}.

(** Found: the buffer is marked busy. *)
Lemma search_hit s l b d sc : ring (bufs s) l -> (forall a, 0 <= a < NBUF -> flags_ok (flags (bufs s !!! a))) ->
  0 <= b < NBUF -> key (bufs s !!! b) = (d, sc) -> busy (bufs s !!! b) = false ->
  (forall a, 0 <= a < NBUF -> key (bufs s !!! a) = (d, sc) -> a = b) ->
  wp (while (search_body d sc) (nx (bufs s) HEAD))
     (fun r s' => r = Some b /\ s' = lset l_bc_lk free_lock
        (set_bufs (<[b := with_flags (Z.lor (flags (bufs s !!! b)) B_BUSY) (bufs s !!! b)]> (bufs s)) s)) s.
Proof.
  intros Hr Hf Hb Hk Hbusy Hun. pose proof (ring_length _ _ Hr) as Hlen.
  apply (walk_find (nx (bufs s)) _ (fun a => bool_decide (key (bufs s !!! a) = (d, sc))) _ _ l HEAD).
  - apply path_walk, Hr.
  - unfold NBUF in *. lia.
  - intros a Ha Hp. apply (rg_all _ _ Hr) in Ha. unfold search_body. unfold HEAD.
    rewrite (proj2 (Z.eqb_neq a NBUF)) by lia. unfold mbind, K_bind. rewrite deref_eq by lia.
    by rewrite key_eqb, Hp.
  - intros a Ha Hp%bool_decide_eq_true. apply (rg_all _ _ Hr) in Ha. assert (a = b) as -> by auto.
    unfold search_body, HEAD. rewrite (proj2 (Z.eqb_neq b NBUF)) by lia.
    apply wp_bind. eapply wp_of_eq; [apply deref_eq; lia|]. rewrite key_eqb, bool_decide_eq_true_2 by done.
    rewrite busy_eq, Hbusy by auto. simpl negb. cbv iota. apply wp_bind.
    eapply wp_of_eq; [apply bupd_eq; lia|]. apply wp_bind. eapply wp_of_eq; [apply bc_release_eq|].
    apply wp_ret. eauto.
  - intros Hno. destruct (bool_decide_eq_false_1 _ (Hno b (proj2 (rg_all _ _ Hr b) Hb))). done.
Qed.

Lemma search_miss s l d sc : ring (bufs s) l ->
  (forall a, 0 <= a < NBUF -> key (bufs s !!! a) <> (d, sc)) ->
  wp (while (search_body d sc) (nx (bufs s) HEAD)) (fun r s' => r = None /\ s' = s) s.
Proof.
  intros Hr Hno. pose proof (ring_length _ _ Hr) as Hlen.
  apply (walk_find (nx (bufs s)) _ (fun a => false) _ _ l HEAD).
  - apply path_walk, Hr.
  - unfold NBUF in *. lia.
  - intros a Ha _. apply (rg_all _ _ Hr) in Ha. unfold search_body, HEAD.
    rewrite (proj2 (Z.eqb_neq a NBUF)) by lia. unfold mbind, K_bind. rewrite deref_eq by lia.
    by rewrite key_eqb, bool_decide_eq_false_2 by auto.
  - done.
  - intros _. unfold search_body. rewrite Z.eqb_refl. wp_steps. eauto.
Qed.

(** Not found: some buffer that is neither busy nor dirty is taken. *)
Definition idle (x : buf) : bool := negb (busy x) && negb (dirty x).

Lemma recycle_wp s l d sc : ring (bufs s) l -> (forall a, 0 <= a < NBUF -> flags_ok (flags (bufs s !!! a))) ->
  (exists b, 0 <= b < NBUF /\ idle (bufs s !!! b) = true) ->
  wp (while (recycle_body d sc) (pv (bufs s) HEAD))
     (fun b s' => 0 <= b < NBUF /\ idle (bufs s !!! b) = true /\
        s' = lset l_bc_lk free_lock (set_bufs
          (<[b := with_flags B_BUSY (with_sector sc (with_dev d (bufs s !!! b)))]> (bufs s)) s)) s.
Proof.
  intros Hr Hf (b0 & Hb0 & Hi0). pose proof (ring_length _ _ Hr) as Hlen.
  assert (Hin : forall a, a ∈ rev l <-> 0 <= a < NBUF).
  { intros a. rewrite <- (rg_all _ _ Hr a), !list_elem_of_In. symmetry. apply in_rev. }
  apply (walk_find (pv (bufs s)) _ (fun a => idle (bufs s !!! a)) _ _ (rev l) HEAD).
  - apply path_walk, Hr.
  - rewrite length_rev. unfold NBUF in *. lia.
  - intros a Ha%Hin Hp. unfold recycle_body, HEAD. rewrite (proj2 (Z.eqb_neq a NBUF)) by lia.
    unfold mbind, K_bind. rewrite deref_eq by lia. rewrite busy_eq, dirty_eq by auto.
    unfold idle in Hp. by rewrite Hp.
  - intros a Ha%Hin Hp. unfold recycle_body, HEAD. rewrite (proj2 (Z.eqb_neq a NBUF)) by lia.
    apply wp_bind. eapply wp_of_eq; [apply deref_eq; lia|]. rewrite busy_eq, dirty_eq by auto.
    pose proof Hp as Hp'. unfold idle in Hp'. rewrite Hp'. unfold bupd. wp_steps.
    eapply wp_of_eq; [reflexivity|]. wp_steps. exists a. split; [done|]. split; [done|]. split; [done|].
    simpl. rewrite !lookup_total_insert_eq, !insert_insert_eq. done.
  - intros Hno. rewrite (Hno b0 (proj2 (Hin b0) Hb0)) in Hi0. done.
Qed.
End get.

Record read_post (c : Z) (s : bio) (l : list Z) (k : Z * Z) (b : Z) (s' : bio) : Prop := {
  rp_inv : cache_inv c s' l;
  rp_range : 0 <= b < NBUF;
  rp_key : key (bufs s' !!! b) = k;
  rp_busy : busy (bufs s' !!! b) = true;
  rp_valid : valid (bufs s' !!! b) = true;
  rp_data : data (bufs s' !!! b) = content s k;
  rp_clean : dirty (bufs s' !!! b) = false -> content s k = sectors (dsk s) !!! k;
  rp_changed : changed s s' b;
  rp_store : store_of (dsk s') = store_of (dsk s);
  rp_was : (find_buf (bufs s) k = Some b /\ dirty (bufs s' !!! b) = dirty (bufs s !!! b)) \/
           (find_buf (bufs s) k = None /\ idle (bufs s !!! b) = true /\ dirty (bufs s' !!! b) = false)
}.

Lemma set_busy f : flags_ok f -> flags_ok (Z.lor f B_BUSY) /\ Z.testbit (Z.lor f B_BUSY) 0 = true /\
  Z.testbit (Z.lor f B_BUSY) 1 = Z.testbit f 1 /\ Z.testbit (Z.lor f B_BUSY) 2 = Z.testbit f 2.
Proof. intros H. pattern f. apply flag_cases; [done|..]; done. Qed.
Lemma set_dirty f : flags_ok f -> flags_ok (Z.lor f B_DIRTY) /\ Z.testbit (Z.lor f B_DIRTY) 2 = true /\
  Z.testbit (Z.lor f B_DIRTY) 1 = Z.testbit f 1 /\ Z.testbit (Z.lor f B_DIRTY) 0 = Z.testbit f 0.
Proof. intros H. pattern f. apply flag_cases; [done|..]; done. Qed.
Lemma clear_busy f : flags_ok f -> let g := Z.land f (Z.lnot B_BUSY) in
  flags_ok g /\ Z.testbit g 0 = false /\ Z.testbit g 1 = Z.testbit f 1 /\ Z.testbit g 2 = Z.testbit f 2.
Proof. intros H. pattern f. apply flag_cases; [done|..]; done. Qed.

Lemma good_key_eq s s' k : havedisk1 s' = havedisk1 s -> bad (dsk s') = bad (dsk s) ->
  good_key s k -> good_key s' k.
Proof. unfold good_key. by intros -> ->. Qed.

Section spec.
Context `{fs_layout}.

Lemma io_inv_idle c s s' : io_inv c s [] -> th s' = th s -> dsk s' = dsk s -> idequeue s' = idequeue s ->
  io_inv c s' [].
Proof. intros [H1 H2 H3 H4 H5 H6] E1 E2 E3. split; rewrite ?E1, ?E2, ?E3; try done. set_solver. Qed.

Lemma read_hit c ks s l b : on_cpu c ks -> cache_inv c s l -> 0 <= b < NBUF ->
  good_key s (key (bufs s !!! b)) -> busy (bufs s !!! b) = false ->
  wp (bufcache_read ks (dev (bufs s !!! b)) (sector (bufs s !!! b)))
     (read_post c s l (key (bufs s !!! b))) s.
Proof.
  intros [Hks _] Hinv Hb Hg Hbusy. pose proof (key_good_valid _ _ _ _ Hinv Hb Hg) as Hv.
  pose proof (ca_flags _ _ _ Hinv b Hb) as Hf. destruct (set_busy _ Hf) as (Hf' & H0 & H1 & H2).
  unfold bufcache_read, bufcache_get. do 2 apply wp_bind.
  eapply wp_of_eq; [by apply bc_acquire_eq, Hinv|]. apply wp_bind.
  eapply wp_of_eq; [apply deref_eq; unfold HEAD, NBUF; lia|]. apply wp_bind.
  match goal with |- wp _ _ ?s => set (s1 := s) end.
  wp_call (search_hit s1 l b (dev (bufs s !!! b)) (sector (bufs s !!! b))).
  { apply Hinv. } { apply Hinv. } { done. } { done. } { done. }
  { intros a Ha Ek. symmetry. by apply (ca_uniq _ _ _ Hinv). }
  intros r s2 [-> ->]. apply wp_ret. apply wp_bind.
  eapply wp_of_eq; [apply deref_eq; lia|]. cbn [bufs set_bufs lset l_bc_lk].
  change (bufs s1) with (bufs s). rewrite lookup_total_insert_eq, valid_eq by done. unfold valid. cbn [flags with_flags].
  rewrite H1. fold (valid (bufs s !!! b)). rewrite Hv. simpl negb. cbv iota.
  wp_steps. match goal with |- read_post _ _ _ _ _ ?s => set (s2 := s) end.
  assert (Eb : bufs s2 !!! b = with_flags (Z.lor (flags (bufs s !!! b)) B_BUSY) (bufs s !!! b))
    by apply lookup_total_insert_eq.
  assert (Hch : changed s s2 b).
  { split; [|by rewrite Eb|done|done]. intros a Ha. unfold s2. simpl. by rewrite lookup_total_insert_ne. }
  split; rewrite ?Eb; try done.
  - apply (cache_inv_change c s s2 l b Hinv Hb Hch); rewrite ?Eb; try done.
    + unfold valid. cbn [flags with_flags]. by rewrite H1.
    + intros a Ha Hne E. destruct Hne. symmetry. apply (ca_uniq _ _ _ Hinv); try done.
    + unfold busy. cbn [flags with_flags]. by rewrite H0.
    + eapply io_inv_idle; [apply Hinv|done..].
    + apply Hinv.
  - unfold valid. cbn [flags with_flags]. by rewrite H1.
  - simpl. symmetry. by eapply content_cached.
  - unfold dirty. cbn [flags with_flags]. rewrite H2. fold (dirty (bufs s !!! b)). intros Hd.
    rewrite (content_cached _ _ _ _ Hinv Hb Hv). by apply (ca_clean _ _ _ Hinv).
  - left. split; [by eapply find_buf_is|]. unfold dirty. cbn [flags with_flags]. by rewrite H2.
Qed.

(** A block that is not cached is read into a recycled buffer. *)
Lemma get_miss_wp c ks s l k : on_cpu c ks -> cache_inv c s l -> find_buf (bufs s) k = None ->
  (exists b, 0 <= b < NBUF /\ idle (bufs s !!! b) = true) ->
  wp (bufcache_get ks k.1 k.2)
     (fun b s' => 0 <= b < NBUF /\ idle (bufs s !!! b) = true /\
        s' = lset l_bc_lk free_lock (set_bufs
          (<[b := with_flags B_BUSY (with_sector k.2 (with_dev k.1 (bufs s !!! b)))]> (bufs s)) s)) s.
Proof.
  intros [Hks _] Hinv Hno Hidle. rewrite find_buf_None in Hno. unfold bufcache_get. apply wp_bind.
  eapply wp_of_eq; [by apply bc_acquire_eq, Hinv|]. apply wp_bind.
  eapply wp_of_eq; [apply deref_eq; unfold HEAD, NBUF; lia|]. apply wp_bind.
  match goal with |- wp _ _ ?s => set (s1 := s) end.
  wp_call (search_miss s1 l k.1 k.2); [apply Hinv|by destruct k; apply Hno|].
  intros r s2 [-> ->]. apply wp_bind.
  eapply wp_of_eq; [apply deref_eq; unfold HEAD, NBUF; lia|].
  wp_call (recycle_wp s1 l k.1 k.2); [apply Hinv|apply Hinv|done|]. done.
Qed.

Lemma read_miss c ks s l k : on_cpu c ks -> cache_inv c s l -> good_key s k ->
  find_buf (bufs s) k = None -> (exists b, 0 <= b < NBUF /\ idle (bufs s !!! b) = true) ->
  wp (bufcache_read ks k.1 k.2) (read_post c s l k) s.
Proof.
  intros Hon Hinv Hg Hno Hidle. pose proof Hg as (Hd & Hd1 & Hsec & Hbad). unfold bufcache_read. apply wp_bind.
  wp_call get_miss_wp; [done..|]. intros b s1 (Hb & Hib & ->).
  set (x := with_flags B_BUSY _). apply wp_bind. eapply wp_of_eq; [apply deref_eq; lia|].
  match goal with |- wp _ _ ?s => set (s1 := s) end.
  assert (Ex : bufs s1 !!! b = x) by apply lookup_total_insert_eq. rewrite Ex.
  assert (Ek : key x = k) by by destruct k. change (Z.land (flags x) B_VALID =? 0) with true. cbv iota. apply wp_bind.
  wp_call (ide_rw_idle c ks s1 b); rewrite ?Ex, ?Ek; try done.
  { apply Hinv. } { eapply io_inv_idle; [apply Hinv|done..]. }
  intros [] s2 (Hio & (F1 & F2 & F3 & F4) & Ho & Hcb & Hst). wp_steps. 
  assert (Hch : changed s s2 b).
  { split; [|..|done|done].
    - intros a Ha. rewrite Ho by done. unfold s1. simpl. by rewrite lookup_total_insert_ne.
    - destruct (core_proj _ _ Hcb) as (_ & _ & _ & ? & ?). by split. }
  destruct (core_proj _ _ Hcb) as (Ef & Ekb & Ed & _). change (flags (bufs s2 !!! b) = 3) in Ef.
  change (key (bufs s2 !!! b) = key x) in Ekb. rewrite Ek in Ekb.
  change (data (bufs s2 !!! b) = sectors (dsk s) !!! k) in Ed.
  change (store_of (dsk s2) = store_of (dsk s)) in Hst.
  pose proof (proj1 (find_buf_None _ _) Hno) as Hno'. unfold store_of in Hst. injection Hst as Hs Hw.
  split; try done; unfold busy, valid, dirty; rewrite ?Ef; try done.
  - apply (cache_inv_change c s s2 l b Hinv Hb Hch); unfold flags_ok, busy, valid, dirty;
      rewrite ?Ekb, ?Ef, ?Hs; try done.
    + intros a Ha _. by apply Hno'.
    + rewrite F2. done.
  - rewrite Ed. by rewrite content_uncached.
  - intros _. by rewrite content_uncached.
  - unfold store_of. by rewrite Hs, Hw.
  - right. done.
Qed.

Lemma bufcache_read_wp c ks s l k : on_cpu c ks -> cache_inv c s l -> good_key s k ->
  (forall b, 0 <= b < NBUF -> key (bufs s !!! b) = k -> busy (bufs s !!! b) = false) ->
  (find_buf (bufs s) k = None -> exists b, 0 <= b < NBUF /\ idle (bufs s !!! b) = true) ->
  wp (bufcache_read ks k.1 k.2) (read_post c s l k) s.
Proof.
  intros Hon Hinv Hg Hnb Hidle. destruct (find_buf (bufs s) k) as [b|] eqn:E.
  - apply find_buf_Some in E as [Hb Hk]. pose proof (read_hit c ks s l b Hon Hinv Hb) as Hh.
    rewrite Hk in Hh. specialize (Hh Hg (Hnb b Hb Hk)). apply (f_equal fst) in Hk as Hk1.
    apply (f_equal snd) in Hk as Hk2. simpl in Hk1, Hk2. by rewrite Hk1, Hk2 in Hh.
  - apply read_miss; auto.
Qed.

(** Reading changes the contents of no block. *)
Lemma read_content c s l k b s' k' : cache_inv c s l -> read_post c s l k b s' ->
  (k.1 <> NODEV) -> (k'.1 <> NODEV) -> content s' k' = content s k'.
Proof.
  intros Hinv [Hinv' Hb Hk Hbu Hv Hd Hcl [Ho _ _ _] Hst Hwas] Hk0 Hk1.
  unfold store_of in Hst. injection Hst as Hs _.
  assert (Hoth : forall a, a <> b -> key (bufs s' !!! a) = key (bufs s !!! a) /\
    data (bufs s' !!! a) = data (bufs s !!! a)).
  { intros a Ha. destruct (core_proj _ _ (Ho a Ha)) as (_ & ? & ? & _). done. }
  destruct (decide (k' = k)) as [->|Hne].
  { rewrite <- Hk. rewrite (content_cached _ _ _ _ Hinv' Hb Hv). by rewrite Hd, Hk. }
  destruct (find_buf (bufs s') k') as [a|] eqn:E.
  - pose proof E as [Ha Ek]%find_buf_Some. assert (a <> b) by congruence.
    destruct (Hoth a) as [Eka Eda]; [done|].
    assert (Hva : valid (bufs s !!! a) = true).
    { destruct (ca_used _ _ _ Hinv a Ha) as [[Hdv _]|[_ ?]]; [|done].
      destruct Hk1. rewrite <- Ek, Eka. done. }
    unfold content at 1. rewrite E, Eda. rewrite <- Ek, Eka. symmetry. by eapply content_cached.
  - rewrite find_buf_None in E. rewrite content_uncached by done. rewrite Hs. symmetry.
    apply (content_clean _ _ _ _ Hinv); [|done]. intros a Ha Ek. destruct (decide (a = b)) as [->|Hab].
    + destruct Hwas as [[Hf _]|(_ & Hi & _)].
      * apply find_buf_Some in Hf as [_ Hf]. congruence.
      * unfold idle in Hi. apply andb_true_iff in Hi as [?%negb_true_iff ?%negb_true_iff]. done.
    + destruct (E a Ha). destruct (Hoth a Hab) as [-> _]. done.
Qed.

(** ** Writing a block to the disk *)
Record write_post (c : Z) (s : bio) (l : list Z) (b : Z) (s' : bio) : Prop := {
  wr_inv : cache_inv c s' l;
  wr_changed : changed s s' b;
  wr_key : key (bufs s' !!! b) = key (bufs s !!! b);
  wr_data : data (bufs s' !!! b) = data (bufs s !!! b);
  wr_busy : busy (bufs s' !!! b) = true;
  wr_valid : valid (bufs s' !!! b) = true;
  wr_dirty : dirty (bufs s' !!! b) = false;
  wr_store : store_of (dsk s') =
    (<[key (bufs s !!! b) := data (bufs s !!! b)]> (sectors (dsk s)),
     written (dsk s) ++ [(key (bufs s !!! b), data (bufs s !!! b))])
}.

Lemma bufcache_write_wp c ks s l b : on_cpu c ks -> cache_inv c s l -> 0 <= b < NBUF ->
  busy (bufs s !!! b) = true -> valid (bufs s !!! b) = true ->
  wp (bufcache_write ks b) (fun _ => write_post c s l b) s.
Proof.
  intros Hon Hinv Hb Hbu Hv. pose proof (ca_flags _ _ _ Hinv b Hb) as Hf.
  destruct (set_dirty _ Hf) as (Hf' & D2 & D1 & D0). unfold bufcache_write. apply wp_bind.
  eapply wp_of_eq; [apply deref_eq; lia|]. rewrite busy_eq, Hbu by done. wp_step. wp_step.
  apply wp_bind. eapply wp_of_eq; [apply bupd_eq; lia|].
  destruct (ca_used _ _ _ Hinv b Hb) as [[_ Hz]|[Hg _]]; [unfold busy in Hbu; by rewrite Hz in Hbu|].
  pose proof Hg as (Hd & Hd1 & Hsec & Hbad). set (x := with_flags _ _).
  match goal with |- wp _ _ ?s => set (s1 := s) end.
  assert (Ex : bufs s1 !!! b = x) by apply lookup_total_insert_eq.
  assert (Edx : dirty x = true) by exact D2.
  wp_call (ide_rw_idle c ks s1 b); rewrite ?Ex; try done.
  { apply Hinv. } { eapply io_inv_idle; [apply Hinv|done..]. } { unfold busy, x. cbn [flags with_flags]. by rewrite D0. }
  { rewrite Edx. apply andb_false_r. }
  intros [] s2 (Hio & (F1 & F2 & F3 & F4) & Ho & Hcb & Hst). rewrite Edx in Hcb. unfold begin_req in Hst.
  rewrite Edx in Hst. destruct (core_proj _ _ Hcb) as (Ef & Ek & Ed & Ep & En).
  destruct (served_flags_ok _ Hf') as (Hf2 & S0 & S1 & S2).
  change (flags (bufs s2 !!! b) = served_flags (Z.lor (flags (bufs s !!! b)) B_DIRTY)) in Ef.
  assert (Hch : changed s s2 b).
  { split; [|by split|done|done]. intros a Ha. rewrite Ho by done. unfold s1. simpl.
    by rewrite lookup_total_insert_ne. }
  unfold store_of in Hst. injection Hst as Hs Hw.
  split; unfold busy, valid, dirty; rewrite ?Ef, ?S0, ?S1, ?S2, ?D0; try done.
  - apply (cache_inv_change c s s2 l b Hinv Hb Hch); unfold busy, valid, dirty;
      rewrite ?Ek, ?Ef, ?S0, ?S1, ?S2, ?D0, ?D1, ?Ed, ?Hs; try done.
    + intros a Ha Hne E. destruct Hne. symmetry. by apply (ca_uniq _ _ _ Hinv).
    + intros _ _. by rewrite lookup_total_insert_eq.
    + intros k Hk. by rewrite lookup_total_insert_ne.
    + rewrite F2. apply Hinv.
  - unfold store_of. by rewrite Hs, Hw.
Qed.
End spec.

(** ** Releasing a buffer: it moves to the front of the list *)
Lemma path_first f p l q : path f p (rev l) q -> f p = lastd q l.
Proof.
  revert q. induction l as [|a l IH]; intros q; simpl; [done|].
  intros [H _]%path_app. by apply IH.
Qed.

Lemma nx_next B a v x : nx (<[a := with_b_next v (B !!! a)]> B) x = fupd (nx B) a v x.
Proof.
  unfold nx, fupd. case_decide; [subst; by rewrite lookup_total_insert_eq|by rewrite lookup_total_insert_ne].
Qed.
Lemma nx_prev B a v x : nx (<[a := with_b_prev v (B !!! a)]> B) x = nx B x.
Proof.
  unfold nx. destruct (decide (x = a)); [subst; by rewrite lookup_total_insert_eq|by rewrite lookup_total_insert_ne].
Qed.
Lemma pv_prev B a v x : pv (<[a := with_b_prev v (B !!! a)]> B) x = fupd (pv B) a v x.
Proof.
  unfold pv, fupd. case_decide; [subst; by rewrite lookup_total_insert_eq|by rewrite lookup_total_insert_ne].
Qed.
Lemma pv_next B a v x : pv (<[a := with_b_next v (B !!! a)]> B) x = pv B x.
Proof.
  unfold pv. destruct (decide (x = a)); [subst; by rewrite lookup_total_insert_eq|by rewrite lookup_total_insert_ne].
Qed.

Lemma rev_mid (l1 l2 : list Z) b : rev (l1 ++ b :: l2) = rev l2 ++ b :: rev l1.
Proof. rewrite rev_app_distr. simpl. by rewrite <- app_assoc. Qed.

Lemma nodup_rev_mid (h b : Z) l1 l2 : NoDup (h :: l1 ++ b :: l2) -> NoDup (h :: rev l2 ++ b :: rev l1).
Proof. intros Hnd. rewrite <- rev_mid. by rewrite <- (Permutation_rev (l1 ++ b :: l2)). Qed.

Lemma ring_links B l1 b l2 : ring B (l1 ++ b :: l2) ->
  pv B b = lastd HEAD l1 /\ nx B b = lastd HEAD (rev l2).
Proof.
  intros [Hn Hp _ _]. rewrite rev_mid in Hp. split.
  - apply path_app in Hp as [_ Hp]. by apply path_first in Hp.
  - apply path_app in Hn as [_ Hn]. apply (path_first (nx B)). by rewrite rev_involutive.
Qed.

Lemma ring_front B B' l1 b l2 : ring B (l1 ++ b :: l2) ->
  let f1 := fupd (nx B) (pv B b) (nx B b) in
  (forall x, nx B' x = fupd (fupd f1 b (f1 HEAD)) HEAD b x) ->
  (forall x, pv B' x = fupd (fupd (fupd (pv B) (nx B b) (pv B b)) b HEAD) (f1 HEAD) b x) ->
  ring B' (b :: l1 ++ l2).
Proof.
  intros Hr f1 EN EP. destruct (ring_links _ _ _ _ Hr) as [Ep En]. destruct Hr as [Hn Hp Hnd Hall].
  rewrite rev_mid in Hp.
  assert (Hb : 0 <= b < NBUF) by (apply Hall; set_solver).
  assert (HH : HEAD ∉ l1 ++ b :: l2) by (rewrite Hall; unfold HEAD; lia).
  assert (Hnd' : NoDup (HEAD :: l1 ++ b :: l2)) by by apply NoDup_cons.
  assert (Hnd2 : NoDup (b :: l1 ++ l2)) by by rewrite Permutation_middle.
  pose proof Hnd2 as [Hbl Hnd3]%NoDup_cons. assert (HbH : b <> HEAD) by (unfold HEAD; lia).
  pose proof (path_remove _ _ _ _ _ Hn Hnd') as H1. rewrite <- Ep in H1. fold f1 in H1.
  pose proof (path_remove _ _ _ _ _ Hp (nodup_rev_mid _ _ _ _ Hnd')) as H2.
  rewrite <- En, <- rev_app_distr in H2.
  assert (Ef : f1 HEAD = lastd HEAD (rev (l1 ++ l2))).
  { apply (path_first f1). by rewrite rev_involutive. }
  assert (HHl : HEAD ∉ l1 ++ l2) by set_solver.
  split.
  - eapply path_ext; [|apply path_push; [exact H1|done|done|done]]. auto.
  - simpl. eapply path_ext; [|apply (path_append (fupd (pv B) (nx B b) (pv B b)) HEAD b); [exact H2|done| |]].
    + intros a _. by rewrite EP, Ef.
    + by rewrite <- (Permutation_rev (l1 ++ l2)).
    + rewrite <- (Permutation_rev (l1 ++ l2)). by apply NoDup_cons.
  - done.
  - intros a. rewrite <- Hall. by rewrite Permutation_middle.
Qed.

Lemma pay_next (B : gmap Z buf) a v x : pay (<[a := with_b_next v (B !!! a)]> B !!! x) = pay (B !!! x).
Proof.
  destruct (decide (x = a)); [subst; by rewrite lookup_total_insert_eq|by rewrite lookup_total_insert_ne].
Qed.
Lemma pay_prev (B : gmap Z buf) a v x : pay (<[a := with_b_prev v (B !!! a)]> B !!! x) = pay (B !!! x).
Proof.
  destruct (decide (x = a)); [subst; by rewrite lookup_total_insert_eq|by rewrite lookup_total_insert_ne].
Qed.

Definition unlink (B : gmap Z buf) (b : Z) : gmap Z buf :=
  let B1 := <[nx B b := with_b_prev (pv B b) (B !!! nx B b)]> B in
  <[pv B b := with_b_next (nx B b) (B1 !!! pv B b)]> B1.
Definition link_front (B : gmap Z buf) (b : Z) : gmap Z buf :=
  let B3 := <[b := with_b_next (nx B HEAD) (B !!! b)]> B in
  let B4 := <[b := with_b_prev HEAD (B3 !!! b)]> B3 in
  let B5 := <[nx B HEAD := with_b_prev b (B4 !!! nx B HEAD)]> B4 in
  <[HEAD := with_b_next b (B5 !!! HEAD)]> B5.

Lemma fupd_ext f g a v x : f x = g x -> fupd f a v x = fupd g a v x.
Proof. unfold fupd. by intros ->. Qed.

Lemma nx_unlink B b x : nx (unlink B b) x = fupd (nx B) (pv B b) (nx B b) x.
Proof. unfold unlink. cbv zeta. rewrite nx_next. apply fupd_ext, nx_prev. Qed.
Lemma pv_unlink B b x : pv (unlink B b) x = fupd (pv B) (nx B b) (pv B b) x.
Proof. unfold unlink. cbv zeta. by rewrite pv_next, pv_prev. Qed.
Lemma nx_link B b x : nx (link_front B b) x = fupd (fupd (nx B) b (nx B HEAD)) HEAD b x.
Proof. unfold link_front. cbv zeta. rewrite nx_next. apply fupd_ext. by rewrite !nx_prev, nx_next. Qed.
Lemma pv_link B b x : pv (link_front B b) x = fupd (fupd (pv B) b HEAD) (nx B HEAD) b x.
Proof.
  unfold link_front. cbv zeta. rewrite pv_next, pv_prev. apply fupd_ext. rewrite pv_prev.
  apply fupd_ext, pv_next.
Qed.

Lemma relink_ring B l1 b l2 : ring B (l1 ++ b :: l2) ->
  ring (link_front (unlink B b) b) (b :: l1 ++ l2) /\
  forall x, pay (link_front (unlink B b) b !!! x) = pay (B !!! x).
Proof.
  intros Hr. split; [apply (ring_front B _ l1 b l2 Hr)|]; intros x.
  - rewrite nx_link. rewrite nx_unlink. by do 2 apply fupd_ext; rewrite nx_unlink.
  - rewrite pv_link, nx_unlink. do 2 apply fupd_ext. apply pv_unlink.
  - unfold link_front, unlink. cbv zeta. by rewrite pay_next, !pay_prev, !pay_next, pay_prev.
Qed.

(** The links of a buffer are buffers or the head, and not itself. *)
Lemma link_range B l b : ring B l -> 0 <= b < NBUF ->
  0 <= nx B b <= NBUF /\ 0 <= pv B b <= NBUF /\ nx B b <> b /\ pv B b <> b.
Proof.
  intros Hr Hb. apply (rg_all _ _ Hr) in Hb as Hin. apply list_elem_of_split in Hin as (l1 & l2 & ->).
  destruct (ring_links _ _ _ _ Hr) as [-> ->]. destruct Hr as [_ _ Hnd Hall].
  apply NoDup_app in Hnd as (Hnd1 & Hx & Hnd2). apply NoDup_cons in Hnd2 as [Hb2 _].
  assert (Hl : lastd HEAD l1 = HEAD \/ lastd HEAD l1 ∈ l1) by apply lastd_elem.
  assert (Hr2 : lastd HEAD (rev l2) = HEAD \/ lastd HEAD (rev l2) ∈ l2).
  { destruct (lastd_elem HEAD (rev l2)) as [?|Hin]; [by left|right].
    rewrite list_elem_of_In in *. by apply in_rev. }
  assert (A1 : forall a, a ∈ l1 -> 0 <= a < NBUF /\ a <> b).
  { intros a Ha. split; [apply Hall; set_solver|]. intros ->. specialize (Hx _ Ha). set_solver. }
  assert (A2 : forall a, a ∈ l2 -> 0 <= a < NBUF /\ a <> b).
  { intros a Ha. split; [apply Hall; set_solver|]. by intros ->. }
  unfold HEAD, NBUF in *. destruct Hl as [->|Hl], Hr2 as [->|Hr2];
    try (specialize (A1 _ Hl)); try (specialize (A2 _ Hr2)); lia.
Qed.

Lemma unlink_head B l b : ring B l -> 0 <= b < NBUF ->
  0 <= nx (unlink B b) HEAD <= NBUF /\ nx (unlink B b) HEAD <> b.
Proof.
  intros Hr Hb. destruct (link_range _ _ _ Hr Hb) as (Hn & _ & Hnb & _). rewrite nx_unlink.
  apply (rg_all _ _ Hr) in Hb as Hin. apply list_elem_of_split in Hin as (l1 & l2 & ->).
  destruct (ring_links _ _ _ _ Hr) as [Ep _]. destruct Hr as [[Hp _]%path_app _ Hnd Hall].
  unfold fupd. case_decide as E; [done|]. rewrite Ep in E. destruct l1 as [|a l1]; [done|].
  simpl in Hp. destruct Hp as [-> _]. apply NoDup_app in Hnd as (_ & Hx & _).
  assert (Ha : 0 <= a < NBUF) by (apply Hall; set_solver). split; [lia|]. intros ->.
  specialize (Hx b). set_solver.
Qed.

Definition unbusy (x : buf) : buf := with_flags (Z.land (flags x) (Z.lnot B_BUSY)) x.

Record release_post (c : Z) (s : bio) (l : list Z) (b : Z) (s' : bio) : Prop := {
  rl_inv : exists l1 l2, l = l1 ++ b :: l2 /\ cache_inv c s' (b :: l1 ++ l2);
  rl_others : forall a, a <> b -> pay (bufs s' !!! a) = pay (bufs s !!! a);
  rl_buf : pay (bufs s' !!! b) = pay (unbusy (bufs s !!! b));
  rl_disk : dsk s' = dsk s;
  rl_disk1 : havedisk1 s' = havedisk1 s
}.

Section release.
Context `{fs_layout}.

(** The surgery on the links, as a program. *)
Lemma relink_wp s l b (k : K bio unit) Q : ring (bufs s) l -> 0 <= b < NBUF ->
  wp k Q (set_bufs (link_front (unlink (bufs s) b) b) s) ->
  wp (deref b ≫= fun x => bupd (b_next x) (with_b_prev (b_prev x)) ≫= fun _ =>
      deref b ≫= fun x => bupd (b_prev x) (with_b_next (b_next x)) ≫= fun _ =>
      deref HEAD ≫= fun h => bupd b (with_b_next (b_next h)) ≫= fun _ =>
      bupd b (with_b_prev HEAD) ≫= fun _ =>
      deref HEAD ≫= fun h => bupd (b_next h) (with_b_prev b) ≫= fun _ =>
      bupd HEAD (with_b_next b) ≫= fun _ => k) Q s.
Proof.
  intros Hr Hb Hk. destruct (link_range _ _ _ Hr Hb) as (Hn & Hp & Hnb & Hpb).
  assert (HH : 0 <= HEAD <= NBUF) by (unfold HEAD, NBUF; lia).
  assert (HbH : b <> HEAD) by (unfold HEAD; lia).
  apply wp_bind. eapply wp_of_eq; [apply deref_eq; lia|].
  fold (nx (bufs s) b) (pv (bufs s) b).
  apply wp_bind. eapply wp_of_eq; [by apply bupd_eq|]. 
  apply wp_bind. eapply wp_of_eq; [apply deref_eq; lia|]. cbn [bufs set_bufs].
  rewrite (lookup_total_insert_ne _ (nx (bufs s) b) b) by done. fold (nx (bufs s) b) (pv (bufs s) b).
  apply wp_bind. eapply wp_of_eq; [by apply bupd_eq|]. cbn [bufs set_bufs]. fold (unlink (bufs s) b).
  set (U := unlink (bufs s) b) in *.
  assert (HU : 0 <= nx U HEAD <= NBUF /\ nx U HEAD <> b).
  { by eapply unlink_head. }
  apply wp_bind. eapply wp_of_eq; [by apply deref_eq|]. cbn [bufs set_bufs]. fold (nx U HEAD).
  apply wp_bind. eapply wp_of_eq; [apply bupd_eq; lia|]. cbn [bufs set_bufs].
  apply wp_bind. eapply wp_of_eq; [apply bupd_eq; lia|]. cbn [bufs set_bufs].
  apply wp_bind. eapply wp_of_eq; [by apply deref_eq|]. cbn [bufs set_bufs].
  rewrite !(lookup_total_insert_ne _ b HEAD) by done. fold (nx U HEAD).
  apply wp_bind. eapply wp_of_eq; [apply bupd_eq; apply HU|]. cbn [bufs set_bufs].
  apply wp_bind. eapply wp_of_eq; [by apply bupd_eq|]. cbn [bufs set_bufs].
  exact Hk.
Qed.

Lemma bufcache_release_wp c ks s l b : on_cpu c ks -> cache_inv c s l -> 0 <= b < NBUF ->
  busy (bufs s !!! b) = true ->
  (dirty (bufs s !!! b) = false -> data (bufs s !!! b) = sectors (dsk s) !!! key (bufs s !!! b)) ->
  wp (bufcache_release ks b) (fun _ => release_post c s l b) s.
Proof.
  intros Hon Hinv Hb Hbu Hcl. pose proof Hon as [Hks _]. pose proof (ca_flags _ _ _ Hinv b Hb) as Hf.
  destruct (clear_busy _ Hf) as (Hf' & C0 & C1 & C2).
  destruct (ca_used _ _ _ Hinv b Hb) as [[_ Hz]|[Hg Hv]]; [unfold busy in Hbu; by rewrite Hz in Hbu|].
  unfold bufcache_release. apply wp_bind. eapply wp_of_eq; [apply deref_eq; lia|].
  rewrite busy_eq, Hbu by done. wp_step. wp_step. apply wp_bind.
  eapply wp_of_eq; [by apply bc_acquire_eq, Hinv|].
  eapply relink_wp; [apply Hinv|done|]. cbn [bufs lset l_bc_lk].
  pose proof (ca_ring _ _ _ Hinv) as Hr. apply (rg_all _ _ Hr) in Hb as Hin.
  apply list_elem_of_split in Hin as (l1 & l2 & El). rewrite El in Hr.
  destruct (relink_ring _ _ _ _ Hr) as [Hr' Hpay]. set (B' := link_front _ _) in *.
  destruct (pay_proj _ _ (Hpay b)) as (Ef & Ek & Ed).
  apply wp_bind. eapply wp_of_eq; [apply bupd_eq; lia|]. apply wp_bind.
  wp_call wakeup_th; [done|apply Hinv|]. intros [] s2 (t & -> & Hsch).
  eapply wp_of_eq; [apply bc_release_eq|]. cbn [bufs set_bufs lset l_th l_bc_lk th ide_lk idequeue havedisk1 dsk].
  match goal with |- release_post _ _ _ _ ?s => set (s2 := s) end.
  assert (Eb : pay (bufs s2 !!! b) = pay (unbusy (bufs s !!! b))).
  { unfold s2. cbn [bufs]. rewrite lookup_total_insert_eq. unfold pay, unbusy. cbn [flags data with_flags].
    change (key (with_flags ?f ?x)) with (key x). cbn [bufs set_bufs]. by rewrite Ef, Ek, Ed. }
  assert (Ho : forall a, a <> b -> pay (bufs s2 !!! a) = pay (bufs s !!! a)).
  { intros a Ha. unfold s2. cbn [bufs]. rewrite lookup_total_insert_ne by done. apply Hpay. }
  destruct (pay_proj _ _ Eb) as (Fb & Kb & Db).
  split; [|done..]. exists l1, l2. split; [done|].
  apply (cache_inv_update c s s2 l (b :: l1 ++ l2) b Hinv Hb); unfold valid, busy, dirty;
    rewrite ?Fb, ?Kb, ?Db; try done.
  - eapply ring_ext; [|exact Hr']. intros a. unfold s2. cbn [bufs].
    destruct (decide (a = b)) as [->|]; [by rewrite lookup_total_insert_eq|by rewrite lookup_total_insert_ne].
  - unfold unbusy. cbn [flags with_flags]. by rewrite C1.
  - intros a Ha Hne E. destruct Hne. symmetry. by apply (ca_uniq _ _ _ Hinv).
  - unfold unbusy. cbn [flags with_flags]. rewrite C2. auto.
  - destruct (ca_io _ _ _ Hinv). split; try done; set_solver.
  - apply Hinv.
Qed.
End release.

(** ** Initialisation *)
Lemma nx_dev B a v x : nx (<[a := with_dev v (B !!! a)]> B) x = nx B x.
Proof.
  unfold nx. destruct (decide (x = a)); [subst; by rewrite lookup_total_insert_eq|by rewrite lookup_total_insert_ne].
Qed.
Lemma pv_dev B a v x : pv (<[a := with_dev v (B !!! a)]> B) x = pv B x.
Proof.
  unfold pv. destruct (decide (x = a)); [subst; by rewrite lookup_total_insert_eq|by rewrite lookup_total_insert_ne].
Qed.

(** The loop body as one update of the table. *)
Definition init_buf (B : gmap Z buf) (b : Z) : gmap Z buf :=
  let B1 := <[b := with_b_next (nx B HEAD) (B !!! b)]> B in
  let B2 := <[b := with_b_prev HEAD (B1 !!! b)]> B1 in
  let B3 := <[b := with_dev NODEV (B2 !!! b)]> B2 in
  let B4 := <[nx B HEAD := with_b_prev b (B3 !!! nx B HEAD)]> B3 in
  <[HEAD := with_b_next b (B4 !!! HEAD)]> B4.

Lemma init_buf_spec B b : b <> HEAD ->
  (forall x, nx (init_buf B b) x = fupd (fupd (nx B) b (nx B HEAD)) HEAD b x) /\
  (forall x, pv (init_buf B b) x = fupd (fupd (pv B) b HEAD) (nx B HEAD) b x) /\
  (forall x, flags (init_buf B b !!! x) = flags (B !!! x) /\
             dev (init_buf B b !!! x) = if decide (x = b) then NODEV else dev (B !!! x)).
Proof.
  intros Hb. unfold init_buf. cbv zeta. split; [|split]; intros x.
  - rewrite nx_next. apply fupd_ext. by rewrite nx_prev, nx_dev, nx_prev, nx_next.
  - rewrite pv_next, pv_prev. apply fupd_ext. rewrite pv_dev, pv_prev. apply fupd_ext, pv_next.
  - assert (Hf : forall (M : gmap Z buf) a (g : buf -> buf), (forall y, flags (g y) = flags y) ->
      flags (<[a := g (M !!! a)]> M !!! x) = flags (M !!! x)).
    { intros M a g Hg. destruct (decide (x = a)); [subst; by rewrite lookup_total_insert_eq|].
      by rewrite lookup_total_insert_ne. }
    assert (Hd : forall (M : gmap Z buf) a (g : buf -> buf), (forall y, dev (g y) = dev y) ->
      dev (<[a := g (M !!! a)]> M !!! x) = dev (M !!! x)).
    { intros M a g Hg. destruct (decide (x = a)); [subst; by rewrite lookup_total_insert_eq|].
      by rewrite lookup_total_insert_ne. }
    split; [by rewrite !Hf|]. rewrite !(Hd _ _ (with_b_next _)), !(Hd _ _ (with_b_prev _)) by done.
    case_decide; [subst; by rewrite lookup_total_insert_eq|]. rewrite lookup_total_insert_ne by done.
    by rewrite !Hd.
Qed.

Section init.
Context `{fs_layout}.

Lemma init_body_eq s b : 0 <= b < NBUF -> 0 <= nx (bufs s) HEAD <= NBUF ->
  (h ← deref HEAD; bupd b (with_b_next (b_next h)) ;; bupd b (with_b_prev HEAD) ;;
   bupd b (with_dev NODEV) ;; h ← deref HEAD; bupd (b_next h) (with_b_prev b) ;;
   bupd HEAD (with_b_next b)) s = Ok tt (set_bufs (init_buf (bufs s) b) s).
Proof.
  intros Hb Hn. assert (HH : 0 <= HEAD <= NBUF) by (unfold HEAD, NBUF; lia).
  assert (HbH : b <> HEAD) by (unfold HEAD; lia).
  unfold mbind, K_bind. rewrite deref_eq by done. fold (nx (bufs s) HEAD).
  rewrite bupd_eq by lia. cbn [bufs set_bufs]. rewrite bupd_eq by lia. cbn [bufs set_bufs].
  rewrite bupd_eq by lia. cbn [bufs set_bufs]. rewrite deref_eq by done. cbn [bufs set_bufs].
  rewrite !(lookup_total_insert_ne _ b HEAD) by done. fold (nx (bufs s) HEAD).
  rewrite bupd_eq by lia. cbn [bufs set_bufs]. rewrite bupd_eq by lia. done.
Qed.

(** The list after [k] buffers. *)
Record init_inv (B : gmap Z buf) (k : Z) : Prop := {
  ii_next : path (nx B) HEAD (rev (seqZ 0 k)) HEAD;
  ii_prev : path (pv B) HEAD (seqZ 0 k) HEAD;
  ii_flags : forall b, 0 <= b < NBUF -> flags (B !!! b) = 0;
  ii_dev : forall b, 0 <= b < k -> dev (B !!! b) = NODEV
}.

Lemma init_inv_step B k : 0 <= k < NBUF -> init_inv B k -> init_inv (init_buf B k) (k + 1).
Proof.
  intros Hk [Hn Hp Hf Hd]. assert (HkH : k <> HEAD) by (unfold HEAD; lia).
  destruct (init_buf_spec B k HkH) as (EN & EP & EF).
  assert (Hs : seqZ 0 (k + 1) = seqZ 0 k ++ [k]) by (rewrite seqZ_app by lia; done).
  assert (Hin : forall a, a ∈ seqZ 0 k <-> 0 <= a < k) by (intros a; rewrite elem_of_seqZ; lia).
  assert (Hinr : forall a, a ∈ rev (seqZ 0 k) <-> 0 <= a < k).
  { intros a. rewrite <- Hin, !list_elem_of_In. symmetry. apply in_rev. }
  split; rewrite ?Hs.
  - rewrite rev_app_distr. change (rev [k] ++ ?l) with (k :: l). eapply path_ext; [intros a _; apply EN|].
    apply path_push; [done|done|rewrite Hinr; lia|rewrite Hinr; unfold HEAD; lia].
  - eapply path_ext; [intros a _; apply EP|].
    rewrite (path_first (nx B) HEAD (seqZ 0 k) HEAD Hn). apply path_append; [done|done|rewrite Hin; lia|].
    apply NoDup_cons. split; [rewrite Hin; unfold HEAD; lia|apply NoDup_seqZ].
  - intros b Hb. destruct (EF b) as [-> _]. auto.
  - intros b Hb. destruct (EF b) as [_ ->]. case_decide; [done|]. apply Hd. lia.
Qed.

Lemma bufcache_init_ring s : (forall b, 0 <= b < NBUF -> flags (bufs s !!! b) = 0) ->
  wp bufcache_init (fun _ s' => exists B, s' = set_bufs B (lset l_bc_lk free_lock s) /\ init_inv B NBUF) s.
Proof.
  intros Hf0. unfold bufcache_init. assert (HH : 0 <= HEAD <= NBUF) by (unfold HEAD, NBUF; lia).
  apply wp_bind. eapply wp_of_eq; [reflexivity|]. apply wp_bind. eapply wp_of_eq; [by apply bupd_eq|].
  apply wp_bind. eapply wp_of_eq; [by apply bupd_eq|]. cbn [bufs set_bufs lset l_bc_lk].
  match goal with |- wp _ _ ?s => set (s1 := s) end.
  wp_call (wp_for _ (fun k s' => exists B, s' = set_bufs B s1 /\ init_inv B k) 0 NBUF); [done| | |].
  - intros k s' Hk (B & -> & HB). pose proof (path_first _ _ _ _ (ii_next _ _ HB)) as E.
    eapply wp_of_eq; [apply init_body_eq; [done|]|].
    + cbn [bufs set_bufs]. rewrite E. destruct (lastd_elem HEAD (seqZ 0 k)) as [->|Hin]; [done|].
      apply elem_of_seqZ in Hin. lia.
    + exists (init_buf B k). split; [done|]. by apply init_inv_step.
  - exists (bufs s1). split; [done|]. split.
    + change (nx (bufs s1) HEAD = HEAD). unfold s1. cbn [bufs set_bufs]. rewrite nx_next.
      unfold fupd. by rewrite decide_True.
    + change (pv (bufs s1) HEAD = HEAD). unfold s1. cbn [bufs set_bufs]. rewrite pv_next, pv_prev.
      unfold fupd. by rewrite decide_True.
    + intros b Hb. unfold s1. cbn [bufs set_bufs]. rewrite !lookup_total_insert_ne by (unfold HEAD; lia). auto.
    + lia.
  - intros [] s' (B & -> & HB). by exists B.
Qed.
(** An empty cache, once there are threads. *)
Lemma init_cache_inv c s : io_inv c s [] -> lock (ide_lk s) = 0 -> lock (bc_lk s) = 0 -> init_inv (bufs s) NBUF ->
  cache_inv c s (rev (seqZ 0 NBUF)).
Proof.
  intros Hio Hil Hbl [Hn Hp Hf Hd]. split; try done.
  - split; [done|by rewrite rev_involutive|rewrite <- Permutation_rev; apply NoDup_seqZ|].
    intros b. rewrite <- Permutation_rev, elem_of_seqZ. lia.
  - intros b Hb. rewrite Hf by done. done.
  - intros b Hb. left. split; [by apply Hd|by apply Hf].
  - intros a b Ha Hb. unfold valid. by rewrite (Hf a Ha).
  - intros b Hb. unfold valid. by rewrite Hf.
Qed.
Lemma bufcache_init_wp c s : io_inv c s [] -> lock (ide_lk s) = 0 ->
  (forall b, 0 <= b < NBUF -> flags (bufs s !!! b) = 0) ->
  wp bufcache_init
     (fun _ s' => cache_inv c s' (rev (seqZ 0 NBUF)) /\ dsk s' = dsk s /\ havedisk1 s' = havedisk1 s /\
        (forall b, 0 <= b < NBUF -> flags (bufs s' !!! b) = 0)) s.
Proof.
  intros Hio Hil Hf0. wp_call bufcache_init_ring; [done|]. intros [] s' (B & -> & HB). split; [|split_and!; [done..|apply HB]].
  apply init_cache_inv; [|done|done|done]. destruct Hio. split; try done; set_solver.
Qed.
End init.
