(* ===== verification/BlockIO.v ===== *)
(** * What the buffer cache promises

    A view of the cache for the layers above: the blocks on disk, the blocks
    pinned in the cache because they are dirty, and the buffers that the
    caller holds.  The operations are specified on this view, and a cache
    used for reading and writing whole blocks is shown to be a disk. *)

From stdpp Require Import base gmap list numbers.
From S2P Require Import Prelude Lock Mem Thread Queue Sched Ide IdeSpec Bufcache.
Import Spinlock.

(** [pins] are the contents of dirty buffers that nobody holds, [held] the
    busy buffers. *)
Record view (c : Z) (s : bio) (pins : gmap (Z * Z) mem) (held : list Z) : Prop := {
  vw_inv : exists l, cache_inv c s l;
  vw_held : forall b, 0 <= b < NBUF -> busy (bufs s !!! b) = true <-> b ∈ held;
  vw_range : forall b, b ∈ held -> 0 <= b < NBUF;
  vw_pins : forall k v, pins !! k = Some v <-> exists b, 0 <= b < NBUF /\ (b ∉ held) /\
    key (bufs s !!! b) = k /\ dirty (bufs s !!! b) = true /\ data (bufs s !!! b) = v
}.

(** The contents of a block that is not held. *)
Definition block (s : bio) (pins : gmap (Z * Z) mem) (k : Z * Z) : mem :=
  match pins !! k with Some v => v | None => sectors (dsk s) !!! k end.

Lemma length_omap_le {A B} (f : A -> option B) l : (length (omap f l) <= length l)%nat.
Proof. induction l as [|x l IH]; csimpl; [done|]. destruct (f x); csimpl; lia. Qed.

Lemma view_idle c s pins held : view c s pins held ->
  Z.of_nat (size pins) + Z.of_nat (length held) < NBUF ->
  exists b, 0 <= b < NBUF /\ idle (bufs s !!! b) = true.
Proof.
  intros [(l & Hinv) Hh Hr Hp] Hn.
  set (L := held ++ omap (find_buf (bufs s)) (map_to_list pins).*1).
  destruct (decide (Forall (fun b => b ∈ L) (seqZ 0 NBUF))) as [Hall|Hno].
  - exfalso. rewrite Forall_forall in Hall.
    assert (Hlen : (length (seqZ 0 NBUF) <= length L)%nat).
    { apply submseteq_length, NoDup_submseteq; [apply NoDup_seqZ|done]. }
    rewrite length_seqZ in Hlen. unfold L in Hlen. rewrite length_app in Hlen.
    assert (Ho : (length (omap (find_buf (bufs s)) (map_to_list pins).*1) <= size pins)%nat).
    { etransitivity; [apply length_omap_le|]. by rewrite length_fmap, length_map_to_list. }
    unfold NBUF in *. lia.
  - apply not_Forall_Exists in Hno; [|apply _]. apply Exists_exists in Hno as (b & Hb & Hni).
    apply elem_of_seqZ in Hb. assert (Hb' : 0 <= b < NBUF) by lia. exists b. split; [done|].
    unfold idle. rewrite andb_true_iff, !negb_true_iff. split.
    + destruct (busy (bufs s !!! b)) eqn:E; [|done]. apply Hh in E; [|done]. destruct Hni.
      unfold L. apply elem_of_app. by left.
    + destruct (dirty (bufs s !!! b)) eqn:E; [|done]. destruct Hni. unfold L. apply elem_of_app.
      destruct (decide (b ∈ held)); [by left|right].
      assert (Hpb : pins !! key (bufs s !!! b) = Some (data (bufs s !!! b))).
      { apply Hp. by exists b. }
      assert (Hv : valid (bufs s !!! b) = true).
      { destruct (ca_used _ _ _ Hinv b Hb') as [[_ Hz]|[_ ?]]; [|done]. unfold dirty in E. by rewrite Hz in E. }
      apply list_elem_of_omap. exists (key (bufs s !!! b)). split.
      * apply list_elem_of_fmap. exists (key (bufs s !!! b), data (bufs s !!! b)). split; [done|].
        by apply elem_of_map_to_list.
      * by eapply find_buf_is.
Qed.

Definition same_devs (s s' : bio) : Prop := havedisk1 s' = havedisk1 s /\ bad (dsk s') = bad (dsk s).

Lemma good_key_devs s s' k : same_devs s s' -> good_key s k -> good_key s' k.
Proof. intros [H1 H2]. by apply good_key_eq. Qed.

(** Dirty buffers are not the buffer a read uses. *)
Lemma read_other c s l k b s' a : cache_inv c s l -> read_post c s l k b s' ->
  dirty (bufs s !!! a) = true -> key (bufs s !!! a) <> k -> a <> b.
Proof.
  intros Hinv Hp Hd Hk ->. destruct (rp_was _ _ _ _ _ _ Hp) as [[Hf _]|(_ & Hi & _)].
  - by apply find_buf_Some in Hf as [_ ?].
  - unfold idle in Hi. rewrite Hd in Hi. by rewrite andb_false_r in Hi.
Qed.

Lemma read_pins c s l k b s' pins held : cache_inv c s l -> good_key s k ->
  view c s pins held -> read_post c s l k b s' ->
  forall k' v, delete k pins !! k' = Some v <-> exists a, 0 <= a < NBUF /\ (a ∉ b :: held) /\
    key (bufs s' !!! a) = k' /\ dirty (bufs s' !!! a) = true /\ data (bufs s' !!! a) = v.
Proof.
  intros Hinv Hg Hv Hp k' v. pose proof Hv as [_ Hh Hr Hpin].
  assert (Hpay : forall a, a <> b -> flags (bufs s' !!! a) = flags (bufs s !!! a) /\
    key (bufs s' !!! a) = key (bufs s !!! a) /\ data (bufs s' !!! a) = data (bufs s !!! a)).
  { intros a Ha. apply pay_proj, pay_core. by apply (cg_others _ _ _ (rp_changed _ _ _ _ _ _ Hp)). }
  rewrite lookup_delete_Some, Hpin. split.
  - intros [Hne (a & Ha & Hah & Hk & Hd & Hdat)].
    assert (Hab : a <> b) by (eapply read_other; [done|done|done|congruence]).
    destruct (Hpay a Hab) as (Ef & Ek & Ed). exists a. unfold dirty. rewrite Ef, Ek, Ed.
    split; [done|]. split; [set_solver|done].
  - intros (a & Ha & Hah & Hk & Hd & Hdat). assert (Hab : a <> b) by set_solver.
    destruct (Hpay a Hab) as (Ef & Ek & Ed). unfold dirty in Hd. rewrite Ef in Hd. split.
    + intros Ekk. destruct Hab. symmetry. pose proof (rp_inv _ _ _ _ _ _ Hp) as Hinv'.
      apply (ca_uniq _ _ _ Hinv');
      [exact (rp_range _ _ _ _ _ _ Hp)|done|exact (rp_valid _ _ _ _ _ _ Hp)|].
      pose proof (rp_key _ _ _ _ _ _ Hp). congruence.
    + exists a. unfold dirty. rewrite <- Ek, <- Ed. split; [done|]. split; [set_solver|done].
Qed.

Lemma pins_found c s l pins held k b : cache_inv c s l -> view c s pins held -> b ∉ held ->
  k.1 <> NODEV -> find_buf (bufs s) k = Some b ->
  pins !! k = if dirty (bufs s !!! b) then Some (data (bufs s !!! b)) else None.
Proof.
  intros Hinv [_ _ _ Hpin] Hbh Hk [Hb Ek]%find_buf_Some. destruct (dirty (bufs s !!! b)) eqn:E.
  - apply Hpin. by exists b.
  - destruct (pins !! k) as [v|] eqn:Ep; [|done]. apply Hpin in Ep as (a & Ha & _ & Eka & Hd & _).
    assert (Hva : valid (bufs s !!! a) = true).
    { destruct (ca_used _ _ _ Hinv a Ha) as [[Hdv _]|[_ ?]]; [|done]. destruct Hk. by rewrite <- Eka. }
    assert (a = b) as -> by (apply (ca_uniq _ _ _ Hinv); [done|done|done|congruence]). congruence.
Qed.

Lemma pins_missing c s pins held k : view c s pins held -> find_buf (bufs s) k = None -> pins !! k = None.
Proof.
  intros [_ _ _ Hpin] Hno. rewrite find_buf_None in Hno. destruct (pins !! k) as [v|] eqn:Ep; [|done].
  apply Hpin in Ep as (a & Ha & _ & Eka & _). by destruct (Hno a Ha).
Qed.

(** The buffer a read returns holds the block. *)
Lemma read_block c s l k b s' pins held : cache_inv c s l -> good_key s k -> view c s pins held ->
  b ∉ held -> read_post c s l k b s' ->
  data (bufs s' !!! b) = block s pins k /\ dirty (bufs s' !!! b) = bool_decide (is_Some (pins !! k)).
Proof.
  intros Hinv Hg Hv Hbh Hp. pose proof (good_key_dev _ _ Hg) as Hkd. unfold block.
  destruct (rp_was _ _ _ _ _ _ Hp) as [[Hf Hd]|(Hf & _ & Hd)].
  - pose proof (pins_found _ _ _ _ _ _ _ Hinv Hv Hbh Hkd Hf) as Epin. rewrite Hd, Epin.
    rewrite (rp_data _ _ _ _ _ _ Hp). destruct (dirty (bufs s !!! b)) eqn:E.
    + split; [|done]. unfold content. by rewrite Hf.
    + split; [|done]. apply (rp_clean _ _ _ _ _ _ Hp). by rewrite Hd.
  - rewrite (pins_missing _ _ _ _ _ Hv Hf), (rp_data _ _ _ _ _ _ Hp), Hd. split; [|done].
    by apply (rp_clean _ _ _ _ _ _ Hp).
Qed.

Section view.
Context `{fs_layout}.

Record held_block (s : bio) (b : Z) (k : Z * Z) (v : mem) (d : bool) : Prop := {
  hb_range : 0 <= b < NBUF;
  hb_key : key (bufs s !!! b) = k;
  hb_data : data (bufs s !!! b) = v;
  hb_dirty : dirty (bufs s !!! b) = d;
  hb_busy : busy (bufs s !!! b) = true;
  hb_valid : valid (bufs s !!! b) = true
}.

Lemma held_pay s s' b k v d : pay (bufs s' !!! b) = pay (bufs s !!! b) ->
  held_block s b k v d -> held_block s' b k v d.
Proof.
  intros (Ef & Ek & Ed)%pay_proj [? ? ? ? ? ?]. split; unfold dirty, busy, valid; rewrite ?Ef, ?Ek, ?Ed; done.
Qed.

Lemma view_read c ks s pins held k : on_cpu c ks -> view c s pins held -> good_key s k ->
  (forall b, b ∈ held -> key (bufs s !!! b) <> k) ->
  is_Some (pins !! k) \/ Z.of_nat (size pins) + Z.of_nat (length held) < NBUF ->
  wp (bufcache_read ks k.1 k.2)
     (fun b s' => view c s' (delete k pins) (b :: held) /\ (b ∉ held) /\
        held_block s' b k (block s pins k) (bool_decide (is_Some (pins !! k))) /\
        (forall a, a ∈ held -> pay (bufs s' !!! a) = pay (bufs s !!! a)) /\
        store_of (dsk s') = store_of (dsk s) /\ same_devs s s') s.
Proof.
  intros Hon Hv Hg Hnk Hn. pose proof Hv as [(l & Hinv) Hh Hr Hpin].
  wp_call (bufcache_read_wp c ks s l k); [done|done|done| | |].
  { intros b Hb Hk. destruct (busy (bufs s !!! b)) eqn:E; [|done]. apply Hh in E; [|done].
    by destruct (Hnk b E). }
  { intros Hf. destruct Hn as [[v Hp]|Hn]; [|by eapply view_idle]. apply Hpin in Hp as (b & Hb & _ & Hk & _).
    by destruct (proj1 (find_buf_None _ _) Hf b Hb). }
  intros b s' Hp. pose proof (read_pins c s l k b s' pins held Hinv Hg Hv Hp) as Hpins.
  pose proof (rp_range _ _ _ _ _ _ Hp) as Hb. pose proof (rp_changed _ _ _ _ _ _ Hp) as [Ho _ Hd1 Hbd].
  assert (Hbh : b ∉ held).
  { intros Hin. destruct (rp_was _ _ _ _ _ _ Hp) as [[Hf _]|(_ & Hi & _)].
    - apply find_buf_Some in Hf as [_ Hf]. by destruct (Hnk b Hin).
    - apply (Hh b Hb) in Hin. unfold idle in Hi. by rewrite Hin in Hi. }
  split; [|split; [done|split; [|split; [|split; [exact (rp_store _ _ _ _ _ _ Hp)|done]]]]].
  - split; [exists l; exact (rp_inv _ _ _ _ _ _ Hp)| | |done].
    + intros a Ha. destruct (decide (a = b)) as [->|Hab].
      * rewrite (rp_busy _ _ _ _ _ _ Hp). set_solver.
      * destruct (pay_proj _ _ (pay_core _ _ (Ho a Hab))) as (Ef & _). unfold busy. rewrite Ef.
        fold (busy (bufs s !!! a)). rewrite (Hh a Ha). set_solver.
    + intros a [->|Ha]%elem_of_cons; auto.
  - destruct (read_block _ _ _ _ _ _ _ _ Hinv Hg Hv Hbh Hp) as [Hdat Hdir].
    split; [done|exact (rp_key _ _ _ _ _ _ Hp)|done|done|exact (rp_busy _ _ _ _ _ _ Hp)|
      exact (rp_valid _ _ _ _ _ _ Hp)].
  - intros a Ha. apply pay_core, Ho. set_solver.
Qed.

Lemma view_perm c s pins held held' : held ≡ₚ held' -> view c s pins held -> view c s pins held'.
Proof. intros E [H1 H2 H3 H4]. split; [done| | |]; intros *; setoid_rewrite <- E; auto. Qed.

(** Scheduling does not touch the cache. *)
Lemma view_th c s t pins held : (exists cur ready, sched_inv c t cur ready) -> view c s pins held ->
  view c (lset l_th t s) pins held.
Proof.
  intros Ht [(l & [[_ I2 I3 I4 I5 I6] C2 C3 C4 C5 C6 C7 C8]) H2 H3 H4].
  split; [|done..]. exists l. split; done.
Qed.

Lemma view_sched c s pins held : view c s pins held -> exists cur ready, sched_inv c (th s) cur ready.
Proof. intros [(l & Hinv) _ _ _]. exact (io_sched _ _ _ (ca_io _ _ _ Hinv)). Qed.

(** Changing a held buffer. *)
Lemma view_changed c s s' l pins held b : view c s pins held -> b ∈ held -> changed s s' b ->
  cache_inv c s' l -> busy (bufs s' !!! b) = true -> view c s' pins held.
Proof.
  intros [_ Hh Hr Hpin] Hb [Ho _ _ _] Hinv' Hbu.
  assert (Hpay : forall a, a <> b -> flags (bufs s' !!! a) = flags (bufs s !!! a) /\
    key (bufs s' !!! a) = key (bufs s !!! a) /\ data (bufs s' !!! a) = data (bufs s !!! a)).
  { intros a Ha. by apply pay_proj, pay_core, Ho. }
  split; [by exists l| |done|].
  - intros a Ha. destruct (decide (a = b)) as [->|Hab]; [by rewrite Hbu|].
    unfold busy. destruct (Hpay a Hab) as (-> & _). by apply Hh.
  - intros k v. rewrite Hpin. split; intros (a & Ha & Hah & Hk & Hd & Hv); exists a;
      (assert (Hab : a <> b) by congruence); destruct (Hpay a Hab) as (Ef & Ek & Ed);
      unfold dirty in *; rewrite ?Ef, ?Ek, ?Ed in *; done.
Qed.

Lemma view_write c ks s pins held b k v d : on_cpu c ks -> view c s pins held -> b ∈ held ->
  held_block s b k v d ->
  wp (bufcache_write ks b)
     (fun _ s' => view c s' pins held /\ held_block s' b k v false /\
        (forall a, a <> b -> pay (bufs s' !!! a) = pay (bufs s !!! a)) /\
        store_of (dsk s') = (<[k := v]> (sectors (dsk s)), written (dsk s) ++ [(k, v)]) /\
        same_devs s s') s.
Proof.
  intros Hon Hv Hb [Hr Hk Hd _ Hbu Hva]. pose proof Hv as [(l & Hinv) _ _ _].
  wp_call (bufcache_write_wp c ks s l b); [done..|].
  intros [] s' [Hinv' Hch Ek Ed Hbu' Hva' Hdi' Hst]. rewrite Hk, Hd in *.
  split; [by eapply view_changed|]. split; [by split|]. destruct Hch as [Ho _ ? ?].
  split; [intros a Ha; by apply pay_core, Ho|]. done.
Qed.

(** Storing into a held buffer and marking it dirty. *)
Lemma view_update c s pins held b k v d x v' d' : view c s pins held -> b ∈ held -> held_block s b k v d ->
  links_eq x (bufs s !!! b) -> flags_ok (flags x) -> key x = k -> data x = v' -> dirty x = d' ->
  busy x = true -> valid x = true ->
  let s' := set_bufs (<[b := x]> (bufs s)) s in
  view c s' pins held /\ held_block s' b k v' d' /\
  (forall a, a <> b -> pay (bufs s' !!! a) = pay (bufs s !!! a)).
Proof.
  intros Hv Hb [Hr Hk Hd _ Hbu Hva] Hlk Hf Kx Dx Fx Bx Vx s'. pose proof Hv as [(l & Hinv) _ _ _].
  assert (Ex : bufs s' !!! b = x) by apply lookup_total_insert_eq.
  assert (Ho : forall a, a <> b -> bufs s' !!! a = bufs s !!! a).
  { intros a Ha. unfold s'. simpl. by rewrite lookup_total_insert_ne. }
  assert (Hch : changed s s' b).
  { split; [intros a Ha; by rewrite Ho|by rewrite Ex|done|done]. }
  destruct (ca_used _ _ _ Hinv b Hr) as [[_ Hz]|[Hg _]]; [unfold busy in Hbu; by rewrite Hz in Hbu|].
  assert (Hinv' : cache_inv c s' l).
  { apply (cache_inv_change c s s' l b Hinv Hr Hch); rewrite ?Ex; try done; rewrite ?Kx, ?Bx; try done.
    - by rewrite Hk in Hg.
    - intros a Ha Hne E. destruct Hne. symmetry. apply (ca_uniq _ _ _ Hinv); congruence || done.
    - eapply io_inv_idle; [exact (ca_io _ _ _ Hinv)|done..].
    - exact (ca_ide _ _ _ Hinv).
    - exact (ca_bc _ _ _ Hinv). }
  split; [eapply view_changed; try done; by rewrite Ex|]. split; [split; rewrite ?Ex; done|].
  intros a Ha. by rewrite Ho.
Qed.

Lemma view_set_data c s pins held b k v d v' : view c s pins held -> b ∈ held -> held_block s b k v d ->
  wp (bupd b (with_data v'))
     (fun _ s' => view c s' pins held /\ held_block s' b k v' d /\
        (forall a, a <> b -> pay (bufs s' !!! a) = pay (bufs s !!! a)) /\ dsk s' = dsk s /\ same_devs s s') s.
Proof.
  intros Hv Hb Hh. pose proof Hh as [Hr Hk Hd Hdi Hbu Hva]. eapply wp_of_eq; [apply bupd_eq; lia|].
  pose proof Hv as [(l & Hinv) _ _ _]. pose proof (ca_flags _ _ _ Hinv b Hr) as Hf.
  destruct (view_update c s pins held b k v d (with_data v' (bufs s !!! b)) v' d Hv Hb Hh)
    as (H1 & H2 & H3); done.
Qed.

(** An update that depends on the old contents. *)
Lemma view_upd_data c s pins held b k v d f : view c s pins held -> b ∈ held -> held_block s b k v d ->
  wp (bupd b (fun x => with_data (f (data x)) x))
     (fun _ s' => view c s' pins held /\ held_block s' b k (f v) d /\
        (forall a, a <> b -> pay (bufs s' !!! a) = pay (bufs s !!! a)) /\ dsk s' = dsk s /\ same_devs s s') s.
Proof.
  intros Hv Hb Hh. pose proof Hh as [Hr _ Hd _ _ _].
  pose proof (view_set_data c s pins held b k v d (f v) Hv Hb Hh) as Hw. unfold wp in *.
  rewrite bupd_eq in * by lia. by rewrite Hd.
Qed.

Lemma view_set_dirty c s pins held b k v d : view c s pins held -> b ∈ held -> held_block s b k v d ->
  wp (bupd b (fun x => with_flags (Z.lor (flags x) B_DIRTY) x))
     (fun _ s' => view c s' pins held /\ held_block s' b k v true /\
        (forall a, a <> b -> pay (bufs s' !!! a) = pay (bufs s !!! a)) /\ dsk s' = dsk s /\ same_devs s s') s.
Proof.
  intros Hv Hb Hh. pose proof Hh as [Hr Hk Hd Hdi Hbu Hva]. eapply wp_of_eq; [apply bupd_eq; lia|].
  pose proof Hv as [(l & Hinv) _ _ _]. pose proof (ca_flags _ _ _ Hinv b Hr) as Hf.
  destruct (set_dirty _ Hf) as (Hf' & D2 & D1 & D0).
  destruct (view_update c s pins held b k v d (with_flags (Z.lor (flags (bufs s !!! b)) B_DIRTY)
    (bufs s !!! b)) v true Hv Hb Hh) as (H1 & H2 & H3); unfold busy, valid, dirty; cbn [flags with_flags];
    rewrite ?D0, ?D1, ?D2; done.
Qed.

(** A block with a held buffer is not pinned. *)
Lemma held_not_pinned c s pins held b k v d : view c s pins held -> b ∈ held -> held_block s b k v d ->
  pins !! k = None.
Proof.
  intros [(l & Hinv) _ _ Hpin] Hb [Hr Hk _ _ _ Hva]. destruct (pins !! k) as [w|] eqn:E; [|done].
  apply Hpin in E as (a & Ha & Hah & Eka & _).
  assert (b = a) as -> by (apply (ca_uniq _ _ _ Hinv); [done|done|done|congruence]). done.
Qed.

Lemma release_pins c s l b s' pins held k v d : view c s pins (b :: held) -> b ∉ held ->
  held_block s b k v d -> release_post c s l b s' ->
  forall k' w, (if d then <[k := v]> pins else pins) !! k' = Some w <->
    exists a, 0 <= a < NBUF /\ (a ∉ held) /\ key (bufs s' !!! a) = k' /\
      dirty (bufs s' !!! a) = true /\ data (bufs s' !!! a) = w.
Proof.
  intros Hv Hbh Hh [_ Ho Eb _ _] k' w. pose proof Hh as [Hr Hk Hd Hdi Hbu Hva].
  pose proof Hv as [(l0 & Hinv) Hheld Hran Hpin].
  destruct (clear_busy _ (ca_flags _ _ _ Hinv b Hr)) as (_ & _ & _ & C2).
  destruct (pay_proj _ _ Eb) as (Fb & Kb & Db).
  assert (Hdb : dirty (bufs s' !!! b) = d).
  { unfold dirty. rewrite Fb. unfold unbusy. cbn [flags with_flags]. rewrite C2. exact Hdi. }
  change (key (unbusy ?x)) with (key x) in Kb. change (data (unbusy ?x)) with (data x) in Db.
  rewrite Hk in Kb. rewrite Hd in Db.
  assert (Hsplit : (exists a, 0 <= a < NBUF /\ (a ∉ held) /\ key (bufs s' !!! a) = k' /\
      dirty (bufs s' !!! a) = true /\ data (bufs s' !!! a) = w) <->
    (d = true /\ k' = k /\ w = v) \/ pins !! k' = Some w).
  { rewrite Hpin. split.
    - intros (a & Ha & Hah & Eka & Hda & Hwa). destruct (decide (a = b)) as [->|Hab]; [left; split_and!; congruence|right].
      destruct (pay_proj _ _ (Ho a Hab)) as (Ef & Ek & Ed). exists a. unfold dirty in *.
      rewrite Ef, Ek, Ed in *. split; [done|]. split; [set_solver|done].
    - intros [(-> & -> & ->)|(a & Ha & Hah & Eka & Hda & Hwa)]; [by exists b|].
      assert (Hab : a <> b) by set_solver. destruct (pay_proj _ _ (Ho a Hab)) as (Ef & Ek & Ed).
      exists a. unfold dirty in *. rewrite Ef, Ek, Ed. split; [done|]. split; [set_solver|done]. }
  rewrite Hsplit. pose proof (held_not_pinned c s pins (b :: held) b k v d Hv) as Hnp.
  destruct d; [|clear; naive_solver]. rewrite lookup_insert_Some.
  destruct (decide (k = k')) as [<-|Hne]; [|clear -Hne; naive_solver].
  rewrite Hnp by (done || apply elem_of_cons; by left). clear. naive_solver.
Qed.

Lemma view_release c ks s pins held b k v d : on_cpu c ks -> view c s pins (b :: held) -> b ∉ held ->
  held_block s b k v d -> (d = false -> v = sectors (dsk s) !!! k) ->
  wp (bufcache_release ks b)
     (fun _ s' => view c s' (if d then <[k := v]> pins else pins) held /\
        (forall a, a <> b -> pay (bufs s' !!! a) = pay (bufs s !!! a)) /\ dsk s' = dsk s /\ same_devs s s') s.
Proof.
  intros Hon Hv Hbh Hh Hcl. pose proof Hh as [Hr Hk Hd Hdi Hbu Hva].
  pose proof Hv as [(l & Hinv) Hheld Hran Hpin].
  wp_call (bufcache_release_wp c ks s l b); [done|done|done|done|rewrite Hk, Hd, Hdi; auto|].
  intros [] s' Hp. pose proof (release_pins _ _ _ _ _ _ _ _ _ _ Hv Hbh Hh Hp) as Hpins.
  destruct Hp as [(l1 & l2 & _ & Hinv') Ho Eb Hdsk Hd1].
  split; [|split; [done|split; [done|by split; [|rewrite Hdsk]]]].
  split; [by eexists| | |done].
  - intros a Ha. destruct (clear_busy _ (ca_flags _ _ _ Hinv b Hr)) as (_ & C0 & _).
    destruct (decide (a = b)) as [->|Hab].
    + destruct (pay_proj _ _ Eb) as (Fb & _). unfold busy. rewrite Fb. unfold unbusy. cbn [flags with_flags].
      rewrite C0. done.
    + destruct (pay_proj _ _ (Ho a Hab)) as (Ef & _). unfold busy. rewrite Ef. fold (busy (bufs s !!! a)).
      rewrite (Hheld a Ha). set_solver.
  - intros a Ha. apply Hran. set_solver.
Qed.
End view.

(** ** The cache is a disk

    Reading and writing whole blocks, as the layers above do it. *)
Inductive bop : Type := BRead (k : Z * Z) | BWrite (k : Z * Z) (v : mem).
Definition bop_key (op : bop) : Z * Z := match op with BRead k => k | BWrite k _ => k end.

Definition run_bop `{fs_layout} (ks : kstack) (op : bop) : K bio mem :=
  b ← bufcache_read ks (bop_key op).1 (bop_key op).2;
  match op with
  | BRead _ => mret tt
  | BWrite _ v => bupd b (with_data v) ;; bufcache_write ks b
  end ;;
  x ← deref b;
  bufcache_release ks b ;;
  mret (data x).
Fixpoint run_bops `{fs_layout} (ks : kstack) (ops : list bop) : K bio (list mem) :=
  match ops with
  | [] => mret []
  | op :: ops => r ← run_bop ks op; rs ← run_bops ks ops; mret (r :: rs)
  end.

(** The same on a plain disk. *)
Definition spec_bop (D : gmap (Z * Z) mem) (op : bop) : mem * gmap (Z * Z) mem :=
  match op with
  | BRead k => (D !!! k, D)
  | BWrite k v => (v, <[k := v]> D)
  end.
Fixpoint spec_bops (D : gmap (Z * Z) mem) (ops : list bop) : list mem * gmap (Z * Z) mem :=
  match ops with
  | [] => ([], D)
  | op :: ops => let '(r, D) := spec_bop D op in let '(rs, D) := spec_bops D ops in (r :: rs, D)
  end.
Definition bop_write (op : bop) : list ((Z * Z) * mem) :=
  match op with BRead _ => [] | BWrite k v => [(k, v)] end.

Lemma run_bop_wp `{fs_layout} c ks s op : on_cpu c ks -> view c s ∅ [] -> good_key s (bop_key op) ->
  wp (run_bop ks op)
     (fun r s' => view c s' ∅ [] /\ (r, sectors (dsk s')) = spec_bop (sectors (dsk s)) op /\
        written (dsk s') = written (dsk s) ++ bop_write op /\ same_devs s s') s.
Proof.
  intros Hon Hv Hg. unfold run_bop. apply wp_bind.
  wp_call (view_read c ks s ∅ [] (bop_key op)); [done|done|done|set_solver|by right|].
  intros b s1 (Hv1 & _ & Hb1 & _ & Hst1 & Hd1). rewrite delete_empty in Hv1.
  unfold block in Hb1. rewrite lookup_empty in Hb1. unfold store_of in Hst1. injection Hst1 as Hs1 Hw1.
  rewrite bool_decide_eq_false_2 in Hb1 by (by intros [? ?]).
  apply wp_bind. apply (wp_mono _ (fun _ s2 => view c s2 ∅ [b] /\
    held_block s2 b (bop_key op) (spec_bop (sectors (dsk s)) op).1 false /\
    sectors (dsk s2) = (spec_bop (sectors (dsk s)) op).2 /\
    written (dsk s2) = written (dsk s) ++ bop_write op /\ same_devs s s2)).
  - destruct op as [k|k v]; simpl in *.
    + wp_steps. rewrite app_nil_r. done.
    + apply wp_bind. wp_call (view_set_data c s1 ∅ [b] b k); [done|set_solver|done|].
      intros [] s2 (Hv2 & Hb2 & _ & Hd2 & Hsd2).
      wp_call (view_write c ks s2 ∅ [b] b k v); [done|done|set_solver|done|].
      intros [] s3 (Hv3 & Hb3 & _ & Hst3 & Hsd3). unfold store_of in Hst3. injection Hst3 as Hs3 Hw3.
      rewrite Hd2 in *. split; [done|]. split; [done|]. rewrite Hs3, Hw3, Hs1, Hw1.
      split; [done|]. split; [done|]. destruct Hd1, Hsd2, Hsd3. split; congruence.
  - intros [] s2 (Hv2 & Hb2 & Hs2 & Hw2 & Hsd2). pose proof Hb2 as [Hr Hk Hd _ _ _].
    apply wp_bind. eapply wp_of_eq; [apply deref_eq; lia|]. apply wp_bind.
    wp_call (view_release c ks s2 ∅ [] b); [done|done|set_solver|done| |].
    { intros _. rewrite Hs2. destruct op; simpl; [done|by rewrite lookup_total_insert_eq]. }
    intros [] s3 (Hv3 & _ & Hd3 & Hsd3). wp_steps. split; [done|]. rewrite Hd3, Hs2, Hd, Hw2.
    split; [by destruct (spec_bop _ _)|]. split; [done|]. destruct Hsd2, Hsd3. split; congruence.
Qed.

(** C6: the buffer cache is a disk.  From a state in which no buffer is
    dirty or held, any sequence of block reads and writes through the cache
    returns, gives what the same sequence gives on a plain map from block
    numbers to blocks, leaves exactly those blocks on the disk, and writes
    to the disk exactly the blocks written, in order. *)
Theorem cache_refines_disk `{fs_layout} c ks s ops :
  on_cpu c ks -> view c s ∅ [] -> Forall (fun op => good_key s (bop_key op)) ops ->
  wp (run_bops ks ops)
     (fun rs s' => view c s' ∅ [] /\ (rs, sectors (dsk s')) = spec_bops (sectors (dsk s)) ops /\
        written (dsk s') = written (dsk s) ++ ops ≫= bop_write) s.
Proof.
  intros Hon. revert s. induction ops as [|op ops IH]; intros s Hv Hg; simpl.
  - wp_steps. by rewrite app_nil_r.
  - apply Forall_cons in Hg as [Hg Hgs]. apply wp_bind. wp_call run_bop_wp; [done..|].
    intros r s1 (Hv1 & E1 & W1 & Hd1). apply wp_bind. wp_call (IH s1); [done| |].
    { eapply Forall_impl; [exact Hgs|]. intros x. by apply good_key_devs. }
    intros rs s2 (Hv2 & E2 & W2). wp_steps. split; [done|]. destruct (spec_bop (sectors (dsk s)) op) as [r' S1].
    injection E1 as -> <-. destruct (spec_bops (sectors (dsk s1)) ops) as [rs' S2]. injection E2 as -> <-.
    split; [done|]. by rewrite W2, W1, <- app_assoc.
Qed.

(** The cache bufcache_init leaves. *)
Lemma fresh_view c s l : cache_inv c s l -> (forall b, 0 <= b < NBUF -> flags (bufs s !!! b) = 0) -> view c s ∅ [].
Proof.
  intros Hinv H0. split.
  - by exists l.
  - intros b Hb. unfold busy. rewrite H0 by done. split; [done|]. intros []%elem_of_nil.
  - intros b []%elem_of_nil.
  - intros k v. rewrite lookup_empty. split; [done|]. intros (b & Hb & _ & _ & Hd & _).
    unfold dirty in Hd. rewrite H0 in Hd by done. done.
Qed.

(** ** A concrete instance: two drives, no request, no buffer in use. *)
Definition demo_boot (D : gmap (Z * Z) mem) : bio :=
  Bio (demo_sched VmmSpec.demo_vm) free_lock NULL 1 (Disk D ∅ ∅ 0 3 []) free_lock ∅.

Lemma demo_boot_io D : io_inv 0 (demo_boot D) [].
Proof.
  split.
  - exists 0, [1; 2]. apply demo_sched_inv.
  - split; unfold W32; simpl; lia.
  - reflexivity.
  - apply NoDup_nil_2.
  - intros b []%elem_of_nil.
  - exact I.
Qed.

Lemma demo_boot_view D :
  wp bufcache_init (fun _ s => view 0 s ∅ [] /\ dsk s = dsk (demo_boot D) /\ havedisk1 s = 1) (demo_boot D).
Proof.
  wp_call (bufcache_init_wp 0 (demo_boot D)); [apply demo_boot_io|reflexivity|reflexivity|].
  intros [] s (Hinv & Hd & Hh & Hf). split; [by eapply fresh_view|done].
Qed.

Lemma demo_good_key s D k : dsk s = dsk (demo_boot D) -> havedisk1 s = 1 ->
  0 <= k.1 <= 1 /\ 0 <= k.2 < 268435456 -> good_key s k.
Proof.
  intros Hd Hh Hk. unfold good_key. rewrite Hd, Hh. split; [lia|]. split; [by right|]. split; [lia|].
  apply not_elem_of_empty.
Qed.

Definition demo_ops : list bop :=
  [BRead (1, 5); BWrite (1, 5) demo_block; BWrite (0, 5) ∅; BRead (1, 5)].

Lemma cache_refines_disk_witness :
  wp (bufcache_init ;; run_bops Pmm.demo_ks demo_ops)
     (fun rs s' => rs = [∅; demo_block; ∅; demo_block] /\
        written (dsk s') = [((1, 5), demo_block); ((0, 5), ∅)]) (demo_boot ∅).
Proof.
  apply wp_bind. eapply wp_mono; [apply demo_boot_view|]. intros [] s (Hv & Hd & Hh).
  eapply wp_mono; [apply (cache_refines_disk 0 Pmm.demo_ks s demo_ops)|].
  - exact demo_on_cpu.
  - exact Hv.
  - apply Forall_forall. intros op Hop. assert (Hk : bop_key op ∈ [(1, 5); (0, 5)]).
    { repeat (apply elem_of_cons in Hop as [->|Hop]; [set_solver|]). by apply elem_of_nil in Hop. }
    apply (demo_good_key s ∅); [exact Hd|exact Hh|].
    repeat (apply elem_of_cons in Hk as [->|Hk]; [simpl; lia|]). by apply elem_of_nil in Hk.
  - intros rs s' (_ & E & W). rewrite Hd in E, W. split; [by injection E|exact W].
Defined.
