(* ===== verification/Log.v ===== *)
(** * The log (kern/fs/log; read_superblock of kern/fs/block)

    A redo log on the disk.  A transaction writes its blocks to the log,
    then the log's header, then the blocks in place, then clears the header.
    The disk records the order of its writes, so a crash is a prefix of
    them: whatever the prefix, log_init leaves on the disk all of the
    transaction or nothing of it. *)

From stdpp Require Import base gmap list numbers.
From S2P Require Import Prelude Lock Mem Thread Queue Sched Ide IdeSpec Bufcache BlockIO.
Import Spinlock.

Definition LOGSIZE : Z := 10.
Definition ROOTDEV : Z := 1.

(** struct superblock and read_superblock *)
Record superblock : Type := Superblock { sb_size : Z; sb_nblocks : Z; sb_ninodes : Z; sb_nlog : Z }.
Definition sb_of (d : mem) : superblock := Superblock (load32 d 0) (load32 d 4) (load32 d 8) (load32 d 12).

(** struct log; the fields of the logheader are [lh_n] and [lh_sector]. *)
Record log : Type := Log {
  log_lock : spinlock_t; log_start : Z; log_size : Z; log_busy : Z; log_dev : Z;
  lh_n : Z; lh_sector : gmap Z Z
}.
Record jfs : Type := Jfs { bi : bio; lg : log }.
Definition l_bi : lens jfs bio := Lens bi (fun x s => Jfs x (lg s)).
Definition l_log_lock : lens jfs spinlock_t := Lens (fun s => log_lock (lg s)) (fun x s =>
  Jfs (bi s) (Log x (log_start (lg s)) (log_size (lg s)) (log_busy (lg s)) (log_dev (lg s))
                  (lh_n (lg s)) (lh_sector (lg s)))).
Definition l_jth : lens jfs thr := lens_comp l_bi l_th.
Definition log_upd (f : log -> log) : K jfs unit := modify (fun s => Jfs (bi s) (f (lg s))).
Definition with_geometry (start size dev : Z) (l : log) : log :=
  Log (log_lock l) start size (log_busy l) dev (lh_n l) (lh_sector l).
Definition with_busy (x : Z) (l : log) : log :=
  Log (log_lock l) (log_start l) (log_size l) x (log_dev l) (lh_n l) (lh_sector l).
Definition with_n (x : Z) (l : log) : log :=
  Log (log_lock l) (log_start l) (log_size l) (log_busy l) (log_dev l) x (lh_sector l).
Definition with_sectors (x : gmap Z Z) (l : log) : log :=
  Log (log_lock l) (log_start l) (log_size l) (log_busy l) (log_dev l) (lh_n l) x.

Section ops.
Context `{fs_layout} (ks : kstack).

Definition read_superblock (dev0 : Z) : K bio superblock :=
  bp ← bufcache_read ks dev0 1;
  x ← deref bp;
  bufcache_release ks bp ;;
  mret (sb_of (data x)).

(** log.lh.sector[i], and the sector of the i-th block of the log. *)
Definition sector_at (i : Z) : K jfs Z :=
  check (in_array i LOGSIZE) ;; gets (fun s => lh_sector (lg s) !!! i).
Definition set_sector_at (i v : Z) : K jfs unit :=
  check (in_array i LOGSIZE) ;; log_upd (fun l => with_sectors (<[i := v]> (lh_sector l)) l).
Definition log_block (i : Z) : K jfs Z :=
  l ← gets lg;
  a ← int_add (log_start l) i;
  a ← int_add a 1;
  mret (u32 a).

(** The body of the loop of install_trans. *)
Definition install_block (tail : Z) : K jfs unit :=
  l ← gets lg;
  a ← log_block tail;
  lbuf ← zoom l_bi (bufcache_read ks (u32 (log_dev l)) a);
  x ← sector_at tail;
  dbuf ← zoom l_bi (bufcache_read ks (u32 (log_dev l)) (u32 x));
  y ← zoom l_bi (deref lbuf);
  zoom l_bi (bupd dbuf (with_data (data y))) ;;
  zoom l_bi (bufcache_write ks dbuf) ;;
  zoom l_bi (bufcache_release ks lbuf) ;;
  zoom l_bi (bufcache_release ks dbuf).
Definition install_trans : K jfs unit :=
  while (fun tail =>
    l ← gets lg;
    if tail <? lh_n l then install_block tail ;; mret (inl (tail + 1)) else mret (inr tt)) 0.

Definition read_head : K jfs unit :=
  l ← gets lg;
  b ← zoom l_bi (bufcache_read ks (u32 (log_dev l)) (u32 (log_start l)));
  x ← zoom l_bi (deref b);
  log_upd (with_n (s32 (load32 (data x) 0))) ;;
  while (fun i =>
    l ← gets lg;
    if i <? lh_n l then
      x ← zoom l_bi (deref b);
      set_sector_at i (s32 (load32 (data x) (4 + 4 * i))) ;;
      mret (inl (i + 1))
    else mret (inr tt)) 0 ;;
  zoom l_bi (bufcache_release ks b).

Definition write_head : K jfs unit :=
  l ← gets lg;
  b ← zoom l_bi (bufcache_read ks (u32 (log_dev l)) (u32 (log_start l)));
  zoom l_bi (bupd b (fun x => with_data (store32 (data x) 0 (lh_n l)) x)) ;;
  while (fun i =>
    l ← gets lg;
    if i <? lh_n l then
      v ← sector_at i;
      zoom l_bi (bupd b (fun x => with_data (store32 (data x) (4 + 4 * i) v) x)) ;;
      mret (inl (i + 1))
    else mret (inr tt)) 0 ;;
  zoom l_bi (bufcache_write ks b) ;;
  zoom l_bi (bufcache_release ks b).

Definition recover_from_log : K jfs unit :=
  read_head ;;
  install_trans ;;
  log_upd (with_n 0) ;;
  write_head.

Definition SIZEOF_LOGHEADER : Z := 4 + 4 * LOGSIZE.
Definition log_init : K jfs unit :=
  (if BSIZE <=? SIZEOF_LOGHEADER then panic else mret tt) ;;
  zoom l_log_lock spinlock_init ;;
  sb ← zoom l_bi (read_superblock ROOTDEV);
  log_upd (with_geometry (s32 (u32 (sb_size sb - sb_nlog sb))) (s32 (sb_nlog sb)) ROOTDEV) ;;
  recover_from_log.

(** The loop that sleeps while a transaction is active is [Spin]. *)
Definition begin_trans : K jfs unit :=
  zoom l_log_lock (spinlock_acquire ks) ;;
  l ← gets lg;
  (if negb (log_busy l =? 0) then spin else mret tt) ;;
  log_upd (with_busy 1) ;;
  zoom l_log_lock spinlock_release.

Definition commit_trans : K jfs unit :=
  l ← gets lg;
  (if 0 <? lh_n l then
     write_head ;;
     install_trans ;;
     log_upd (with_n 0) ;;
     write_head
   else mret tt) ;;
  zoom l_log_lock (spinlock_acquire ks) ;;
  log_upd (with_busy 0) ;;
  zoom l_jth (thread_wakeup ks log_addr) ;;
  zoom l_log_lock spinlock_release.

(** The loop of log_write: the slot of the sector in the log, or a new one. *)
Definition find_slot (sec : Z) : K jfs Z :=
  while (fun i =>
    l ← gets lg;
    if i <? lh_n l then
      v ← sector_at i;
      if u32 v =? sec then mret (inr i) else mret (inl (i + 1))
    else mret (inr i)) 0.

Definition log_write (b : Z) : K jfs unit :=
  l ← gets lg;
  (if LOGSIZE <=? lh_n l then panic
   else m ← int_add (log_size l) (-1); if m <=? lh_n l then panic else mret tt) ;;
  (if log_busy l =? 0 then panic else mret tt) ;;
  x ← zoom l_bi (deref b);
  i ← find_slot (sector x);
  set_sector_at i (s32 (sector x)) ;;
  a ← log_block i;
  lbuf ← zoom l_bi (bufcache_read ks (dev x) a);
  y ← zoom l_bi (deref b);
  zoom l_bi (bupd lbuf (with_data (data y))) ;;
  zoom l_bi (bufcache_write ks lbuf) ;;
  zoom l_bi (bufcache_release ks lbuf) ;;
  n ← gets (fun s => lh_n (lg s));
  (if i =? n then log_upd (with_n (n + 1)) else mret tt) ;;
  zoom l_bi (bupd b (fun x => with_flags (Z.lor (flags x) B_DIRTY) x)).
End ops.
