(* ===== verification/LogSpec.v ===== *)
(** * Transactions are atomic

    Specifications of the log's operations and the crash theorem. *)

From stdpp Require Import base gmap list numbers.
From S2P Require Import Prelude Lock Mem Thread Queue Sched Ide IdeSpec Bufcache BlockIO Log.
Import Spinlock.

Abbreviation blocks := (gmap (Z * Z) mem).
Abbreviation writes := (list ((Z * Z) * mem)).

(** ** Sequences of writes *)
Definition apply_writes (D : blocks) (W : writes) : blocks := foldl (fun D kv => <[kv.1 := kv.2]> D) D W.
Definition do_writes (W : writes) (st : store) : store := (apply_writes st.1 W, st.2 ++ W).

Lemma apply_writes_app D W W' : apply_writes D (W ++ W') = apply_writes (apply_writes D W) W'.
Proof. apply foldl_app. Qed.
Lemma do_writes_app W W' st : do_writes (W ++ W') st = do_writes W' (do_writes W st).
Proof. unfold do_writes. simpl. by rewrite apply_writes_app, app_assoc. Qed.
Lemma do_writes_nil st : do_writes [] st = st.
Proof. unfold do_writes. rewrite app_nil_r. by destruct st. Qed.
Lemma do_writes_one k v st : do_writes [(k, v)] st = (<[k := v]> st.1, st.2 ++ [(k, v)]).
Proof. done. Qed.

Lemma apply_writes_other D W k : k ∉ W.*1 -> apply_writes D W !!! k = D !!! k.
Proof.
  revert D. induction W as [|[k' v] W IH]; intros D Hk; [done|].
  apply not_elem_of_cons in Hk as [Hk1 Hk2]. simpl. rewrite IH by done. by rewrite lookup_total_insert_ne.
Qed.

(** A write sequence overwrites what it writes. *)
Lemma apply_writes_over A B W k : A !!! k = B !!! k \/ k ∈ W.*1 ->
  apply_writes A W !!! k = apply_writes B W !!! k.
Proof.
  revert A B. induction W as [|[k' v] W IH]; intros A B Hk; simpl.
  - destruct Hk as [|[]%elem_of_nil]; done.
  - apply IH. destruct (decide (k = k')) as [->|Hne].
    + left. by rewrite !lookup_total_insert_eq.
    + destruct Hk as [Hk|[->|Hk]%elem_of_cons]; [left|done|by right].
      by rewrite !lookup_total_insert_ne.
Qed.

Lemma apply_writes_absorb D W W' k : W'.*1 ⊆ W.*1 ->
  apply_writes (apply_writes D W') W !!! k = apply_writes D W !!! k.
Proof.
  intros Hs. apply apply_writes_over. destruct (decide (k ∈ W.*1)) as [|Hk]; [by right|left].
  apply apply_writes_other. intros Hk'. by apply Hk, Hs.
Qed.

(** ** The log on the disk

    [st] is the first of the [sz] blocks of the log. *)
Section geometry.
Context (st sz : Z).

Record geometry : Prop := {
  geo_st : 2 <= st;
  geo_sz : 1 < sz;
  geo_end : st + sz < 268435456
}.
(** The superblock gives these numbers. *)
Definition sb_ok (D : blocks) : Prop :=
  sb_size (sb_of (D !!! (ROOTDEV, 1))) = st + sz /\ sb_nlog (sb_of (D !!! (ROOTDEV, 1))) = sz.

(** A block the log may hold: not of the log, and not the superblock. *)
Definition home (x : Z) : Prop := 0 <= x < st /\ x <> 1.
(** A block that is not part of the log. *)
Definition outside (k : Z * Z) : Prop := ~ (k.1 = ROOTDEV /\ st <= k.2 < st + sz).
Definition agree (D D' : blocks) : Prop := forall k, outside k -> D !!! k = D' !!! k.

Lemma home_outside x : home x -> outside (ROOTDEV, x).
Proof. unfold home, outside. simpl. lia. Qed.

(** The header on the disk lists the sectors [ls]. *)
Record logged (D : blocks) (ls : list Z) : Prop := {
  lo_n : load32 (D !!! (ROOTDEV, st)) 0 = Z.of_nat (length ls);
  lo_sector : forall i x, ls !! i = Some x -> load32 (D !!! (ROOTDEV, st)) (4 + 4 * Z.of_nat i) = x;
  lo_home : forall x, x ∈ ls -> home x;
  lo_len : Z.of_nat (length ls) <= LOGSIZE /\ Z.of_nat (length ls) < sz
}.
(** What installing them writes. *)
Definition installs (D : blocks) (ls : list Z) : writes :=
  imap (fun i x => ((ROOTDEV, x), D !!! (ROOTDEV, st + 1 + Z.of_nat i))) ls.

Lemma installs_keys D ls : (installs D ls).*1 = (fun x => (ROOTDEV, x)) <$> ls.
Proof. unfold installs. rewrite fmap_imap. by rewrite <- imap_const. Qed.
Lemma installs_length D ls : length (installs D ls) = length ls.
Proof. apply length_imap. Qed.
Lemma installs_lookup D ls i x : ls !! i = Some x ->
  installs D ls !! i = Some ((ROOTDEV, x), D !!! (ROOTDEV, st + 1 + Z.of_nat i)).
Proof. intros E. unfold installs. by rewrite list_lookup_imap, E. Qed.

Lemma installs_take_keys D ls i kv : kv ∈ (take i (installs D ls)).*1 -> exists x, x ∈ ls /\ kv = (ROOTDEV, x).
Proof.
  rewrite fmap_take, installs_keys. intros Hk. apply (subseteq_take i) in Hk. apply list_elem_of_fmap in Hk as (x & -> & Hx). eauto.
Qed.

(** The disk [D] recovers to [X]: this is what recovery writes in place. *)
Definition recovers (D X : blocks) : Prop :=
  sb_ok D /\ exists ls, logged D ls /\ agree (apply_writes D (installs D ls)) X.

Context (Hgeo : geometry).

Lemma logged_ext D D' ls : D' !!! (ROOTDEV, st) = D !!! (ROOTDEV, st) -> logged D ls -> logged D' ls.
Proof. intros E [H1 H2 H3 H4]. split; rewrite ?E; done. Qed.

Lemma installs_ext D D' ls :
  (forall i, 0 <= i < Z.of_nat (length ls) -> D' !!! (ROOTDEV, st + 1 + i) = D !!! (ROOTDEV, st + 1 + i)) ->
  installs D' ls = installs D ls.
Proof.
  intros E. apply list_eq. intros i. unfold installs. rewrite !list_lookup_imap.
  destruct (ls !! i) as [x|] eqn:Ei; [|done]. simpl. apply lookup_lt_Some in Ei. rewrite E by lia. done.
Qed.

(** Installing changes neither the log nor the superblock. *)
Lemma install_keeps D ls i x : (forall x, x ∈ ls -> home x) -> (x = 1 \/ st <= x) ->
  apply_writes D (take i (installs D ls)) !!! (ROOTDEV, x) = D !!! (ROOTDEV, x).
Proof.
  intros Hh Hx. apply apply_writes_other. intros (y & Hy & E)%installs_take_keys.
  injection E as ->. apply Hh in Hy. unfold home in Hy. lia.
Qed.

Lemma recovers_prefix D ls X i : sb_ok D -> logged D ls -> agree (apply_writes D (installs D ls)) X ->
  recovers (apply_writes D (take i (installs D ls))) X.
Proof.
  intros Hsb Hl Ha. pose proof (lo_home _ _ Hl) as Hh. pose proof Hgeo as [G1 G2 G3]. split.
  - unfold sb_ok. rewrite install_keeps by auto. done.
  - exists ls. split; [eapply logged_ext; [|exact Hl]; apply install_keeps; [done|lia]|].
    rewrite (installs_ext D (apply_writes D (take i (installs D ls)))) by (intros; apply install_keeps; [done|lia]).
    intros k Hk. rewrite <- (Ha k Hk). apply apply_writes_absorb. rewrite fmap_take. intros y. apply subseteq_take.
Qed.

Lemma recovers_idle D : sb_ok D -> logged D [] -> recovers D D.
Proof. intros Hsb Hl. split; [done|]. exists []. done. Qed.

Lemma recovers_agree D X Y : recovers D X -> agree X Y -> recovers D Y.
Proof.
  intros (Hsb & ls & Hl & Ha) Hxy. split; [done|]. exists ls. split; [done|].
  intros k Hk. by rewrite Ha, Hxy.
Qed.

(** ** The log in memory *)
Definition lh_is (l : log) (ls : list Z) : Prop :=
  lh_n l = Z.of_nat (length ls) /\ forall i x, ls !! i = Some x -> lh_sector l !!! Z.of_nat i = x.

Record jgeo (s : jfs) : Prop := {
  jg_start : log_start (lg s) = st;
  jg_size : log_size (lg s) = sz;
  jg_dev : log_dev (lg s) = ROOTDEV;
  jg_lock : lock (log_lock (lg s)) = 0;
  jg_good : forall x, 0 <= x < st + sz -> good_key (bi s) (ROOTDEV, x)
}.

Lemma jgeo_bi s b : jgeo s -> same_devs (bi s) b -> jgeo (Jfs b (lg s)).
Proof. intros [H1 H2 H3 H4 H5] Hd. split; try done. intros x Hx. eapply good_key_devs; [exact Hd|]. by apply H5. Qed.

Lemma jgeo_lg s l : jgeo s -> log_start l = st -> log_size l = sz -> log_dev l = ROOTDEV ->
  lock (log_lock l) = 0 -> jgeo (Jfs (bi s) l).
Proof. intros [H1 H2 H3 H4 H5]. by split. Qed.

Section ops.
Context `{fs_layout} (c : Z) (ks : kstack) (Hon : on_cpu c ks).

Lemma log_block_eq s i : jgeo s -> 0 <= i < sz - 1 -> log_block i s = Ok (st + 1 + i) s.
Proof.
  intros [G1 _ _ _ _] Hi. pose proof Hgeo as [? ? ?]. unfold log_block, int_add. krun. rewrite G1. zbool.
  simpl. krun. zbool. simpl. rewrite u32_small by (unfold W32; lia). f_equal. lia.
Qed.

(** Reading, and reading the header, in a state with no pinned block. *)
Lemma read_head_wp s ls : view c (bi s) ∅ [] -> jgeo s -> logged (sectors (dsk (bi s))) ls ->
  wp (read_head ks)
     (fun _ s' => view c (bi s') ∅ [] /\ jgeo s' /\ store_of (dsk (bi s')) = store_of (dsk (bi s)) /\
        lh_is (lg s') ls /\ log_busy (lg s') = log_busy (lg s)) s.
Proof.
  intros Hv Hg Hl. pose proof Hgeo as [? ? ?]. pose proof Hg as [G1 G2 G3 G4 G5].
  unfold read_head, set_sector_at, log_upd.
  wp_steps. rewrite G3, G1. change (u32 ROOTDEV) with ROOTDEV. rewrite u32_small by (unfold W32; lia).
  wp_call (view_read c ks (bi s) ∅ [] (ROOTDEV, st)); [done|done|apply G5; lia|set_solver|by right|].
  intros b s1 (Hv1 & _ & Hb1 & _ & Hst1 & Hd1). rewrite delete_empty in Hv1.
  pose proof Hb1 as [Hr _ Hdat _ _ _]. unfold block in Hdat. rewrite lookup_empty in Hdat. simpl.
  pose proof Hl as [Hn Hsec Hh [Hlen1 Hlen2]]. unfold LOGSIZE in *. set (d := sectors (dsk (bi s)) !!! (ROOTDEV, st)) in *.
  fold d in Hdat.
  apply wp_bind, wp_zoom. eapply wp_of_eq; [apply deref_eq; lia|]. wp_steps. cbn [lg bi]. rewrite Hdat, Hn.
  rewrite s32_small by lia.
  apply (wp_while _ (fun i s' => exists l, s' = Jfs s1 l /\ jgeo s' /\ log_busy l = log_busy (lg s) /\
      lh_n l = Z.of_nat (length ls) /\ 0 <= i <= Z.of_nat (length ls) /\
      forall j x, ls !! j = Some x -> Z.of_nat j < i -> lh_sector l !!! Z.of_nat j = x)
    (fun i _ => Z.of_nat (length ls) - i)); [| |lia].
  - intros i s' (l & -> & Hgl & Hbu & Hln & Hi & Hs) _. wp_steps. cbn [lg bi]. rewrite Hln.
    apply wp_if; intros E; apply Z.ltb_lt in E || apply Z.ltb_ge in E.
    + wp_steps. eapply wp_of_eq; [apply deref_eq; lia|]. wp_steps.
      split; [|lia]. eexists. split; [done|]. cbn [lg bi]. split; [by apply (jgeo_lg (Jfs s1 l)); destruct Hgl|].
      split; [done|]. split; [done|]. split; [lia|]. intros j x Hj Hji.
      destruct (decide (Z.of_nat j = i)) as [<-|Hne].
      * rewrite Hdat, (Hsec j x Hj). simpl. rewrite lookup_total_insert_eq. apply s32_small.
        assert (home x) as [? _] by (apply Hh; by eapply list_elem_of_lookup_2). lia.
      * simpl. rewrite lookup_total_insert_ne by done. apply Hs; [done|lia].
    + wp_steps. cbn [lg bi].
      wp_call (view_release c ks s1 ∅ [] b (ROOTDEV, st) (data (bufs s1 !!! b)) false);
        [done|done|set_solver| | |].
      { by rewrite Hdat. }
      { intros _. rewrite Hdat. by injection Hst1 as -> _. }
      intros [] s2 (Hv2 & _ & Hd2 & Hsd2). split; [done|]. split; [by apply (jgeo_bi (Jfs s1 l))|].
      split; [by rewrite Hd2|]. split; [|done]. split; [done|]. intros j x Hj. apply Hs; [done|].
      apply lookup_lt_Some in Hj. lia.
  - eexists. split; [done|]. cbn [lg bi]. split; [|split; [done|split; [done|split; [lia|intros; lia]]]].
    apply (jgeo_lg (Jfs s1 (lg s))); [|by destruct Hg..]. by apply jgeo_bi.
Qed.

(** Writing the header is one write of a block that lists [ls]. *)
Lemma write_head_wp s ls pins : view c (bi s) pins [] -> jgeo s -> lh_is (lg s) ls ->
  (forall x, x ∈ ls -> home x) -> Z.of_nat (length ls) <= LOGSIZE -> pins !! (ROOTDEV, st) = None ->
  Z.of_nat (size pins) < NBUF ->
  wp (write_head ks)
     (fun _ s' => view c (bi s') pins [] /\ jgeo s' /\ lg s' = lg s /\
        exists v, store_of (dsk (bi s')) = do_writes [((ROOTDEV, st), v)] (store_of (dsk (bi s))) /\
          load32 v 0 = Z.of_nat (length ls) /\
          forall i x, ls !! i = Some x -> load32 v (4 + 4 * Z.of_nat i) = x) s.
Proof.
  intros Hv Hg [Hn Hsec] Hh Hlen Hp Hroom. pose proof Hgeo as [? ? ?]. pose proof Hg as [G1 G2 G3 G4 G5].
  unfold write_head, sector_at, LOGSIZE in *. wp_steps. rewrite G3, G1. change (u32 ROOTDEV) with ROOTDEV.
  rewrite u32_small by (unfold W32; lia).
  wp_call (view_read c ks (bi s) pins [] (ROOTDEV, st)); [done|done|apply G5; lia|set_solver|by right; simpl; lia|].
  intros b s1 (Hv1 & _ & Hb1 & _ & Hst1 & Hd1). rewrite delete_id in Hv1 by done. wp_steps. cbn [bi lg].
  rewrite (bool_decide_eq_false_2 (is_Some (pins !! (ROOTDEV, st)))) in Hb1 by (rewrite Hp; by intros [? ?]).
  wp_call (view_upd_data c s1 pins [b] b _ _ _ (fun d => store32 d 0 (lh_n (lg s)))); [done|set_solver|done|].
  intros [] s2 (Hv2 & Hb2 & _ & Hd2 & Hsd2).
  wp_steps. apply (wp_while _ (fun i s' => exists b', s' = Jfs b' (lg s) /\ exists v, view c b' pins [b] /\
      held_block b' b (ROOTDEV, st) v false /\ dsk b' = dsk s1 /\ same_devs s1 b' /\
      load32 v 0 = Z.of_nat (length ls) /\ 0 <= i <= Z.of_nat (length ls) /\
      forall j x, ls !! j = Some x -> Z.of_nat j < i -> load32 v (4 + 4 * Z.of_nat j) = x)
    (fun i _ => Z.of_nat (length ls) - i)); [| |lia].
  - intros i s' (b' & -> & v & Hv' & Hb' & Hd' & Hsd' & Hv0 & Hi & Hvs) _. wp_steps. cbn [lg bi]. rewrite Hn.
    apply wp_if; intros E; apply Z.ltb_lt in E || apply Z.ltb_ge in E.
    + wp_steps. cbn [lg bi].
      set (x := lh_sector (lg s) !!! i).
      wp_call (view_upd_data c b' pins [b] b _ v _ (fun d => store32 d (4 + 4 * i) x)); [done|set_solver|done|].
      intros [] b3 (Hv3 & Hb3 & _ & Hd3 & Hsd3). wp_steps. split; [|lia]. exists b3. split; [done|].
      eexists. split; [done|]. split; [done|]. split; [congruence|]. split; [destruct Hsd', Hsd3; split; congruence|].
      split; [by rewrite load32_store32_ne by lia|]. split; [lia|]. intros j y Hj Hji.
      destruct (decide (Z.of_nat j = i)) as [<-|Hne].
      * assert (x = y) as -> by (by apply Hsec). apply load32_store32_same.
        assert (home y) as [? _] by (apply Hh; by eapply list_elem_of_lookup_2). unfold is_u32, W32. lia.
      * rewrite load32_store32_ne by lia. apply Hvs; [done|lia].
    + wp_steps. cbn [lg bi]. wp_call (view_write c ks b' pins [b] b); [done|done|set_solver|done|].
      intros [] b4 (Hv4 & Hb4 & _ & Hst4 & Hsd4). wp_steps. cbn [lg bi].
      wp_call (view_release c ks b4 pins [] b (ROOTDEV, st) v false); [done|done|set_solver|done| |].
      { intros _. injection Hst4 as -> _. by rewrite lookup_total_insert_eq. }
      intros [] b5 (Hv5 & _ & Hd5 & Hsd5). split; [done|].
      split; [apply jgeo_bi; [done|]; destruct Hd1, Hsd', Hsd4, Hsd5; split; congruence|]. split; [done|].
      exists v. rewrite Hd5, Hst4, Hd'. injection Hst1 as -> ->. split; [done|]. split; [done|].
      intros j x Hj. apply Hvs; [done|]. apply lookup_lt_Some in Hj. lia.
  - exists s2. split; [done|]. eexists. split; [done|]. split; [done|]. split; [done|]. split; [done|].
    rewrite Hn. split; [apply load32_store32_same; unfold is_u32, W32; lia|].
    split; [lia|]. intros; lia.
Qed.

(** Copying one block of the log to its home [x], which may be pinned. *)
Lemma install_block_wp s pins i x : view c (bi s) pins [] -> jgeo s -> 0 <= i < sz - 1 -> i < LOGSIZE -> home x ->
  lh_sector (lg s) !!! i = x -> pins !! (ROOTDEV, st + 1 + i) = None -> Z.of_nat (size pins) < NBUF ->
  is_Some (pins !! (ROOTDEV, x)) \/ Z.of_nat (size pins) + 1 < NBUF ->
  let v := sectors (dsk (bi s)) !!! (ROOTDEV, st + 1 + i) in
  wp (install_block ks i)
     (fun _ s' => view c (bi s') (delete (ROOTDEV, x) pins) [] /\ jgeo s' /\ lg s' = lg s /\
        store_of (dsk (bi s')) = do_writes [((ROOTDEV, x), v)] (store_of (dsk (bi s)))) s.
Proof.
  intros Hv Hg Hi Hil Hx Hsec Hpa Hr1 Hr2 v. pose proof Hg as [_ _ G3 _ G5]. pose proof Hx as [Hx0 Hx1].
  pose proof Hgeo as [? ? ?]. unfold LOGSIZE in Hil. unfold install_block, sector_at. apply wp_bind, wp_gets, wp_bind.
  eapply wp_of_eq; [by apply log_block_eq|]. rewrite G3. change (u32 ROOTDEV) with ROOTDEV.
  set (a := st + 1 + i) in *. assert (Ha : st < a < st + sz) by lia.
  assert (Hne : (ROOTDEV, x) <> (ROOTDEV, a)) by (intros E; injection E; lia).
  wp_steps. wp_call (view_read c ks (bi s) pins [] (ROOTDEV, a));
    [done|done|apply G5; lia|set_solver|by right; simpl; lia|].
  intros lb s1 (Hv1 & _ & Hb1 & _ & Hst1 & Hd1). rewrite delete_id in Hv1 by done.
  unfold block in Hb1. rewrite Hpa in Hb1. rewrite bool_decide_eq_false_2 in Hb1 by (by intros [? ?]).
  wp_steps; [unfold in_array, LOGSIZE; lia|]. cbn [bi lg]. rewrite Hsec, u32_small by (unfold W32; lia).
  wp_call (view_read c ks s1 pins [lb] (ROOTDEV, x)); [done|done| | |by simpl|].
  { eapply good_key_devs; [exact Hd1|]. apply G5. lia. }
  { intros b' ->%list_elem_of_singleton. destruct Hb1 as [_ -> _ _ _ _]. congruence. }
  intros db s2 (Hv2 & Hdl & Hb2 & Hpay2 & Hst2 & Hd2). wp_steps. cbn [bi lg].
  apply (held_pay s1 s2) in Hb1; [|apply Hpay2; set_solver]. pose proof Hb1 as [Hlr _ Hldat _ _ _].
  assert (Hld : lb <> db) by set_solver.
  eapply wp_of_eq; [apply deref_eq; lia|]. rewrite Hldat. fold v. wp_steps. cbn [bi lg].
  wp_call (view_set_data c s2); [done|set_solver|done|]. intros [] s3 (Hv3 & Hb3 & Hpay3 & Hdk3 & Hd3).
  apply (held_pay s2 s3) in Hb1; [|auto]. wp_steps. cbn [bi lg].
  wp_call (view_write c ks s3); [done|done| |done|]; [set_solver|]. intros [] s4 (Hv4 & Hb4 & Hpay4 & Hst4 & Hd4).
  apply (held_pay s3 s4) in Hb1; [|auto]. wp_steps. cbn [bi lg].
  assert (E4 : store_of (dsk s4) = do_writes [((ROOTDEV, x), v)] (store_of (dsk (bi s)))).
  { rewrite Hst4, Hdk3. unfold store_of in Hst1, Hst2. injection Hst1 as Hq1 Hw1. injection Hst2 as Hq2 Hw2.
    rewrite Hq2, Hw2, Hq1, Hw1. done. }
  clear Hst4. injection E4 as Hs4 Hw4. apply (view_perm _ _ _ _ [lb; db]) in Hv4; [|apply Permutation_swap].
  wp_call (view_release c ks s4 _ [db] lb); [done|done|set_solver|done| |].
  { intros _. rewrite Hs4. rewrite lookup_total_insert_ne by done. done. }
  intros [] s5 (Hv5 & Hpay5 & Hdk5 & Hd5). apply (held_pay s4 s5) in Hb4; [|auto]. wp_steps. cbn [bi lg].
  wp_call (view_release c ks s5 _ [] db); [done|done|set_solver|done| |].
  { intros _. rewrite Hdk5, Hs4. by rewrite lookup_total_insert_eq. }
  intros [] s6 (Hv6 & _ & Hdk6 & Hd6). split; [done|]. split; [|split; [done|]].
  - apply jgeo_bi; [done|]. destruct Hd1, Hd2, Hd3, Hd4, Hd5, Hd6. split; congruence.
  - rewrite Hdk6, Hdk5. unfold store_of. by rewrite Hs4, Hw4.
Qed.

(** install_trans writes every logged block in place and unpins it. *)
Lemma install_trans_wp s ls pins : view c (bi s) pins [] -> jgeo s -> lh_is (lg s) ls ->
  (forall x, x ∈ ls -> home x) -> Z.of_nat (length ls) <= LOGSIZE /\ Z.of_nat (length ls) < sz ->
  Z.of_nat (size pins) < NBUF -> (forall k, is_Some (pins !! k) -> exists x, x ∈ ls /\ k = (ROOTDEV, x)) ->
  (pins = ∅ \/ NoDup ls /\ forall x, x ∈ ls -> is_Some (pins !! (ROOTDEV, x))) ->
  wp (install_trans ks)
     (fun _ s' => view c (bi s') ∅ [] /\ jgeo s' /\ lg s' = lg s /\
        store_of (dsk (bi s')) = do_writes (installs (sectors (dsk (bi s))) ls) (store_of (dsk (bi s)))) s.
Proof.
  intros Hv Hg [Hn Hsec] Hh [Hlen1 Hlen2] Hr Hpk Hpin. pose proof Hgeo as [? ? ?]. unfold LOGSIZE in Hlen1.
  set (D := sectors (dsk (bi s))). unfold install_trans.
  apply (wp_while _ (fun i s' => exists b P, s' = Jfs b (lg s) /\ view c b P [] /\ jgeo s' /\
      0 <= i <= Z.of_nat (length ls) /\ Z.of_nat (size P) <= Z.of_nat (size pins) /\
      (forall k, P !! k = if decide (k ∈ (fun x => (ROOTDEV, x)) <$> take (Z.to_nat i) ls) then None else pins !! k) /\
      store_of (dsk b) = do_writes (take (Z.to_nat i) (installs D ls)) (store_of (dsk (bi s))))
    (fun i _ => Z.of_nat (length ls) - i)); [| |lia].
  - intros i s' (b & P & -> & Hv' & Hg' & Hi & Hsz & HP & Hst) _. wp_steps. cbn [bi lg]. rewrite Hn.
    apply wp_if; intros E; apply Z.ltb_lt in E || apply Z.ltb_ge in E.
    + destruct (lookup_lt_is_Some_2 ls (Z.to_nat i) ltac:(lia)) as [x Hx].
      assert (Hhx : home x) by (apply Hh; by eapply list_elem_of_lookup_2).
      assert (Hsx : lh_sector (lg s) !!! i = x) by (rewrite <- (Hsec _ _ Hx); f_equal; lia).
      assert (HPa : forall a, st <= a -> P !! (ROOTDEV, a) = None).
      { intros a Ha. rewrite HP. case_decide; [done|]. destruct (pins !! (ROOTDEV, a)) eqn:Ep; [|done].
        destruct (Hpk _ ltac:(by eexists)) as (y & Hy & Ey). injection Ey as ->. apply Hh in Hy. unfold home in Hy. lia. }
      apply wp_bind. wp_call (install_block_wp (Jfs b (lg s)) P i x); try done; [lia|unfold LOGSIZE; lia|apply HPa; lia|lia| |].
      { destruct Hpin as [->|[Hnd Hpx]]; [right; rewrite map_size_empty in Hsz; unfold NBUF; lia|left].
        rewrite HP, decide_False; [by eapply Hpx, list_elem_of_lookup_2|].
        intros (y & Ey & Hy)%list_elem_of_fmap. injection Ey as <-. apply list_elem_of_lookup in Hy as (j & Hj).
        apply lookup_take_Some in Hj as [Hj Hji]. pose proof (NoDup_lookup _ _ _ _ Hnd Hj Hx). lia. }
      intros [] s2 (Hv2 & Hg2 & Hl2 & Hst2). wp_steps. split; [|lia]. exists (bi s2), (delete (ROOTDEV, x) P).
      replace (Z.to_nat (i + 1)) with (S (Z.to_nat i)) by lia. cbn [bi lg] in *.
      split; [destruct s2; simpl in *; by subst|]. split; [done|]. split; [done|]. split; [lia|].
      split; [etrans; [|exact Hsz]; apply Nat2Z.inj_le, map_subseteq_size, delete_subseteq|].
      rewrite (take_S_r _ _ _ Hx), (take_S_r _ _ _ (installs_lookup D _ _ _ Hx)), do_writes_app, <- Hst. split.
      * intros k. destruct (decide (k = (ROOTDEV, x))) as [->|Hk].
        -- rewrite lookup_delete_eq, decide_True; [done|]. rewrite fmap_app. set_solver.
        -- rewrite lookup_delete_ne, HP by done. rewrite fmap_app.
           apply decide_ext. rewrite elem_of_app. set_solver.
      * rewrite Hst2. do 3 f_equal. apply (f_equal fst) in Hst. simpl in Hst. rewrite Hst.
        rewrite Z2Nat.id by lia. apply install_keeps; [done|lia].
    + wp_steps. cbn [bi lg]. rewrite !take_ge in Hst by (rewrite ?installs_length; lia).
      split; [|done]. replace (∅ : blocks) with P; [done|]. apply map_eq. intros k. rewrite HP, lookup_empty.
      rewrite take_ge by lia. case_decide as Hk; [done|]. destruct (pins !! k) eqn:Ep; [|done].
      destruct (Hpk k ltac:(by eexists)) as (y & Hy & ->). destruct Hk. by apply list_elem_of_fmap_2.
  - exists (bi s), pins. split; [by destruct s|]. split; [done|]. split; [done|]. split; [lia|]. split; [lia|].
    split; [done|]. simpl. unfold do_writes. simpl. by rewrite app_nil_r.
Qed.

(** ** Recovery *)
Lemma recover_wp s ls : view c (bi s) ∅ [] -> jgeo s -> logged (sectors (dsk (bi s))) ls ->
  wp (recover_from_log ks)
     (fun _ s' => view c (bi s') ∅ [] /\ jgeo s' /\ lh_n (lg s') = 0 /\ log_busy (lg s') = log_busy (lg s) /\
        exists v, load32 v 0 = 0 /\ store_of (dsk (bi s')) =
          do_writes (installs (sectors (dsk (bi s))) ls ++ [((ROOTDEV, st), v)]) (store_of (dsk (bi s)))) s.
Proof.
  intros Hv Hg Hl. pose proof Hl as [_ _ Hh Hlen]. unfold recover_from_log. apply wp_bind.
  wp_call read_head_wp; [done..|]. intros [] s1 (Hv1 & Hg1 & Hst1 & Hlh1 & Hb1). apply wp_bind.
  wp_call (install_trans_wp s1 ls ∅); [done..|by intros k [? []%lookup_empty_Some]|by left|].
  intros [] s2 (Hv2 & Hg2 & Hlg2 & Hst2). unfold log_upd. wp_steps.
  wp_call (write_head_wp _ [] ∅); [done| |done|by intros ? []%elem_of_nil|done|done|done|].
  { apply (jgeo_lg s2); by destruct Hg2. }
  intros [] s3 (Hv3 & Hg3 & Hlg3 & v & Hst3 & Hv0 & _). split; [done|]. split; [done|]. rewrite Hlg3. split; [done|].
  split; [simpl; by rewrite Hlg2|]. exists v. split; [done|]. simpl in Hst3. rewrite Hst3, Hst2.
  injection Hst1 as Hq1 Hw1. unfold store_of. rewrite Hq1, Hw1. by rewrite do_writes_app.
Qed.

Lemma read_superblock_wp s pins held : view c s pins held -> good_key s (ROOTDEV, 1) ->
  (forall b, b ∈ held -> key (bufs s !!! b) <> (ROOTDEV, 1)) -> pins !! (ROOTDEV, 1) = None ->
  Z.of_nat (size pins) + Z.of_nat (length held) < NBUF ->
  wp (read_superblock ks ROOTDEV)
     (fun sb s' => sb = sb_of (sectors (dsk s) !!! (ROOTDEV, 1)) /\ view c s' pins held /\
        (forall a, a ∈ held -> pay (bufs s' !!! a) = pay (bufs s !!! a)) /\
        store_of (dsk s') = store_of (dsk s) /\ same_devs s s') s.
Proof.
  intros Hv Hg Hh Hp Hr. unfold read_superblock. apply wp_bind.
  wp_call (view_read c ks s pins held (ROOTDEV, 1)); [done|done|done|done|by right|].
  intros b s1 (Hv1 & Hbh & Hb1 & Hpay1 & Hst1 & Hd1). rewrite delete_id in Hv1 by done.
  unfold block in Hb1. rewrite Hp in Hb1. rewrite bool_decide_eq_false_2 in Hb1 by (by intros [? ?]).
  pose proof Hb1 as [Hr1 _ Hdat _ _ _]. apply wp_bind. eapply wp_of_eq; [apply deref_eq; lia|]. apply wp_bind.
  wp_call (view_release c ks s1 pins held b); [done|done|done|done|by injection Hst1 as -> _|].
  intros [] s2 (Hv2 & Hpay2 & Hdk2 & Hd2). wp_steps. rewrite Hdat. split; [done|]. split; [done|].
  split; [|split; [by rewrite Hdk2|destruct Hd1, Hd2; split; congruence]].
  intros a Ha. rewrite Hpay2, Hpay1; [done..|]. by intros ->.
Qed.

(** Between transactions. *)
Record idle_log (s : jfs) : Prop := {
  id_view : view c (bi s) ∅ [];
  id_geo : jgeo s;
  id_n : lh_n (lg s) = 0;
  id_busy : log_busy (lg s) = 0;
  id_sb : sb_ok (sectors (dsk (bi s)));
  id_logged : logged (sectors (dsk (bi s))) []
}.
(** After boot: the cache is initialised, the log is not. *)
Record booted (s : jfs) : Prop := {
  bo_view : view c (bi s) ∅ [];
  bo_busy : log_busy (lg s) = 0;
  bo_good : forall x, 0 <= x < st + sz -> good_key (bi s) (ROOTDEV, x)
}.

Lemma logged_nil D v : load32 v 0 = 0 -> logged (<[(ROOTDEV, st) := v]> D) [].
Proof.
  intros Hv. pose proof Hgeo as [? ? ?]. split; [by rewrite lookup_total_insert_eq|done|by intros ? []%elem_of_nil|].
  unfold LOGSIZE. simpl. lia.
Qed.
Lemma sb_ok_insert D x v : x <> 1 -> sb_ok D -> sb_ok (<[(ROOTDEV, x) := v]> D).
Proof. intros Hx. unfold sb_ok. rewrite lookup_total_insert_ne by congruence. done. Qed.
Lemma agree_insert_log D X v : agree D X -> agree (<[(ROOTDEV, st) := v]> D) X.
Proof.
  intros Ha k Hk. pose proof Hgeo as [? ? ?]. rewrite lookup_total_insert_ne; [by apply Ha|].
  intros <-. apply Hk. simpl. lia.
Qed.

(** What recovery writes, cut anywhere, still recovers to the same. *)
Lemma recovery_writes D ls v X : sb_ok D -> logged D ls -> load32 v 0 = 0 ->
  agree (apply_writes D (installs D ls)) X ->
  let W := installs D ls ++ [((ROOTDEV, st), v)] in
  logged (apply_writes D W) [] /\ sb_ok (apply_writes D W) /\ agree (apply_writes D W) X /\
  forall i, recovers (apply_writes D (take i W)) X.
Proof.
  intros Hsb Hl Hv Ha W. pose proof Hgeo as [? ? ?].
  assert (E : apply_writes D W = <[(ROOTDEV, st) := v]> (apply_writes D (installs D ls))) by apply apply_writes_app.
  assert (Hsb' : sb_ok (apply_writes D W)).
  { rewrite E. apply sb_ok_insert; [lia|]. destruct (recovers_prefix D ls X (length ls) Hsb Hl Ha) as [Hs _].
    by rewrite take_ge in Hs by (rewrite installs_length; lia). }
  assert (Hl' : logged (apply_writes D W) []) by (rewrite E; by apply logged_nil).
  assert (Ha' : agree (apply_writes D W) X) by (rewrite E; by apply agree_insert_log).
  split; [done|]. split; [done|]. split; [done|]. intros i.
  destruct (decide (i <= length ls)%nat).
  - unfold W. rewrite take_app_le by (rewrite installs_length; lia). by apply recovers_prefix.
  - rewrite take_ge; [by eapply recovers_agree; [apply recovers_idle|]|].
    unfold W. rewrite length_app, installs_length. simpl. lia.
Qed.

Lemma log_init_wp s X : booted s -> recovers (sectors (dsk (bi s))) X ->
  wp (log_init ks)
     (fun _ s' => idle_log s' /\ agree (sectors (dsk (bi s'))) X /\
        exists W, store_of (dsk (bi s')) = do_writes W (store_of (dsk (bi s))) /\
          forall i, recovers (apply_writes (sectors (dsk (bi s))) (take i W)) X) s.
Proof.
  intros [Hv Hb Hgd] (Hsb & ls & Hl & Ha). pose proof Hgeo as [? ? ?]. unfold log_init.
  change (BSIZE <=? SIZEOF_LOGHEADER) with false. apply wp_bind, wp_ret, wp_bind.
  eapply wp_of_eq; [reflexivity|]. apply wp_bind, wp_zoom.
  wp_call (read_superblock_wp _ ∅ []); [done|apply Hgd; lia|set_solver|done|done|].
  intros sb s1 (-> & Hv1 & _ & Hst1 & Hd1). unfold log_upd. wp_steps.
  destruct Hsb as [Hsb1 Hsb2]. cbn [bi lg lset l_log_lock lget l_bi] in *. rewrite Hsb1, Hsb2.
  rewrite u32_small, !s32_small by (unfold W32; lia).
  injection Hst1 as Hq1 Hw1.
  match goal with |- wp _ _ ?s => set (s2 := s) end.
  wp_call (recover_wp s2 ls); [done| |change (bi s2) with s1; by rewrite Hq1|].
  { split; cbn [s2 bi lg with_geometry log_start log_size log_dev log_lock]; [lia|done|done|done|].
    intros x Hx. eapply good_key_devs; [exact Hd1|]. by apply Hgd. }
  change (bi s2) with s1. unfold store_of at 2. rewrite Hq1, Hw1.
  intros [] s3 (Hv3 & Hg3 & Hn3 & Hb3 & v & Hv0 & Hst3). fold (store_of (dsk (bi s))) in Hst3.
  destruct (recovery_writes (sectors (dsk (bi s))) ls v X) as (R1 & R2 & R3 & R4); [done..|].
  assert (E3 : sectors (dsk (bi s3)) = apply_writes (sectors (dsk (bi s))) (installs (sectors (dsk (bi s))) ls ++ [((ROOTDEV, st), v)]))
    by exact (f_equal fst Hst3).
  split; [split; [done|done|done|by rewrite Hb3|by rewrite E3..]|]. rewrite E3. split; [done|]. eauto.
Qed.

(** ** A transaction under way

    It began with the blocks [D0] on the disk; [U] are the blocks it has
    logged, each with the contents logged last; [held] are the buffers it
    holds, each with its block and contents. *)
Abbreviation held_bufs := (list (Z * (Z * Z) * mem)).

Record in_log (D U : blocks) (l : log) (ls : list Z) : Prop := {
  il_is : lh_is l ls;
  il_nodup : NoDup ls;
  il_home : forall x, x ∈ ls -> home x;
  il_len : Z.of_nat (length ls) <= LOGSIZE /\ Z.of_nat (length ls) < sz;
  il_dom : forall k, is_Some (U !! k) <-> exists x, x ∈ ls /\ k = (ROOTDEV, x);
  il_data : forall i x, ls !! i = Some x -> D !!! (ROOTDEV, st + 1 + Z.of_nat i) = U !!! (ROOTDEV, x)
}.
Definition to_log (W : writes) : Prop := Forall (fun kv => kv.1.1 = ROOTDEV /\ st < kv.1.2 < st + sz) W.
Definition unheld (U : blocks) (held : held_bufs) (P : blocks) : Prop :=
  forall k, P !! k = if decide (k ∈ held.*1.*2) then None else U !! k.
Definition holds (b : bio) (U : blocks) (held : held_bufs) : Prop :=
  forall x, x ∈ held -> held_block b x.1.1 x.1.2 x.2 (bool_decide (is_Some (U !! x.1.2))) /\
    x.1.2.1 = ROOTDEV /\ home x.1.2.2.

Record trans (D0 : blocks) (w0 : writes) (s : jfs) (U : blocks) (held : held_bufs) : Prop := {
  tr_geo : jgeo s;
  tr_busy : log_busy (lg s) = 1;
  tr_log : exists ls, in_log (sectors (dsk (bi s))) U (lg s) ls;
  tr_store : exists W, store_of (dsk (bi s)) = do_writes W (D0, w0) /\ to_log W;
  tr_view : exists P, view c (bi s) P held.*1.*1 /\ unheld U held P;
  tr_held : holds (bi s) U held;
  tr_keys : NoDup held.*1.*2;
  tr_room : Z.of_nat (size U) < NBUF
}.

Lemma to_log_other D W k : to_log W -> k.1 <> ROOTDEV \/ k.2 <= st \/ st + sz <= k.2 -> apply_writes D W !!! k = D !!! k.
Proof.
  intros HW Hk. apply apply_writes_other. intros Hin. apply list_elem_of_fmap in Hin as (kv & -> & Hin).
  unfold to_log in HW. rewrite Forall_forall in HW. apply HW in Hin. lia.
Qed.

Lemma trans_disk D0 w0 s U held k : trans D0 w0 s U held -> k.1 <> ROOTDEV \/ k.2 <= st \/ st + sz <= k.2 ->
  sectors (dsk (bi s)) !!! k = D0 !!! k.
Proof.
  intros [_ _ _ (W & Hst & HW) _ _ _ _] Hk. apply (f_equal fst) in Hst. simpl in Hst. rewrite Hst.
  by apply to_log_other.
Qed.

(** A step of the cache that leaves the disk and the log alone. *)
Lemma trans_step D0 w0 s U held b' held' P' : trans D0 w0 s U held -> same_devs (bi s) b' ->
  store_of (dsk b') = store_of (dsk (bi s)) -> view c b' P' held'.*1.*1 -> unheld U held' P' ->
  holds b' U held' -> NoDup held'.*1.*2 -> trans D0 w0 (Jfs b' (lg s)) U held'.
Proof.
  intros [Hg Hbu (ls & Hl) (W & Hst & HW) _ _ _ Hrm] Hd Es Hv Hu Hh Hk. injection Es as Eq Ew. split; cbn [bi lg].
  - by apply jgeo_bi.
  - done.
  - exists ls. by rewrite Eq.
  - exists W. split; [|done]. unfold store_of. by rewrite Eq, Ew.
  - eauto.
  - done.
  - done.
  - done.
Qed.

Lemma unheld_size U held P : unheld U held P -> (size P <= size U)%nat.
Proof.
  intros Hu. apply map_subseteq_size, map_subseteq_spec. intros k v Hk. rewrite Hu in Hk. by case_decide.
Qed.

Lemma holds_pay b b' U held : holds b U held ->
  (forall a, a ∈ held.*1.*1 -> pay (bufs b' !!! a) = pay (bufs b !!! a)) -> holds b' U held.
Proof.
  intros Hh Hp x Hx. destruct (Hh x Hx) as [Hb Hk]. split; [|done]. eapply held_pay; [|exact Hb].
  apply Hp. rewrite list_elem_of_fmap. exists x.1. split; [done|]. by apply list_elem_of_fmap_2.
Qed.

(** The contents of a block in the transaction. *)
Definition logical (D0 U : blocks) : blocks := U ∪ D0.
Lemma logical_lookup D0 U k : logical D0 U !!! k = default (D0 !!! k) (U !! k).
Proof.
  unfold logical. rewrite !lookup_total_alt, lookup_union. by destruct (U !! k), (D0 !! k).
Qed.

Lemma tr_read D0 w0 s U held x : trans D0 w0 s U held -> home x ->
  (ROOTDEV, x) ∉ held.*1.*2 ->
  is_Some (U !! (ROOTDEV, x)) \/ Z.of_nat (size U) + Z.of_nat (length held) < NBUF ->
  wp (zoom l_bi (bufcache_read ks ROOTDEV x))
     (fun b s' => trans D0 w0 s' U ((b, (ROOTDEV, x), logical D0 U !!! (ROOTDEV, x)) :: held)) s.
Proof.
  intros Ht Hx Hk Hr. pose proof Ht as [Hg _ _ _ (P & Hv & Hu) Hh Hnd _]. pose proof (unheld_size _ _ _ Hu) as HsP.
  pose proof Hgeo as [? ? ?]. pose proof Hx as [Hx0 Hx1]. set (k := (ROOTDEV, x)) in *.
  assert (HPk : P !! k = U !! k) by (by rewrite Hu, decide_False). wp_steps.
  wp_call (view_read c ks (bi s) P held.*1.*1 k); [done|done|apply Hg; lia| | |].
  - intros b Hb. apply list_elem_of_fmap in Hb as (y & -> & Hy). apply list_elem_of_fmap in Hy as (z & -> & Hz).
    destruct (Hh z Hz) as [[_ -> _ _ _ _] _]. intros E. apply Hk. rewrite <- E. by do 2 apply list_elem_of_fmap_2.
  - rewrite HPk, !length_fmap. destruct Hr; [by left|right]. lia.
  - intros b s1 (Hv1 & Hbh & Hb1 & Hp1 & Hst1 & Hd1). apply (trans_step _ _ _ _ held _ _ (delete k P)); try done.
    + intros k'. simpl. destruct (decide (k' = k)) as [->|Hne].
      * rewrite lookup_delete_eq, decide_True by set_solver. done.
      * rewrite lookup_delete_ne, Hu by done. apply decide_ext. set_solver.
    + intros y [->|Hy]%elem_of_cons; simpl.
      * split; [|done]. rewrite logical_lookup. unfold block in Hb1. rewrite HPk in Hb1.
        destruct (U !! k) eqn:EU; [done|]. simpl. rewrite (trans_disk _ _ _ _ _ k Ht) in Hb1 by (simpl; lia). done.
      * apply (holds_pay (bi s) s1 U held); auto.
    + simpl. by constructor.
Qed.

Lemma held_fresh b U a k v held : holds b U ((a, k, v) :: held) -> NoDup ((a, k, v) :: held).*1.*2 ->
  a ∉ held.*1.*1.
Proof.
  intros Hh Hnd Ha. destruct (Hh _ ltac:(apply elem_of_cons; left; reflexivity)) as [[_ Kb _ _ _ _] _].
  apply list_elem_of_fmap in Ha as (z & Ez & Hz). apply list_elem_of_fmap in Hz as (w & -> & Hw).
  destruct (Hh w ltac:(by right)) as [[_ Kw _ _ _ _] _]. simpl in *. rewrite <- Ez, Kb in Kw.
  apply NoDup_cons in Hnd as [Hnd _]. apply Hnd. rewrite Kw. by do 2 apply list_elem_of_fmap_2.
Qed.

Lemma holds_tail b U x held : holds b U (x :: held) -> holds b U held.
Proof. intros Hh y Hy. apply Hh. by right. Qed.

Lemma tr_modify D0 w0 s U held b k v f : trans D0 w0 s U ((b, k, v) :: held) ->
  wp (zoom l_bi (bupd b (fun x => with_data (f (data x)) x)))
     (fun _ s' => trans D0 w0 s' U ((b, k, f v) :: held)) s.
Proof.
  intros Ht. pose proof Ht as [_ _ _ _ (P & Hv & Hu) Hh Hnd _]. wp_steps.
  destruct (Hh _ ltac:(apply elem_of_cons; left; reflexivity)) as [Hb Hkr]. simpl in Hb, Hkr.
  wp_call (view_upd_data c (bi s)); [done|simpl; set_solver|done|]. intros [] s1 (Hv1 & Hb1 & Hp1 & Hdk1 & Hd1).
  apply (trans_step _ _ _ _ _ _ _ P Ht); try done; [by rewrite Hdk1|].
  intros y [->|Hy]%elem_of_cons; simpl; [done|].
  apply (holds_pay (bi s) s1 U held); [by eapply holds_tail|intros a Ha; apply Hp1|done].
  intros ->. by eapply held_fresh.
Qed.

(** A buffer with the contents of its block can be released. *)
Lemma tr_release D0 w0 s U held b k v : trans D0 w0 s U ((b, k, v) :: held) -> v = logical D0 U !!! k ->
  wp (zoom l_bi (bufcache_release ks b)) (fun _ s' => trans D0 w0 s' U held) s.
Proof.
  intros Ht ->. pose proof Ht as [_ _ _ _ (P & Hv & Hu) Hh Hnd _]. pose proof (held_fresh _ _ _ _ _ _ Hh Hnd) as Hbh.
  destruct (Hh _ ltac:(apply elem_of_cons; left; reflexivity)) as [Hb [Hk1 Hk2]]. simpl in Hb, Hk1, Hk2.
  pose proof Hnd as [Hkh Hnd']%NoDup_cons. wp_steps.
  wp_call (view_release c ks (bi s) P held.*1.*1 b); [done|exact Hv|done|exact Hb| |].
  { intros HU%bool_decide_eq_false. rewrite logical_lookup, (trans_disk _ _ _ _ _ k Ht).
    - destruct (U !! k); [by destruct HU|done].
    - right. left. unfold home in Hk2. lia. }
  intros [] s1 (Hv1 & Hp1 & Hdk1 & Hd1). eapply (trans_step _ _ _ _ _ _ _ _ Ht); try done.
  - by rewrite Hdk1.
  - intros k'. destruct (decide (k' = k)) as [->|Hne].
    + rewrite decide_False by done. case_bool_decide as HU.
      * rewrite lookup_insert_eq, logical_lookup. by destruct HU as [v ->].
      * rewrite Hu, decide_True by set_solver. destruct (U !! k); [by destruct HU|done].
    + transitivity (P !! k'); [case_bool_decide; [by rewrite lookup_insert_ne|done]|].
      rewrite Hu. apply decide_ext. set_solver.
  - apply (holds_pay (bi s)); [by eapply holds_tail|]. intros a Ha. apply Hp1. by intros ->.
Qed.

(** ** log_write *)
Lemma find_slot_wp s ls sec : lh_is (lg s) ls -> Z.of_nat (length ls) <= LOGSIZE -> (forall x, x ∈ ls -> home x) ->
  wp (find_slot sec)
     (fun i s' => s' = s /\ exists j, i = Z.of_nat j /\
        (ls !! j = Some sec \/ j = length ls /\ (sec ∉ ls))) s.
Proof.
  intros [Hn Hsec] Hlen Hh. pose proof Hgeo as [? ? ?]. unfold find_slot, sector_at, LOGSIZE in *.
  apply (wp_while _ (fun i s' => s' = s /\ 0 <= i <= Z.of_nat (length ls) /\
      forall j x, ls !! j = Some x -> Z.of_nat j < i -> x <> sec)
    (fun i _ => Z.of_nat (length ls) - i)); [| |lia].
  - intros i s' (-> & Hi & Hno) _. wp_steps. rewrite Hn.
    apply wp_if; intros E; apply Z.ltb_lt in E || apply Z.ltb_ge in E.
    + wp_steps. destruct (lookup_lt_is_Some_2 ls (Z.to_nat i) ltac:(lia)) as [x Hx].
      assert (Hhx : home x) by (apply Hh; by eapply list_elem_of_lookup_2).
      replace (lh_sector (lg s) !!! i) with x by (rewrite <- (Hsec _ _ Hx); f_equal; lia).
      rewrite u32_small by (unfold home, W32 in *; lia).
      apply wp_if; intros E'; apply Z.eqb_eq in E' || apply Z.eqb_neq in E'; wp_steps.
      * split; [done|]. exists (Z.to_nat i). split; [lia|]. left. by rewrite <- E'.
      * split; [|lia]. split; [done|]. split; [lia|]. intros j y Hj Hji.
        destruct (decide (Z.of_nat j < i)); [by eapply Hno|]. replace j with (Z.to_nat i) in Hj by lia. congruence.
    + wp_steps. split; [done|]. exists (length ls). split; [lia|]. right. split; [done|].
      intros (j & Hj)%list_elem_of_lookup. eapply Hno; [exact Hj| |done]. apply lookup_lt_Some in Hj. lia.
  - split; [done|]. split; [lia|]. intros; lia.
Qed.

(** Copying a held buffer to a block of the log. *)
Lemma copy_block_wp {A} s P held b k v d a (rest : K jfs A) Q : view c (bi s) P held -> b ∈ held ->
  held_block (bi s) b k v d -> good_key (bi s) (ROOTDEV, a) -> P !! (ROOTDEV, a) = None ->
  (forall b, b ∈ held -> key (bufs (bi s) !!! b) <> (ROOTDEV, a)) ->
  Z.of_nat (size P) + Z.of_nat (length held) < NBUF ->
  (forall s', view c s' P held -> same_devs (bi s) s' ->
     (forall a, a ∈ held -> pay (bufs s' !!! a) = pay (bufs (bi s) !!! a)) ->
     store_of (dsk s') = do_writes [((ROOTDEV, a), v)] (store_of (dsk (bi s))) -> wp rest Q (Jfs s' (lg s))) ->
  wp (lbuf ← zoom l_bi (bufcache_read ks ROOTDEV a);
      y ← zoom l_bi (deref b);
      zoom l_bi (bupd lbuf (with_data (data y))) ;;
      zoom l_bi (bufcache_write ks lbuf) ;;
      zoom l_bi (bufcache_release ks lbuf) ;;
      rest) Q s.
Proof.
  intros Hv Hbh Hb Hg HP Hk Hr Hrest. wp_steps.
  wp_call (view_read c ks (bi s) P held (ROOTDEV, a)); [done..|by right|].
  intros lb s1 (Hv1 & Hlh & Hl1 & Hp1 & Hst1 & Hd1). rewrite delete_id in Hv1 by done. wp_steps. cbn [bi lg].
  rewrite (bool_decide_eq_false_2 (is_Some (P !! _))) in Hl1 by (rewrite HP; by intros [? ?]).
  apply (held_pay _ s1) in Hb; [|by apply Hp1]. pose proof Hb as [Hbr _ Hbd _ _ _].
  eapply wp_of_eq; [apply deref_eq; lia|]. rewrite Hbd. wp_steps. cbn [bi lg].
  wp_call (view_set_data c s1); [done|set_solver|done|]. intros [] s2 (Hv2 & Hl2 & Hp2 & Hdk2 & Hd2).
  wp_steps. cbn [bi lg]. wp_call (view_write c ks s2); [done|done| |done|]; [set_solver|].
  intros [] s3 (Hv3 & Hl3 & Hp3 & Hst3 & Hd3). wp_steps. cbn [bi lg].
  assert (E3 : store_of (dsk s3) = do_writes [((ROOTDEV, a), v)] (store_of (dsk (bi s)))).
  { rewrite Hst3, Hdk2. injection Hst1 as -> ->. done. }
  wp_call (view_release c ks s3 P held lb); [done|done|done|done| |].
  { intros _. apply (f_equal fst) in E3. simpl in E3. by rewrite E3, lookup_total_insert_eq. }
  intros [] s4 (Hv4 & Hp4 & Hdk4 & Hd4). wp_steps. apply Hrest; [done| | |by rewrite Hdk4].
  - destruct Hd1, Hd2, Hd3, Hd4. split; congruence.
  - intros a' Ha'. rewrite Hp4, Hp3, Hp2, Hp1; [done..|intros ->; done|intros ->; done|intros ->; done].
Qed.

Lemma in_log_size D U l ls : in_log D U l ls -> size U = length ls.
Proof.
  intros [_ Hnd _ _ Hdom _]. rewrite <- size_dom.
  transitivity (size (list_to_set ((fun x => (ROOTDEV, x)) <$> ls) : gset (Z * Z))).
  - f_equal. apply set_eq. intros k. rewrite elem_of_dom, Hdom, elem_of_list_to_set, list_elem_of_fmap. naive_solver.
  - rewrite size_list_to_set, length_fmap; [done|]. apply NoDup_fmap_2; [|done]. intros x y E. by injection E.
Qed.

Lemma in_log_write D U l l' ls j sec v : in_log D U l ls ->
  (ls !! j = Some sec \/ j = length ls /\ (sec ∉ ls)) -> home sec ->
  Z.of_nat (length ls) < LOGSIZE /\ Z.of_nat (length ls) + 1 < sz ->
  lh_sector l' = <[Z.of_nat j := sec]> (lh_sector l) ->
  lh_n l' = (if Z.of_nat j =? lh_n l then lh_n l + 1 else lh_n l) ->
  exists ls', in_log (<[(ROOTDEV, st + 1 + Z.of_nat j) := v]> D) (<[(ROOTDEV, sec) := v]> U) l' ls'.
Proof.
  intros [[Hn Hsec] Hnd Hh Hlen Hdom Hdat] Hj Hs Hroom El En.
  assert (Hdat' : forall i x, ls !! i = Some x -> i <> j -> x <> sec ->
    <[(ROOTDEV, st + 1 + Z.of_nat j) := v]> D !!! (ROOTDEV, st + 1 + Z.of_nat i) =
    <[(ROOTDEV, sec) := v]> U !!! (ROOTDEV, x)).
  { intros i x Hi Hij Hx. rewrite !lookup_total_insert_ne; [by apply Hdat|..]; intros E; injection E; [done|lia]. }
  destruct Hj as [Hj|[-> Hns]].
  - pose proof (lookup_lt_Some _ _ _ Hj) as Hjl. rewrite Hn in En. rewrite (proj2 (Z.eqb_neq _ _)) in En by lia.
    exists ls. split; [split; [done|]|done|done|done| |].
    + intros i x Hi. rewrite El. destruct (decide (i = j)) as [->|Hij].
      * rewrite lookup_total_insert_eq. congruence.
      * rewrite lookup_total_insert_ne by lia. by apply Hsec.
    + intros k. rewrite <- Hdom. destruct (decide (k = (ROOTDEV, sec))) as [->|Hk].
      * rewrite lookup_insert_eq, Hdom. split; [|by eexists]. intros _. exists sec. split; [|done]. by eapply list_elem_of_lookup_2.
      * by rewrite lookup_insert_ne.
    + intros i x Hi. destruct (decide (i = j)) as [->|Hij].
      * assert (x = sec) as -> by congruence. by rewrite !lookup_total_insert_eq.
      * apply Hdat'; [done..|]. intros ->. apply Hij. by eapply NoDup_lookup.
  - rewrite Hn, Z.eqb_refl in En. exists (ls ++ [sec]). split; [split|..].
    + rewrite En, length_app. simpl. lia.
    + intros i x Hi. rewrite El. apply lookup_app_Some in Hi as [Hi|[Hi Hi']].
      * rewrite lookup_total_insert_ne; [by apply Hsec|]. apply lookup_lt_Some in Hi. lia.
      * apply list_lookup_singleton_Some in Hi' as [? <-]. replace i with (length ls) by lia. apply lookup_total_insert_eq.
    + apply NoDup_app. split; [done|]. split; [set_solver|apply NoDup_singleton].
    + intros x [Hx| ->%list_elem_of_singleton]%elem_of_app; auto.
    + rewrite length_app. simpl. lia.
    + intros k. destruct (decide (k = (ROOTDEV, sec))) as [->|Hk].
      * rewrite lookup_insert_eq. split; [|by eexists]. intros _. exists sec. set_solver.
      * rewrite lookup_insert_ne, Hdom by done. set_solver.
    + intros i x Hi. apply lookup_app_Some in Hi as [Hi|[Hi Hi']].
      * apply Hdat'; [done| |].
        -- apply lookup_lt_Some in Hi. lia.
        -- intros ->. by apply Hns; eapply list_elem_of_lookup_2.
      * apply list_lookup_singleton_Some in Hi' as [? <-]. replace i with (length ls) by lia.
        by rewrite !lookup_total_insert_eq.
Qed.

Lemma tr_log_write D0 w0 s U held b k v : trans D0 w0 s U ((b, k, v) :: held) ->
  Z.of_nat (size (<[k := v]> U)) + Z.of_nat (length held) < NBUF -> Z.of_nat (size U) + 1 < sz ->
  wp (log_write ks b) (fun _ s' => trans D0 w0 s' (<[k := v]> U) ((b, k, v) :: held)) s.
Proof.
  intros Ht Hroom Hsz. pose proof Ht as [Hg Hbu (ls & Hl) (W & Hst & HW) (P & Hv & Hu) Hh Hnd Hrm].
  pose proof Hg as [G1 G2 G3 G4 G5]. pose proof (in_log_size _ _ _ _ Hl) as HsU.
  pose proof Hl as [[Hn Hsec] _ Hhome Hlen Hdom _]. pose proof Hgeo as [? ? ?].
  destruct (Hh _ ltac:(apply elem_of_cons; left; reflexivity)) as [Hb [Hk1 Hk2]]. simpl in Hb, Hk1, Hk2.
  destruct k as [dv x]. simpl in Hk1, Hk2. subst dv. pose proof Hk2 as [Hx0 Hx1].
  assert (HsU' : (size U <= size (<[(ROOTDEV, x) := v]> U))%nat).
  { destruct (U !! (ROOTDEV, x)) eqn:EU.
    - rewrite map_size_insert_Some; [done|by eexists].
    - rewrite map_size_insert_None by done. lia. }
  unfold NBUF, LOGSIZE in *.
  unfold log_write, int_add. wp_steps. rewrite Hn, G2, Hbu. change LOGSIZE with 10. zbool. wp_steps.
  zbool. wp_steps. pose proof Hb as [Hbr Hbk _ _ _ _]. eapply wp_of_eq; [apply deref_eq; lia|].
  apply (f_equal fst) in Hbk as Hbk1. apply (f_equal snd) in Hbk as Hbk2. cbn [key fst snd] in Hbk1, Hbk2.
  rewrite Hbk1, Hbk2, s32_small by lia. wp_steps.
  replace (Jfs (bi s) (lg s)) with s by (by destruct s).
  wp_call (find_slot_wp s ls x); [exact (il_is _ _ _ _ Hl)|unfold LOGSIZE; lia|exact Hhome|]. intros i s' (-> & j & -> & Hj).
  assert (Hjl : Z.of_nat j <= Z.of_nat (length ls)) by (destruct Hj as [Hj%lookup_lt_Some|[-> _]]; lia).
  unfold set_sector_at, log_upd. wp_steps; [unfold in_array, LOGSIZE; lia|]. eapply wp_of_eq; [apply log_block_eq; [|lia]|].
  { apply (jgeo_lg s); by destruct Hg. }
  assert (HPa : forall a, st <= a -> P !! (ROOTDEV, a) = None).
  { intros a Ha. rewrite Hu. case_decide; [done|]. destruct (U !! (ROOTDEV, a)) eqn:EU; [|done].
    destruct (proj1 (Hdom (ROOTDEV, a)) ltac:(by eexists)) as (y & Hy & E). injection E as ->. apply Hhome in Hy.
    unfold home in Hy. lia. }
  assert (HsP : (S (size P) <= size (<[(ROOTDEV, x) := v]> U))%nat).
  { rewrite <- (map_size_insert_None (ROOTDEV, x) v P) by (rewrite Hu, decide_True; [done|set_solver]).
    apply map_subseteq_size, insert_mono, map_subseteq_spec. intros k' v' Hk'. rewrite Hu in Hk'. by case_decide. }
  apply (copy_block_wp _ P ((b, (ROOTDEV, x), v) :: held).*1.*1 b (ROOTDEV, x) v (bool_decide (is_Some (U !! (ROOTDEV, x)))));
    cbn [bi lg]; [done|set_solver|done|apply G5; lia|apply HPa; lia| |simpl; rewrite !length_fmap; unfold NBUF; lia|].
  { intros b' Hb'. apply list_elem_of_fmap in Hb' as (y & -> & Hy). apply list_elem_of_fmap in Hy as (z & -> & Hz).
    destruct (Hh z Hz) as [[_ -> _ _ _ _] [_ Hz2]]. intros E. rewrite E in Hz2. unfold home in Hz2. simpl in Hz2. lia. }
  intros s1 Hv1 Hd1 Hp1 Hst1. wp_steps. cbn [bi lg with_sectors lh_n].
  match goal with |- context [with_sectors ?S ?l] => set (l1 := with_sectors S l) end.
  set (n' := if Z.of_nat j =? lh_n (lg s) then lh_n (lg s) + 1 else lh_n (lg s)).
  apply (wp_mono _ (fun _ s' => s' = Jfs s1 (with_n n' l1))).
  { unfold n', log_upd. destruct (Z.of_nat j =? lh_n (lg s)); by wp_steps. }
  intros [] s' ->. wp_steps. cbn [bi lg].
  apply (holds_pay _ s1) in Hh; [|done].
  destruct (Hh _ ltac:(apply elem_of_cons; left; reflexivity)) as [Hb1 _]. simpl in Hb1.
  wp_call (view_set_dirty c s1); [done| |done|]; [set_solver|]. intros [] s2 (Hv2 & Hb2 & Hp2 & Hdk2 & Hd2).
  pose proof (held_fresh _ _ _ _ _ _ Hh Hnd) as Hbh. split; cbn [bi lg].
  - apply (jgeo_lg (Jfs s2 (lg s))); [|by destruct Hg..]. apply jgeo_bi; [done|].
    destruct Hd1, Hd2. split; cbn [bi] in *; congruence.
  - done.
  - rewrite Hdk2. apply (f_equal fst) in Hst1. simpl in Hst1. rewrite Hst1.
    apply (in_log_write _ _ (lg s) _ ls); [done|done|done|unfold LOGSIZE; lia|done|done].
  - exists (W ++ [((ROOTDEV, st + 1 + Z.of_nat j), v)]). rewrite Hdk2, Hst1, do_writes_app, <- Hst. split; [done|].
    apply Forall_app. split; [done|]. apply Forall_singleton. simpl. lia.
  - exists P. split; [done|]. intros k'. rewrite Hu. case_decide as Hk'; [done|].
    rewrite lookup_insert_ne; [done|]. intros <-. apply Hk'. set_solver.
  - intros y [->|Hy]%elem_of_cons; simpl.
    + rewrite bool_decide_eq_true_2; [done|]. rewrite lookup_insert_eq. by eexists.
    + rewrite lookup_insert_ne.
      * apply (holds_pay s1 s2 U held); [by eapply holds_tail| |done]. intros a Ha. apply Hp2. by intros ->.
      * intros E. pose proof Hnd as [Hkh _]%NoDup_cons. apply Hkh. simpl. rewrite E. by do 2 apply list_elem_of_fmap_2.
  - done.
  - unfold NBUF. lia.
Qed.

(** ** begin_trans and commit_trans *)
Lemma log_acquire_eq s : lock (log_lock (lg s)) = 0 ->
  zoom l_log_lock (spinlock_acquire ks) s = Ok tt (lset l_log_lock (held_lock ks) s).
Proof.
  intros Hl. destruct Hon as [Hks _]. unfold zoom. simpl. destruct (log_lock (lg s)) as [h v]. simpl in Hl. subst v.
  by rewrite acquire_free.
Qed.

Lemma tr_begin s : idle_log s ->
  wp (begin_trans ks) (fun _ s' => trans (sectors (dsk (bi s))) (written (dsk (bi s))) s' ∅ []) s.
Proof.
  intros [Hv Hg Hn Hb _ _]. unfold begin_trans, log_upd. apply wp_bind.
  eapply wp_of_eq; [apply log_acquire_eq, Hg|]. wp_steps. cbn [lg log_busy]. rewrite Hb. wp_steps.
  eapply wp_of_eq; [reflexivity|]. split; cbn [bi lg].
  - apply (jgeo_lg s); by destruct Hg.
  - done.
  - exists []. pose proof Hgeo as [? ? ?]. split; [by split|apply NoDup_nil_2|by intros ? []%elem_of_nil| | |done].
    + unfold LOGSIZE. simpl. lia.
    + intros k. rewrite lookup_empty. split; [by intros []|]. by intros (? & []%elem_of_nil & _).
  - exists []. unfold do_writes. simpl. rewrite app_nil_r. split; [done|]. apply Forall_nil_2.
  - exists ∅. split; [done|]. intros k. by case_decide.
  - intros x []%elem_of_nil.
  - apply NoDup_nil_2.
  - done.
Qed.

(** The disk before the header is written. *)
Lemma body_recovers D0 W : to_log W -> sb_ok D0 -> logged D0 [] -> recovers (apply_writes D0 W) D0.
Proof.
  intros HW Hsb Hl. pose proof Hgeo as [? ? ?]. split.
  - unfold sb_ok. rewrite to_log_other; [done|done|simpl; lia].
  - exists []. split; [eapply logged_ext; [|exact Hl]; apply to_log_other; [done|simpl; lia]|].
    intros k Hk. simpl. apply to_log_other; [done|]. unfold outside in Hk.
    destruct (decide (k.1 = ROOTDEV)); [right; lia|by left].
Qed.

Lemma to_log_take W i : to_log W -> to_log (take i W).
Proof. apply Forall_take. Qed.

(** Once the header is written, the disk recovers to the new contents. *)
Lemma header_recovers D0 W U l ls v : to_log W -> sb_ok D0 -> in_log (apply_writes D0 W) U l ls ->
  load32 v 0 = Z.of_nat (length ls) -> (forall i x, ls !! i = Some x -> load32 v (4 + 4 * Z.of_nat i) = x) ->
  let D2 := <[(ROOTDEV, st) := v]> (apply_writes D0 W) in
  sb_ok D2 /\ logged D2 ls /\ agree (apply_writes D2 (installs D2 ls)) (logical D0 U).
Proof.
  intros HW Hsb [_ Hnd Hh Hlen Hdom Hdat] Hv0 Hvs D2. pose proof Hgeo as [? ? ?]. split; [|split].
  - apply sb_ok_insert; [lia|]. unfold sb_ok. rewrite to_log_other; [done|done|simpl; lia].
  - split; unfold D2; rewrite ?lookup_total_insert_eq; done.
  - intros k Hk. rewrite logical_lookup. destruct (U !! k) as [u|] eqn:EU; simpl.
    + destruct (proj1 (Hdom k) ltac:(by eexists)) as (x & Hx & ->). apply list_elem_of_lookup in Hx as (i & Hi).
      assert (Hin : installs D2 ls = take i (installs D2 ls) ++ ((ROOTDEV, x), u) :: drop (S i) (installs D2 ls)).
      { rewrite <- (take_drop_middle (installs D2 ls) i ((ROOTDEV, x), u)) at 1; [done|].
        rewrite (installs_lookup _ _ _ _ Hi). do 2 f_equal. unfold D2. rewrite lookup_total_insert_ne by (intros E; injection E; lia).
        rewrite (Hdat i x Hi). by apply lookup_total_correct. }
      rewrite Hin, apply_writes_app. simpl. rewrite apply_writes_other, lookup_total_insert_eq; [done|].
      rewrite fmap_drop, installs_keys. intros (j & Hj)%list_elem_of_lookup. rewrite lookup_drop in Hj.
      apply list_lookup_fmap_Some in Hj as (y & Ey & Hy). injection Ey as <-.
      pose proof (NoDup_lookup _ _ _ _ Hnd Hi Hy). lia.
    + rewrite apply_writes_other.
      * unfold D2. rewrite lookup_total_insert_ne by (intros <-; apply Hk; simpl; lia).
        apply to_log_other; [done|]. unfold outside in Hk. destruct (decide (k.1 = ROOTDEV)); [right; lia|by left].
      * rewrite installs_keys. intros (x & -> & Hx)%list_elem_of_fmap.
        destruct (proj2 (Hdom (ROOTDEV, x)) ltac:(by eauto)) as [? ?]. congruence.
Qed.

(** The disk after any part of the writes of a transaction: [W] the logged
    blocks, [v] the header, [R] what follows. *)
Lemma commit_prefix D0 W v R X : to_log W -> sb_ok D0 -> logged D0 [] ->
  (forall i, recovers (apply_writes (<[(ROOTDEV, st) := v]> (apply_writes D0 W)) (take i R)) X) ->
  forall i, recovers (apply_writes D0 (take i (W ++ ((ROOTDEV, st), v) :: R))) D0 \/
            recovers (apply_writes D0 (take i (W ++ ((ROOTDEV, st), v) :: R))) X.
Proof.
  intros HW Hsb Hl HR i. destruct (decide (i <= length W)%nat) as [Hi|Hi].
  - left. rewrite take_app_le by done. apply body_recovers; [by apply to_log_take|done..].
  - right. rewrite take_app_ge by lia. replace (i - length W)%nat with (S (i - length W - 1)) by lia. simpl.
    rewrite apply_writes_app. apply HR.
Qed.

(** What a finished transaction promises: its writes [W] leave the new
    contents [X], and any part of them recovers to the old contents [D0] or
    to [X]. *)
Definition atomic (D0 X : blocks) (W : writes) : Prop :=
  agree (apply_writes D0 W) X /\
  forall i, recovers (apply_writes D0 (take i W)) D0 \/ recovers (apply_writes D0 (take i W)) X.

(** write_head, install_trans, and write_head again. *)
Lemma flush_wp D0 w0 s U : trans D0 w0 s U [] -> sb_ok D0 -> logged D0 [] ->
  wp (write_head ks ;; install_trans ks ;; log_upd (with_n 0) ;; write_head ks)
     (fun _ s' => view c (bi s') ∅ [] /\ jgeo s' /\ lh_n (lg s') = 0 /\ sb_ok (sectors (dsk (bi s'))) /\
        logged (sectors (dsk (bi s'))) [] /\
        exists W, store_of (dsk (bi s')) = do_writes W (D0, w0) /\ atomic D0 (logical D0 U) W) s.
Proof.
  intros [Hg Hbu (ls & Hl) (W & Hst & HW) (P & Hv & Hu) _ _ Hrm] Hsb Hlo. pose proof Hgeo as [? ? ?].
  assert (P = U) as -> by (apply map_eq; intros k; rewrite Hu, decide_False; [done|apply not_elem_of_nil]).
  assert (Eq : sectors (dsk (bi s)) = apply_writes D0 W) by exact (f_equal fst Hst).
  pose proof Hl as [Hlh Hnd Hh Hlen Hdom _]. apply wp_bind.
  wp_call (write_head_wp s ls U); [exact Hv|exact Hg|exact Hlh|exact Hh|apply Hlen| |exact Hrm|].
  { destruct (U !! (ROOTDEV, st)) eqn:EU; [|done]. destruct (proj1 (Hdom (ROOTDEV, st)) ltac:(by eexists)) as (y & Hy & E).
    injection E as <-. apply Hh in Hy. unfold home in Hy. lia. }
  intros [] s1 (Hv1 & Hg1 & Hlg1 & v & Hst1 & Hv0 & Hvs). rewrite Eq in Hl.
  destruct (header_recovers D0 W U (lg s) ls v HW Hsb Hl Hv0 Hvs) as (Hsb2 & Hl2 & Ha2).
  set (D2 := <[(ROOTDEV, st) := v]> (apply_writes D0 W)) in *.
  assert (Eq1 : sectors (dsk (bi s1)) = D2) by (pose proof (f_equal fst Hst1) as E; simpl in E; by rewrite E, Eq).
  apply wp_bind. wp_call (install_trans_wp s1 ls U);
    [exact Hv1|exact Hg1|by rewrite Hlg1|exact Hh|exact Hlen|exact Hrm|intros k; apply Hdom| |].
  { right. split; [exact Hnd|]. intros x Hx. apply Hdom. eauto. }
  intros [] s2 (Hv2 & Hg2 & Hlg2 & Hst2). unfold log_upd. wp_steps.
  wp_call (write_head_wp _ [] ∅); [exact Hv2| |done|by intros ? []%elem_of_nil|done|done|done|].
  { apply (jgeo_lg s2); by destruct Hg2. }
  intros [] s3 (Hv3 & Hg3 & Hlg3 & v3 & Hst3 & Hv30 & _). cbn [bi] in Hst3. rewrite Eq1 in Hst2.
  destruct (recovery_writes D2 ls v3 _ Hsb2 Hl2 Hv30 Ha2) as (R1 & R2 & R3 & R4).
  set (R := installs D2 ls ++ [((ROOTDEV, st), v3)]) in *.
  assert (EW : store_of (dsk (bi s3)) = do_writes (W ++ ((ROOTDEV, st), v) :: R) (D0, w0)).
  { rewrite do_writes_app, <- Hst, Hst3, Hst2, Hst1. unfold R.
    change (do_writes (((ROOTDEV, st), v) :: ?l)) with (do_writes ([((ROOTDEV, st), v)] ++ l)).
    by rewrite !do_writes_app, do_writes_nil. }
  assert (E3 : sectors (dsk (bi s3)) = apply_writes D2 R).
  { rewrite (f_equal fst EW : sectors _ = _). simpl. by rewrite apply_writes_app. }
  rewrite E3. split; [done|]. split; [done|]. split; [by rewrite Hlg3|]. split; [done|]. split; [done|].
  exists (W ++ ((ROOTDEV, st), v) :: R). split; [done|]. split; [by rewrite apply_writes_app|].
  by apply commit_prefix.
Qed.

(** commit_trans ends the transaction: atomically, and with the log and the
    cache ready for the next one. *)
Lemma tr_commit D0 w0 s U : trans D0 w0 s U [] -> sb_ok D0 -> logged D0 [] ->
  wp (commit_trans ks)
     (fun _ s' => idle_log s' /\
        exists W, store_of (dsk (bi s')) = do_writes W (D0, w0) /\ atomic D0 (logical D0 U) W) s.
Proof.
  intros Ht Hsb Hlo. unfold commit_trans. apply wp_bind, wp_gets, wp_bind.
  apply (wp_mono _ (fun _ s' => view c (bi s') ∅ [] /\ jgeo s' /\ lh_n (lg s') = 0 /\
    sb_ok (sectors (dsk (bi s'))) /\ logged (sectors (dsk (bi s'))) [] /\
    exists W, store_of (dsk (bi s')) = do_writes W (D0, w0) /\ atomic D0 (logical D0 U) W)).
  - apply wp_if; intros E; apply Z.ltb_lt in E || apply Z.ltb_ge in E; [by apply flush_wp|].
    destruct Ht as [Hg Hbu (ls & Hl) (W & Hst & HW) (P & Hv & Hu) _ _ Hrm].
    pose proof (in_log_size _ _ _ _ Hl) as HsU. pose proof (il_is _ _ _ _ Hl) as [Hn _].
    assert (U = ∅) as -> by (apply map_size_empty_inv; lia).
    assert (P = ∅) as -> by (apply map_eq; intros k; rewrite Hu; by case_decide).
    pose proof (body_recovers D0 W HW Hsb Hlo) as (Hsb' & ls' & Hl' & Ha).
    wp_steps. rewrite (f_equal fst Hst : sectors _ = _). simpl.
    assert (Hlo' : logged (apply_writes D0 W) []).
    { eapply logged_ext; [|exact Hlo]. apply to_log_other; [done|]. simpl. lia. }
    split; [done|]. split; [done|]. split; [lia|]. split; [done|]. split; [done|]. exists W. split; [done|].
    assert (Hag : forall X, agree X D0 -> agree X (logical D0 ∅)) by (intros X HX k Hk; by rewrite HX, logical_lookup).
    assert (Ha' : agree (apply_writes D0 W) D0).
    { intros k Hk. apply to_log_other; [done|]. unfold outside in Hk. lia. }
    split; [by apply Hag|]. intros i. left. apply body_recovers; [by apply to_log_take|done..].
  - intros [] s1 (Hv1 & Hg1 & Hn1 & Hsb1 & Hl1 & HW). apply wp_bind.
    eapply wp_of_eq; [apply log_acquire_eq, Hg1|]. unfold log_upd. apply wp_bind, wp_modify, wp_bind, wp_zoom.
    destruct (view_sched _ _ _ _ Hv1) as (cur & ready & Hs1).
    wp_call thread_wakeup_wp; [exact Hon|exact Hs1|]. intros [] t (T & TQ & _ & _ & Hs2).
    eapply wp_of_eq; [reflexivity|]. split; [|exact HW]. split; [| |done|done|done|done].
    + apply view_th; [|done]. eauto.
    + apply (jgeo_lg (Jfs (lset l_th t (bi s1)) (lg s1))); [|by destruct Hg1..]. apply jgeo_bi; [done|]. done.
Qed.

(** A transaction whose body logs what it changes. *)
Definition transaction {A} (body : K jfs A) : K jfs A :=
  begin_trans ks ;; a ← body; commit_trans ks ;; mret a.

Lemma transaction_wp {A} (body : K jfs A) (Q : A -> blocks -> Prop) s : idle_log s ->
  (forall s1, trans (sectors (dsk (bi s))) (written (dsk (bi s))) s1 ∅ [] ->
     wp body (fun a s2 => exists U, trans (sectors (dsk (bi s))) (written (dsk (bi s))) s2 U [] /\
                            Q a (logical (sectors (dsk (bi s))) U)) s1) ->
  wp (transaction body)
     (fun a s' => idle_log s' /\ exists X W, Q a X /\ atomic (sectors (dsk (bi s))) X W /\
        store_of (dsk (bi s')) = do_writes W (store_of (dsk (bi s)))) s.
Proof.
  intros Hid Hbody. unfold transaction. apply wp_bind. wp_call tr_begin; [exact Hid|]. intros [] s1 Ht. apply wp_bind.
  eapply wp_mono; [by apply Hbody|]. intros a s2 (U & Ht2 & HQ). apply wp_bind.
  wp_call (tr_commit _ _ s2 U); [exact Ht2|apply Hid|apply Hid|]. intros [] s3 (Hid3 & W & HW & Hat).
  apply wp_ret. split; [done|]. exists (logical (sectors (dsk (bi s))) U), W. done.
Qed.

(** ** Updating blocks in a transaction *)
Abbreviation update := (Z * (mem -> mem))%type.
Definition run_update (u : update) : K jfs unit :=
  b ← zoom l_bi (bufcache_read ks ROOTDEV u.1);
  zoom l_bi (bupd b (fun x => with_data (u.2 (data x)) x)) ;;
  log_write ks b ;;
  zoom l_bi (bufcache_release ks b).
Fixpoint run_updates (us : list update) : K jfs unit :=
  match us with [] => mret tt | u :: us => run_update u ;; run_updates us end.
Definition apply_updates (D : blocks) (us : list update) : blocks :=
  foldl (fun D u => <[(ROOTDEV, u.1) := u.2 (D !!! (ROOTDEV, u.1))]> D) D us.

Lemma logical_insert D0 U k v : logical D0 (<[k := v]> U) = <[k := v]> (logical D0 U).
Proof. unfold logical. by rewrite insert_union_l. Qed.

Lemma run_update_wp D0 w0 s U u : trans D0 w0 s U [] -> home u.1 ->
  let v := u.2 (logical D0 U !!! (ROOTDEV, u.1)) in
  Z.of_nat (size (<[(ROOTDEV, u.1) := v]> U)) < NBUF -> Z.of_nat (size U) + 1 < sz ->
  wp (run_update u) (fun _ s' => trans D0 w0 s' (<[(ROOTDEV, u.1) := v]> U) []) s.
Proof.
  intros Ht Hu v Hr Hs. pose proof (tr_room _ _ _ _ _ Ht) as Hrm. unfold run_update. apply wp_bind.
  wp_call tr_read; [exact Ht|exact Hu|apply not_elem_of_nil|right; simpl; lia|]. intros b s1 Ht1. apply wp_bind.
  wp_call tr_modify; [exact Ht1|]. intros [] s2 Ht2. apply wp_bind. fold v in Ht2.
  wp_call tr_log_write; [exact Ht2|simpl; lia|exact Hs|]. intros [] s3 Ht3.
  wp_call tr_release; [exact Ht3|by rewrite logical_insert, lookup_total_insert_eq|]. done.
Qed.

Definition touched (us : list update) : gset (Z * Z) := list_to_set ((fun u => (ROOTDEV, u.1)) <$> us).

Lemma run_updates_wp D0 w0 us : forall s U (S : gset (Z * Z)), trans D0 w0 s U [] ->
  Forall (fun u => home u.1) us -> dom U ∪ touched us ⊆ S ->
  Z.of_nat (size S) < NBUF -> Z.of_nat (size S) + 1 < sz ->
  wp (run_updates us) (fun _ s' => exists U', trans D0 w0 s' U' [] /\
    logical D0 U' = apply_updates (logical D0 U) us) s.
Proof.
  induction us as [|u us IH]; intros s U S Ht Hh HS Hr Hs; cbn [run_updates].
  - apply wp_ret. eauto.
  - apply Forall_cons in Hh as [Hh Hhs]. unfold touched in HS. rewrite fmap_cons, list_to_set_cons in HS.
    fold (touched us) in HS. set (v := u.2 (logical D0 U !!! (ROOTDEV, u.1))).
    assert (HS' : dom (<[(ROOTDEV, u.1) := v]> U) ⊆ S) by (rewrite dom_insert_L; set_solver).
    pose proof (subseteq_size _ _ HS') as HsU'. rewrite size_dom in HsU'.
    assert (HsU : (size U <= size S)%nat) by (rewrite <- size_dom; apply subseteq_size; set_solver).
    apply wp_bind. wp_call run_update_wp; [exact Ht|exact Hh|fold v; lia|lia|]. fold v. intros [] s1 Ht1.
    wp_call (IH s1 _ S Ht1 Hhs); [set_solver|done|done|]. intros [] s2 (U' & Ht2 & E). exists U'. split; [done|].
    rewrite E, logical_insert. done.
Qed.

(** C2: transactions are atomic.  Any list of block updates, run between
    begin_trans and commit_trans, returns; the disk then has the updated
    blocks; and if the machine stops after any number of the disk writes of
    the transaction, log_init on the next boot returns and leaves, outside
    the log, either all blocks as they were before or all of them updated,
    with the log ready for the next transaction.  A transaction may touch
    nine different blocks, one fewer than there are buffers. *)
Theorem transaction_atomic s us :
  idle_log s -> Forall (fun u => home u.1) us ->
  Z.of_nat (size (touched us)) < NBUF -> Z.of_nat (size (touched us)) + 1 < sz ->
  let D := sectors (dsk (bi s)) in
  wp (transaction (run_updates us))
     (fun _ s' => idle_log s' /\ agree (sectors (dsk (bi s'))) (apply_updates D us) /\
        exists W, store_of (dsk (bi s')) = do_writes W (store_of (dsk (bi s))) /\
          forall n sc, booted sc -> sectors (dsk (bi sc)) = apply_writes D (take n W) ->
            wp (log_init ks)
               (fun _ s2 => idle_log s2 /\ (agree (sectors (dsk (bi s2))) D \/
                                            agree (sectors (dsk (bi s2))) (apply_updates D us))) sc) s.
Proof.
  intros Hid Hh Hr Hs D.
  wp_call (transaction_wp (run_updates us) (fun _ X => X = apply_updates D us) s); [exact Hid| |].
  - intros s1 Ht. wp_call (run_updates_wp _ _ us s1 ∅ (touched us)); [exact Ht|done|set_solver|done|done|].
    intros [] s2 (U & Ht2 & E). exists U. split; [done|]. rewrite E. f_equal. unfold logical. apply map_empty_union.
  - intros [] s' (Hid' & X & W & -> & [Ha Hrec] & HW). split; [done|].
    rewrite (f_equal fst HW : sectors _ = _). split; [done|]. exists W. split; [done|].
    intros n sc Hbo Hsc. destruct (Hrec n) as [Hn|Hn]; fold D in Hn; rewrite <- Hsc in Hn;
      (wp_call log_init_wp; [done|exact Hn|]); intros [] s2 (Hi2 & Ha2 & _); auto.
Qed.

(** ** Crashes during recovery *)
Inductive after_crashes (D : blocks) : blocks -> Prop :=
| no_crash : after_crashes D D
| one_crash D1 s s' W n : after_crashes D D1 -> booted s -> sectors (dsk (bi s)) = D1 ->
    log_init ks s = Ok tt s' -> written (dsk (bi s')) = written (dsk (bi s)) ++ W ->
    after_crashes D (apply_writes D1 (take n W)).

Lemma after_crashes_recovers D X D' : recovers D X -> after_crashes D D' -> recovers D' X.
Proof.
  intros HD. induction 1 as [|D1 s s' W n _ IH Hb Es Hrun HW]; [done|]. subst D1.
  destruct (wp_result _ _ _ _ _ (log_init_wp s X Hb IH) Hrun) as (_ & _ & W' & HW' & Hrec).
  apply (f_equal snd) in HW'. simpl in HW'. rewrite HW in HW'. apply app_inv_head in HW' as ->. apply Hrec.
Qed.

End ops.
End geometry.

(** ** A concrete instance

    A disk of 30 blocks, the last twelve for the log. *)
Definition demo_sb : mem := store32 (store32 (store32 ∅ 0 30) 8 32) 12 12.
Definition demo_fs_disk : blocks := {[(ROOTDEV, 1) := demo_sb]}.
Definition log0 : log := Log free_lock 0 0 0 0 0 ∅.

Lemma demo_geometry : geometry 18 12.
Proof. split; lia. Qed.

Lemma demo_fs_booted D : wp (zoom l_bi bufcache_init)
  (fun _ s => booted 18 12 0 s /\ sectors (dsk (bi s)) = D) (Jfs (demo_boot D) log0).
Proof.
  apply wp_zoom. eapply wp_mono; [apply demo_boot_view|]. intros [] s (Hv & Hd & Hh).
  split; [|by cbn [bi lset l_bi]; rewrite Hd]. split; [exact Hv|reflexivity|].
  intros x Hx. apply (demo_good_key s D); [exact Hd|exact Hh|]. unfold ROOTDEV. simpl. lia.
Qed.

Lemma demo_recovers D : D !!! (ROOTDEV, 1) = demo_sb -> D !!! (ROOTDEV, 18) = ∅ -> recovers 18 12 D D.
Proof.
  intros E1 E2. apply recovers_idle; [unfold sb_ok; by rewrite E1|].
  split; [by rewrite E2|done|by intros ? []%elem_of_nil|]. unfold LOGSIZE. simpl. lia.
Qed.


Definition demo_updates : list (Z * (mem -> mem)) :=
  [(5, fun _ => demo_block); (6, fun _ => demo_block); (5, fun d => <[1 := 43]> d)].

Lemma demo_idle D : D !!! (ROOTDEV, 1) = demo_sb -> D !!! (ROOTDEV, 18) = ∅ ->
  wp (zoom l_bi bufcache_init ;; log_init Pmm.demo_ks)
     (fun _ s => idle_log 18 12 0 s /\ agree 18 12 (sectors (dsk (bi s))) D) (Jfs (demo_boot D) log0).
Proof.
  intros E1 E2. apply wp_bind. eapply wp_mono; [apply demo_fs_booted|]. intros [] s (Hb & Hs).
  wp_call (log_init_wp 18 12 demo_geometry 0 Pmm.demo_ks demo_on_cpu s D);
    [done|rewrite Hs; by apply demo_recovers|].
  intros [] s' (H1 & H2 & _). done.
Qed.

(** After a crash, blocks 5 and 6 are both as before or both updated. *)
Definition demo_all_or_nothing (s : jfs) : Prop :=
  let D := sectors (dsk (bi s)) in
  D !!! (ROOTDEV, 5) = ∅ /\ D !!! (ROOTDEV, 6) = ∅ \/
  D !!! (ROOTDEV, 5) = <[1 := 43]> demo_block /\ D !!! (ROOTDEV, 6) = demo_block.

Lemma transaction_atomic_witness :
  wp ((zoom l_bi bufcache_init ;; log_init Pmm.demo_ks) ;;
      transaction Pmm.demo_ks (run_updates Pmm.demo_ks demo_updates))
     (fun _ s' => sectors (dsk (bi s')) !!! (ROOTDEV, 6) = demo_block /\
        exists D W, forall n,
          wp (zoom l_bi bufcache_init ;; log_init Pmm.demo_ks) (fun _ s2 => demo_all_or_nothing s2)
             (Jfs (demo_boot (apply_writes D (take n W))) log0))
     (Jfs (demo_boot demo_fs_disk) log0).
Proof.
  apply wp_bind. eapply wp_mono; [by apply demo_idle|]. intros [] s (Hid & Ha).
  assert (H5 : forall x, 0 <= x < 18 -> x <> 1 -> sectors (dsk (bi s)) !!! (ROOTDEV, x) = ∅).
  { intros x Hx Hx1. rewrite Ha by (unfold outside; simpl; lia). unfold demo_fs_disk.
    rewrite lookup_total_alt, lookup_singleton_ne by (intros E; injection E; lia). reflexivity. }
  eapply wp_mono; [apply (transaction_atomic 18 12 demo_geometry 0 Pmm.demo_ks demo_on_cpu s demo_updates Hid)|].
  - repeat (apply Forall_cons; split; [unfold home; simpl; lia|]). apply Forall_nil_2.
  - reflexivity.
  - reflexivity.
  - intros [] s' (_ & Ha' & W & _ & Hc).
    assert (Ho : forall x, 0 <= x < 18 -> outside 18 12 (ROOTDEV, x)) by (intros x Hx; unfold outside; simpl; lia).
    split; [rewrite Ha' by (apply Ho; lia); simpl; rewrite lookup_total_insert_ne by done; apply lookup_total_insert_eq|].
    exists (sectors (dsk (bi s))), W. intros n. apply wp_bind. eapply wp_mono; [apply demo_fs_booted|].
    intros [] sc (Hb & Hs). eapply wp_mono; [exact (Hc n sc Hb Hs)|]. intros [] s2 (_ & Hc2).
    unfold demo_all_or_nothing. destruct Hc2 as [Hc2|Hc2]; rewrite !Hc2 by (apply Ho; lia).
    + left. rewrite !H5 by lia. done.
    + right. simpl. rewrite (lookup_total_insert_ne _ (ROOTDEV, 5) (ROOTDEV, 6)) by done.
      rewrite !lookup_total_insert_eq, (lookup_total_insert_ne _ (ROOTDEV, 6)), lookup_total_insert_eq by done. done.
Defined.
