(* ===== verification/Block.v ===== *)
(** * Disk blocks (kern/fs/block)

    The bitmap of free blocks, and zeroing, allocating and freeing a block
    inside a transaction. *)

From stdpp Require Import base gmap list numbers.
From S2P Require Import Prelude Lock Mem Thread Queue Sched Ide IdeSpec Bufcache BlockIO Log LogSpec.

Definition SIZEOF_DINODE : Z := 64.
(** Inodes per block, and bitmap bits per block. *)
Definition IPB : Z := BSIZE / SIZEOF_DINODE.
Definition BPB : Z := BSIZE * 8.
Definition IBLOCK (i : Z) : Z := u32 (i / IPB + 2).
Definition BBLOCK (b ninodes : Z) : Z := u32 (b / BPB + ninodes / IPB + 3).

Section ops.
Context `{fs_layout} (ks : kstack).

Definition block_zero (dev0 bno : Z) : K jfs unit :=
  bp ← zoom l_bi (bufcache_read ks dev0 bno);
  zoom l_bi (bupd bp (fun x => with_data ∅ x)) ;;
  log_write ks bp ;;
  zoom l_bi (bufcache_release ks bp).

(** One iteration of the inner loop of block_alloc over the bits of the
    bitmap block in [bp], which starts at block [b]. *)
Definition alloc_bit (size b bp bi : Z) : K jfs (Z + option Z) :=
  if (bi <? BPB) && (u32 (b + bi) <? size) then
    let m := Z.shiftl 1 (bi mod 8) in
    x ← zoom l_bi (deref bp);
    if Z.land (load8 (data x) (bi / 8)) m =? 0 then
      zoom l_bi (bupd bp (fun x => with_data (store8 (data x) (bi / 8) (Z.lor (load8 (data x) (bi / 8)) m)) x)) ;;
      mret (inr (Some bi))
    else mret (inl (bi + 1))
  else mret (inr None).

Definition block_alloc (dev0 : Z) : K jfs Z :=
  sb ← zoom l_bi (read_superblock ks dev0);
  while (fun b =>
    if u32 b <? sb_size sb then
      bp ← zoom l_bi (bufcache_read ks dev0 (BBLOCK b (sb_ninodes sb)));
      r ← while (alloc_bit (sb_size sb) b bp) 0;
      match r with
      | Some bi =>
          log_write ks bp ;;
          zoom l_bi (bufcache_release ks bp) ;;
          block_zero dev0 (u32 (b + bi)) ;;
          mret (inr (u32 (b + bi)))
      | None =>
          zoom l_bi (bufcache_release ks bp) ;;
          b ← int_add b BPB;
          mret (inl b)
      end
    else panic) 0.

Definition block_free (dev0 b : Z) : K jfs unit :=
  sb ← zoom l_bi (read_superblock ks dev0);
  bp ← zoom l_bi (bufcache_read ks dev0 (BBLOCK b (sb_ninodes sb)));
  let bi := b mod BPB in
  let m := Z.shiftl 1 (bi mod 8) in
  x ← zoom l_bi (deref bp);
  (if Z.land (load8 (data x) (bi / 8)) m =? 0 then panic else mret tt) ;;
  zoom l_bi (bupd bp (fun x => with_data (store8 (data x) (bi / 8) (Z.land (load8 (data x) (bi / 8)) (Z.lnot m))) x)) ;;
  log_write ks bp ;;
  zoom l_bi (bufcache_release ks bp).
End ops.

(** ** Bits *)
Lemma land_bit v i : 0 <= i -> (Z.land v (Z.shiftl 1 i) =? 0) = negb (Z.testbit v i).
Proof.
  intros Hi. rewrite Z.shiftl_1_l. destruct (Z.testbit v i) eqn:E; simpl.
  - apply Z.eqb_neq. intros H0. apply (f_equal (fun x => Z.testbit x i)) in H0.
    rewrite Z.land_spec, E, Z.pow2_bits_true, Z.bits_0 in H0 by done. done.
  - apply Z.eqb_eq. apply Z.bits_inj'. intros n Hn. rewrite Z.land_spec, Z.bits_0.
    destruct (decide (n = i)) as [->|Hne]; [by rewrite E|]. rewrite Z.pow2_bits_false by lia. apply andb_false_r.
Qed.

Lemma byte_bit v n : 0 <= v < 256 -> 8 <= n -> Z.testbit v n = false.
Proof. intros Hv Hn. by apply (testbit_small v 8). Qed.

Lemma byte_of_bits v : (forall n, 8 <= n -> Z.testbit v n = false) -> 0 <= v -> v mod 256 = v.
Proof.
  intros Hv Hp. change 256 with (2 ^ 8). apply Z.bits_inj'. intros n Hn.
  destruct (decide (n < 8)); [by rewrite Z.mod_pow2_bits_low by lia|].
  rewrite Z.mod_pow2_bits_high, Hv by lia. done.
Qed.

Lemma set_bit_byte v i : 0 <= v < 256 -> 0 <= i < 8 -> Z.lor v (Z.shiftl 1 i) mod 256 = Z.lor v (Z.shiftl 1 i).
Proof.
  intros Hv Hi. apply byte_of_bits.
  - intros n Hn. rewrite Z.lor_spec, byte_bit, Z.shiftl_1_l, Z.pow2_bits_false by lia. done.
  - apply Z.lor_nonneg. split; [lia|]. by apply Z.shiftl_nonneg.
Qed.

Lemma clear_bit_byte v m : 0 <= v < 256 -> Z.land v (Z.lnot m) mod 256 = Z.land v (Z.lnot m).
Proof.
  intros Hv. apply byte_of_bits.
  - intros n Hn. rewrite Z.land_spec, byte_bit by lia. done.
  - apply Z.land_nonneg. lia.
Qed.

(** ** The bitmap *)
Definition used_bit (ni : Z) (L : blocks) (x : Z) : bool :=
  Z.testbit (load8 (L !!! (ROOTDEV, BBLOCK x ni)) (x mod BPB / 8)) (x mod 8).
Definition mark_used (d : mem) (x : Z) : mem :=
  store8 d (x mod BPB / 8) (Z.lor (load8 d (x mod BPB / 8)) (Z.shiftl 1 (x mod 8))).
Definition mark_free (d : mem) (x : Z) : mem :=
  store8 d (x mod BPB / 8) (Z.land (load8 d (x mod BPB / 8)) (Z.lnot (Z.shiftl 1 (x mod 8)))).
Definition set_used (ni : Z) (L : blocks) (x : Z) : blocks :=
  <[(ROOTDEV, BBLOCK x ni) := mark_used (L !!! (ROOTDEV, BBLOCK x ni)) x]> L.
Definition set_free (ni : Z) (L : blocks) (x : Z) : blocks :=
  <[(ROOTDEV, BBLOCK x ni) := mark_free (L !!! (ROOTDEV, BBLOCK x ni)) x]> L.

(** Two blocks with one bitmap byte and bit are the same block. *)
Lemma bit_inj ni x y : 0 <= ni -> 0 <= x < 268435456 -> 0 <= y < 268435456 -> ni < 2147483648 ->
  BBLOCK x ni = BBLOCK y ni -> x mod BPB / 8 = y mod BPB / 8 -> x mod 8 = y mod 8 -> x = y.
Proof.
  intros Hni Hx Hy Hn. unfold BBLOCK. change BPB with 4096. change IPB with 8.
  rewrite !u32_small by (unfold W32; zdiv). intros. zdiv.
Qed.

Lemma used_bit_mark (f : mem -> Z -> mem) (g : Z -> Z -> Z) (r : bool) ni L x y :
  (forall d, f d x = store8 d (x mod BPB / 8) (g (load8 d (x mod BPB / 8)) (x mod 8))) ->
  (forall v i n, 0 <= v < 256 -> 0 <= i < 8 -> 0 <= n < 8 ->
     g v i mod 256 = g v i /\ Z.testbit (g v i) n = if decide (n = i) then r else Z.testbit v n) ->
  0 <= ni < 2147483648 -> 0 <= x < 268435456 -> 0 <= y < 268435456 ->
  mem_ok (L !!! (ROOTDEV, BBLOCK x ni)) ->
  used_bit ni (<[(ROOTDEV, BBLOCK x ni) := f (L !!! (ROOTDEV, BBLOCK x ni)) x]> L) y =
  if decide (y = x) then r else used_bit ni L y.
Proof.
  intros Hf Hg Hni Hx Hy Hok. unfold used_bit.
  destruct (decide (BBLOCK x ni = BBLOCK y ni)) as [Eb|Nb].
  - rewrite Eb, lookup_total_insert_eq, <- Eb, Hf.
    destruct (decide (x mod BPB / 8 = y mod BPB / 8)) as [Eo|No].
    + rewrite Eo, load8_store8_same, <- Eo. set (v := load8 _ _).
      destruct (Hg v (x mod 8) (y mod 8)) as [-> ->]; [apply Hok|apply Z.mod_pos_bound; lia..|].
      destruct (decide (y = x)) as [->|Nyx]; [by rewrite decide_True|].
      rewrite decide_False; [done|]. intros Em. apply Nyx. symmetry. eapply (bit_inj ni); (lia || done).
    + rewrite load8_store8_ne by done. rewrite decide_False; [done|]. by intros ->.
  - rewrite lookup_total_insert_ne, decide_False; [done| |]; intros E; [by subst|]. by injection E.
Qed.

Lemma used_bit_set_used ni L x y : 0 <= ni < 2147483648 -> 0 <= x < 268435456 -> 0 <= y < 268435456 ->
  mem_ok (L !!! (ROOTDEV, BBLOCK x ni)) ->
  used_bit ni (set_used ni L x) y = if decide (y = x) then true else used_bit ni L y.
Proof.
  apply (used_bit_mark mark_used (fun v i => Z.lor v (Z.shiftl 1 i))); [done|].
  intros v i n Hv Hi Hn. split; [by apply set_bit_byte|]. rewrite Z.lor_spec, Z.shiftl_1_l, Z.pow2_bits_eqb by lia.
  case_decide; [subst; rewrite Z.eqb_refl; apply orb_true_r|]. rewrite (proj2 (Z.eqb_neq _ _)) by lia. apply orb_false_r.
Qed.

Lemma used_bit_set_free ni L x y : 0 <= ni < 2147483648 -> 0 <= x < 268435456 -> 0 <= y < 268435456 ->
  mem_ok (L !!! (ROOTDEV, BBLOCK x ni)) ->
  used_bit ni (set_free ni L x) y = if decide (y = x) then false else used_bit ni L y.
Proof.
  apply (used_bit_mark mark_free (fun v i => Z.land v (Z.lnot (Z.shiftl 1 i)))); [done|].
  intros v i n Hv Hi Hn. split; [by apply clear_bit_byte|].
  rewrite Z.land_spec, Z.lnot_spec, Z.shiftl_1_l, Z.pow2_bits_eqb by lia.
  case_decide; [subst; rewrite Z.eqb_refl; apply andb_false_r|]. rewrite (proj2 (Z.eqb_neq _ _)) by lia. apply andb_true_r.
Qed.

(** ** Specifications inside a transaction *)
Section spec.
Context (st sz : Z) (Hgeo : geometry st sz) `{fs_layout} (c : Z) (ks : kstack) (Hon : on_cpu c ks).
Context (D0 : blocks) (w0 : writes).
Abbreviation trans := (trans st sz c D0 w0).

(** Reading the superblock. *)
Lemma tr_superblock s U held : trans s U held -> Z.of_nat (size U) + Z.of_nat (length held) < NBUF ->
  wp (zoom l_bi (read_superblock ks ROOTDEV))
     (fun sb s' => sb = sb_of (D0 !!! (ROOTDEV, 1)) /\ trans s' U held) s.
Proof.
  intros Ht Hr. pose proof Ht as [Hg _ (ls & Hl) _ (P & Hv & Hu) Hh Hnd _].
  pose proof (unheld_size _ _ _ Hu) as HsP. pose proof Hgeo as [? ? ?]. apply wp_zoom.
  wp_call (read_superblock_wp c ks Hon (bi s) P held.*1.*1); [exact Hv|apply Hg; lia| | | |].
  - intros b Hb. apply list_elem_of_fmap in Hb as (y & -> & Hy). apply list_elem_of_fmap in Hy as (z & -> & Hz).
    destruct (Hh z Hz) as [[_ -> _ _ _ _] [_ Hz2]]. intros E. rewrite E in Hz2. unfold home in Hz2. simpl in Hz2. lia.
  - rewrite Hu. case_decide; [done|]. destruct (U !! (ROOTDEV, 1)) eqn:EU; [|done].
    destruct (proj1 (il_dom _ _ _ _ _ _ Hl (ROOTDEV, 1)) ltac:(by eexists)) as (y & Hy & E). injection E as <-.
    apply (il_home _ _ _ _ _ _ Hl) in Hy. unfold home in Hy. lia.
  - rewrite !length_fmap. lia.
  - intros sb s1 (-> & Hv1 & Hp1 & Hst1 & Hd1). split.
    + by rewrite (trans_disk _ _ _ _ _ _ _ _ _ Ht) by (simpl; lia).
    + eapply trans_step; [exact Ht|exact Hd1|exact Hst1|exact Hv1|exact Hu| |exact Hnd].
      eapply holds_pay; [exact Hh|exact Hp1].
Qed.

Lemma block_zero_wp s U x : trans s U [] -> home st x ->
  Z.of_nat (size (<[(ROOTDEV, x) := ∅ : mem]> U)) < NBUF -> Z.of_nat (size U) + 1 < sz ->
  wp (block_zero ks ROOTDEV x) (fun _ s' => trans s' (<[(ROOTDEV, x) := ∅]> U) []) s.
Proof. intros Ht Hx Hr Hs. exact (run_update_wp st sz Hgeo c ks Hon D0 w0 s U (x, fun _ => ∅) Ht Hx Hr Hs). Qed.

(** The first [b + bi] below [size] whose bit is clear. *)
Lemma alloc_bits_wp s U bp k d held b x size : trans s U ((bp, k, d) :: held) -> 0 <= b <= x -> x < size < 268435456 ->
  b mod BPB = 0 -> (x < b + BPB -> Z.testbit (load8 d (x mod BPB / 8)) (x mod 8) = false) ->
  (forall y, b <= y < x -> y < b + BPB -> Z.testbit (load8 d (y mod BPB / 8)) (y mod 8) = true) ->
  wp (while (alloc_bit size b bp) 0)
     (fun r s' => if decide (x < b + BPB) then r = Some (x - b) /\ trans s' U ((bp, k, mark_used d x) :: held)
                  else r = None /\ trans s' U ((bp, k, d) :: held)) s.
Proof.
  intros Ht Hb Hx Hb0 Hfree Hused. pose proof (tr_held _ _ _ _ _ _ _ _ Ht) as Hh.
  destruct (Hh _ ltac:(apply elem_of_cons; left; reflexivity)) as [[Hr _ Hd _ _ _] _]. simpl in Hr, Hd.
  change BPB with 4096 in *.
  apply (wp_while _ (fun j s' => s' = s /\ 0 <= j <= 4096 /\ b + j <= x) (fun j _ => 4096 - j)); [| |lia].
  - intros j s' (-> & Hj & Hjx) _. unfold alloc_bit. change BPB with 4096. rewrite u32_small by (unfold W32; lia).
    rewrite (proj2 (Z.ltb_lt (b + j) size)), andb_true_r by lia.
    apply wp_if; intros E; apply Z.ltb_lt in E || apply Z.ltb_ge in E.
    + assert (E1 : (b + j) mod 4096 = j) by zdiv. assert (E2 : (b + j) mod 8 = j mod 8) by zdiv.
      apply wp_bind, wp_zoom. eapply wp_of_eq; [apply deref_eq; cbn [lget l_bi]; lia|]. cbn [lget lset l_bi].
      replace (Jfs (bi s) (lg s)) with s by (by destruct s). rewrite Hd, land_bit by (apply Z.mod_pos_bound; lia).
      rewrite negb_if. destruct (decide (b + j = x)) as [<-|Hne].
      * rewrite E1, E2 in Hfree. rewrite Hfree by lia. apply wp_bind.
        wp_call (tr_modify st sz Hgeo c ks Hon D0 w0 s U held bp k d (fun d => store8 d (j / 8) (Z.lor (load8 d (j / 8)) (Z.shiftl 1 (j mod 8)))));
          [exact Ht|].
        intros [] s1 Ht1. apply wp_ret. rewrite decide_True by lia. split; [f_equal; lia|].
        unfold mark_used. change BPB with 4096. rewrite E1, E2. exact Ht1.
      * pose proof (Hused (b + j) ltac:(lia) ltac:(lia)) as Hy. rewrite E1, E2 in Hy. rewrite Hy. apply wp_ret.
        split; [|lia]. split; [done|lia].
    + apply wp_ret. rewrite decide_False by lia. done.
  - split; [done|lia].
Qed.

(** The bitmap lies below the log; a data block is not part of it. *)
Record bitmap_ok (ni : Z) : Prop := {
  bk_sb : sb_ok st sz D0;
  bk_ni : sb_ninodes (sb_of (D0 !!! (ROOTDEV, 1))) = ni;
  bk_range : 0 <= ni < 2147483648;
  bk_home : forall x, 0 <= x < st + sz -> home st (BBLOCK x ni)
}.
Definition data_block (ni x : Z) : Prop := home st x /\ forall y, 0 <= y < st + sz -> BBLOCK y ni <> x.

Lemma size_insert_le (U : blocks) k v : (size U <= size (<[k := v]> U) <= S (size U))%nat.
Proof.
  destruct (U !! k) eqn:E; [rewrite map_size_insert_Some by (by eexists)|rewrite map_size_insert_None by done]; lia.
Qed.

Lemma BBLOCK_same ni b x : 0 <= ni < 2147483648 -> 0 <= b <= x -> x < 268435456 -> b mod BPB = 0 -> x < b + BPB ->
  BBLOCK x ni = BBLOCK b ni.
Proof. intros. unfold BBLOCK. change BPB with 4096 in *. change IPB with 8. f_equal. zdiv. Qed.

Lemma block_alloc_wp s U ni x : trans s U [] -> bitmap_ok ni -> data_block ni x ->
  used_bit ni (logical D0 U) x = false -> (forall y, 0 <= y < x -> used_bit ni (logical D0 U) y = true) ->
  Z.of_nat (size U) + 2 < NBUF -> Z.of_nat (size U) + 2 < sz ->
  wp (block_alloc ks ROOTDEV)
     (fun r s' => r = x /\ exists U', trans s' U' [] /\ Z.of_nat (size U') <= Z.of_nat (size U) + 2 /\
        logical D0 U' = <[(ROOTDEV, x) := ∅]> (set_used ni (logical D0 U) x)) s.
Proof.
  intros Ht [[Hsb1 Hsb2] Hni Hnir Hbh] [Hhx Hxb] Hfree Hused Hr Hs. pose proof Hgeo as [? ? ?].
  pose proof Hhx as [Hx0 Hx1]. set (L := logical D0 U) in *. unfold block_alloc. apply wp_bind.
  wp_call tr_superblock; [exact Ht|simpl; lia|]. intros sb s0 (-> & Ht0). rewrite Hsb1, Hni.
  apply (wp_while _ (fun b s' => trans s' U [] /\ 0 <= b <= x /\ b mod BPB = 0) (fun b _ => x - b)); [| |lia].
  - intros b s1 (Ht1 & Hb & Hb0) _. rewrite u32_small by (unfold W32; lia). rewrite (proj2 (Z.ltb_lt b (st + sz))) by lia.
    apply wp_bind. wp_call (tr_read st sz Hgeo c ks Hon D0 w0 s1 U [] (BBLOCK b ni));
      [exact Ht1|apply Hbh; lia|apply not_elem_of_nil|right; simpl; lia|].
    intros bp s2 Ht2. fold L in Ht2. apply wp_bind.
    assert (Hbits : forall y, b <= y <= x -> y < b + BPB ->
      Z.testbit (load8 (L !!! (ROOTDEV, BBLOCK b ni)) (y mod BPB / 8)) (y mod 8) = used_bit ni L y).
    { intros y Hy1 Hy2. unfold used_bit. by rewrite (BBLOCK_same ni b y) by lia. }
    wp_call (alloc_bits_wp s2 U bp _ _ [] b x (st + sz));
      [exact Ht2|lia|lia|exact Hb0|intros; rewrite Hbits by lia; exact Hfree|
       intros y Hy1 Hy2; rewrite Hbits by lia; apply Hused; lia|].
    intros r s3. case_decide as Hxb4.
    + intros [-> Ht3]. rewrite <- (BBLOCK_same ni b x) in Ht3 by (lia || done). set (k := (ROOTDEV, BBLOCK x ni)) in *.
      fold (set_used ni L x) in Ht3. set (v := mark_used (L !!! k) x) in *.
      pose proof (size_insert_le U k v) as Hs1. pose proof (size_insert_le (<[k := v]> U) (ROOTDEV, x) ∅) as Hs2.
      apply wp_bind. wp_call tr_log_write; [exact Hgeo|exact Hon|exact Ht3|simpl; lia|lia|].
      intros [] s4 Ht4. apply wp_bind.
      wp_call tr_release; [exact Hgeo|exact Hon|exact Ht4|by rewrite logical_insert, lookup_total_insert_eq|].
      intros [] s5 Ht5. apply wp_bind. rewrite u32_small by (unfold W32; lia). replace (b + (x - b)) with x by lia.
      wp_call block_zero_wp; [exact Ht5|exact Hhx|lia|lia|]. intros [] s6 Ht6. apply wp_ret. split; [done|].
      eexists. split; [exact Ht6|]. split; [lia|]. rewrite !logical_insert. done.
    + intros [-> Ht3]. apply wp_bind. wp_call tr_release; [exact Hgeo|exact Hon|exact Ht3|done|].
      intros [] s4 Ht4. unfold int_add. change BPB with 4096 in *. wp_steps. split; [|lia]. split; [done|]. split; [lia|zdiv].
  - split; [exact Ht0|]. split; [lia|done].
Qed.

Lemma block_free_wp s U ni x : trans s U [] -> bitmap_ok ni -> 0 <= x < st + sz ->
  used_bit ni (logical D0 U) x = true -> Z.of_nat (size U) + 1 < NBUF -> Z.of_nat (size U) + 1 < sz ->
  wp (block_free ks ROOTDEV x)
     (fun _ s' => exists U', trans s' U' [] /\ Z.of_nat (size U') <= Z.of_nat (size U) + 1 /\
        logical D0 U' = set_free ni (logical D0 U) x) s.
Proof.
  intros Ht [_ Hni Hnir Hbh] Hx Hused Hr Hs. pose proof Hgeo as [? ? ?]. unfold block_free. apply wp_bind.
  wp_call tr_superblock; [exact Ht|simpl; lia|]. intros sb s0 (-> & Ht0). rewrite Hni. apply wp_bind.
  set (L := logical D0 U) in *. set (k := (ROOTDEV, BBLOCK x ni)).
  wp_call (tr_read st sz Hgeo c ks Hon D0 w0 s0 U [] (BBLOCK x ni));
    [exact Ht0|apply Hbh; lia|apply not_elem_of_nil|right; simpl; lia|].
  intros bp s1 Ht1. fold L k in Ht1. pose proof (tr_held _ _ _ _ _ _ _ _ Ht1) as Hh.
  destruct (Hh _ ltac:(apply elem_of_cons; left; reflexivity)) as [[Hbr _ Hd _ _ _] _]. simpl in Hbr, Hd.
  assert (E : x mod BPB mod 8 = x mod 8) by (change BPB with 4096; zdiv).
  apply wp_bind, wp_zoom. eapply wp_of_eq; [apply deref_eq; cbn [lget l_bi]; lia|]. cbn [lget lset l_bi].
  replace (Jfs (bi s1) (lg s1)) with s1 by (by destruct s1). rewrite Hd, E, land_bit by (apply Z.mod_pos_bound; lia).
  unfold used_bit in Hused. fold k in Hused. rewrite Hused. apply wp_bind, wp_ret, wp_bind.
  wp_call (tr_modify st sz Hgeo c ks Hon D0 w0 s1 U [] bp k (L !!! k) (fun d => mark_free d x)); [exact Ht1|].
  intros [] s2 Ht2. apply wp_bind. pose proof (size_insert_le U k (mark_free (L !!! k) x)) as Hs1.
  wp_call tr_log_write; [exact Hgeo|exact Hon|exact Ht2|simpl; lia|lia|]. intros [] s3 Ht3.
  wp_call tr_release; [exact Hgeo|exact Hon|exact Ht3|by rewrite logical_insert, lookup_total_insert_eq|].
  intros [] s4 Ht4. eexists. split; [exact Ht4|]. split; [lia|]. by rewrite logical_insert.
Qed.
End spec.

(** ** Allocation as a transaction *)
Section transactions.
Context (st sz : Z) (Hgeo : geometry st sz) `{fs_layout} (c : Z) (ks : kstack) (Hon : on_cpu c ks).

Lemma used_bit_agree ni D X y : (forall x, 0 <= x < st + sz -> home st (BBLOCK x ni)) -> agree st sz D X ->
  0 <= y < st + sz -> used_bit ni D y = used_bit ni X y.
Proof. intros Hb Ha Hy. unfold used_bit. rewrite Ha; [done|]. by apply home_outside, Hb. Qed.

Lemma logical_nil D : logical D ∅ = D.
Proof. apply map_empty_union. Qed.

(** C23: block_alloc, run as a transaction, returns the first block whose
    bit in the bitmap is clear; it sets this bit and no other, zeroes this
    block, and changes no other block outside the bitmap and the log; after
    a crash at any disk write, recovery gives the disk from before or this
    one. *)
Theorem block_alloc_first_free s ni x :
  let D := sectors (dsk (bi s)) in
  idle_log st sz c s -> bitmap_ok st sz D ni -> 3 <= sz -> data_block st sz ni x ->
  mem_ok (D !!! (ROOTDEV, BBLOCK x ni)) ->
  used_bit ni D x = false -> (forall y, 0 <= y < x -> used_bit ni D y = true) ->
  wp (transaction ks (block_alloc ks ROOTDEV))
     (fun r s' => let D' := sectors (dsk (bi s')) in
        r = x /\ idle_log st sz c s' /\ D' !!! (ROOTDEV, x) = ∅ /\
        (forall y, 0 <= y < st + sz -> used_bit ni D' y = if decide (y = x) then true else used_bit ni D y) /\
        (forall k, outside st sz k -> k <> (ROOTDEV, x) -> k <> (ROOTDEV, BBLOCK x ni) -> D' !!! k = D !!! k) /\
        exists W, store_of (dsk (bi s')) = do_writes W (store_of (dsk (bi s))) /\
          forall n, recovers st sz (apply_writes D (take n W)) D \/ recovers st sz (apply_writes D (take n W)) D') s.
Proof.
  intros D Hid Hbm Hsz Hx Hok Hfree Hused. pose proof Hx as [Hhx Hxb]. pose proof Hhx as [Hx0 _].
  pose proof Hgeo as [? ? ?]. pose proof Hbm as [_ _ Hnir Hbh].
  eapply wp_mono; [apply (transaction_wp st sz Hgeo c ks Hon (block_alloc ks ROOTDEV)
    (fun r X => r = x /\ X = <[(ROOTDEV, x) := ∅]> (set_used ni D x)) s Hid)|].
  - intros s1 Ht. wp_call (block_alloc_wp st sz Hgeo c ks Hon _ _ s1 ∅ ni x Ht Hbm Hx); rewrite ?logical_nil.
    + exact Hfree.
    + exact Hused.
    + done.
    + rewrite map_size_empty. lia.
    + intros r s2 (-> & U' & Ht2 & _ & E). exists U'. rewrite E. done.
  - cbv beta. intros r s' (Hid' & X & W & [-> EX] & [Ha Hrec] & HW).
    assert (E : sectors (dsk (bi s')) = apply_writes D W) by exact (f_equal fst HW). rewrite E. fold D in Ha, Hrec.
    split; [done|]. split; [done|]. split; [|split; [|split]].
    + rewrite Ha by (by apply home_outside). subst X. apply lookup_total_insert_eq.
    + intros y Hy. rewrite (used_bit_agree ni _ X) by done. rewrite <- (used_bit_set_used ni D x y) by (done || lia).
      subst X. unfold used_bit. rewrite lookup_total_insert_ne; [done|]. intros E'. injection E' as E'. by apply (Hxb y Hy).
    + intros k Hk K1 K2. rewrite Ha by done. subst X. unfold set_used. by rewrite !lookup_total_insert_ne.
    + exists W. split; [done|]. intros n. destruct (Hrec n) as [Hn|Hn]; [by left|right].
      eapply recovers_agree; [exact Hn|]. intros k Hk. by rewrite Ha.
Qed.

(** Freeing an allocated block restores the bitmap: block_alloc
    followed by block_free of its result, in one transaction, leaves every
    bit of the bitmap as it was. *)
Theorem alloc_free_roundtrip s ni x :
  let D := sectors (dsk (bi s)) in
  idle_log st sz c s -> bitmap_ok st sz D ni -> 5 <= sz -> data_block st sz ni x ->
  mem_ok (D !!! (ROOTDEV, BBLOCK x ni)) ->
  used_bit ni D x = false -> (forall y, 0 <= y < x -> used_bit ni D y = true) ->
  wp (transaction ks (b ← block_alloc ks ROOTDEV; block_free ks ROOTDEV b))
     (fun _ s' => idle_log st sz c s' /\
        forall y, 0 <= y < st + sz -> used_bit ni (sectors (dsk (bi s'))) y = used_bit ni D y) s.
Proof.
  intros D Hid Hbm Hsz Hx Hok Hfree Hused. pose proof Hx as [Hhx Hxb]. pose proof Hhx as [Hx0 _].
  pose proof Hgeo as [? ? ?]. pose proof Hbm as [_ _ Hnir Hbh].
  set (X1 := <[(ROOTDEV, x) := ∅]> (set_used ni D x)).
  assert (Hne : forall y, 0 <= y < st + sz -> (ROOTDEV, x) <> (ROOTDEV, BBLOCK y ni)).
  { intros y Hy E. injection E as E. by apply (Hxb y Hy). }
  assert (Hb1 : forall y, 0 <= y < st + sz -> used_bit ni X1 y = if decide (y = x) then true else used_bit ni D y).
  { intros y Hy. rewrite <- (used_bit_set_used ni D x y) by (done || lia). unfold X1, used_bit.
    rewrite lookup_total_insert_ne; [done|]. by apply Hne. }
  eapply wp_mono; [apply (transaction_wp st sz Hgeo c ks Hon _ (fun _ X => X = set_free ni X1 x) s Hid)|].
  - intros s1 Ht. apply wp_bind.
    wp_call (block_alloc_wp st sz Hgeo c ks Hon _ _ s1 ∅ ni x Ht Hbm Hx); rewrite ?logical_nil;
      [exact Hfree|exact Hused|done|rewrite map_size_empty; lia|].
    intros r s2 (-> & U1 & Ht2 & HsU & E1). fold D X1 in E1. rewrite map_size_empty in HsU.
    wp_call (block_free_wp st sz Hgeo c ks Hon _ _ s2 U1 ni x Ht2 Hbm); [lia| |unfold NBUF; lia|lia|].
    { fold D. rewrite E1, Hb1, decide_True by (done || lia). done. }
    intros [] s3 (U2 & Ht3 & _ & E2). exists U2. split; [done|]. fold D in E2 |- *. by rewrite E2, E1.
  - cbv beta. intros [] s' (Hid' & X & W & -> & [Ha _] & HW). split; [done|]. intros y Hy.
    rewrite (f_equal fst HW : sectors _ = _). rewrite (used_bit_agree ni _ (set_free ni X1 x)) by done.
    rewrite used_bit_set_free; [|done|lia|lia|].
    + case_decide as Ey; [by subst|]. by rewrite Hb1, decide_False.
    + unfold X1, set_used. rewrite lookup_total_insert_ne, lookup_total_insert_eq by (apply Hne; lia).
      unfold mark_used. by apply mem_ok_store8.
Qed.
End transactions.

(** ** A concrete instance: blocks 0 to 9 are in use. *)
Definition demo_bitmap : mem := store8 (store8 ∅ 0 255) 1 3.
Definition demo_bitmap_disk : blocks := <[(ROOTDEV, 7) := demo_bitmap]> demo_fs_disk.

Lemma demo_bblock y : 0 <= y < 30 -> BBLOCK y 32 = 7.
Proof. intros Hy. unfold BBLOCK. change BPB with 4096. change IPB with 8. rewrite Z.div_small by lia. reflexivity. Qed.

Lemma demo_bitmap_facts D : agree 18 12 D demo_bitmap_disk ->
  bitmap_ok 18 12 D 32 /\ data_block 18 12 32 10 /\ mem_ok (D !!! (ROOTDEV, BBLOCK 10 32)) /\
  used_bit 32 D 10 = false /\ forall y, 0 <= y < 10 -> used_bit 32 D y = true.
Proof.
  intros Ha. assert (Ho : forall x, 0 <= x < 18 -> outside 18 12 (ROOTDEV, x)) by (intros x Hx; unfold outside; simpl; lia).
  assert (E1 : D !!! (ROOTDEV, 1) = demo_sb) by (rewrite Ha by (apply Ho; lia); reflexivity).
  assert (E7 : D !!! (ROOTDEV, 7) = demo_bitmap) by (rewrite Ha by (apply Ho; lia); reflexivity).
  split; [split|split; [split|split; [|split]]].
  - unfold sb_ok. rewrite E1. by split.
  - by rewrite E1.
  - lia.
  - intros x Hx. rewrite demo_bblock by lia. unfold home. lia.
  - unfold home. lia.
  - intros y Hy. rewrite demo_bblock by lia. lia.
  - rewrite demo_bblock, E7 by lia. unfold demo_bitmap. auto with mem.
  - unfold used_bit. rewrite demo_bblock, E7 by lia. reflexivity.
  - intros y Hy. unfold used_bit. rewrite demo_bblock, E7 by lia. change BPB with 4096. rewrite (Z.mod_small y 4096) by lia.
    assert (y ∈ seqZ 0 10) as Hin by (apply elem_of_seqZ; lia). revert Hin. clear. intros Hin.
    repeat (apply elem_of_cons in Hin as [->|Hin]; [reflexivity|]). by apply elem_of_nil in Hin.
Qed.

Lemma block_alloc_first_free_witness :
  wp ((zoom l_bi bufcache_init ;; log_init Pmm.demo_ks) ;; transaction Pmm.demo_ks (block_alloc Pmm.demo_ks ROOTDEV))
     (fun r s' => r = 10 /\ used_bit 32 (sectors (dsk (bi s'))) 10 = true) (Jfs (demo_boot demo_bitmap_disk) log0).
Proof.
  apply wp_bind. eapply wp_mono; [by apply demo_idle|]. intros [] s (Hid & Ha).
  destruct (demo_bitmap_facts _ Ha) as (F1 & F2 & F3 & F4 & F5).
  eapply wp_mono; [apply (block_alloc_first_free 18 12 demo_geometry 0 Pmm.demo_ks demo_on_cpu s 32 10 Hid F1)|].
  - lia.
  - exact F2.
  - exact F3.
  - exact F4.
  - exact F5.
  - intros r s' (-> & _ & _ & Hb & _). split; [reflexivity|]. rewrite Hb by lia. by rewrite decide_True.
Defined.

Lemma alloc_free_roundtrip_witness :
  wp ((zoom l_bi bufcache_init ;; log_init Pmm.demo_ks) ;;
      transaction Pmm.demo_ks (b ← block_alloc Pmm.demo_ks ROOTDEV; block_free Pmm.demo_ks ROOTDEV b))
     (fun _ s' => used_bit 32 (sectors (dsk (bi s'))) 10 = false /\ used_bit 32 (sectors (dsk (bi s'))) 9 = true)
     (Jfs (demo_boot demo_bitmap_disk) log0).
Proof.
  apply wp_bind. eapply wp_mono; [by apply demo_idle|]. intros [] s (Hid & Ha).
  destruct (demo_bitmap_facts _ Ha) as (F1 & F2 & F3 & F4 & F5).
  eapply wp_mono; [apply (alloc_free_roundtrip 18 12 demo_geometry 0 Pmm.demo_ks demo_on_cpu s 32 10 Hid F1)|].
  - lia.
  - exact F2.
  - exact F3.
  - exact F4.
  - exact F5.
  - intros [] s' (_ & Hb). rewrite !Hb by lia. split; [exact F4|]. apply F5. lia.
Defined.
