(* ===== verification/Inode.v ===== *)
(** * Inodes (kern/fs/inode, kern/fs/dinode)

    The cache of inodes, the inodes on the disk, and the contents of files.
    The operations are run by one thread; where they would sleep for an
    inode that another thread has locked the outcome is [Spin]. *)

From stdpp Require Import base gmap list numbers.
From S2P Require Import Prelude Lock Mem Vmm Str Thread Queue Sched Ide IdeSpec Bufcache BlockIO Log LogSpec Block.
Import Spinlock Types.

Definition NINODE : Z := 50.
Definition NDEV : Z := 10.
Definition NDIRECT : Z := 12.
Definition NINDIRECT : Z := BSIZE / 4.
Definition MAXFILE : Z := NDIRECT + NINDIRECT.
Definition I_BUSY : Z := 1.
Definition I_VALID : Z := 2.
Definition T_DIR : Z := 1.
Definition T_FILE : Z := 2.
Definition T_DEV : Z := 3.

(** A pointer to an inode is its index in inode_cache.inode; the null
    pointer is -1. *)
Record inode : Type := Inode {
  i_dev : Z; i_inum : Z; i_ref : Z; i_flags : Z;
  i_type : Z; i_major : Z; i_minor : Z; i_nlink : Z; i_size : Z; i_addrs : gmap Z Z
}.
#[global] Instance inode_inhabited : Inhabited inode := populate (Inode 0 0 0 0 0 0 0 0 0 ∅).
Definition with_ref (x : Z) (i : inode) : inode :=
  Inode (i_dev i) (i_inum i) x (i_flags i) (i_type i) (i_major i) (i_minor i) (i_nlink i) (i_size i) (i_addrs i).
Definition with_iflags (x : Z) (i : inode) : inode :=
  Inode (i_dev i) (i_inum i) (i_ref i) x (i_type i) (i_major i) (i_minor i) (i_nlink i) (i_size i) (i_addrs i).
Definition with_type (x : Z) (i : inode) : inode :=
  Inode (i_dev i) (i_inum i) (i_ref i) (i_flags i) x (i_major i) (i_minor i) (i_nlink i) (i_size i) (i_addrs i).
Definition with_major (x : Z) (i : inode) : inode :=
  Inode (i_dev i) (i_inum i) (i_ref i) (i_flags i) (i_type i) x (i_minor i) (i_nlink i) (i_size i) (i_addrs i).
Definition with_minor (x : Z) (i : inode) : inode :=
  Inode (i_dev i) (i_inum i) (i_ref i) (i_flags i) (i_type i) (i_major i) x (i_nlink i) (i_size i) (i_addrs i).
Definition with_nlink (x : Z) (i : inode) : inode :=
  Inode (i_dev i) (i_inum i) (i_ref i) (i_flags i) (i_type i) (i_major i) (i_minor i) x (i_size i) (i_addrs i).
Definition with_size (x : Z) (i : inode) : inode :=
  Inode (i_dev i) (i_inum i) (i_ref i) (i_flags i) (i_type i) (i_major i) (i_minor i) (i_nlink i) x (i_addrs i).
Definition with_addr (j x : Z) (i : inode) : inode :=
  Inode (i_dev i) (i_inum i) (i_ref i) (i_flags i) (i_type i) (i_major i) (i_minor i) (i_nlink i) (i_size i)
        (<[j := x]> (i_addrs i)).

Record ifs : Type := Ifs { jf : jfs; ic_lock : spinlock_t; inodes : gmap Z inode }.
Definition l_jf : lens ifs jfs := Lens jf (fun x s => Ifs x (ic_lock s) (inodes s)).
Definition l_ic_lock : lens ifs spinlock_t := Lens ic_lock (fun x s => Ifs (jf s) x (inodes s)).
Definition set_inodes (x : gmap Z inode) (s : ifs) : ifs := Ifs (jf s) (ic_lock s) x.
Definition l_ibi : lens ifs bio := lens_comp l_jf l_bi.
Definition l_ith : lens ifs thr := lens_comp l_jf l_jth.
(** Kernel memory, where the caller's buffers are. *)
Definition l_phys : lens vm mem := Lens phys set_phys.
Definition l_imem : lens ifs mem := lens_comp (lens_comp l_ith l_vm) l_phys.

Definition ideref (ip : Z) : K ifs inode :=
  check (in_array ip NINODE) ;; gets (fun s => inodes s !!! ip).
Definition iupd (ip : Z) (f : inode -> inode) : K ifs unit :=
  check (in_array ip NINODE) ;;
  modify (fun s => set_inodes (<[ip := f (inodes s !!! ip)]> (inodes s)) s).

(** ** Inodes on the disk: struct dinode at offset [o] of a block *)
Definition s16 (x : Z) : Z := let y := x mod 65536 in if y <? 32768 then y else y - 65536.
Definition load16 (m : mem) (a : Z) : Z := load8 m a + 256 * load8 m (a + 1).
Definition store16 (m : mem) (a v : Z) : mem := store8 (store8 m a v) (a + 1) (v / 256).

Definition dinode_off (inum : Z) : Z := SIZEOF_DINODE * (inum mod IPB).
Definition put_addrs (d : mem) (a : Z) (A : gmap Z Z) : mem :=
  foldl (fun d j => store32 d (a + 4 * j) (A !!! j)) d (seqZ 0 (NDIRECT + 1)).
Definition get_addrs (d : mem) (a : Z) : gmap Z Z :=
  foldl (fun A j => <[j := load32 d (a + 4 * j)]> A) ∅ (seqZ 0 (NDIRECT + 1)).
Definition put_dinode (d : mem) (o : Z) (i : inode) : mem :=
  let d := store16 d o (i_type i) in
  let d := store16 d (o + 2) (i_major i) in
  let d := store16 d (o + 4) (i_minor i) in
  let d := store16 d (o + 6) (i_nlink i) in
  let d := store32 d (o + 8) (i_size i) in
  put_addrs d (o + 12) (i_addrs i).
Definition get_dinode (d : mem) (o : Z) (i : inode) : inode :=
  Inode (i_dev i) (i_inum i) (i_ref i) (i_flags i) (s16 (load16 d o)) (s16 (load16 d (o + 2))) (s16 (load16 d (o + 4)))
        (s16 (load16 d (o + 6))) (load32 d (o + 8)) (get_addrs d (o + 12)).

Section ops.
Context `{fs_layout} (ks : kstack).
Definition SIZEOF_INODE : Z := 80.
Definition inode_chan (ip : Z) : Z := icache_inode + SIZEOF_INODE * ip.

Definition inode_init : K ifs unit := zoom l_ic_lock spinlock_init.

(** The loop of inode_get; it returns the cached inode or the first unused
    entry. *)
Definition find_inode (dev0 inum : Z) : K ifs (Z + Z) :=
  while (fun '(ip, empty) =>
    if ip <? NINODE then
      i ← ideref ip;
      if (0 <? i_ref i) && (i_dev i =? dev0) && (i_inum i =? inum) then mret (inr (inl ip))
      else mret (inl (ip + 1, if (empty =? NULL) && (i_ref i =? 0) then ip else empty))
    else mret (inr (inr empty))) (0, NULL).

Definition inode_get (dev0 inum : Z) : K ifs Z :=
  zoom l_ic_lock (spinlock_acquire ks) ;;
  r ← find_inode dev0 inum;
  match r with
  | inl ip =>
      i ← ideref ip;
      n ← int_add (i_ref i) 1;
      iupd ip (with_ref n) ;;
      zoom l_ic_lock spinlock_release ;;
      mret ip
  | inr empty =>
      if empty =? NULL then panic
      else
        iupd empty (fun i => Inode dev0 inum 1 0 (i_type i) (i_major i) (i_minor i) (i_nlink i) (i_size i) (i_addrs i)) ;;
        zoom l_ic_lock spinlock_release ;;
        mret empty
  end.

Definition inode_alloc (dev0 type : Z) : K ifs Z :=
  sb ← zoom l_ibi (read_superblock ks dev0);
  while (fun inum =>
    if u32 inum <? sb_ninodes sb then
      bp ← zoom l_ibi (bufcache_read ks dev0 (IBLOCK inum));
      let o := dinode_off inum in
      x ← zoom l_ibi (deref bp);
      if s16 (load16 (data x) o) =? 0 then
        zoom l_ibi (bupd bp (fun x => with_data (memset (data x) o 0 SIZEOF_DINODE) x)) ;;
        zoom l_ibi (bupd bp (fun x => with_data (store16 (data x) o type) x)) ;;
        zoom l_jf (log_write ks bp) ;;
        zoom l_ibi (bufcache_release ks bp) ;;
        ip ← inode_get dev0 (u32 inum);
        mret (inr ip)
      else
        zoom l_ibi (bufcache_release ks bp) ;;
        inum ← int_add inum 1;
        mret (inl inum)
    else panic) 1.

Definition inode_update (ip : Z) : K ifs unit :=
  i ← ideref ip;
  bp ← zoom l_ibi (bufcache_read ks (i_dev i) (IBLOCK (i_inum i)));
  i ← ideref ip;
  zoom l_ibi (bupd bp (fun x => with_data (put_dinode (data x) (dinode_off (i_inum i)) i) x)) ;;
  zoom l_jf (log_write ks bp) ;;
  zoom l_ibi (bufcache_release ks bp).

Definition inode_dup (ip : Z) : K ifs Z :=
  zoom l_ic_lock (spinlock_acquire ks) ;;
  i ← ideref ip;
  n ← int_add (i_ref i) 1;
  iupd ip (with_ref n) ;;
  zoom l_ic_lock spinlock_release ;;
  mret ip.

Definition inode_lock (ip : Z) : K ifs unit :=
  (if ip =? NULL then panic else i ← ideref ip; if i_ref i <? 1 then panic else mret tt) ;;
  zoom l_ic_lock (spinlock_acquire ks) ;;
  i ← ideref ip;
  (if negb (Z.land (i_flags i) I_BUSY =? 0) then spin else mret tt) ;;
  iupd ip (fun i => with_iflags (Z.lor (i_flags i) I_BUSY) i) ;;
  zoom l_ic_lock spinlock_release ;;
  i ← ideref ip;
  if Z.land (i_flags i) I_VALID =? 0 then
    bp ← zoom l_ibi (bufcache_read ks (i_dev i) (IBLOCK (i_inum i)));
    x ← zoom l_ibi (deref bp);
    iupd ip (fun i => get_dinode (data x) (dinode_off (i_inum i)) i) ;;
    zoom l_ibi (bufcache_release ks bp) ;;
    iupd ip (fun i => with_iflags (Z.lor (i_flags i) I_VALID) i) ;;
    i ← ideref ip;
    if i_type i =? 0 then panic else mret tt
  else mret tt.

Definition inode_unlock (ip : Z) : K ifs unit :=
  (if ip =? NULL then panic
   else i ← ideref ip; if (Z.land (i_flags i) I_BUSY =? 0) || (i_ref i <? 1) then panic else mret tt) ;;
  zoom l_ic_lock (spinlock_acquire ks) ;;
  iupd ip (fun i => with_iflags (Z.land (i_flags i) (Z.lnot I_BUSY)) i) ;;
  zoom l_ith (thread_wakeup ks (inode_chan ip)) ;;
  zoom l_ic_lock spinlock_release.

(** ** Contents *)

(** An entry of ip->addrs, allocated if it is zero. *)
Definition addr_or_alloc (ip j : Z) : K ifs Z :=
  i ← ideref ip;
  if i_addrs i !!! j =? 0 then
    addr ← zoom l_jf (block_alloc ks (i_dev i));
    iupd ip (with_addr j addr) ;;
    mret addr
  else mret (i_addrs i !!! j).

Definition bmap (ip bn : Z) : K ifs Z :=
  if bn <? NDIRECT then addr_or_alloc ip bn
  else
    let bn := bn - NDIRECT in
    if bn <? NINDIRECT then
      addr ← addr_or_alloc ip NDIRECT;
      i ← ideref ip;
      bp ← zoom l_ibi (bufcache_read ks (i_dev i) addr);
      x ← zoom l_ibi (deref bp);
      let addr := load32 (data x) (4 * bn) in
      addr ← (if addr =? 0 then
                addr ← zoom l_jf (block_alloc ks (i_dev i));
                zoom l_ibi (bupd bp (fun x => with_data (store32 (data x) (4 * bn) addr) x)) ;;
                zoom l_jf (log_write ks bp) ;;
                mret addr
              else mret addr);
      zoom l_ibi (bufcache_release ks bp) ;;
      mret addr
    else panic.

Definition inode_trunc (ip : Z) : K ifs unit :=
  for_range 0 NDIRECT (fun j =>
    i ← ideref ip;
    if negb (i_addrs i !!! j =? 0) then
      zoom l_jf (block_free ks (i_dev i) (i_addrs i !!! j)) ;;
      iupd ip (with_addr j 0)
    else mret tt) ;;
  i ← ideref ip;
  (if negb (i_addrs i !!! NDIRECT =? 0) then
     bp ← zoom l_ibi (bufcache_read ks (i_dev i) (i_addrs i !!! NDIRECT));
     for_range 0 NINDIRECT (fun j =>
       x ← zoom l_ibi (deref bp);
       if negb (load32 (data x) (4 * j) =? 0)
       then zoom l_jf (block_free ks (i_dev i) (load32 (data x) (4 * j))) else mret tt) ;;
     zoom l_ibi (bufcache_release ks bp) ;;
     zoom l_jf (block_free ks (i_dev i) (i_addrs i !!! NDIRECT)) ;;
     iupd ip (with_addr NDIRECT 0)
   else mret tt) ;;
  iupd ip (with_size 0) ;;
  inode_update ip.

Definition inode_put (ip : Z) : K ifs unit :=
  zoom l_ic_lock (spinlock_acquire ks) ;;
  i ← ideref ip;
  (if (i_ref i =? 1) && negb (Z.land (i_flags i) I_VALID =? 0) && (i_nlink i =? 0) then
     (if negb (Z.land (i_flags i) I_BUSY =? 0) then panic else mret tt) ;;
     iupd ip (fun i => with_iflags (Z.lor (i_flags i) I_BUSY) i) ;;
     zoom l_ic_lock spinlock_release ;;
     inode_trunc ip ;;
     iupd ip (with_type 0) ;;
     inode_update ip ;;
     zoom l_ic_lock (spinlock_acquire ks) ;;
     iupd ip (with_iflags 0) ;;
     zoom l_ith (thread_wakeup ks (inode_chan ip))
   else mret tt) ;;
  i ← ideref ip;
  n ← int_add (i_ref i) (-1);
  iupd ip (with_ref n) ;;
  zoom l_ic_lock spinlock_release.

Definition inode_unlockput (ip : Z) : K ifs unit := inode_unlock ip ;; inode_put ip.

(** struct file_stat *)
Record file_stat_t : Type := Stat { st_type : Z; st_dev : Z; st_ino : Z; st_nlink : Z; st_size : Z }.
Definition inode_stat (ip : Z) : K ifs file_stat_t :=
  i ← ideref ip;
  mret (Stat (i_type i) (i_dev i) (i_inum i) (i_nlink i mod 65536) (i_size i)).

(** The table devsw is never set: it is a null pointer, and a device file
    with a major number in range makes the kernel follow it. *)
Definition dev_access (i : inode) : K ifs Z :=
  if (i_major i <? 0) || (NDEV <=? i_major i) then mret (-1) else fault.

Definition inode_read (ip dst off n : Z) : K ifs Z :=
  i ← ideref ip;
  if i_type i =? T_DEV then dev_access i
  else if (i_size i <? off) || (u32 (off + n) <? off) then mret (-1)
  else
    let n := if i_size i <? u32 (off + n) then i_size i - off else n in
    while (fun '(tot, off, dst) =>
      if tot <? n then
        a ← bmap ip (off / BSIZE);
        i ← ideref ip;
        bp ← zoom l_ibi (bufcache_read ks (i_dev i) a);
        let m := min (n - tot) (BSIZE - off mod BSIZE) in
        x ← zoom l_ibi (deref bp);
        zoom l_imem (modify (fun M => write_bytes M dst (read_bytes (data x) (off mod BSIZE) m))) ;;
        zoom l_ibi (bufcache_release ks bp) ;;
        mret (inl (u32 (tot + m), u32 (off + m), u32 (dst + m)))
      else mret (inr tt)) (0, off, dst) ;;
    mret (s32 n).

Definition inode_write (ip src off n : Z) : K ifs Z :=
  i ← ideref ip;
  if i_type i =? T_DEV then dev_access i
  else if (i_size i <? off) || (u32 (off + n) <? off) then mret (-1)
  else if MAXFILE * BSIZE <? u32 (off + n) then mret (-1)
  else
    off ← while (fun '(tot, off, src) =>
      if tot <? n then
        a ← bmap ip (off / BSIZE);
        i ← ideref ip;
        bp ← zoom l_ibi (bufcache_read ks (i_dev i) a);
        let m := min (n - tot) (BSIZE - off mod BSIZE) in
        M ← zoom l_imem get;
        zoom l_ibi (bupd bp (fun x => with_data (write_bytes (data x) (off mod BSIZE) (read_bytes M src m)) x)) ;;
        zoom l_jf (log_write ks bp) ;;
        zoom l_ibi (bufcache_release ks bp) ;;
        mret (inl (u32 (tot + m), u32 (off + m), u32 (src + m)))
      else mret (inr off)) (0, off, src);
    i ← ideref ip;
    (if (0 <? n) && (i_size i <? off) then
       iupd ip (with_size off) ;;
       inode_update ip
     else mret tt) ;;
    mret (s32 n).
End ops.
