(* ===== verification/File.v ===== *)
(** * Files, directories and paths (kern/fs/file, kern/fs/dir, kern/fs/path)

    The table of open files over the inodes.  The functions that look into
    directories are stubs in the source, and are modelled as they are. *)

From stdpp Require Import base gmap list numbers.
From S2P Require Import Prelude Lock Mem Vmm Str Thread Queue Sched Ide IdeSpec Bufcache BlockIO Log LogSpec Block Inode.
Import Spinlock PTCBIntro PCurID.

Definition NFILE : Z := 100.
Definition ROOTINO : Z := 1.
Definition DIRSIZ : Z := 14.

Inductive file_type : Type := FD_NONE | FD_PIPE | FD_INODE.
#[global] Instance file_type_eq_dec : EqDecision file_type.
Proof. solve_decision. Defined.

(** A pointer to a file is its index in ftable.file; the null pointer is -1. *)
Record file : Type := File {
  f_type : file_type; f_ref : Z; f_readable : Z; f_writable : Z; f_ip : Z; f_off : Z
}.
#[global] Instance file_inhabited : Inhabited file := populate (File FD_NONE 0 0 0 0 0).
Definition with_fref (x : Z) (f : file) : file := File (f_type f) x (f_readable f) (f_writable f) (f_ip f) (f_off f).
Definition with_ftype (x : file_type) (f : file) : file := File x (f_ref f) (f_readable f) (f_writable f) (f_ip f) (f_off f).
Definition with_off (x : Z) (f : file) : file := File (f_type f) (f_ref f) (f_readable f) (f_writable f) (f_ip f) x.

Record ffs : Type := Ffs { ino : ifs; ft_lock : spinlock_t; files : gmap Z file }.
Definition l_ino : lens ffs ifs := Lens ino (fun x s => Ffs x (ft_lock s) (files s)).
Definition l_ft_lock : lens ffs spinlock_t := Lens ft_lock (fun x s => Ffs (ino s) x (files s)).
Definition set_files (x : gmap Z file) (s : ffs) : ffs := Ffs (ino s) (ft_lock s) x.
Definition l_fjf : lens ffs jfs := lens_comp l_ino l_jf.

Definition fderef (f : Z) : K ffs file :=
  check (in_array f NFILE) ;; gets (fun s => files s !!! f).
Definition fupdate (f : Z) (g : file -> file) : K ffs unit :=
  check (in_array f NFILE) ;;
  modify (fun s => set_files (<[f := g (files s !!! f)]> (files s)) s).

Section ops.
Context `{fs_layout} (ks : kstack).

Definition file_init : K ffs unit := zoom l_ft_lock spinlock_init.

Definition file_alloc : K ffs Z :=
  zoom l_ft_lock (spinlock_acquire ks) ;;
  while (fun f =>
    if f <? NFILE then
      x ← fderef f;
      if f_ref x =? 0 then
        fupdate f (with_fref 1) ;;
        zoom l_ft_lock spinlock_release ;;
        mret (inr f)
      else mret (inl (f + 1))
    else
      zoom l_ft_lock spinlock_release ;;
      mret (inr NULL)) 0.

Definition file_dup (f : Z) : K ffs Z :=
  zoom l_ft_lock (spinlock_acquire ks) ;;
  x ← fderef f;
  (if f_ref x <? 1 then panic else mret tt) ;;
  n ← int_add (f_ref x) 1;
  fupdate f (with_fref n) ;;
  zoom l_ft_lock spinlock_release ;;
  mret f.

Definition file_close (f : Z) : K ffs unit :=
  zoom l_ft_lock (spinlock_acquire ks) ;;
  x ← fderef f;
  (if f_ref x <? 1 then panic else mret tt) ;;
  fupdate f (with_fref (f_ref x - 1)) ;;
  if 0 <? f_ref x - 1 then zoom l_ft_lock spinlock_release
  else
    ff ← fderef f;
    fupdate f (with_fref 0) ;;
    fupdate f (with_ftype FD_NONE) ;;
    zoom l_ft_lock spinlock_release ;;
    if decide (f_type ff = FD_INODE) then
      zoom l_fjf (begin_trans ks) ;;
      zoom l_ino (inode_put ks (f_ip ff)) ;;
      zoom l_fjf (commit_trans ks)
    else mret tt.

(** The result and what is stored through st. *)
Definition file_stat (f : Z) : K ffs (Z * option file_stat_t) :=
  x ← fderef f;
  if decide (f_type x = FD_INODE) then
    zoom l_ino (inode_lock ks (f_ip x)) ;;
    st ← zoom l_ino (inode_stat (f_ip x));
    zoom l_ino (inode_unlock ks (f_ip x)) ;;
    mret (0, Some st)
  else mret (-1, None).

Definition file_read (f addr n : Z) : K ffs Z :=
  x ← fderef f;
  if f_readable x =? 0 then mret (-1)
  else if decide (f_type x = FD_INODE) then
    zoom l_ino (inode_lock ks (f_ip x)) ;;
    r ← zoom l_ino (inode_read ks (f_ip x) addr (f_off x) (u32 n));
    (if 0 <? r then fupdate f (fun x => with_off (u32 (f_off x + r)) x) else mret tt) ;;
    zoom l_ino (inode_unlock ks (f_ip x)) ;;
    mret r
  else panic.

Definition WRITE_MAX : Z := ((LOGSIZE - 1 - 1 - 2) / 2) * 512.
Definition file_write (f addr n : Z) : K ffs Z :=
  x ← fderef f;
  if f_writable x =? 0 then mret (-1)
  else if decide (f_type x = FD_INODE) then
    i ← while (fun i =>
      if i <? n then
        let n1 := if WRITE_MAX <? n - i then WRITE_MAX else n - i in
        zoom l_fjf (begin_trans ks) ;;
        x ← fderef f;
        zoom l_ino (inode_lock ks (f_ip x)) ;;
        r ← zoom l_ino (inode_write ks (f_ip x) (u32 (addr + i)) (f_off x) (u32 n1));
        (if 0 <? r then fupdate f (fun x => with_off (u32 (f_off x + r)) x) else mret tt) ;;
        zoom l_ino (inode_unlock ks (f_ip x)) ;;
        zoom l_fjf (commit_trans ks) ;;
        if r <? 0 then mret (inr i)
        else if negb (r =? n1) then panic
        else mret (inl (i + r))
      else mret (inr i)) 0;
    mret (if i =? n then n else -1)
  else panic.

(** ** Directories *)
Definition dir_namecmp (s t : Z) : K mem Z := strncmp s t DIRSIZ.

Definition dir_lookup (dp name : Z) : K ifs Z :=
  i ← ideref dp;
  if negb (i_type i =? T_DIR) then panic else mret NULL.

Definition dir_link (dp name inum : Z) : K ifs Z := mret 0.

(** ** Paths *)
Definition skipelem (path name : Z) : K ifs Z := mret 0.

(** A pointer to an inode as it is kept in the TCB. *)
Definition inode_addr (ip : Z) : Z := if ip =? NULL then 0 else inode_chan ip.
Definition inode_of (a : Z) : Z := if a =? 0 then NULL else (a - icache_inode) / SIZEOF_INODE.

Definition namex (path : Z) (nameiparent : bool) (name : Z) : K ifs Z :=
  c ← zoom l_imem (gets (fun m => load8 m path));
  ip ← (if c =? 47 then inode_get ks ROOTDEV ROOTINO
        else
          pid ← zoom l_ith (get_curid ks);
          cwd ← zoom l_ith (tcb_get_cwd pid);
          inode_dup ks (inode_of cwd));
  while (fun path =>
    path ← skipelem path name;
    if negb (path =? 0) then mret (inl path) else mret (inr tt)) path ;;
  if nameiparent then
    inode_put ks ip ;;
    mret NULL
  else mret ip.

Definition namei (path name : Z) : K ifs Z := namex path false name.
Definition nameiparent (path name : Z) : K ifs Z := namex path true name.
End ops.
