(* ===== verification/Tf.v ===== *)
(** * Trap frames and system call arguments (kern/lib/trap, kern/lib/syscall,
      kern/trap/TSyscallArg) *)

From stdpp Require Import base gmap list numbers.
From S2P Require Import Prelude.

Record tf_t : Type := Tf {
  r_edi : Z; r_esi : Z; r_ebp : Z; r_oesp : Z; r_ebx : Z; r_edx : Z; r_ecx : Z; r_eax : Z;
  t_es : Z; t_ds : Z; t_trapno : Z; t_err : Z; t_eip : Z; t_cs : Z; t_eflags : Z; t_esp : Z; t_ss : Z
}.
#[global] Instance tf_inhabited : Inhabited tf_t := populate (Tf 0 0 0 0 0 0 0 0 0 0 0 0 0 0 0 0 0).

Definition syscall_get_arg1 : K tf_t Z := gets r_eax.
Definition syscall_get_arg2 : K tf_t Z := gets r_ebx.
Definition syscall_get_arg3 : K tf_t Z := gets r_ecx.
Definition syscall_get_arg4 : K tf_t Z := gets r_edx.
Definition syscall_get_arg5 : K tf_t Z := gets r_esi.
Definition syscall_get_arg6 : K tf_t Z := gets r_edi.

Definition set_regs (edi esi ebx edx ecx eax : Z) (t : tf_t) : tf_t :=
  Tf edi esi (r_ebp t) (r_oesp t) ebx edx ecx eax (t_es t) (t_ds t) (t_trapno t) (t_err t) (t_eip t) (t_cs t)
     (t_eflags t) (t_esp t) (t_ss t).
Definition syscall_set_errno (v : Z) : K tf_t unit :=
  modify (fun t => set_regs (r_edi t) (r_esi t) (r_ebx t) (r_edx t) (r_ecx t) v t).
Definition syscall_set_retval1 (v : Z) : K tf_t unit :=
  modify (fun t => set_regs (r_edi t) (r_esi t) v (r_edx t) (r_ecx t) (r_eax t) t).
Definition syscall_set_retval2 (v : Z) : K tf_t unit :=
  modify (fun t => set_regs (r_edi t) (r_esi t) (r_ebx t) (r_edx t) v (r_eax t) t).
Definition syscall_set_retval3 (v : Z) : K tf_t unit :=
  modify (fun t => set_regs (r_edi t) (r_esi t) (r_ebx t) v (r_ecx t) (r_eax t) t).
Definition syscall_set_retval4 (v : Z) : K tf_t unit :=
  modify (fun t => set_regs (r_edi t) v (r_ebx t) (r_edx t) (r_ecx t) (r_eax t) t).
Definition syscall_set_retval5 (v : Z) : K tf_t unit :=
  modify (fun t => set_regs v (r_esi t) (r_ebx t) (r_edx t) (r_ecx t) (r_eax t) t).

(** enum __syscall_nr *)
Inductive syscall_nr : Type :=
| SYS_puts | SYS_spawn | SYS_yield | SYS_open | SYS_close | SYS_read | SYS_write | SYS_mkdir | SYS_chdir
| SYS_link | SYS_unlink | SYS_stat.
Definition syscall_of (nr : Z) : option syscall_nr :=
  match nr with
  | 0 => Some SYS_puts | 1 => Some SYS_spawn | 2 => Some SYS_yield | 3 => Some SYS_open | 4 => Some SYS_close
  | 5 => Some SYS_read | 6 => Some SYS_write | 7 => Some SYS_mkdir | 8 => Some SYS_chdir | 9 => Some SYS_link
  | 10 => Some SYS_unlink | 11 => Some SYS_stat | _ => None
  end.

(** enum __error_nr, the members the kernel uses *)
Definition E_SUCC : Z := 0.
Definition E_MEM : Z := 1.
Definition E_INVAL_CALLNR : Z := 3.
Definition E_INVAL_ADDR : Z := 4.
Definition E_INVAL_PID : Z := 5.
Definition E_DISK_OP : Z := 13.
Definition E_EXCEEDS_QUOTA : Z := 23.
Definition E_MAX_NUM_CHILDEN_REACHED : Z := 24.
Definition E_INVAL_CHILD_ID : Z := 25.
Definition E_NEXIST : Z := 26.
Definition E_CREATE : Z := 27.
Definition E_BADF : Z := 29.
