(* ===== verification/Sysfile.v ===== *)
(** * File system calls (kern/fs/sysfile)

    System calls whose body is still missing in the source are modelled as
    they are: they do nothing. *)

From stdpp Require Import base gmap list numbers.
From S2P Require Import Prelude Lock Mem Vmm Str Copy Thread Queue Sched Ide IdeSpec Bufcache BlockIO Log LogSpec Block Inode File Tf.
Import Spinlock PTCBIntro PCurID.

Definition O_RDONLY : Z := 0.
Definition O_WRONLY : Z := 1.
Definition O_RDWR : Z := 2.
Definition O_CREATE : Z := 512.
Definition SIZEOF_DIRENT : Z := 16.

(** The file system and the trap frame of the caller. *)
Record sys : Type := Sys { fls : ffs; frame : tf_t }.
Definition l_fls : lens sys ffs := Lens fls (fun x s => Sys x (frame s)).
Definition l_frame : lens sys tf_t := Lens frame (fun x s => Sys (fls s) x).
Definition l_si : lens sys ifs := lens_comp l_fls l_ino.
Definition l_sj : lens sys jfs := lens_comp l_si l_jf.
Definition l_sth : lens sys thr := lens_comp l_si l_ith.
Definition l_svm : lens sys vm := lens_comp l_sth l_vm.
Definition l_smem : lens sys mem := lens_comp l_svm l_phys.

(** Where the local arrays of the system calls are on the kernel stack, and
    the string constants they use. *)
Class sys_layout : Type := {
  path_buf : Z; old_buf : Z; new_buf : Z; name_buf : Z; de_buf : Z; str_dot : Z; str_dotdot : Z
}.

Section ops.
Context `{layout} `{fs_layout} `{sys_layout} (ks : kstack).

(** pt_copyin(get_curid(), uva, buf, 128) *)
Definition copyin_path (uva buf : Z) : K sys unit :=
  pid ← zoom l_sth (get_curid ks);
  _ ← zoom l_svm (pt_copyin ks pid uva buf 128);
  mret tt.

Definition fdalloc (f : Z) : K sys Z := mret (-1).

Definition sys_read : K sys unit := mret tt.
Definition sys_write : K sys unit := mret tt.
Definition sys_close : K sys unit := mret tt.
Definition sys_fstat : K sys unit := mret tt.

(** The code at the label bad of sys_link. *)
Definition link_bad (ip : Z) : K sys unit :=
  zoom l_si (inode_lock ks ip) ;;
  zoom l_si (iupd ip (fun i => with_nlink (s16 (i_nlink i - 1)) i)) ;;
  zoom l_si (inode_update ks ip) ;;
  zoom l_si (inode_unlockput ks ip) ;;
  zoom l_sj (commit_trans ks) ;;
  zoom l_frame (syscall_set_errno E_DISK_OP).

Definition sys_link : K sys unit :=
  a ← zoom l_frame syscall_get_arg2;
  copyin_path a old_buf ;;
  a ← zoom l_frame syscall_get_arg3;
  copyin_path a new_buf ;;
  ip ← zoom l_si (namei ks old_buf name_buf);
  if ip =? NULL then zoom l_frame (syscall_set_errno E_NEXIST)
  else
    zoom l_sj (begin_trans ks) ;;
    zoom l_si (inode_lock ks ip) ;;
    i ← zoom l_si (ideref ip);
    if i_type i =? T_DIR then
      zoom l_si (inode_unlockput ks ip) ;;
      zoom l_sj (commit_trans ks) ;;
      zoom l_frame (syscall_set_errno E_DISK_OP)
    else
      zoom l_si (iupd ip (fun i => with_nlink (s16 (i_nlink i + 1)) i)) ;;
      zoom l_si (inode_update ks ip) ;;
      zoom l_si (inode_unlock ks ip) ;;
      dp ← zoom l_si (nameiparent ks new_buf name_buf);
      if dp =? NULL then link_bad ip
      else
        zoom l_si (inode_lock ks dp) ;;
        d ← zoom l_si (ideref dp);
        i ← zoom l_si (ideref ip);
        r ← (if negb (i_dev d =? i_dev i) then mret (-1) else zoom l_si (dir_link dp name_buf (i_inum i)));
        if r <? 0 then
          zoom l_si (inode_unlockput ks dp) ;;
          link_bad ip
        else
          zoom l_si (inode_unlockput ks dp) ;;
          zoom l_si (inode_put ks ip) ;;
          zoom l_sj (commit_trans ks) ;;
          zoom l_frame (syscall_set_errno E_SUCC).

Definition isdirempty (dp : Z) : K sys Z :=
  while (fun off =>
    d ← zoom l_si (ideref dp);
    if u32 off <? i_size d then
      r ← zoom l_si (inode_read ks dp de_buf (u32 off) SIZEOF_DIRENT);
      (if negb (r =? SIZEOF_DIRENT) then panic else mret tt) ;;
      m ← zoom l_smem get;
      if negb (load16 m de_buf =? 0) then mret (inr 0)
      else off ← int_add off SIZEOF_DIRENT; mret (inl off)
    else mret (inr 1)) (2 * SIZEOF_DIRENT).

(** The code at the label bad of sys_unlink. *)
Definition unlink_bad (dp : Z) : K sys unit :=
  zoom l_si (inode_unlockput ks dp) ;;
  zoom l_sj (commit_trans ks) ;;
  zoom l_frame (syscall_set_errno E_DISK_OP).

(** dir_lookup is a stub that does not store through its last argument, so
    [off] is what the local variable held before. *)
Definition sys_unlink (off : Z) : K sys unit :=
  a ← zoom l_frame syscall_get_arg2;
  copyin_path a path_buf ;;
  dp ← zoom l_si (nameiparent ks path_buf name_buf);
  if dp =? NULL then zoom l_frame (syscall_set_errno E_DISK_OP)
  else
    zoom l_sj (begin_trans ks) ;;
    zoom l_si (inode_lock ks dp) ;;
    c1 ← zoom l_smem (dir_namecmp name_buf str_dot);
    c ← (if c1 =? 0 then mret 0 else zoom l_smem (dir_namecmp name_buf str_dotdot));
    if c =? 0 then unlink_bad dp
    else
      ip ← zoom l_si (dir_lookup dp name_buf);
      if ip =? NULL then unlink_bad dp
      else
        zoom l_si (inode_lock ks ip) ;;
        i ← zoom l_si (ideref ip);
        (if i_nlink i <? 1 then panic else mret tt) ;;
        e ← (if i_type i =? T_DIR then isdirempty ip else mret 1);
        if e =? 0 then
          zoom l_si (inode_unlockput ks ip) ;;
          unlink_bad dp
        else
          zoom l_smem (modify (fun m => memset m de_buf 0 SIZEOF_DIRENT)) ;;
          r ← zoom l_si (inode_write ks dp de_buf off SIZEOF_DIRENT);
          (if negb (r =? SIZEOF_DIRENT) then panic else mret tt) ;;
          i ← zoom l_si (ideref ip);
          (if i_type i =? T_DIR then
             zoom l_si (iupd dp (fun i => with_nlink (s16 (i_nlink i - 1)) i)) ;;
             zoom l_si (inode_update ks dp)
           else mret tt) ;;
          zoom l_si (inode_unlockput ks dp) ;;
          zoom l_si (iupd ip (fun i => with_nlink (s16 (i_nlink i - 1)) i)) ;;
          zoom l_si (inode_update ks ip) ;;
          zoom l_si (inode_unlockput ks ip) ;;
          zoom l_sj (commit_trans ks) ;;
          zoom l_frame (syscall_set_errno E_SUCC).

Definition create (path type major minor : Z) : K sys Z :=
  dp ← zoom l_si (nameiparent ks path name_buf);
  if dp =? NULL then mret NULL
  else
    zoom l_si (inode_lock ks dp) ;;
    ip ← zoom l_si (dir_lookup dp name_buf);
    if negb (ip =? NULL) then
      zoom l_si (inode_unlockput ks dp) ;;
      zoom l_si (inode_lock ks ip) ;;
      i ← zoom l_si (ideref ip);
      if (type =? T_FILE) && (i_type i =? T_FILE) then mret ip
      else zoom l_si (inode_unlockput ks ip) ;; mret NULL
    else
      d ← zoom l_si (ideref dp);
      ip ← zoom l_si (inode_alloc ks (i_dev d) type);
      (if ip =? NULL then panic else mret tt) ;;
      zoom l_si (inode_lock ks ip) ;;
      zoom l_si (iupd ip (with_major major)) ;;
      zoom l_si (iupd ip (with_minor minor)) ;;
      zoom l_si (iupd ip (with_nlink 1)) ;;
      zoom l_si (inode_update ks ip) ;;
      (if type =? T_DIR then
         zoom l_si (iupd dp (fun i => with_nlink (s16 (i_nlink i + 1)) i)) ;;
         zoom l_si (inode_update ks dp) ;;
         i ← zoom l_si (ideref ip);
         d ← zoom l_si (ideref dp);
         r ← zoom l_si (dir_link ip str_dot (i_inum i));
         if r <? 0 then panic
         else r ← zoom l_si (dir_link ip str_dotdot (i_inum d)); if r <? 0 then panic else mret tt
       else mret tt) ;;
      i ← zoom l_si (ideref ip);
      r ← zoom l_si (dir_link dp name_buf (i_inum i));
      (if r <? 0 then panic else mret tt) ;;
      zoom l_si (inode_unlockput ks dp) ;;
      mret ip.

(** Return -1 and an error number to the caller. *)
Definition open_fails (e : Z) : K sys unit :=
  zoom l_frame (syscall_set_retval1 (u32 (-1))) ;;
  zoom l_frame (syscall_set_errno e).

(** The end of sys_open, with the inode locked. *)
Definition open_file (ip omode : Z) : K sys unit :=
  f ← zoom l_fls (file_alloc ks);
  fd ← (if f =? NULL then mret (-1) else fdalloc f);
  if fd <? 0 then
    (if negb (f =? NULL) then zoom l_fls (file_close ks f) else mret tt) ;;
    zoom l_si (inode_unlockput ks ip) ;;
    open_fails E_DISK_OP
  else
    zoom l_si (inode_unlock ks ip) ;;
    zoom l_fls (fupdate f (fun x => File FD_INODE (f_ref x)
      (if Z.land omode O_WRONLY =? 0 then 1 else 0)
      (if negb (Z.land omode O_WRONLY =? 0) || negb (Z.land omode O_RDWR =? 0) then 1 else 0) ip 0)) ;;
    zoom l_frame (syscall_set_retval1 (u32 fd)) ;;
    zoom l_frame (syscall_set_errno E_SUCC).

Definition sys_open : K sys unit :=
  a ← zoom l_frame syscall_get_arg2;
  copyin_path a path_buf ;;
  omode ← zoom l_frame syscall_get_arg3;
  if negb (Z.land omode O_CREATE =? 0) then
    zoom l_sj (begin_trans ks) ;;
    ip ← create path_buf T_FILE 0 0;
    zoom l_sj (commit_trans ks) ;;
    if ip =? NULL then open_fails E_CREATE else open_file ip omode
  else
    ip ← zoom l_si (namei ks path_buf name_buf);
    if ip =? NULL then open_fails E_NEXIST
    else
      zoom l_si (inode_lock ks ip) ;;
      i ← zoom l_si (ideref ip);
      if (i_type i =? T_DIR) && negb (omode =? O_RDONLY) then
        zoom l_si (inode_unlockput ks ip) ;;
        open_fails E_DISK_OP
      else open_file ip omode.

Definition sys_mkdir : K sys unit :=
  a ← zoom l_frame syscall_get_arg2;
  copyin_path a path_buf ;;
  zoom l_sj (begin_trans ks) ;;
  ip ← create path_buf T_DIR 0 0;
  if ip =? NULL then
    zoom l_sj (commit_trans ks) ;;
    zoom l_frame (syscall_set_errno E_DISK_OP)
  else
    zoom l_si (inode_unlockput ks ip) ;;
    zoom l_sj (commit_trans ks) ;;
    zoom l_frame (syscall_set_errno E_SUCC).

Definition sys_chdir : K sys unit :=
  pid ← zoom l_sth (get_curid ks);
  a ← zoom l_frame syscall_get_arg2;
  copyin_path a path_buf ;;
  ip ← zoom l_si (namei ks path_buf name_buf);
  if ip =? NULL then zoom l_frame (syscall_set_errno E_DISK_OP)
  else
    zoom l_si (inode_lock ks ip) ;;
    i ← zoom l_si (ideref ip);
    if negb (i_type i =? T_DIR) then
      zoom l_si (inode_unlockput ks ip) ;;
      zoom l_frame (syscall_set_errno E_DISK_OP)
    else
      zoom l_si (inode_unlock ks ip) ;;
      cwd ← zoom l_sth (tcb_get_cwd pid);
      zoom l_si (inode_put ks (inode_of cwd)) ;;
      zoom l_sth (tcb_set_cwd pid (inode_addr ip)) ;;
      zoom l_frame (syscall_set_errno E_SUCC).
End ops.
