(* ===== verification/Frame.v ===== *)
(** * What an operation leaves alone

    [Keeps f m]: whenever [m] returns, the part [f] of the state is as it was
    before.  The rules follow the syntax of the model, so that instance
    search proves such facts; here they show that the disk driver, the buffer
    cache and the log do not touch memory, page tables or registers. *)

From stdpp Require Import base gmap list numbers.
From S2P Require Import Prelude Lock Pmmap Pmm Container Mem Vmm Thread Queue Sched Ide IdeSpec Bufcache BlockIO Log Block.
Import Spinlock PTCBIntro PTQueueIntro PTQueueInit PCPUIntro PCurID.

Class Keeps {St X A} (f : St -> X) (m : K St A) : Prop := keeps : forall s a s', m s = Ok a s' -> f s' = f s.
#[global] Hint Mode Keeps + + + ! ! : typeclass_instances.

Section rules.
Context {St X : Type} (f : St -> X).

#[global] Instance keeps_ret {A} (a : A) : Keeps f (mret a).
Proof. by intros s b s' [= _ <-]. Qed.
#[global] Instance keeps_get : Keeps f get.
Proof. by intros s b s' [= _ <-]. Qed.
#[global] Instance keeps_gets {A} (g : St -> A) : Keeps f (gets g).
Proof. by intros s b s' [= _ <-]. Qed.
#[global] Instance keeps_check b : Keeps f (check b).
Proof. intros s a s'. unfold check. destruct b; [by intros [= _ <-]|done]. Qed.
#[global] Instance keeps_assert b : Keeps f (kern_assert b).
Proof. intros s a s'. unfold kern_assert. destruct b; [by intros [= _ <-]|done]. Qed.
#[global] Instance keeps_panic {A} : Keeps f (panic : K St A).
Proof. done. Qed.
#[global] Instance keeps_fault {A} : Keeps f (fault : K St A).
Proof. done. Qed.
#[global] Instance keeps_spin {A} : Keeps f (spin : K St A).
Proof. done. Qed.
#[global] Instance keeps_bind {A B} (m : K St A) (k : A -> K St B) :
  Keeps f m -> (forall a, Keeps f (k a)) -> Keeps f (m ≫= k).
Proof.
  intros Hm Hk s b s'. unfold mbind, K_bind. destruct (m s) as [a s1| | | |] eqn:E; try done. intros E2.
  by rewrite (Hk a s1 b s' E2), (Hm s a s1 E).
Qed.
#[global] Instance keeps_if {A} (b : bool) (m m' : K St A) : Keeps f m -> Keeps f m' -> Keeps f (if b then m else m').
Proof. by destruct b. Qed.
#[global] Instance keeps_option {A B} (o : option B) (m : B -> K St A) (m' : K St A) :
  (forall b, Keeps f (m b)) -> Keeps f m' -> Keeps f (match o with Some b => m b | None => m' end).
Proof. by destruct o. Qed.
Lemma keeps_modify (g : St -> St) : (forall s, f (g s) = f s) -> Keeps f (modify g).
Proof. by intros H s a s' [= _ <-]. Qed.
Lemma keeps_zoom_other {T A} (l : lens St T) (m : K T A) : (forall x s, f (lset l x s) = f s) -> Keeps f (zoom l m).
Proof. intros H s a s'. unfold zoom. destruct (m (lget l s)); try done. by intros [= _ <-]. Qed.
Lemma keeps_zoom {T A} (l : lens St T) (g : T -> X) (m : K T A) : (forall x s, f (lset l x s) = g x) ->
  (forall s, f s = g (lget l s)) -> Keeps g m -> Keeps f (zoom l m).
Proof.
  intros H1 H2 Hm s a s'. unfold zoom. destruct (m (lget l s)) eqn:E; try done. intros [= _ <-].
  by rewrite H1, H2, (Hm _ _ _ E).
Qed.

#[local] Transparent while for_range.
Lemma keeps_loop {Y R} d (body : Y -> K St (Y + R)) x : (forall x, Keeps f (body x)) -> Keeps f (loop d body x).
Proof.
  intros Hb. revert x. induction d as [|d IH]; intros x; simpl; [apply Hb|].
  apply keeps_bind; [apply IH|]. intros [y|v]; [apply IH|apply keeps_ret].
Qed.
#[global] Instance keeps_while {Y R} (body : Y -> K St (Y + R)) x : (forall x, Keeps f (body x)) -> Keeps f (while body x).
Proof. intros Hb. apply keeps_bind; [by apply keeps_loop|]. intros [y|v]; [done|apply keeps_ret]. Qed.
#[global] Instance keeps_for lo hi (body : Z -> K St unit) : (forall i, Keeps f (body i)) -> Keeps f (for_range lo hi body).
Proof.
  intros Hb. unfold for_range. generalize (Z.to_nat (hi - lo)). intros n. revert lo.
  induction n as [|n IH]; intros lo; simpl; [apply keeps_ret|]. apply keeps_bind; [apply Hb|intros; apply IH].
Qed.

Lemma wp_keeps {A} (m : K St A) Q s : Keeps f m -> wp m Q s -> wp m (fun a s' => Q a s' /\ f s' = f s) s.
Proof. intros Hk. unfold wp. destruct (m s) eqn:E; try done. by rewrite (Hk _ _ _ E). Qed.
End rules.
#[global] Opaque while for_range.
Ltac keeps := repeat first [apply keeps_bind; [|intros ?] | apply keeps_if | apply keeps_while; intros ?
  | apply keeps_for; intros ? | apply keeps_option; [intros ?|] | apply _ | apply keeps_modify; by intros []
  | apply keeps_zoom_other; by intros ? []].

(** ** Threads: only the context switch touches the memory *)
#[global] Instance keeps_tcb a : Keeps vmst (tcb a).
Proof. unfold tcb. keeps. Qed.
#[global] Instance keeps_tcb_update a g : Keeps vmst (tcb_update a g).
Proof. unfold tcb_update. keeps. Qed.
#[global] Instance keeps_tq a : Keeps vmst (tq a).
Proof. unfold tq. keeps. Qed.
#[global] Instance keeps_tq_update a g : Keeps vmst (tq_update a g).
Proof. unfold tq_update. keeps. Qed.
#[global] Instance keeps_enqueue q a : Keeps vmst (tqueue_enqueue q a).
Proof.
  unfold tqueue_enqueue, tqueue_get_tail, tcb_set_prev, tcb_set_next, tqueue_set_head, tqueue_set_tail. keeps.
Qed.
#[global] Instance keeps_wakeup ks chan : Keeps vmst (thread_wakeup ks chan).
Proof.
  unfold thread_wakeup, sched_acquire, sched_release, tcb_get_state, tcb_get_chan, tcb_set_state, tcb_set_chan. keeps.
Qed.

Lemma sched_inv_vm c s p ready v : sched_inv c s p ready -> sched_inv c (lset l_vm v s) p ready.
Proof. intros [Hl [? ? ? ? ?]]. split; [done|]. by split. Qed.

(** ** The disk driver and the buffer cache *)
Definition bvm (s : bio) : vm := vmst (th s).
Section bio.
Context `{fs_layout}.
#[global] Instance keeps_deref b : Keeps bvm (deref b).
Proof. unfold deref. keeps. Qed.
#[global] Instance keeps_bupd b g : Keeps bvm (bupd b g).
Proof. unfold bupd. keeps. Qed.
#[global] Instance keeps_ide_wait e : Keeps bvm (ide_wait e).
Proof. unfold ide_wait. keeps. Qed.
#[global] Instance keeps_ide_start b : Keeps bvm (ide_start b).
Proof. unfold ide_start. keeps. Qed.
#[global] Instance keeps_wake_buf ks b : Keeps bvm (zoom l_th (thread_wakeup ks (buf_chan b))).
Proof. by apply (keeps_zoom _ _ vmst); [intros ? []|intros []|apply _]. Qed.
#[global] Instance keeps_ide_intr ks : Keeps bvm (ide_intr ks).
Proof. unfold ide_intr. keeps. Qed.
#[global] Instance keeps_append_queue b : Keeps bvm (append_queue b).
Proof. unfold append_queue. keeps. Qed.
#[global] Instance keeps_ide_rw ks b : Keeps bvm (ide_rw ks b).
Proof. unfold ide_rw, sleep_on_disk. keeps. Qed.
#[global] Instance keeps_bufcache_get ks d x : Keeps bvm (bufcache_get ks d x).
Proof. unfold bufcache_get, search_body, recycle_body. keeps. Qed.
#[global] Instance keeps_bufcache_read ks d x : Keeps bvm (bufcache_read ks d x).
Proof. unfold bufcache_read. keeps. Qed.
#[global] Instance keeps_bufcache_write ks b : Keeps bvm (bufcache_write ks b).
Proof. unfold bufcache_write. keeps. Qed.
#[global] Instance keeps_bufcache_release ks b : Keeps bvm (bufcache_release ks b).
Proof. unfold bufcache_release. keeps. Qed.
End bio.

(** ** The log *)
Definition jvm (s : jfs) : vm := bvm (bi s).
Section log.
Context `{fs_layout}.
#[global] Instance keeps_zoom_bi {A} (m : K bio A) : Keeps bvm m -> Keeps jvm (zoom l_bi m).
Proof. intros Hm. apply (keeps_zoom _ _ bvm); [by intros ? []|by intros []|done]. Qed.
#[global] Instance keeps_log_upd g : Keeps jvm (log_upd g).
Proof. unfold log_upd. keeps. Qed.
#[global] Instance keeps_sector_at i : Keeps jvm (sector_at i).
Proof. unfold sector_at. keeps. Qed.
#[global] Instance keeps_set_sector_at i v : Keeps jvm (set_sector_at i v).
Proof. unfold set_sector_at. keeps. Qed.
#[global] Instance keeps_log_block i : Keeps jvm (log_block i).
Proof. unfold log_block, int_add. keeps. Qed.
#[global] Instance keeps_log_write ks b : Keeps jvm (log_write ks b).
Proof. unfold log_write, find_slot, int_add. keeps. Qed.
#[global] Instance keeps_install_trans ks : Keeps jvm (install_trans ks).
Proof. unfold install_trans, install_block. keeps. Qed.
#[global] Instance keeps_write_head ks : Keeps jvm (write_head ks).
Proof. unfold write_head. keeps. Qed.
#[global] Instance keeps_begin_trans ks : Keeps jvm (begin_trans ks).
Proof. unfold begin_trans. keeps. Qed.
#[global] Instance keeps_commit_trans ks : Keeps jvm (commit_trans ks).
Proof.
  unfold commit_trans. keeps. apply (keeps_zoom _ _ vmst); [by intros ? []|by intros []|apply _].
Qed.
End log.
