(* ===== verification/InodeSpec.v ===== *)
(** * The contents of files

    The bytes of a file are those of the blocks its inode maps.  Reading is
    specified against an interface that says what the block layer promises;
    it is implemented by the cache when no transaction runs, and by a
    transaction in progress. *)

From stdpp Require Import base gmap list numbers.
From S2P Require Import Prelude Lock Mem Vmm Str Thread Queue Sched Ide IdeSpec Bufcache BlockIO Log LogSpec Block Inode Frame.
Import Spinlock Types.

(** ** Where the bytes of a file are *)
Definition blk (L : blocks) (A : gmap Z Z) (bn : Z) : Z :=
  if bn <? NDIRECT then A !!! bn
  else load32 (L !!! (ROOTDEV, A !!! NDIRECT)) (4 * (bn - NDIRECT)).
Definition file_byte (L : blocks) (A : gmap Z Z) (x : Z) : Z :=
  load8 (L !!! (ROOTDEV, blk L A (x / BSIZE))) (x mod BSIZE).

(** Block [bn] of the file is there, and so is the block that names it. *)
Record mapped (st : Z) (L : blocks) (A : gmap Z Z) (bn : Z) : Prop := {
  mp_bn : 0 <= bn < MAXFILE;
  mp_blk : home st (blk L A bn) /\ blk L A bn <> 0;
  mp_ind : NDIRECT <= bn -> home st (A !!! NDIRECT) /\ A !!! NDIRECT <> 0
}.

(** Every block of the file system holds bytes. *)
Definition blocks_ok (st : Z) (L : blocks) : Prop := forall x, home st x -> mem_ok (L !!! (ROOTDEV, x)).

(** ** What the block layer promises *)
Definition with_vm (w : vm) (j : jfs) : jfs := lset (lens_comp l_jth l_vm) w j.

(** [P]: the block layer is at rest and its contents are [L]; [R j b v]:
    buffer [b] is held and has the contents [v]. *)
Class reader `{fs_layout} (st : Z) (ks : kstack) (P : jfs -> Prop) (R : jfs -> Z -> mem -> Prop) (L : blocks) : Prop := {
  rd_read j x : P j -> home st x ->
    wp (zoom l_bi (bufcache_read ks ROOTDEV x)) (fun b j' => R j' b (L !!! (ROOTDEV, x))) j;
  rd_held j b v : R j b v -> 0 <= b < NBUF /\ data (bufs (bi j) !!! b) = v;
  rd_release j b v : R j b v -> wp (zoom l_bi (bufcache_release ks b)) (fun _ j' => P j') j;
  rd_mem j b v w : R j b v -> R (with_vm w j) b v;
  rd_wake j chan : P j -> wp (zoom l_jth (thread_wakeup ks chan)) (fun _ j' => P j') j
}.

Lemma wp_ibi {A} (m : K bio A) Q s :
  wp (zoom l_bi m) (fun a j => Q a (lset l_jf j s)) (jf s) -> wp (zoom l_ibi m) Q s.
Proof. unfold wp, zoom. simpl. by destruct (m (bi (jf s))). Qed.

Lemma ideref_eq ip s : 0 <= ip < NINODE -> ideref ip s = Ok (inodes s !!! ip) s.
Proof. intros Hip. unfold ideref, in_array. krun. by zbool. Qed.
Lemma iupd_eq ip f s : 0 <= ip < NINODE ->
  iupd ip f s = Ok tt (set_inodes (<[ip := f (inodes s !!! ip)]> (inodes s)) s).
Proof. intros Hip. unfold iupd, in_array. krun. by zbool. Qed.

Section read.
Context `{fs_layout} (st : Z) (ks : kstack) (P : jfs -> Prop) (R : jfs -> Z -> mem -> Prop) (L : blocks).
Context `{!reader st ks P R L} (lk : spinlock_t) (I : gmap Z inode) (ip : Z) (Hip : 0 <= ip < NINODE).
Let i := I !!! ip.
Context (Hdev : i_dev i = ROOTDEV).

(** Reading a block, using its contents, and releasing it. *)
Lemma wp_block {A} j x (k : Z -> K ifs A) Q : P j -> home st x ->
  (forall b j', R j' b (L !!! (ROOTDEV, x)) -> jvm j' = jvm j -> wp (k b) Q (Ifs j' lk I)) ->
  wp (b ← zoom l_ibi (bufcache_read ks ROOTDEV x); k b) Q (Ifs j lk I).
Proof.
  intros HP Hx Hk. wp_step. apply wp_ibi.
  eapply wp_mono; [apply (wp_keeps jvm); [apply _|by apply (rd_read (L := L))]|]. intros b j' [HR E]. by apply Hk.
Qed.
Lemma wp_block_deref {A} j b v (k : buf -> K ifs A) Q : R j b v ->
  (forall x, data x = v -> wp (k x) Q (Ifs j lk I)) -> wp (x ← zoom l_ibi (deref b); k x) Q (Ifs j lk I).
Proof.
  intros HR Hk. destruct (rd_held _ _ _ HR) as [Hb Hv]. wp_step. apply wp_ibi, wp_zoom.
  eapply wp_of_eq; [apply deref_eq; lia|]. specialize (Hk _ Hv). by destruct j.
Qed.
Lemma wp_block_release {A} j b v (m : K ifs A) Q : R j b v ->
  (forall j', P j' -> jvm j' = jvm j -> wp m Q (Ifs j' lk I)) ->
  wp (zoom l_ibi (bufcache_release ks b) ;; m) Q (Ifs j lk I).
Proof.
  intros HR Hk. wp_step. apply wp_ibi.
  eapply wp_mono; [apply (wp_keeps jvm); [apply _|by eapply rd_release]|]. intros [] j' [HP E]. by apply Hk.
Qed.

(** bmap of a block that is mapped looks it up. *)
Lemma bmap_wp j bn : P j -> mapped st L (i_addrs i) bn ->
  wp (bmap ks ip bn) (fun a s' => a = blk L (i_addrs i) bn /\ exists j', s' = Ifs j' lk I /\ P j' /\ jvm j' = jvm j) (Ifs j lk I).
Proof.
  intros HP [Hbn [Hb Hb0] Hind]. unfold bmap, blk in *. destruct (Z.ltb_spec bn NDIRECT) as [Hd|Hd].
  - unfold addr_or_alloc. wp_step. eapply wp_of_eq; [by apply ideref_eq|]. cbn [inodes]. fold i. zbool. wp_step.
    split; [done|]. by exists j.
  - destruct (Hind Hd) as [Hi Hi0]. unfold MAXFILE in Hbn. zbool. wp_step. unfold addr_or_alloc.
    wp_step. eapply wp_of_eq; [by apply ideref_eq|]. cbn [inodes]. fold i. zbool. wp_step.
    wp_step. eapply wp_of_eq; [by apply ideref_eq|]. cbn [inodes]. fold i. rewrite Hdev.
    apply wp_block; [done|done|]. intros b j1 HR E1. eapply wp_block_deref; [done|]. intros x ->.
    zbool. wp_step. wp_step. eapply wp_block_release; [done|]. intros j2 HP2 E2. wp_step. split; [done|].
    exists j2. rewrite E2, E1. done.
Qed.

(** Memory [M'] is [M] with the bytes [f] of the file at [dst]. *)
Definition loaded (M M' : mem) (dst n : Z) (f : Z -> Z) : Prop :=
  forall a, load8 M' a = if decide (dst <= a < dst + n) then f (a - dst) else load8 M a.

Lemma loaded_more M M' d dst off tot m (f : Z -> Z) : mem_ok d -> 0 <= tot -> 0 <= m ->
  loaded M M' dst tot f -> (forall y, 0 <= y < m -> f (tot + y) = load8 d (off + y)) ->
  loaded M (write_bytes M' (dst + tot) (read_bytes d off m)) dst (tot + m) f.
Proof.
  intros Hd Ht Hm HM Hf a. rewrite load8_write_bytes by (by apply read_bytes_ok).
  rewrite read_bytes_length, Z2Nat.id, (HM a) by lia. repeat case_decide; try lia; try done.
  rewrite read_bytes_lookup by lia. rewrite <- Hf by lia. f_equal. lia.
Qed.

Lemma set_phys_twice M M' v : set_phys M (set_phys M' v) = set_phys M v.
Proof. done. Qed.
Lemma set_phys_id v : set_phys (phys v) v = v.
Proof. by destruct v. Qed.

(** inode_read gives the bytes of the file, up to its end. *)
Lemma inode_read_wp j dst off n : P j -> blocks_ok st L -> i_type i <> T_DEV -> is_u32 (i_size i) ->
  0 <= off <= i_size i -> 0 <= n -> off + n < W32 -> 0 <= dst ->
  let n' := if i_size i <? off + n then i_size i - off else n in
  dst + n' < W32 -> n' < 2147483648 -> (forall bn, off / BSIZE <= bn -> bn * BSIZE < off + n' -> mapped st L (i_addrs i) bn) ->
  wp (inode_read ks ip dst off n)
     (fun r s' => r = n' /\ exists j' M, s' = Ifs j' lk I /\ P j' /\ jvm j' = set_phys M (jvm j) /\
        loaded (phys (jvm j)) M dst n' (fun y => file_byte L (i_addrs i) (off + y))) (Ifs j lk I).
Proof.
  intros HP HL Hty Hsz Hoff Hn Hon Hdst n' Hdn Hn31 Hmap. unfold inode_read. wp_step.
  eapply wp_of_eq; [by apply ideref_eq|]. cbn [inodes]. fold i. unfold is_u32 in Hsz. rewrite (u32_small (off + n)) by lia.
  zbool. simpl orb. cbv iota. fold n'. assert (Hn' : 0 <= n') by (unfold n'; destruct (Z.ltb_spec (i_size i) (off + n)); lia).
  assert (Hon' : off + n' < W32) by (unfold n'; destruct (Z.ltb_spec (i_size i) (off + n)); lia).
  wp_step. eapply (wp_while _ (fun '(tot, o, d) s' => 0 <= tot <= n' /\ o = off + tot /\ d = dst + tot /\
      exists j' M, s' = Ifs j' lk I /\ P j' /\ jvm j' = set_phys M (jvm j) /\
        loaded (phys (jvm j)) M dst tot (fun y => file_byte L (i_addrs i) (off + y))) (fun '(tot, _, _) _ => n' - tot)).
  - intros [[tot o] d] s' (Ht & -> & -> & j1 & M & -> & HP1 & E1 & HM) _. destruct (Z.ltb_spec tot n') as [Hlt|Hge].
    + assert (Hmp : mapped st L (i_addrs i) ((off + tot) / BSIZE)) by (apply Hmap; unfold BSIZE; zdiv).
      wp_step. wp_call (bmap_wp j1); [done|done|]. intros a s2 (-> & j2 & -> & HP2 & E2).
      wp_step. eapply wp_of_eq; [by apply ideref_eq|]. cbn [inodes]. fold i. rewrite Hdev.
      apply wp_block; [done|apply Hmp|]. intros b j3 HR E3. eapply wp_block_deref; [done|]. intros x Ex. rewrite Ex.
      set (m := min (n' - tot) (BSIZE - (off + tot) mod BSIZE)).
      assert (Hm : 0 < m /\ tot + m <= n' /\ m <= BSIZE - (off + tot) mod BSIZE) by (unfold m, min, BSIZE; zcases; zdiv).
      wp_step. wp_step. wp_step. eapply (wp_block_release (with_vm _ j3)); [by apply rd_mem|].
      intros j4 HP4 E4. wp_step. rewrite !u32_small by lia. split; [|lia].
      split; [lia|]. split; [lia|]. split; [lia|]. set (d := L !!! (ROOTDEV, blk L (i_addrs i) ((off + tot) / BSIZE))) in *.
      exists j4, (write_bytes M (dst + tot) (read_bytes d ((off + tot) mod BSIZE) m)). split; [done|]. split; [done|]. split.
      * rewrite E4. change (set_phys (write_bytes (phys (jvm j3)) (dst + tot)
          (read_bytes d ((off + tot) mod BSIZE) m)) (jvm j3) = set_phys (write_bytes M (dst + tot)
          (read_bytes d ((off + tot) mod BSIZE) m)) (jvm j)). by rewrite E3, E2, E1.
      * apply loaded_more; [apply HL, Hmp|lia|lia|done|]. intros y Hy. unfold file_byte, d.
        unfold BSIZE in *. f_equal; [do 3 f_equal; zdiv|zdiv].
    + wp_step. wp_step. replace tot with n' in * by lia. split; [by apply s32_small; lia|]. by exists j1, M.
  - repeat (split; [lia|]). exists j, (phys (jvm j)). rewrite set_phys_id. repeat (split; [done|]).
    intros a. by rewrite decide_False by lia.
  - unfold W32 in *. lia.
Qed.
End read.

(** ** The block layer in a transaction *)
Section trans.
Context (st sz : Z) (Hgeo : geometry st sz) `{fs_layout} (c : Z) (ks : kstack) (Hon : on_cpu c ks).
Context (D0 : blocks) (w0 : writes).

(** A change of the threads that keeps the scheduler consistent. *)
Lemma trans_th j U held t : (exists cur ready, sched_inv c t cur ready) -> trans st sz c D0 w0 j U held ->
  trans st sz c D0 w0 (lset l_jth t j) U held.
Proof.
  intros Hs Ht. pose proof Ht as [_ _ _ _ (P & Hv & Hu) Hh Hk _].
  apply (trans_step _ _ _ _ _ j U held (bi (lset l_jth t j)) held P Ht); try done; [by apply view_th|by eapply holds_pay].
Qed.
Lemma trans_sched j U held : trans st sz c D0 w0 j U held -> exists cur ready, sched_inv c (lget l_jth j) cur ready.
Proof. intros [_ _ _ _ (P & Hv & _) _ _ _]. by eapply view_sched. Qed.

Lemma trans_mem j U held w : trans st sz c D0 w0 j U held -> trans st sz c D0 w0 (with_vm w j) U held.
Proof.
  intros Ht. apply trans_th; [|done]. destruct (trans_sched _ _ _ Ht) as (cur & ready & Hs).
  exists cur, ready. by apply sched_inv_vm.
Qed.

Definition holding (U : blocks) (j : jfs) (b : Z) (v : mem) : Prop :=
  exists x, trans st sz c D0 w0 j U [(b, (ROOTDEV, x), v)] /\ v = logical D0 U !!! (ROOTDEV, x).

#[global] Instance trans_reader U :
  reader st ks (fun j => trans st sz c D0 w0 j U []) (holding U) (logical D0 U).
Proof.
  split.
  - intros j x Ht Hx. eapply wp_mono.
    + apply (tr_read st sz Hgeo c ks Hon D0 w0 j U [] x); [done|done|by apply not_elem_of_nil|]. right.
      pose proof (tr_room _ _ _ _ _ _ _ _ Ht). simpl. lia.
    + intros b j' Ht'. by exists x.
  - intros j b v (x & Ht & _). destruct (tr_held _ _ _ _ _ _ _ _ Ht _ ltac:(by left)) as [[] _]. done.
  - intros j b v (x & Ht & Ev). by apply (tr_release st sz Hgeo c ks Hon D0 w0 j U [] b (ROOTDEV, x) v).
  - intros j b v w (x & Ht & Ev). exists x. split; [|done]. by apply trans_mem.
  - intros j chan Ht. destruct (trans_sched _ _ _ Ht) as (cur & ready & Hs). apply wp_zoom.
    wp_call (thread_wakeup_wp c ks _ cur ready chan Hon Hs). intros [] t (T & TQ & _ & _ & Hs'). apply trans_th; [|done]. eauto.
Qed.

(** ** The block layer between transactions *)

(** The log is idle and the disk is [S]. *)
Definition at_rest (S : blocks * writes) (j : jfs) : Prop := idle_log st sz c j /\ store_of (dsk (bi j)) = S.
(** The same, but buffer [b] is held. *)
Definition at_rest_but (S : blocks * writes) (j : jfs) (b : Z) (v : mem) : Prop :=
  exists x, view c (bi j) ∅ [b] /\ held_block (bi j) b (ROOTDEV, x) v false /\ v = S.1 !!! (ROOTDEV, x) /\
    store_of (dsk (bi j)) = S /\ jgeo st sz j /\ lh_n (lg j) = 0 /\ log_busy (lg j) = 0 /\
    sb_ok st sz S.1 /\ logged st sz S.1 [].

Lemma sched_mem c' j w : (exists cur ready, sched_inv c' (lget l_jth j) cur ready) ->
  exists cur ready, sched_inv c' (lset l_vm w (lget l_jth j)) cur ready.
Proof. intros (cur & ready & Hs). exists cur, ready. by apply sched_inv_vm. Qed.

#[global] Instance rest_reader S : reader st ks (at_rest S) (at_rest_but S) S.1.
Proof.
  split.
  - intros j x [[Hv Hg Hn Hb Hsb Hlo] <-] Hx. pose proof Hgeo as [? ? ?]. pose proof Hx as [Hx0 _]. apply wp_zoom.
    wp_call (view_read c ks (bi j) ∅ [] (ROOTDEV, x)); [done|done|apply Hg; lia|by intros b []%elem_of_nil|right; done|].
    intros b j' (Hv' & _ & Hh & _ & Es & Hd). rewrite delete_empty in Hv'. exists x. simpl in Hh.
    split; [done|]. split; [exact Hh|]. split; [done|]. split; [done|]. split; [by apply jgeo_bi|]. done.
  - intros j b v (x & _ & [] & _). done.
  - intros j b v (x & Hv & Hh & Ev & Es & Hg & Hn & Hb & Hsb & Hlo). apply wp_zoom.
    wp_call (view_release c ks (bi j) ∅ [] b); [done|done|by apply not_elem_of_nil|exact Hh| |].
    { intros _. rewrite Ev. f_equal. apply (f_equal fst) in Es. done. }
    intros [] j' (Hv' & _ & Ed & Hd). simpl in Hv'. rewrite <- Es, <- Ed in *. split; [|done].
    split; [done|by apply jgeo_bi|done|done|done|done].
  - intros j b v w (x & Hv & Hh & Ev & Es & Hg & Hr). exists x. split.
    + apply view_th; [|done]. apply sched_mem. by eapply view_sched.
    + split; [by apply (held_pay (bi j))|]. split; [done|]. split; [done|]. split; [|done]. by apply (jgeo_bi _ _ j).
  - intros j chan [[Hv Hg Hn Hb Hsb Hlo] Es]. destruct (view_sched _ _ _ _ Hv) as (cur & ready & Hs). apply wp_zoom.
    wp_call (thread_wakeup_wp c ks _ cur ready chan Hon Hs). intros [] t (T & TQ & _ & _ & Hs').
    split; [|done]. split; try done; [apply view_th; [|done]; eauto|]. by apply (jgeo_bi _ _ j).
Qed.

(** ** Overwriting *)

(** The first [nbl] blocks of the file are there and distinct. *)
Record file_ok (L : blocks) (A : gmap Z Z) (nbl : Z) : Prop := {
  fo_mapped : forall bn, 0 <= bn < nbl -> mapped st L A bn;
  fo_inj : forall bn bn', 0 <= bn < nbl -> 0 <= bn' < nbl -> blk L A bn = blk L A bn' -> bn = bn';
  fo_ind : forall bn, 0 <= bn < nbl -> NDIRECT < nbl -> blk L A bn <> A !!! NDIRECT
}.

(** Changing a data block leaves the map of the file alone. *)
Lemma blk_update L A nbl bn bn' v : file_ok L A nbl -> 0 <= bn < nbl -> 0 <= bn' < nbl ->
  blk (<[(ROOTDEV, blk L A bn) := v]> L) A bn' = blk L A bn'.
Proof.
  intros Hf Hb Hb'. unfold blk at 1. unfold blk at 2. destruct (Z.ltb_spec bn' NDIRECT); [done|].
  rewrite lookup_total_insert_ne; [done|]. intros [= E]. apply (fo_ind _ _ _ Hf bn Hb); [lia|done].
Qed.

Lemma file_ok_update L A nbl bn v : file_ok L A nbl -> 0 <= bn < nbl -> file_ok (<[(ROOTDEV, blk L A bn) := v]> L) A nbl.
Proof.
  intros Hf Hb. split.
  - intros bn' Hb'. destruct (fo_mapped _ _ _ Hf bn' Hb') as [? ? ?]. split; [done| |done]. by rewrite (blk_update _ _ nbl).
  - intros b1 b2 H1 H2. rewrite !(blk_update _ _ nbl) by done. by apply (fo_inj _ _ _ Hf).
  - intros b1 H1 Hn. rewrite (blk_update _ _ nbl) by done. by apply (fo_ind _ _ _ Hf).
Qed.

Lemma file_byte_update L A nbl bn v x : file_ok L A nbl -> 0 <= bn < nbl -> 0 <= x < nbl * BSIZE ->
  file_byte (<[(ROOTDEV, blk L A bn) := v]> L) A x =
    if decide (x / BSIZE = bn) then load8 v (x mod BSIZE) else file_byte L A x.
Proof.
  intros Hf Hb Hx. unfold BSIZE in *. assert (Hx' : 0 <= x / 512 < nbl) by zdiv. unfold file_byte, BSIZE.
  rewrite (blk_update _ _ nbl) by done. case_decide as E; [by rewrite E, lookup_total_insert_eq|].
  rewrite lookup_total_insert_ne; [done|]. intros [= E2]. apply E. symmetry. by apply (fo_inj _ _ _ Hf).
Qed.

(** [L'] is [L] with the [n] bytes [f] at [off] of the file, and nothing else
    changed. *)
Record overwritten (L L' : blocks) (A : gmap Z Z) (nbl off n : Z) (f : Z -> Z) : Prop := {
  ow_ok : file_ok L' A nbl;
  ow_blk : forall bn, 0 <= bn < nbl -> blk L' A bn = blk L A bn;
  ow_bytes : forall x, 0 <= x < nbl * BSIZE ->
    file_byte L' A x = if decide (off <= x < off + n) then f (x - off) else file_byte L A x;
  ow_mem : blocks_ok st L';
  ow_rest : forall k, outside st sz k -> (forall bn, 0 <= bn < nbl -> k <> (ROOTDEV, blk L A bn)) -> L' !!! k = L !!! k
}.

(** One more block of the write. *)
Lemma overwritten_more L L' A nbl off tot m f M src : overwritten L L' A nbl off tot f -> 0 <= off -> 0 <= tot -> 0 < m ->
  off + tot + m <= nbl * BSIZE -> m <= BSIZE - (off + tot) mod BSIZE -> mem_ok M ->
  (forall y, 0 <= y < m -> f (tot + y) = load8 M (src + y)) ->
  let bn := (off + tot) / BSIZE in
  overwritten L (<[(ROOTDEV, blk L A bn) :=
    write_bytes (L' !!! (ROOTDEV, blk L A bn)) ((off + tot) mod BSIZE) (read_bytes M src m)]> L') A nbl off (tot + m) f.
Proof.
  intros [Hf Hb Hx Hm Hr] Ho Ht Hm0 Hend Hm1 HM Hsrc bn. assert (Hbn : 0 <= bn < nbl) by (unfold bn, BSIZE in *; zdiv).
  rewrite <- (Hb bn Hbn). split.
  - by apply file_ok_update.
  - intros b Hb'. rewrite (blk_update _ _ nbl) by done. by apply Hb.
  - intros x Hxr. rewrite (file_byte_update _ _ nbl) by done. unfold bn.
    case_decide as E.
    + rewrite load8_write_bytes by (by apply read_bytes_ok). rewrite read_bytes_length, Z2Nat.id by lia.
      assert (Ex : file_byte L' A x = load8 (L' !!! (ROOTDEV, blk L' A ((off + tot) / BSIZE))) (x mod BSIZE))
        by (unfold file_byte; by rewrite E).
      case_decide as E2.
      * rewrite read_bytes_lookup by lia. rewrite decide_True by (unfold BSIZE in *; zdiv).
        replace (x - off) with (tot + (x mod BSIZE - (off + tot) mod BSIZE)) by (unfold BSIZE in *; zdiv). symmetry. apply Hsrc. lia.
      * rewrite <- Ex, (Hx x Hxr). unfold BSIZE in *. repeat case_decide; try done; exfalso; zdiv.
    + rewrite (Hx x Hxr). unfold BSIZE in *. repeat case_decide; try done; exfalso; zdiv.
  - intros y Hy. destruct (decide (y = blk L' A bn)) as [->|Hne].
    + rewrite lookup_total_insert_eq. by apply mem_ok_write_bytes, Hm.
    + rewrite lookup_total_insert_ne by congruence. by apply Hm.
  - intros k Hko Hk. rewrite lookup_total_insert_ne; [by apply Hr|]. rewrite (Hb bn Hbn). intros <-. by apply (Hk bn).
Qed.

Lemma overwritten_nil L A nbl off f : file_ok L A nbl -> blocks_ok st L -> overwritten L L A nbl off 0 f.
Proof. intros Hf Hm. split; try done. intros x Hx. by rewrite decide_False by lia. Qed.

(** How many blocks [n] bytes at [off] touch. *)
Definition touched (off n : Z) : Z := if n =? 0 then 0 else (off + n - 1) / BSIZE - off / BSIZE + 1.

Lemma touched_step off n tot m : 0 <= off -> 0 <= tot -> 0 < m -> tot + m <= n -> m <= BSIZE - (off + tot) mod BSIZE ->
  tot = 0 \/ (off + tot) mod BSIZE = 0 ->
  touched off (tot + m) = touched off tot + 1 /\ touched off tot + 1 <= touched off n.
Proof.
  intros Ho Ht Hm Hn Hm1 Hal. unfold touched. rewrite (proj2 (Z.eqb_neq (tot + m) 0)), (proj2 (Z.eqb_neq n 0)) by lia.
  unfold BSIZE in *. destruct (Z.eqb_spec tot 0) as [->|Hne]; zdiv.
Qed.

Lemma file_ok_max L A nbl : file_ok L A nbl -> nbl <= MAXFILE.
Proof.
  intros Hf. destruct (Z.le_gt_cases nbl 0); [unfold MAXFILE, NDIRECT, NINDIRECT, BSIZE; zdiv|].
  pose proof (mp_bn _ _ _ _ (fo_mapped _ _ _ Hf (nbl - 1) ltac:(lia))). lia.
Qed.

Section write.
Context (lk : spinlock_t) (I : gmap Z inode) (ip : Z) (Hip : 0 <= ip < NINODE).
Let i := I !!! ip.
Context (Hdev : i_dev i = ROOTDEV).

(** One round of the loop of inode_write. *)
Lemma write_block_wp {A} j U a (g : mem -> mem -> mem) (k : K ifs A) Q : trans st sz c D0 w0 j U [] -> home st a ->
  Z.of_nat (size U) + 1 < NBUF -> Z.of_nat (size U) + 1 < sz ->
  let M := phys (jvm j) in
  (forall j', trans st sz c D0 w0 j' (<[(ROOTDEV, a) := g M (logical D0 U !!! (ROOTDEV, a))]> U) [] -> jvm j' = jvm j ->
     wp k Q (Ifs j' lk I)) ->
  wp (bp ← zoom l_ibi (bufcache_read ks ROOTDEV a);
      M ← zoom l_imem get;
      zoom l_ibi (bupd bp (fun x => with_data (g M (data x)) x)) ;;
      zoom l_jf (log_write ks bp) ;;
      zoom l_ibi (bufcache_release ks bp) ;; k) Q (Ifs j lk I).
Proof.
  intros Ht Ha Hr1 Hr2 M Hk. set (v := g M (logical D0 U !!! (ROOTDEV, a))) in *.
  pose proof (size_insert_le U (ROOTDEV, a) v) as Hs.
  wp_step. apply wp_ibi. eapply wp_mono; [apply (wp_keeps jvm); [apply _|]|].
  { apply (tr_read st sz Hgeo c ks Hon D0 w0 j U [] a); [done|done|by apply not_elem_of_nil|right; simpl; lia]. }
  intros b j1 [Ht1 E1]. wp_step. wp_step. wp_step.
  replace (lset l_imem _ _) with (Ifs j1 lk I) by (by destruct j1 as [[[[] ? ? ? ? ? ? ? ? ?] ? ? ? ? ? ?] ?]).
  change (lget l_imem _) with (phys (jvm j1)). rewrite E1. change (phys _) with M. wp_step. apply wp_ibi. eapply wp_mono; [apply (wp_keeps jvm); [apply _|]|].
  { apply (tr_modify st sz Hgeo c ks Hon D0 w0 j1 U [] b (ROOTDEV, a) _ (g M) Ht1). }
  intros [] j2 [Ht2 E2]. wp_step. wp_step. eapply wp_mono; [apply (wp_keeps jvm); [apply _|]|].
  { apply (tr_log_write st sz Hgeo c ks Hon D0 w0 j2 U [] b (ROOTDEV, a) v Ht2); simpl; lia. }
  intros [] j3 [Ht3 E3]. wp_step. apply wp_ibi. eapply wp_mono; [apply (wp_keeps jvm); [apply _|]|].
  { apply (tr_release st sz Hgeo c ks Hon D0 w0 j3 _ [] b (ROOTDEV, a) v Ht3). by rewrite logical_lookup, lookup_insert_eq. }
  intros [] j4 [Ht4 E4]. apply Hk; [done|]. etrans; [exact E4|]. etrans; [exact E3|]. etrans; [exact E2|]. exact E1.
Qed.

Lemma inode_write_wp j src off n U nbl : trans st sz c D0 w0 j U [] -> i_type i <> T_DEV -> is_u32 (i_size i) ->
  0 <= off -> 0 <= n < 2147483648 -> off + n <= i_size i -> off + n <= nbl * BSIZE -> 0 <= src -> src + n < W32 ->
  let L := logical D0 U in
  file_ok L (i_addrs i) nbl -> blocks_ok st L -> mem_ok (phys (jvm j)) ->
  Z.of_nat (size U) + touched off n < NBUF -> Z.of_nat (size U) + touched off n < sz ->
  wp (inode_write ks ip src off n)
     (fun r s' => r = n /\ exists j' U', s' = Ifs j' lk I /\ trans st sz c D0 w0 j' U' [] /\ jvm j' = jvm j /\
        overwritten L (logical D0 U') (i_addrs i) nbl off n (fun y => load8 (phys (jvm j)) (src + y)) /\
        Z.of_nat (size U') <= Z.of_nat (size U) + touched off n) (Ifs j lk I).
Proof.
  intros Ht Hty Hsz Hoff Hn Hend Hnb Hsrc Hsn L Hf HL HM Hr1 Hr2. pose proof (file_ok_max _ _ _ Hf) as Hmax.
  unfold is_u32 in Hsz. unfold inode_write. wp_step. eapply wp_of_eq; [by apply ideref_eq|]. cbn [inodes]. fold i.
  rewrite (u32_small (off + n)) by lia. assert (off + n <= MAXFILE * BSIZE) by (unfold BSIZE in *; lia).
  zbool. simpl orb. cbv iota. set (f := fun y => load8 (phys (jvm j)) (src + y)) in *. wp_step.
  eapply (wp_while _ (fun '(tot, o, d) s' => 0 <= tot <= n /\ o = off + tot /\ d = src + tot /\
      (tot = 0 \/ tot = n \/ (off + tot) mod BSIZE = 0) /\
      exists j' U', s' = Ifs j' lk I /\ trans st sz c D0 w0 j' U' [] /\ jvm j' = jvm j /\
        overwritten L (logical D0 U') (i_addrs i) nbl off tot f /\ Z.of_nat (size U') <= Z.of_nat (size U) + touched off tot)
      (fun '(tot, _, _) _ => n - tot)).
  - intros [[tot o] d] s' (Htot & -> & -> & Hal & j1 & U1 & -> & Ht1 & E1 & Hov & Hs1) _.
    destruct (Z.ltb_spec tot n) as [Hlt|Hge].
    + set (bn := (off + tot) / BSIZE). assert (Hbn : 0 <= bn < nbl) by (unfold bn, BSIZE in *; zdiv).
      pose proof (fo_mapped _ _ _ (ow_ok _ _ _ _ _ _ _ Hov) bn Hbn) as Hmp.
      pose proof (ow_blk _ _ _ _ _ _ _ Hov bn Hbn) as Eb.
      wp_step. wp_call (bmap_wp st ks _ _ (logical D0 U1) lk I ip Hip Hdev j1); [exact Ht1|exact Hmp|].
      intros a s2 (-> & j2 & -> & Ht2 & E2). wp_step. eapply wp_of_eq; [by apply ideref_eq|]. cbn [inodes].
      fold i. rewrite Hdev. set (m := min (n - tot) (BSIZE - (off + tot) mod BSIZE)).
      assert (Hm : 0 < m /\ tot + m <= n /\ m <= BSIZE - (off + tot) mod BSIZE) by (unfold m, min, BSIZE; zcases; zdiv).
      assert (Htch : touched off (tot + m) = touched off tot + 1 /\ touched off tot + 1 <= touched off n)
        by (apply touched_step; lia).
      assert (Hal' : tot + m = n \/ (off + (tot + m)) mod BSIZE = 0) by (unfold m, min, BSIZE; clear -Hlt Htot Hoff; zcases; zdiv).
      eapply (write_block_wp j2 U1 (blk (logical D0 U1) (i_addrs i) bn) (fun M d0 => write_bytes d0 ((off + tot) mod BSIZE) (read_bytes M (src + tot) m)));
        [exact Ht2|apply Hmp|lia|lia|].
      intros j3 Ht3 E3. wp_step. rewrite !u32_small by lia. split; [|lia]. split; [lia|]. split; [lia|]. split; [lia|].
      split; [lia|]. eexists j3, _. split; [done|]. split; [exact Ht3|]. split; [congruence|].
      rewrite logical_insert. split.
      * rewrite Eb. rewrite E2, E1. apply overwritten_more; try done; try lia.
        intros y Hy. unfold f. f_equal. lia.
      * assert ((size (<[(ROOTDEV, blk (logical D0 U1) (i_addrs i) bn) := write_bytes (logical D0 U1 !!! (ROOTDEV, blk (logical D0 U1) (i_addrs i) bn))
          ((off + tot) mod BSIZE) (read_bytes (phys (jvm j2)) (src + tot) m)]> U1) <= S (size U1))%nat); [apply size_insert_le|lia].
    + wp_step. assert (tot = n) as -> by lia. wp_step. eapply wp_of_eq; [by apply ideref_eq|]. cbn [inodes]. fold i.
      rewrite (proj2 (Z.ltb_ge (i_size i) (off + n))) by lia. rewrite andb_false_r. wp_step. wp_step. wp_step.
      split; [by apply s32_small; lia|]. by exists j1, U1.
  - do 4 (split; [lia|]). exists j, U. do 3 (split; [done|]). split; [by apply overwritten_nil|].
    unfold touched. simpl. lia.
  - lia.
Qed.
End write.
End trans.

(** ** The inode cache *)
Definition ikey (i : inode) : Z * Z := (i_dev i, i_inum i).
Definition free_slot (I : gmap Z inode) (ip : Z) : Prop := 0 <= ip < NINODE /\ i_ref (I !!! ip) = 0.

(** The cache [I] counts [C k] references to the inode with key [k]: no inode
    has two entries in use. *)
Record icache (I : gmap Z inode) (C : Z * Z -> Z) : Prop := {
  ic_pos : forall ip, 0 <= ip < NINODE -> 0 <= i_ref (I !!! ip) < 2147483647;
  ic_ref : forall ip, 0 <= ip < NINODE -> 0 < i_ref (I !!! ip) -> C (ikey (I !!! ip)) = i_ref (I !!! ip);
  ic_in : forall k, C k <> 0 -> exists ip, 0 <= ip < NINODE /\ 0 < i_ref (I !!! ip) /\ ikey (I !!! ip) = k;
  ic_inj : forall a b, 0 <= a < NINODE -> 0 <= b < NINODE -> 0 < i_ref (I !!! a) -> 0 < i_ref (I !!! b) ->
    ikey (I !!! a) = ikey (I !!! b) -> a = b
}.
Definition cset (C : Z * Z -> Z) (k : Z * Z) (v : Z) : Z * Z -> Z := fun k' => if decide (k' = k) then v else C k'.

(** The loop of inode_get: the entry in use for the inode, or else the first
    free entry. *)
Lemma find_inode_wp dev0 inum s :
  wp (find_inode dev0 inum)
     (fun r s' => s' = s /\ match r with
        | inl ip => 0 <= ip < NINODE /\ 0 < i_ref (inodes s !!! ip) /\ ikey (inodes s !!! ip) = (dev0, inum)
        | inr e => (forall ip, 0 <= ip < NINODE -> 0 < i_ref (inodes s !!! ip) -> ikey (inodes s !!! ip) <> (dev0, inum)) /\
            if decide (e = NULL) then forall ip, ~ free_slot (inodes s) ip
            else free_slot (inodes s) e /\ forall ip, free_slot (inodes s) ip -> e <= ip
        end) s.
Proof.
  unfold find_inode. set (I := inodes s).
  apply (wp_while _ (fun '(ip, e) s' => s' = s /\ 0 <= ip <= NINODE /\
    (forall a, 0 <= a < ip -> 0 < i_ref (I !!! a) -> ikey (I !!! a) <> (dev0, inum)) /\
    if decide (e = NULL) then forall a, a < ip -> ~ free_slot I a
    else e < ip /\ free_slot I e /\ forall a, free_slot I a -> e <= a) (fun '(ip, _) _ => NINODE - ip)).
  - intros [ip e] s' (-> & Hip & Hno & He) _. destruct (Z.ltb_spec ip NINODE) as [Hlt|Hge].
    + wp_step. eapply wp_of_eq; [apply ideref_eq; lia|]. fold I.
      destruct ((0 <? i_ref (I !!! ip)) && (i_dev (I !!! ip) =? dev0) && (i_inum (I !!! ip) =? inum)) eqn:E.
      * wp_step. split; [done|]. unfold ikey. assert (i_dev (I !!! ip) = dev0 /\ i_inum (I !!! ip) = inum) as [-> ->] by lia. split; [lia|]. split; [lia|done].
      * wp_step. split; [|lia]. split; [done|]. split; [lia|]. split.
        { intros a Ha Hr. destruct (decide (a = ip)) as [->|]; [|apply Hno; [lia|done]]. unfold ikey. intros [= E1 E2]. lia. }
        unfold NULL in *. destruct (Z.eqb_spec e (-1)) as [->|Hne]; simpl.
        -- rewrite decide_True in He by done. destruct (Z.eqb_spec (i_ref (I !!! ip)) 0) as [E0|E0].
           ++ rewrite decide_False by lia. split; [lia|]. split; [split; [lia|done]|]. intros a Ha.
              destruct (Z.lt_ge_cases a ip) as [Hl|]; [|done]. by destruct (He a Hl).
           ++ rewrite decide_True by done. intros a Ha [Hr0 Hr]. destruct (decide (a = ip)) as [->|]; [done|].
              apply (He a); [lia|by split].
        -- rewrite decide_False in * by done. destruct He as (? & ? & ?). split; [lia|done].
    + wp_step. split; [done|]. assert (ip = NINODE) as -> by lia. split; [intros a Ha; by apply Hno|].
      case_decide; [|by destruct He as (_ & ? & ?)]. intros a [Ha Hr]. apply (He a); [lia|by split].
  - split; [done|]. split; [unfold NINODE; lia|]. split; [lia|]. rewrite decide_True by done. intros a Ha [? _]. lia.
  - unfold NINODE. lia.
Qed.

(** Counting one more or one less reference at an entry in use. *)
Lemma icache_count I C ip n : icache I C -> 0 <= ip < NINODE -> 0 < i_ref (I !!! ip) -> 0 <= n < 2147483647 ->
  icache (<[ip := with_ref n (I !!! ip)]> I) (cset C (ikey (I !!! ip)) n).
Proof.
  intros [Hp Hr Hi Hj] Hip Hpos Hn. set (k := ikey (I !!! ip)).
  assert (Hk : forall a, 0 <= a < NINODE -> a <> ip -> 0 < i_ref (I !!! a) -> ikey (I !!! a) <> k).
  { intros a Ha Hne Hpa E. by apply Hne, Hj. }
  split.
  - intros a Ha. destruct (decide (a = ip)) as [->|Hne]; [by rewrite lookup_total_insert_eq|].
    rewrite lookup_total_insert_ne by done. by apply Hp.
  - intros a Ha. unfold cset. destruct (decide (a = ip)) as [->|Hne].
    + rewrite lookup_total_insert_eq. intros _. change (ikey (with_ref n (I !!! ip))) with k. by rewrite decide_True.
    + rewrite lookup_total_insert_ne by done. intros Hpa. rewrite decide_False by (by apply Hk). by apply Hr.
  - intros k' Hk'. unfold cset in Hk'. case_decide as E.
    + exists ip. rewrite lookup_total_insert_eq. split; [done|]. split; [simpl; lia|]. by rewrite E.
    + destruct (Hi k' Hk') as (a & Ha & Hpa & Ea). exists a. rewrite lookup_total_insert_ne; [done|]. intros ->. by apply E.
  - intros a b Ha Hb. destruct (decide (a = ip)) as [->|Hna], (decide (b = ip)) as [->|Hnb];
      rewrite ?lookup_total_insert_eq, ?lookup_total_insert_ne by done; try done.
    + intros _ Hpb E. by destruct (Hk b Hb Hnb Hpb).
    + intros Hpa _ E. by destruct (Hk a Ha Hna Hpa).
    + by apply Hj.
Qed.

(** A free entry taken for an inode that is not in the cache. *)
Lemma icache_take I C ip i : icache I C -> free_slot I ip -> i_ref i = 1 -> C (ikey i) = 0 ->
  icache (<[ip := i]> I) (cset C (ikey i) 1).
Proof.
  intros [Hp Hr Hi Hj] [Hip Hf] Hone Hc.
  assert (Hk : forall a, 0 <= a < NINODE -> 0 < i_ref (I !!! a) -> ikey (I !!! a) <> ikey i).
  { intros a Ha Hpa E. pose proof (Hr a Ha Hpa) as E2. rewrite E, Hc in E2. lia. }
  split.
  - intros a Ha. destruct (decide (a = ip)) as [->|Hne]; [rewrite lookup_total_insert_eq; lia|].
    rewrite lookup_total_insert_ne by done. by apply Hp.
  - intros a Ha. unfold cset. destruct (decide (a = ip)) as [->|Hne].
    + rewrite lookup_total_insert_eq. intros _. by rewrite decide_True.
    + rewrite lookup_total_insert_ne by done. intros Hpa. rewrite decide_False by (by apply Hk). by apply Hr.
  - intros k' Hk'. unfold cset in Hk'. case_decide as E.
    + exists ip. rewrite lookup_total_insert_eq. split; [done|]. split; [lia|done].
    + destruct (Hi k' Hk') as (a & Ha & Hpa & Ea). exists a. rewrite lookup_total_insert_ne; [done|]. intros ->. lia.
  - intros a b Ha Hb. destruct (decide (a = ip)) as [->|Hna], (decide (b = ip)) as [->|Hnb];
      rewrite ?lookup_total_insert_eq, ?lookup_total_insert_ne by done; try done.
    + intros _ Hpb E. by destruct (Hk b Hb Hpb).
    + intros Hpa _ E. by destruct (Hk a Ha Hpa).
    + by apply Hj.
Qed.

(** ** The cache counts references *)
Section counts.
Context `{fs_layout} (c : Z) (ks : kstack) (Hon : on_cpu c ks).

Lemma ic_acquire_eq s : lock (ic_lock s) = 0 -> zoom l_ic_lock (spinlock_acquire ks) s = Ok tt (lset l_ic_lock (held_lock ks) s).
Proof.
  intros E. unfold zoom. cbn [lget l_ic_lock]. destruct s as [j [h l] I]. simpl in E. subst l.
  cbn [ic_lock]. by rewrite acquire_free by apply Hon.
Qed.

Definition count (C : gmap (Z * Z) Z) (k : Z * Z) : Z := default 0 (C !! k).
(** A cached inode that has been read has a link, so that putting it never
    frees it on the disk. *)
Definition linked (I : gmap Z inode) : Prop :=
  forall ip, 0 <= ip < NINODE -> Z.land (i_flags (I !!! ip)) I_VALID <> 0 -> i_nlink (I !!! ip) <> 0.
(** [ptr] has the pointers the clients got. *)
Record counted (j : jfs) (s : ifs) (C : gmap (Z * Z) Z) (ptr : gmap (Z * Z) Z) : Prop := {
  co_jf : jf s = j;
  co_lock : lock (ic_lock s) = 0;
  co_cache : icache (inodes s) (count C);
  co_pos : forall k n, C !! k = Some n -> 0 < n;
  co_linked : linked (inodes s);
  co_ptr : forall k, is_Some (C !! k) -> 0 <= ptr !!! k < NINODE /\ 0 < i_ref (inodes s !!! (ptr !!! k)) /\
    ikey (inodes s !!! (ptr !!! k)) = k
}.

Lemma icache_ext I C C' : (forall k, C k = C' k) -> icache I C -> icache I C'.
Proof. intros E [? Hr Hi ?]. split; try done; intros; [rewrite <- E; auto|apply Hi; by rewrite E]. Qed.

Lemma count_insert C k n k' : count (<[k := n]> C) k' = cset (count C) k n k'.
Proof. unfold count, cset. case_decide; subst; [by rewrite lookup_insert_eq|by rewrite lookup_insert_ne]. Qed.
Lemma count_delete C k k' : count (delete k C) k' = cset (count C) k 0 k'.
Proof. unfold count, cset. case_decide; subst; [by rewrite lookup_delete_eq|by rewrite lookup_delete_ne]. Qed.

(** Fewer inodes in use than entries: there is a free entry. *)
Lemma free_exists I C : icache I (count C) -> Z.of_nat (size C) < NINODE -> exists ip, free_slot I ip.
Proof.
  intros Hc Hs. destruct (decide (Forall (fun ip => i_ref (I !!! ip) <> 0) (seqZ 0 NINODE))) as [Hall|Hn].
  - exfalso. rewrite Forall_forall in Hall. assert (Hp : forall ip, 0 <= ip < NINODE -> 0 < i_ref (I !!! ip)).
    { intros ip Hip. pose proof (ic_pos _ _ Hc ip Hip). assert (i_ref (I !!! ip) <> 0) by (apply Hall, elem_of_seqZ; lia). lia. }
    assert (Hsub : list_to_set ((fun ip => ikey (I !!! ip)) <$> seqZ 0 NINODE) ⊆ dom C).
    { intros k. rewrite elem_of_list_to_set, list_elem_of_fmap. intros (ip & -> & Hip%elem_of_seqZ).
      apply elem_of_dom. pose proof (ic_ref _ _ Hc ip ltac:(lia) (Hp ip ltac:(lia))) as E. unfold count in E.
      pose proof (Hp ip ltac:(lia)). destruct (C !! _); [done|simpl in E; lia]. }
    apply subseteq_size in Hsub. rewrite size_dom, size_list_to_set, length_fmap, length_seqZ in Hsub; [unfold NINODE in *; lia|].
    apply NoDup_fmap_2_strong; [|apply NoDup_seqZ]. intros a b Ha%elem_of_seqZ Hb%elem_of_seqZ E.
    apply (ic_inj _ _ Hc); [lia|lia|apply Hp; lia|apply Hp; lia|done].
  - apply not_Forall_Exists, Exists_exists in Hn as (ip & Hip%elem_of_seqZ & E); [|apply _]. exists ip. split; [lia|].
    destruct (decide (i_ref (I !!! ip) = 0)); [done|]. by destruct E.
Qed.

(** An entry whose count changes, or which a new inode gets. *)
Lemma counted_set j s C ptr ip i lk : counted j s C ptr -> lock lk = 0 -> 0 <= ip < NINODE -> 0 < i_ref i ->
  icache (<[ip := i]> (inodes s)) (count (<[ikey i := i_ref i]> C)) ->
  (Z.land (i_flags i) I_VALID <> 0 -> i_nlink i <> 0) ->
  (forall k, is_Some (C !! k) -> k <> ikey i -> ptr !!! k <> ip) ->
  counted j (Ifs (jf s) lk (<[ip := i]> (inodes s))) (<[ikey i := i_ref i]> C) (<[ikey i := ip]> ptr).
Proof.
  intros [Hj Hl Hc Hpos Hln Hp] Hlk Hip Hr Hic Hlnk Hne. split; cbn [jf ic_lock inodes]; try done.
  - intros k n. destruct (decide (k = ikey i)) as [->|]; [rewrite lookup_insert_eq; by intros [= <-]|].
    rewrite lookup_insert_ne by done. apply Hpos.
  - intros a Ha. destruct (decide (a = ip)) as [->|]; [by rewrite lookup_total_insert_eq|].
    rewrite lookup_total_insert_ne by done. by apply Hln.
  - intros k. destruct (decide (k = ikey i)) as [->|Hk].
    + rewrite lookup_total_insert_eq, lookup_total_insert_eq. done.
    + rewrite lookup_insert_ne, (lookup_total_insert_ne ptr) by done. intros Hs.
      rewrite lookup_total_insert_ne; [by apply Hp|]. by apply not_eq_sym, Hne.
Qed.

Lemma count_some j s C ptr k n : counted j s C ptr -> C !! k = Some n -> i_ref (inodes s !!! (ptr !!! k)) = n.
Proof.
  intros Hco E. destruct (co_ptr _ _ _ _ Hco k ltac:(by eexists)) as (Hr & Hp & Ek).
  rewrite <- (ic_ref _ _ (co_cache _ _ _ _ Hco) _ Hr Hp), Ek. unfold count. by rewrite E.
Qed.

(** One more or one less reference to an inode that has others. *)
Lemma counted_ref j s C ptr k n n' lk : counted j s C ptr -> lock lk = 0 -> C !! k = Some n -> 0 < n' < 2147483647 ->
  let ip := ptr !!! k in
  counted j (Ifs (jf s) lk (<[ip := with_ref n' (inodes s !!! ip)]> (inodes s))) (<[k := n']> C) ptr.
Proof.
  intros Hco Hlk E Hn ip. destruct (co_ptr _ _ _ _ Hco k ltac:(by eexists)) as (Hr & Hp & Ek). fold ip in Hr, Hp, Ek.
  pose proof (counted_set j s C ptr ip (with_ref n' (inodes s !!! ip)) lk Hco Hlk Hr ltac:(simpl; lia)) as HS.
  change (ikey (with_ref n' (inodes s !!! ip))) with (ikey (inodes s !!! ip)) in HS. rewrite Ek in HS. cbn [i_ref with_ref] in HS.
  assert (Hid : forall s1 C1, counted j s1 C1 (<[k := ip]> ptr) -> counted j s1 C1 ptr).
  { intros s1 C1 [? ? ? ? ? Hq]. split; try done. intros k' Hs'. specialize (Hq k' Hs').
    destruct (decide (k' = k)) as [->|]; [by rewrite lookup_total_insert_eq in Hq|by rewrite lookup_total_insert_ne in Hq]. }
  apply Hid, HS.
  - eapply icache_ext; [|rewrite <- Ek; apply icache_count; [apply Hco|done|done|lia]]. intros k'. by rewrite Ek, count_insert.
  - apply (co_linked _ _ _ _ Hco ip Hr).
  - intros k' Hs' Hne Ee. destruct (co_ptr _ _ _ _ Hco k' Hs') as (_ & _ & Ek'). rewrite Ee in Ek'. congruence.
Qed.

Lemma inode_get_wp j s C ptr k : counted j s C ptr -> count C k < 2147483646 ->
  is_Some (C !! k) \/ Z.of_nat (size C) < NINODE ->
  wp (inode_get ks k.1 k.2) (fun ip s' => counted j s' (<[k := count C k + 1]> C) (<[k := ip]> ptr)) s.
Proof.
  intros Hco Hmax Hroom. pose proof (co_cache _ _ _ _ Hco) as Hic. unfold inode_get. wp_step.
  eapply wp_of_eq; [apply ic_acquire_eq, Hco|]. wp_step. wp_call find_inode_wp. intros r s1 [-> Hr].
  cbn [inodes lset l_ic_lock] in Hr. destruct r as [ip|e].
  - destruct Hr as (Hip & Hpos & Ek). rewrite <- surjective_pairing in Ek.
    pose proof (ic_ref _ _ Hic ip Hip Hpos) as Ec. rewrite Ek in Ec.
    wp_step. eapply wp_of_eq; [by apply ideref_eq|]. cbn [inodes lset l_ic_lock]. wp_step. unfold int_add.
    rewrite <- Ec. wp_step. wp_step. wp_step. wp_step.
    eapply wp_of_eq; [by apply iupd_eq|]. wp_step. wp_step. eapply wp_of_eq; [reflexivity|]. wp_step.
    cbn [jf lset l_ic_lock inodes set_inodes].
    pose proof (counted_set j s C ptr ip (with_ref (count C k + 1) (inodes s !!! ip)) free_lock Hco eq_refl Hip ltac:(simpl; lia)) as HS.
    change (ikey (with_ref (count C k + 1) (inodes s !!! ip))) with (ikey (inodes s !!! ip)) in HS. rewrite Ek in HS. apply HS.
    + eapply icache_ext; [|apply icache_count; [done|done|done|]]; [intros k'; by rewrite Ek, count_insert|]. lia.
    + apply (co_linked _ _ _ _ Hco ip Hip).
    + intros k' Hs' Hne Ee. destruct (co_ptr _ _ _ _ Hco k' Hs') as (_ & _ & Ek'). rewrite Ee in Ek'. congruence.
  - destruct Hr as [Hno He]. rewrite <- surjective_pairing in Hno.
    assert (Hnone : C !! k = None).
    { destruct (C !! k) eqn:E; [|done]. destruct (co_ptr _ _ _ _ Hco k ltac:(by eexists)) as (H1 & H2 & H3). by destruct (Hno _ H1 H2). }
    destruct Hroom as [[? E]|Hroom]; [by rewrite Hnone in E|]. destruct (free_exists _ _ Hic Hroom) as (ip0 & Hip0).
    case_decide as En; [by destruct (He ip0)|]. destruct He as [[Hip Hf] _].
    rewrite (proj2 (Z.eqb_neq e NULL)) by done. wp_step. eapply wp_of_eq; [by apply iupd_eq|]. wp_step. wp_step.
    eapply wp_of_eq; [reflexivity|]. wp_step. cbn [jf lset l_ic_lock inodes set_inodes].
    match goal with |- counted _ (Ifs _ _ (<[_ := ?i]> _)) _ _ => set (i' := i) end.
    assert (Hc0 : count C k = 0) by (unfold count; by rewrite Hnone).
    pose proof (counted_set j s C ptr e i' free_lock Hco eq_refl Hip ltac:(simpl; lia)) as HS.
    assert (Ek : ikey i' = k) by (unfold ikey; simpl; by destruct k). rewrite Ek in HS. rewrite Hc0. apply HS.
    + eapply icache_ext; [|apply icache_take; [done|by split|done|by rewrite Ek]]. intros k'. by rewrite Ek, count_insert.
    + done.
    + intros k' Hs' Hne Ee. destruct (co_ptr _ _ _ _ Hco k' Hs') as (_ & Hp & _). rewrite Ee in Hp. lia.
Qed.

Lemma inode_dup_wp j s C ptr k n : counted j s C ptr -> C !! k = Some n -> n < 2147483646 ->
  wp (inode_dup ks (ptr !!! k)) (fun r s' => r = ptr !!! k /\ counted j s' (<[k := n + 1]> C) ptr) s.
Proof.
  intros Hco E Hmax. destruct (co_ptr _ _ _ _ Hco k ltac:(by eexists)) as (Hr & Hp & _).
  pose proof (count_some _ _ _ _ _ _ Hco E) as En. unfold inode_dup. wp_step.
  eapply wp_of_eq; [apply ic_acquire_eq, Hco|]. wp_step. eapply wp_of_eq; [by apply ideref_eq|].
  cbn [inodes lset l_ic_lock]. wp_step. unfold int_add. rewrite En. wp_step. wp_step. wp_step. wp_step.
  eapply wp_of_eq; [by apply iupd_eq|]. wp_step. wp_step. eapply wp_of_eq; [reflexivity|]. wp_step. split; [done|].
  apply (counted_ref j s C ptr k n (n + 1) free_lock); [done|done|done|lia].
Qed.

(** A reference given back; the last one frees the entry. *)
Definition drop_ref (C : gmap (Z * Z) Z) (k : Z * Z) (n : Z) : gmap (Z * Z) Z :=
  if n =? 1 then delete k C else <[k := n - 1]> C.

Lemma counted_last j s C ptr k lk : counted j s C ptr -> lock lk = 0 -> C !! k = Some 1 ->
  let ip := ptr !!! k in
  counted j (Ifs (jf s) lk (<[ip := with_ref 0 (inodes s !!! ip)]> (inodes s))) (delete k C) ptr.
Proof.
  intros Hco Hlk E ip. destruct (co_ptr _ _ _ _ Hco k ltac:(by eexists)) as (Hr & Hp & Ek). fold ip in Hr, Hp, Ek.
  pose proof Hco as [Hj Hl Hc Hpos Hln Hq]. split; cbn [jf ic_lock inodes]; try done.
  - eapply icache_ext; [|apply (icache_count _ _ ip 0 Hc Hr Hp)]; [intros k'; by rewrite Ek, count_delete|lia].
  - intros k' n' [_ E']%lookup_delete_Some. by eapply Hpos.
  - intros a Ha. destruct (decide (a = ip)) as [->|]; [rewrite lookup_total_insert_eq; by apply Hln|].
    rewrite lookup_total_insert_ne by done. by apply Hln.
  - intros k' [n' [Hne E']%lookup_delete_Some]. destruct (Hq k' ltac:(by eexists)) as (H1 & H2 & H3).
    rewrite lookup_total_insert_ne; [done|]. intros Ee. rewrite <- Ee in H3. congruence.
Qed.

Lemma inode_put_wp j s C ptr k n : counted j s C ptr -> C !! k = Some n ->
  wp (inode_put ks (ptr !!! k)) (fun _ s' => counted j s' (drop_ref C k n) ptr) s.
Proof.
  intros Hco E. destruct (co_ptr _ _ _ _ Hco k ltac:(by eexists)) as (Hr & Hp & _).
  pose proof (count_some _ _ _ _ _ _ Hco E) as En. pose proof (co_pos _ _ _ _ Hco k n E) as Hn0.
  pose proof (ic_pos _ _ (co_cache _ _ _ _ Hco) _ Hr) as Hmax. rewrite En in Hmax.
  pose proof (co_linked _ _ _ _ Hco _ Hr) as Hln. unfold inode_put. wp_step.
  eapply wp_of_eq; [apply ic_acquire_eq, Hco|]. wp_step. eapply wp_of_eq; [by apply ideref_eq|]. cbn [inodes lset l_ic_lock].
  assert (Hno : (i_ref (inodes s !!! (ptr !!! k)) =? 1) && negb (Z.land (i_flags (inodes s !!! (ptr !!! k))) I_VALID =? 0) &&
    (i_nlink (inodes s !!! (ptr !!! k)) =? 0) = false).
  { destruct (Z.eqb_spec (Z.land (i_flags (inodes s !!! (ptr !!! k))) I_VALID) 0) as [|Hv]; [by rewrite andb_false_r|].
    rewrite (proj2 (Z.eqb_neq _ _) (Hln Hv)). apply andb_false_r. }
  rewrite Hno. wp_step. wp_step. wp_step. eapply wp_of_eq; [by apply ideref_eq|]. cbn [inodes]. wp_step. unfold int_add. rewrite En.
  wp_step. wp_step. wp_step. wp_step. eapply wp_of_eq; [by apply iupd_eq|]. wp_step. eapply wp_of_eq; [reflexivity|].
  unfold drop_ref. destruct (Z.eqb_spec n 1) as [->|Hne].
  - by apply (counted_last j s C ptr k free_lock).
  - apply (counted_ref j s C ptr k n (n + -1) free_lock); [done|done|done|lia].
Qed.

(** Clients of the cache: they get, duplicate and put references. *)
Inductive iop : Type := IGet (k : Z * Z) | IDup (k : Z * Z) | IPut (k : Z * Z).
Fixpoint run_iops (ops : list iop) (ptr : gmap (Z * Z) Z) : K ifs (gmap (Z * Z) Z) :=
  match ops with
  | [] => mret ptr
  | IGet k :: ops => ip ← inode_get ks k.1 k.2; run_iops ops (<[k := ip]> ptr)
  | IDup k :: ops => _ ← inode_dup ks (ptr !!! k); run_iops ops ptr
  | IPut k :: ops => inode_put ks (ptr !!! k) ;; run_iops ops ptr
  end.
(** The counts after the operations; [None] when a client uses a reference
    nobody holds, or the cache is too small. *)
Definition spec_iop (C : gmap (Z * Z) Z) (op : iop) : option (gmap (Z * Z) Z) :=
  match op with
  | IGet k =>
      if decide (is_Some (C !! k) \/ Z.of_nat (size C) < NINODE) then
        if count C k <? 2147483646 then Some (<[k := count C k + 1]> C) else None
      else None
  | IDup k => n ← C !! k; if n <? 2147483646 then Some (<[k := n + 1]> C) else None
  | IPut k => n ← C !! k; Some (drop_ref C k n)
  end.
Fixpoint spec_iops (C : gmap (Z * Z) Z) (ops : list iop) : option (gmap (Z * Z) Z) :=
  match ops with [] => Some C | op :: ops => C' ← spec_iop C op; spec_iops C' ops end.

Lemma run_iops_wp ops : forall j s C ptr C', counted j s C ptr -> spec_iops C ops = Some C' ->
  wp (run_iops ops ptr) (fun ptr' s' => counted j s' C' ptr') s.
Proof.
  induction ops as [|op ops IH]; intros j s C ptr C' Hco Hsp; simpl in *; [injection Hsp as <-; by wp_step|].
  apply bind_Some in Hsp as (C1 & H1 & H2). destruct op as [k|k|k]; simpl in H1; wp_step.
  - case_decide as Hr; [|done]. destruct (Z.ltb_spec (count C k) 2147483646); [|done]. injection H1 as <-.
    wp_call inode_get_wp; [done|done|done|]. intros ip s' Hco'. by eapply IH.
  - apply bind_Some in H1 as (n & E & H1). destruct (Z.ltb_spec n 2147483646); [|done]. injection H1 as <-.
    wp_call inode_dup_wp; [done|done|done|]. intros r s' [_ Hco']. by eapply IH.
  - apply bind_Some in H1 as (n & E & [= <-]). wp_call inode_put_wp; [done|done|]. intros [] s' Hco'. by eapply IH.
Qed.
End counts.

(** C22: the inode cache is a map of reference counts.  For any sequence of
    inode_get, inode_dup and inode_put the cache has exactly one entry per
    inode with references, which carries the inode's number and that many
    references, every pointer handed out points to the entry of its inode, and
    the other entries are free; the lock is free again and neither the log nor
    the disk is touched. *)
Theorem inode_cache_counts `{fs_layout} c ks (Hon : on_cpu c ks) j s C ptr ops C' :
  counted j s C ptr -> spec_iops C ops = Some C' ->
  wp (run_iops ks ops ptr) (fun ptr' s' => counted j s' C' ptr' /\ jf s' = jf s /\ lock (ic_lock s') = 0 /\
       (forall k n, C' !! k = Some n -> 0 <= ptr' !!! k < NINODE /\ i_ref (inodes s' !!! (ptr' !!! k)) = n /\
          (i_dev (inodes s' !!! (ptr' !!! k)), i_inum (inodes s' !!! (ptr' !!! k))) = k /\
          forall ip, 0 <= ip < NINODE -> 0 < i_ref (inodes s' !!! ip) -> ikey (inodes s' !!! ip) = k -> ip = ptr' !!! k) /\
       (forall ip, 0 <= ip < NINODE -> C' !! ikey (inodes s' !!! ip) = None -> i_ref (inodes s' !!! ip) = 0)) s.
Proof.
  intros Hco Hsp. eapply wp_mono; [by eapply run_iops_wp|]. cbv beta. intros ptr' s' Hco'.
  split; [done|]. split; [by rewrite (co_jf _ _ _ _ Hco), (co_jf _ _ _ _ Hco')|]. split; [apply Hco'|]. split.
  - intros k n E. destruct (co_ptr _ _ _ _ Hco' k ltac:(by eexists)) as (Hr & Hp & Hk).
    split; [done|]. split; [by eapply count_some|]. split; [exact Hk|]. intros ip Hip Hpos Ek.
    apply (ic_inj _ _ (co_cache _ _ _ _ Hco')); [done..|congruence].
  - intros ip Hip E. pose proof (ic_pos _ _ (co_cache _ _ _ _ Hco') ip Hip) as Hp.
    destruct (decide (0 < i_ref (inodes s' !!! ip))) as [Hpos|]; [|lia].
    pose proof (ic_ref _ _ (co_cache _ _ _ _ Hco') ip Hip Hpos) as Hr. unfold count in Hr. rewrite E in Hr. simpl in Hr. lia.
Qed.

Lemma inode_cache_counts_witness : wp (run_iops Pmm.demo_ks [IGet (1, 2); IGet (1, 3); IDup (1, 2); IPut (1, 3); IGet (1, 2)] ∅)
  (fun ptr s' => i_ref (inodes s' !!! (ptr !!! (1, 2))) = 3) (Ifs (Jfs demo_bio log0) free_lock ∅).
Proof.
  eapply wp_mono; [apply (inode_cache_counts 0 Pmm.demo_ks demo_on_cpu (Jfs demo_bio log0) (Ifs (Jfs demo_bio log0) free_lock ∅) ∅ ∅
    [IGet (1, 2); IGet (1, 3); IDup (1, 2); IPut (1, 3); IGet (1, 2)] {[(1, 2) := 3]})|].
  - assert (E : forall ip : Z, (∅ : gmap Z inode) !!! ip = inhabitant) by (intros; apply lookup_total_empty).
    split; simpl; [done|done| |done| |].
    + split; intros ip; rewrite ?E; simpl; try lia; done.
    + intros ip _ Hv. rewrite E in Hv. done.
    + intros k [n En]. done.
  - vm_compute. reflexivity.
  - cbv beta. intros ptr' s' (_ & _ & _ & Hk & _). by apply Hk.
Defined.
