(* ===== verification/FileSpec.v ===== *)
(** * Reading and writing files

    file_read gives the bytes of the file the inode maps, file_write replaces
    them; a crash during file_write leaves a whole number of the transactions
    it splits the data into. *)

From stdpp Require Import base gmap list numbers.
From S2P Require Import Prelude Lock Mem Vmm Str Thread Queue Sched Ide IdeSpec Bufcache BlockIO Log LogSpec Block Inode File Frame InodeSpec.
Import Spinlock Types.

(** A cached inode of a regular file that nobody has locked. *)
Record open_inode (I : gmap Z inode) (ip : Z) (i : inode) : Prop := {
  oi_ip : 0 <= ip < NINODE;
  oi_at : I !! ip = Some i;
  oi_dev : i_dev i = ROOTDEV;
  oi_ref : 1 <= i_ref i;
  oi_flags : i_flags i = I_VALID;
  oi_type : i_type i <> T_DEV;
  oi_size : is_u32 (i_size i)
}.
Definition locked (i : inode) : inode := with_iflags (Z.lor I_VALID I_BUSY) i.

Lemma lock_eq c ks lk : on_cpu c ks -> lock lk = 0 -> spinlock_acquire ks lk = Ok tt (held_lock ks).
Proof. intros [Hk _] E. destruct lk as [h l]. simpl in E. subst l. by apply acquire_free. Qed.
Lemma unlock_eq lk : spinlock_release lk = Ok tt free_lock.
Proof. done. Qed.

Lemma wp_ith {A} (m : K thr A) Q s :
  wp (zoom l_jth m) (fun a j => Q a (lset l_jf j s)) (jf s) -> wp (zoom l_ith m) Q s.
Proof. unfold wp, zoom. simpl. by destruct (m (th (bi (jf s)))). Qed.

Lemma inode_lock_wp `{fs_layout} c ks j lk I ip i Q : on_cpu c ks -> lock lk = 0 -> open_inode I ip i ->
  Q tt (Ifs j free_lock (<[ip := locked i]> I)) -> wp (inode_lock ks ip) Q (Ifs j lk I).
Proof.
  intros Hon Hlk [Hip Hat Hdev Href Hfl _ _] HQ. assert (Ei : I !!! ip = i) by (by apply lookup_total_correct).
  unfold inode_lock, NULL. rewrite (proj2 (Z.eqb_neq ip (-1))) by lia. do 2 wp_step.
  eapply wp_of_eq; [by apply ideref_eq|]. cbn [inodes]. rewrite Ei. zbool. wp_step. wp_step. wp_step.
  eapply wp_of_eq; [by apply (lock_eq c)|]. wp_step. eapply wp_of_eq; [by apply ideref_eq|]. cbn [inodes lset l_ic_lock]. rewrite Ei, Hfl.
  simpl (negb _). cbv iota. do 2 wp_step. wp_step. eapply wp_of_eq; [by apply iupd_eq|]. cbn [inodes]. rewrite Ei, Hfl.
  wp_step. wp_step. eapply wp_of_eq; [by apply unlock_eq|]. wp_step. eapply wp_of_eq; [by apply ideref_eq|].
  cbn [inodes lset l_ic_lock set_inodes]. rewrite lookup_total_insert_eq. exact HQ.
Qed.

Lemma inode_unlock_wp `{fs_layout} c st ks (P : jfs -> Prop) R L `{!reader st ks P R L} j lk I ip i Q : on_cpu c ks -> lock lk = 0 ->
  open_inode I ip i -> P j -> (forall j', P j' -> jvm j' = jvm j -> Q tt (Ifs j' free_lock I)) ->
  wp (inode_unlock ks ip) Q (Ifs j lk (<[ip := locked i]> I)).
Proof.
  intros Hon Hlk [Hip Hat Hdev Href Hfl _ _] HP HQ.
  unfold inode_unlock, NULL. rewrite (proj2 (Z.eqb_neq ip (-1))) by lia. do 2 wp_step.
  eapply wp_of_eq; [by apply ideref_eq|]. cbn [inodes]. rewrite lookup_total_insert_eq. cbn [i_flags i_ref locked with_iflags].
  simpl (_ =? 0). rewrite orb_false_l. zbool. wp_step. wp_step. wp_step.
  eapply wp_of_eq; [by apply (lock_eq c)|]. wp_step. eapply wp_of_eq; [by apply iupd_eq|]. cbn [inodes lset l_ic_lock].
  rewrite lookup_total_insert_eq, insert_insert_eq. cbn [i_flags locked with_iflags].
  rewrite (insert_id I ip).
  2:{ rewrite Hat. f_equal. unfold I_VALID in Hfl. destruct i. simpl in *. by subst. }
  wp_step. 
  apply wp_ith. eapply wp_mono; [apply (wp_keeps jvm); [|by apply (rd_wake (L := L))]|].
  { apply (keeps_zoom _ _ vmst); [by intros ? []|by intros []|apply _]. }
  intros [] j' [HP' E]. wp_step. eapply wp_of_eq; [by apply unlock_eq|]. by apply HQ.
Qed.

Lemma fderef_eq f s : 0 <= f < NFILE -> fderef f s = Ok (files s !!! f) s.
Proof. intros Hf. unfold fderef, in_array. krun. by zbool. Qed.
Lemma fupdate_eq f g s : 0 <= f < NFILE -> fupdate f g s = Ok tt (set_files (<[f := g (files s !!! f)]> (files s)) s).
Proof. intros Hf. unfold fupdate, in_array. krun. by zbool. Qed.

Section files.
Context (st sz : Z) (Hgeo : geometry st sz) `{fs_layout} (c : Z) (ks : kstack) (Hon : on_cpu c ks).

#[local] Instance rest_reader_here S : reader st ks (at_rest st sz c S) (at_rest_but st sz c S) S.1 :=
  rest_reader st sz Hgeo c ks Hon S.
#[local] Instance trans_reader_here D0 w0 U :
  reader st ks (fun j => trans st sz c D0 w0 j U []) (holding st sz c D0 w0 U) (logical D0 U) :=
  trans_reader st sz Hgeo c ks Hon D0 w0 U.

(** File [f] is open on inode [ip]. *)
Record opened_file (F : gmap Z file) (f : Z) (x : file) : Prop := {
  of_f : 0 <= f < NFILE;
  of_at : F !! f = Some x;
  of_type : f_type x = FD_INODE;
  of_off : is_u32 (f_off x)
}.

Lemma open_inode_locked I ip i : open_inode I ip i -> (<[ip := locked i]> I) !!! ip = locked i.
Proof. intros. apply lookup_total_insert_eq. Qed.

Lemma file_read_wp j lk I flk F f x ip i addr n S : at_rest st sz c S j -> lock lk = 0 -> opened_file F f x -> f_ip x = ip ->
  open_inode I ip i -> f_readable x <> 0 -> blocks_ok st S.1 ->
  f_off x <= i_size i -> 0 <= n < 2147483648 -> f_off x + n < W32 -> 0 <= addr ->
  let n' := if i_size i <? f_off x + n then i_size i - f_off x else n in
  addr + n' < W32 -> (forall bn, f_off x / BSIZE <= bn -> bn * BSIZE < f_off x + n' -> mapped st S.1 (i_addrs i) bn) ->
  wp (file_read ks f addr n)
     (fun r s' => r = n' /\ exists j' M, s' = Ffs (Ifs j' free_lock I) flk (<[f := with_off (f_off x + n') x]> F) /\
        at_rest st sz c S j' /\ jvm j' = set_phys M (jvm j) /\
        loaded (phys (jvm j)) M addr n' (fun y => file_byte S.1 (i_addrs i) (f_off x + y))) (Ffs (Ifs j lk I) flk F).
Proof.
  intros HP Hlk [Hf Hat0 Hty Hoff] Eip Hi Hrd HS Ho Hn Hon' Ha n' Han Hmap.
  assert (Hat : F !!! f = x) by (by apply lookup_total_correct). unfold file_read. wp_step.
  eapply wp_of_eq; [by apply fderef_eq|]. cbn [files]. rewrite Hat, Eip, (u32_small n) by (unfold W32; lia).
  rewrite (proj2 (Z.eqb_neq _ _) Hrd), decide_True by done. unfold is_u32 in Hoff.
  assert (Hn' : 0 <= n' <= n) by (unfold n'; destruct (Z.ltb_spec (i_size i) (f_off x + n)); lia).
  assert (Hn2 : f_off x + n' < W32) by lia.
  wp_step. wp_step. simpl lget. eapply (inode_lock_wp c); [done|done|exact Hi|]. simpl lset. wp_step. wp_step. simpl lget.
  pose proof Hi as [Hip Hia Hdev Href Hfl Hit Hsz].
  eapply wp_mono; [apply (inode_read_wp st ks (at_rest st sz c S) (at_rest_but st sz c S) S.1 free_lock (<[ip := locked i]> I) ip Hip)|];
    rewrite ?lookup_total_insert_eq; cbn [i_dev i_type i_size i_addrs locked with_iflags]; try done; try lia.
  cbv zeta. intros r s' (-> & j1 & M & -> & HP1 & E1 & HM). cbn [lset l_ino]. fold n' in HM |- *.
  wp_step. assert (Hupd : forall Q, Q tt (Ffs (Ifs j1 free_lock (<[ip := locked i]> I)) flk (<[f := with_off (f_off x + n') x]> F)) ->
    wp (if 0 <? n' then fupdate f (fun x => with_off (u32 (f_off x + n')) x) else mret tt) Q
       (Ffs (Ifs j1 free_lock (<[ip := locked i]> I)) flk F)).
  { intros Q HQ. destruct (Z.ltb_spec 0 n') as [Hpos|Hz].
    - eapply wp_of_eq; [by apply fupdate_eq|]. cbn [files set_files ino ft_lock]. by rewrite Hat, u32_small by lia.
    - wp_step. assert (En : n' = 0) by lia. rewrite En, Z.add_0_r, (insert_id F f) in HQ; [done|]. rewrite Hat0. by destruct x. }
  apply Hupd. wp_step. wp_step. simpl lget.
  eapply (inode_unlock_wp c st ks (at_rest st sz c S) (at_rest_but st sz c S) S.1); [done|done|exact Hi|exact HP1|]. intros j2 HP2 E2. simpl lset. wp_step.
  split; [done|]. exists j2, M. split; [done|]. split; [done|]. rewrite E2. done.
Qed.

(** ** The contents on disks that agree outside the log *)
Lemma blk_agree D X A nbl bn : agree st sz D X -> file_ok st X A nbl -> 0 <= bn < nbl -> blk D A bn = blk X A bn.
Proof.
  intros Ha Hf Hb. unfold blk. destruct (Z.ltb_spec bn NDIRECT); [done|].
  rewrite Ha; [done|]. apply home_outside. by apply (mp_ind _ _ _ _ (fo_mapped _ _ _ _ Hf bn Hb)).
Qed.

Lemma file_ok_agree D X A nbl : agree st sz D X -> file_ok st X A nbl -> file_ok st D A nbl.
Proof.
  intros Ha Hf. split.
  - intros bn Hb. destruct (fo_mapped _ _ _ _ Hf bn Hb) as [? ? ?]. split; [done| |done].
    by rewrite (blk_agree D X A nbl).
  - intros b b' Hb Hb'. rewrite !(blk_agree D X A nbl) by done. by apply (fo_inj _ _ _ _ Hf).
  - intros b Hb Hn. rewrite (blk_agree D X A nbl) by done. by apply (fo_ind _ _ _ _ Hf).
Qed.

Lemma overwritten_agree D X D1 A nbl off n f : overwritten st sz D X A nbl off n f -> agree st sz D1 X ->
  overwritten st sz D D1 A nbl off n f.
Proof.
  intros [Hf Hb Hx Hm Hr] Ha. split.
  - by eapply file_ok_agree.
  - intros bn Hbn. rewrite (blk_agree D1 X A nbl) by done. by apply Hb.
  - intros x Hxr. rewrite <- (Hx x Hxr). unfold file_byte. assert (0 <= x / BSIZE < nbl) by (unfold BSIZE in *; zdiv).
    rewrite (blk_agree D1 X A nbl) by done. rewrite Ha; [done|]. apply home_outside, (fo_mapped _ _ _ _ Hf); done.
  - intros x Hx'. rewrite Ha by (by apply home_outside). by apply Hm.
  - intros k Hk Hnk. rewrite Ha by done. by apply Hr.
Qed.

Lemma overwritten_trans D D1 D2 A nbl off a b f : 0 <= a -> 0 <= b -> overwritten st sz D D1 A nbl off a f ->
  overwritten st sz D1 D2 A nbl (off + a) b (fun y => f (a + y)) -> overwritten st sz D D2 A nbl off (a + b) f.
Proof.
  intros Ha0 Hb0 [Hf Hb Hx Hm Hr] [Hf2 Hb2 Hx2 Hm2 Hr2]. split; [done| | |done|].
  - intros bn Hbn. rewrite Hb2 by done. by apply Hb.
  - intros x Hxr. rewrite (Hx2 x Hxr), (Hx x Hxr). repeat case_decide; try lia; try done. f_equal. lia.
  - intros k Hk Hnk. rewrite Hr2, Hr; [done|done|done|done|]. intros bn Hbn. rewrite Hb by done. by apply Hnk.
Qed.

Lemma overwritten_ext D D1 A nbl off n f f' : (forall y, 0 <= y < n -> f y = f' y) -> overwritten st sz D D1 A nbl off n f ->
  overwritten st sz D D1 A nbl off n f'.
Proof. intros E [? ? Hx ? ?]. split; try done. intros x Hxr. rewrite (Hx x Hxr). case_decide; [apply E; lia|done]. Qed.

(** ** One transaction of file_write *)
Lemma wp_fjf {A} (m : K jfs A) Q j lk I flk F :
  wp m (fun a j' => Q a (Ffs (Ifs j' lk I) flk F)) j -> wp (zoom l_fjf m) Q (Ffs (Ifs j lk I) flk F).
Proof. unfold wp, zoom. simpl. by destruct (m j). Qed.
Lemma wp_ino {A} (m : K ifs A) Q s flk F :
  wp m (fun a s' => Q a (Ffs s' flk F)) s -> wp (zoom l_ino m) Q (Ffs s flk F).
Proof. unfold wp, zoom. simpl. by destruct (m s). Qed.

Lemma write_max_touched off n : 0 <= off -> 0 <= n <= WRITE_MAX -> touched off n <= 4.
Proof. intros Ho Hn. unfold touched. change WRITE_MAX with 1536 in Hn. unfold BSIZE. case_match; zdiv. Qed.

Context (I : gmap Z inode) (ip : Z) (i : inode) (Hi : open_inode I ip i) (nbl : Z) (flk : spinlock_t).
Let A := i_addrs i.

Lemma write_chunk_wp {B} j lk F f x src n (k : Z -> K ffs B) Q : idle_log st sz c j -> lock lk = 0 -> opened_file F f x -> f_ip x = ip ->
  4 < sz -> 0 < n <= WRITE_MAX -> f_off x + n <= i_size i -> f_off x + n <= nbl * BSIZE -> 0 <= src -> src + n < W32 ->
  let D := sectors (dsk (bi j)) in
  file_ok st D A nbl -> blocks_ok st D -> mem_ok (phys (jvm j)) ->
  (forall j' X W, idle_log st sz c j' -> jvm j' = jvm j -> store_of (dsk (bi j')) = do_writes W (store_of (dsk (bi j))) ->
     atomic st sz D X W -> overwritten st sz D X A nbl (f_off x) n (fun y => load8 (phys (jvm j)) (src + y)) ->
     wp (k n) Q (Ffs (Ifs j' free_lock I) flk (<[f := with_off (f_off x + n) x]> F))) ->
  wp (zoom l_fjf (begin_trans ks) ;;
      x ← fderef f;
      zoom l_ino (inode_lock ks (f_ip x)) ;;
      r ← zoom l_ino (inode_write ks (f_ip x) src (f_off x) n);
      (if 0 <? r then fupdate f (fun x => with_off (u32 (f_off x + r)) x) else mret tt) ;;
      zoom l_ino (inode_unlock ks (f_ip x)) ;;
      zoom l_fjf (commit_trans ks) ;; k r) Q (Ffs (Ifs j lk I) flk F).
Proof.
  intros Hid Hlk [Hf Hat0 Hty Hoff] Eip Hsz Hn Hend Hnb Hs0 Hs1 D HfD HD HM Hk. unfold is_u32 in Hoff.
  assert (Hat : F !!! f = x) by (by apply lookup_total_correct). pose proof Hi as [Hip Hia Hdev Href Hfl Hit Hszi].
  pose proof (write_max_touched (f_off x) n ltac:(lia) ltac:(lia)) as Ht4. change WRITE_MAX with 1536 in Hn.
  wp_step. apply wp_fjf. eapply wp_mono; [apply (wp_keeps jvm); [apply _|by apply (tr_begin st sz Hgeo c ks Hon)]|].
  intros [] j1 [Ht1 E1]. fold D in Ht1. wp_step. eapply wp_of_eq; [by apply fderef_eq|]. cbn [files]. rewrite Hat, Eip.
  wp_step. apply wp_ino. eapply (inode_lock_wp c); [done|done|exact Hi|]. wp_step. apply wp_ino.
  eapply wp_mono; [apply (inode_write_wp st sz Hgeo c ks Hon D (written (dsk (bi j))) free_lock (<[ip := locked i]> I) ip Hip) with (nbl := nbl) (U := ∅)|];
    rewrite ?lookup_total_insert_eq, ?logical_nil, ?E1; cbn [i_dev i_type i_size i_addrs locked with_iflags]; try done; try lia.
  { rewrite map_size_empty. unfold NBUF. lia. }
  { rewrite map_size_empty. lia. }
  intros r s' (-> & j2 & U & -> & Ht2 & E2 & Hov & _). wp_step. rewrite (proj2 (Z.ltb_lt 0 n)) by lia.
  eapply wp_of_eq; [by apply fupdate_eq|]. cbn [files set_files ino ft_lock]. rewrite Hat, u32_small by (unfold is_u32 in Hszi; lia).
  wp_step. apply wp_ino. set (w0 := written (dsk (bi j))) in *.
  eapply (inode_unlock_wp c st ks (fun j => trans st sz c D w0 j U []) (holding st sz c D w0 U) (logical D U));
    [done|done|exact Hi|exact Ht2|]. intros j3 Ht3 E3. wp_step. apply wp_fjf.
  eapply wp_mono; [apply (wp_keeps jvm); [apply _|apply (tr_commit st sz Hgeo c ks Hon D w0 j3 U Ht3)]|]; [apply Hid..|].
  intros [] j4 [(Hid4 & W & HW & Hat4) E4]. eapply Hk; [exact Hid4| |exact HW|exact Hat4|exact Hov].
  etrans; [exact E4|]. etrans; [exact E3|]. exact E2.
Qed.

(** ** The whole write *)

(** Every crash during the writes [W] leaves a whole number of chunks of the
    data, or all [n] bytes. *)
Definition chunked (D : blocks) (W : writes) (off n : Z) (g : Z -> Z) : Prop :=
  forall m, exists t X, 0 <= t <= n /\ (t = n \/ t mod WRITE_MAX = 0) /\
    overwritten st sz D X A nbl off t g /\ recovers st sz (apply_writes D (take m W)) X.

Lemma chunked_more D W W2 off a b g X : 0 <= a -> 0 < b -> a mod WRITE_MAX = 0 -> 
  chunked D W off a g -> overwritten st sz D (apply_writes D W) A nbl off a g ->
  atomic st sz (apply_writes D W) X W2 -> overwritten st sz D X A nbl off (a + b) g ->
  chunked D (W ++ W2) off (a + b) g.
Proof.
  intros Ha Hb Hal Hc Hov [_ Hat] HX m. destruct (Nat.le_gt_cases m (length W)) as [Hm|Hm].
  - rewrite take_app_le by done. destruct (Hc m) as (t & Y & Ht & Htt & HY & Hr). exists t, Y.
    split; [lia|]. split; [|done]. right. destruct Htt as [->|]; done.
  - rewrite take_app_ge, apply_writes_app by lia. destruct (Hat (m - length W)%nat) as [Hr|Hr].
    + exists a, (apply_writes D W). split; [lia|]. split; [by right|]. done.
    + exists (a + b), X. split; [lia|]. split; [by left|]. done.
Qed.

Lemma file_write_wp j lk F f x addr n : idle_log st sz c j -> lock lk = 0 -> opened_file F f x -> f_ip x = ip ->
  f_writable x <> 0 -> 4 < sz -> 0 <= n < 2147483648 -> f_off x + n <= i_size i -> f_off x + n <= nbl * BSIZE ->
  0 <= addr -> addr + n < W32 ->
  let D := sectors (dsk (bi j)) in let g := fun y => load8 (phys (jvm j)) (addr + y) in
  file_ok st D A nbl -> blocks_ok st D -> mem_ok (phys (jvm j)) ->
  wp (file_write ks f addr n)
     (fun r s' => r = n /\ exists j' lk' W, s' = Ffs (Ifs j' lk' I) flk (<[f := with_off (f_off x + n) x]> F) /\ lock lk' = 0 /\
        idle_log st sz c j' /\ jvm j' = jvm j /\ store_of (dsk (bi j')) = do_writes W (store_of (dsk (bi j))) /\
        overwritten st sz D (sectors (dsk (bi j'))) A nbl (f_off x) n g /\ chunked D W (f_off x) n g)
     (Ffs (Ifs j lk I) flk F).
Proof.
  intros Hid Hlk Hof Eip Hwr Hsz Hn Hend Hnb Ha0 Ha1 D g HfD HD HM. pose proof Hof as [Hf Hat0 Hty Hoff]. unfold is_u32 in Hoff.
  assert (Hat : F !!! f = x) by (by apply lookup_total_correct). pose proof Hi as [_ _ _ _ _ _ Hszi]. unfold is_u32 in Hszi.
  unfold file_write. wp_step. eapply wp_of_eq; [by apply fderef_eq|]. cbn [files]. rewrite Hat.
  rewrite (proj2 (Z.eqb_neq _ _) Hwr), decide_True by done. wp_step.
  eapply (wp_while _ (fun a s' => 0 <= a <= n /\ (a = n \/ a mod WRITE_MAX = 0) /\
    exists j' lk' W, s' = Ffs (Ifs j' lk' I) flk (<[f := with_off (f_off x + a) x]> F) /\ lock lk' = 0 /\
        idle_log st sz c j' /\ jvm j' = jvm j /\ store_of (dsk (bi j')) = do_writes W (store_of (dsk (bi j))) /\
        overwritten st sz D (sectors (dsk (bi j'))) A nbl (f_off x) a g /\ chunked D W (f_off x) a g) (fun a _ => n - a)).
  - intros a s' (Har & Hal & j1 & lk1 & W & -> & Hlk1 & Hid1 & E1 & HW & Hov & Hch) _. destruct (Z.ltb_spec a n) as [Hlt|Hge].
    + set (n1 := if WRITE_MAX <? n - a then WRITE_MAX else n - a). change WRITE_MAX with 1536 in *.
      assert (Hn1 : 0 < n1 <= 1536 /\ a + n1 <= n) by (unfold n1; destruct (Z.ltb_spec 1536 (n - a)); lia).
      rewrite (u32_small (addr + a)), (u32_small n1) by (unfold W32 in *; lia).
      assert (HfD1 : file_ok st (sectors (dsk (bi j1))) A nbl) by apply Hov.
      assert (HD1 : blocks_ok st (sectors (dsk (bi j1)))) by apply Hov.
      eapply (write_chunk_wp j1 lk1 _ f (with_off (f_off x + a) x)); try done; try (cbn [f_off with_off]; lia).
      * split; [done|by rewrite lookup_insert_eq|done|]. unfold is_u32. cbn [f_off with_off]. lia.
      * change WRITE_MAX with 1536. lia.
      * by rewrite E1.
      * intros j2 X W2 Hid2 E2 HW2 Hatm HX. cbn [f_off with_off] in *.
        rewrite insert_insert_eq. change (with_off ?o (with_off _ x)) with (with_off o x).
        assert (HD1e : sectors (dsk (bi j1)) = apply_writes D W) by exact (f_equal fst HW).
        assert (HX2 : overwritten st sz D X A nbl (f_off x) (a + n1) g).
        { eapply overwritten_trans; [lia|lia|exact Hov|]. eapply overwritten_ext; [|exact HX].
          intros y Hy. unfold g. rewrite E1. f_equal. lia. }
        zbool. wp_step. split; [|lia]. split; [lia|].
        split; [unfold n1; destruct (Z.ltb_spec 1536 (n - a)); [right; zdiv|left; lia]|].
        exists j2, free_lock, (W ++ W2). rewrite <- Z.add_assoc. split; [done|]. split; [done|]. split; [done|].
        split; [by rewrite E2|]. split; [by rewrite do_writes_app, <- HW|]. split.
        -- eapply overwritten_agree; [exact HX2|]. destruct Hatm as [Hag _].
           by rewrite (f_equal fst HW2 : sectors _ = _).
        -- eapply chunked_more; [lia|lia|change WRITE_MAX with 1536; lia|exact Hch| |rewrite <- HD1e; exact Hatm|exact HX2].
           by rewrite <- HD1e.
    + wp_step. assert (a = n) as -> by lia. rewrite Z.eqb_refl. wp_step. split; [done|]. by exists j1, lk1, W.
  - split; [lia|]. split; [right; done|]. exists j, lk, []. rewrite Z.add_0_r, insert_id by (rewrite Hat0; by destruct x).
    assert (Hov0 : overwritten st sz D D A nbl (f_off x) 0 g) by (by apply overwritten_nil).
    do 4 (split; [done|]). split; [by rewrite do_writes_nil|]. split; [done|]. intros m. exists 0, D.
    split; [lia|]. split; [by left|]. split; [done|]. rewrite take_nil. apply recovers_idle; apply Hid.
  - lia.
Qed.
End files.

(** C21: file_read stores exactly the bytes of the file from its offset on,
    at most [n] and up to the end of the file, at the given address, wherever
    its blocks are on the disk; it returns their number and moves the offset;
    no other memory, nothing on the disk and no inode changes. *)
Theorem file_read_correct `{fs_layout} st sz c ks j lk I flk F f x i addr n :
  geometry st sz -> on_cpu c ks -> idle_log st sz c j -> lock lk = 0 -> opened_file F f x -> open_inode I (f_ip x) i ->
  f_readable x <> 0 -> f_off x <= i_size i -> 0 <= n < 2147483648 -> f_off x + n < W32 ->
  let D := sectors (dsk (bi j)) in
  let n' := Z.min n (i_size i - f_off x) in
  blocks_ok st D -> 0 <= addr -> addr + n' < W32 ->
  (forall bn, f_off x / BSIZE <= bn -> bn * BSIZE < f_off x + n' -> mapped st D (i_addrs i) bn) ->
  wp (file_read ks f addr n)
     (fun r s' => r = n' /\ files s' = <[f := with_off (f_off x + n') x]> F /\ inodes (ino s') = I /\
        idle_log st sz c (jf (ino s')) /\ store_of (dsk (bi (jf (ino s')))) = store_of (dsk (bi j)) /\
        exists M, jvm (jf (ino s')) = set_phys M (jvm j) /\
          forall a, load8 M a = if decide (addr <= a < addr + n') then file_byte D (i_addrs i) (f_off x + (a - addr))
                                else load8 (phys (jvm j)) a) (Ffs (Ifs j lk I) flk F).
Proof.
  intros Hgeo Hon Hid Hlk Hof Hi Hrd Ho Hn Hon' D n' HD Ha Han Hmap.
  assert (En : (if i_size i <? f_off x + n then i_size i - f_off x else n) = n')
    by (unfold n'; destruct (Z.ltb_spec (i_size i) (f_off x + n)); lia).
  eapply wp_mono; [apply (file_read_wp st sz Hgeo c ks Hon j lk I flk F f x (f_ip x) i addr n (store_of (dsk (bi j))));
    try done; rewrite En; done|]. rewrite En.
  intros r s' (-> & j' & M & -> & [Hid' Hst] & E & HM). do 5 (split; [done|]). by exists M.
Qed.

(** C3: file_write replaces exactly the given bytes of the file, across any
    number of blocks and transactions, returns their number and moves the
    offset; every other byte of the file and every block outside it keeps its
    contents.  Whatever disk write a crash happens at, the log recovers to
    the old file with a prefix of the data written, cut at a multiple of the
    1536 bytes of one transaction or complete. *)
Theorem file_write_correct `{fs_layout} st sz c ks j lk I flk F f x i nbl addr n :
  geometry st sz -> on_cpu c ks -> idle_log st sz c j -> lock lk = 0 -> opened_file F f x -> open_inode I (f_ip x) i ->
  f_writable x <> 0 -> 4 < sz -> 0 <= n < 2147483648 -> f_off x + n <= i_size i -> f_off x + n <= nbl * BSIZE ->
  0 <= addr -> addr + n < W32 ->
  let D := sectors (dsk (bi j)) in let g := fun y => load8 (phys (jvm j)) (addr + y) in
  file_ok st D (i_addrs i) nbl -> blocks_ok st D -> mem_ok (phys (jvm j)) ->
  wp (file_write ks f addr n)
     (fun r s' => let j' := jf (ino s') in
        r = n /\ files s' = <[f := with_off (f_off x + n) x]> F /\ inodes (ino s') = I /\ idle_log st sz c j' /\
        overwritten st sz D (sectors (dsk (bi j'))) (i_addrs i) nbl (f_off x) n g /\
        exists W, store_of (dsk (bi j')) = do_writes W (store_of (dsk (bi j))) /\
          forall m jc, booted st sz c jc -> sectors (dsk (bi jc)) = apply_writes D (take m W) ->
            wp (log_init ks)
               (fun _ j2 => idle_log st sz c j2 /\ exists t, 0 <= t <= n /\ (t = n \/ t mod 1536 = 0) /\
                  overwritten st sz D (sectors (dsk (bi j2))) (i_addrs i) nbl (f_off x) t g) jc)
     (Ffs (Ifs j lk I) flk F).
Proof.
  intros Hgeo Hon Hid Hlk Hof Hi Hwr Hsz Hn Hend Hnb Ha0 Ha1 D g HfD HD HM.
  eapply wp_mono; [by apply (file_write_wp st sz Hgeo c ks Hon I (f_ip x) i Hi nbl flk j lk F f x addr n)|].
  intros r s' (-> & j' & lk' & W & -> & _ & Hid' & _ & HW & Hov & Hch). do 5 (split; [done|]). exists W. split; [done|].
  intros m jc Hb Hs. destruct (Hch m) as (t & X & Ht & Htt & HX & Hr). fold D in Hr. rewrite <- Hs in Hr.
  eapply wp_mono; [by apply (log_init_wp st sz Hgeo c ks Hon jc X)|]. intros [] j2 (Hid2 & Hag & _). split; [done|].
  exists t. split; [done|]. split; [done|]. by eapply overwritten_agree.
Qed.

(** ** A concrete instance: a file of 700 bytes in blocks 10 and 12 *)
Definition demo_inode : inode := Inode ROOTDEV 2 1 I_VALID T_FILE 0 0 1 700 (<[0 := 10]> {[1 := 12]}).
Definition demo_file : file := File FD_INODE 1 1 1 7 50.
Definition demo_ffs (j : jfs) : ffs := Ffs (Ifs j free_lock {[7 := demo_inode]}) free_lock {[3 := demo_file]}.

Lemma demo_open_inode : open_inode {[7 := demo_inode]} (f_ip demo_file) demo_inode.
Proof. split; try done; unfold NINODE, is_u32, W32; simpl; lia. Qed.
Lemma demo_open_file : opened_file {[3 := demo_file]} 3 demo_file.
Proof. split; try done; unfold NFILE, is_u32, W32; simpl; lia. Qed.

Lemma demo_file_ok D : file_ok 18 D (i_addrs demo_inode) 2.
Proof.
  assert (Hcase : forall bn, 0 <= bn < 2 -> bn = 0 \/ bn = 1) by lia. split.
  - intros bn Hb. assert (home 18 10 /\ home 18 12) by (unfold home; lia).
    destruct (Hcase bn Hb) as [-> | ->]; split; try done; unfold MAXFILE, NDIRECT, NINDIRECT, BSIZE; simpl; lia.
  - intros b b' Hb Hb'. by destruct (Hcase b Hb) as [-> | ->], (Hcase b' Hb') as [-> | ->].
  - unfold NDIRECT. lia.
Qed.

Lemma demo_blocks_ok D : agree 18 12 D demo_fs_disk -> blocks_ok 18 D.
Proof.
  intros Ha x Hx. rewrite Ha by (by apply home_outside). unfold home in Hx. unfold demo_fs_disk.
  rewrite lookup_total_alt, lookup_singleton_ne by (intros E; injection E; lia). apply mem_ok_empty.
Qed.

Lemma idle_mem st sz c j w : idle_log st sz c j -> idle_log st sz c (with_vm w j).
Proof.
  intros [Hv Hg Hn Hb Hsb Hlo]. split; try done; [|by apply (jgeo_bi _ _ j)].
  apply view_th; [|done]. apply sched_mem. by eapply view_sched.
Qed.

Lemma demo_at_rest : exists j, idle_log 18 12 0 j /\ agree 18 12 (sectors (dsk (bi j))) demo_fs_disk /\ jvm j = VmmSpec.demo_vm.
Proof.
  destruct (proj1 (wp_elim _ _ _) (demo_idle demo_fs_disk eq_refl eq_refl)) as (_ & j & _ & Hid & Ha).
  exists (with_vm VmmSpec.demo_vm j). split; [by apply idle_mem|]. done.
Qed.

Lemma file_read_correct_witness : exists j,
  wp (file_read Pmm.demo_ks 3 8192 1000) (fun r s' => r = 650 /\ f_off (files s' !!! 3) = 700) (demo_ffs j).
Proof.
  destruct demo_at_rest as (j & Hid & Ha & Ev). exists j.
  eapply wp_mono; [apply (file_read_correct 18 12 0 Pmm.demo_ks j free_lock {[7 := demo_inode]} free_lock {[3 := demo_file]} 3 demo_file demo_inode 8192 1000)|].
  - exact demo_geometry.
  - exact demo_on_cpu.
  - exact Hid.
  - reflexivity.
  - exact demo_open_file.
  - exact demo_open_inode.
  - done.
  - simpl. lia.
  - lia.
  - unfold W32. simpl. lia.
  - by apply demo_blocks_ok.
  - lia.
  - unfold W32. simpl. lia.
  - intros bn Hb1 Hb2. apply (fo_mapped _ _ _ _ (demo_file_ok (sectors (dsk (bi j))))).
    change (Z.min 1000 (i_size demo_inode - f_off demo_file)) with 650 in Hb2. unfold BSIZE in *. simpl in *.
    change (50 / 512) with 0 in Hb1. lia.
  - intros r s' (-> & Ef & _). rewrite Ef. done.
Defined.

Lemma file_write_correct_witness : exists j,
  wp (file_write Pmm.demo_ks 3 8192 600) (fun r s' => r = 600 /\ f_off (files s' !!! 3) = 650) (demo_ffs j).
Proof.
  destruct demo_at_rest as (j & Hid & Ha & Ev). exists j.
  eapply wp_mono; [apply (file_write_correct 18 12 0 Pmm.demo_ks j free_lock {[7 := demo_inode]} free_lock {[3 := demo_file]} 3 demo_file demo_inode 2 8192 600)|].
  - exact demo_geometry.
  - exact demo_on_cpu.
  - exact Hid.
  - reflexivity.
  - exact demo_open_file.
  - exact demo_open_inode.
  - done.
  - lia.
  - lia.
  - simpl. lia.
  - unfold BSIZE. simpl. lia.
  - lia.
  - unfold W32. lia.
  - apply demo_file_ok.
  - by apply demo_blocks_ok.
  - rewrite Ev. apply mem_ok_empty.
  - cbv zeta. intros r s' (-> & Ef & _). rewrite Ef. done.
Defined.
