(* ===== verification/Seg.v ===== *)
(** * Segments, kernel stacks and interrupt gates (kern/lib/seg, kern/dev/intr)

    Segment and gate descriptors with their bit fields, the descriptor
    table and task state segment in each kernel stack, the registers of the
    processor that point to them, and the interrupt descriptor table. *)

From stdpp Require Import base gmap list numbers.
From S2P Require Import Prelude Lock Pmmap Pmm Container Mem Vmm.

(** ** Descriptors *)
Record segdesc : Type := Segdesc {
  sd_lim_15_0 : Z; sd_base_15_0 : Z; sd_base_23_16 : Z; sd_type : Z; sd_s : Z; sd_dpl : Z; sd_p : Z;
  sd_lim_19_16 : Z; sd_avl : Z; sd_rsv1 : Z; sd_db : Z; sd_g : Z; sd_base_31_24 : Z
}.
Definition SEGDESC_NULL : segdesc := Segdesc 0 0 0 0 0 0 0 0 0 0 0 0 0.
#[global] Instance segdesc_inhabited : Inhabited segdesc := populate SEGDESC_NULL.

(** Values stored in a bit field lose their upper bits. *)
Definition bits (w x : Z) : Z := x mod 2 ^ w.

Definition SEGDESC32 (type base lim dpl : Z) : segdesc :=
  Segdesc (Z.land (Z.shiftr lim 12) 65535) (Z.land base 65535) (Z.land (Z.shiftr base 16) 255)
          (bits 4 type) 1 (bits 2 dpl) 1 (bits 4 (Z.shiftr lim 28)) 0 0 1 1 (bits 8 (Z.shiftr base 24)).
Definition SEGDESC16 (type base lim dpl : Z) : segdesc :=
  Segdesc (Z.land lim 65535) (Z.land base 65535) (Z.land (Z.shiftr base 16) 255)
          (bits 4 type) 1 (bits 2 dpl) 1 (bits 4 (Z.shiftr lim 16)) 0 0 1 0 (bits 8 (Z.shiftr base 24)).
Definition with_sd_s (x : Z) (d : segdesc) : segdesc :=
  Segdesc (sd_lim_15_0 d) (sd_base_15_0 d) (sd_base_23_16 d) (sd_type d) x (sd_dpl d) (sd_p d)
          (sd_lim_19_16 d) (sd_avl d) (sd_rsv1 d) (sd_db d) (sd_g d) (sd_base_31_24 d).
Definition with_sd_type (x : Z) (d : segdesc) : segdesc :=
  Segdesc (sd_lim_15_0 d) (sd_base_15_0 d) (sd_base_23_16 d) x (sd_s d) (sd_dpl d) (sd_p d)
          (sd_lim_19_16 d) (sd_avl d) (sd_rsv1 d) (sd_db d) (sd_g d) (sd_base_31_24 d).

(** What the processor reads back from the fields. *)
Definition sd_base (d : segdesc) : Z :=
  sd_base_15_0 d + 65536 * sd_base_23_16 d + 16777216 * sd_base_31_24 d.
Definition sd_limit (d : segdesc) : Z :=
  let l := sd_lim_15_0 d + 65536 * sd_lim_19_16 d in
  if sd_g d =? 0 then l else l * 4096 + 4095.

Definition STA_X : Z := 8.
Definition STA_W : Z := 2.
Definition STA_R : Z := 2.
Definition STS_T32A : Z := 9.
Definition STS_T32B : Z := 11.
Definition STS_IG32 : Z := 14.
Definition STS_TG32 : Z := 15.
Definition CPU_GDT_KCODE : Z := 8.
Definition CPU_GDT_KDATA : Z := 16.
Definition CPU_GDT_UCODE : Z := 24.
Definition CPU_GDT_UDATA : Z := 32.
Definition CPU_GDT_TSS : Z := 40.
Definition CPU_GDT_NDESC : Z := 6.

Record gatedesc : Type := Gatedesc {
  gd_off_15_0 : Z; gd_ss : Z; gd_args : Z; gd_rsv1 : Z; gd_type : Z; gd_s : Z; gd_dpl : Z; gd_p : Z;
  gd_off_31_16 : Z
}.
#[global] Instance gatedesc_inhabited : Inhabited gatedesc := populate (Gatedesc 0 0 0 0 0 0 0 0 0).
Definition SETGATE (istrap sel off dpl : Z) : gatedesc :=
  Gatedesc (Z.land off 65535) sel 0 0 (if negb (istrap =? 0) then STS_TG32 else STS_IG32) 0 dpl 1
           (Z.shiftr off 16).
Definition gd_offset (g : gatedesc) : Z := gd_off_15_0 g + 65536 * gd_off_31_16 g.

(** ** Kernel stacks: the fields of tss_t and struct kstack that are used *)
Record tss_t : Type := Tss { ts_esp0 : Z; ts_ss0 : Z; ts_iomb : Z; ts_iopm : gmap Z Z }.
Record kstk : Type := Kstk { gdt : gmap Z segdesc; tss : tss_t; k_cpu_idx : Z; k_magic : Z }.
Definition kstk0 : kstk := Kstk ∅ (Tss 0 0 0 ∅) 0 0.
#[global] Instance kstk_inhabited : Inhabited kstk := populate kstk0.
Definition with_gdt (j : Z) (d : segdesc) (k : kstk) : kstk :=
  Kstk (<[j := d]> (gdt k)) (tss k) (k_cpu_idx k) (k_magic k).
Definition with_esp0 (x ss : Z) (k : kstk) : kstk :=
  Kstk (gdt k) (Tss x ss (ts_iomb (tss k)) (ts_iopm (tss k))) (k_cpu_idx k) (k_magic k).
Definition with_iopm (iomb : Z) (m : gmap Z Z) (k : kstk) : kstk :=
  Kstk (gdt k) (Tss (ts_esp0 (tss k)) (ts_ss0 (tss k)) iomb m) (k_cpu_idx k) (k_magic k).
Definition with_magic (x : Z) (k : kstk) : kstk := Kstk (gdt k) (tss k) (k_cpu_idx k) x.
Definition with_cpu_idx (x : Z) (k : kstk) : kstk := Kstk (gdt k) (tss k) x (k_magic k).

(** Offset of the field tss, sizeof(tss_t) and the offset of ts_iopm. *)
Definition TSS_OFF : Z := 48.
Definition SIZEOF_TSS : Z := 236.
Definition IOPM_OFF : Z := 104.

(** The kernel stacks; the processor's registers gdtr, tr (the base of the
    task state segment it caches), cs and the data segment registers, idtr;
    and the interrupt descriptor table. *)
Record segs : Type := Segs {
  bsp_ks : gmap Z kstk; proc_ks : gmap Z kstk; gdtr : Z; tr : Z; cs_reg : Z; ds_reg : Z; idtr : bool;
  idt : gmap Z gatedesc
}.
Definition set_bsp (x : gmap Z kstk) (s : segs) : segs :=
  Segs x (proc_ks s) (gdtr s) (tr s) (cs_reg s) (ds_reg s) (idtr s) (idt s).
Definition set_proc (x : gmap Z kstk) (s : segs) : segs :=
  Segs (bsp_ks s) x (gdtr s) (tr s) (cs_reg s) (ds_reg s) (idtr s) (idt s).
Definition set_gdtr (x : Z) (s : segs) : segs :=
  Segs (bsp_ks s) (proc_ks s) x (tr s) (cs_reg s) (ds_reg s) (idtr s) (idt s).
Definition set_tr (x : Z) (s : segs) : segs :=
  Segs (bsp_ks s) (proc_ks s) (gdtr s) x (cs_reg s) (ds_reg s) (idtr s) (idt s).
Definition set_sregs (c d : Z) (s : segs) : segs :=
  Segs (bsp_ks s) (proc_ks s) (gdtr s) (tr s) c d (idtr s) (idt s).
Definition set_idtr (x : bool) (s : segs) : segs :=
  Segs (bsp_ks s) (proc_ks s) (gdtr s) (tr s) (cs_reg s) (ds_reg s) x (idt s).
Definition set_idt (x : gmap Z gatedesc) (s : segs) : segs :=
  Segs (bsp_ks s) (proc_ks s) (gdtr s) (tr s) (cs_reg s) (ds_reg s) (idtr s) x.

Definition bsp_upd (c : Z) (f : kstk -> kstk) : K segs unit :=
  check (in_array c NUM_CPUS) ;; modify (fun s => set_bsp (<[c := f (bsp_ks s !!! c)]> (bsp_ks s)) s).
Definition proc_upd (p : Z) (f : kstk -> kstk) : K segs unit :=
  check (in_array p NUM_IDS) ;; modify (fun s => set_proc (<[p := f (proc_ks s !!! p)]> (proc_ks s)) s).

(** ** Trap numbers *)
Definition T_DIVIDE : Z := 0.
Definition T_DEBUG : Z := 1.
Definition T_NMI : Z := 2.
Definition T_BRKPT : Z := 3.
Definition T_OFLOW : Z := 4.
Definition T_BOUND : Z := 5.
Definition T_ILLOP : Z := 6.
Definition T_DEVICE : Z := 7.
Definition T_DBLFLT : Z := 8.
Definition T_TSS : Z := 10.
Definition T_SEGNP : Z := 11.
Definition T_STACK : Z := 12.
Definition T_GPFLT : Z := 13.
Definition T_PGFLT : Z := 14.
Definition T_FPERR : Z := 16.
Definition T_ALIGN : Z := 17.
Definition T_MCHK : Z := 18.
Definition T_SIMD : Z := 19.
Definition T_SECEV : Z := 30.
Definition T_IRQ0 : Z := 32.
Definition IRQ_TIMER : Z := 0.
Definition IRQ_KBD : Z := 1.
Definition IRQ_SLAVE : Z := 2.
Definition IRQ_SERIAL24 : Z := 3.
Definition IRQ_SERIAL13 : Z := 4.
Definition IRQ_LPT2 : Z := 5.
Definition IRQ_FLOPPY : Z := 6.
Definition IRQ_SPURIOUS : Z := 7.
Definition IRQ_RTC : Z := 8.
Definition IRQ_MOUSE : Z := 12.
Definition IRQ_COPROCESSOR : Z := 13.
Definition IRQ_IDE1 : Z := 14.
Definition IRQ_IDE2 : Z := 15.
Definition IRQ_ERROR : Z := 19.
Definition IRQ_EHCI_2 : Z := 23.
Definition T_SYSCALL : Z := 48.
Definition T_LTIMER : Z := 49.
Definition T_PERFCTR : Z := 51.
Definition T_DEFAULT : Z := 254.

(** The calls of SETGATE after the loop: the vector and the privilege level;
    the handler is the entry point with the vector's own number. *)
Definition idt_gates : list (Z * Z) :=
  [(T_DIVIDE, 0); (T_DEBUG, 0); (T_NMI, 0); (T_BRKPT, 3); (T_OFLOW, 3); (T_BOUND, 0); (T_ILLOP, 0);
   (T_DEVICE, 0); (T_DBLFLT, 0); (T_TSS, 0); (T_SEGNP, 0); (T_STACK, 0); (T_GPFLT, 0); (T_PGFLT, 0);
   (T_FPERR, 0); (T_ALIGN, 0); (T_MCHK, 0);
   (T_IRQ0 + IRQ_TIMER, 0); (T_IRQ0 + IRQ_KBD, 0); (T_IRQ0 + IRQ_SLAVE, 0); (T_IRQ0 + IRQ_SERIAL24, 0);
   (T_IRQ0 + IRQ_SERIAL13, 0); (T_IRQ0 + IRQ_LPT2, 0); (T_IRQ0 + IRQ_FLOPPY, 0); (T_IRQ0 + IRQ_SPURIOUS, 0);
   (T_IRQ0 + IRQ_RTC, 0); (T_IRQ0 + 9, 0); (T_IRQ0 + 10, 0); (T_IRQ0 + 11, 0); (T_IRQ0 + IRQ_MOUSE, 0);
   (T_IRQ0 + IRQ_COPROCESSOR, 0); (T_IRQ0 + IRQ_IDE1, 0); (T_IRQ0 + IRQ_IDE2, 0);
   (T_SYSCALL, 3); (T_DEFAULT, 0)].
(** Where bsp_kstack and the trap entry points of idt.S are; the entry
    points are known by the trap number they push, and are distinct. *)
Class seg_layout : Type := {
  bsp_kstack : Z;
  bsp_kstack_u32 : 0 <= bsp_kstack /\ bsp_kstack + 4096 * NUM_CPUS <= W32;
  Xentry : Z -> Z;
  Xentry_u32 v : v ∈ map fst idt_gates -> is_u32 (Xentry v);
  Xentry_inj v w : v ∈ map fst idt_gates -> w ∈ map fst idt_gates -> Xentry v = Xentry w -> v = w
}.

Section ops.
Context `{layout} `{seg_layout}.

(** The index of a boot kernel stack with the given address. *)
Definition bsp_index (a : Z) : Z := (a - bsp_kstack) / 4096.
Definition bsp_kstack_hi (c : Z) : Z := bsp_kstack + 4096 * (c + 1).
Definition bsp_tss (c : Z) : Z := bsp_kstack + 4096 * c + TSS_OFF.
Definition proc_kstack_hi (p : Z) : Z := proc_kstack + 4096 * (p + 1).
Definition proc_tss (p : Z) : Z := proc_kstack + 4096 * p + TSS_OFF.

Definition TSS_DESC (a : Z) : segdesc := SEGDESC16 STS_T32A a (SIZEOF_TSS - 1) 0.

(** The instruction ltr: it loads the task register from an available task
    state descriptor of the current descriptor table, and marks it busy. *)
Definition ltr (sel : Z) : K segs unit :=
  s ← get;
  let c := bsp_index (gdtr s) in
  check (in_array c NUM_CPUS) ;;
  let j := Z.shiftr sel 3 in
  let d := gdt (bsp_ks s !!! c) !!! j in
  check ((sd_type d =? STS_T32A) && (sd_s d =? 0) && (sd_p d =? 1)) ;;
  bsp_upd c (with_gdt j (with_sd_type STS_T32B d)) ;;
  modify (set_tr (sd_base d)).

(** kstack_switch, given the address of the processor's boot stack. *)
Definition kstack_load (ksp pid : Z) : K segs unit :=
  let c := bsp_index ksp in
  check (in_array pid NUM_IDS) ;;
  bsp_upd c (with_esp0 (proc_kstack_hi pid) CPU_GDT_KDATA) ;;
  bsp_upd c (with_gdt (Z.shiftr CPU_GDT_TSS 3) (TSS_DESC (proc_tss pid))) ;;
  bsp_upd c (fun k => with_gdt (Z.shiftr CPU_GDT_TSS 3) (with_sd_s 0 (gdt k !!! Z.shiftr CPU_GDT_TSS 3)) k) ;;
  ltr CPU_GDT_TSS.

(** The assignments to the descriptor table that seg_init and seg_init_proc
    share. *)
Definition gdt_setup (upd : (kstk -> kstk) -> K segs unit) : K segs unit :=
  upd (with_gdt 0 SEGDESC_NULL) ;;
  upd (with_gdt (Z.shiftr CPU_GDT_KCODE 3) (SEGDESC32 (Z.lor STA_X STA_R) 0 4294967295 0)) ;;
  upd (with_gdt (Z.shiftr CPU_GDT_KDATA 3) (SEGDESC32 STA_W 0 4294967295 0)) ;;
  upd (with_gdt (Z.shiftr CPU_GDT_UCODE 3) (SEGDESC32 (Z.lor STA_X STA_R) 0 4294967295 3)) ;;
  upd (with_gdt (Z.shiftr CPU_GDT_UDATA 3) (SEGDESC32 STA_W 0 4294967295 3)).

(** seg_init after the BSS has been cleared; [ds_reg] stands for ds, es, fs,
    gs and ss, which are loaded alike, and the null local descriptor table is
    left out. *)
Definition seg_init (cpu_idx : Z) : K segs unit :=
  gdt_setup (bsp_upd cpu_idx) ;;
  bsp_upd cpu_idx (with_esp0 (bsp_kstack_hi cpu_idx) CPU_GDT_KDATA) ;;
  bsp_upd cpu_idx (with_gdt (Z.shiftr CPU_GDT_TSS 3) (TSS_DESC (bsp_tss cpu_idx))) ;;
  bsp_upd cpu_idx (fun k => with_gdt (Z.shiftr CPU_GDT_TSS 3) (with_sd_s 0 (gdt k !!! Z.shiftr CPU_GDT_TSS 3)) k) ;;
  bsp_upd cpu_idx (with_magic KSTACK_MAGIC) ;;
  modify (set_gdtr (bsp_kstack + 4096 * cpu_idx)) ;;
  modify (set_sregs CPU_GDT_KCODE CPU_GDT_KDATA) ;;
  ltr CPU_GDT_TSS ;;
  modify (set_idtr true) ;;
  if cpu_idx =? 0 then
    for_range 1 NUM_CPUS (fun c => bsp_upd c (fun _ => kstk0)) ;;
    for_range 0 NUM_IDS (fun p => proc_upd p (fun _ => kstk0))
  else mret tt.

Definition zero_iopm (m : gmap Z Z) : gmap Z Z := foldl (fun m j => <[j := 0]> m) m (seqZ 0 128).

Definition seg_init_proc (cpu_idx pid : Z) : K segs unit :=
  gdt_setup (proc_upd pid) ;;
  proc_upd pid (with_esp0 (proc_kstack_hi pid) CPU_GDT_KDATA) ;;
  proc_upd pid (fun k => with_iopm IOPM_OFF (<[128 := 255]> (zero_iopm (ts_iopm (tss k)))) k) ;;
  proc_upd pid (with_gdt (Z.shiftr CPU_GDT_TSS 3) (TSS_DESC (proc_tss pid))) ;;
  proc_upd pid (fun k => with_gdt (Z.shiftr CPU_GDT_TSS 3) (with_sd_s 0 (gdt k !!! Z.shiftr CPU_GDT_TSS 3)) k) ;;
  proc_upd pid (with_magic KSTACK_MAGIC) ;;
  proc_upd pid (with_cpu_idx cpu_idx).

(** ** The interrupt descriptor table *)
Definition set_gate (v off dpl : Z) : K segs unit :=
  check (in_array v 256) ;; modify (fun s => set_idt (<[v := SETGATE 0 CPU_GDT_KCODE off dpl]> (idt s)) s).
Definition set_gates (l : list (Z * Z)) : K segs unit :=
  foldr (fun '(v, dpl) k => set_gate v (Xentry v) dpl ;; k) (mret tt) l.

Definition intr_init_idt : K segs unit :=
  kern_assert (Z.land T_IRQ0 7 =? 0) ;;
  for_range 0 256 (fun i => set_gate i (Xentry T_DEFAULT) 0) ;;
  set_gates idt_gates.

Definition intr_install_idt : K segs unit := modify (set_idtr true).
End ops.

(** ** What the processor finds in the descriptors *)
Section spec.
Context `{layout} `{seg_layout}.

Lemma land_ones_mod x n : 0 <= n -> Z.land x (2 ^ n - 1) = x mod 2 ^ n.
Proof. intros. rewrite <- Z.land_ones by lia. by rewrite Z.ones_equiv, Z.sub_1_r. Qed.

Lemma split_base b : is_u32 b ->
  Z.land b 65535 + 65536 * Z.land (Z.shiftr b 16) 255 + 16777216 * bits 8 (Z.shiftr b 24) = b.
Proof.
  intros Hb. change 65535 with (2 ^ 16 - 1). change 255 with (2 ^ 8 - 1). rewrite !land_ones_mod by lia.
  unfold bits. rewrite !Z.shiftr_div_pow2 by lia. unfold is_u32, W32 in Hb. simpl Z.pow. zdiv.
Qed.

Lemma tss_desc_base a : is_u32 a -> sd_base (TSS_DESC a) = a.
Proof. apply split_base. Qed.

Lemma proc_tss_u32 p : 0 <= p < NUM_IDS -> is_u32 (proc_tss p).
Proof.
  intros Hp. pose proof proc_kstack_kernel as [H1 H2]. unfold proc_tss, TSS_OFF, is_u32, W32, VM_USERLO, NUM_IDS in *. lia.
Qed.

Lemma bsp_index_at c : bsp_index (bsp_kstack + 4096 * c) = c.
Proof. unfold bsp_index. zdiv. Qed.

Lemma bsp_upd_eq c f s : 0 <= c < NUM_CPUS ->
  bsp_upd c f s = Ok tt (set_bsp (<[c := f (bsp_ks s !!! c)]> (bsp_ks s)) s).
Proof. intros Hc. unfold bsp_upd. krun. unfold in_array, NUM_CPUS in *. zbool. krun. done. Qed.

Lemma bsp_upd_again c f x B s : 0 <= c < NUM_CPUS ->
  bsp_upd c f (set_bsp (<[c := x]> B) s) = Ok tt (set_bsp (<[c := f x]> B) s).
Proof. intros Hc. rewrite bsp_upd_eq by done. cbn [bsp_ks set_bsp]. by rewrite lookup_total_insert_eq, insert_insert_eq. Qed.

Lemma proc_upd_eq p f s : 0 <= p < NUM_IDS ->
  proc_upd p f s = Ok tt (set_proc (<[p := f (proc_ks s !!! p)]> (proc_ks s)) s).
Proof. intros Hp. unfold proc_upd. krun. unfold in_array, NUM_IDS in *. zbool. krun. done. Qed.
Lemma proc_upd_again p f x B s : 0 <= p < NUM_IDS ->
  proc_upd p f (set_proc (<[p := x]> B) s) = Ok tt (set_proc (<[p := f x]> B) s).
Proof. intros Hp. rewrite proc_upd_eq by done. cbn [proc_ks set_proc]. by rewrite lookup_total_insert_eq, insert_insert_eq. Qed.

Lemma ltr_eq c d s : 0 <= c < NUM_CPUS -> gdtr s = bsp_kstack + 4096 * c ->
  gdt (bsp_ks s !!! c) !!! Z.shiftr CPU_GDT_TSS 3 = d -> sd_type d = STS_T32A -> sd_s d = 0 -> sd_p d = 1 ->
  ltr CPU_GDT_TSS s = Ok tt (set_tr (sd_base d)
    (set_bsp (<[c := with_gdt (Z.shiftr CPU_GDT_TSS 3) (with_sd_type STS_T32B d) (bsp_ks s !!! c)]> (bsp_ks s)) s)).
Proof.
  intros Hc Hg Hd E1 E2 E3. unfold ltr. krun. rewrite Hg, bsp_index_at.
  assert (in_array c NUM_CPUS = true) as -> by (unfold in_array; lia). simpl in Hd. rewrite Hd, E1, E2, E3. simpl.
  by rewrite bsp_upd_eq.
Qed.

(** After kstack_switch the processor finds the task state segment of the
    process, and no other stack or table has changed. *)
Lemma kstack_load_wp c pid s : 0 <= c < NUM_CPUS -> 0 <= pid < NUM_IDS -> gdtr s = bsp_kstack + 4096 * c ->
  wp (kstack_load (bsp_kstack + 4096 * c) pid)
     (fun _ s' => tr s' = proc_tss pid /\ ts_esp0 (tss (bsp_ks s' !!! c)) = proc_kstack_hi pid /\
        (forall i, i <> c -> bsp_ks s' !!! i = bsp_ks s !!! i) /\
        (forall j, j <> Z.shiftr CPU_GDT_TSS 3 -> gdt (bsp_ks s' !!! c) !!! j = gdt (bsp_ks s !!! c) !!! j) /\
        proc_ks s' = proc_ks s /\ gdtr s' = gdtr s /\ idt s' = idt s) s.
Proof.
  intros Hc Hp Hg.
  unfold kstack_load. rewrite bsp_index_at. wp_steps. eapply wp_of_eq; [by apply bsp_upd_eq|]. wp_step.
  do 2 (eapply wp_of_eq; [by apply bsp_upd_again|]; try wp_step).
  cbn [gdt with_gdt]. rewrite !lookup_total_insert_eq.
  eapply wp_of_eq; [apply (ltr_eq c (with_sd_s 0 (TSS_DESC (proc_tss pid)))); try done|].
  { cbn [bsp_ks set_bsp]. rewrite lookup_total_insert_eq. cbn [gdt with_gdt]. by rewrite lookup_total_insert_eq. }
  cbn [tr bsp_ks proc_ks gdtr idt set_tr set_bsp]. rewrite !lookup_total_insert_eq. cbn [with_gdt tss with_esp0 ts_esp0 gdt].
  split; [by apply split_base, proc_tss_u32|]. split; [done|]. split; [|split; [|done]].
  - intros i Hi. by rewrite !lookup_total_insert_ne.
  - intros j Hj. unfold CPU_GDT_TSS in Hj. simpl in Hj. by rewrite !lookup_total_insert_ne by done.
Qed.

(** After seg_init the processor has its own descriptor table and the task
    state segment of its boot stack; on the boot processor the stacks of the
    processes are cleared. *)
Lemma bsp_tss_u32 c : 0 <= c < NUM_CPUS -> is_u32 (bsp_tss c).
Proof. intros Hc. pose proof bsp_kstack_u32. unfold bsp_tss, TSS_OFF, is_u32, W32, NUM_CPUS in *. lia. Qed.
Lemma clear_stacks_wp (u : Z -> (kstk -> kstk) -> K segs unit) (sel : segs -> gmap Z kstk) (set : gmap Z kstk -> segs -> segs) lo n s :
  0 <= lo <= n -> (forall c s, lo <= c < n -> u c (fun _ => kstk0) s = Ok tt (set (<[c := kstk0]> (sel s)) s)) ->
  (forall x s, sel (set x s) = x) -> (forall x y s, set x (set y s) = set x s) -> (forall s, set (sel s) s = s) ->
  wp (for_range lo n (fun c => u c (fun _ => kstk0))) (fun _ s' => exists B, s' = set B s /\
    forall c, B !!! c = if decide (lo <= c < n) then kstk0 else sel s !!! c) s.
Proof.
  intros Hlo Hu G1 G2 G3. apply (wp_for _ (fun k s' => exists B, s' = set B s /\ forall c, B !!! c = if decide (lo <= c < k) then kstk0 else sel s !!! c) lo n); [lia| |].
  - intros k s' Hk (B & -> & HB). eapply wp_of_eq; [by apply Hu|]. rewrite G1, G2. eexists. split; [done|]. intros c.
    destruct (decide (c = k)) as [->|]; [rewrite lookup_total_insert_eq; by rewrite decide_True by lia|].
    rewrite lookup_total_insert_ne, HB by done. destruct (decide (lo <= c < k)); [by rewrite decide_True by lia|by rewrite decide_False by lia].
  - exists (sel s). split; [by rewrite G3|]. intros c. by rewrite decide_False by lia.
Qed.
Lemma seg_init_wp c s : 0 <= c < NUM_CPUS ->
  wp (seg_init c) (fun _ s' => gdtr s' = bsp_kstack + 4096 * c /\ tr s' = bsp_tss c /\ cs_reg s' = CPU_GDT_KCODE /\ ds_reg s' = CPU_GDT_KDATA /\
    idtr s' = true /\ idt s' = idt s /\ ts_esp0 (tss (bsp_ks s' !!! c)) = bsp_kstack_hi c /\
    forall p, 0 <= p < NUM_IDS -> proc_ks s' !!! p = if decide (c = 0) then kstk0 else proc_ks s !!! p) s.
Proof.
  intros Hc. pose proof (bsp_tss_u32 c Hc) as Hu. unfold seg_init, gdt_setup. do 2 wp_step. eapply wp_of_eq; [by apply bsp_upd_eq|].
  do 4 (try wp_step; eapply wp_of_eq; [by apply bsp_upd_again|]). do 4 (wp_step; eapply wp_of_eq; [by apply bsp_upd_again|]).
  do 5 wp_step. cbn [gdt with_gdt with_magic]. rewrite !lookup_total_insert_eq.
  eapply wp_of_eq; [apply (ltr_eq c (with_sd_s 0 (TSS_DESC (bsp_tss c)))); try done|].
  { cbn [bsp_ks set_bsp set_gdtr set_sregs]. rewrite lookup_total_insert_eq. cbn [gdt with_gdt with_magic]. by rewrite lookup_total_insert_eq. }
  do 2 wp_step. cbn [bsp_ks set_bsp set_gdtr set_sregs set_idtr set_tr]. rewrite lookup_total_insert_eq, insert_insert_eq.
  match goal with |- wp _ _ ?x => set (s1 := x) end.
  assert (Hb : forall B : gmap Z kstk, B !!! c = bsp_ks s1 !!! c -> ts_esp0 (tss (B !!! c)) = bsp_kstack_hi c).
  { intros B ->. unfold s1. cbn [bsp_ks set_bsp set_gdtr set_sregs set_idtr set_tr]. by rewrite lookup_total_insert_eq. }
  assert (Ht : tr s1 = bsp_tss c) by (by apply split_base).
  destruct (Z.eqb_spec c 0) as [->|Hne].
  - wp_step. wp_call (clear_stacks_wp bsp_upd bsp_ks set_bsp 1 NUM_CPUS); [done|by intros; apply bsp_upd_eq; lia|done|done|by intros []|].
    intros [] s2 (B & -> & HB). wp_call (clear_stacks_wp proc_upd proc_ks set_proc 0 NUM_IDS); [done|by intros; apply proc_upd_eq|done|done|by intros []|].
    intros [] s3 (P & -> & HP). split_and!; try done; [by apply Hb, HB|]. intros p Hp. cbn. by rewrite HP, decide_True.
  - wp_step. split_and!; try done; [by apply Hb|]. intros p _. by rewrite decide_False.
Qed.
(** The stack of a process. *)
Lemma seg_init_proc_wp c p s : 0 <= p < NUM_IDS ->
  wp (seg_init_proc c p) (fun _ s' => exists k, s' = set_proc (<[p := k]> (proc_ks s)) s /\ ts_esp0 (tss k) = proc_kstack_hi p /\
    ts_ss0 (tss k) = CPU_GDT_KDATA /\ k_cpu_idx k = c /\ k_magic k = KSTACK_MAGIC) s.
Proof.
  intros Hp. unfold seg_init_proc, gdt_setup. do 2 wp_step. eapply wp_of_eq; [by apply proc_upd_eq|].
  do 4 (try wp_step; eapply wp_of_eq; [by apply proc_upd_again|]). do 5 (wp_step; eapply wp_of_eq; [by apply proc_upd_again|]).
  eapply wp_of_eq; [by apply proc_upd_again|]. by eexists.
Qed.

(** ** The interrupt descriptor table after intr_init_idt *)
Definition gate_entry (v : Z) : Z := if decide (v ∈ map fst idt_gates) then v else T_DEFAULT.
Definition gate_dpl (v : Z) : Z := if decide (v ∈ [T_BRKPT; T_OFLOW; T_SYSCALL]) then 3 else 0.
Definition idt_ok (g : gmap Z gatedesc) : Prop :=
  forall v, 0 <= v < 256 -> g !!! v = SETGATE 0 CPU_GDT_KCODE (Xentry (gate_entry v)) (gate_dpl v).

Lemma set_gate_eq v off dpl s : 0 <= v < 256 ->
  set_gate v off dpl s = Ok tt (set_idt (<[v := SETGATE 0 CPU_GDT_KCODE off dpl]> (idt s)) s).
Proof. intros Hv. unfold set_gate, in_array. krun. by zbool. Qed.

Lemma set_gates_wp l s (f : Z -> gatedesc) : Forall (fun x => 0 <= x.1 < 256) l ->
  (forall v, 0 <= v < 256 -> v ∈ map fst l \/ idt s !!! v = f v) ->
  (forall v d, (v, d) ∈ l -> SETGATE 0 CPU_GDT_KCODE (Xentry v) d = f v) ->
  wp (set_gates l) (fun _ s' => exists g, s' = set_idt g s /\ forall v, 0 <= v < 256 -> g !!! v = f v) s.
Proof.
  intros Hl. revert s. induction Hl as [|[v d] l Hv _ IH]; intros s Hs Hf; simpl.
  - wp_steps. exists (idt s). split; [by destruct s|]. intros v Hv. by destruct (Hs v Hv) as [[]%elem_of_nil|].
  - wp_steps. eapply wp_of_eq; [by apply set_gate_eq|]. eapply wp_mono; [apply IH|].
    + intros w Hw. simpl. destruct (decide (w = v)) as [->|Hne].
      * right. rewrite lookup_total_insert_eq. apply Hf. by left.
      * rewrite lookup_total_insert_ne by done. destruct (Hs w Hw) as [Hin|]; [left|by right].
        simpl in Hin. by apply elem_of_cons in Hin as [|].
    + intros w e Hin. apply Hf. by right.
    + intros [] s' (g & -> & Hg). by exists g.
Qed.

Lemma gates_range : Forall (fun x : Z * Z => 0 <= x.1 < 256) idt_gates.
Proof. apply (bool_decide_unpack _). by vm_compute. Qed.
Lemma gates_dpl : Forall (fun x : Z * Z => x.2 = gate_dpl x.1) idt_gates.
Proof. apply (bool_decide_unpack _). by vm_compute. Qed.
Lemma gate_dpl_listed : Forall (fun v => v ∈ map fst idt_gates) [T_BRKPT; T_OFLOW; T_SYSCALL].
Proof. apply (bool_decide_unpack _). by vm_compute. Qed.

Lemma intr_init_idt_wp s :
  wp intr_init_idt (fun _ s' => exists g, s' = set_idt g s /\ idt_ok g) s.
Proof.
  unfold intr_init_idt. wp_steps.
  wp_call (wp_for _ (fun k s' => exists g, s' = set_idt g s /\
    forall v, 0 <= v < k -> g !!! v = SETGATE 0 CPU_GDT_KCODE (Xentry T_DEFAULT) 0)); [lia| | |].
  - intros j s' Hj (g & -> & Hg). eapply wp_of_eq; [by apply set_gate_eq|]. eexists. split; [done|].
    intros v Hv. destruct (decide (v = j)) as [->|]; [by rewrite lookup_total_insert_eq|].
    rewrite lookup_total_insert_ne by done. apply Hg. lia.
  - exists (idt s). split; [by destruct s|]. lia.
  - intros [] s' (g & -> & Hg).
    eapply wp_mono; [apply (set_gates_wp _ _ (fun v => SETGATE 0 CPU_GDT_KCODE (Xentry (gate_entry v)) (gate_dpl v)))|].
    + apply gates_range.
    + intros v Hv. unfold gate_entry. destruct (decide (v ∈ map fst idt_gates)) as [|Hn]; [by left|right].
      cbn [idt set_idt]. rewrite (Hg v Hv). unfold gate_dpl. rewrite decide_False; [done|].
      intros Hin. apply Hn. by eapply Forall_forall in Hin; [|apply gate_dpl_listed].
    + intros v d Hin. unfold gate_entry. rewrite decide_True by (by apply (list_elem_of_fmap_2' fst _ (v, d))).
      pose proof (proj1 (Forall_forall _ _) gates_dpl _ Hin) as E. simpl in E. by rewrite E.
    + intros [] s' (g' & -> & Hg'). by exists g'.
Qed.
End spec.
