(* ===== verification/Apic.v ===== *)
(** * Interrupt controllers and timers

    kern/dev/pic, ioapic, lapic, timer, tsc, kvm and the part of intr that
    talks to the controllers.  The devices are modelled behind their ports
    and registers: two 8259 chips with their initialisation sequence, the
    interval timer, I/O APICs with their redirection tables, the local APIC
    with its command register and its timer.  Every access that waits for
    time lets time pass; how far the oscillators of the machine are after a
    number of accesses, the answers of the cpuid instruction and the clock of
    the hypervisor are fields of the class [clocks]. *)

From stdpp Require Import base gmap list numbers.
From S2P Require Import Prelude Mem Lock Thread Seg.

Definition W64 : Z := 18446744073709551616.
Definition u64 (x : Z) : Z := x mod W64.

Class clocks : Type := Clocks {
  pit_ticks : Z -> Z;              (* of the oscillator of the interval timer *)
  tsc_ticks : Z -> Z;              (* of the time stamp counter *)
  bus_ticks : Z -> Z;              (* of the timer of the local APIC *)
  cpuid_insn : Z -> Z -> Z * Z * Z * Z;  (* leaf, subleaf: eax, ebx, ecx, edx *)
  tsc_to_system_mul : Z;           (* what the hypervisor puts into pvclock *)
  pvclock_addr : Z
}.

(** ** Devices *)

(** An 8259: [c_next] is the initialisation word it expects next, 0 when it
    is initialised. *)
Record chip : Type := Chip { c_next : Z; c_imr : Z; c_base : Z; c_icw3 : Z; c_icw4 : Z; c_ocw3 : Z; c_eois : Z }.
Definition chip_cmd (v : Z) (c : chip) : chip :=
  if Z.testbit v 4 then Chip 2 0 (c_base c) (c_icw3 c) (c_icw4 c) (c_ocw3 c) (c_eois c)
  else if Z.testbit v 3 then Chip (c_next c) (c_imr c) (c_base c) (c_icw3 c) (c_icw4 c) v (c_eois c)
  else if Z.testbit v 5 then Chip (c_next c) (c_imr c) (c_base c) (c_icw3 c) (c_icw4 c) (c_ocw3 c) (c_eois c + 1)
  else c.
Definition chip_data (v : Z) (c : chip) : chip :=
  if c_next c =? 2 then Chip 3 (c_imr c) (Z.land v 248) (c_icw3 c) (c_icw4 c) (c_ocw3 c) (c_eois c)
  else if c_next c =? 3 then Chip 4 (c_imr c) (c_base c) v (c_icw4 c) (c_ocw3 c) (c_eois c)
  else if c_next c =? 4 then Chip 0 (c_imr c) (c_base c) (c_icw3 c) v (c_ocw3 c) (c_eois c)
  else Chip 0 v (c_base c) (c_icw3 c) (c_icw4 c) (c_ocw3 c) (c_eois c).

(** A channel of the interval timer: the control word, the low byte of a
    count of which the high byte is missing, and the count with the time at
    which it was complete. *)
Record channel : Type := Channel { ch_mode : Z; ch_low : option Z; ch_count : option (Z * Z) }.
#[global] Instance channel_inhabited : Inhabited channel := populate (Channel 0 None None).
Definition pit_data (now v : Z) (c : channel) : channel :=
  match ch_low c with
  | None => Channel (ch_mode c) (Some v) (ch_count c)
  | Some l => Channel (ch_mode c) None (Some (l + 256 * v, now))
  end.

(** The ports and the time. *)
Record ports : Type := Ports {
  now : Z; pic1 : chip; pic2 : chip; pit : gmap Z channel;
  other : gmap Z Z          (* 0x61, CMOS and IMCR: the value written last *)
}.
Definition set_pics (c1 c2 : chip) (p : ports) : ports := Ports (now p) c1 c2 (pit p) (other p).
Definition set_pit (x : gmap Z channel) (p : ports) : ports := Ports (now p) (pic1 p) (pic2 p) x (other p).
Definition set_other (x : gmap Z Z) (p : ports) : ports := Ports (now p) (pic1 p) (pic2 p) (pit p) x.
Definition pass (p : ports) : ports := Ports (now p + 1) (pic1 p) (pic2 p) (pit p) (other p).

Section ports.
Context `{clocks}.

(** The output of channel 2 in mode 0: high when the count has run out. *)
Definition out2 (p : ports) : bool :=
  match ch_count (pit p !!! 2) with
  | Some (n, since) => n <=? pit_ticks (now p) - pit_ticks since
  | None => false
  end.

Definition outb (port v : Z) : K ports unit :=
  modify pass ;;
  modify (fun p =>
    let v := v mod 256 in
    if port =? 32 then set_pics (chip_cmd v (pic1 p)) (pic2 p) p
    else if port =? 33 then set_pics (chip_data v (pic1 p)) (pic2 p) p
    else if port =? 160 then set_pics (pic1 p) (chip_cmd v (pic2 p)) p
    else if port =? 161 then set_pics (pic1 p) (chip_data v (pic2 p)) p
    else if port =? 67 then set_pit (<[Z.shiftr v 6 := Channel v None None]> (pit p)) p
    else if (64 <=? port) && (port <=? 66) then
      set_pit (<[port - 64 := pit_data (now p) v (pit p !!! (port - 64))]> (pit p)) p
    else set_other (<[port := v]> (other p)) p).
Definition inb (port : Z) : K ports Z :=
  modify pass ;;
  gets (fun p => if port =? 97 then Z.lor (Z.land (other p !!! 97) 15) (if out2 p then 32 else 0) else other p !!! port).
Definition rdtsc : K ports Z := modify pass ;; gets (fun p => u64 (tsc_ticks (now p))).
End ports.

(** An I/O APIC: the selected register, the identification, the version and
    the redirection table. *)
Record iodev : Type := Iodev { io_reg : Z; io_id : Z; io_ver : Z; io_table : gmap Z Z }.
#[global] Instance iodev_inhabited : Inhabited iodev := populate (Iodev 0 0 0 ∅).
Definition io_select (r : Z) (d : iodev) : iodev := Iodev r (io_id d) (io_ver d) (io_table d).
Definition io_read (d : iodev) : Z :=
  if io_reg d =? 0 then io_id d else if io_reg d =? 1 then io_ver d else io_table d !!! io_reg d.
Definition io_write (v : Z) (d : iodev) : iodev :=
  if io_reg d =? 0 then Iodev 0 (Z.land v 251658240) (io_ver d) (io_table d)
  else if io_reg d =? 1 then d
  else Iodev (io_reg d) (io_id d) (io_ver d) (<[io_reg d := v]> (io_table d)).

(** ** The globals of the drivers with the devices *)
Record pics : Type := Pics { irqmask : Z; pic_inited : bool }.
Record ioapics_t : Type := Ioapics {
  iodevs : gmap Z iodev;    (* by the address of the device *)
  ioapics : gmap Z Z; ioapicid : gmap Z Z; gsi : gmap Z Z; ioapic_num : Z
}.
(** [l_busy] is the number of accesses during which the last interrupt command
    is still being delivered, [l_latency] that of a new one, [l_ipis] the
    commands sent, with their destination. *)
Record lapic_t : Type := Lapic {
  lapic : Z; l_regs : gmap Z Z; l_since : Z; l_busy : Z; l_latency : Z; l_ipis : list (Z * Z)
}.
Record intc : Type := Intc {
  io_ports : ports; pc : pics; io : ioapics_t; la : lapic_t; using_apic : bool; tsc_per_ms : Z; msrs : list (Z * Z)
}.
Definition l_ports : lens intc ports := Lens io_ports (fun x s => Intc x (pc s) (io s) (la s) (using_apic s) (tsc_per_ms s) (msrs s)).
Definition l_pc : lens intc pics := Lens pc (fun x s => Intc (io_ports s) x (io s) (la s) (using_apic s) (tsc_per_ms s) (msrs s)).
Definition l_io : lens intc ioapics_t := Lens io (fun x s => Intc (io_ports s) (pc s) x (la s) (using_apic s) (tsc_per_ms s) (msrs s)).
Definition l_la : lens intc lapic_t := Lens la (fun x s => Intc (io_ports s) (pc s) (io s) x (using_apic s) (tsc_per_ms s) (msrs s)).
#[global] Instance l_ports_laws : LensLaws l_ports.
Proof. by split; intros; [|destruct s|]. Qed.
#[global] Instance l_io_laws : LensLaws l_io.
Proof. by split; intros; [|destruct s|]. Qed.
#[global] Instance l_la_laws : LensLaws l_la.
Proof. by split; intros; [|destruct s|]. Qed.
Definition set_using_apic (b : bool) (s : intc) : intc := Intc (io_ports s) (pc s) (io s) (la s) b (tsc_per_ms s) (msrs s).
Definition set_tsc_per_ms (x : Z) (s : intc) : intc := Intc (io_ports s) (pc s) (io s) (la s) (using_apic s) x (msrs s).
Definition set_msrs (x : list (Z * Z)) (s : intc) : intc := Intc (io_ports s) (pc s) (io s) (la s) (using_apic s) (tsc_per_ms s) x.

Section drivers.
Context `{clocks}.

Definition out (port v : Z) : K intc unit := zoom l_ports (outb port v).
Definition inp (port : Z) : K intc Z := zoom l_ports (inb port).

(** ** The 8259 controllers (pic.c) *)
Definition IO_PIC1 : Z := 32.
Definition IO_PIC2 : Z := 160.
Definition pic_words (icw4 : Z) : K intc unit :=
  out IO_PIC1 17 ;;
  out (IO_PIC1 + 1) T_IRQ0 ;;
  out (IO_PIC1 + 1) (Z.shiftl 1 IRQ_SLAVE) ;;
  out (IO_PIC1 + 1) icw4 ;;
  out IO_PIC2 17 ;;
  out (IO_PIC2 + 1) (T_IRQ0 + 8) ;;
  out (IO_PIC2 + 1) IRQ_SLAVE ;;
  out (IO_PIC2 + 1) 1 ;;
  out IO_PIC1 104 ;;
  out IO_PIC1 10 ;;
  out IO_PIC2 104 ;;
  out IO_PIC2 10.
Definition pic_init : K intc unit :=
  done ← gets (fun s => pic_inited (pc s));
  if (done : bool) then mret tt
  else
    zoom l_pc (modify (fun p => Pics (irqmask p) true)) ;;
    out (IO_PIC1 + 1) 255 ;;
    out (IO_PIC2 + 1) 255 ;;
    pic_words 1 ;;
    out (IO_PIC1 + 1) 255 ;;
    out (IO_PIC2 + 1) 255.
Definition pic_setmask (mask : Z) : K intc unit :=
  zoom l_pc (modify (fun p => Pics (mask mod 65536) (pic_inited p))) ;;
  out (IO_PIC1 + 1) (mask mod 65536) ;;
  out (IO_PIC2 + 1) (Z.shiftr (mask mod 65536) 8).
Definition pic_enable (irq : Z) : K intc unit :=
  mask ← gets (fun s => irqmask (pc s));
  check (in_array irq 32) ;;
  pic_setmask (Z.land mask (Z.lnot (s32 (Z.shiftl 1 irq)))).
Definition pic_eoi : K intc unit := out IO_PIC1 32 ;; out IO_PIC2 32.
Definition pic_reset : K intc unit :=
  out (IO_PIC1 + 1) 0 ;;
  out (IO_PIC2 + 1) 0 ;;
  pic_words 3.

(** ** The I/O APICs (ioapic.c) *)
Definition MAX_IOAPIC : Z := 16.
Definition IOAPIC_ID : Z := 0.
Definition IOAPIC_VER : Z := 1.
Definition IOAPIC_TABLE : Z := 16.
Definition IOAPIC_INT_DISABLED : Z := 65536.

Definition io_dev (base : Z) (f : iodev -> iodev) : K ioapics_t unit :=
  modify (fun i => Ioapics (<[base := f (iodevs i !!! base)]> (iodevs i)) (ioapics i) (ioapicid i) (gsi i) (ioapic_num i)).
Definition ioapic_read (base reg : Z) : K ioapics_t Z :=
  io_dev base (io_select reg) ;;
  gets (fun i => io_read (iodevs i !!! base)).
Definition ioapic_write (base reg data : Z) : K ioapics_t unit :=
  io_dev base (io_select reg) ;;
  io_dev base (io_write (u32 data)).

Definition ioapic_register (addr id g : Z) : K ioapics_t unit :=
  n ← gets ioapic_num;
  if MAX_IOAPIC <=? n then mret tt
  else
    check (in_array n MAX_IOAPIC) ;;
    modify (fun i => Ioapics (iodevs i) (<[n := addr]> (ioapics i)) (<[n := id mod 256]> (ioapicid i)) (<[n := s32 g]> (gsi i)) (n + 1)).

Definition ioapic_init_one (i : Z) : K ioapics_t unit :=
  check (in_array i MAX_IOAPIC) ;;
  base ← gets (fun a => ioapics a !!! i);
  kern_assert (negb (base =? 0)) ;;
  r ← ioapic_read base IOAPIC_ID;
  (if Z.shiftr r 24 mod 256 =? 0 then
     id ← gets (fun a => ioapicid a !!! i);
     ioapic_write base IOAPIC_ID (Z.shiftl id 24)
   else mret tt) ;;
  v ← ioapic_read base IOAPIC_VER;
  let maxintr := Z.land (Z.shiftr v 16) 255 in
  for_range 0 (maxintr + 1) (fun j =>
    ioapic_write base (IOAPIC_TABLE + 2 * j) (Z.lor IOAPIC_INT_DISABLED (T_IRQ0 + j)) ;;
    ioapic_write base (IOAPIC_TABLE + 2 * j + 1) 0).
Definition ioapic_init : K ioapics_t unit :=
  n ← gets ioapic_num;
  for_range 0 n ioapic_init_one.

(** [irq] is an uint8_t; [trigger_mode] and [polarity] are 0 or 1. *)
Definition ioapic_enable (irq apicid trigger_mode polarity : Z) : K ioapics_t unit :=
  while (fun i =>
    n ← gets ioapic_num;
    if i <? n then
      check (in_array i MAX_IOAPIC) ;;
      base ← gets (fun a => ioapics a !!! i);
      v ← ioapic_read base IOAPIC_VER;
      let maxintr := Z.land (Z.shiftr v 16) 255 in
      g ← gets (fun a => gsi a !!! i);
      hit ← (if g <=? irq then top ← int_add g maxintr; mret (irq <=? top) else mret false);
      if (hit : bool) then
        ioapic_write base (IOAPIC_TABLE + 2 * (irq - g))
          (Z.lor (Z.lor (Z.shiftl trigger_mode 15) (Z.shiftl polarity 13)) (T_IRQ0 + irq)) ;;
        ioapic_write base (IOAPIC_TABLE + 2 * (irq - g) + 1) (Z.shiftl apicid 24) ;;
        mret (inr tt)
      else mret (inl (i + 1))
    else panic) 0.
Definition ioapic_number : K ioapics_t Z := gets ioapic_num.
Definition ioapic_get (idx : Z) : K ioapics_t Z :=
  n ← gets ioapic_num;
  if n <=? idx then mret 0
  else check (in_array idx MAX_IOAPIC) ;; gets (fun a => ioapics a !!! idx).

(** ** The interval timer (timer.c) *)
Definition TIMER_FREQ : Z := 1193182.
Definition FREQ : Z := 100.
Definition TIMER_DIV (x : Z) : Z := (TIMER_FREQ + x / 2) / x.
Definition LATCH : Z := TIMER_DIV FREQ.
Definition PIT_CHANNEL0 : Z := 64.
Definition PIT_CONTROL : Z := 67.
Definition TIMER_SEL0 : Z := 0.
Definition TIMER_RATEGEN : Z := 4.
Definition TIMER_16BIT : Z := 48.
Definition LOW8 (x : Z) : Z := Z.land x 255.
Definition HIGH8 (x : Z) : Z := Z.land (Z.shiftr x 8) 255.
Definition CAL_MS : Z := 10.
Definition CAL_LATCH : Z := TIMER_FREQ / (1000 / CAL_MS).
Definition CAL_PIT_LOOPS : Z := 1000.
Definition timer_hw_init : K ports unit :=
  outb PIT_CONTROL (Z.lor (Z.lor TIMER_SEL0 TIMER_RATEGEN) TIMER_16BIT) ;;
  outb PIT_CHANNEL0 (LOW8 LATCH) ;;
  outb PIT_CHANNEL0 (HIGH8 LATCH).

(** ** The time stamp counter (tsc.c) *)

(** Both calibrations start channel 2 with [latch] in mode 0. *)
Definition pit_start (latch : Z) : K ports unit :=
  v ← inb 97;
  outb 97 (Z.lor (Z.land v (Z.lnot 2)) 1) ;;
  outb 67 176 ;;
  outb 66 (Z.land latch 255) ;;
  outb 66 (Z.shiftr latch 8).

Definition tsc_loop : Z * Z * Z * Z -> K ports (Z * Z * Z * Z) :=
  while (fun '(tsc, tscmin, tscmax, pitcnt) =>
    v ← inb 97;
    if Z.land v 32 =? 0 then
      t2 ← rdtsc;
      let delta := u64 (t2 - tsc) in
      pitcnt ← int_add pitcnt 1;
      mret (inl (t2, (if delta <? tscmin then delta else tscmin), (if tscmax <? delta then delta else tscmax), pitcnt))
    else mret (inr (tsc, tscmin, tscmax, pitcnt))).
Definition tsc_calibrate (latch ms loopmin : Z) : K ports Z :=
  pit_start latch ;;
  t1 ← rdtsc;
  '(t2, tscmin, tscmax, pitcnt) ← tsc_loop (t1, u64 (Z.lnot 0), 0, 0);
  if (pitcnt <? loopmin) || (u64 (10 * tscmin) <? tscmax) then mret (u64 (Z.lnot 0))
  else check (negb (ms =? 0)) ;; mret (u64 (t2 - t1) / ms).

(** *** The clock of the hypervisor (kvm.c)

    [cpuid] leaves the subleaf as it is; no leaf that it is used with has
    subleaves. *)
Definition cpuid (info : Z) : Z * Z * Z * Z := cpuid_insn info 0.
Definition cpuid_subleaf (leaf subleaf : Z) : Z * Z * Z * Z := cpuid_insn leaf subleaf.
Definition CPUID_KVM_SIGNATURE : Z := 1073741824.
Definition CPUID_KVM_FEATURES : Z := 1073741825.
Definition KVM_FEATURE_CLOCKSOURCE : Z := 0.
Definition KVM_FEATURE_CLOCKSOURCE2 : Z := 3.
Definition MSR_KVM_SYSTEM_TIME_NEW : Z := 1263947009.
Definition MSR_KVM_SYSTEM_TIME : Z := 18.
Definition CPUID_FEATURE_HYPERVISOR : Z := s32 (Z.shiftl 1 31).

Definition cpu_has (flag : Z) : Z :=
  let leaf := if negb (Z.land flag 256 =? 0) then 7 else if negb (Z.land flag 32 =? 0) then 2147483649 else 1 in
  let '(_, ebx, ecx, edx) := cpuid_insn leaf 0 in
  Z.land (Z.shiftr (if negb (Z.land flag 256 =? 0) then ebx else if negb (Z.land flag 128 =? 0) then ecx else edx) (Z.land flag 31)) 1.
(** The bytes of the registers are compared with KVMKVMKVM. *)
Definition reg_bytes (r : Z) : list Z := (fun i => Z.land (Z.shiftr r (8 * i)) 255) <$> seqZ 0 4.
Definition detect_kvm : Z :=
  if negb (cpu_has CPUID_FEATURE_HYPERVISOR =? 0) then
    let '(_, v0, v1, v2) := cpuid CPUID_KVM_SIGNATURE in
    if bool_decide (take 9 (reg_bytes v0 ++ reg_bytes v1 ++ reg_bytes v2) = [75; 86; 77; 75; 86; 77; 75; 86; 77]) then 1 else 0
  else 0.
Definition kvm_has_feature (feature : Z) : Z :=
  let '(eax, _, _, _) := cpuid CPUID_KVM_FEATURES in
  if negb (Z.land eax feature =? 0) then 1 else 0.
Definition kvm_enable_feature (feature : Z) : Z :=
  let '(_, ebx, _, _) := cpuid CPUID_KVM_FEATURES in
  if ebx =? 0 then 1 else 0.
Definition wrmsr (msr v : Z) : K intc unit := modify (fun s => set_msrs (msrs s ++ [(msr, v)]) s).
Definition kvm_get_tsc_hz : K intc Z :=
  let read msr :=
    wrmsr msr (Z.lor pvclock_addr 1) ;;
    wrmsr msr pvclock_addr ;;
    mret tsc_to_system_mul in
  if negb (kvm_has_feature KVM_FEATURE_CLOCKSOURCE2 =? 0) then read MSR_KVM_SYSTEM_TIME_NEW
  else if negb (kvm_has_feature KVM_FEATURE_CLOCKSOURCE =? 0) then read MSR_KVM_SYSTEM_TIME
  else mret 0.

Definition tsc_tries : K intc Z :=
  while (fun i =>
    ret ← zoom l_ports (tsc_calibrate CAL_LATCH CAL_MS CAL_PIT_LOOPS);
    if negb (ret =? u64 (Z.lnot 0)) then mret (inr ret)
    else if i + 1 <? 10 then mret (inl (i + 1)) else mret (inr ret)) 0.
Definition tsc_init : K intc Z :=
  zoom l_ports timer_hw_init ;;
  modify (set_tsc_per_ms 0) ;;
  if negb (detect_kvm =? 0) then
    hz ← kvm_get_tsc_hz;
    modify (set_tsc_per_ms (hz / 1000)) ;;
    mret 0
  else
    ret ← tsc_tries;
    if ret =? u64 (Z.lnot 0) then
      modify (set_tsc_per_ms 1000000) ;;
      zoom l_ports timer_hw_init ;;
      mret 1
    else
      modify (set_tsc_per_ms ret) ;;
      zoom l_ports timer_hw_init ;;
      mret 0.

Definition wait_ticks (ticks : Z) : K ports unit :=
  start ← rdtsc;
  while (fun _ => t ← rdtsc; if t <? u64 (start + ticks) then mret (inl tt) else mret (inr tt)) tt.
Definition delay (ms : Z) : K intc unit :=
  s ← get; zoom l_ports (wait_ticks (u64 (tsc_per_ms s * ms))).
Definition udelay (us : Z) : K intc unit :=
  s ← get; zoom l_ports (wait_ticks (u64 (tsc_per_ms s / 1000 * us))).

(** ** The local APIC (lapic.c) *)
Definition LAPIC_ID : Z := 8.
Definition LAPIC_VER : Z := 12.
Definition LAPIC_TPR : Z := 32.
Definition LAPIC_EOI : Z := 44.
Definition LAPIC_LDR : Z := 52.
Definition LAPIC_DFR : Z := 56.
Definition LAPIC_DFR_FLAT_MODE : Z := u32 (Z.shiftl 15 28).
Definition LAPIC_SVR : Z := 60.
Definition LAPIC_SVR_ENABLE : Z := 256.
Definition LAPIC_ESR : Z := 160.
Definition LAPIC_ICRLO : Z := 192.
Definition LAPIC_ICRLO_VECTOR : Z := 255.
Definition LAPIC_ICRLO_INIT : Z := 1280.
Definition LAPIC_ICRLO_STARTUP : Z := 1536.
Definition LAPIC_ICRLO_DELIVS : Z := 4096.
Definition LAPIC_ICRLO_ASSERT : Z := 16384.
Definition LAPIC_ICRLO_LEVEL : Z := 32768.
Definition LAPIC_ICRLO_NOBCAST : Z := 0.
Definition LAPIC_ICRLO_BCAST : Z := 524288.
Definition LAPIC_ICRHI : Z := 196.
Definition LAPIC_ICRHI_DEST_MASK : Z := 4278190080.
Definition LAPIC_ICRHI_DEST_SHIFT : Z := 24.
Definition LAPIC_TIMER : Z := 200.
Definition LAPIC_TIMER_X1 : Z := 11.
Definition LAPIC_TIMER_PERIODIC : Z := 131072.
Definition LAPIC_PCINT : Z := 208.
Definition APIC_LVTT_M : Z := 65536.
Definition LAPIC_LINT0 : Z := 212.
Definition LAPIC_LINT1 : Z := 216.
Definition LAPIC_LINT_MASKED : Z := 65536.
Definition LAPIC_ERROR : Z := 220.
Definition LAPIC_TICR : Z := 224.
Definition LAPIC_TCCR : Z := 228.
Definition LAPIC_TDCR : Z := 248.
Definition T_LERROR : Z := 50.
Definition T_IPI0 : Z := 63.

(** The device: the timer counts down from its initial count and starts
    again; a command is sent when its low word is written. *)
Definition timer_count (t : Z) (l : lapic_t) : Z :=
  l_regs l !!! LAPIC_TICR - (bus_ticks t - bus_ticks (l_since l)) mod (l_regs l !!! LAPIC_TICR + 1).
Definition reg_write (t i v : Z) (l : lapic_t) : lapic_t :=
  let r := <[i := v]> (l_regs l) in
  if i =? LAPIC_TICR then Lapic (lapic l) r t (l_busy l) (l_latency l) (l_ipis l)
  else if i =? LAPIC_ICRLO then Lapic (lapic l) r (l_since l) (l_latency l) (l_latency l) (l_ipis l ++ [(l_regs l !!! LAPIC_ICRHI, v)])
  else Lapic (lapic l) r (l_since l) (l_busy l) (l_latency l) (l_ipis l).
Definition reg_read (t i : Z) (l : lapic_t) : Z :=
  if i =? LAPIC_TCCR then timer_count t l
  else if i =? LAPIC_ICRLO then Z.lor (Z.ldiff (l_regs l !!! i) LAPIC_ICRLO_DELIVS) (if 0 <? l_busy l then LAPIC_ICRLO_DELIVS else 0)
  else l_regs l !!! i.
Definition poll (l : lapic_t) : lapic_t :=
  Lapic (lapic l) (l_regs l) (l_since l) (Z.max 0 (l_busy l - 1)) (l_latency l) (l_ipis l).

Definition lapic_read (index : Z) : K intc Z :=
  l ← gets la;
  check (negb (lapic l =? 0)) ;;
  zoom l_ports (modify pass) ;;
  t ← gets (fun s => now (io_ports s));
  zoom l_la (modify poll) ;;
  mret (reg_read t index l).
Definition lapic_write (index value : Z) : K intc unit :=
  l ← gets la;
  check (negb (lapic l =? 0)) ;;
  zoom l_ports (modify pass) ;;
  t ← gets (fun s => now (io_ports s));
  zoom l_la (modify (reg_write t index (u32 value))) ;;
  lapic_read LAPIC_ID ;;
  mret tt.
Definition microdelay (us : Z) : K intc unit := mret tt.
Definition lapic_register (lapic_addr : Z) : K intc unit :=
  zoom l_la (modify (fun l => Lapic lapic_addr (l_regs l) (l_since l) (l_busy l) (l_latency l) (l_ipis l))).
Definition lapic_read_debug (index : Z) : K intc Z := lapic_read index.

Definition lapic_loop : Z * Z * Z * Z -> K intc (Z * Z * Z * Z) :=
  while (fun '(timer, timermin, timermax, pitcnt) =>
    v ← inp 97;
    if Z.land v 32 =? 0 then
      timer2 ← lapic_read LAPIC_TCCR;
      let delta := u32 (timer - timer2) in
      pitcnt ← int_add pitcnt 1;
      mret (inl (timer2, (if delta <? timermin then delta else timermin), (if timermax <? delta then delta else timermax), pitcnt))
    else mret (inr (timer, timermin, timermax, pitcnt))).
Definition lapic_calibrate_timer (latch ms loopmin : Z) : K intc Z :=
  lapic_write LAPIC_TICR (u32 (Z.lnot 0)) ;;
  zoom l_ports (pit_start latch) ;;
  timer1 ← lapic_read LAPIC_TCCR;
  '(timer2, timermin, timermax, pitcnt) ← lapic_loop (timer1, u32 (Z.lnot 0), 0, 0);
  if (pitcnt <? loopmin) || (u32 (10 * timermin) <? timermax) then mret (u32 (Z.lnot 0))
  else check (negb (ms =? 0)) ;; mret (u32 (timer1 - timer2) / ms).

(** The loop on the delivery status. *)
Definition lapic_wait : K intc unit :=
  while (fun _ => r ← lapic_read LAPIC_ICRLO;
    if negb (Z.land r LAPIC_ICRLO_DELIVS =? 0) then mret (inl tt) else mret (inr tt)) tt.

(** The rest of lapic_init, after the calibration. *)
Definition lapic_setup (ticr : Z) : K intc unit :=
  lapic_write LAPIC_TICR ticr ;;
  lapic_write LAPIC_LINT0 LAPIC_LINT_MASKED ;;
  lapic_write LAPIC_LINT1 LAPIC_LINT_MASKED ;;
  v ← lapic_read LAPIC_VER;
  (if 4 <=? Z.land (Z.shiftr v 16) 255 then lapic_write LAPIC_PCINT APIC_LVTT_M else mret tt) ;;
  lapic_write LAPIC_DFR LAPIC_DFR_FLAT_MODE ;;
  lapic_write LAPIC_LDR 0 ;;
  lapic_write LAPIC_ERROR T_LERROR ;;
  lapic_write LAPIC_ESR 0 ;;
  lapic_write LAPIC_ESR 0 ;;
  lapic_write LAPIC_EOI 0 ;;
  lapic_write LAPIC_ICRHI 0 ;;
  lapic_write LAPIC_ICRLO (Z.lor (Z.lor LAPIC_ICRLO_BCAST LAPIC_ICRLO_INIT) LAPIC_ICRLO_LEVEL) ;;
  lapic_wait ;;
  lapic_write LAPIC_TPR 0.
Definition lapic_tries : K intc Z :=
  while (fun i =>
    r ← lapic_calibrate_timer CAL_LATCH CAL_MS CAL_PIT_LOOPS;
    if negb (r =? u32 (Z.lnot 0)) then mret (inr r)
    else if i + 1 <? 5 then mret (inl (i + 1)) else mret (inr r)) 0.
Definition lapic_init : K intc unit :=
  l ← gets la;
  if lapic l =? 0 then panic
  else
    lapic_write LAPIC_SVR (Z.lor LAPIC_SVR_ENABLE (T_IRQ0 + IRQ_SPURIOUS)) ;;
    lapic_write LAPIC_TDCR LAPIC_TIMER_X1 ;;
    lapic_write LAPIC_TIMER (Z.lor LAPIC_TIMER_PERIODIC (T_IRQ0 + IRQ_TIMER)) ;;
    ticks ← lapic_tries;
    let lapic_ticks_per_ms := if ticks =? u32 (Z.lnot 0) then 500000 else ticks in
    lapic_setup (u32 (lapic_ticks_per_ms * 1000) / LAPIC_TIMER_INTR_FREQ).
Definition lapic_eoi : K intc unit :=
  l ← gets la;
  if negb (lapic l =? 0) then lapic_write LAPIC_EOI 0 else mret tt.

(** lapic_startcpu on the physical memory [m], which it returns with the
    warm reset vector. *)
Definition lapic_startcpu (apicid addr : Z) (m : mem) : K intc mem :=
  out 112 15 ;;
  out 113 10 ;;
  let w1 := Z.shiftr addr 4 in
  let m := store8 (store8 m 1127 0) 1128 0 in
  let m := store8 (store8 m 1129 w1) 1130 (w1 / 256) in
  lapic_write LAPIC_ICRHI (Z.shiftl apicid 24) ;;
  lapic_write LAPIC_ICRLO (Z.lor (Z.lor LAPIC_ICRLO_INIT LAPIC_ICRLO_LEVEL) LAPIC_ICRLO_ASSERT) ;;
  microdelay 200 ;;
  lapic_write LAPIC_ICRLO (Z.lor LAPIC_ICRLO_INIT LAPIC_ICRLO_LEVEL) ;;
  microdelay 100 ;;
  for_range 0 2 (fun _ =>
    lapic_write LAPIC_ICRHI (Z.shiftl apicid 24) ;;
    lapic_write LAPIC_ICRLO (Z.lor LAPIC_ICRLO_STARTUP (Z.shiftr addr 12)) ;;
    microdelay 200) ;;
  mret m.

Definition lapic_send_ipi (apicid vector deliver_mode shorthand_mode : Z) : K intc unit :=
  kern_assert (negb (deliver_mode =? LAPIC_ICRLO_INIT) && negb (deliver_mode =? LAPIC_ICRLO_STARTUP)) ;;
  kern_assert (T_IPI0 <=? vector) ;;
  lapic_wait ;;
  (if shorthand_mode =? LAPIC_ICRLO_NOBCAST then
     lapic_write LAPIC_ICRHI (Z.land (Z.shiftl apicid LAPIC_ICRHI_DEST_SHIFT) LAPIC_ICRHI_DEST_MASK)
   else mret tt) ;;
  lapic_write LAPIC_ICRLO (Z.lor (Z.lor shorthand_mode deliver_mode) (Z.land vector LAPIC_ICRLO_VECTOR)).

(** ** The controllers together (intr.c): what does not involve the
    processors of the machine *)
Definition CPUID_FEATURE_APIC : Z := 512.
Definition intr_enable_lapicid (irq lapic_id : Z) : K intc unit :=
  if 24 <? irq then mret tt
  else
    apic ← gets using_apic;
    if (apic : bool) then zoom l_io (ioapic_enable irq ((if lapic_id =? 255 then 255 else lapic_id) mod 256) 0 0)
    else kern_assert (irq <? 16) ;; pic_enable irq.
Definition intr_eoi : K intc unit :=
  apic ← gets using_apic;
  if (apic : bool) then lapic_eoi else pic_eoi.
End drivers.
