(* ===== verification/ApicSpec.v ===== *)
(** * What the interrupt controllers and timers do

    The routing of interrupts after the initialisation, the calibration of
    the time stamp counter and the waits that use it. *)

From stdpp Require Import base gmap list numbers.
From S2P Require Import Prelude Mem Lock Thread Seg Apic.

(** The clocks of the machine run: none goes backwards and the interval
    timer counts down from any count within 2^31 accesses. *)
Class running `{clocks} : Prop := {
  pit_mono a b : a <= b -> pit_ticks a <= pit_ticks b;
  pit_runs t : pit_ticks t + 65536 <= pit_ticks (t + 2147483648)
}.

Section timers.
Context `{running}.

(** ** Counting with the interval timer *)

(** What an access does to the chips, the timer and the time. *)
Lemma outb_other port v p (Q : unit -> ports -> Prop) : port = 97 \/ 100 <= port < 160 ->
  (forall p', now p' = now p + 1 -> pic1 p' = pic1 p -> pic2 p' = pic2 p -> pit p' = pit p -> Q tt p') ->
  wp (outb port v) Q p.
Proof. intros Hp HQ. unfold outb. do 3 wp_step. zbool. cbn [andb]. by apply HQ. Qed.
Lemma outb_control v p (Q : unit -> ports -> Prop) :
  (forall p', now p' = now p + 1 -> pic1 p' = pic1 p -> pic2 p' = pic2 p ->
     pit p' = <[Z.shiftr (v mod 256) 6 := Channel (v mod 256) None None]> (pit p) -> Q tt p') ->
  wp (outb 67 v) Q p.
Proof. intros HQ. unfold outb. do 3 wp_step. cbn [Z.eqb Pos.eqb]. by apply HQ. Qed.
Lemma outb_channel c v p (Q : unit -> ports -> Prop) : 0 <= c <= 2 ->
  (forall p', now p' = now p + 1 -> pic1 p' = pic1 p -> pic2 p' = pic2 p ->
     pit p' = <[c := pit_data (now p + 1) (v mod 256) (pit p !!! c)]> (pit p) -> Q tt p') ->
  wp (outb (64 + c) v) Q p.
Proof.
  intros Hc HQ. unfold outb. do 3 wp_step. zbool. cbn [andb]. replace (64 + c - 64) with c by lia. by apply HQ.
Qed.
Lemma inb_wp port p (Q : Z -> ports -> Prop) :
  (forall p', p' = pass p -> Q (if port =? 97 then Z.lor (Z.land (other p' !!! 97) 15) (if out2 p' then 32 else 0) else other p' !!! port) p') ->
  wp (inb port) Q p.
Proof. intros HQ. unfold inb. do 3 wp_step. by apply HQ. Qed.

(** Both calibrations and timer_hw_init program a channel with a control
    word and two bytes. *)
Lemma program_wp c word lo hi p (Q : unit -> ports -> Prop) :
  0 <= c <= 2 -> Z.shiftr (word mod 256) 6 = c ->
  (forall p', now p' = now p + 3 -> pic1 p' = pic1 p -> pic2 p' = pic2 p ->
     pit p' !!! c = Channel (word mod 256) None (Some (lo mod 256 + 256 * (hi mod 256), now p + 3)) ->
     (forall d, d <> c -> pit p' !!! d = pit p !!! d) -> Q tt p') ->
  wp (outb 67 word ;; outb (64 + c) lo ;; outb (64 + c) hi) Q p.
Proof.
  intros Hc Hw HQ. wp_step. apply outb_control. intros q N A B C. rewrite Hw in C.
  wp_step. apply outb_channel; [done|]. intros q1 N1 A1 B1 C1. apply outb_channel; [done|]. intros q2 N2 A2 B2 C2.
  rewrite C in C1. rewrite C1, N1, N in C2. rewrite !lookup_total_insert_eq in C2. cbn [pit_data ch_low ch_mode ch_count] in C2.
  apply HQ; [lia|congruence|congruence| |].
  - rewrite C2, lookup_total_insert_eq. by replace (now p + 1 + 1 + 1) with (now p + 3) by lia.
  - intros d Hd. rewrite C2, !lookup_total_insert_ne by done. done.
Qed.

(** The count-down that pit_start begins at time [t0]. *)
Definition counting (p p' : ports) (latch t0 : Z) : Prop :=
  pic1 p' = pic1 p /\ pic2 p' = pic2 p /\ pit p' !!! 2 = Channel 176 None (Some (latch, t0)) /\
  (forall c, c <> 2 -> pit p' !!! c = pit p !!! c).
Lemma pit_start_wp latch p :
  0 <= latch < 65536 ->
  wp (pit_start latch) (fun _ p' => counting p p' latch (now p + 5) /\ now p' = now p + 5) p.
Proof.
  intros Hl. unfold pit_start. wp_step. apply inb_wp. intros q ->. wp_step. apply outb_other; [lia|]. intros q N A B C.
  change 66 with (64 + 2). apply program_wp; [lia|done|]. intros q1 N1 A1 B1 C1 D1.
  cbn [now pass] in N. split; [|lia]. split_and!; [by rewrite A1, A|by rewrite B1, B| |intros c Hc; by rewrite D1, C].
  rewrite C1, N. rewrite (land_low latch 8 255), Z.shiftr_div_pow2 by done. change (2 ^ 8) with 256.
  replace (latch mod 256 mod 256 + 256 * (latch / 256 mod 256)) with latch by zdiv. change (176 mod 256) with 176.
  by replace (now p + 1 + 1 + 3) with (now p + 5) by lia.
Qed.
(** ** Calibration of the time stamp counter *)

Lemma u64_sub a b : u64 (u64 a - u64 b) = u64 (a - b).
Proof. unfold u64. by rewrite <- Zminus_mod. Qed.
Lemma u64_range a : 0 <= u64 a < W64.
Proof. apply Z.mod_pos_bound. done. Qed.
(** The counter is read [n + 1] times, at [t0 + 1], [t0 + 3] and so on, with
    a look at the count-down in between. *)
Definition reading (t0 i : Z) : Z := tsc_ticks (t0 + 1 + 2 * i).
Definition step_of (t0 i : Z) : Z := u64 (reading t0 (i + 1) - reading t0 i).
(** A calibration that succeeds: at least [loops] readings in the count-down
    that began at [t0]; the last one has the end of the count-down between
    the two looks around it; no step is more than ten times another. *)
Definition measured (latch loops t0 n : Z) : Prop :=
  loops <= n /\ pit_ticks (t0 + 2 * n) - pit_ticks t0 < latch <= pit_ticks (t0 + 2 * n + 2) - pit_ticks t0 /\
  (forall i j, 0 <= i < n -> 0 <= j < n -> step_of t0 i <= 10 * step_of t0 j).

(** The readings so far are between [mn] and [mx]. *)
Definition tallied (t0 : Z) (x : Z * Z * Z * Z) : Prop :=
  let '(tsc, mn, mx, cnt) := x in
  tsc = u64 (reading t0 cnt) /\ 0 <= cnt <= 1073741824 /\ 0 <= mn /\
  (forall i, 0 <= i < cnt -> mn <= step_of t0 i <= mx).
Lemma tallied_step t0 tsc mn mx cnt t2 : tallied t0 (tsc, mn, mx, cnt) -> cnt < 1073741824 -> t2 = u64 (reading t0 (cnt + 1)) ->
  tallied t0 (t2, (if u64 (t2 - tsc) <? mn then u64 (t2 - tsc) else mn), (if mx <? u64 (t2 - tsc) then u64 (t2 - tsc) else mx), cnt + 1).
Proof.
  intros (-> & Hc & Hm & Hs) Hlt ->. rewrite u64_sub. fold (step_of t0 cnt). pose proof (u64_range (reading t0 (cnt + 1) - reading t0 cnt)) as Hr.
  fold (step_of t0 cnt) in Hr. split_and!; [done|lia|lia|destruct (_ <? mn); lia|].
  intros i Hi. destruct (decide (i = cnt)) as [->|Hne].
  - destruct (Z.ltb_spec (step_of t0 cnt) mn), (Z.ltb_spec mx (step_of t0 cnt)); lia.
  - pose proof (Hs i ltac:(lia)). destruct (Z.ltb_spec (step_of t0 cnt) mn), (Z.ltb_spec mx (step_of t0 cnt)); lia.
Qed.

Lemma bit5_out2 x (b : bool) : (Z.land (Z.lor (Z.land x 15) (if b then 32 else 0)) 32 =? 0) = negb b.
Proof.
  rewrite Z.land_lor_distr_l, <- Z.land_assoc. change (Z.land 15 32) with 0. rewrite Z.land_0_r, Z.lor_0_l. by destruct b.
Qed.

(** The look at the count-down. *)
Lemma look_wp latch t0 p p0 (Q : Z -> ports -> Prop) :
  counting p0 p latch t0 ->
  (forall v, (Z.land v 32 =? 0) = negb (latch <=? pit_ticks (now p + 1) - pit_ticks t0) -> counting p0 (pass p) latch t0 -> Q v (pass p)) ->
  wp (inb 97) Q p.
Proof.
  intros Hc HQ. apply inb_wp. intros p' ->. change (97 =? 97) with true. cbv iota. apply HQ; [|done].
  rewrite bit5_out2. unfold out2. cbn [pass pit now]. destruct Hc as (_ & _ & -> & _). done.
Qed.

(** The loop ends at the first look that finds the count-down over. *)
Definition tallying (p0 : ports) (latch t0 : Z) (x : Z * Z * Z * Z) (p : ports) : Prop :=
  tallied t0 x /\ counting p0 p latch t0 /\ now p = t0 + 1 + 2 * x.2 /\
  (pit_ticks (t0 + 2 * x.2) - pit_ticks t0 < latch \/ x.2 = 0).
Lemma tsc_loop_wp latch t0 p0 x p :
  latch < 65536 -> tallying p0 latch t0 x p ->
  wp (tsc_loop x) (fun x' p' => exists q, tallying p0 latch t0 x' q /\ p' = pass q /\ latch <= pit_ticks (t0 + 2 * x'.2 + 2) - pit_ticks t0) p.
Proof.
  intros Hl Hx. unfold tsc_loop. eapply (wp_while _ (tallying p0 latch t0) (fun x _ => 1073741824 - x.2)); [|exact Hx|].
  - clear x p Hx. intros [[[tsc mn] mx] cnt] q Hx _. pose proof Hx as (Ht & Hq & Hn & Hp). cbn [snd] in *.
    wp_step. eapply look_wp; [exact Hq|]. intros v Ev Hq'. rewrite Ev, Hn. replace (t0 + 1 + 2 * cnt + 1) with (t0 + 2 * cnt + 2) by lia.
    destruct (Z.leb_spec latch (pit_ticks (t0 + 2 * cnt + 2) - pit_ticks t0)) as [Hle|Hgt]; cbn [negb].
    { wp_step. exists q. done. }
    assert (Hb : cnt < 1073741824).
    { destruct (decide (cnt < 1073741824)); [done|]. destruct Ht as (_ & Hc & _). exfalso.
      pose proof (pit_runs t0). pose proof (pit_mono (t0 + 2147483648) (t0 + 2 * cnt + 2) ltac:(lia)). lia. }
    wp_step. unfold rdtsc. do 3 wp_step. cbn [now pass]. unfold int_add. destruct Ht as (? & Hc & Hrest).
    do 3 wp_step. do 2 wp_step. cbn [snd]. split; [|lia]. split_and!.
    + apply tallied_step; [done|done|]. unfold reading. f_equal. f_equal. lia.
    + done.
    + cbn. lia.
    + left. cbn [snd]. by replace (t0 + 2 * (cnt + 1)) with (t0 + 2 * cnt + 2) by lia.
  - destruct x as [[[tsc mn] mx] cnt], Hx as ((_ & Hc & _) & _). cbn [snd]. lia.
Qed.

Lemma tsc_calibrate_wp latch ms loops p :
  0 <= latch < 65536 -> ms <> 0 -> 0 < loops ->
  wp (tsc_calibrate latch ms loops) (fun r p' =>
    pic1 p' = pic1 p /\ pic2 p' = pic2 p /\ now p <= now p' /\
    (r = u64 (Z.lnot 0) \/ exists t0 n, now p < t0 /\ measured latch loops t0 n /\ r = u64 (reading t0 n - reading t0 0) / ms)) p.
Proof.
  intros Hl Hms Hloops. unfold tsc_calibrate. wp_step. eapply wp_mono; [by apply pit_start_wp|]. intros [] p1 [Hc N1].
  remember (now p + 5) as t0 eqn:E0. wp_step. unfold rdtsc. do 3 wp_step. cbn [now pass]. rewrite N1.
  wp_step. eapply wp_mono; [apply (tsc_loop_wp latch t0 p); [lia|]|].
  { split_and!; [|exact Hc|cbn; lia|by right]. split_and!; [|lia|lia|apply u64_range|intros; lia]. unfold reading. f_equal. f_equal. lia. }
  intros [[[t2 mn] mx] cnt] p2 (q & ((-> & Hcnt & Hmn & Hs) & (Q1 & Q2 & _) & Nq & Hlt) & -> & Hle). cbn [snd] in *.
  assert (now p <= now (pass q)) by (cbn; lia).
  destruct ((cnt <? loops) || (u64 (10 * mn) <? mx)) eqn:Ec; [wp_step; by split_and!; [..|left]|].
  apply orb_false_iff in Ec as [Ec1%Z.ltb_ge Ec2%Z.ltb_ge]. wp_step. wp_step. wp_step.
  split_and!; [done|done|done|]. right. exists t0, cnt. split; [lia|]. split.
  - split; [done|]. split; [lia|]. intros i j Hi Hj. pose proof (Hs i Hi). pose proof (Hs j Hj).
    assert (u64 (10 * mn) <= 10 * mn) by (apply Z.mod_le; unfold W64; lia). lia.
  - rewrite <- (u64_sub (reading t0 cnt)). unfold reading at 3. by replace (t0 + 1 + 2 * 0) with (t0 + 1) by lia.
Qed.
Lemma timer_hw_init_wp p :
  wp timer_hw_init (fun _ p' => pic1 p' = pic1 p /\ pic2 p' = pic2 p /\ now p' = now p + 3 /\
    pit p' !!! 0 = Channel 52 None (Some (11932, now p + 3))) p.
Proof. unfold timer_hw_init. apply (program_wp 0); [lia|done|]. intros p' N A B C _. by split_and!. Qed.

(** The first of ten calibrations that succeeds. *)
Definition tsc_result (r t : Z) : Prop :=
  r = u64 (Z.lnot 0) \/ exists t0 n, t < t0 /\ measured CAL_LATCH CAL_PIT_LOOPS t0 n /\ r = u64 (reading t0 n - reading t0 0) / CAL_MS.
Lemma tsc_tries_wp s :
  wp tsc_tries (fun r s' => exists p, s' = lset l_ports p s /\ pic1 p = pic1 (io_ports s) /\ pic2 p = pic2 (io_ports s) /\
    tsc_result r (now (io_ports s))) s.
Proof.
  unfold tsc_tries. eapply (wp_while _ (fun i s1 => 0 <= i < 10 /\ exists p, s1 = lset l_ports p s /\ pic1 p = pic1 (io_ports s) /\
    pic2 p = pic2 (io_ports s) /\ now (io_ports s) <= now p) (fun i _ => 10 - i)); [| |lia].
  - intros i s1 (Hi & p & -> & A & B & N) _. do 2 wp_step. eapply wp_mono; [apply tsc_calibrate_wp; by vm_compute|].
    intros r p' (A' & B' & N' & Hr). rewrite lget_lset in A', B', N', Hr by apply _. rewrite lset_lset by apply _.
    assert (Hres : exists q, lset l_ports p' s = lset l_ports q s /\ pic1 q = pic1 (io_ports s) /\ pic2 q = pic2 (io_ports s) /\ tsc_result r (now (io_ports s))).
    { exists p'. split_and!; [done|by rewrite A'|by rewrite B'|]. destruct Hr as [Hr|(t0 & n & Hlt & Hr)]; [by left|right]. exists t0, n. split; [lia|done]. }
    destruct (r =? u64 (Z.lnot 0)); cbn [negb]; [|by wp_step].
    destruct (Z.ltb_spec (i + 1) 10); [|by wp_step]. wp_step. split; [|lia]. split; [lia|]. exists p'. split_and!; [done|congruence|congruence|lia].
  - split; [lia|]. exists (io_ports s). split_and!; [by destruct s|done..|lia].
Qed.

(** Only the ports, the rate and the registers of the hypervisor change. *)
Lemma tsc_init_frame s : wp tsc_init (fun _ s' => exists p n ms, s' = Intc p (pc s) (io s) (la s) (using_apic s) n ms) s.
Proof.
  unfold tsc_init. do 2 wp_step. eapply wp_mono; [apply timer_hw_init_wp|]. intros [] p1 _. do 2 wp_step. destruct (negb (detect_kvm =? 0)).
  - wp_step. unfold kvm_get_tsc_hz, wrmsr. destruct (negb _); [|destruct (negb _)]; repeat wp_step; by eexists _, _, _.
  - wp_step. eapply wp_mono; [apply tsc_tries_wp|]. intros r s2 (p2 & -> & _). destruct (r =? _); do 4 wp_step;
      (eapply wp_mono; [apply timer_hw_init_wp|]); intros [] p3 _; wp_step; by eexists _, _, _.
Qed.


(** ** Waiting *)

(** The counter advances by [n] within 2^32 accesses and does not wrap around
    before that. *)
Definition reaches (n t : Z) : Prop :=
  0 <= n /\ 0 <= tsc_ticks (t + 1) /\ (forall a b, a <= b -> tsc_ticks a <= tsc_ticks b) /\
  exists t', t + 1 < t' < t + 4294967296 /\ tsc_ticks (t + 1) + n <= tsc_ticks t' < W64.
Lemma wait_ticks_wp n p :
  reaches n (now p) ->
  wp (wait_ticks n) (fun _ p' => p' = Ports (now p') (pic1 p) (pic2 p) (pit p) (other p) /\
    tsc_ticks (now p + 1) + n <= tsc_ticks (now p') /\ forall t, now p + 1 < t < now p' -> tsc_ticks t < tsc_ticks (now p + 1) + n) p.
Proof.
  intros (Hn & Hpos & Hmono & t' & Ht' & Hgoal). unfold wait_ticks. wp_step. apply (wp_bind (modify pass)). do 2 wp_step. cbn [now pass].
  pose proof (Hmono (now p + 1) t' ltac:(lia)).
  assert (E : u64 (u64 (tsc_ticks (now p + 1)) + n) = tsc_ticks (now p + 1) + n).
  { unfold u64 at 2. rewrite (Z.mod_small (tsc_ticks (now p + 1))) by lia. apply Z.mod_small. lia. }
  rewrite E. eapply (wp_while _ (fun _ q => q = Ports (now q) (pic1 p) (pic2 p) (pit p) (other p) /\ now p + 1 <= now q < t' /\
     forall t, now p + 1 < t <= now q -> tsc_ticks t < tsc_ticks (now p + 1) + n) (fun _ q => t' - now q)).
  - intros [] q (Eq & Hq & Hlt) _. unfold rdtsc. do 4 wp_step. cbn [now pass].
    assert (u64 (tsc_ticks (now q + 1)) = tsc_ticks (now q + 1)) as ->.
    { apply Z.mod_small. pose proof (Hmono (now q + 1) t' ltac:(lia)). pose proof (Hmono (now p + 1) (now q + 1) ltac:(lia)). lia. }
    destruct (Z.ltb_spec (tsc_ticks (now q + 1)) (tsc_ticks (now p + 1) + n)) as [Hl|Hg]; wp_step; rewrite Eq; cbn [now pass pic1 pic2 pit other].
    + destruct (decide (now q + 1 = t')) as [Et|]; [rewrite Et in Hl; lia|]. split; [|lia]. split_and!; [done|lia|lia|].
      intros t Ht. destruct (decide (t = now q + 1)) as [->|]; [done|]. apply Hlt. lia.
    + split_and!; [done|done|]. intros t Ht. apply Hlt. lia.
  - cbn [pass now pic1 pic2 pit other]. split_and!; [done|lia|lia|]. intros t Ht. lia.
  - cbn [pass now]. lia.
Qed.

(** delay returns, no sooner than the time stamp counter has advanced by
    the cycles of the given number of milliseconds and at its first reading
    after that, where the counter gets that far. *)
Theorem delay_waits ms s :
  0 <= tsc_per_ms s * ms < W64 ->
  reaches (tsc_per_ms s * ms) (now (io_ports s)) ->
  wp (delay ms) (fun _ s' =>
    tsc_ticks (now (io_ports s) + 1) + tsc_per_ms s * ms <= tsc_ticks (now (io_ports s')) /\
    (forall t, now (io_ports s) + 1 < t < now (io_ports s') -> tsc_ticks t < tsc_ticks (now (io_ports s) + 1) + tsc_per_ms s * ms) /\
    pit (io_ports s') = pit (io_ports s)) s.
Proof.
  intros Hu Hr. unfold delay. do 3 wp_step. assert (u64 (tsc_per_ms s * ms) = tsc_per_ms s * ms) as -> by (by apply Z.mod_small).
  eapply wp_mono; [by apply wait_ticks_wp|]. intros [] p' (Ep & Hle & Hlt). cbn [lset l_ports io_ports lget] in *. split_and!; [done|done|]. by rewrite Ep.
Qed.
End timers.

(** ** The 8259 controllers *)
Section pic.
Context `{clocks}.

Definition chip_ready (c : chip) (imr base icw3 icw4 : Z) : Prop :=
  c_next c = 0 /\ c_imr c = imr /\ c_base c = base /\ c_icw3 c = icw3 /\ c_icw4 c = icw4.
Lemma pic_init_wp s : pic_inited (pc s) = false ->
  wp pic_init (fun _ s' => pic_inited (pc s') = true /\ irqmask (pc s') = irqmask (pc s) /\
    chip_ready (pic1 (io_ports s')) 255 32 4 1 /\ chip_ready (pic2 (io_ports s')) 255 40 2 1 /\
    io s' = io s /\ la s' = la s /\ using_apic s' = using_apic s) s.
Proof.
  destruct s as [[n c1 c2 pt ot] [mask []] ? ? ? ? ?]; [done|intros _]. destruct c1, c2.
  unfold wp. vm_compute. done.
Qed.
(** pic_reset leaves every line unmasked, and the master with automatic end
    of interrupt. *)
Lemma pic_reset_wp s :
  wp pic_reset (fun _ s' => chip_ready (pic1 (io_ports s')) 0 32 4 3 /\ chip_ready (pic2 (io_ports s')) 0 40 2 1 /\
    pc s' = pc s /\ io s' = io s /\ la s' = la s) s.
Proof. destruct s as [[n [] [] pt ot] ? ? ? ? ? ?]. unfold wp. vm_compute. done. Qed.

(** pic_enable clears the bit of the line in the variable and in the chips. *)
Lemma pic_enable_wp irq s b1 b2 :
  0 <= irq < 16 -> 0 <= irqmask (pc s) < 65536 ->
  c_next (pic1 (io_ports s)) = 0 -> c_next (pic2 (io_ports s)) = 0 -> c_base (pic1 (io_ports s)) = b1 -> c_base (pic2 (io_ports s)) = b2 ->
  wp (pic_enable irq) (fun _ s' =>
    (forall j, 0 <= j < 16 -> Z.testbit (irqmask (pc s')) j = Z.testbit (irqmask (pc s)) j && negb (j =? irq)) /\
    (forall j, 0 <= j < 8 -> Z.testbit (c_imr (pic1 (io_ports s'))) j = Z.testbit (irqmask (pc s')) j /\
                             Z.testbit (c_imr (pic2 (io_ports s'))) j = Z.testbit (irqmask (pc s')) (j + 8)) /\
    c_base (pic1 (io_ports s')) = b1 /\ c_base (pic2 (io_ports s')) = b2) s.
Proof.
  destruct s as [[n c1 c2 pt ot] [mask b] ? ? ? ? ?]. cbn. intros Hi Hm N1 N2 B1 B2. unfold pic_enable, pic_setmask, out, outb.
  wp_steps. change (IO_PIC1 + 1 =? 32) with false. change (IO_PIC1 + 1 =? 33) with true. change (IO_PIC2 + 1) with 161. cbn [Z.eqb Pos.eqb]. cbv iota.
  unfold set_pics, pass. cbn [pic1 pic2 io_ports pc irqmask c_imr chip_data].
  destruct c1 as [x1 y1 z1 u1 v1 w1 e1], c2 as [x2 y2 z2 u2 v2 w2 e2]. cbn [c_next c_base] in *. subst. unfold chip_data. cbn [c_next Z.eqb c_imr c_base].
  set (v := Z.land mask (Z.lnot (s32 (Z.shiftl 1 irq)))).
  split_and!; [|intros j Hj; split|done|done].
  - intros j Hj. change 65536 with (2 ^ 16). rewrite Z.mod_pow2_bits_low by lia. unfold v. rewrite Z.land_spec, Z.lnot_spec by lia. f_equal. f_equal.
    rewrite s32_small by (rewrite Z.shiftl_1_l; pose proof (Z.pow_le_mono_r 2 irq 16 ltac:(lia) ltac:(lia)); pose proof (Z.pow_pos_nonneg 2 irq); lia).
    rewrite Z.shiftl_1_l, Z.pow2_bits_eqb by lia. apply Z.eqb_sym.
  - change 256 with (2 ^ 8). by rewrite Z.mod_pow2_bits_low by lia.
  - change 256 with (2 ^ 8). rewrite Z.mod_pow2_bits_low, Z.shiftr_spec by lia. done.
Qed.
End pic.

(** ** Routing by the I/O APICs *)

Definition maxintr (i : ioapics_t) (k : Z) : Z := Z.land (Z.shiftr (io_ver (iodevs i !!! (ioapics i !!! k))) 16) 255.
Definition covers (i : ioapics_t) (k irq : Z) : Prop :=
  0 <= k < ioapic_num i /\ gsi i !!! k <= irq <= gsi i !!! k + maxintr i k.
(** The vector and the processor that a line gives, unless it is masked. *)
Definition table (i : ioapics_t) (b : Z) : gmap Z Z := io_table (iodevs i !!! b).
Definition route (i : ioapics_t) (k irq : Z) : option (Z * Z) :=
  let r := IOAPIC_TABLE + 2 * (irq - gsi i !!! k) in
  let tb := table i (ioapics i !!! k) in
  if Z.testbit (tb !!! r) 16 then None else Some (Z.land (tb !!! r) 255, Z.shiftr (tb !!! (r + 1)) 24).

(** What ioapic_register leaves: at most 16 different devices, no line
    of which belongs to two. *)
Record ioapics_ok (i : ioapics_t) : Prop := {
  io_num : 0 <= ioapic_num i <= MAX_IOAPIC;
  io_base k : 0 <= k < ioapic_num i -> ioapics i !!! k <> 0;
  io_gsi k : 0 <= k < ioapic_num i -> 0 <= gsi i !!! k < 2147483392;
  io_distinct k k' : 0 <= k < ioapic_num i -> 0 <= k' < ioapic_num i -> ioapics i !!! k = ioapics i !!! k' -> k = k';
  io_disjoint k k' irq : covers i k irq -> covers i k' irq -> k = k'
}.

(** Only registers of the devices change. *)
Definition io_same (i i' : ioapics_t) : Prop :=
  ioapics i' = ioapics i /\ ioapicid i' = ioapicid i /\ gsi i' = gsi i /\ ioapic_num i' = ioapic_num i /\
  forall b, io_ver (iodevs i' !!! b) = io_ver (iodevs i !!! b).
#[global] Instance io_same_preorder : PreOrder io_same.
Proof.
  split; [done|]. intros a b c (A & B & C & D & E) (A' & B' & C' & D' & E'). split_and!; [congruence..|]. intros x. by rewrite E', E.
Qed.
Lemma maxintr_range i k : 0 <= maxintr i k <= 255.
Proof. unfold maxintr. rewrite (land_low _ 8 255) by done. pose proof (Z.mod_pos_bound (Z.shiftr (io_ver (iodevs i !!! (ioapics i !!! k))) 16) (2 ^ 8)). lia. Qed.
Lemma io_same_maxintr i i' k : io_same i i' -> maxintr i' k = maxintr i k.
Proof. intros (A & _ & _ & _ & E). unfold maxintr. by rewrite A, E. Qed.
Lemma io_same_covers i i' k irq : io_same i i' -> covers i' k irq <-> covers i k irq.
Proof. intros Hs. unfold covers. rewrite (io_same_maxintr i i') by done. destruct Hs as (_ & _ & -> & -> & _). done. Qed.
Lemma io_same_ok i i' : io_same i i' -> ioapics_ok i -> ioapics_ok i'.
Proof.
  intros Hs [A B C D E]. assert (F : forall k irq, covers i' k irq -> covers i k irq) by (intros; by apply (io_same_covers i i')).
  destruct Hs as (H1 & _ & H3 & H4 & _). split; rewrite ?H1, ?H3, ?H4; [done..|]. intros k k' irq Hk Hk'. apply (E k k' irq); by apply F.
Qed.

Lemma io_dev_wp base f i (Q : unit -> ioapics_t -> Prop) :
  (forall i', (forall d, io_ver (f d) = io_ver d) -> io_same i i' -> iodevs i' = <[base := f (iodevs i !!! base)]> (iodevs i) -> Q tt i') ->
  (forall d, io_ver (f d) = io_ver d) -> wp (io_dev base f) Q i.
Proof.
  intros HQ Hf. unfold io_dev. wp_step. apply HQ; [done| |done]. split_and!; [done..|]. intros b. cbn [iodevs].
  destruct (decide (b = base)) as [->|Hb]; [by rewrite lookup_total_insert_eq, Hf|by rewrite lookup_total_insert_ne].
Qed.
Lemma ioapic_read_wp base reg i (Q : Z -> ioapics_t -> Prop) :
  (forall i', io_same i i' -> (forall b, table i' b = table i b) -> Q (io_read (io_select reg (iodevs i !!! base))) i') ->
  wp (ioapic_read base reg) Q i.
Proof.
  intros HQ. unfold ioapic_read. wp_step. apply io_dev_wp; [|by intros []]. intros i' _ Hs Hd. wp_step. rewrite Hd, lookup_total_insert_eq.
  apply HQ; [done|]. intros b. unfold table. rewrite Hd. destruct (decide (b = base)) as [->|Hb]; [by rewrite lookup_total_insert_eq|by rewrite lookup_total_insert_ne].
Qed.
(** A write of the table; one of the identification leaves the tables alone. *)
Lemma ioapic_write_wp base reg v i (Q : unit -> ioapics_t -> Prop) : reg = 0 \/ 16 <= reg ->
  (forall i', io_same i i' -> table i' base = (if reg =? 0 then table i base else <[reg := u32 v]> (table i base)) ->
     (forall b, b <> base -> table i' b = table i b) -> Q tt i') ->
  wp (ioapic_write base reg v) Q i.
Proof.
  intros Hr HQ. unfold ioapic_write. wp_step. apply io_dev_wp; [|by intros []]. intros i1 _ S1 D1.
  apply io_dev_wp; [|intros d; unfold io_write; by repeat case_match]. intros i2 _ S2 D2.
  rewrite D1, insert_insert_eq, lookup_total_insert_eq in D2. apply HQ; [by transitivity i1| |].
  - unfold table. rewrite D2, lookup_total_insert_eq. unfold io_write. cbn [io_select io_reg]. destruct (Z.eqb_spec reg 0); [done|].
    by rewrite (proj2 (Z.eqb_neq reg 1)) by lia.
  - intros b Hb. unfold table. by rewrite D2, lookup_total_insert_ne.
Qed.

Lemma disabled_masked j : Z.testbit (u32 (Z.lor IOAPIC_INT_DISABLED (T_IRQ0 + j))) 16 = true.
Proof. unfold u32, W32. change 4294967296 with (2 ^ 32). rewrite Z.mod_pow2_bits_low, Z.lor_spec by lia. done. Qed.

Section ioapic.
Context `{clocks}.

(** The version gives the number of lines. *)
Lemma read_ver_wp k i (Q : Z -> ioapics_t -> Prop) :
  (forall v i', Z.land (Z.shiftr v 16) 255 = maxintr i k -> io_same i i' -> (forall b, table i' b = table i b) -> Q v i') ->
  wp (ioapic_read (ioapics i !!! k) IOAPIC_VER) Q i.
Proof. intros HQ. apply ioapic_read_wp. intros i' Hs Ht. by apply HQ. Qed.

(** The loop over the lines of one device masks all of them. *)
Definition masked (i : ioapics_t) (k n : Z) : Prop :=
  forall j, 0 <= j < n -> Z.testbit (table i (ioapics i !!! k) !!! (IOAPIC_TABLE + 2 * j)) 16 = true.
Lemma mask_all_wp base n i : 0 <= n ->
  wp (for_range 0 n (fun j =>
        ioapic_write base (IOAPIC_TABLE + 2 * j) (Z.lor IOAPIC_INT_DISABLED (T_IRQ0 + j)) ;;
        ioapic_write base (IOAPIC_TABLE + 2 * j + 1) 0))
     (fun _ i' => io_same i i' /\ (forall j, 0 <= j < n -> Z.testbit (table i' base !!! (IOAPIC_TABLE + 2 * j)) 16 = true) /\
        forall b, b <> base -> table i' b = table i b) i.
Proof.
  intros Hn. apply (wp_for _ (fun m i' => io_same i i' /\ (forall j, 0 <= j < m -> Z.testbit (table i' base !!! (IOAPIC_TABLE + 2 * j)) 16 = true) /\
        forall b, b <> base -> table i' b = table i b)); [done| |split_and!; [done|intros; lia|done]].
  intros m i1 Hm (S1 & M1 & T1). wp_step. unfold IOAPIC_TABLE in *. apply ioapic_write_wp; [lia|]. intros i2 S2 E2 T2. rewrite (proj2 (Z.eqb_neq _ 0)) in E2 by lia.
  apply ioapic_write_wp; [lia|]. intros i3 S3 E3 T3. rewrite (proj2 (Z.eqb_neq _ 0)) in E3 by lia. split_and!.
  - by transitivity i2; [transitivity i1|].
  - intros j Hj. rewrite E3, lookup_total_insert_ne, E2 by lia. destruct (decide (j = m)) as [->|]; [|rewrite lookup_total_insert_ne by lia; apply M1; lia].
    rewrite lookup_total_insert_eq. apply disabled_masked.
  - intros b Hb. by rewrite T3, T2, T1.
Qed.
Lemma ioapic_init_one_wp k i : ioapics_ok i -> 0 <= k < ioapic_num i ->
  wp (ioapic_init_one k) (fun _ i' => io_same i i' /\ masked i' k (maxintr i k + 1) /\
     forall b, b <> ioapics i !!! k -> table i' b = table i b) i.
Proof.
  intros Hok Hk. unfold ioapic_init_one. pose proof (io_num i Hok). wp_step. wp_step. do 4 wp_step.
  { by apply negb_true_iff, Z.eqb_neq, io_base. }
  wp_step. apply ioapic_read_wp. intros i1 S1 T1. wp_step.
  apply (wp_mono _ (fun _ i2 => io_same i i2 /\ forall b, table i2 b = table i b)).
  { destruct (_ =? 0); [|by wp_step]. do 2 wp_step. apply ioapic_write_wp; [by left|]. intros i2 S2 E2 T2. split; [by transitivity i1|].
    intros b. destruct (decide (b = ioapics i !!! k)) as [->|Hb]; [rewrite E2; apply T1|by rewrite T2]. }
  intros [] i2 [S2 T2]. wp_step. assert (ioapics i !!! k = ioapics i2 !!! k) as Eb by (destruct S2 as (-> & _); done). rewrite Eb.
  apply read_ver_wp. intros v i3 Ev S3 T3. rewrite Ev. rewrite (io_same_maxintr i i2) by done.
  eapply wp_mono; [apply mask_all_wp; pose proof (maxintr_range i k); lia|]. intros [] i4 (S4 & M4 & T4).
  assert (io_same i i4) as S by (transitivity i3; [by transitivity i2|done]). split_and!; [done| |].
  - intros j Hj. replace (ioapics i4 !!! k) with (ioapics i2 !!! k); [by apply M4|]. destruct S as (-> & _). done.
  - intros b Hb. rewrite T4, T3, T2 by congruence. done.
Qed.
Lemma ioapic_init_wp i : ioapics_ok i ->
  wp ioapic_init (fun _ i' => io_same i i' /\ forall k, 0 <= k < ioapic_num i -> masked i' k (maxintr i k + 1)) i.
Proof.
  intros Hok. unfold ioapic_init. do 2 wp_step.
  eapply wp_mono; [apply (wp_for _ (fun n i' => io_same i i' /\ forall k, 0 <= k < n -> masked i' k (maxintr i k + 1)))|].
  - apply Hok.
  - intros n i1 Hn [S1 M1]. eapply wp_mono; [apply ioapic_init_one_wp; [by eapply io_same_ok|destruct S1 as (_ & _ & _ & -> & _); done]|].
    intros [] i2 (S2 & M2 & T2). split; [by transitivity i1|]. intros k Hk. destruct (decide (k = n)) as [->|Hne]; [by rewrite <- (io_same_maxintr i i1)|].
    intros j Hj. assert (ioapics i2 = ioapics i1) as -> by apply S2. rewrite T2; [apply M1; [lia|done]|].
    destruct S1 as (Ei & _). rewrite Ei. intros Hb. apply (io_distinct i Hok) in Hb; lia.
  - split; [done|]. intros; lia.
  - intros [] i' [S M]. split; [done|]. intros k Hk. by apply M.
Qed.

(** ioapic_enable writes the entry of the device that has the line. *)
Lemma ioapic_enable_wp k irq apicid i : ioapics_ok i -> covers i k irq ->
  wp (ioapic_enable irq apicid 0 0) (fun _ i' => io_same i i' /\
    table i' (ioapics i !!! k) = <[IOAPIC_TABLE + 2 * (irq - gsi i !!! k) + 1 := u32 (Z.shiftl apicid 24)]>
                                   (<[IOAPIC_TABLE + 2 * (irq - gsi i !!! k) := u32 (T_IRQ0 + irq)]> (table i (ioapics i !!! k))) /\
    forall b, b <> ioapics i !!! k -> table i' b = table i b) i.
Proof.
  intros Hok Hcov. pose proof Hcov as [Hk Hirq]. unfold ioapic_enable.
  eapply (wp_while _ (fun n i' => 0 <= n <= k /\ io_same i i' /\ forall b, table i' b = table i b) (fun n _ => k - n)); [| |pose proof (io_num i Hok); unfold MAX_IOAPIC in *; lia].
  2: { split; [lia|done]. }
  intros n i1 (Hn & S1 & T1) _. pose proof S1 as (Ei & _ & Eg & En & _). do 2 wp_step. rewrite En. zbool.
  wp_step. wp_step; [pose proof (io_num i Hok); unfold in_array; lia|]. do 2 wp_step. rewrite Ei. wp_step. rewrite <- Ei. apply read_ver_wp.
  intros v i2 Ev S2 T2. rewrite Ev, (io_same_maxintr i i1) by done. do 2 wp_step. assert (gsi i2 = gsi i) as -> by (destruct S2 as (_ & _ & -> & _); done).
  pose proof (maxintr_range i n). pose proof (io_gsi i Hok n ltac:(lia)).
  assert (Sn : io_same i i2) by (by transitivity i1). wp_step.
  apply (wp_mono _ (fun hit i' => i' = i2 /\ hit = (gsi i !!! n <=? irq) && (irq <=? gsi i !!! n + maxintr i n))).
  { destruct (gsi i !!! n <=? irq); [|by wp_step]. unfold int_add. do 4 wp_step. by cbn [andb]. }
  intros hit ? [-> ->]. destruct (decide (n = k)) as [->|Hne].
  - zbool. cbn [andb]. change (Z.lor (Z.lor (Z.shiftl 0 15) (Z.shiftl 0 13)) (T_IRQ0 + irq)) with (T_IRQ0 + irq). unfold IOAPIC_TABLE in *.
    wp_step. apply ioapic_write_wp; [lia|]. intros i3 S3 E3 T3. rewrite (proj2 (Z.eqb_neq _ 0)) in E3 by lia.
    wp_step. apply ioapic_write_wp; [lia|]. intros i4 S4 E4 T4. rewrite (proj2 (Z.eqb_neq _ 0)) in E4 by lia. wp_step. rewrite Ei in *.
    split_and!; [by transitivity i3; [transitivity i2|]| |].
    + by rewrite E4, E3, T2, T1.
    + intros b Hb. by rewrite T4, T3, T2, T1.
  - assert ((gsi i !!! n <=? irq) && (irq <=? gsi i !!! n + maxintr i n) = false) as ->.
    { apply andb_false_iff. rewrite Z.leb_gt, Z.leb_gt. destruct (decide (covers i n irq)) as [Hc|Hc]; [exfalso; apply Hne; by eapply io_disjoint|].
      unfold covers in Hc. lia. }
    wp_step. split; [|lia]. split_and!; [lia|lia|done|]. intros b. by rewrite T2.
Qed.

(** Enabling a line changes its route and no other. *)
Lemma ioapic_enable_route k irq apicid i : ioapics_ok i -> covers i k irq -> irq < 24 -> 0 <= apicid < 256 ->
  wp (ioapic_enable irq apicid 0 0) (fun _ i' => io_same i i' /\
    forall k' irq', covers i k' irq' -> route i' k' irq' = if decide (irq' = irq) then Some (T_IRQ0 + irq, apicid) else route i k' irq') i.
Proof.
  intros Hok Hcov Hirq Hid. pose proof (io_gsi i Hok k ltac:(apply Hcov)) as Hg. eapply wp_mono; [by apply (ioapic_enable_wp k)|].
  intros [] i' (Hs & Ht & Ho). split; [done|]. intros k' irq' Hc. unfold route. destruct Hs as (-> & _ & -> & _). unfold T_IRQ0, IOAPIC_TABLE in *.
  case_decide as Ei.
  - subst irq'. assert (k' = k) as -> by (by eapply io_disjoint). rewrite Ht.
    rewrite lookup_total_insert_ne, !lookup_total_insert_eq by lia.
    rewrite !u32_small by (destruct Hcov; rewrite ?Z.shiftl_mul_pow2 by done; unfold W32; lia).
    rewrite (testbit_small _ 16) by (destruct Hcov; lia). f_equal. f_equal.
    + rewrite (land_low _ 8 255) by done. apply Z.mod_small. destruct Hcov. lia.
    + rewrite Z.shiftr_shiftl_l by done. by rewrite Z.shiftl_0_r.
  - destruct (decide (k' = k)) as [->|Hk]; [|rewrite Ho; [done|intros Hb; apply Hk; eapply io_distinct; [done|apply Hc|apply Hcov|done]]].
    rewrite Ht, !lookup_total_insert_ne by lia. done.
Qed.
End ioapic.

(** ** The local APIC *)
Section lapic.
Context `{running}.

(** What its accesses leave alone. *)
Definition la_same (s s' : intc) : Prop :=
  pc s' = pc s /\ io s' = io s /\ using_apic s' = using_apic s /\
  pic1 (io_ports s') = pic1 (io_ports s) /\ pic2 (io_ports s') = pic2 (io_ports s) /\
  lapic (la s') = lapic (la s) /\ l_latency (la s') = l_latency (la s) /\
  (0 <= l_busy (la s) <= l_latency (la s) -> 0 <= l_busy (la s') <= l_latency (la s')).
#[global] Instance la_same_preorder : PreOrder la_same.
Proof.
  split; [by intros s; split_and!|].
  intros a b c (A & B & C & D & E & F & G & I) (A' & B' & C' & D' & E' & F' & G' & I'). split_and!; try congruence. auto.
Qed.
Lemma lapic_read_wp i s (Q : Z -> intc -> Prop) : lapic (la s) <> 0 ->
  (forall s', la_same s s' -> l_regs (la s') = l_regs (la s) -> l_ipis (la s') = l_ipis (la s) -> l_busy (la s') = Z.max 0 (l_busy (la s) - 1) ->
     io_ports s' = pass (io_ports s) -> Q (reg_read (now (io_ports s) + 1) i (la s)) s') ->
  wp (lapic_read i) Q s.
Proof.
  intros Hl HQ. unfold lapic_read. do 3 wp_step. wp_step. do 7 wp_step.
  apply HQ; try done. split_and!; try done. cbn. lia.
Qed.
Lemma lapic_write_wp i v s (Q : unit -> intc -> Prop) : lapic (la s) <> 0 ->
  (forall s', la_same s s' -> l_regs (la s') = <[i := u32 v]> (l_regs (la s)) ->
     l_ipis (la s') = (if i =? LAPIC_ICRLO then l_ipis (la s) ++ [(l_regs (la s) !!! LAPIC_ICRHI, u32 v)] else l_ipis (la s)) ->
     io_ports s' = pass (pass (io_ports s)) -> Q tt s') ->
  wp (lapic_write i v) Q s.
Proof.
  intros Hl HQ. unfold lapic_write. do 3 wp_step. wp_step. do 8 wp_step.
  wp_step. apply lapic_read_wp.
  { cbn. unfold reg_write. by repeat case_match. }
  intros s' Hs Hr Hi _ Hp. wp_step. apply HQ.
  - etransitivity; [|exact Hs]. split_and!; try done; cbn; unfold reg_write; repeat case_match; try done; cbn; lia.
  - rewrite Hr. cbn. unfold reg_write. by repeat case_match.
  - rewrite Hi. cbn. unfold reg_write. destruct (Z.eqb_spec i LAPIC_TICR) as [->|]; [done|]. by case_match.
  - rewrite Hp. done.
Qed.

(** The loop of the calibration ends like that of the time stamp counter. *)
Definition la_counting (s0 : intc) (p0 : ports) (latch t0 : Z) (x : Z * Z * Z * Z) (s : intc) : Prop :=
  la_same s0 s /\ l_regs (la s) = l_regs (la s0) /\ l_ipis (la s) = l_ipis (la s0) /\
  counting p0 (io_ports s) latch t0 /\ now (io_ports s) = t0 + 1 + 2 * x.2 /\ 0 <= x.2 <= 1073741824.
Lemma lapic_loop_wp latch t0 s0 p0 x s :
  latch < 65536 -> lapic (la s0) <> 0 -> la_counting s0 p0 latch t0 x s ->
  wp (lapic_loop x) (fun x' s' => la_same s0 s' /\ l_regs (la s') = l_regs (la s0) /\ l_ipis (la s') = l_ipis (la s0)) s.
Proof.
  intros Hl Hptr Hx. unfold lapic_loop. eapply (wp_while _ (la_counting s0 p0 latch t0) (fun x _ => 1073741824 - x.2)); [|exact Hx|].
  - clear x s Hx. intros [[[tm mn] mx] cnt] s (S & R & I & C & N & B) _. cbn [snd] in *.
    wp_step. unfold inp. wp_step. eapply look_wp; [exact C|]. intros v Ev C'. cbn [lget l_ports] in *. rewrite Ev, N.
    assert (S1 : la_same s0 (lset l_ports (pass (io_ports s)) s)) by (etransitivity; [exact S|done]).
    replace (t0 + 1 + 2 * cnt + 1) with (t0 + 2 * cnt + 2) by lia.
    destruct (Z.leb_spec latch (pit_ticks (t0 + 2 * cnt + 2) - pit_ticks t0)) as [Hle|Hgt]; cbn [negb]; [by wp_step|].
    assert (Hb : cnt < 1073741824).
    { destruct (decide (cnt < 1073741824)); [done|]. exfalso.
      pose proof (pit_runs t0). pose proof (pit_mono (t0 + 2147483648) (t0 + 2 * cnt + 2) ltac:(lia)). lia. }
    wp_step. apply lapic_read_wp; [destruct S as (_ & _ & _ & _ & _ & E & _); cbn; by rewrite E|].
    intros s2 S2 R2 I2 _ P2. cbn [lset l_ports io_ports] in P2. wp_step. unfold int_add. do 3 wp_step. wp_step. cbn [snd]. split; [|lia].
    split_and!; [by etransitivity|by rewrite R2|by rewrite I2|by rewrite P2|rewrite P2; cbn; lia|cbn; lia|cbn; lia].
  - destruct Hx as (_ & _ & _ & _ & _ & B). lia.
Qed.

Lemma lapic_calibrate_wp latch ms loops s :
  0 <= latch < 65536 -> ms <> 0 -> lapic (la s) <> 0 ->
  wp (lapic_calibrate_timer latch ms loops) (fun r s' => la_same s s' /\ l_regs (la s') = <[LAPIC_TICR := 4294967295]> (l_regs (la s)) /\
    l_ipis (la s') = l_ipis (la s)) s.
Proof.
  intros Hl Hms Hptr. unfold lapic_calibrate_timer. wp_step. apply lapic_write_wp; [done|]. intros s1 S1 R1 I1 P1.
  change (u32 (u32 (Z.lnot 0))) with 4294967295 in *. do 2 wp_step. eapply wp_mono; [by apply pit_start_wp|]. intros [] p2 [C2 N2].
  assert (S2 : la_same s (lset l_ports p2 s1)).
  { etransitivity; [exact S1|]. destruct C2 as (A & B & _). split_and!; try done; cbn in *; congruence. }
  wp_step. apply lapic_read_wp; [destruct S2 as (_ & _ & _ & _ & _ & E & _); by rewrite E|]. intros s3 S3 R3 I3 _ P3.
  assert (S' : la_same s s3) by (by etransitivity).
  wp_step. eapply wp_mono; [apply (lapic_loop_wp latch (now (io_ports s1) + 5) s3 (io_ports s1)); [lia|destruct S' as (_ & _ & _ & _ & _ & -> & _); done|]|].
  { split_and!; [done|done|done|by rewrite P3|rewrite P3; cbn in *; lia|cbn; lia|cbn; lia]. }
  intros [[[t2 mn] mx] cnt] s4 (S4 & R4 & I4).
  assert (HQ : la_same s s4 /\ l_regs (la s4) = <[LAPIC_TICR := 4294967295]> (l_regs (la s)) /\ l_ipis (la s4) = l_ipis (la s)).
  { split_and!; [by etransitivity|by rewrite R4, R3|by rewrite I4, I3]. }
  destruct (_ || _); [by wp_step|]. do 3 wp_step. exact HQ.
Qed.
Lemma lapic_tries_wp s : lapic (la s) <> 0 ->
  wp lapic_tries (fun r s' => la_same s s' /\ l_regs (la s') = <[LAPIC_TICR := 4294967295]> (l_regs (la s)) /\ l_ipis (la s') = l_ipis (la s)) s.
Proof.
  intros Hptr. unfold lapic_tries.
  eapply (wp_while _ (fun i s1 => 0 <= i < 5 /\ la_same s s1 /\ l_ipis (la s1) = l_ipis (la s) /\
     <[LAPIC_TICR := 4294967295]> (l_regs (la s1)) = <[LAPIC_TICR := 4294967295]> (l_regs (la s))) (fun i _ => 5 - i)); [|by split_and!|lia].
  intros i s1 (Hi & S & I & R) _. wp_step.
  eapply wp_mono; [apply lapic_calibrate_wp; [by vm_compute|done|destruct S as (_ & _ & _ & _ & _ & -> & _); done]|].
  intros r s2 (S2 & R2 & I2). assert (la_same s s2) by (by etransitivity). rewrite R in R2. rewrite I in I2.
  destruct (r =? _); cbn [negb]; [|by wp_step]. destruct (Z.ltb_spec (i + 1) 5); [|by wp_step]. wp_step. split; [|lia].
  split_and!; [lia|lia|done|done|]. by rewrite R2, insert_insert_eq.
Qed.

(** The wait for the delivery of the last command. *)
Lemma lapic_wait_wp s : lapic (la s) <> 0 -> 0 <= l_busy (la s) < 4294967296 ->
  wp lapic_wait (fun _ s' => la_same s s' /\ l_regs (la s') = l_regs (la s) /\ l_ipis (la s') = l_ipis (la s)) s.
Proof.
  intros Hptr Hb. unfold lapic_wait.
  eapply (wp_while _ (fun _ s1 => la_same s s1 /\ l_regs (la s1) = l_regs (la s) /\ l_ipis (la s1) = l_ipis (la s) /\ 0 <= l_busy (la s1)) (fun _ s1 => l_busy (la s1))); [|split_and!; [done|done|done|lia]|lia].
  intros [] s1 (S & R & I & B) _. wp_step. apply lapic_read_wp; [destruct S as (_ & _ & _ & _ & _ & -> & _); done|].
  intros s2 S2 R2 I2 B2 _. unfold reg_read. change (LAPIC_ICRLO =? LAPIC_TCCR) with false. change (LAPIC_ICRLO =? LAPIC_ICRLO) with true. cbv iota.
  rewrite Z.land_lor_distr_l. assert (forall x, Z.land (Z.ldiff x LAPIC_ICRLO_DELIVS) LAPIC_ICRLO_DELIVS = 0) as ->.
  { intros x. rewrite Z.ldiff_land, <- Z.land_assoc, (Z.land_comm (Z.lnot _)), Z.land_lnot_diag. apply Z.land_0_r. }
  rewrite Z.lor_0_l. destruct (Z.ltb_spec 0 (l_busy (la s1))).
  - change (negb (Z.land LAPIC_ICRLO_DELIVS LAPIC_ICRLO_DELIVS =? 0)) with true. cbv iota. wp_step. split; [|lia]. split_and!; [by etransitivity|by rewrite R2|by rewrite I2|lia].
  - change (negb (Z.land 0 LAPIC_ICRLO_DELIVS =? 0)) with false. cbv iota. wp_step. split_and!; [by etransitivity|by rewrite R2|by rewrite I2].
Qed.

(** The registers written since [s0], the latest first, and the commands
    sent. *)
Fixpoint latest (l : list (Z * Z)) (d i : Z) : Z :=
  match l with [] => d | (j, v) :: l => if i =? j then v else latest l d i end.
Definition wrote (s0 s : intc) (l ips : list (Z * Z)) : Prop :=
  la_same s0 s /\ (forall i, l_regs (la s) !!! i = latest l (l_regs (la s0) !!! i) i) /\ l_ipis (la s) = l_ipis (la s0) ++ ips.
Lemma wrote_write s0 s l ips i v (Q : unit -> intc -> Prop) : lapic (la s0) <> 0 -> wrote s0 s l ips ->
  (forall s', wrote s0 s' ((i, u32 v) :: l) (if i =? LAPIC_ICRLO then ips ++ [(latest l (l_regs (la s0) !!! LAPIC_ICRHI) LAPIC_ICRHI, u32 v)] else ips) -> Q tt s') ->
  wp (lapic_write i v) Q s.
Proof.
  intros Hp (S & R & I) HQ. apply lapic_write_wp; [destruct S as (_ & _ & _ & _ & _ & -> & _); done|]. intros s' S' R' I' _. apply HQ. split_and!.
  - by etransitivity.
  - intros j. rewrite R'. cbn [latest]. destruct (Z.eqb_spec j i) as [->|Hne]; [by rewrite lookup_total_insert_eq|]. rewrite lookup_total_insert_ne by done. apply R.
  - rewrite I', I, R. destruct (_ =? _); [by rewrite app_assoc|done].
Qed.
Lemma wrote_read s0 s l ips i (Q : Z -> intc -> Prop) : lapic (la s0) <> 0 -> wrote s0 s l ips ->
  (forall v s', wrote s0 s' l ips -> Q v s') -> wp (lapic_read i) Q s.
Proof.
  intros Hp (S & R & I) HQ. apply lapic_read_wp; [destruct S as (_ & _ & _ & _ & _ & -> & _); done|]. intros s' S' R' I' _ _. apply HQ. split_and!.
  - by etransitivity.
  - intros j. by rewrite R', R.
  - by rewrite I', I.
Qed.

(** What lapic_init leaves in the registers: the unit enabled with the
    spurious vector 39, the timer periodic at vector 32, the local lines
    masked, errors at vector 50, and every priority accepted. *)
Definition lapic_ready (l : lapic_t) : Prop :=
  l_regs l !!! LAPIC_SVR = 295 /\ l_regs l !!! LAPIC_TIMER = 131104 /\ l_regs l !!! LAPIC_TDCR = 11 /\
  l_regs l !!! LAPIC_LINT0 = 65536 /\ l_regs l !!! LAPIC_LINT1 = 65536 /\ l_regs l !!! LAPIC_ERROR = 50 /\ l_regs l !!! LAPIC_TPR = 0.
Definition setup_writes (ticr : Z) (pcint : bool) : list (Z * Z) :=
  [(LAPIC_TPR, 0); (LAPIC_ICRLO, 558336); (LAPIC_ICRHI, 0); (LAPIC_EOI, 0); (LAPIC_ESR, 0); (LAPIC_ESR, 0); (LAPIC_ERROR, 50);
   (LAPIC_LDR, 0); (LAPIC_DFR, 4026531840)] ++ (if pcint then [(LAPIC_PCINT, 65536)] else []) ++
  [(LAPIC_LINT1, 65536); (LAPIC_LINT0, 65536); (LAPIC_TICR, u32 ticr)].
Lemma lapic_setup_wp ticr s0 s l : lapic (la s0) <> 0 -> 0 <= l_busy (la s0) <= l_latency (la s0) -> l_latency (la s0) < 4294967296 ->
  wrote s0 s l [] ->
  wp (lapic_setup ticr) (fun _ s' => exists b, wrote s0 s' (setup_writes ticr b ++ l) [(0, 558336)]) s.
Proof.
  intros Hp Hb Hlat W. unfold lapic_setup.
  do 3 (wp_step; eapply wrote_write; [done|exact W|]; clear W; intros s1 W; clear s; rename s1 into s).
  wp_step. eapply wrote_read; [done|exact W|]. clear W. intros v s1 W. clear s. rename s1 into s. wp_step.
  apply (wp_mono _ (fun _ s' => exists b : bool, wrote s0 s' ((if b then [(LAPIC_PCINT, 65536)] else []) ++ [(LAPIC_LINT1, 65536); (LAPIC_LINT0, 65536); (LAPIC_TICR, u32 ticr)] ++ l) [])).
  { destruct (4 <=? _).
    - eapply wrote_write; [done|exact W|]. clear W. intros s1 W. by exists true.
    - wp_step. by exists false. }
  clear W s. intros [] s [b W].
  do 8 (wp_step; eapply wrote_write; [done|exact W|]; clear W; intros s1 W; clear s; rename s1 into s).
  wp_step. destruct W as (S & R & I). assert (l_latency (la s) = l_latency (la s0)) by apply S.
  eapply wp_mono; [apply lapic_wait_wp; [assert (lapic (la s) = lapic (la s0)) as -> by apply S; done|destruct S as (_ & _ & _ & _ & _ & _ & _ & Hk); specialize (Hk Hb); lia]|].
  intros [] s1 (S1 & R1 & I1). assert (W : wrote s0 s1 ([(LAPIC_ICRLO, 558336); (LAPIC_ICRHI, 0); (LAPIC_EOI, 0); (LAPIC_ESR, 0); (LAPIC_ESR, 0); (LAPIC_ERROR, 50);
   (LAPIC_LDR, 0); (LAPIC_DFR, 4026531840)] ++ (if b then [(LAPIC_PCINT, 65536)] else []) ++ [(LAPIC_LINT1, 65536); (LAPIC_LINT0, 65536); (LAPIC_TICR, u32 ticr)] ++ l) [(0, 558336)]).
  { split_and!; [by etransitivity|intros i; rewrite R1; apply R|by rewrite I1, I]. }
  eapply wrote_write; [done|exact W|]. clear W. intros s2 W. exists b. unfold setup_writes. rewrite <- !app_assoc. exact W.
Qed.

Lemma lapic_init_wp s : lapic (la s) <> 0 -> 0 <= l_busy (la s) <= l_latency (la s) -> l_latency (la s) < 4294967296 ->
  wp lapic_init (fun _ s' => la_same s s' /\ lapic_ready (la s') /\ l_ipis (la s') = l_ipis (la s) ++ [(0, 558336)]) s.
Proof.
  intros Hp Hb Hlat. unfold lapic_init. do 2 wp_step. rewrite (proj2 (Z.eqb_neq _ 0) Hp).
  assert (W : wrote s s [] []) by (split_and!; [done|done|by rewrite app_nil_r]).
  do 3 (wp_step; eapply wrote_write; [done|exact W|]; clear W; let s1 := fresh "s" in intros s1 W). destruct W as (S & R & I).
  wp_step. eapply wp_mono; [apply lapic_tries_wp; assert (lapic (la s2) = lapic (la s)) as -> by apply S; done|]. intros r s3 (S3 & R3 & I3).
  eapply wp_mono; [apply (lapic_setup_wp _ s s3 [(LAPIC_TICR, 4294967295); (LAPIC_TIMER, 131104); (LAPIC_TDCR, 11); (LAPIC_SVR, 295)]); [done..|]|].
  { split_and!; [by etransitivity| |by rewrite I3, I]. intros i. rewrite R3. destruct (Z.eqb_spec i LAPIC_TICR) as [->|Hne]; [by rewrite lookup_total_insert_eq|].
    rewrite lookup_total_insert_ne by done. rewrite R. cbn [latest]. by rewrite (proj2 (Z.eqb_neq i LAPIC_TICR) Hne). }
  intros [] s4 [b (S4 & R4 & I4)]. split_and!; [done| |done]. unfold lapic_ready. rewrite !R4. by destruct b.
Qed.

(** lapic_send_ipi sends one command, to the given processor, with the
    vector, after the one before is delivered. *)
Lemma lapic_send_ipi_wp apicid vector mode s : lapic (la s) <> 0 -> 0 <= l_busy (la s) < 4294967296 ->
  mode <> LAPIC_ICRLO_INIT -> mode <> LAPIC_ICRLO_STARTUP -> T_IPI0 <= vector < 256 -> 0 <= apicid < 256 ->
  wp (lapic_send_ipi apicid vector mode LAPIC_ICRLO_NOBCAST) (fun _ s' =>
    la_same s s' /\ l_ipis (la s') = l_ipis (la s) ++ [(apicid * 16777216, u32 (Z.lor mode vector))]) s.
Proof.
  intros Hp Hb Hi Hs Hv Ha. unfold lapic_send_ipi. wp_step.
  wp_step. do 2 wp_step. wp_step.
  eapply wp_mono; [by apply lapic_wait_wp|]. intros [] s1 (S1 & R1 & I1). wp_step. cbn [Z.eqb LAPIC_ICRLO_NOBCAST].
  assert (W : wrote s s1 [] []) by (split_and!; [done|intros i; by rewrite R1|by rewrite I1, app_nil_r]).
  eapply wrote_write; [done|exact W|]. clear W. intros s2 W. eapply wrote_write; [done|exact W|]. clear W. intros s3 (S3 & _ & I3).
  split; [done|]. rewrite I3. cbn [latest Z.eqb Pos.eqb LAPIC_ICRLO LAPIC_ICRHI app]. do 3 f_equal.
  - unfold LAPIC_ICRHI_DEST_SHIFT. change LAPIC_ICRHI_DEST_MASK with (Z.shiftl 255 24). rewrite <- Z.shiftl_land, (land_low apicid 8 255), Z.mod_small, Z.shiftl_mul_pow2 by (done || lia).
    apply u32_small. unfold W32. lia.
  - unfold T_IPI0 in Hv. rewrite (land_low vector 8 LAPIC_ICRLO_VECTOR), Z.mod_small by (done || lia). done.
Qed.
End lapic.

(** The acknowledgement of an interrupt always succeeds; with a local APIC
    it is a write to its register. *)
Lemma intr_eoi_wp `{clocks} s (Q : unit -> intc -> Prop) : (forall s', Q tt s') -> wp intr_eoi Q s.
Proof.
  intros HQ. unfold intr_eoi, lapic_eoi, pic_eoi, out, outb. do 2 wp_step. destruct (using_apic s); [|by wp_steps].
  do 2 wp_step. destruct (lapic (la s) =? 0) eqn:E; cbn [negb]; [by wp_step|]. apply lapic_write_wp; [lia|]. intros s' _ _ _ _. apply HQ.
Qed.

(** ** A machine for the examples: one I/O APIC with 24 lines *)
#[global] Instance demo_clocks : clocks := Clocks (fun t => t) (fun t => 1000 * t) (fun t => 100 * t) (fun _ _ => (0, 0, 0, 512)) 0 0.
#[global] Instance demo_running : running.
Proof. split; unfold pit_ticks, demo_clocks; lia. Qed.
Definition demo_chip : chip := Chip 0 0 0 0 0 0 0.
Definition demo_ioapics : ioapics_t :=
  Ioapics {[ 4273995776 := Iodev 0 0 (Z.shiftl 23 16) ∅ ]} {[ 0 := 4273995776 ]} {[ 0 := 1 ]} {[ 0 := 0 ]} 1.
Definition demo_intc : intc :=
  Intc (Ports 0 demo_chip demo_chip ∅ ∅) (Pics 65531 false) demo_ioapics (Lapic 4276092928 ∅ 0 0 3 []) false 1000 [].
Lemma demo_ioapics_ok : ioapics_ok demo_ioapics.
Proof.
  split; unfold covers; cbn [ioapic_num demo_ioapics].
  - by vm_compute.
  - intros k Hk. by replace k with 0 by lia.
  - intros k Hk. by replace k with 0 by lia.
  - intros; lia.
  - intros; lia.
Qed.


Lemma delay_waits_witness :
  0 <= tsc_per_ms demo_intc * 20 < W64 /\
  wp (delay 20) (fun _ s' =>
    tsc_ticks (now (io_ports demo_intc) + 1) + tsc_per_ms demo_intc * 20 <= tsc_ticks (now (io_ports s')) /\
    (forall t, now (io_ports demo_intc) + 1 < t < now (io_ports s') -> tsc_ticks t < tsc_ticks (now (io_ports demo_intc) + 1) + tsc_per_ms demo_intc * 20) /\
    pit (io_ports s') = pit (io_ports demo_intc)) demo_intc.
Proof.
  assert (A : 0 <= tsc_per_ms demo_intc * 20 < W64) by (by vm_compute). refine (conj A _).
  apply (delay_waits 20 demo_intc); [exact A|]. unfold reaches. cbn [tsc_ticks demo_clocks demo_intc io_ports now tsc_per_ms].
  split_and!; [lia|lia|intros; lia|]. exists 30. unfold W64. lia.
Defined.
