(* ===== verification/Mp.v ===== *)
(** * The other processors (kern/dev/acpi, kern/dev/pcpu_mp)

    Probing of the firmware's tables (ACPI, with the MP table as fallback),
    which gives the processors and the I/O APICs of the machine, the
    identification of a processor and the start of the others.  The tables
    are bytes of physical memory. *)

From stdpp Require Import base gmap list numbers.
From S2P Require Import Prelude Lock Pmmap Pmm Container Mem Vmm Str Thread Seg Apic.
Import PCPUIntro.

(** ** ACPI tables (acpi.c) *)
Definition ACPI_RSDP_SIG1 : Z := 541348690.
Definition ACPI_RSDP_SIG2 : Z := 542266448.
Definition ACPI_RSDT_SIG : Z := 1413763922.
Definition ACPI_XSDT_SIG : Z := 1413763928.
Definition ACPI_MADT_SIG : Z := 1128878145.
Definition sizeof_rsdp : Z := 36.
(** Offsets in the structures. *)
Definition rsdp_rsdt_addr (p : Z) : Z := p + 16.
Definition rsdp_xsdt_addr (p : Z) : Z := p + 24.
Definition sdt_sig (p : Z) : Z := p.
Definition sdt_length (p : Z) : Z := p + 4.
Definition rsdt_ent (p i : Z) : Z := p + 36 + 4 * i.
Definition xsdt_ent (p i : Z) : Z := p + 36 + 8 * i.

Definition ld32 (a : Z) : K mem Z := gets (fun m => load32 m (u32 a)).
Definition ld16 (a : Z) : K mem Z := gets (fun m => load8 m (u32 a) + 256 * load8 m (u32 (a + 1))).
Definition ld8 (a : Z) : K mem Z := gets (fun m => load8 m (u32 a)).

(** The sum of the bytes as an uint8_t; [len] is an int. *)
Definition sum (addr len : Z) : K mem Z :=
  while (fun '(i, sum) =>
    if i <? s32 len then
      b ← ld8 (addr + i);
      sum ← int_add sum b;
      mret (inl (i + 1, sum))
    else mret (inr (sum mod 256))) (0, 0).

Definition acpi_probe_rsdp_aux (addr length : Z) : K mem Z :=
  let e := u32 (addr + length) in
  while (fun p =>
    if p <? e then
      s1 ← ld32 p;
      s2 ← ld32 (p + 4);
      ok ← (if (s1 =? ACPI_RSDP_SIG1) && (s2 =? ACPI_RSDP_SIG2)
            then c ← sum p sizeof_rsdp; mret (c =? 0) else mret false);
      if (ok : bool) then mret (inr p) else mret (inl (u32 (p + 16)))
    else mret (inr 0)) addr.

Definition acpi_probe_rsdp : K mem Z :=
  hi ← ld8 (1024 + 15);
  lo ← ld8 (1024 + 14);
  let p := Z.shiftl (Z.lor (Z.shiftl hi 8) lo) 4 in
  if negb (p =? 0) then
    rsdp ← acpi_probe_rsdp_aux p 1024;
    if negb (rsdp =? 0) then mret rsdp else acpi_probe_rsdp_aux 917504 131071
  else acpi_probe_rsdp_aux 917504 131071.

(** The condition that all tables are checked with. *)
Definition sdt_matches (t sig : Z) : K mem bool :=
  s ← ld32 (sdt_sig t);
  if s =? sig then
    len ← ld32 (sdt_length t);
    c ← sum t len;
    mret (c =? 0)
  else mret false.

Definition acpi_probe_rsdt (rsdp : Z) : K mem Z :=
  kern_assert (negb (rsdp =? 0)) ;;
  rsdt ← ld32 (rsdp_rsdt_addr rsdp);
  if rsdt =? 0 then mret 0
  else ok ← sdt_matches rsdt ACPI_RSDT_SIG; mret (if (ok : bool) then rsdt else 0).

(** The loops over the entries; [i] is the counter and [p] the address that
    is compared with the end. *)
Definition acpi_probe_rsdt_ent (rsdt sig : Z) : K mem Z :=
  kern_assert (negb (rsdt =? 0)) ;;
  len ← ld32 (sdt_length rsdt);
  let e := u32 (rsdt + len) in
  while (fun '(i, p) =>
    if p <? e then
      hdr ← ld32 (rsdt_ent rsdt i);
      ok ← sdt_matches hdr sig;
      if (ok : bool) then mret (inr hdr) else mret (inl (i + 1, u32 (rsdt_ent rsdt (i + 1))))
    else mret (inr 0)) (0, u32 (rsdt_ent rsdt 0)).

Definition acpi_probe_xsdt (rsdp : Z) : K mem Z :=
  kern_assert (negb (rsdp =? 0)) ;;
  xsdt ← ld32 (rsdp_xsdt_addr rsdp);
  if xsdt =? 0 then mret 0
  else ok ← sdt_matches xsdt ACPI_XSDT_SIG; mret (if (ok : bool) then xsdt else 0).

Definition acpi_probe_xsdt_ent (xsdt sig : Z) : K mem Z :=
  kern_assert (negb (xsdt =? 0)) ;;
  len ← ld32 (sdt_length xsdt);
  let e := u32 (xsdt + len) in
  while (fun '(i, p) =>
    if p <? e then
      hdr ← ld32 (xsdt_ent xsdt i);
      ok ← sdt_matches hdr sig;
      if (ok : bool) then mret (inr hdr) else mret (inl (i + 1, u32 (xsdt_ent xsdt (i + 1))))
    else mret (inr 0)) (0, u32 (xsdt_ent xsdt 0)).

(** ** The description of a processor (pcpu_mp_intro.h) *)
Inductive cpu_vendor : Type := UNKNOWN_CPU | INTEL | AMD.
#[global] Instance cpu_vendor_eq_dec : EqDecision cpu_vendor.
Proof. solve_decision. Defined.
Record pcpuinfo : Type := Pcpuinfo {
  pi_lapicid : Z; pi_bsp : bool;
  cpuid_high : Z; vendor : list Z; pi_vendor : cpu_vendor;
  family : Z; model : Z; step : Z; ext_family : Z; ext_model : Z; brand_idx : Z; clflush_size : Z; max_cpu_id : Z;
  apic_id : Z; feature1 : Z; feature2 : Z;
  l1_cache_size : Z; l1_cache_line_size : Z; cpuid_exthigh : Z
}.
#[global] Instance pcpuinfo_inhabited : Inhabited pcpuinfo :=
  populate (Pcpuinfo 0 false 0 [] UNKNOWN_CPU 0 0 0 0 0 0 0 0 0 0 0 0 0 0).

Record mpst : Type := Mpst {
  mth : thr; mic : intc; ncpu : Z; mp_inited : bool; ismp : bool;
  infos : gmap Z pcpuinfo     (* pcpu[i].arch_info *)
}.
Definition l_mth : lens mpst thr := Lens mth (fun x s => Mpst x (mic s) (ncpu s) (mp_inited s) (ismp s) (infos s)).
Definition l_mic : lens mpst intc := Lens mic (fun x s => Mpst (mth s) x (ncpu s) (mp_inited s) (ismp s) (infos s)).
Definition set_ncpu (x : Z) (s : mpst) : mpst := Mpst (mth s) (mic s) x (mp_inited s) (ismp s) (infos s).
Definition set_mp_inited (x : bool) (s : mpst) : mpst := Mpst (mth s) (mic s) (ncpu s) x (ismp s) (infos s).
Definition set_ismp (x : bool) (s : mpst) : mpst := Mpst (mth s) (mic s) (ncpu s) (mp_inited s) x (infos s).
Definition set_infos (x : gmap Z pcpuinfo) (s : mpst) : mpst := Mpst (mth s) (mic s) (ncpu s) (mp_inited s) (ismp s) x.
Definition mmem (s : mpst) : mem := phys (vmst (mth s)).
Definition set_mmem (m : mem) (s : mpst) : mpst :=
  let v := vmst (mth s) in lset l_mth (lset l_vm (Vm (cn v) m (cr0 v) (cr3 v) (cr4 v)) (mth s)) s.
Definition l_mmem : lens mpst mem := Lens mmem set_mmem.
#[global] Instance l_mmem_laws : LensLaws l_mmem.
Proof. by split; intros; [|destruct s as [[[]]]|]. Qed.
#[global] Instance l_mth_laws : LensLaws l_mth.
Proof. by split; intros; [|destruct s|]. Qed.
#[global] Instance l_mic_laws : LensLaws l_mic.
Proof. by split; intros; [|destruct s|]. Qed.

(** Addresses of the code that the other processors start with. *)
Class mp_layout : Type := MpLayout { boot_ap_start : Z; boot_ap_size : Z; kern_init_ap_addr : Z }.

Section mp.
Context `{clocks} `{mp_layout}.

(** ** Identification (pcpu_identify)

    [get_pcpu_arch_info_pointer] gives the entry of the table.  The answer of
    cpuid depends on its arguments only, so that its repetition for leaf 2
    gives the same registers. *)
Definition info_update (i : Z) (f : pcpuinfo -> pcpuinfo) : K mpst unit :=
  check (in_array i NUM_CPUS) ;; modify (fun s => set_infos (<[i := f (infos s !!! i)]> (infos s)) s).
Definition GenuineIntel : list Z := [71; 101; 110; 117; 105; 110; 101; 73; 110; 116; 101; 108].
Definition AuthenticAMD : list Z := [65; 117; 116; 104; 101; 110; 116; 105; 99; 65; 77; 68].
Definition vendor_of (v : list Z) : cpu_vendor :=
  if bool_decide (v = GenuineIntel) then INTEL else if bool_decide (v = AuthenticAMD) then AMD else UNKNOWN_CPU.
(** The table intel_cache_info[0xff][2]. *)
Definition intel_cache_info (d : Z) : Z * Z :=
  if d =? 10 then (8, 32) else if d =? 12 then (16, 32) else if d =? 13 then (16, 64) else if d =? 14 then (24, 64)
  else if d =? 44 then (32, 64) else if d =? 96 then (16, 64) else if d =? 102 then (8, 64) else if d =? 103 then (16, 64)
  else if d =? 104 then (32, 64) else (0, 0).
Definition with_l1 (size line : Z) (i : pcpuinfo) : pcpuinfo :=
  Pcpuinfo (pi_lapicid i) (pi_bsp i) (cpuid_high i) (vendor i) (pi_vendor i) (family i) (model i) (step i) (ext_family i) (ext_model i)
    (brand_idx i) (clflush_size i) (max_cpu_id i) (apic_id i) (feature1 i) (feature2 i) size line (cpuid_exthigh i).
Definition with_exthigh (x : Z) (i : pcpuinfo) : pcpuinfo :=
  Pcpuinfo (pi_lapicid i) (pi_bsp i) (cpuid_high i) (vendor i) (pi_vendor i) (family i) (model i) (step i) (ext_family i) (ext_model i)
    (brand_idx i) (clflush_size i) (max_cpu_id i) (apic_id i) (feature1 i) (feature2 i) (l1_cache_size i) (l1_cache_line_size i) x.

(** The descriptors of leaf 2, every one of which replaces the one before. *)
Definition intel_descriptors (idx : Z) : K mpst unit :=
  let '(eax, ebx, ecx, edx) := cpuid 2 in
  foldr (fun d k =>
    check (in_array d 255) ;;
    info_update idx (with_l1 (intel_cache_info d).1 (intel_cache_info d).2) ;; k) (mret tt)
    (reg_bytes eax ++ reg_bytes ebx ++ reg_bytes ecx ++ reg_bytes edx).
(** The first subleaf of leaf 4 that is a data cache of level 1. *)
Definition intel_l1 (i : Z) : bool :=
  let '(eax, _, _, _) := cpuid_subleaf 4 i in
  (Z.land eax 15 =? 1) && (Z.shiftr (Z.land eax 224) 5 =? 1).
Definition intel_subleaf (idx : Z) : K mpst unit :=
  match filter intel_l1 (seqZ 0 3) with
  | [] => mret tt
  | i :: _ =>
      let '(_, ebx, ecx, _) := cpuid_subleaf 4 i in
      info_update idx (with_l1
        (u32 ((Z.shiftr (Z.land ebx 4290772992) 22 + 1) * (Z.shiftr (Z.land ebx 4190208) 12 + 1) * (Z.land ebx 4095 + 1) * u32 (ecx + 1)) / 1024)
        (Z.land ebx 4095 + 1))
  end.

Definition pcpu_identify (ks : kstack) : K mpst unit :=
  idx ← zoom l_mth (get_pcpu_idx ks);
  let '(high, b0, c0, d0) := cpuid 0 in
  let v := reg_bytes b0 ++ reg_bytes d0 ++ reg_bytes c0 in
  let '(eax, ebx, ecx, edx) := cpuid 1 in
  info_update idx (fun i => Pcpuinfo (pi_lapicid i) (pi_bsp i) high (v ++ [0]) (vendor_of v)
    (Z.land (Z.shiftr eax 8) 15) (Z.land (Z.shiftr eax 4) 15) (Z.land eax 15)
    (Z.land (Z.shiftr eax 20) 255) (Z.land (Z.shiftr eax 16) 255)
    (Z.land ebx 255) (Z.land (Z.shiftr ebx 8) 255) (Z.land (Z.shiftr ebx 16) 255) (Z.land (Z.shiftr ebx 24) 255)
    ecx edx (l1_cache_size i) (l1_cache_line_size i) (cpuid_exthigh i)) ;;
  (match vendor_of v with
   | INTEL =>
       intel_descriptors idx ;;
       s ← get;
       let i := infos s !!! idx in
       if negb (l1_cache_size i =? 0) && negb (l1_cache_line_size i =? 0) then mret tt else intel_subleaf idx
   | AMD =>
       let '(_, _, ecx, _) := cpuid 2147483653 in
       info_update idx (with_l1 (Z.shiftr (Z.land ecx 4278190080) 24) (Z.land ecx 255))
   | UNKNOWN_CPU => info_update idx (with_l1 0 0)
   end) ;;
  let '(ext, _, _, _) := cpuid 2147483648 in
  info_update idx (with_exthigh ext).
Definition pcpu_init_cpu (ks : kstack) : K mpst unit := pcpu_identify ks.

(** ** The processors and I/O APICs of the machine *)
Definition pcpu_mp_init_cpu (idx lapic_id : Z) (is_bsp : bool) : K mpst unit :=
  kern_assert ((is_bsp && (idx =? 0)) || negb is_bsp) ;;
  if NUM_CPUS <=? idx then mret tt
  else info_update idx (fun i =>
    Pcpuinfo lapic_id is_bsp (cpuid_high i) (vendor i) (pi_vendor i) (family i) (model i) (step i) (ext_family i) (ext_model i)
      (brand_idx i) (clflush_size i) (max_cpu_id i) (apic_id i) (feature1 i) (feature2 i) (l1_cache_size i) (l1_cache_line_size i) (cpuid_exthigh i)).
Definition incr_ncpu : K mpst unit := modify (fun s => set_ncpu (u32 (ncpu s + 1)) s).
(** Both methods end with the switch of the IMCR, if it is needed, and the
    copy of the start-up code to 0x8000. *)
Definition imcr_switch : K mpst unit :=
  zoom l_mic (out 34 112 ;; v ← inp 35; out 35 (Z.lor v 1)).
Definition PCPU_AP_START_ADDR : Z := 32768.
Definition copy_boot_ap : K mpst unit :=
  zoom l_mmem (modify (fun m => memmove m 32768 boot_ap_start boot_ap_size)) ;;
  modify (set_mp_inited true).

(** *** The MP table *)
Definition MPPROC : Z := 0.
Definition MPBUS : Z := 1.
Definition MPIOAPIC : Z := 2.
Definition MPIOINTR : Z := 3.
Definition MPLINTR : Z := 4.
Definition MPENAB : Z := 1.
Definition MPBOOT : Z := 2.
Definition sizeof_mp : Z := 16.
Definition sizeof_mpconf : Z := 44.
Definition sizeof_mpproc : Z := 20.
Definition sizeof_mpioapic : Z := 8.

(** memcmp with a literal of four bytes. *)
Definition is_sig (p : Z) (sig : list Z) : K mem bool := gets (fun m => bool_decide (read_bytes m p 4 = sig)).
Definition mpsearch1 (addr len : Z) : K mem Z :=
  let e := u32 (addr + len) in
  while (fun p =>
    if p <? e then
      ok ← is_sig p [95; 77; 80; 95];
      ok ← (if (ok : bool) then c ← sum p sizeof_mp; mret (c =? 0) else mret false);
      if (ok : bool) then mret (inr p) else mret (inl (u32 (p + sizeof_mp)))
    else mret (inr 0)) addr.
Definition mpsearch : K mem Z :=
  hi ← ld8 (1024 + 15);
  lo ← ld8 (1024 + 14);
  let p := Z.shiftl (Z.lor (Z.shiftl hi 8) lo) 4 in
  mp ← (if negb (p =? 0) then mpsearch1 p 1024
        else
          hi ← ld8 (1024 + 20);
          lo ← ld8 (1024 + 19);
          let p := Z.lor (Z.shiftl hi 8) lo * 1024 in
          mpsearch1 (u32 (p - 1024)) 1024);
  if negb (mp =? 0) then mret mp else mpsearch1 983040 65536.
(** The table with the structure that points to it. *)
Definition mpconfig : K mem (option (Z * Z)) :=
  mp ← mpsearch;
  physaddr ← ld32 (mp + 4);
  if (mp =? 0) || (physaddr =? 0) then mret None
  else
    ok ← is_sig physaddr [80; 67; 77; 80];
    if negb ok then mret None
    else
      version ← ld8 (physaddr + 6);
      if negb (version =? 1) && negb (version =? 4) then mret None
      else
        length ← ld16 (physaddr + 4);
        c ← sum physaddr length;
        if negb (c =? 0) then mret None else mret (Some (mp, physaddr)).

(** One round of the loop over the entries; an unknown entry leaves [p]
    where it is. *)
Definition mp_entry (e : Z) (x : Z * Z) : K mpst (Z * Z + unit) :=
  let '(p, ap_idx) := x in
  if p <? e then
    ty ← zoom l_mmem (ld8 p);
    if ty =? MPPROC then
      flags ← zoom l_mmem (ld8 (p + 3));
      apicid ← zoom l_mmem (ld8 (p + 1));
      let p := u32 (p + sizeof_mpproc) in
      if Z.land flags MPENAB =? 0 then mret (inl (p, ap_idx))
      else if negb (Z.land flags MPBOOT =? 0) then
        pcpu_mp_init_cpu 0 apicid true ;;
        incr_ncpu ;;
        mret (inl (p, ap_idx))
      else
        pcpu_mp_init_cpu ap_idx apicid false ;;
        incr_ncpu ;;
        mret (inl (p, u32 (ap_idx + 1)))
    else if ty =? MPIOAPIC then
      addr ← zoom l_mmem (ld32 (p + 4));
      apicno ← zoom l_mmem (ld8 (p + 1));
      zoom (lens_comp l_mic l_io) (ioapic_register addr apicno 0) ;;
      mret (inl (u32 (p + sizeof_mpioapic), ap_idx))
    else if (ty =? MPBUS) || (ty =? MPIOINTR) || (ty =? MPLINTR) then mret (inl (u32 (p + 8), ap_idx))
    else mret (inl (p, ap_idx))
  else mret (inr tt).
Definition mp_init_fallback : K mpst bool :=
  s ← get;
  if mp_inited s then mret true
  else
    r ← zoom l_mmem mpconfig;
    match r with
    | None => mret false
    | Some (mp, conf) =>
        modify (set_ismp true) ;;
        modify (set_ncpu 0) ;;
        lapicaddr ← zoom l_mmem (ld32 (conf + 36));
        zoom l_mic (lapic_register lapicaddr) ;;
        length ← zoom l_mmem (ld16 (conf + 4));
        while (mp_entry (u32 (conf + length))) (u32 (conf + sizeof_mpconf), 1) ;;
        imcrp ← zoom l_mmem (ld8 (mp + 12));
        (if negb (imcrp =? 0) then imcr_switch else mret tt) ;;
        copy_boot_ap ;;
        mret true
    end.

(** *** The MADT *)
Definition ACPI_MADT_APIC_LAPIC : Z := 0.
Definition ACPI_MADT_APIC_IOAPIC : Z := 1.
Definition ACPI_APIC_ENABLED : Z := 1.
Definition APIC_MADT_PCAT_COMPAT : Z := 1.
Definition madt_lapic_addr (p : Z) : Z := p + 36.
Definition madt_flags (p : Z) : Z := p + 40.
Definition madt_ent (p : Z) : Z := p + 44.

(** One round of the loop over the entries, with the index of the next
    processor and whether the first one was found. *)
Definition madt_entry (e : Z) (x : Z * Z * bool) : K mpst (Z * Z * bool + unit) :=
  let '(p, ap_idx, found_bsp) := x in
  if p <? e then
    ty ← zoom l_mmem (ld8 p);
    r ← (if ty =? ACPI_MADT_APIC_LAPIC then
           flags ← zoom l_mmem (ld32 (p + 4));
           if Z.land flags ACPI_APIC_ENABLED =? 0 then mret (ap_idx, found_bsp)
           else
             id ← zoom l_mmem (ld8 (p + 3));
             r ← (if negb found_bsp then pcpu_mp_init_cpu 0 id true ;; mret (ap_idx, true)
                  else pcpu_mp_init_cpu ap_idx id false ;; mret (u32 (ap_idx + 1), true));
             incr_ncpu ;;
             mret r
         else if ty =? ACPI_MADT_APIC_IOAPIC then
           addr ← zoom l_mmem (ld32 (p + 4));
           id ← zoom l_mmem (ld8 (p + 2));
           g ← zoom l_mmem (ld32 (p + 8));
           zoom (lens_comp l_mic l_io) (ioapic_register addr id g) ;;
           mret (ap_idx, found_bsp)
         else mret (ap_idx, found_bsp));
    len ← zoom l_mmem (ld8 (p + 1));
    mret (inl (u32 (p + len), r.1, r.2))
  else mret (inr tt).
Definition mp_fallback : K mpst bool :=
  ok ← mp_init_fallback;
  if (ok : bool) then mret true
  else
    modify (set_ismp false) ;;
    modify (set_ncpu 1) ;;
    mret false.
(** The table of the processors, from the root table. *)
Definition probe_madt (rsdp : Z) : K mem Z :=
  xsdt ← acpi_probe_xsdt rsdp;
  if negb (xsdt =? 0) then acpi_probe_xsdt_ent xsdt ACPI_MADT_SIG
  else
    rsdt ← acpi_probe_rsdt rsdp;
    if rsdt =? 0 then mret 0 else acpi_probe_rsdt_ent rsdt ACPI_MADT_SIG.
(** The rest of pcpu_mp_init, when the table is found. *)
Definition parse_madt (madt : Z) : K mpst bool :=
  modify (set_ismp true) ;;
  lapic_addr ← zoom l_mmem (ld32 (madt_lapic_addr madt));
  zoom l_mic (lapic_register lapic_addr) ;;
  modify (set_ncpu 0) ;;
  length ← zoom l_mmem (ld32 (sdt_length madt));
  while (madt_entry (u32 (madt + length))) (u32 (madt_ent madt), 1, false) ;;
  flags ← zoom l_mmem (ld32 (madt_flags madt));
  (if Z.land flags APIC_MADT_PCAT_COMPAT =? 0 then imcr_switch else mret tt) ;;
  copy_boot_ap ;;
  mret true.
Definition pcpu_mp_init : K mpst bool :=
  s ← get;
  if mp_inited s then mret true
  else
    rsdp ← zoom l_mmem acpi_probe_rsdp;
    if rsdp =? 0 then mp_fallback
    else
      madt ← zoom l_mmem (probe_madt rsdp);
      if madt =? 0 then mp_fallback
      else
        parse_madt madt.

Definition pcpu_ncpu : K mpst Z := gets ncpu.
Definition pcpu_is_smp : K mpst bool := gets ismp.
(** The table has NUM_CPUS entries, the assertion allows [ncpu]. *)
Definition pcpu_cpu_lapicid (i : Z) : K mpst Z :=
  s ← get;
  kern_assert ((0 <=? i) && (i <? ncpu s)) ;;
  check (in_array i NUM_CPUS) ;;
  mret (pi_lapicid (infos s !!! i) mod 256).
Definition pcpu_onboot (ks : kstack) : K mpst bool :=
  idx ← zoom l_mth (get_pcpu_idx ks);
  s ← get;
  check (in_array idx NUM_CPUS) ;;
  mret (if mp_inited s then pi_bsp (infos s !!! idx) else idx =? 0).

(** intr_enable (intr.c). *)
Definition intr_enable (irq cpunum : Z) : K mpst unit :=
  n ← pcpu_ncpu;
  kern_assert ((cpunum =? 255) || ((0 <=? cpunum) && (cpunum <? n))) ;;
  if 24 <=? irq then mret tt
  else
    apic ← gets (fun s => using_apic (mic s));
    if (apic : bool) then
      id ← (if cpunum =? 255 then mret 255 else pcpu_cpu_lapicid cpunum);
      zoom (lens_comp l_mic l_io) (ioapic_enable irq id 0 0)
    else kern_assert (irq <? 16) ;; zoom l_mic (pic_enable irq).

(** pcpu_init (PCPUInit.c); [ksp] is the address of the boot stack of the
    processor, and pcpu_set_zero clears the descriptions too. *)
Definition pcpu_init (ks : kstack) (ksp : Z) : K mpst unit :=
  let cpu_idx := get_kstack_cpu_idx ks in
  let rest :=
    zoom l_mth (set_pcpu_idx cpu_idx cpu_idx) ;;
    zoom l_mth (set_pcpu_kstack_pointer cpu_idx ksp) ;;
    zoom l_mth (set_pcpu_boot_info cpu_idx true) ;;
    pcpu_init_cpu ks in
  if cpu_idx =? 0 then
    done ← gets (fun s => pcpu_inited (mth s));
    if (done : bool) then mret tt
    else
      zoom l_mth pcpu_set_zero ;;
      modify (set_infos ∅) ;;
      pcpu_mp_init ;;
      zoom l_mth (for_range 0 NUM_CPUS pcpu_fields_init) ;;
      zoom l_mth (modify (set_pcpu_inited true)) ;;
      rest
  else rest.

(** The start of a processor; [started] is what it does until its flag is
    read, which the loop waits for. *)
Definition pcpu_boot_ap (ks : kstack) (started : K mpst unit) (i f stack_addr : Z) : K mpst Z :=
  n ← pcpu_ncpu;
  kern_assert ((0 <? i) && (i <? n)) ;;
  ok ← zoom l_mth (get_pcpu_inited_info i);
  kern_assert ok ;;
  kern_assert (negb (f =? 0)) ;;
  onboot ← pcpu_onboot ks;
  if negb onboot then mret 1
  else
    done ← zoom l_mth (get_pcpu_boot_info i);
    if (done : bool) then mret 0
    else
      zoom l_mmem (modify (fun m => store32 m (PCPU_AP_START_ADDR - 4) (u32 (stack_addr + 4096)))) ;;
      zoom l_mmem (modify (fun m => store32 m (PCPU_AP_START_ADDR - 8) f)) ;;
      zoom l_mmem (modify (fun m => store32 m (PCPU_AP_START_ADDR - 12) kern_init_ap_addr)) ;;
      id ← pcpu_cpu_lapicid i;
      s ← get;
      m ← zoom l_mic (lapic_startcpu id PCPU_AP_START_ADDR (mmem s));
      zoom l_mmem (put m) ;;
      started ;;
      booted ← zoom l_mth (get_pcpu_boot_info i);
      (if (booted : bool) then mret tt else spin) ;;
      mret 0.
End mp.
