(* ===== verification/MpSpec.v ===== *)
(** * What the probing of the firmware's tables finds

    The searches for a table are equal to reference definitions on lists of
    candidates, and the machine that pcpu_mp_init describes to the rest of
    the kernel is the one that the entries of the MADT describe. *)

From stdpp Require Import base gmap list numbers.
From S2P Require Import Prelude Lock Pmmap Pmm Container Mem Vmm Str Thread Seg Apic ApicSpec Mp.
Import PCPUIntro.

(** ** Sums and searches *)

Definition byte_sum (m : mem) (a n : Z) : Z := zsum_nat (fun i => load8 m (u32 (a + i))) (Z.to_nat n).
Lemma byte_sum_zsum m a n : byte_sum m a n = zsum (fun i => load8 m (u32 (a + i))) n.
Proof. by unseal_zsum. Qed.
Lemma byte_sum_range m a n : mem_ok m -> 0 <= n -> 0 <= byte_sum m a n <= 255 * n.
Proof.
  intros Hm Hn. rewrite byte_sum_zsum. split; [apply zsum_nonneg; intros; apply Hm|]. rewrite <- zsum_const by done. apply zsum_le. intros i _. pose proof (Hm (u32 (a + i))). lia.
Qed.
(** A table may have up to 8421504 bytes before the int of sum overflows. *)
Definition MAX_SUM : Z := 8421504.
Lemma sum_wp a n m : mem_ok m -> 0 <= n <= MAX_SUM -> wp (sum a n) (fun r m' => r = byte_sum m a n mod 256 /\ m' = m) m.
Proof.
  intros Hm Hn. unfold MAX_SUM in *. unfold sum.
  eapply (wp_while _ (fun '(i, x) m' => 0 <= i <= n /\ x = byte_sum m a i /\ m' = m) (fun '(i, _) _ => n - i)).
  - intros [i x] m' (Hi & -> & ->) _. rewrite s32_small by lia. destruct (Z.ltb_spec i n).
    + wp_step. unfold ld8. do 2 wp_step. pose proof (byte_sum_range m a i Hm ltac:(lia)). pose proof (Hm (u32 (a + i))).
      unfold int_add. do 4 wp_step. split; [|lia]. split_and!; [lia|lia| |done]. rewrite !byte_sum_zsum. by rewrite zsum_succ by lia.
    + wp_step. by replace i with n by lia.
  - split_and!; [lia|lia| |done]. by rewrite byte_sum_zsum, zsum_0.
  - lia.
Qed.

(** The first of a list of candidates that passes a test, 0 if none does. *)
Fixpoint first (ok : Z -> bool) (l : list Z) : Z :=
  match l with [] => 0 | x :: l => if ok x then x else first ok l end.

Definition rsdp_ok (m : mem) (p : Z) : bool :=
  (load32 m p =? ACPI_RSDP_SIG1) && (load32 m (u32 (p + 4)) =? ACPI_RSDP_SIG2) && (byte_sum m p sizeof_rsdp mod 256 =? 0).
(** The addresses [addr], [addr + step] and so on below [e]. *)
Definition candidates (addr step n : Z) : list Z := (fun k => addr + step * k) <$> seqZ 0 n.
Lemma candidates_cons addr step n : 0 < n -> candidates addr step n = addr :: candidates (addr + step) step (n - 1).
Proof.
  intros Hn. unfold candidates. rewrite seqZ_cons by lia. cbn. f_equal; [lia|]. replace (Z.succ 0) with 1 by lia. replace (Z.pred n) with (n - 1) by lia.
  apply list_eq. intros i. rewrite !list_lookup_fmap. destruct (decide (Z.of_nat i < n - 1)).
  - rewrite !lookup_seqZ_lt by lia. cbn. f_equal. lia.
  - by rewrite !lookup_seqZ_ge by lia.
Qed.
Lemma candidates_nil addr step n : n <= 0 -> candidates addr step n = [].
Proof. intros Hn. unfold candidates. by rewrite seqZ_nil. Qed.

(** The loops of acpi.c and pcpu_mp.c that look at every 16th address. *)
Lemma search_wp (body : Z -> K mem (Z + Z)) (ok : Z -> bool) m addr n :
  0 <= addr -> 0 <= n -> addr + 16 * n < W32 ->
  (forall k, 0 <= k < n -> let p := addr + 16 * k in wp (body p) (fun r m' => r = (if ok p then inr p else inl (u32 (p + 16))) /\ m' = m) m) ->
  wp (body (addr + 16 * n)) (fun r m' => r = inr 0 /\ m' = m) m ->
  wp (while body addr) (fun r m' => r = first ok (candidates addr 16 n) /\ m' = m) m.
Proof.
  intros Ha Hn Hw Hbody Hend.
  eapply (wp_while _ (fun p m' => exists k, 0 <= k <= n /\ p = addr + 16 * k /\ m' = m /\
     first ok (candidates p 16 (n - k)) = first ok (candidates addr 16 n)) (fun p _ => addr + 16 * n - p)); [| |unfold W32 in Hw; lia].
  - intros p m' (k & Hk & -> & -> & Hf) _. destruct (decide (k = n)) as [->|Hne].
    + eapply wp_mono; [exact Hend|]. intros r m' [-> ->]. split; [|done]. rewrite <- Hf. by rewrite candidates_nil by lia.
    + eapply wp_mono; [apply Hbody; lia|]. intros r m' [-> ->]. rewrite candidates_cons in Hf by lia. cbn [first] in Hf.
      destruct (ok (addr + 16 * k)); [by rewrite Hf|]. rewrite u32_small by lia. split; [|lia]. exists (k + 1). split_and!; [lia|lia|lia|done|].
      rewrite <- Hf. f_equal. f_equal; lia.
  - exists 0. split_and!; [lia|lia|lia|done|]. f_equal. f_equal. lia.
Qed.

Lemma first_app ok l l' : (forall x, x ∈ l -> x <> 0) -> first ok (l ++ l') = if first ok l =? 0 then first ok l' else first ok l.
Proof.
  induction l as [|x l IH]; intros Hx; [done|]. cbn [app first]. destruct (ok x).
  - rewrite (proj2 (Z.eqb_neq x 0)); [done|]. apply Hx. left.
  - apply IH. intros y Hy. apply Hx. by right.
Qed.
Lemma candidates_pos addr step n x : 0 < addr -> 0 <= step -> x ∈ candidates addr step n -> x <> 0.
Proof. intros Ha Hs. unfold candidates. rewrite list_elem_of_fmap. intros (k & -> & [Hk _]%elem_of_seqZ). nia. Qed.

(** ** The root pointer *)

Lemma rsdp_aux_wp addr len m : mem_ok m -> 0 <= addr -> 0 <= len -> addr + len + 16 < W32 ->
  wp (acpi_probe_rsdp_aux addr len) (fun r m' => r = first (rsdp_ok m) (candidates addr 16 ((len + 15) / 16)) /\ m' = m) m.
Proof.
  intros Hm Ha Hl Hw. unfold acpi_probe_rsdp_aux. rewrite (u32_small (addr + len)) by lia.
  assert (Hn : len <= 16 * ((len + 15) / 16) < len + 16) by zdiv.
  apply search_wp; [lia|lia|lia| |].
  - intros k Hk p. assert (Hp : addr <= p < addr + len) by (unfold p; zdiv). clearbody p. rewrite (proj2 (Z.ltb_lt p (addr + len))) by lia. unfold ld32. do 4 wp_step. rewrite (u32_small p) by lia.
    unfold rsdp_ok. destruct (load32 m p =? ACPI_RSDP_SIG1), (load32 m (u32 (p + 4)) =? ACPI_RSDP_SIG2); cbn [andb]; try (do 3 wp_step; done).
    wp_step. wp_step. eapply wp_mono; [apply sum_wp; [done|by vm_compute]|]. intros c m' [-> ->]. wp_step. by destruct (_ =? 0); wp_step.
  - rewrite (proj2 (Z.ltb_ge _ _)) by lia. by wp_step.
Qed.

(** The segment of the extended BIOS data area, from the BIOS data area. *)
Definition ebda (m : mem) : Z := 16 * (256 * load8 m 1039 + load8 m 1038).
Definition rsdp_of (m : mem) : Z :=
  first (rsdp_ok m) ((if ebda m =? 0 then [] else candidates (ebda m) 16 64) ++ candidates 917504 16 8192).
Lemma ebda_shift m : mem_ok m -> Z.shiftl (Z.lor (Z.shiftl (load8 m (u32 (1024 + 15))) 8) (load8 m (u32 (1024 + 14)))) 4 = ebda m.
Proof.
  intros Hm. change (u32 (1024 + 15)) with 1039. change (u32 (1024 + 14)) with 1038. rewrite lor_shiftl by (try apply Hm; done).
  rewrite Z.shiftl_mul_pow2 by done. unfold ebda. lia.
Qed.
Lemma acpi_probe_rsdp_wp m : mem_ok m -> wp acpi_probe_rsdp (fun r m' => r = rsdp_of m /\ m' = m) m.
Proof.
  intros Hm. unfold acpi_probe_rsdp, ld8. do 4 wp_step. rewrite (ebda_shift m Hm). unfold rsdp_of. pose proof (Hm 1039). pose proof (Hm 1038).
  assert (Hrest : forall m', m' = m -> wp (acpi_probe_rsdp_aux 917504 131071) (fun r m' => r = first (rsdp_ok m) (candidates 917504 16 8192) /\ m' = m) m').
  { intros m' ->. by apply (rsdp_aux_wp 917504 131071 m Hm). }
  destruct (Z.eqb_spec (ebda m) 0) as [E|E]; cbn [negb app]; [by apply Hrest|].
  assert (0 <= ebda m < 2000000) by (unfold ebda; lia).
  wp_step. eapply wp_mono; [apply (rsdp_aux_wp (ebda m) 1024 m Hm); [lia|lia|unfold W32; lia]|]. change ((1024 + 15) / 16) with 64.
  intros r m' [-> ->]. rewrite first_app by (intros x; apply candidates_pos; lia).
  destruct (_ =? 0) eqn:E0; cbn [negb]; [by apply Hrest|by wp_step].
Qed.

(** ** The tables *)

Definition sdt_ok (m : mem) (sig t : Z) : bool :=
  (load32 m (u32 t) =? sig) && (byte_sum m t (load32 m (u32 (t + 4))) mod 256 =? 0).
(** Small enough to be summed, if it is a table at all. *)
Definition sized (m : mem) (sig t : Z) : Prop := load32 m (u32 t) = sig -> load32 m (u32 (t + 4)) <= MAX_SUM.
Lemma sdt_matches_wp t sig m : mem_ok m -> sized m sig t -> wp (sdt_matches t sig) (fun r m' => r = sdt_ok m sig t /\ m' = m) m.
Proof.
  intros Hm Hs. unfold sdt_matches, ld32, sdt_sig, sdt_length, sdt_ok. do 2 wp_step.
  destruct (Z.eqb_spec (load32 m (u32 t)) sig) as [E|E]; cbn [andb]; [|by wp_step]. do 3 wp_step.
  eapply wp_mono; [apply sum_wp; [done|]|].
  - pose proof (load32_range m (u32 (t + 4)) Hm) as [? ?]. split; [done|by apply Hs].
  - intros c m' [-> ->]. by wp_step.
Qed.

(** The entries of a root table of [len] bytes at [t]. *)
Definition entries (m : mem) (t step len : Z) : list Z := (fun a => load32 m a) <$> candidates (t + 36) step ((len - 36 + step - 1) / step).
Lemma entry_search_wp (ent : Z -> Z) m t step len sig :
  mem_ok m -> 0 <= t -> 0 < step <= 8 -> 36 <= len -> t + len + 16 < W32 -> (forall i, ent i = t + 36 + step * i) ->
  Forall (sized m sig) (entries m t step len) ->
  wp (while (fun '(i, p) =>
    if p <? t + len then
      hdr ← ld32 (ent i);
      ok ← sdt_matches hdr sig;
      if (ok : bool) then mret (inr hdr) else mret (inl (i + 1, u32 (ent (i + 1))))
    else mret (inr 0)) (0, u32 (ent 0))) (fun r m' => r = first (sdt_ok m sig) (entries m t step len) /\ m' = m) m.
Proof.
  intros Hm Ht Hst Hlen Hw He Hs. set (n := (len - 36 + step - 1) / step).
  assert (Hn : len - 36 <= step * n < len - 36 + step).
  { unfold n. pose proof (Z.div_mod (len - 36 + step - 1) step ltac:(lia)). pose proof (Z.mod_pos_bound (len - 36 + step - 1) step ltac:(lia)). lia. }
  assert (Hn0 : 0 <= n) by nia.
  eapply (wp_while _ (fun '(i, p) m' => 0 <= i <= n /\ p = t + 36 + step * i /\ m' = m /\
     Forall (sized m sig) (load32 m <$> candidates (t + 36 + step * i) step (n - i)) /\
     first (sdt_ok m sig) (load32 m <$> candidates (t + 36 + step * i) step (n - i)) = first (sdt_ok m sig) (entries m t step len)) (fun '(i, _) _ => n - i)).
  - intros [i p] m' (Hi & -> & -> & Hsz & Hf) _. destruct (decide (i = n)) as [->|Hne].
    + rewrite (proj2 (Z.ltb_ge _ _)) by lia. wp_step. split; [|done]. rewrite <- Hf. by rewrite candidates_nil by lia.
    + assert (step * (i + 1) <= step * n) by nia. rewrite (proj2 (Z.ltb_lt _ _)) by lia. wp_step. unfold ld32. wp_step. wp_step. rewrite He, u32_small by lia.
      rewrite candidates_cons in Hf, Hsz by lia. cbn [fmap list_fmap first] in Hf, Hsz. apply Forall_cons in Hsz as [Hsz1 Hsz2].
      eapply wp_mono; [by apply sdt_matches_wp|]. intros ok m' [-> ->].
      destruct (sdt_ok m sig (load32 m (t + 36 + step * i))); wp_step; [by split|]. split; [|lia]. rewrite He, u32_small by lia.
      replace (t + 36 + step * (i + 1)) with (t + 36 + step * i + step) by lia. replace (n - (i + 1)) with (n - i - 1) by lia. by split_and!; [lia|lia|..].
  - rewrite He, u32_small by lia. rewrite Z.mul_0_r, Z.add_0_r, Z.sub_0_r. by split_and!; [lia|lia|..].
  - assert (n < len) by nia. unfold W32 in *. lia.
Qed.

(** ** The MADT *)

Definition xsdt_of (m : mem) (rsdp : Z) : Z := load32 m (u32 (rsdp_xsdt_addr rsdp)).
Definition rsdt_of (m : mem) (rsdp : Z) : Z := load32 m (u32 (rsdp_rsdt_addr rsdp)).
Definition table_len (m : mem) (t : Z) : Z := load32 m (u32 (sdt_length t)).
Definition use_xsdt (m : mem) (rsdp : Z) : bool := negb (xsdt_of m rsdp =? 0) && sdt_ok m ACPI_XSDT_SIG (xsdt_of m rsdp).
Definition use_rsdt (m : mem) (rsdp : Z) : bool := negb (rsdt_of m rsdp =? 0) && sdt_ok m ACPI_RSDT_SIG (rsdt_of m rsdp).
(** The tables that the root table lists: that of version 2 if it is valid,
    that of version 1 otherwise. *)
Definition root_entries (m : mem) (rsdp : Z) : list Z :=
  if use_xsdt m rsdp then entries m (xsdt_of m rsdp) 8 (table_len m (xsdt_of m rsdp))
  else if use_rsdt m rsdp then entries m (rsdt_of m rsdp) 4 (table_len m (rsdt_of m rsdp)) else [].
Definition find_madt (m : mem) (rsdp : Z) : Z := first (sdt_ok m ACPI_MADT_SIG) (root_entries m rsdp).
(** Tables lie in the address space and are small enough to be summed. *)
Definition fits (m : mem) (t : Z) : Prop := 36 <= table_len m t /\ t + table_len m t + 16 < W32.
Record acpi_ok (m : mem) (rsdp : Z) : Prop := {
  xsdt_sized : sized m ACPI_XSDT_SIG (xsdt_of m rsdp);
  rsdt_sized : sized m ACPI_RSDT_SIG (rsdt_of m rsdp);
  xsdt_fits : use_xsdt m rsdp = true -> fits m (xsdt_of m rsdp);
  rsdt_fits : use_rsdt m rsdp = true -> fits m (rsdt_of m rsdp);
  ents_sized : Forall (sized m ACPI_MADT_SIG) (root_entries m rsdp)
}.

Lemma acpi_probe_xsdt_wp rsdp m : mem_ok m -> rsdp <> 0 -> sized m ACPI_XSDT_SIG (xsdt_of m rsdp) ->
  wp (acpi_probe_xsdt rsdp) (fun r m' => r = (if use_xsdt m rsdp then xsdt_of m rsdp else 0) /\ m' = m) m.
Proof.
  intros Hm Hr Hs. unfold acpi_probe_xsdt. wp_step. wp_step. wp_step. unfold ld32. wp_step. fold (xsdt_of m rsdp). unfold use_xsdt.
  destruct (xsdt_of m rsdp =? 0); cbn [negb andb]; [by wp_step|]. wp_step. eapply wp_mono; [by apply sdt_matches_wp|]. intros ok m' [-> ->]. by wp_step.
Qed.
Lemma acpi_probe_rsdt_wp rsdp m : mem_ok m -> rsdp <> 0 -> sized m ACPI_RSDT_SIG (rsdt_of m rsdp) ->
  wp (acpi_probe_rsdt rsdp) (fun r m' => r = (if use_rsdt m rsdp then rsdt_of m rsdp else 0) /\ m' = m) m.
Proof.
  intros Hm Hr Hs. unfold acpi_probe_rsdt. wp_step. wp_step. wp_step. unfold ld32. wp_step. fold (rsdt_of m rsdp). unfold use_rsdt.
  destruct (rsdt_of m rsdp =? 0); cbn [negb andb]; [by wp_step|]. wp_step. eapply wp_mono; [by apply sdt_matches_wp|]. intros ok m' [-> ->]. by wp_step.
Qed.
Lemma probe_madt_wp rsdp m : mem_ok m -> rsdp <> 0 -> acpi_ok m rsdp ->
  wp (probe_madt rsdp) (fun r m' => r = find_madt m rsdp /\ m' = m) m.
Proof.
  intros Hm Hr [S1 S2 F1 F2 He]. unfold probe_madt, find_madt, root_entries in *. wp_step. eapply wp_mono; [by apply acpi_probe_xsdt_wp|]. intros r m' [-> ->].
  destruct (use_xsdt m rsdp) eqn:Ex.
  - destruct (F1 eq_refl) as [Hl Hw]. assert (Hx : xsdt_of m rsdp <> 0) by (intros E; unfold use_xsdt in Ex; by rewrite E in Ex).
    rewrite (proj2 (Z.eqb_neq _ 0) Hx). cbn [negb]. unfold acpi_probe_xsdt_ent. wp_step. wp_step. wp_step. unfold ld32 at 1. wp_step. fold (table_len m (xsdt_of m rsdp)).
    pose proof (load32_range m (u32 (rsdp_xsdt_addr rsdp)) Hm) as Hrg. fold (xsdt_of m rsdp) in Hrg. unfold is_u32 in Hrg.
    rewrite u32_small by lia. apply (entry_search_wp (xsdt_ent (xsdt_of m rsdp))); [done|lia|lia|done|done|done|done].
  - change (negb (0 =? 0)) with false. cbv iota. wp_step. eapply wp_mono; [by apply acpi_probe_rsdt_wp|]. intros r m' [-> ->]. destruct (use_rsdt m rsdp) eqn:Er.
    + destruct (F2 eq_refl) as [Hl Hw]. assert (Hx : rsdt_of m rsdp <> 0) by (intros E; unfold use_rsdt in Er; by rewrite E in Er).
      rewrite (proj2 (Z.eqb_neq _ 0) Hx). unfold acpi_probe_rsdt_ent. wp_step. wp_step. wp_step. unfold ld32 at 1. wp_step. fold (table_len m (rsdt_of m rsdp)).
      pose proof (load32_range m (u32 (rsdp_rsdt_addr rsdp)) Hm) as Hrg. fold (rsdt_of m rsdp) in Hrg. unfold is_u32 in Hrg.
      rewrite u32_small by lia. apply (entry_search_wp (rsdt_ent (rsdt_of m rsdp))); [done|lia|lia|done|done|done|done].
    + change (0 =? 0) with true. cbv iota. by wp_step.
Qed.

(** *** Its entries *)
Inductive madt_item : Type :=
| Processor (id : Z) (enabled : bool)
| Io_apic (id addr g : Z)
| Other_item.
Definition item (m : mem) (p : Z) : madt_item :=
  if load8 m p =? 0 then Processor (load8 m (u32 (p + 3))) (negb (Z.land (load32 m (u32 (p + 4))) 1 =? 0))
  else if load8 m p =? 1 then Io_apic (load8 m (u32 (p + 2))) (load32 m (u32 (p + 4))) (load32 m (u32 (p + 8)))
  else Other_item.
(** The bytes from [p] up to [e] are the entries [l], none of length zero. *)
Inductive madt_at (m : mem) (e : Z) : Z -> list madt_item -> Prop :=
| madt_end p : e <= p -> madt_at m e p []
| madt_cons p l : p < e -> 0 < load8 m (u32 (p + 1)) -> p + load8 m (u32 (p + 1)) < W32 ->
    madt_at m e (p + load8 m (u32 (p + 1))) l -> madt_at m e p (item m p :: l).
Definition cpu_id (x : madt_item) : option Z := match x with Processor id true => Some id | _ => None end.
Definition io_id_of (x : madt_item) : option (Z * Z * Z) := match x with Io_apic id addr g => Some (id, addr, g) | _ => None end.
Definition processors (l : list madt_item) : list Z := omap cpu_id l.
Definition io_apics (l : list madt_item) : list (Z * Z * Z) := omap io_id_of l.

(** What the kernel knows of the machine: the processors in the order of the
    table, the first of them the boot processor, as many as it has room for;
    the I/O APICs likewise. *)
Definition cpus_are (s : mpst) (ids : list Z) : Prop :=
  ncpu s = Z.of_nat (length ids) /\
  forall i id, ids !! i = Some id -> Z.of_nat i < NUM_CPUS ->
    pi_lapicid (infos s !!! Z.of_nat i) = id /\ pi_bsp (infos s !!! Z.of_nat i) = bool_decide (i = 0%nat).
Definition ioapics_are (i : ioapics_t) (ios : list (Z * Z * Z)) : Prop :=
  ioapic_num i = Z.min MAX_IOAPIC (Z.of_nat (length ios)) /\
  forall k id addr g, ios !! k = Some (id, addr, g) -> Z.of_nat k < MAX_IOAPIC ->
    ioapics i !!! Z.of_nat k = addr /\ ioapicid i !!! Z.of_nat k = id /\ gsi i !!! Z.of_nat k = s32 g.

Section madt.
Context `{clocks} `{mp_layout}.

Lemma info_update_wp i f s (Q : unit -> mpst -> Prop) : 0 <= i < NUM_CPUS ->
  Q tt (set_infos (<[i := f (infos s !!! i)]> (infos s)) s) -> wp (info_update i f) Q s.
Proof. intros Hi HQ. unfold info_update. wp_step. wp_step. by wp_step. Qed.

(** A processor more. *)
Lemma cpus_more s ids id info : cpus_are s ids -> pi_lapicid info = id -> pi_bsp info = bool_decide (ids = []) ->
  Z.of_nat (length ids) < NUM_CPUS ->
  forall i id', (ids ++ [id]) !! i = Some id' -> Z.of_nat i < NUM_CPUS ->
    let infos' := <[Z.of_nat (length ids) := info]> (infos s) in
    pi_lapicid (infos' !!! Z.of_nat i) = id' /\ pi_bsp (infos' !!! Z.of_nat i) = bool_decide (i = 0%nat).
Proof.
  intros [_ Hc] Hid Hb Hl i id' Hi Hn infos'. unfold infos'. apply lookup_app_Some in Hi as [Hi|[Hge Hi]].
  - pose proof (lookup_lt_Some _ _ _ Hi). rewrite lookup_total_insert_ne by lia. by apply Hc.
  - apply list_lookup_singleton_Some in Hi as [Hi ->]. assert (i = length ids) as -> by lia. rewrite lookup_total_insert_eq.
    split; [done|]. rewrite Hb. apply bool_decide_ext. by destruct ids.
Qed.
Lemma add_cpu_wp s ids id idx b : cpus_are s ids -> Z.of_nat (length ids) + 1 < W32 ->
  idx = Z.of_nat (length ids) -> b = bool_decide (ids = []) ->
  wp (pcpu_mp_init_cpu idx id b ;; incr_ncpu) (fun _ s' => cpus_are s' (ids ++ [id]) /\ mth s' = mth s /\ mic s' = mic s /\
    ismp s' = ismp s /\ mp_inited s' = mp_inited s) s.
Proof.
  intros Hc Hw -> ->. unfold pcpu_mp_init_cpu, incr_ncpu. wp_step. wp_step. wp_step.
  { destruct ids; [by rewrite bool_decide_eq_true_2|by rewrite bool_decide_eq_false_2]. }
  destruct (Z.leb_spec NUM_CPUS (Z.of_nat (length ids))) as [Hge|Hlt].
  - do 2 wp_step. split_and!; [|done..]. destruct Hc as [Hn Hi]. split; cbn [ncpu set_ncpu infos]; [rewrite Hn, length_app, u32_small by lia; cbn; lia|].
    intros i id' Hl Hi'. apply Hi; [|done]. rewrite lookup_app_l in Hl by lia. done.
  - apply info_update_wp; [lia|]. wp_step. split_and!; [|done..]. split; cbn [ncpu set_ncpu infos set_infos].
    + destruct Hc as [Hn _]. rewrite Hn, length_app, u32_small by lia. cbn. lia.
    + intros i id' Hl Hi. by apply (cpus_more s ids id).
Qed.

(** An I/O APIC more; the seventeenth and the ones after it are ignored. *)
Lemma ioapic_register_wp i ios id addr g : ioapics_are i ios -> 0 <= id < 256 ->
  wp (ioapic_register addr id g) (fun _ i' => ioapics_are i' (ios ++ [(id, addr, g)]) /\ iodevs i' = iodevs i) i.
Proof.
  intros [Hn Hi] Hid. unfold ioapic_register, MAX_IOAPIC in *. do 2 wp_step. destruct (Z.leb_spec 16 (ioapic_num i)) as [Hge|Hlt].
  - wp_step. split; [|done]. split; [rewrite Hn, length_app; cbn; unfold MAX_IOAPIC; lia|]. unfold MAX_IOAPIC. intros k id' a' g' Hk Hk16. apply Hi; [|done].
    rewrite lookup_app_l in Hk by lia. done.
  - wp_step. wp_step. wp_step. assert (En : ioapic_num i = Z.of_nat (length ios)) by lia. split; [|done]. split; cbn [ioapic_num]; [rewrite length_app; cbn; unfold MAX_IOAPIC; lia|].
    unfold MAX_IOAPIC. intros k id' a' g' Hk Hk16. cbn [ioapics ioapicid gsi]. apply lookup_app_Some in Hk as [Hk|[Hge Hk]].
    + pose proof (lookup_lt_Some _ _ _ Hk). rewrite !lookup_total_insert_ne by lia. by apply Hi.
    + apply list_lookup_singleton_Some in Hk as [Hk [= <- <- <-]]. replace (Z.of_nat k) with (ioapic_num i) by lia. rewrite !lookup_total_insert_eq.
      split_and!; [done|by apply Z.mod_small|done].
Qed.

(** The loop has read the entries [d] when it is at [p]. *)
Definition same_but_io (s0 s : mpst) : Prop :=
  mth s = mth s0 /\ io_ports (mic s) = io_ports (mic s0) /\ pc (mic s) = pc (mic s0) /\ la (mic s) = la (mic s0) /\
  ismp s = ismp s0 /\ mp_inited s = mp_inited s0 /\ iodevs (io (mic s)) = iodevs (io (mic s0)).
Definition read_items (s0 s : mpst) (d : list madt_item) (x : Z * Z * bool) : Prop :=
  let '(p, ap_idx, found) := x in
  same_but_io s0 s /\ cpus_are s (processors d) /\ ioapics_are (io (mic s)) (io_apics d) /\
  ap_idx = Z.max 1 (Z.of_nat (length (processors d))) /\ found = negb (bool_decide (processors d = [])) /\
  Z.of_nat (length d) <= p.
Lemma processors_length d : (length (processors d) <= length d)%nat.
Proof. induction d as [|x d IH]; [done|]. unfold processors in *. cbn. destruct (cpu_id x); cbn; lia. Qed.
Lemma processors_snoc d x : processors (d ++ [x]) = processors d ++ match cpu_id x with Some id => [id] | None => [] end.
Proof. unfold processors. rewrite omap_app. cbn. by destruct (cpu_id x). Qed.
Lemma io_apics_snoc d x : io_apics (d ++ [x]) = io_apics d ++ match io_id_of x with Some y => [y] | None => [] end.
Proof. unfold io_apics. rewrite omap_app. cbn. by destruct (io_id_of x). Qed.

Lemma wp_bind_inv {St A B} (m : K St A) (f : A -> K St B) Q s : wp (m ≫= f) Q s -> wp m (fun a s' => wp (f a) Q s') s.
Proof. unfold wp, mbind, K_bind. by destruct (m s). Qed.
(** An enabled processor gets the next index, the first one index 0. *)
Lemma new_cpu_wp s ids id : cpus_are s ids -> Z.of_nat (length ids) + 1 < W32 ->
  wp (r ← (if negb (negb (bool_decide (ids = []))) then pcpu_mp_init_cpu 0 id true ;; mret (Z.max 1 (Z.of_nat (length ids)), true)
           else pcpu_mp_init_cpu (Z.max 1 (Z.of_nat (length ids))) id false ;; mret (u32 (Z.max 1 (Z.of_nat (length ids)) + 1), true));
      incr_ncpu ;; mret r)
    (fun r s' => r = (Z.max 1 (Z.of_nat (length (ids ++ [id]))), true) /\ cpus_are s' (ids ++ [id]) /\ mth s' = mth s /\ mic s' = mic s /\
       ismp s' = ismp s /\ mp_inited s' = mp_inited s) s.
Proof.
  intros Hc Hw. rewrite negb_involutive. pose proof (add_cpu_wp s ids id _ _ Hc Hw eq_refl eq_refl) as Ha. apply wp_bind_inv in Ha.
  rewrite length_app. cbn [length]. destruct ids as [|x ids].
  - rewrite bool_decide_eq_true_2 in Ha |- * by done. change (Z.of_nat (length [])) with 0 in Ha. do 2 wp_step. eapply wp_mono; [exact Ha|]. intros [] s1 Hs1. wp_step. wp_step. eapply wp_mono; [exact Hs1|]. intros [] s2 Hs2. by wp_step.
  - rewrite bool_decide_eq_false_2 in Ha |- * by done. replace (Z.max 1 (Z.of_nat (length (x :: ids)))) with (Z.of_nat (length (x :: ids))) by (cbn; lia).
    do 2 wp_step. eapply wp_mono; [exact Ha|]. intros [] s1 Hs1. wp_step. wp_step. eapply wp_mono; [exact Hs1|]. intros [] s2 Hs2. wp_step.
    split; [|done]. f_equal. rewrite u32_small by lia. lia.
Qed.

(** The part of a round that depends on the type of the entry. *)
Lemma madt_entry_wp s0 s m e d p ap found : mem_ok m -> mmem s = m -> e < W32 -> p < e ->
  0 < load8 m (u32 (p + 1)) -> p + load8 m (u32 (p + 1)) < W32 ->
  read_items s0 s d (p, ap, found) ->
  wp (madt_entry e (p, ap, found)) (fun r s' => exists y, r = inl y /\ y.1.1 = p + load8 m (u32 (p + 1)) /\ read_items s0 s' (d ++ [item m p]) y) s.
Proof.
  intros Hm Em He Hp Hlen Hw ((F1 & F2 & F3 & F4 & F5 & F6 & F7) & Hc & Hi & -> & -> & Hd). unfold madt_entry. rewrite (proj2 (Z.ltb_lt p e)) by lia.
  pose proof (processors_length d) as Hpl. unfold ld8, ld32. do 3 wp_step. change (lget l_mmem s) with (mmem s). rewrite Em, (u32_small p) by lia.
  assert (Hset : lset l_mmem m s = s) by (rewrite <- Em; apply (lset_lget (l := l_mmem))). rewrite Hset. wp_step.
  apply (wp_mono _ (fun r s' => same_but_io s0 s' /\ cpus_are s' (processors (d ++ [item m p])) /\ ioapics_are (io (mic s')) (io_apics (d ++ [item m p])) /\
    r.1 = Z.max 1 (Z.of_nat (length (processors (d ++ [item m p])))) /\ r.2 = negb (bool_decide (processors (d ++ [item m p]) = [])))).
  - rewrite processors_snoc, io_apics_snoc. unfold item. destruct (load8 m p =? 0) eqn:E0; [|destruct (load8 m p =? 1) eqn:E1].
    + cbn [cpu_id io_id_of]. rewrite app_nil_r. unfold ACPI_MADT_APIC_LAPIC. rewrite E0. do 3 wp_step. change (lget l_mmem s) with (mmem s). rewrite Em, Hset.
      unfold ACPI_APIC_ENABLED. destruct (Z.land (load32 m (u32 (p + 4))) 1 =? 0); cbn [negb]; [wp_step; rewrite app_nil_r; by split_and!|].
      do 3 wp_step. change (lget l_mmem s) with (mmem s). rewrite Em, Hset. eapply wp_mono; [apply new_cpu_wp; [done|lia]|].
      intros r s' (-> & C' & A1 & A2 & A3 & A4). unfold same_but_io. rewrite A1, A2, A3, A4. split_and!; try done. by destruct (processors d).
    + cbn [cpu_id io_id_of]. rewrite app_nil_r. unfold ACPI_MADT_APIC_LAPIC, ACPI_MADT_APIC_IOAPIC. rewrite E0, E1. do 3 (do 3 wp_step; change (lget l_mmem s) with (mmem s); rewrite Em, Hset).
      do 2 wp_step. eapply wp_mono; [apply ioapic_register_wp; [exact Hi|apply Hm]|]. intros [] i' [Hi' Hd']. wp_step. unfold same_but_io. split_and!; try done. transitivity (iodevs (io (mic s))); [exact Hd'|exact F7].
    + cbn [cpu_id io_id_of]. rewrite !app_nil_r. unfold ACPI_MADT_APIC_LAPIC, ACPI_MADT_APIC_IOAPIC. rewrite E0, E1. wp_step. by split_and!.
  - intros r s' (G1 & G2 & G3 & G4 & G5). do 3 wp_step. change (lget l_mmem s') with (mmem s'). assert (mmem s' = m) as Em'.
    { rewrite <- Em. unfold mmem. destruct G1 as (-> & _). by rewrite F1. }
    rewrite Em'. assert (lset l_mmem m s' = s') as -> by (rewrite <- Em'; apply (lset_lget (l := l_mmem))). rewrite (u32_small (p + _)) by lia.
    wp_step. eexists. split; [done|]. split; [done|]. split_and!; try done. rewrite length_app. cbn. lia.
Qed.

Lemma madt_loop_wp s0 s m e l p : mem_ok m -> mmem s0 = m -> e < W32 -> 0 <= p < W32 -> madt_at m e p l -> read_items s0 s [] (p, 1, false) ->
  wp (while (madt_entry e) (p, 1, false)) (fun _ s' => same_but_io s0 s' /\ cpus_are s' (processors l) /\ ioapics_are (io (mic s')) (io_apics l)) s.
Proof.
  intros Hm Em He Hp Hat Hr.
  eapply (wp_while _ (fun x s1 => exists d r, madt_at m e x.1.1 r /\ d ++ r = l /\ read_items s0 s1 d x) (fun x _ => Z.max 0 (e - x.1.1))).
  - intros [[q ap] found] s1 (d & r & Hat' & El & Hread) _. cbn [fst] in Hat'. inversion Hat' as [q' Hend E1 E2|q' r' Hlt Hpos Hw Hrest E1 E2]; subst q' r.
    + unfold madt_entry. rewrite (proj2 (Z.ltb_ge q e)) by done. wp_step. rewrite app_nil_r in El. subst d. destruct Hread as (A & B & C & _). done.
    + assert (mmem s1 = m) by (destruct Hread as ((A & _) & _); unfold mmem in *; by rewrite A).
      eapply wp_mono; [by apply (madt_entry_wp s0 s1 m e d)|]. intros ? s2 (y & -> & Ey & Hread'). rewrite Ey. cbn [fst]. split; [|lia].
      exists (d ++ [item m q]), r'. split_and!; [done|by rewrite <- app_assoc|done].
  - exists [], l. by split_and!.
  - unfold W32 in *. cbn [fst]. lia.
Qed.

Lemma imcr_switch_wp s :
  wp imcr_switch (fun _ s' => mth s' = mth s /\ io (mic s') = io (mic s) /\ la (mic s') = la (mic s) /\ ncpu s' = ncpu s /\ infos s' = infos s /\
    ismp s' = ismp s /\ Apic.pc (mic s') = Apic.pc (mic s)) s.
Proof. unfold imcr_switch, out, inp, outb, inb. wp_steps. done. Qed.

(** What the probing leaves alone: of the state of the threads all but
    memory, of the controllers the 8259 driver, the I/O APIC devices and the
    state of the local APIC. *)
Definition probed (s s' : mpst) : Prop :=
  mth s' = mth (set_mmem (mmem s') s) /\ Apic.pc (mic s') = Apic.pc (mic s) /\ iodevs (io (mic s')) = iodevs (io (mic s)) /\
  l_busy (la (mic s')) = l_busy (la (mic s)) /\ l_latency (la (mic s')) = l_latency (la (mic s)).

Definition machine_described (m : mem) (madt : Z) (l : list madt_item) (s : mpst) : Prop :=
  mp_inited s = true /\ ismp s = true /\ cpus_are s (processors l) /\ ioapics_are (io (mic s)) (io_apics l) /\
  lapic (la (mic s)) = load32 m (madt + 36) /\ copied m (mmem s) 32768 boot_ap_start boot_ap_size.
Lemma parse_madt_wp s m l madt :
  mmem s = m -> mem_ok m -> ioapic_num (io (mic s)) = 0 -> 0 <= madt ->
  madt + 44 < W32 -> madt + table_len m madt < W32 -> madt_at m (madt + table_len m madt) (madt + 44) l ->
  range 32768 boot_ap_size -> range boot_ap_start boot_ap_size ->
  wp (parse_madt madt) (fun r s' => r = true /\ machine_described m madt l s' /\ probed s s') s.
Proof.
  intros Em Hm Hio Hz Hw1 Hw2 Hat Hb1 Hb2. unfold parse_madt, ld32, lapic_register.
  assert (Hmm : forall s, lset l_mmem (mmem s) s = s) by (intros; apply (lset_lget (l := l_mmem))).
  do 5 wp_step. cbn [lget l_mmem]. rewrite Hmm. do 6 wp_step. do 3 wp_step. cbn [lget l_mmem]. rewrite Hmm.
  match goal with |- wp _ _ ?x => set (s1 := x) end. change (mmem (set_ismp true s)) with (mmem s) in s1. change (mmem s1) with (mmem s). rewrite Em.
  fold (table_len m madt). pose proof (load32_range m (u32 (sdt_length madt)) Hm) as Hl. fold (table_len m madt) in Hl. unfold is_u32 in Hl.
  rewrite (u32_small (madt + table_len m madt)), (u32_small (madt_ent madt)) by (unfold madt_ent; lia). wp_step.
  eapply wp_mono; [apply (madt_loop_wp s1 s1 m _ l); [done|exact Em|done|unfold madt_ent; lia|exact Hat|]|].
  { split_and!; [done|by split|split; [by cbn; rewrite Hio|done]|done|done|cbn; unfold madt_ent; lia]. }
  intros [] s2 ((F1 & F2 & F3 & F4 & F5 & F6 & F7) & Hc & Hi). do 3 wp_step. cbn [lget l_mmem]. rewrite Hmm. wp_step.
  apply (wp_mono _ (fun _ s3 => mth s3 = mth s /\ cpus_are s3 (processors l) /\ ioapics_are (io (mic s3)) (io_apics l) /\ la (mic s3) = la (mic s1) /\ ismp s3 = true /\
    Apic.pc (mic s3) = Apic.pc (mic s) /\ iodevs (io (mic s3)) = iodevs (io (mic s)))).
  { destruct (_ =? 0); [|wp_step; by rewrite F1, F3, F4, F5, F7]. eapply wp_mono; [apply imcr_switch_wp|]. intros [] s3 (A1 & A2 & A3 & A4 & A5 & A6 & A7).
    unfold cpus_are. rewrite A1, A2, A3, A4, A5, A6, A7, F1, F3, F4, F5, F7. done. }
  intros [] s3 (G1 & G2 & G3 & G4 & G5 & G6 & G7). unfold copy_boot_ap. do 5 wp_step. split; [done|]. split; split_and!; try done.
  - change (la (mic s3)) with (la (mic s3)). cbn. rewrite G4. cbn. unfold madt_lapic_addr. by rewrite Em, u32_small by lia.
  - assert (mmem s3 = m) as E3 by (unfold mmem in *; by rewrite G1). cbn. fold (mmem s3). rewrite E3. by apply memmove_copied.
  - cbn. unfold lset, l_mth. cbn. by rewrite G1.
  - cbn. by rewrite G4.
  - cbn. by rewrite G4.
Qed.
Lemma first_nonneg ok l : Forall (fun x => 0 <= x) l -> 0 <= first ok l.
Proof. induction 1 as [|x l Hx Hl IH]; [done|]. cbn. by destruct (ok x). Qed.
Lemma find_madt_nonneg m rsdp : mem_ok m -> 0 <= find_madt m rsdp.
Proof.
  intros Hm. apply first_nonneg. assert (He : forall t step len, Forall (fun x => 0 <= x) (entries m t step len)).
  { intros t step len. unfold entries. apply Forall_fmap, Forall_true. intros a. cbn. by destruct (load32_range m a Hm). }
  unfold root_entries. destruct (use_xsdt m rsdp); [done|]. by destruct (use_rsdt m rsdp).
Qed.

Lemma pcpu_mp_init_wp s m l madt :
  mmem s = m -> mem_ok m -> mp_inited s = false -> ioapic_num (io (mic s)) = 0 ->
  rsdp_of m <> 0 -> acpi_ok m (rsdp_of m) -> find_madt m (rsdp_of m) = madt -> madt <> 0 ->
  madt + 44 < W32 -> madt + table_len m madt < W32 -> madt_at m (madt + table_len m madt) (madt + 44) l ->
  range 32768 boot_ap_size -> range boot_ap_start boot_ap_size ->
  wp pcpu_mp_init (fun r s' => r = true /\ machine_described m madt l s' /\ probed s s') s.
Proof.
  intros Em Hm Hi Hio Hr Hok Hmadt Hm0 Hw1 Hw2 Hat Hb1 Hb2. unfold pcpu_mp_init. do 2 wp_step. rewrite Hi.
  assert (Hmm : forall s, lset l_mmem (mmem s) s = s) by (intros; apply (lset_lget (l := l_mmem))).
  do 2 wp_step. change (lget l_mmem s) with (mmem s). rewrite Em. eapply wp_mono; [by apply acpi_probe_rsdp_wp|]. intros r m' [-> ->]. rewrite <- Em, Hmm, Em.
  rewrite (proj2 (Z.eqb_neq _ 0) Hr). do 2 wp_step. change (lget l_mmem s) with (mmem s). rewrite Em. eapply wp_mono; [by apply probe_madt_wp|].
  intros r m' [-> ->]. rewrite <- Em, Hmm, Em, Hmadt. rewrite (proj2 (Z.eqb_neq _ 0) Hm0).
  apply parse_madt_wp; try done. rewrite <- Hmadt. by apply find_madt_nonneg.
Qed.

(** C15: given valid ACPI tables, pcpu_mp_init returns TRUE and the kernel
    knows the machine that the MADT describes, found through the first valid
    root pointer and the newer of the valid root tables: the enabled
    processors in the order of the table with the first as the boot
    processor (the number counts all, the table of the kernel holds eight),
    the I/O APICs (sixteen), the address of the local APIC; the start-up
    code is at 0x8000, and no other byte of memory has changed. *)
Theorem pcpu_mp_init_correct s m l madt :
  mmem s = m -> mem_ok m -> mp_inited s = false -> ioapic_num (io (mic s)) = 0 ->
  rsdp_of m <> 0 -> acpi_ok m (rsdp_of m) -> find_madt m (rsdp_of m) = madt -> madt <> 0 ->
  madt + 44 < W32 -> madt + table_len m madt < W32 -> madt_at m (madt + table_len m madt) (madt + 44) l ->
  range 32768 boot_ap_size -> range boot_ap_start boot_ap_size ->
  wp pcpu_mp_init (fun r s' => r = true /\ machine_described m madt l s') s.
Proof. intros. eapply wp_mono; [by apply (pcpu_mp_init_wp s m l madt)|]. intros r s' (? & ? & _). done. Qed.

(** ** Use of the tables *)

(** An enabled line goes to the local APIC of the processor. *)
Lemma intr_enable_wp irq c s : using_apic (mic s) = true -> ioapics_ok (io (mic s)) -> (exists k, covers (io (mic s)) k irq) -> irq < 24 ->
  0 <= c < NUM_CPUS -> c < ncpu s ->
  wp (intr_enable irq c) (fun _ s' => exists i', s' = lset (lens_comp l_mic l_io) i' s /\ io_same (io (mic s)) i' /\
    forall k' irq', covers (io (mic s)) k' irq' ->
      route i' k' irq' = if decide (irq' = irq) then Some (T_IRQ0 + irq, pi_lapicid (infos s !!! c) mod 256) else route (io (mic s)) k' irq') s.
Proof.
  intros Hu Hok [k Hk] Hirq Hc Hn. unfold intr_enable, pcpu_ncpu, pcpu_cpu_lapicid. wp_step. wp_step. wp_step. wp_step.
  rewrite (proj2 (Z.leb_gt 24 irq)) by lia. do 2 wp_step. rewrite Hu. rewrite (proj2 (Z.eqb_neq c 255)) by (unfold NUM_CPUS in *; lia).
  do 3 wp_step. wp_step. wp_step. wp_step. wp_step. wp_step. wp_step.
  eapply wp_mono; [apply (ioapic_enable_route k); [done|done|done|apply Z.mod_pos_bound; lia]|]. intros [] i' [S R]. by exists i'.
Qed.

(** The identification only fills in the description of the processor. *)
Definition identify_ok : Prop :=
  let '(_, b0, c0, d0) := Apic.cpuid 0 in
  vendor_of (reg_bytes b0 ++ reg_bytes d0 ++ reg_bytes c0) = INTEL ->
  let '(eax, ebx, ecx, edx) := Apic.cpuid 2 in
  Forall (fun d => 0 <= d < 255) (reg_bytes eax ++ reg_bytes ebx ++ reg_bytes ecx ++ reg_bytes edx).
Definition same_ids (s s' : mpst) : Prop := exists f, s' = set_infos f s /\
  forall i, pi_lapicid (f !!! i) = pi_lapicid (infos s !!! i) /\ pi_bsp (f !!! i) = pi_bsp (infos s !!! i).
#[export] Instance same_ids_preorder : PreOrder same_ids.
Proof.
  split; [intros s; exists (infos s); by destruct s|]. intros a b d (f & -> & Hf) (g & -> & Hg). exists g. split; [done|].
  intros i. destruct (Hf i), (Hg i). cbn in *. split; congruence.
Qed.
Lemma info_same_wp i f s s0 : 0 <= i < NUM_CPUS -> (forall x, pi_lapicid (f x) = pi_lapicid x /\ pi_bsp (f x) = pi_bsp x) -> same_ids s0 s ->
  wp (info_update i f) (fun _ s' => same_ids s0 s') s.
Proof.
  intros Hi Hf Hs. apply info_update_wp; [done|]. etransitivity; [exact Hs|]. eexists. split; [reflexivity|]. intros j.
  destruct (decide (j = i)) as [->|Hne]; [rewrite lookup_total_insert_eq; apply Hf|by rewrite lookup_total_insert_ne].
Qed.
Lemma intel_descriptors_wp i s s0 : 0 <= i < NUM_CPUS -> same_ids s0 s ->
  (let '(eax, ebx, ecx, edx) := Apic.cpuid 2 in
   Forall (fun d => 0 <= d < 255) (reg_bytes eax ++ reg_bytes ebx ++ reg_bytes ecx ++ reg_bytes edx)) ->
  wp (intel_descriptors i) (fun _ s' => same_ids s0 s') s.
Proof.
  intros Hi Hs. unfold intel_descriptors. destruct (Apic.cpuid 2) as [[[eax ebx] ecx] edx]. generalize (reg_bytes eax ++ reg_bytes ebx ++ reg_bytes ecx ++ reg_bytes edx).
  intros l Hl. revert s Hs. induction Hl as [|d l Hd Hl IH]; intros s Hs; cbn [foldr]; [by wp_step|].
  wp_step. wp_step. unfold in_array. wp_step. eapply wp_mono; [by apply (info_same_wp i _ s s0)|]. intros [] s1 Hs1. by apply IH.
Qed.
Lemma pcpu_identify_wp ks s : identify_ok -> in_array (get_kstack_cpu_idx ks) NUM_CPUS = true -> 0 <= pcpu_idx (pcpu (mth s) !!! get_kstack_cpu_idx ks) < NUM_CPUS ->
  wp (pcpu_identify ks) (fun _ s' => same_ids s s') s.
Proof.
  unfold identify_ok. intros Hok Hin Hi. unfold pcpu_identify. wp_step. wp_step.
  eapply (wp_of_eq _ _ _ (pcpu_idx (pcpu (mth s) !!! get_kstack_cpu_idx ks)) (mth s)).
  { unfold get_pcpu_idx, pcpu_cur, pcpu_at. krun. by rewrite Hin. }
  rewrite (lset_lget (l := l_mth)). set (i := pcpu_idx _) in *. destruct (Apic.cpuid 0) as [[[h b0] c0] d0].
  destruct (Apic.cpuid 1) as [[[eax ebx] ecx] edx]. wp_step. eapply wp_mono; [apply (info_same_wp i _ s s); [done|done|reflexivity]|]. intros [] s1 Hs1.
  wp_step. apply (wp_mono _ (fun _ s' => same_ids s s')).
  - destruct (vendor_of _).
    + by apply info_same_wp.
    + wp_step. eapply wp_mono; [apply (intel_descriptors_wp i s1 s); [done|done|by apply Hok]|]. intros [] s2 Hs2. do 2 wp_step.
      destruct (_ && _); [by wp_step|]. unfold intel_subleaf. destruct (filter _ _) as [|j ?]; [by wp_step|].
      destruct (cpuid_subleaf 4 j) as [[[? ?] ?] ?]. by apply info_same_wp.
    + destruct (Apic.cpuid 2147483653) as [[[? ?] ?] ?]. by apply info_same_wp.
  - intros [] s2 Hs2. destruct (Apic.cpuid 2147483648) as [[[? ?] ?] ?]. by apply info_same_wp.
Qed.

(** ** pcpu_init on the boot processor *)
Record firmware_ok (m : mem) (madt : Z) (l : list madt_item) : Prop := {
  fw_mem : mem_ok m;
  fw_rsdp : rsdp_of m <> 0;
  fw_acpi : acpi_ok m (rsdp_of m);
  fw_madt : find_madt m (rsdp_of m) = madt;
  fw_found : madt <> 0;
  fw_fits : madt + 44 < W32 /\ madt + table_len m madt < W32;
  fw_items : madt_at m (madt + table_len m madt) (madt + 44) l;
  fw_dst : range 32768 boot_ap_size;
  fw_src : range boot_ap_start boot_ap_size
}.
Lemma fields_init_wp s :
  wp (for_range 0 NUM_CPUS pcpu_fields_init) (fun _ s' => exists P, s' = set_pcpu P s /\ forall c, 0 <= c < NUM_CPUS -> pcpu_idx (P !!! c) = c) s.
Proof.
  apply (wp_for _ (fun k s' => exists P, s' = set_pcpu P s /\ forall c, 0 <= c < k -> pcpu_idx (P !!! c) = c) 0 NUM_CPUS); [done| |].
  - intros k s' Hk (P & -> & HP). unfold pcpu_fields_init, pcpu_update.
    assert (Hin : in_array k NUM_CPUS = true) by (unfold in_array; lia). wp_steps; try exact Hin.
    eexists. split; [reflexivity|]. intros c Hc. simpl. destruct (decide (c = k)) as [->|].
    + by rewrite lookup_total_insert_eq.
    + rewrite !lookup_total_insert_ne by done. apply HP. lia.
  - exists (pcpu s). split; [by destruct s|]. lia.
Qed.
(** The entry of processor [c], when it runs for the first time. *)
Lemma enter_pcpu_wp ks ksp s : 0 <= get_kstack_cpu_idx ks < NUM_CPUS -> identify_ok ->
  (forall c, 0 <= c < NUM_CPUS -> pcpu_idx (pcpu (mth s) !!! c) = c) ->
  let c := get_kstack_cpu_idx ks in
  wp (zoom l_mth (set_pcpu_idx c c) ;; zoom l_mth (set_pcpu_kstack_pointer c ksp) ;; zoom l_mth (set_pcpu_boot_info c true) ;; pcpu_init_cpu ks)
    (fun _ s' => exists P, same_ids (lset l_mth (set_pcpu P (mth s)) s) s' /\
       (forall c', 0 <= c' < NUM_CPUS -> pcpu_idx (P !!! c') = c') /\ kstack_ptr (P !!! c) = ksp /\ booted (P !!! c) = true /\
       forall c', c' <> c -> P !!! c' = pcpu (mth s) !!! c') s.
Proof.
  intros Hc Hid HP c. fold c in Hc. assert (Hin : in_array c NUM_CPUS = true) by (unfold in_array; lia).
  unfold set_pcpu_idx, set_pcpu_kstack_pointer, set_pcpu_boot_info, pcpu_update. wp_steps; try exact Hin. unfold pcpu_init_cpu.
  match goal with |- wp _ _ ?x => set (s1 := x) end. pose (P := pcpu (mth s1)).
  assert (HPc : P !!! c = Pcpu (inited (pcpu (mth s) !!! c)) true ksp c).
  { unfold P, s1. cbn [mth l_mth lset lget set_pcpu pcpu]. rewrite !lookup_total_insert_eq. done. }
  assert (HPo : forall c', c' <> c -> P !!! c' = pcpu (mth s) !!! c').
  { intros c' Hne. unfold P, s1. cbn [mth l_mth lset lget set_pcpu pcpu]. by rewrite !lookup_total_insert_ne by done. }
  eapply wp_mono; [apply pcpu_identify_wp; [done|exact Hin|fold c; fold P; rewrite HPc; cbn; lia]|]. intros [] s2 S2. exists P.
  split_and!; [exact S2| |by rewrite HPc|by rewrite HPc|exact HPo].
  intros c' Hc'. destruct (decide (c' = c)) as [->|Hne]; [by rewrite HPc|]. rewrite HPo by done. by apply HP.
Qed.
Lemma same_ids_cpus s s' ids : same_ids s s' -> cpus_are s ids -> cpus_are s' ids.
Proof. intros (f & -> & Hf) [Hn Hi]. split; [done|]. intros i id H1 H2. cbn. destruct (Hf (Z.of_nat i)) as [-> ->]. by apply Hi. Qed.
Lemma pcpu_init_wp ks ksp s l madt : get_kstack_cpu_idx ks = 0 -> pcpu_inited (mth s) = false -> mp_inited s = false ->
  ioapic_num (io (mic s)) = 0 -> identify_ok -> firmware_ok (mmem s) madt l ->
  wp (pcpu_init ks ksp) (fun _ s' => exists P s1, machine_described (mmem s) madt l s' /\ probed s s1 /\ mic s' = mic s1 /\ mmem s1 = mmem s' /\
    mth s' = set_pcpu_inited true (set_pcpu P (mth s1)) /\ (forall c, 0 <= c < NUM_CPUS -> pcpu_idx (P !!! c) = c) /\ kstack_ptr (P !!! 0) = ksp) s.
Proof.
  intros Hk Hi Hmp Hio Hid [F1 F2 F3 F4 F5 [F6 F6'] F7 F8 F9]. unfold pcpu_init. rewrite Hk. change (0 =? 0) with true. cbv iota zeta. do 2 wp_step. rewrite Hi.
  unfold pcpu_set_zero. do 4 wp_step. wp_step.
  match goal with |- wp _ _ ?x => set (s0 := x) end.
  wp_step. eapply wp_mono; [apply (pcpu_mp_init_wp s0 (mmem s) l madt); done|]. intros r s1 (_ & Hd & Hp).
  do 2 wp_step. eapply wp_mono; [apply fields_init_wp|]. intros [] t (P & -> & HP). do 3 wp_step.
  match goal with |- wp _ _ ?x => set (s2 := x) end.
  eapply wp_mono; [pose proof (enter_pcpu_wp ks ksp s2) as He; rewrite Hk in He; apply He; [unfold NUM_CPUS; lia|done|exact HP]|].
  intros [] s3 (P3 & (f & -> & Hf) & HP3 & Hks & _). exists P3, (lset l_mth (set_pcpu (pcpu (mth s)) (mth s1)) s1).
  destruct Hd as (D1 & D2 & D3 & D4 & D5 & D6). destruct Hp as (Q1 & Q2 & Q3 & Q4 & Q5).
  split_and!; try done.
  - destruct D3 as [Hn Hi3]. unfold machine_described, cpus_are. split_and!; try done. intros i id H1 H2. cbn. destruct (Hf (Z.of_nat i)) as [-> ->]. by apply Hi3.
  - unfold probed. split_and!; try done. cbn. rewrite Q1. done.
Qed.

(** ** Tables that the kernel does not survive *)

(** A round that gives back its own state is repeated for ever. *)
Lemma loop_stuck {St X R} (body : X -> K St (X + R)) x s : body x s = Ok (inl x) s -> forall d, loop d body x s = Ok (inl x) s.
Proof. intros Hb d. induction d as [|d IH]; [done|]. cbn. unfold mbind, K_bind. by rewrite IH. Qed.

Lemma zoom_ld8 a s : zoom l_mmem (ld8 a) s = Ok (load8 (mmem s) (u32 a)) s.
Proof. unfold zoom, ld8, gets. f_equal. apply (lset_lget (l := l_mmem)). Qed.

(** An entry of the MADT that is neither a processor nor an I/O APIC and has
    length zero, and an entry of the MP table of a type that is not known,
    are read again and again: after any number of rounds the loop is where it
    was. *)
Lemma bad_madt_entry_hangs e p ap found s d :
  0 <= p < e -> e < W32 -> load8 (mmem s) p <> 0 -> load8 (mmem s) p <> 1 -> load8 (mmem s) (u32 (p + 1)) = 0 ->
  loop d (madt_entry e) (p, ap, found) s = Ok (inl (p, ap, found)) s.
Proof.
  intros Hp He H1 H2 Hl. apply loop_stuck. unfold madt_entry. rewrite (proj2 (Z.ltb_lt p e)) by lia.
  unfold ACPI_MADT_APIC_LAPIC, ACPI_MADT_APIC_IOAPIC, mbind, K_bind. rewrite !zoom_ld8, (u32_small p) by lia.
  rewrite (proj2 (Z.eqb_neq _ 0) H1), (proj2 (Z.eqb_neq _ 1) H2). unfold mret, K_ret. rewrite zoom_ld8, Hl. by rewrite Z.add_0_r, u32_small by lia.
Qed.
Lemma bad_mp_entry_hangs e p ap s d :
  0 <= p < e -> e < W32 -> 4 < load8 (mmem s) p -> loop d (mp_entry e) (p, ap) s = Ok (inl (p, ap)) s.
Proof.
  intros Hp He H1. apply loop_stuck. unfold mp_entry. rewrite (proj2 (Z.ltb_lt p e)) by lia.
  unfold MPPROC, MPIOAPIC, MPBUS, MPIOINTR, MPLINTR, mbind, K_bind. rewrite zoom_ld8, (u32_small p) by lia.
  rewrite !(proj2 (Z.eqb_neq _ _)) by lia. done.
Qed.

(** With more than eight processors the assertion of pcpu_cpu_lapicid lets
    an index through that the table does not have. *)
Lemma ninth_processor_faults s : NUM_CPUS < ncpu s -> pcpu_cpu_lapicid NUM_CPUS s = Fault.
Proof. intros Hn. unfold pcpu_cpu_lapicid, get, mbind, K_bind. by rewrite (proj2 (Z.ltb_lt NUM_CPUS (ncpu s)) Hn). Qed.
End madt.

(** ** A machine for the example: two processors and one I/O APIC *)
Definition demo_rsdp : list Z := [82; 83; 68; 32; 80; 84; 82; 32; 195; 0; 0; 0; 0; 0; 0; 0; 0; 16; 14; 0] ++ replicate 16 0.
Definition demo_rsdt : list Z := [82; 83; 68; 84; 40; 0; 0; 0; 0; 109] ++ replicate 26 0 ++ [0; 32; 14; 0].
Definition demo_madt : list Z :=
  [65; 80; 73; 67; 72; 0; 0; 0; 0; 219] ++ replicate 26 0 ++ [0; 0; 224; 254; 1; 0; 0; 0] ++
  [0; 8; 0; 0; 1; 0; 0; 0] ++ [0; 8; 1; 1; 1; 0; 0; 0] ++ [1; 12; 2; 0; 0; 0; 192; 254; 0; 0; 0; 0].
Definition demo_tables : mem := write_bytes (write_bytes (write_bytes ∅ 917504 demo_rsdp) 921600 demo_rsdt) 925696 demo_madt.
Definition demo_items : list madt_item := [Processor 0 true; Processor 1 true; Io_apic 2 4273995776 0].
#[global] Instance demo_mp_layout : mp_layout := MpLayout 1048576 160 1049600.
Definition demo_mp : mpst :=
  set_mmem demo_tables (Mpst (Thr (Vm cont0 ∅ 0 0 0) ∅ ∅ ∅ ∅ ∅ inhabitant ∅ (Kctx 0 0 0 0 0 0) false)
    (Intc (Ports 0 demo_chip demo_chip ∅ ∅) (Pics 65531 false) (Ioapics ∅ ∅ ∅ ∅ 0) (Lapic 0 ∅ 0 0 0 []) false 0 []) 0 false false ∅).
Lemma demo_tables_ok : mem_ok demo_tables.
Proof. do 3 apply mem_ok_write_bytes. apply mem_ok_empty. Qed.
Lemma sized_check m sig t : negb (load32 m (u32 t) =? sig) || (load32 m (u32 (t + 4)) <=? MAX_SUM) = true -> sized m sig t.
Proof. unfold sized. lia. Qed.
Lemma demo_acpi_ok : rsdp_of demo_tables = 917504 /\ acpi_ok demo_tables 917504 /\ find_madt demo_tables 917504 = 925696.
Proof.
  assert (X : use_xsdt demo_tables 917504 = false) by (vm_compute; reflexivity).
  assert (E : root_entries demo_tables 917504 = [925696]) by (vm_compute; reflexivity).
  assert (L : table_len demo_tables (rsdt_of demo_tables 917504) = 40) by (vm_compute; reflexivity).
  assert (T : rsdt_of demo_tables 917504 = 921600) by (vm_compute; reflexivity).
  split_and!; [vm_compute; reflexivity| |vm_compute; reflexivity]. split.
  - apply sized_check. vm_compute. reflexivity.
  - apply sized_check. vm_compute. reflexivity.
  - rewrite X. done.
  - intros _. unfold fits. rewrite L, T. unfold W32. lia.
  - rewrite E. apply Forall_singleton, sized_check. vm_compute. reflexivity.
Qed.
Lemma demo_madt_at : madt_at demo_tables (925696 + table_len demo_tables 925696) (925696 + 44) demo_items.
Proof.
  replace (925696 + table_len demo_tables 925696) with 925768 by (vm_compute; reflexivity).
  replace demo_items with [item demo_tables 925740; item demo_tables 925748; item demo_tables 925756] by (vm_compute; reflexivity).
  assert (L1 : load8 demo_tables (u32 (925740 + 1)) = 8) by (vm_compute; reflexivity).
  assert (L2 : load8 demo_tables (u32 (925748 + 1)) = 8) by (vm_compute; reflexivity).
  assert (L3 : load8 demo_tables (u32 (925756 + 1)) = 12) by (vm_compute; reflexivity).
  apply madt_cons; rewrite ?L1; [lia|lia|unfold W32; lia|]. change (925696 + 44 + 8) with 925748.
  apply madt_cons; rewrite ?L2; [lia|lia|unfold W32; lia|]. change (925748 + 8) with 925756.
  apply madt_cons; rewrite ?L3; [lia|lia|unfold W32; lia|]. apply madt_end. lia.
Qed.
Lemma pcpu_mp_init_correct_witness :
  acpi_ok demo_tables 917504 /\
  wp pcpu_mp_init (fun r s' => r = true /\ machine_described demo_tables 925696 demo_items s') demo_mp.
Proof.
  destruct demo_acpi_ok as (E1 & E2 & E3). refine (conj E2 _).
  apply (pcpu_mp_init_correct demo_mp demo_tables demo_items 925696); rewrite ?E1.
  - reflexivity.
  - exact demo_tables_ok.
  - reflexivity.
  - reflexivity.
  - lia.
  - exact E2.
  - exact E3.
  - lia.
  - unfold W32. lia.
  - replace (table_len demo_tables 925696) with 72 by (vm_compute; reflexivity). unfold W32. lia.
  - exact demo_madt_at.
  - unfold range, boot_ap_size, demo_mp_layout, W32. lia.
  - unfold range, boot_ap_start, boot_ap_size, demo_mp_layout, W32. lia.
Defined.
