(* ===== verification/Trap.v ===== *)
(** * Processes, system calls and traps (kern/lib/elf, kern/proc, kern/trap)

    A trap frame is identified by the top of the kernel stack it lies on.
    A thread that gives up the processor inside a trap continues there when
    it is scheduled again; [konts] records for each thread where that is:
    at the start of proc_start_user, or in [trap], with the values of its
    local variables. *)

From stdpp Require Import base gmap list numbers.
From S2P Require Import Prelude Apic Mp Lock Pmmap Pmm Container Mem Vmm Str Copy Thread Queue Sched Ide IdeSpec Bufcache BlockIO Log LogSpec Block Inode File Tf Sysfile Seg.
Import Spinlock Types MContainer PCPUIntro PTCBIntro PCurID PKCtxIntro PTQueueIntro PTQueueInit.

(** ** ELF images *)
Definition ELF_MAGIC : Z := 1179403647.      (* 0x464C457F *)
Definition ELF_PROG_LOAD : Z := 1.
Definition ELF_PROG_FLAG_WRITE : Z := 2.
Definition ELF_SHT_STRTAB : Z := 3.
Definition ELF_SHN_UNDEF : Z := 0.
Definition SIZEOF_PROGHDR : Z := 32.
Definition SIZEOF_SECHDR : Z := 40.

(** Fields of the headers at address [a]. *)
Definition e_magic (m : mem) (a : Z) : Z := load32 m a.
Definition e_entry (m : mem) (a : Z) : Z := load32 m (a + 24).
Definition e_phoff (m : mem) (a : Z) : Z := load32 m (a + 28).
Definition e_shoff (m : mem) (a : Z) : Z := load32 m (a + 32).
Definition e_phnum (m : mem) (a : Z) : Z := load16 m (a + 44).
Definition e_shstrndx (m : mem) (a : Z) : Z := load16 m (a + 50).
Definition sh_type (m : mem) (a : Z) : Z := load32 m (a + 4).
Definition p_type (m : mem) (a : Z) : Z := load32 m a.
Definition p_offset (m : mem) (a : Z) : Z := load32 m (a + 4).
Definition p_va (m : mem) (a : Z) : Z := load32 m (a + 8).
Definition p_filesz (m : mem) (a : Z) : Z := load32 m (a + 16).
Definition p_memsz (m : mem) (a : Z) : Z := load32 m (a + 20).
Definition p_flags (m : mem) (a : Z) : Z := load32 m (a + 24).

(** Continuations of threads, callbacks of the trap handler table. *)
Inductive kont : Type := KStart | KTrap (cpu_idx cur_pid last_pid tf : Z) (errno_due : bool).
#[global] Instance kont_inhabited : Inhabited kont := populate KStart.
Inductive trap_cb : Type := exception_cb | interrupt_cb | syscall_cb.
#[global] Instance trap_cb_eq_dec : EqDecision trap_cb.
Proof. solve_decision. Defined.

(** Globals of the trap and process layers, and the hardware they use: the
    trap frames on the kernel stacks, the registers user code runs with, the
    fault address, the interrupt controllers with what pcpu_mp.c knows of
    the processors, the console. *)
Record trp : Type := Trp {
  uctx_pool : gmap Z tf_t; last_active : gmap Z Z; TRAP_HANDLER : gmap (Z * Z) trap_cb; trap_inited : bool;
  started : bool; konts : gmap Z kont
}.
Record hw : Type := Hw {
  frames : gmap Z tf_t; regs : tf_t; cr2 : Z;
  h_ic : intc; h_ncpu : Z; h_mp_inited : bool; h_ismp : bool; h_infos : gmap Z pcpuinfo;
  console : list Z
}.
Record kern : Type := Kern { kfs : ffs; sg : segs; tp : trp; dev : hw }.

Definition set_uctx (x : gmap Z tf_t) (t : trp) : trp :=
  Trp x (last_active t) (TRAP_HANDLER t) (trap_inited t) (started t) (konts t).
Definition set_last_active (x : gmap Z Z) (t : trp) : trp :=
  Trp (uctx_pool t) x (TRAP_HANDLER t) (trap_inited t) (started t) (konts t).
Definition set_handlers (x : gmap (Z * Z) trap_cb) (t : trp) : trp :=
  Trp (uctx_pool t) (last_active t) x (trap_inited t) (started t) (konts t).
Definition set_trap_inited (x : bool) (t : trp) : trp :=
  Trp (uctx_pool t) (last_active t) (TRAP_HANDLER t) x (started t) (konts t).
Definition set_started (x : bool) (t : trp) : trp :=
  Trp (uctx_pool t) (last_active t) (TRAP_HANDLER t) (trap_inited t) x (konts t).
Definition set_konts (x : gmap Z kont) (t : trp) : trp :=
  Trp (uctx_pool t) (last_active t) (TRAP_HANDLER t) (trap_inited t) (started t) x.
Definition set_frames (x : gmap Z tf_t) (h : hw) : hw :=
  Hw x (regs h) (cr2 h) (h_ic h) (h_ncpu h) (h_mp_inited h) (h_ismp h) (h_infos h) (console h).
Definition set_uregs (x : tf_t) (h : hw) : hw :=
  Hw (frames h) x (cr2 h) (h_ic h) (h_ncpu h) (h_mp_inited h) (h_ismp h) (h_infos h) (console h).
Definition set_ic (x : intc) (h : hw) : hw :=
  Hw (frames h) (regs h) (cr2 h) x (h_ncpu h) (h_mp_inited h) (h_ismp h) (h_infos h) (console h).
Definition set_console (x : list Z) (h : hw) : hw :=
  Hw (frames h) (regs h) (cr2 h) (h_ic h) (h_ncpu h) (h_mp_inited h) (h_ismp h) (h_infos h) x.

Definition l_kfs : lens kern ffs := Lens kfs (fun x k => Kern x (sg k) (tp k) (dev k)).
Definition l_sg : lens kern segs := Lens sg (fun x k => Kern (kfs k) x (tp k) (dev k)).
Definition l_tp : lens kern trp := Lens tp (fun x k => Kern (kfs k) (sg k) x (dev k)).
Definition l_dev : lens kern hw := Lens dev (fun x k => Kern (kfs k) (sg k) (tp k) x).
Definition l_kjf : lens kern jfs := lens_comp l_kfs l_fjf.
Definition l_kbi : lens kern bio := lens_comp l_kjf l_bi.
Definition l_kth : lens kern thr := lens_comp l_kjf l_jth.
Definition l_kvm : lens kern vm := lens_comp l_kth l_vm.
Definition l_kcn : lens kern cont := lens_comp l_kvm l_cn.
(** The interrupt controllers, and the state of pcpu_mp.c. *)
Definition l_ic : lens kern intc :=
  Lens (fun k => h_ic (dev k)) (fun x k => Kern (kfs k) (sg k) (tp k) (set_ic x (dev k))).
Definition l_mp : lens kern mpst :=
  Lens (fun k => Mpst (lget l_kth k) (h_ic (dev k)) (h_ncpu (dev k)) (h_mp_inited (dev k)) (h_ismp (dev k)) (h_infos (dev k)))
       (fun x k => Kern (lset (lens_comp l_fjf l_jth) (mth x) (kfs k)) (sg k) (tp k)
          (Hw (frames (dev k)) (regs (dev k)) (cr2 (dev k)) (mic x) (ncpu x) (mp_inited x) (ismp x) (infos x) (console (dev k)))).
(** The trap frame on the stack [tf], and the state of the file system
    calls on it. *)
Definition l_tf (tf : Z) : lens kern tf_t :=
  Lens (fun k => frames (dev k) !!! tf)
       (fun x k => Kern (kfs k) (sg k) (tp k) (set_frames (<[tf := x]> (frames (dev k))) (dev k))).
Definition l_sys (tf : Z) : lens kern sys :=
  Lens (fun k => Sys (kfs k) (frames (dev k) !!! tf))
       (fun x k => Kern (fls x) (sg k) (tp k) (set_frames (<[tf := frame x]> (frames (dev k))) (dev k))).

(** The addresses of the linked user programs, of sys_buf, and of
    proc_start_user. *)
Class prog_layout : Type := {
  elf_ping : Z; elf_pong : Z; elf_ding : Z; elf_fstest : Z; elf_idle : Z; sys_buf : Z; start_user : Z
}.

(** What printing "%s" outputs: the characters before the first NUL. *)
Fixpoint until_nul (l : list Z) : list Z :=
  match l with
  | [] => []
  | c :: l => if c =? 0 then [] else c :: until_nul l
  end.

Definition FL_IF : Z := 512.
Definition PFE_PR : Z := 1.
Definition PERM_PUW : Z := Z.lor (Z.lor PTE_W PTE_U) PTE_P.

Section ops.
Context `{layout} `{fs_layout} `{sys_layout} `{seg_layout} `{prog_layout} `{clocks} (ks : kstack).

(** The body of the loop over the pages of a program segment; [ph] is the
    address of its header. *)
Definition elf_page (ph pid perm zva fa va : Z) : K vm unit :=
  _ ← alloc_page ks pid va perm;
  s ← get;
  if va <? rounddown zva PAGESIZE then
    _ ← pt_copyout ks fa pid va PAGESIZE; mret tt
  else if (va <? zva) && negb (p_filesz (phys s) ph =? 0) then
    _ ← pt_memset ks pid va 0 PAGESIZE;
    _ ← pt_copyout ks fa pid va (zva - va);
    mret tt
  else
    _ ← pt_memset ks pid va 0 PAGESIZE; mret tt.

Definition elf_segment (exe ph pid : Z) : K vm unit :=
  s ← get;
  let m := phys s in
  if negb (p_type m ph =? ELF_PROG_LOAD) then mret tt
  else
    let fa := u32 (exe + rounddown (p_offset m ph) PAGESIZE) in
    let va := rounddown (p_va m ph) PAGESIZE in
    let zva := u32 (p_va m ph + p_filesz m ph) in
    let eva := roundup (u32 (p_va m ph + p_memsz m ph)) PAGESIZE in
    let perm := Z.lor PTE_U PTE_P in
    let perm := if negb (Z.land (p_flags m ph) ELF_PROG_FLAG_WRITE =? 0) then Z.lor perm PTE_W else perm in
    while (fun '(fa, va) =>
      if va <? eva then
        elf_page ph pid perm zva fa va ;;
        mret (inl (u32 (fa + PAGESIZE), u32 (va + PAGESIZE)))
      else mret (inr tt)) (fa, va).

Definition elf_load (exe pid : Z) : K vm unit :=
  s ← get;
  let m := phys s in
  kern_assert (e_magic m exe =? ELF_MAGIC) ;;
  kern_assert (negb (e_shstrndx m exe =? ELF_SHN_UNDEF)) ;;
  let sh := u32 (exe + e_shoff m exe) in
  kern_assert (sh_type m (u32 (sh + SIZEOF_SECHDR * e_shstrndx m exe)) =? ELF_SHT_STRTAB) ;;
  let ph := u32 (exe + e_phoff m exe) in
  let eph := u32 (ph + SIZEOF_PROGHDR * e_phnum m exe) in
  while (fun ph =>
    if ph <? eph then
      elf_segment exe ph pid ;;
      mret (inl (u32 (ph + SIZEOF_PROGHDR)))
    else mret (inr tt)) ph.

Definition elf_entry (exe : Z) : K vm Z :=
  s ← get;
  kern_assert (e_magic (phys s) exe =? ELF_MAGIC) ;;
  mret (e_entry (phys s) exe).

(** ** Processes *)
Definition kstack_switch (pid : Z) : K kern unit :=
  cpu_idx ← zoom l_kth (get_pcpu_idx ks);
  p ← zoom l_kth (get_pcpu_kstack_pointer cpu_idx);
  zoom l_sg (kstack_load p pid).

Definition trap_return (t : tf_t) : K kern unit := zoom l_dev (modify (set_uregs t)).

Definition set_last (cpu_idx v : Z) : K kern unit :=
  check (in_array cpu_idx NUM_CPUS) ;;
  zoom l_tp (modify (fun t => set_last_active (<[cpu_idx := v]> (last_active t)) t)).

Definition proc_start_user : K kern unit :=
  cur_pid ← zoom l_kth (get_curid ks);
  cpu_idx ← zoom l_kth (get_pcpu_idx ks);
  p ← zoom l_kth (get_curid ks);
  t ← gets tp;
  (if negb (p =? 1) && negb (started t) then
     zoom l_tp (modify (set_started true)) ;;
     zoom l_kjf (log_init ks)
   else mret tt) ;;
  kstack_switch cur_pid ;;
  zoom l_kvm (set_pdir_base cur_pid) ;;
  set_last cpu_idx cur_pid ;;
  t ← gets tp;
  trap_return (uctx_pool t !!! cur_pid).

(** The assignments to uctx_pool[pid]. *)
Definition user_context (entry : Z) (t : tf_t) : tf_t :=
  Tf (r_edi t) (r_esi t) (r_ebp t) (r_oesp t) (r_ebx t) (r_edx t) (r_ecx t) (r_eax t)
     (Z.lor CPU_GDT_UDATA 3) (Z.lor CPU_GDT_UDATA 3) (t_trapno t) (t_err t) entry (Z.lor CPU_GDT_UCODE 3) FL_IF
     VM_USERHI (Z.lor CPU_GDT_UDATA 3).

Definition proc_create (elf_addr quota : Z) : K kern Z :=
  id ← zoom l_kth (get_curid ks);
  pid ← zoom l_kth (thread_spawn ks start_user id quota);
  (if negb (pid =? NUM_IDS) then
     zoom l_tp (modify (fun t => set_konts (<[pid := KStart]> (konts t)) t)) ;;
     zoom l_kvm (elf_load elf_addr pid) ;;
     entry ← zoom l_kvm (elf_entry elf_addr);
     check (in_array pid NUM_IDS) ;;
     zoom l_tp (modify (fun t => set_uctx (<[pid := user_context entry (uctx_pool t !!! pid)]> (uctx_pool t)) t)) ;;
     c ← zoom l_kth (get_pcpu_idx ks);
     zoom l_sg (seg_init_proc c pid)
   else mret tt) ;;
  mret pid.

(** ** System calls *)
Definition sys_puts (tf : Z) : K kern unit :=
  cur_pid ← zoom l_kth (get_curid ks);
  str_uva ← zoom (l_tf tf) syscall_get_arg2;
  str_len ← zoom (l_tf tf) syscall_get_arg3;
  if negb ((VM_USERLO <=? str_uva) && (u32 (str_uva + str_len) <=? VM_USERHI)) then
    zoom (l_tf tf) (syscall_set_errno E_INVAL_ADDR)
  else
    check (in_array cur_pid NUM_IDS) ;;
    let buf := sys_buf + PAGESIZE * cur_pid in
    while (fun '(remain, cur_pos) =>
      if negb (remain =? 0) then
        let nbytes := if remain <? PAGESIZE - 1 then remain else PAGESIZE - 1 in
        n ← zoom l_kvm (pt_copyin ks cur_pid cur_pos buf nbytes);
        if negb (n =? nbytes) then
          zoom (l_tf tf) (syscall_set_errno E_MEM) ;;
          mret (inr tt)
        else
          zoom l_kvm (modify (fun s => set_phys (store8 (phys s) (buf + nbytes) 0) s)) ;;
          s ← zoom l_kvm get;
          zoom l_dev (modify (fun h => set_console (console h ++ until_nul (read_bytes (phys s) buf (nbytes + 1))) h)) ;;
          mret (inl (u32 (remain - nbytes), u32 (cur_pos + nbytes)))
      else
        zoom (l_tf tf) (syscall_set_errno E_SUCC) ;;
        mret (inr tt)) (str_len, str_uva).

Definition spawn_fails (tf e : Z) : K kern unit :=
  zoom (l_tf tf) (syscall_set_errno e) ;;
  zoom (l_tf tf) (syscall_set_retval1 NUM_IDS).

Definition spawn_elf (elf_id : Z) : option Z :=
  match elf_id with 1 => Some elf_ping | 2 => Some elf_pong | 3 => Some elf_ding | 4 => Some elf_fstest | _ => None end.

Definition sys_spawn (tf : Z) : K kern unit :=
  curid ← zoom l_kth (get_curid ks);
  elf_id ← zoom (l_tf tf) syscall_get_arg2;
  quota ← zoom (l_tf tf) syscall_get_arg3;
  ok ← zoom l_kcn (container_can_consume curid quota);
  if ok =? 0 then spawn_fails tf E_EXCEEDS_QUOTA
  else if NUM_IDS <? u32 (curid * MAX_CHILDREN + 1 + MAX_CHILDREN) then spawn_fails tf E_MAX_NUM_CHILDEN_REACHED
  else
    n ← zoom l_kcn (container_get_nchildren curid);
    if n =? MAX_CHILDREN then spawn_fails tf E_INVAL_CHILD_ID
    else
      match spawn_elf elf_id with
      | None => spawn_fails tf E_INVAL_PID
      | Some elf_addr =>
          new_pid ← proc_create elf_addr quota;
          if new_pid =? NUM_IDS then spawn_fails tf E_INVAL_PID
          else
            zoom (l_tf tf) (syscall_set_errno E_SUCC) ;;
            zoom (l_tf tf) (syscall_set_retval1 new_pid)
      end.

(** The error number is set when the thread runs again. *)
Definition errno_later (k : kont) : kont :=
  match k with KStart => KStart | KTrap c p l tf _ => KTrap c p l tf true end.
Definition sys_yield : K kern unit :=
  pid ← zoom l_kth (get_curid ks);
  zoom l_tp (modify (fun t => set_konts (<[pid := errno_later (konts t !!! pid)]> (konts t)) t)) ;;
  zoom l_kth (thread_yield ks).

(** [off] is the uninitialised local variable of sys_unlink. *)
Definition syscall_dispatch (off tf : Z) : K kern unit :=
  nr ← zoom (l_tf tf) syscall_get_arg1;
  match syscall_of nr with
  | Some SYS_puts => sys_puts tf
  | Some SYS_spawn => sys_spawn tf
  | Some SYS_yield => sys_yield
  | Some SYS_open => zoom (l_sys tf) (sys_open ks)
  | Some SYS_close => zoom (l_sys tf) sys_close
  | Some SYS_read => zoom (l_sys tf) sys_read
  | Some SYS_write => zoom (l_sys tf) sys_write
  | Some SYS_mkdir => zoom (l_sys tf) (sys_mkdir ks)
  | Some SYS_chdir => zoom (l_sys tf) (sys_chdir ks)
  | Some SYS_link => zoom (l_sys tf) (sys_link ks)
  | Some SYS_unlink => zoom (l_sys tf) (sys_unlink ks off)
  | Some SYS_stat => zoom (l_sys tf) sys_fstat
  | None => zoom (l_tf tf) (syscall_set_errno E_INVAL_CALLNR)
  end.

(** ** Trap handlers *)

(** The dump of the trap frame before the panic is output only. *)
Definition default_exception_handler (tf : Z) : K kern unit :=
  _ ← zoom l_kth (get_curid ks); panic.

Definition pgflt_handler (tf : Z) : K kern unit :=
  cur_pid ← zoom l_kth (get_curid ks);
  t ← zoom (l_tf tf) get;
  h ← gets dev;
  if negb (Z.land (t_err t) PFE_PR =? 0) then panic
  else
    r ← zoom l_kvm (alloc_page ks cur_pid (cr2 h) PERM_PUW);
    if r =? MagicNumber then panic else mret tt.

Definition exception_handler (tf : Z) : K kern unit :=
  t ← zoom (l_tf tf) get;
  if t_trapno t =? T_PGFLT then pgflt_handler tf else default_exception_handler tf.

Definition spurious_intr_handler : K kern unit := mret tt.
Definition timer_intr_handler : K kern unit := zoom l_ic intr_eoi ;; zoom l_kth (sched_update ks).
Definition default_intr_handler : K kern unit := zoom l_ic intr_eoi.

Definition interrupt_handler (tf : Z) : K kern unit :=
  t ← zoom (l_tf tf) get;
  if t_trapno t =? T_IRQ0 + IRQ_SPURIOUS then spurious_intr_handler
  else if t_trapno t =? T_IRQ0 + IRQ_TIMER then timer_intr_handler
  else if t_trapno t =? T_IRQ0 + IRQ_IDE1 then zoom l_kbi (ide_intr ks) ;; zoom l_ic intr_eoi
  else if t_trapno t =? T_IRQ0 + IRQ_IDE2 then mret tt
  else default_intr_handler.

Definition run_handler (off tf : Z) (h : option trap_cb) : K kern unit :=
  match h with
  | Some exception_cb => exception_handler tf
  | Some interrupt_cb => interrupt_handler tf
  | Some syscall_cb => syscall_dispatch off tf
  | None => mret tt
  end.

(** The end of trap, after the handler. *)
Definition trap_leave (cpu_idx cur_pid last_pid tf : Z) : K kern unit :=
  (if negb (last_pid =? 0) then
     kstack_switch cur_pid ;;
     zoom l_kvm (set_pdir_base cur_pid) ;;
     set_last cpu_idx last_pid
   else mret tt) ;;
  t ← zoom (l_tf tf) get;
  trap_return t.

(** What the thread that now has the processor does. *)
Definition resume : K kern unit :=
  pid ← zoom l_kth (get_curid ks);
  t ← gets tp;
  match konts t !!! pid with
  | KStart => proc_start_user
  | KTrap cpu_idx cur_pid last_pid tf errno_due =>
      (if errno_due then zoom (l_tf tf) (syscall_set_errno E_SUCC) else mret tt) ;;
      trap_leave cpu_idx cur_pid last_pid tf
  end.

Definition trap (off tf : Z) : K kern unit :=
  cur_pid ← zoom l_kth (get_curid ks);
  cpu_idx ← zoom l_kth (get_pcpu_idx ks);
  check (in_array cpu_idx NUM_CPUS) ;;
  t ← gets tp;
  let last_pid := last_active t !!! cpu_idx in
  (if negb (last_pid =? 0) then
     zoom l_kvm (set_pdir_base 0) ;;
     set_last cpu_idx 0
   else mret tt) ;;
  c ← zoom l_kth (get_pcpu_idx ks);
  f ← zoom (l_tf tf) get;
  check (in_array c NUM_CPUS && in_array (t_trapno f) 256) ;;
  t ← gets tp;
  zoom l_tp (modify (fun t => set_konts (<[cur_pid := KTrap cpu_idx cur_pid last_pid tf false]> (konts t)) t)) ;;
  run_handler off tf (TRAP_HANDLER t !! (c, t_trapno f)) ;;
  resume.

(** ** Entering the kernel (idt.S) *)

(** The processor takes the stack from the task state segment and pushes
    the user's registers; the entry point pushes its number, and a zero
    where it does not expect the processor to have pushed an error code. *)
Definition task_of_tss (a : Z) : Z := (a - TSS_OFF - proc_kstack) / 4096.
Definition entry_of (off : Z) : option Z := List.find (fun n => Xentry n =? off) (map fst idt_gates).
Definition pushes_error (v : Z) : bool := bool_decide (v ∈ [8; 10; 11; 12; 13; 14; 17]).
Definition expects_error (n : Z) : bool :=
  bool_decide (n ∈ [T_DBLFLT; T_TSS; T_SEGNP; T_STACK; T_GPFLT; T_PGFLT; T_ALIGN; T_DEFAULT]).

Definition push_frame (u : tf_t) (trapno err eip cs eflags esp ss : Z) : tf_t :=
  Tf (r_edi u) (r_esi u) (r_ebp u) (r_oesp u) (r_ebx u) (r_edx u) (r_ecx u) (r_eax u) (t_es u) (t_ds u)
     trapno err eip cs eflags esp ss.
(** When only the entry point expects an error code every field is one
    word off, and the last one is what lies above the stack, [above]. *)
Definition built_frame (u : tf_t) (v n err above : Z) : tf_t :=
  if pushes_error v then push_frame u n err (t_eip u) (t_cs u) (t_eflags u) (t_esp u) (t_ss u)
  else if expects_error n then push_frame u n (t_eip u) (t_cs u) (t_eflags u) (t_esp u) (t_ss u) above
  else push_frame u n 0 (t_eip u) (t_cs u) (t_eflags u) (t_esp u) (t_ss u).

(** Vector [v] while user code runs; the result is the trap frame. *)
Definition enter_trap (v err above : Z) : K kern Z :=
  s ← gets sg;
  check (in_array v 256) ;;
  let p := task_of_tss (tr s) in
  check (in_array p NUM_IDS) ;;
  let tf := ts_esp0 (tss (proc_ks s !!! p)) in
  match entry_of (gd_offset (idt s !!! v)) with
  | None => fault
  | Some n =>
      zoom l_dev (modify (fun h => set_frames (<[tf := built_frame (regs h) v n err above]> (frames h)) h)) ;;
      mret tf
  end.

(** The instruction int in user code: a gate it may not use gives a
    general protection fault. *)
Definition int_vector (g : gmap Z gatedesc) (n : Z) : Z * Z :=
  if gd_dpl (g !!! n) <? 3 then (T_GPFLT, 8 * n + 2) else (n, 0).

Definition user_trap (off v err above : Z) : K kern unit :=
  tf ← enter_trap v err above;
  trap off tf.
Definition user_int (off n : Z) : K kern unit :=
  s ← gets sg;
  let '(v, err) := int_vector (idt s) n in
  user_trap off v err 0.
End ops.
