(* ===== verification/TrapSpec.v ===== *)
(** * What traps do to user processes

    Seen from user mode the kernel is a scheduler of register contexts: one
    process runs, the others wait in order with the registers they will run
    with next.  System calls that give up the processor, timer interrupts
    and the simple system calls are steps of that machine, and at the end of
    each the processor runs with the page directory and the kernel stack of
    the process whose registers it has. *)

From stdpp Require Import base gmap list numbers.
From S2P Require Import Prelude Apic ApicSpec Mp Lock Pmmap Pmm Container Mem Vmm VmmSpec Str Copy Thread Queue Sched Ide IdeSpec Bufcache BlockIO Log LogSpec Block Inode File Tf Sysfile Seg Trap Frame.
Import Spinlock Types MContainer PCPUIntro PTCBIntro PCurID PKCtxIntro PTQueueIntro PTQueueInit.

(** ** The machine user processes see *)

(** The registers of user code, without the trap number and error code. *)
Definition user_regs (t : tf_t) : tf_t :=
  push_frame t 0 0 (t_eip t) (t_cs t) (t_eflags t) (t_esp t) (t_ss t).
Definition set_eax (v : Z) (t : tf_t) : tf_t :=
  set_regs (r_edi t) (r_esi t) (r_ebx t) (r_edx t) (r_ecx t) v t.

Record umach : Type := Umach { u_cur : Z; u_ready : list Z; u_ctx : Z -> tf_t; u_ticks : Z }.
Definition u_switch (m : umach) : umach :=
  match u_ready m ++ [u_cur m] with
  | new :: ready => Umach new ready (u_ctx m) (u_ticks m)
  | [] => m
  end.
Definition u_set (p : Z) (t : tf_t) (m : umach) : umach :=
  Umach (u_cur m) (u_ready m) (fun q => if q =? p then t else u_ctx m q) (u_ticks m).
Definition u_tick (v : Z) (m : umach) : umach := Umach (u_cur m) (u_ready m) (u_ctx m) v.

(** System call [nr] of the running process, for the calls that do not touch
    memory or the disk, and a timer interrupt. *)
Definition simple_call (nr : Z) : bool :=
  match syscall_of nr with
  | Some SYS_yield | Some SYS_close | Some SYS_read | Some SYS_write | Some SYS_stat | None => true
  | _ => false
  end.
Definition u_syscall (m : umach) : umach :=
  let t := u_ctx m (u_cur m) in
  match syscall_of (r_eax t) with
  | Some SYS_yield => u_switch (u_set (u_cur m) (set_eax E_SUCC t) m)
  | None => u_set (u_cur m) (set_eax E_INVAL_CALLNR t) m
  | Some _ => m
  end.
Definition u_timer (m : umach) : umach :=
  if u_ticks m =? SCHED_SLICE - 1 then u_tick 0 (u_switch m) else u_tick (u_ticks m + 1) m.

Lemma u_tick_switch m : u_tick (u_ticks m) (u_switch m) = u_switch m.
Proof. unfold u_switch. destruct m as [p l f n]; simpl. by destruct (l ++ [p]). Qed.

(** What happens while user code runs: it makes the system call its
    registers ask for, or the timer interrupts it.  Before that it leaves any
    registers and any memory. *)
Inductive uevent : Type := EvSyscall | EvTimer.
Definition u_event (e : uevent) (m : umach) : umach :=
  match e with EvSyscall => u_syscall m | EvTimer => u_timer m end.
Definition ev_ok (e : uevent) (r : tf_t) : Prop :=
  match e with EvSyscall => simple_call (r_eax r) = true | EvTimer => True end.
Fixpoint u_run (l : list (tf_t * mem * uevent)) (m : umach) : umach :=
  match l with
  | [] => m
  | (r, _, e) :: l => u_run l (u_event e (u_set (u_cur m) (user_regs r) m))
  end.

Section spec.
Context `{layout} `{fs_layout} `{sys_layout} `{seg_layout} `{prog_layout} `{clocks}.

Definition kthr (k : kern) : thr := lget l_kth k.
(** The registers process [q], which does not run, will run with. *)
Definition context (k : kern) (q : Z) : tf_t :=
  match konts (tp k) !!! q with
  | KStart => uctx_pool (tp k) !!! q
  | KTrap _ _ _ tf e => let t := frames (dev k) !!! tf in if e then set_eax E_SUCC t else t
  end.

(** What holds in the kernel and in user mode alike; [p] runs on processor
    [c].  The log has been recovered by the first process but the idle
    process, 1, to start. *)
Record kern_core (c : Z) (k : kern) (p : Z) (ready : list Z) : Prop := {
  kc_sched : sched_inv c (kthr k) p ready;
  kc_user : forall q, q ∈ p :: ready -> 0 < q;
  kc_bsp : kstack_ptr (pcpu (kthr k) !!! c) = bsp_kstack + 4096 * c;
  kc_gdtr : gdtr (sg k) = bsp_kstack + 4096 * c;
  kc_stacks : forall q, q ∈ p :: ready -> ts_esp0 (tss (proc_ks (sg k) !!! q)) = proc_kstack_hi q;
  kc_idt : idt_ok (idt (sg k));
  kc_timer : TRAP_HANDLER (tp k) !! (c, T_IRQ0 + IRQ_TIMER) = Some interrupt_cb;
  kc_syscall : TRAP_HANDLER (tp k) !! (c, T_SYSCALL) = Some syscall_cb;
  kc_started : started (tp k) = true \/ forall q, q ∈ p :: ready -> q = 1;
  kc_ticks : 0 <= sched_ticks (kthr k) !!! c < SCHED_SLICE
}.
(** A process that does not run is about to start or stopped in a trap. *)
Definition stopped (c : Z) (k : kern) (q : Z) : Prop :=
  konts (tp k) !!! q = KStart \/ exists e, konts (tp k) !!! q = KTrap c q q (proc_kstack_hi q) e.

Record in_kernel (c : Z) (k : kern) (p : Z) (ready : list Z) : Prop := {
  ik_core : kern_core c k p ready;
  ik_stopped : forall q, q ∈ p :: ready -> stopped c k q
}.
Record in_user (c : Z) (k : kern) (p : Z) (ready : list Z) : Prop := {
  iu_core : kern_core c k p ready;
  iu_stopped : forall q, q ∈ ready -> stopped c k q;
  iu_active : last_active (tp k) !!! c = p;
  iu_tr : tr (sg k) = proc_tss p;
  iu_cr3 : cr3 (vmst (kthr k)) = pde_at p 0
}.

(** The machine a state in user mode stands for. *)
Definition machine (c : Z) (k : kern) (p : Z) (ready : list Z) (m : umach) : Prop :=
  u_cur m = p /\ u_ready m = ready /\ u_ticks m = sched_ticks (kthr k) !!! c /\
  u_ctx m p = user_regs (regs (dev k)) /\ forall q, q ∈ ready -> u_ctx m q = user_regs (context k q).
Lemma wp_seq3 {St A} (m1 m2 m3 : K St unit) (m : K St A) Q s :
  wp (m1 ;; m2 ;; m3) (fun _ s' => wp m Q s') s -> wp (m1 ;; m2 ;; m3 ;; m) Q s.
Proof. unfold wp, mbind, K_bind. destruct (m1 s); [|done..]. by destruct (m2 _); [destruct (m3 _)|..]. Qed.

(** ** Parts of the state *)
Lemma kth_id k : lset l_kth (kthr k) k = k.
Proof. destruct k as [[[[[] ?] ? ?] ? ?] ? ? ?]. done. Qed.

Lemma stack_hi_inj p q : proc_kstack_hi p = proc_kstack_hi q -> p = q.
Proof. unfold proc_kstack_hi. lia. Qed.

Lemma task_of_proc_tss p : task_of_tss (proc_tss p) = p.
Proof. unfold task_of_tss, proc_tss. zdiv. Qed.

(** Everything but the contexts, the registers and the current process. *)
Lemma core_frame c k k' p ready p' ready' : kern_core c k p ready -> sched_inv c (kthr k') p' ready' ->
  pcpu (kthr k') = pcpu (kthr k) -> 0 <= sched_ticks (kthr k') !!! c < SCHED_SLICE ->
  (forall q, q ∈ p' :: ready' -> q ∈ p :: ready) ->
  gdtr (sg k') = gdtr (sg k) -> proc_ks (sg k') = proc_ks (sg k) -> idt (sg k') = idt (sg k) ->
  TRAP_HANDLER (tp k') = TRAP_HANDLER (tp k) -> started (tp k') = started (tp k) -> kern_core c k' p' ready'.
Proof.
  intros [] Hs Hp Ht Hsub E1 E2 E3 E4 E5. split; rewrite ?Hp, ?E1, ?E2, ?E3, ?E4, ?E5; naive_solver.
Qed.

Section steps.
Context (c : Z) (ks : kstack) (Hon : on_cpu c ks).

Lemma core_range k p ready q : kern_core c k p ready -> q ∈ p :: ready -> 0 <= q < NUM_IDS.
Proof.
  intros Hk [->|Hq]%elem_of_cons; destruct (kc_sched _ _ _ _ Hk) as [_ Hc]; [apply (sc_cur _ _ _ _ Hc)|by eapply ready_range].
Qed.
Lemma core_cpu k p ready : kern_core c k p ready -> 0 <= c < NUM_CPUS /\ in_array c NUM_CPUS = true.
Proof.
  intros Hk. destruct (kc_sched _ _ _ _ Hk) as [_ Hc]. pose proof (sc_cpu _ _ _ _ Hc) as [? _].
  split; [done|]. unfold in_array. lia.
Qed.

Lemma wp_sched_curid k p ready Q : sched_inv c (kthr k) p ready -> Q p k -> wp (zoom l_kth (get_curid ks)) Q k.
Proof.
  intros [_ Hc] HQ. pose proof (sc_cpu _ _ _ _ Hc) as [? ?].
  apply wp_zoom. change (lget l_kth k) with (kthr k). eapply wp_of_eq; [by apply (get_curid_eq c)|]. rewrite kth_id.
  by rewrite (proj1 (sc_cur _ _ _ _ Hc)).
Qed.
Lemma wp_sched_pcpu k p ready Q : sched_inv c (kthr k) p ready -> Q c k -> wp (zoom l_kth (get_pcpu_idx ks)) Q k.
Proof.
  intros [_ Hc] HQ. pose proof (sc_cpu _ _ _ _ Hc) as [? E]. assert (Hin : in_array c NUM_CPUS = true) by (unfold in_array; lia).
  destruct Hon as [_ Ec]. apply wp_zoom. change (lget l_kth k) with (kthr k). eapply wp_of_eq; [|by rewrite kth_id].
  unfold get_pcpu_idx, pcpu_cur, pcpu_at, get_kstack_cpu_idx. krun. by rewrite Ec, Hin, E.
Qed.
Lemma wp_curid k p ready Q : kern_core c k p ready -> Q p k -> wp (zoom l_kth (get_curid ks)) Q k.
Proof. intros Hk. eapply wp_sched_curid, Hk. Qed.
Lemma wp_pcpu_idx k p ready Q : kern_core c k p ready -> Q c k -> wp (zoom l_kth (get_pcpu_idx ks)) Q k.
Proof. intros Hk. eapply wp_sched_pcpu, Hk. Qed.

Lemma kstack_switch_wp k p ready Q : kern_core c k p ready ->
  (forall g, tr g = proc_tss p -> gdtr g = gdtr (sg k) -> proc_ks g = proc_ks (sg k) -> idt g = idt (sg k) ->
     Q tt (lset l_sg g k)) ->
  wp (kstack_switch ks p) Q k.
Proof.
  intros Hk HQ. unfold kstack_switch. wp_step. eapply wp_pcpu_idx; [done|]. wp_step.
  pose proof (core_cpu _ _ _ Hk) as [Hc Hin].
  apply wp_zoom. change (lget l_kth k) with (kthr k). eapply (wp_of_eq _ _ _ (bsp_kstack + 4096 * c) (kthr k)).
  { unfold get_pcpu_kstack_pointer, pcpu_at. krun. by rewrite Hin, (kc_bsp _ _ _ _ Hk). }
  rewrite kth_id.
  wp_step. eapply wp_mono; [apply (kstack_load_wp c p); [done| |apply Hk]|].
  - eapply core_range; [done|]. by left.
  - intros [] g (E1 & _ & _ & _ & E2 & E3 & E4). by apply HQ.
Qed.

(** What traps leave alone besides the state of threads and memory. *)
Definition rest_kept (k k' : kern) : Prop :=
  console (dev k') = console (dev k) /\ uctx_pool (tp k') = uctx_pool (tp k) /\ started (tp k') = started (tp k) /\
  TRAP_HANDLER (tp k') = TRAP_HANDLER (tp k).
Lemma rest_kept_trans k k1 k2 : rest_kept k k1 -> rest_kept k1 k2 -> rest_kept k k2.
Proof. intros (? & ? & ? & ?) (? & ? & ? & ?). split_and!; congruence. Qed.

(** ** Leaving the kernel *)
Definition load_cr3 (p : Z) (k : kern) : kern :=
  lset l_kth (lset l_vm (Vm (cn (vmst (kthr k))) (phys (vmst (kthr k))) (cr0 (vmst (kthr k))) (pde_at p 0)
    (cr4 (vmst (kthr k)))) (kthr k)) k.

Lemma set_pdir_base_eq p k : 0 <= p < NUM_IDS -> zoom l_kvm (set_pdir_base p) k = Ok tt (load_cr3 p k).
Proof.
  intros Hp. unfold set_pdir_base, set_cr3, lcr3. krun.
  assert (in_array p NUM_IDS = true) as -> by (unfold in_array; lia). done.
Qed.

Lemma set_last_eq v k p ready : kern_core c k p ready ->
  set_last c v k = Ok tt (lset l_tp (set_last_active (<[c := v]> (last_active (tp k))) (tp k)) k).
Proof. intros Hk. pose proof (core_cpu _ _ _ Hk) as [_ E]. unfold set_last. krun. by rewrite E. Qed.

Lemma core_dev k p ready h : kern_core c k p ready -> kern_core c (lset l_dev h k) p ready.
Proof. intros []. by split. Qed.
Lemma in_user_dev k p ready h : in_user c k p ready -> in_user c (lset l_dev h k) p ready.
Proof. intros [Hk ? ? ? ?]. split; try done. by apply core_dev. Qed.

Lemma cr3_ticks k k' p : kfs k' = kfs (load_cr3 p k) -> sched_ticks (kthr k') = sched_ticks (kthr k).
Proof. intros E. unfold kthr, l_kth, l_kjf. cbn. by rewrite E. Qed.

(** The code by which both ways back to user mode end; only the base of the
    page directory changes in the state of the file system and the threads. *)
Lemma leave_wp k p ready : kern_core c k p ready -> (forall q, q ∈ ready -> stopped c k q) ->
  wp (kstack_switch ks p ;; zoom l_kvm (set_pdir_base p) ;; set_last c p)
     (fun _ k' => in_user c k' p ready /\ dev k' = dev k /\ kfs k' = kfs (load_cr3 p k) /\
        tp k' = set_last_active (<[c := p]> (last_active (tp k))) (tp k)) k.
Proof.
  intros Hk Hst. wp_step. eapply kstack_switch_wp; [done|]. intros g E1 E2 E3 E4. wp_step.
  eapply wp_of_eq; [apply set_pdir_base_eq; eapply core_range; [done|by left]|].
  assert (Hk2 : kern_core c (load_cr3 p (lset l_sg g k)) p ready).
  { apply (core_frame c k _ p ready); try done; [|apply Hk]. apply sched_inv_vm, Hk. }
  eapply wp_of_eq; [by eapply set_last_eq|]. split; [|done]. split.
  - apply (core_frame c (load_cr3 p (lset l_sg g k)) _ p ready); try done; apply Hk2.
  - exact Hst.
  - simpl. by rewrite lookup_total_insert_eq.
  - exact E1.
  - done.
Qed.

Lemma context_frame k k' q : stopped c k q -> konts (tp k') !!! q = konts (tp k) !!! q ->
  uctx_pool (tp k') = uctx_pool (tp k) ->
  frames (dev k') !!! proc_kstack_hi q = frames (dev k) !!! proc_kstack_hi q -> context k' q = context k q.
Proof. unfold context. intros [E|[e E]] E1 E2 E3; by rewrite E1, E, ?E2, ?E3. Qed.

Lemma start_user_wp k p ready : kern_core c k p ready -> (forall q, q ∈ ready -> stopped c k q) ->
  wp (proc_start_user ks)
     (fun _ k' => in_user c k' p ready /\ regs (dev k') = uctx_pool (tp k) !!! p /\
        (forall q, q ∈ ready -> context k' q = context k q) /\ kfs k' = kfs (load_cr3 p k) /\ h_ic (dev k') = h_ic (dev k) /\ rest_kept k k') k.
Proof.
  intros Hk Hst. unfold proc_start_user. wp_step. eapply wp_curid; [done|]. wp_step.
  eapply wp_pcpu_idx; [done|]. wp_step. eapply wp_curid; [done|]. wp_step. wp_step.
  assert (negb (p =? 1) && negb (started (tp k)) = false) as ->.
  { destruct (kc_started _ _ _ _ Hk) as [->|E]; [apply andb_false_r|]. by rewrite (E p ltac:(by left)). }
  wp_step. wp_step.
  apply wp_seq3.
  wp_call (leave_wp k p ready); [done|done|].
  intros [] k' (Hu & Ed & Et & Etp). wp_step. wp_step. unfold trap_return. wp_steps.
  split; [by apply in_user_dev|]. unfold rest_kept. simpl. rewrite Etp, Ed. split; [done|]. split; [|done].
  intros q Hq. apply context_frame; [by apply Hst|..]; simpl; by rewrite ?Etp, ?Ed.
Qed.

Lemma trap_leave_wp k p ready : kern_core c k p ready -> (forall q, q ∈ ready -> stopped c k q) ->
  wp (trap_leave ks c p p (proc_kstack_hi p))
     (fun _ k' => in_user c k' p ready /\ regs (dev k') = frames (dev k) !!! proc_kstack_hi p /\
        (forall q, q ∈ ready -> context k' q = context k q) /\ kfs k' = kfs (load_cr3 p k) /\ h_ic (dev k') = h_ic (dev k) /\ rest_kept k k') k.
Proof.
  intros Hk Hst. unfold trap_leave. assert (0 < p) by (apply (kc_user _ _ _ _ Hk); by left). zbool. wp_step.
  wp_call (leave_wp k p ready); [done|done|].
  intros [] k' (Hu & Ed & Et & Etp). wp_step. wp_step. wp_step. simpl lget. cbv beta. unfold trap_return. wp_steps.
  split; [by apply in_user_dev|]. rewrite Ed. split; [done|]. split; [|unfold rest_kept; simpl; by rewrite Etp].
  intros q Hq. apply context_frame; [by apply Hst|..]; simpl; try by rewrite Etp.
  destruct (decide (p = q)) as [->|Hne]; [by rewrite lookup_total_insert_eq|].
  rewrite lookup_total_insert_ne; [done|]. by intros ?%stack_hi_inj.
Qed.

Lemma resume_wp k p ready : in_kernel c k p ready ->
  wp (resume ks)
     (fun _ k' => in_user c k' p ready /\ regs (dev k') = context k p /\
        (forall q, q ∈ ready -> context k' q = context k q) /\ kfs k' = kfs (load_cr3 p k) /\ h_ic (dev k') = h_ic (dev k) /\ rest_kept k k') k.
Proof.
  intros [Hk Hst]. unfold resume. wp_step. eapply wp_curid; [done|]. wp_step. wp_step.
  assert (Hr : forall q, q ∈ ready -> stopped c k q) by (intros; apply Hst; by right).
  unfold context at 1. destruct (Hst p ltac:(by left)) as [E|[e E]]; rewrite E; [by apply start_user_wp|].
  wp_step. destruct e; [|wp_step; by apply trap_leave_wp].
  wp_step. unfold syscall_set_errno. wp_step. match goal with |- wp _ _ ?k1 => set (k' := k1) end.
  wp_call (trap_leave_wp k' p ready); [by apply core_dev|exact Hr|]. intros [] k2 (Hu & Er & Hc & Ht).
  split; [done|]. split; [rewrite Er; simpl; by rewrite lookup_total_insert_eq|]. split; [|done].
  intros q Hq. rewrite (Hc q Hq). apply context_frame; [by apply Hr|done|done|].
  simpl. rewrite lookup_total_insert_ne; [done|]. intros ->%stack_hi_inj.
  destruct (kc_sched _ _ _ _ Hk) as [_ Hs]. by apply (cur_not_ready _ _ _ _ Hs).
Qed.

(** ** Entering the kernel *)
Definition entered (p v n err above : Z) (k : kern) : kern :=
  let f := built_frame (regs (dev k)) v n err above in
  lset l_dev (set_frames (<[proc_kstack_hi p := f]> (frames (dev k))) (dev k)) k.

Lemma gate_offset v : v ∈ map fst idt_gates -> gd_offset (SETGATE 0 CPU_GDT_KCODE (Xentry v) (gate_dpl v)) = Xentry v.
Proof.
  intros Hv. pose proof (Xentry_u32 v Hv) as Hu. unfold gd_offset, SETGATE. cbn [gd_off_15_0 gd_off_31_16].
  change 65535 with (2 ^ 16 - 1). rewrite land_ones_mod, Z.shiftr_div_pow2 by lia. unfold is_u32, W32 in Hu.
  change (2 ^ 16) with 65536. zdiv.
Qed.

Lemma entry_of_listed v : v ∈ map fst idt_gates -> entry_of (Xentry v) = Some v.
Proof.
  intros Hv. unfold entry_of. destruct (List.find _ _) as [w|] eqn:E.
  - apply List.find_some in E as [Hw E%Z.eqb_eq]. f_equal. apply Xentry_inj; [by apply list_elem_of_In|done|done].
  - apply list_elem_of_In in Hv. apply (List.find_none _ _ E) in Hv. by rewrite Z.eqb_refl in Hv.
Qed.

Lemma enter_trap_wp k p ready v err above : in_user c k p ready -> v ∈ map fst idt_gates -> 0 <= v < 256 ->
  enter_trap v err above k = Ok (proc_kstack_hi p) (entered p v v err above k).
Proof.
  intros Hu Hv Hr. unfold enter_trap. krun. assert (in_array v 256 = true) as -> by (unfold in_array; lia).
  rewrite (iu_tr _ _ _ _ Hu), task_of_proc_tss. pose proof (iu_core _ _ _ _ Hu) as Hk.
  pose proof (core_range _ _ _ p Hk ltac:(by left)) as Hp. assert (in_array p NUM_IDS = true) as -> by (unfold in_array; lia).
  rewrite (kc_stacks _ _ _ _ Hk) by (by left). rewrite (kc_idt _ _ _ _ Hk) by done.
  unfold gate_entry. rewrite decide_True by done. rewrite gate_offset, entry_of_listed by done. done.
Qed.

(** Trap up to the call of the handler. *)
Lemma trap_wp off k p ready f Q : in_user c k p ready -> frames (dev k) !!! proc_kstack_hi p = f ->
  0 <= t_trapno f < 256 ->
  (forall k', in_kernel c k' p ready -> context k' p = f -> konts (tp k') !!! p = KTrap c p p (proc_kstack_hi p) false ->
     (forall q, q ∈ ready -> context k' q = context k q) -> frames (dev k') !!! proc_kstack_hi p = f ->
     kfs k' = kfs (load_cr3 0 k) -> rest_kept k k' -> cr2 (dev k') = cr2 (dev k) ->
     wp (run_handler ks off (proc_kstack_hi p) (TRAP_HANDLER (tp k) !! (c, t_trapno f)))
        (fun _ k1 => wp (resume ks) Q k1) k') ->
  wp (trap ks off (proc_kstack_hi p)) Q k.
Proof.
  intros Hu Ef Hno HQ. pose proof (iu_core _ _ _ _ Hu) as Hk. pose proof (core_cpu _ _ _ Hk) as [Hc Hin].
  assert (Hpos : 0 < p) by (apply (kc_user _ _ _ _ Hk); by left).
  unfold trap. wp_step. eapply wp_curid; [done|]. wp_step. eapply wp_pcpu_idx; [done|]. wp_step. wp_step.
  wp_step. wp_step. rewrite (iu_active _ _ _ _ Hu). zbool. wp_step. wp_step.
  eapply wp_of_eq; [apply set_pdir_base_eq; done|].
  assert (Hk2 : kern_core c (load_cr3 0 k) p ready).
  { apply (core_frame c k _ p ready); try done; [|apply Hk]. apply sched_inv_vm, Hk. }
  eapply wp_of_eq; [by eapply set_last_eq|]. match goal with |- wp _ _ ?k1 => set (k2 := k1) end.
  assert (Hk3 : kern_core c k2 p ready) by (apply (core_frame c _ _ _ _ _ _ Hk2); try done; apply Hk2).
  wp_step. eapply wp_pcpu_idx; [done|]. wp_step. wp_step. wp_step. simpl lget. cbv beta. rewrite Ef.
  match goal with |- wp _ _ ?k1 => set (k3 := k1) end.
  wp_step. wp_step. wp_step. wp_step. wp_step. wp_step. wp_step.
  match goal with |- wp _ _ ?k1 => set (k4 := k1) end.
  wp_step. assert (Hin4 : in_kernel c k4 p ready).
  { split; [apply (core_frame c _ _ _ _ _ _ Hk3); try done; apply Hk3|].
    intros q [->|Hq]%elem_of_cons; [right; exists false; simpl; by rewrite lookup_total_insert_eq|].
    destruct (decide (p = q)) as [->|Hne]; [right; exists false; simpl; by rewrite lookup_total_insert_eq|].
    pose proof (iu_stopped _ _ _ _ Hu q Hq). unfold stopped. simpl. by rewrite lookup_total_insert_ne. }
  apply (HQ k4 Hin4).
  - unfold context. simpl. by rewrite lookup_total_insert_eq, lookup_total_insert_eq.
  - simpl. by rewrite lookup_total_insert_eq.
  - intros q Hq. assert (p <> q).
    { intros ->. destruct (kc_sched _ _ _ _ Hk) as [_ Hs]. by apply (cur_not_ready _ _ _ _ Hs). }
    apply context_frame; [by apply Hu|simpl; by rewrite lookup_total_insert_ne|done|].
    simpl. rewrite lookup_total_insert_ne; [done|]. by intros ?%stack_hi_inj.
  - simpl. by rewrite lookup_total_insert_eq.
  - done.
  - done.
  - done.
Qed.

(** ** The handlers *)

(** The machine a state inside a trap stands for. *)
Definition kmachine (k : kern) (p : Z) (ready : list Z) (m : umach) : Prop :=
  u_cur m = p /\ u_ready m = ready /\ u_ticks m = sched_ticks (kthr k) !!! c /\
  forall q, q ∈ p :: ready -> u_ctx m q = user_regs (context k q).
(** [R] is what else holds of the process that runs then. *)
Definition kpost (m : umach) (R : Z -> kern -> Prop) (k' : kern) : Prop :=
  exists p' ready', in_kernel c k' p' ready' /\ kmachine k' p' ready' m /\ R p' k'.
(** From [p] to [p'] by the scheduler. *)
Definition turned (k : kern) (p p' : Z) (k' : kern) : Prop :=
  kfs k' = kfs (lset l_kth (kthr k') k) /\ rest_kept k k' /\ switched (kthr k) (kthr k') p p' /\
  forall q, q <> p -> q <> p' -> state (TCBPool (kthr k') !!! q) = state (TCBPool (kthr k) !!! q).
Lemma turned_same k k' p : kfs k' = kfs k -> rest_kept k k' -> turned k p p k'.
Proof.
  intros E Hr. assert (Et : kthr k' = kthr k) by (unfold kthr, l_kth, l_kjf; cbn; by rewrite E).
  split; [by rewrite Et, kth_id|]. split; [done|]. rewrite Et. split; [|done]. unfold switched. by rewrite decide_True.
Qed.

Lemma in_kernel_dev k p ready h : in_kernel c k p ready -> in_kernel c (lset l_dev h k) p ready.
Proof. intros [Hk ?]. split; [by apply core_dev|done]. Qed.

(** A change of the thread part of the state that switches threads. *)
Lemma in_kernel_switch k p ready new ready' t : in_kernel c k p ready -> ready ++ [p] = new :: ready' ->
  sched_inv c t new ready' -> pcpu t = pcpu (kthr k) -> 0 <= sched_ticks t !!! c < SCHED_SLICE ->
  in_kernel c (lset l_kth t k) new ready'.
Proof.
  intros [Hk Hst] E Hs Hp Ht. assert (Hsub : forall q, q ∈ new :: ready' -> q ∈ p :: ready).
  { intros q. rewrite <- E, elem_of_app, list_elem_of_singleton, elem_of_cons. tauto. }
  split; [by apply (core_frame c k _ p ready)|]. intros q Hq. by apply Hst, Hsub.
Qed.

Lemma kmachine_switch k p ready new ready' t m : kmachine k p ready m -> ready ++ [p] = new :: ready' ->
  kmachine (lset l_kth t k) new ready' (u_tick (sched_ticks t !!! c) (u_switch m)).
Proof.
  intros (E1 & E2 & E3 & Hc) E. unfold u_switch. rewrite E1, E2, E. repeat (split; [done|]).
  intros q Hq. apply (Hc q). rewrite <- E, elem_of_app, list_elem_of_singleton in Hq. rewrite elem_of_cons. tauto.
Qed.

Lemma sys_yield_wp k p ready m : in_kernel c k p ready -> kmachine k p ready m ->
  konts (tp k) !!! p = KTrap c p p (proc_kstack_hi p) false ->
  wp (sys_yield ks) (fun _ => kpost (u_switch (u_set p (set_eax E_SUCC (u_ctx m p)) m)) (turned k p)) k.
Proof.
  intros Hin (E1 & E2 & E3 & Hm) Ek. pose proof (ik_core _ _ _ _ Hin) as Hk. destruct (turn_split p ready) as (new & ready' & E).
  unfold sys_yield. wp_step. eapply wp_curid; [done|]. wp_step. wp_step. wp_step. simpl lget. rewrite Ek.
  match goal with |- wp _ _ ?k1 => set (k' := k1) end.
  assert (Hin' : in_kernel c k' p ready).
  { split; [by apply (core_frame c k _ p ready); try done; apply Hk|]. intros q Hq.
    destruct (decide (p = q)) as [<-|Hne]; [right; exists true; simpl; by rewrite lookup_total_insert_eq|].
    pose proof (ik_stopped _ _ _ _ Hin q Hq). unfold stopped. simpl. by rewrite lookup_total_insert_ne. }
  assert (Hm' : kmachine k' p ready (u_set p (set_eax E_SUCC (u_ctx m p)) m)).
  { repeat (split; [done|]). intros q Hq. simpl. destruct (decide (q = p)) as [->|Hne].
    - rewrite Z.eqb_refl, (Hm p) by (by left). unfold context. rewrite Ek. simpl. by rewrite lookup_total_insert_eq.
    - rewrite (proj2 (Z.eqb_neq q p)) by done. rewrite (Hm q) by done. f_equal. symmetry.
      apply context_frame; [by apply Hin|simpl; by rewrite lookup_total_insert_ne|done|done]. }
  apply wp_zoom. wp_call (thread_yield_wp c ks (kthr k') p ready new ready'); [done|apply Hin'|done|].
  intros [] t (Hs & Hsw' & Hst & Ht & Hp). exists new, ready'. split; [|split; [|split; [done|split; [done|split; [done|]]]]].
  - eapply in_kernel_switch; [done|done|done|done|]. rewrite Ht. apply Hin'.
  - pose proof (kmachine_switch k' p ready new ready' t _ Hm' E) as Hsw. rewrite Ht in Hsw.
    destruct Hm' as (_ & _ & Et & _). by rewrite <- Et, u_tick_switch in Hsw.
  - intros q Hq. by apply Hst.
Qed.

Lemma timer_wp k p ready m : in_kernel c k p ready -> kmachine k p ready m ->
  wp (timer_intr_handler ks) (fun _ => kpost (u_timer m) (turned k p)) k.
Proof.
  intros Hin Hm. destruct (turn_split p ready) as (new & ready' & E).
  unfold timer_intr_handler. wp_step. wp_step. apply intr_eoi_wp. intros i.
  match goal with |- wp _ _ ?k1 => set (k' := k1) end.
  assert (Hin' : in_kernel c k' p ready) by (by apply in_kernel_dev).
  assert (Hm' : kmachine k' p ready m) by done. assert (Hto : forall p' k2, turned k' p p' k2 -> turned k p p' k2) by done.
  clearbody k'. clear Hin Hm.
  apply wp_zoom. wp_call (sched_update_wp c ks (kthr k') p ready new ready'); [done|apply Hin'|done|apply Hin'|].
  intros [] t [[Hp Hst] Ht]. pose proof Hm' as (E1 & E2 & E3 & Hc). unfold u_timer. rewrite E3. case_decide as Es.
  - destruct Ht as (Hs & Hsw & Ht). rewrite (proj2 (Z.eqb_eq _ _) Es). exists new, ready'. split; [|split; [|apply Hto; repeat (split; [done|]); intros q ? ?; apply Hst; auto]].
    + eapply in_kernel_switch; [done|done|done|done|]. rewrite Ht. unfold SCHED_SLICE. lia.
    + rewrite <- Ht. by eapply kmachine_switch.
  - destruct Ht as (Hs & T1 & T2 & T3 & Ht). rewrite (proj2 (Z.eqb_neq _ _) Es). exists p, ready. split; [|split].
    + pose proof (ik_core _ _ _ _ Hin') as Hk'. pose proof (kc_ticks _ _ _ _ Hk').
      split; [|apply Hin']. eapply core_frame; [exact Hk'|done|done| |done..]. change (kthr _) with t. rewrite Ht. lia.
    + rewrite <- Ht. done.
    + apply Hto. split; [done|]. split; [done|]. split; [unfold switched; by rewrite decide_True|]. intros q ? _. by apply Hst; [|right].
Qed.

Lemma machine_eax m k p ready f : kmachine k p ready m -> context k p = f -> u_ctx m (u_cur m) = user_regs f.
Proof. intros (-> & _ & _ & Hc) <-. apply Hc. by left. Qed.

Lemma frame_dev k p v : lset (l_tf (proc_kstack_hi p)) v k =
  lset l_dev (set_frames (<[proc_kstack_hi p := v]> (frames (dev k))) (dev k)) k.
Proof. done. Qed.

(** The frame of the running process replaced by [v]. *)
Lemma kmachine_frame k p ready m v : in_kernel c k p ready -> kmachine k p ready m ->
  konts (tp k) !!! p = KTrap c p p (proc_kstack_hi p) false ->
  in_kernel c (lset (l_tf (proc_kstack_hi p)) v k) p ready /\
  kmachine (lset (l_tf (proc_kstack_hi p)) v k) p ready (u_set p (user_regs v) m).
Proof.
  intros Hin (E1 & E2 & E3 & Hm) Ek. split; [by apply in_kernel_dev|]. repeat (split; [done|]).
  intros q Hq. simpl. destruct (decide (q = p)) as [->|Hne].
  - rewrite Z.eqb_refl. unfold context. simpl. rewrite Ek. by rewrite lookup_total_insert_eq.
  - rewrite (proj2 (Z.eqb_neq q p)), (Hm q) by done. f_equal. symmetry. apply context_frame; [by apply Hin|done|done|].
    simpl. rewrite lookup_total_insert_ne; [done|]. by intros ?%stack_hi_inj.
Qed.

Lemma kmachine_same k p ready m f : in_kernel c k p ready -> kmachine k p ready m ->
  konts (tp k) !!! p = KTrap c p p (proc_kstack_hi p) false -> frames (dev k) !!! proc_kstack_hi p = f ->
  in_kernel c (lset (l_tf (proc_kstack_hi p)) f k) p ready /\ kmachine (lset (l_tf (proc_kstack_hi p)) f k) p ready m.
Proof.
  intros Hin Hm Ek Ef. destruct (kmachine_frame k p ready m f Hin Hm Ek) as [? (E1 & E2 & E3 & Hc)]. split; [done|].
  repeat (split; [done|]). intros q Hq. rewrite <- (Hc q Hq). simpl. destruct (Z.eqb_spec q p) as [->|]; [|done].
  destruct Hm as (_ & _ & _ & Hm). rewrite (Hm p Hq). unfold context. by rewrite Ek, Ef.
Qed.

Lemma dispatch_wp off k p ready m f : in_kernel c k p ready -> kmachine k p ready m ->
  konts (tp k) !!! p = KTrap c p p (proc_kstack_hi p) false -> frames (dev k) !!! proc_kstack_hi p = f ->
  simple_call (r_eax f) = true ->
  wp (syscall_dispatch ks off (proc_kstack_hi p)) (fun _ => kpost (u_syscall m) (turned k p)) k.
Proof.
  intros Hin Hm Ek Ef Hs. assert (Ec : context k p = f) by (unfold context; by rewrite Ek, Ef).
  pose proof (machine_eax _ _ _ _ _ Hm Ec) as Ex. pose proof Hm as (E1 & _ & _ & Hctx).
  unfold syscall_dispatch, syscall_get_arg1. wp_step. wp_step. wp_step. simpl lget. cbv beta. rewrite Ef.
  destruct (kmachine_same _ _ _ _ _ Hin Hm Ek Ef) as [Hin1 Hm1].
  assert (Ef1 : frames (dev (lset (l_tf (proc_kstack_hi p)) f k)) !!! proc_kstack_hi p = f)
    by (simpl; by rewrite lookup_total_insert_eq).
  revert Hin1 Hm1 Ef1. match goal with |- context [wp _ _ ?k1] => change (lset _ _ _) with k1; set (k0 := k1) end. intros Hin1 Hm1 Ef1.
  assert (Ek1 : konts (tp k0) !!! p = KTrap c p p (proc_kstack_hi p) false) by done.
  assert (Hto : forall p' k2, turned k0 p p' k2 -> turned k p p' k2) by done. clearbody k0.
  destruct (kmachine_same _ _ _ _ _ Hin1 Hm1 Ek1 Ef1) as [Hin2 Hm2].
  unfold u_syscall. rewrite Ex, E1. cbn [user_regs push_frame r_eax]. unfold simple_call in Hs.
  destruct (syscall_of (r_eax f)) as [[]|]; try discriminate.
  all: try (apply wp_zoom; unfold sys_close, sys_read, sys_write, sys_fstat; wp_step; simpl lget; rewrite Ef1;
            exists p, ready; split_and!; [done|done|by apply Hto, turned_same]).
  - rewrite <- Ex, <- E1. rewrite E1. wp_call (sys_yield_wp k0 p ready m); [done..|].
    intros [] k2 (p' & ready' & ? & ? & ?%Hto). by exists p', ready'.
  - wp_step. unfold syscall_set_errno. wp_step. simpl lget. rewrite Ef1. exists p, ready.
    destruct (kmachine_frame k0 p ready m (set_eax E_INVAL_CALLNR f)); [done..|]. split_and!; [done|done|by apply Hto, turned_same].
Qed.

Lemma resume_machine k p ready m : in_kernel c k p ready -> kmachine k p ready m ->
  wp (resume ks) (fun _ k' => in_user c k' p ready /\ machine c k' p ready m /\ kfs k' = kfs (load_cr3 p k) /\ rest_kept k k') k.
Proof.
  intros Hin (E1 & E2 & E3 & Hc). wp_call (resume_wp k p ready Hin). intros [] k' (Hu & Er & Hq & Ef & _ & Hr). pose proof (cr3_ticks _ _ _ Ef) as Ht.
  split; [done|]. split; [|done]. split; [done|]. split; [done|]. split; [by rewrite Ht|].
  split; [rewrite Er; apply Hc; by left|]. intros q Hrd. rewrite (Hq q Hrd). apply Hc. by right.
Qed.

(** ** One event, and runs *)
Definition run_event (off : Z) (e : uevent) : K kern unit :=
  match e with
  | EvSyscall => user_int ks off T_SYSCALL
  | EvTimer => user_trap ks off (T_IRQ0 + IRQ_TIMER) 0 0
  end.
Definition user_code (r : tf_t) (M : mem) : K kern unit :=
  zoom l_dev (modify (set_uregs r)) ;; zoom l_kvm (modify (set_phys M)).
Fixpoint run_events (off : Z) (l : list (tf_t * mem * uevent)) : K kern unit :=
  match l with
  | [] => mret tt
  | (r, M, e) :: l => user_code r M ;; run_event off e ;; run_events off l
  end.
(** After a trap that left the kernel from a state with [R]. *)
Definition user_post (m : umach) (R : Z -> kern -> Prop) (k : kern) : Prop :=
  exists p ready, in_user c k p ready /\ machine c k p ready m /\
    exists k1, R p k1 /\ kfs k = kfs (load_cr3 p k1) /\ rest_kept k1 k.

(** A trap, given what its handler does. *)
Lemma user_trap_wp off v err k p ready m m' R : in_user c k p ready -> machine c k p ready m ->
  v ∈ map fst idt_gates -> 0 <= v < 256 -> pushes_error v = expects_error v ->
  (forall k' f, in_kernel c k' p ready -> kmachine k' p ready m ->
     konts (tp k') !!! p = KTrap c p p (proc_kstack_hi p) false -> frames (dev k') !!! proc_kstack_hi p = f ->
     t_trapno f = v -> t_err f = (if pushes_error v then err else 0) -> user_regs f = user_regs (regs (dev k)) ->
     kfs k' = kfs (load_cr3 0 k) -> rest_kept k k' -> cr2 (dev k') = cr2 (dev k) ->
     wp (run_handler ks off (proc_kstack_hi p) (TRAP_HANDLER (tp k) !! (c, v))) (fun _ => kpost m' R) k') ->
  wp (user_trap ks off v err 0) (fun _ => user_post m' R) k.
Proof.
  intros Hu (E1 & E2 & E3 & E4 & Hc) Hv Hr Hp HQ. unfold user_trap. wp_step.
  eapply wp_of_eq; [by eapply enter_trap_wp|].
  set (f := built_frame (regs (dev k)) v v err 0). set (k1 := entered p v v err 0 k).
  assert (Ef : f = push_frame (regs (dev k)) v (if pushes_error v then err else 0) (t_eip (regs (dev k))) (t_cs (regs (dev k))) (t_eflags (regs (dev k)))
    (t_esp (regs (dev k))) (t_ss (regs (dev k)))) by (unfold f, built_frame; rewrite <- Hp; by destruct (pushes_error v)).
  assert (Hu1 : in_user c k1 p ready) by (by apply in_user_dev).
  assert (Hf1 : frames (dev k1) !!! proc_kstack_hi p = f) by (simpl; by rewrite lookup_total_insert_eq).
  assert (Hno : t_trapno f = v) by (by rewrite Ef). assert (Her : t_err f = if pushes_error v then err else 0) by (by rewrite Ef).
  assert (Hreg : user_regs f = user_regs (regs (dev k))) by (by rewrite Ef).
  eapply (trap_wp off k1 p ready f); [done|done|by rewrite Hno|].
  intros k' Hin Ecx Ek Hcx Hf Hfs Hrest Hcr. pose proof (cr3_ticks _ _ _ Hfs) as Ht. rewrite Hno.
  eapply wp_mono; [apply (HQ k' f); [done| |done..]|].
  - split; [done|]. split; [done|]. split; [by rewrite Ht|]. intros q [->|Hq]%elem_of_cons; [by rewrite Ecx, Hreg|].
    rewrite (Hc q Hq), (Hcx q Hq). f_equal. symmetry. apply context_frame; [by apply Hu|done|done|].
    simpl. rewrite lookup_total_insert_ne; [done|]. intros ->%stack_hi_inj.
    destruct (kc_sched _ _ _ _ (iu_core _ _ _ _ Hu)) as [_ Hs]. by apply (cur_not_ready _ _ _ _ Hs).
  - intros [] k2 (p' & ready' & Hin2 & Hm2 & HR). wp_call (resume_machine k2 p' ready' m'); [done..|].
    intros [] k3 (Hu3 & Hm3 & Hf3 & Hr3). exists p', ready'. split; [done|]. split; [done|]. by exists k2.
Qed.

Lemma user_int_eq off k p ready Q : in_user c k p ready -> wp (user_trap ks off T_SYSCALL 0 0) Q k -> wp (user_int ks off T_SYSCALL) Q k.
Proof.
  intros Hu HQ. unfold user_int. wp_step. wp_step. unfold int_vector. rewrite (kc_idt _ _ _ _ (iu_core _ _ _ _ Hu)) by done.
  change (gd_dpl _ <? 3) with false. done.
Qed.

(** The scheduler's steps from a state of user mode. *)
Definition scheduled (k : kern) (p p' : Z) (k1 : kern) : Prop :=
  exists k0, kfs k0 = kfs (load_cr3 0 k) /\ rest_kept k k0 /\ turned k0 p p' k1.

Lemma run_event_wp off e k p ready m : in_user c k p ready -> machine c k p ready m -> ev_ok e (regs (dev k)) ->
  wp (run_event off e) (fun _ => user_post (u_event e m) (scheduled k p)) k.
Proof.
  intros Hu Hm He. pose proof (iu_core _ _ _ _ Hu) as Hk. destruct e; unfold run_event.
  - eapply user_int_eq; [done|]. eapply user_trap_wp; [done|done|by apply (bool_decide_unpack _)|done|done|].
    intros k' f Hin Hkm Ek Ef _ _ Er Hfs Hrest _. rewrite (kc_syscall _ _ _ _ Hk). eapply wp_mono; [eapply dispatch_wp; [done..|]|].
    { change (r_eax f) with (r_eax (user_regs f)). by rewrite Er. }
    intros [] k2 (p' & ready' & ? & ? & ?). exists p', ready'. split_and!; [done|done|by exists k'].
  - eapply user_trap_wp; [done|done|by apply (bool_decide_unpack _)|done|done|].
    intros k' f Hin Hkm Ek Ef En _ Er Hfs Hrest _. rewrite (kc_timer _ _ _ _ Hk). simpl run_handler. unfold interrupt_handler.
    wp_step. wp_step. wp_step. simpl lget. rewrite Ef, En. cbv beta.
    destruct (kmachine_same _ _ _ _ _ Hin Hkm Ek Ef). wp_call (timer_wp (lset (l_tf (proc_kstack_hi p)) f k') p ready m); [done..|].
    intros [] k2 (p' & ready' & ? & ? & ?). exists p', ready'. split_and!; [done|done|by exists (lset (l_tf (proc_kstack_hi p)) f k')].
Qed.

Lemma run_events_wp off l k p ready m : in_user c k p ready -> machine c k p ready m ->
  Forall (fun x => ev_ok x.2 x.1.1) l -> wp (run_events off l) (fun _ k' => exists p' ready', in_user c k' p' ready' /\ machine c k' p' ready' (u_run l m)) k.
Proof.
  intros Hu Hm Hl. revert k p ready m Hu Hm. induction Hl as [|[[r M] e] l He _ IH]; intros k p ready m Hu Hm; simpl.
  - wp_step. by exists p, ready.
  - unfold user_code. do 6 wp_step. match goal with |- wp _ _ ?k1 => set (k' := k1) end.
    assert (Hu' : in_user c k' p ready).
    { destruct Hu as [Hk ? ? ? ?]. split; try done. apply (core_frame c k _ p ready); try done; [|apply Hk].
      apply sched_inv_vm, Hk. }
    wp_step. eapply wp_mono; [apply (run_event_wp off e k' p ready (u_set (u_cur m) (user_regs r) m)); [done| |done]|].
    + destruct Hm as (E1 & E2 & E3 & E4 & Hc). rewrite E1. split; [done|]. split; [done|]. split; [done|].
      split; [simpl; by rewrite Z.eqb_refl|]. intros q Hq. simpl. rewrite (proj2 (Z.eqb_neq q p)); [by apply Hc|].
      intros ->. destruct (kc_sched _ _ _ _ (iu_core _ _ _ _ Hu)) as [_ Hs]. by apply (cur_not_ready _ _ _ _ Hs).
    + intros [] k2 (p2 & ready2 & Hu2 & Hm2 & _). by eapply IH.
Qed.
End steps.

End spec.

(** To user processes the kernel is a round robin scheduler of register
    contexts: any sequence of yields, unfinished or unknown system calls and
    timer interrupts, whatever registers and memory user code leaves before
    each, is a run of that machine.  At the end (and so after each event) the
    processor has the registers of the process the machine runs, with that
    process's page directory and kernel stack. *)
Theorem traps_refine_machine `{layout} `{fs_layout} `{sys_layout} `{seg_layout} `{prog_layout} `{clocks}
    c ks off l k p ready m :
  on_cpu c ks -> in_user c k p ready -> machine c k p ready m -> Forall (fun x => ev_ok x.2 x.1.1) l ->
  let m' := u_run l m in
  wp (run_events ks off l)
     (fun _ k' => in_user c k' (u_cur m') (u_ready m') /\ machine c k' (u_cur m') (u_ready m') m' /\
        cr3 (vmst (kthr k')) = pde_at (u_cur m') 0 /\ tr (sg k') = proc_tss (u_cur m') /\
        user_regs (regs (dev k')) = u_ctx m' (u_cur m')) k.
Proof.
  intros Hon Hu Hm Hl m'. eapply wp_mono; [by apply (run_events_wp c ks Hon off l k p ready m)|].
  intros [] k' (p' & ready' & Hu' & Hm'). fold m' in Hm'. pose proof Hm' as (E1 & E2 & _ & E3 & _). rewrite E1, E2.
  split; [done|]. split; [done|]. split; [apply Hu'|]. split; [apply Hu'|]. done.
Qed.

(** ** Witnesses *)
#[global, refine] Instance demo_seg_layout : seg_layout := {| bsp_kstack := 71303168; Xentry := fun v => 1048576 + 16 * v |}.
Proof.
  - unfold NUM_CPUS, W32. lia.
  - intros v Hv. assert (0 <= v < 256); [|unfold is_u32, W32; lia]. revert v Hv. apply Forall_forall.
    apply (bool_decide_unpack _). by vm_compute.
  - intros v w _ _ E. lia.
Defined.
#[global] Instance demo_sys_layout : sys_layout :=
  {| path_buf := 4096; old_buf := 4224; new_buf := 4352; name_buf := 4480; de_buf := 4496; str_dot := 4512; str_dotdot := 4514 |}.
#[global] Instance demo_prog_layout : prog_layout :=
  {| elf_ping := 8650752; elf_pong := 8650752; elf_ding := 8650752; elf_fstest := 8650752; elf_idle := 8650752;
     sys_buf := 9437184; start_user := 1052672 |}.

(** Process 1 runs, 2 has not started yet, 3 waits in a yield. *)
Definition demo_utcbs : gmap Z TCB :=
  <[1 := Tcb TSTATE_RUN 0 64 64 0 ∅ 0]> (<[2 := Tcb TSTATE_READY 0 64 3 0 ∅ 0]>
  (<[3 := Tcb TSTATE_READY 0 2 64 0 ∅ 0]> (foldr (fun pid m => <[pid := boot_tcb 0]> m) ∅ (seqZ 0 64)))).
Definition demo_uthr : thr :=
  Thr (Vm cont0 ∅ 0 (pde_at 1 0) 0) {[0 := Pcpu true true 71303168 0]} ∅ demo_utcbs (<[64 := Tq 2 3]> empty_tq) {[0 := 1]}
      free_lock {[0 := 4]} (Kctx 0 0 0 0 0 0) true.
Definition demo_kstk (p : Z) : kstk := with_esp0 (proc_kstack_hi p) CPU_GDT_KDATA kstk0.
Definition demo_kern (g : gmap Z gatedesc) : kern :=
  lset l_kth demo_uthr
    (Kern (Ffs (Ifs (Jfs demo_bio log0) free_lock ∅) free_lock ∅)
       (Segs ∅ (<[1 := demo_kstk 1]> (<[2 := demo_kstk 2]> {[3 := demo_kstk 3]})) 71303168 (proc_tss 1) 8 16 true g)
       (Trp {[2 := user_context 4096 inhabitant]} {[0 := 1]}
          (<[(0, 32) := interrupt_cb]> {[(0, 48) := syscall_cb]}) true true
          {[3 := KTrap 0 3 3 (proc_kstack_hi 3) true]})
       (Hw {[proc_kstack_hi 3 := user_context 8192 inhabitant]} (user_context 12288 inhabitant) 0 demo_intc 1 true true ∅ [])).

Lemma demo_utcbs_state pid : 0 <= pid < NUM_IDS -> state (demo_utcbs !!! pid) =
  if decide (pid = 1) then TSTATE_RUN else if decide (pid = 2 \/ pid = 3) then TSTATE_READY else TSTATE_DEAD.
Proof.
  intros Hpid. assert (Hin : pid ∈ seqZ 0 64) by (apply elem_of_seqZ; unfold NUM_IDS in *; lia).
  clear Hpid; revert pid Hin. apply Forall_forall. apply (bool_decide_unpack _). by vm_compute.
Qed.

Lemma demo_uqueues : queues demo_utcbs (<[64 := Tq 2 3]> empty_tq) (only_ready [2; 3]).
Proof.
  unfold only_ready. split; intros q.
  - intros Hc. case_decide; [|done]. done.
  - intros Hc. case_decide; [subst; done|]. rewrite lookup_total_insert_ne, empty_tq_lookup by done. done.
  - intros Hc. case_decide; [subst; done|]. rewrite lookup_total_insert_ne, empty_tq_lookup by done. done.
  - intros a. case_decide; unfold NUM_IDS; rewrite ?elem_of_cons, elem_of_nil; lia.
  - case_decide; [|constructor]. apply (bool_decide_unpack _). by vm_compute.
  - intros c' a. case_decide; [|set_solver]. case_decide; [by subst|set_solver].
Qed.

Lemma demo_usched : sched_inv 0 demo_uthr 1 [2; 3].
Proof.
  split; [reflexivity|]. split.
  - split; [unfold NUM_CPUS; lia|reflexivity].
  - exact demo_uqueues.
  - split; [reflexivity|unfold NUM_IDS; lia].
  - intros pid Hpid. change (TCBPool demo_uthr) with demo_utcbs. rewrite demo_utcbs_state by exact Hpid.
    repeat case_decide; split; (discriminate || lia || done).
  - intros pid Hpid. change (TCBPool demo_uthr) with demo_utcbs. rewrite demo_utcbs_state by exact Hpid.
    rewrite !elem_of_cons, elem_of_nil. repeat case_decide; split; (discriminate || lia || done).
Qed.

Lemma demo_in_user g : idt_ok g -> in_user 0 (demo_kern g) 1 [2; 3].
Proof.
  intros Hg. assert (Hall : forall (P : Z -> Prop), P 1 -> P 2 -> P 3 -> forall q, q ∈ [1; 2; 3] -> P q).
  { intros P ? ? ? q. rewrite !elem_of_cons, elem_of_nil. by intros [->|[->|[->|[]]]]. }
  split; try done.
  - split; try done; [exact demo_usched|apply Hall; lia|by apply Hall|by left].
  - intros q. rewrite !elem_of_cons, elem_of_nil. intros [->|[->|[]]]; [by left|right; by exists true].
Qed.

Definition demo_ctx (q : Z) : tf_t :=
  user_regs (if q =? 1 then user_context 12288 inhabitant
             else if q =? 2 then user_context 4096 inhabitant else set_eax E_SUCC (user_context 8192 inhabitant)).
Definition demo_umach : umach := Umach 1 [2; 3] demo_ctx 4.

Lemma demo_machine g : machine 0 (demo_kern g) 1 [2; 3] demo_umach.
Proof.
  repeat (split; [done|]). intros q. rewrite !elem_of_cons, elem_of_nil. by intros [->|[->|[]]].
Qed.

(** Process 1 yields, a timer interrupt ends the time slice of process 2,
    and process 3 makes a system call that does not exist. *)
Definition demo_events : list (tf_t * mem * uevent) :=
  [(set_eax 2 inhabitant, ∅, EvSyscall); (set_eax 77 inhabitant, {[5 := 5]}, EvTimer); (set_eax 99 inhabitant, ∅, EvSyscall)].

Lemma traps_refine_machine_witness :
  exists g, wp (run_events demo_ks 0 demo_events)
    (fun _ k => cr3 (vmst (kthr k)) = pde_at 3 0 /\ r_eax (regs (dev k)) = E_INVAL_CALLNR) (demo_kern g).
Proof.
  destruct (proj1 (wp_elim _ _ _) (intr_init_idt_wp (Segs ∅ ∅ 0 0 0 0 false ∅))) as (_ & _ & _ & g & _ & Hg).
  exists g. eapply wp_mono.
  - apply (traps_refine_machine 0 demo_ks 0 demo_events (demo_kern g) 1 [2; 3] demo_umach demo_on_cpu
      (demo_in_user g Hg) (demo_machine g)). by repeat constructor.
  - intros [] k (_ & _ & E1 & _ & E2). split; [exact E1|]. by apply (f_equal r_eax) in E2.
Defined.
