(* ===== verification/ElfSpec.v ===== *)
(** * Loading a program (kern/lib/elf)

    What a process sees of its memory after elf_load: the segments of the
    image at their addresses, padded with zeros, with the permissions of
    their headers. *)

From stdpp Require Import base gmap list numbers.
From S2P Require Import Prelude Apic Mp Lock Pmmap Pmm Container Mem Vmm VmmSpec Str Copy Thread Queue Sched Ide IdeSpec Bufcache BlockIO Log LogSpec Block Inode File Tf Sysfile Seg Trap.
Import Spinlock Types MContainer PCPUIntro PTCBIntro PCurID PKCtxIntro PTQueueIntro PTQueueInit.

Definition or_else {A} (x y : option A) : option A := match x with Some a => Some a | None => y end.

Lemma load16_range m a : mem_ok m -> 0 <= load16 m a < 65536.
Proof. intros Hm. unfold load16. pose proof (Hm a). pose proof (Hm (a + 1)). lia. Qed.

Section spec.
Context `{layout} `{fs_layout} `{sys_layout} `{seg_layout} `{prog_layout} `{clocks}.

Ltac vm_consts :=
  unfold user_pde, user_proc, user_page, VM_USERLO_PDE, VM_USERHI_PDE, VM_USERLO_PI, VM_USERHI_PI,
    is_u32, pde_at, idpte_at, VM_USERLO, VM_USERHI, NUM_IDS, AT_SIZE, W32 in *.

(** ** What a process sees

    The byte at a virtual address and the permission bits, if the address is
    mapped. *)
Definition view (s : vm) (p va : Z) : option (Z * Z) :=
  match mmu_walk (phys s) (pde_at p 0) va with
  | Some (pa, fl) => Some (load8 (phys s) pa, fl)
  | None => None
  end.
(** Kernel memory outside the page directories. *)
Definition kernel_kept (m m' : mem) : Prop :=
  forall a, 0 <= a < VM_USERLO -> ~ PDirPool <= a < PDirPool + NUM_IDS * 4096 -> load8 m' a = load8 m a.

(** Process [p] sees [new] where that is defined, with at most [2 * n]
    pages of its quota; nothing else changes. *)
Record loads (p n : Z) (new : Z -> option (Z * Z)) (s s' : vm) : Prop := {
  ld_inv : pt_inv s';
  ld_spent : spent p (2 * n) s s';
  ld_kernel : kernel_kept (phys s) (phys s');
  ld_view q x : user_proc q -> user_va x -> view s' q x = if decide (q = p) then or_else (new x) (view s q x) else view s q x
}.
Lemma loads_refl p s : pt_inv s -> loads p 0 (fun _ => None) s s.
Proof. intros Hi. split; [done| |by intros ?|]. { split; [|done]. by apply grown_none. } intros. by case_decide. Qed.
Lemma loads_trans p n n' f g s s1 s2 : loads p n f s s1 -> loads p n' g s1 s2 ->
  loads p (n + n') (fun x => or_else (g x) (f x)) s s2.
Proof.
  intros [_ S1 K1 V1] [I2 S2 K2 V2]. split; [done| | |].
  - rewrite Z.mul_add_distr_l. by eapply spent_trans.
  - intros a Ha Hb. rewrite K2 by done. by apply K1.
  - intros q x Hq Hx. rewrite V2, V1 by done. case_decide; [|done]. by destruct (g x).
Qed.
Lemma loads_ext p n f g s s' : (forall x, user_va x -> f x = g x) -> loads p n f s s' -> loads p n g s s'.
Proof. intros E [I R K V]. split; [done..|]. intros q x Hq Hx. rewrite V, E by done. done. Qed.

(** *** Writing to mapped memory *)
Lemma arrived_view s p uva len src pa_at m q x :
  pt_inv s -> user_proc p -> VM_USERLO <= uva -> uva + len <= VM_USERHI ->
  (forall i, 0 <= i < len -> walks s p (uva + i) (pa_at i)) -> arrived s src pa_at len m -> user_proc q -> user_va x ->
  view (set_phys m s) q x =
    if decide (q = p /\ uva <= x < uva + len) then (fun y => (src (x - uva), snd y)) <$> view s q x else view s q x.
Proof.
  intros Hinv Hp Hlo Hhi Hw Hd Hq Hx. pose proof (arrived_inv s p uva len src pa_at Hinv Hp Hlo Hhi Hw len m ltac:(lia) Hd) as Hinv'.
  pose proof (arrived_harmless s p uva len src pa_at Hinv Hp Hlo Hhi Hw len m ltac:(lia) Hd) as Hs. unfold view.
  assert (E : mmu_walk (phys (set_phys m s)) (pde_at q 0) x = mmu_walk (phys s) (pde_at q 0) x).
  { rewrite !walk_user by done. simpl. by rewrite (kept_entry s m Hinv Hs) by (by apply va_user_slot). }
  rewrite E. destruct (mmu_walk (phys s) (pde_at q 0) x) as [[pa fl]|] eqn:Ew; [|by case_decide].
  assert (Hwx : walks s q x pa) by (by exists fl). cbn [phys set_phys]. case_decide as Hin.
  - destruct Hin as [-> Hin]. cbn. do 2 f_equal. pose proof (Hw (x - uva) ltac:(lia)) as Hwi. replace (uva + (x - uva)) with x in Hwi by lia.
    rewrite (walks_fun _ _ _ _ _ Hwx Hwi). apply Hd. lia.
  - do 2 f_equal. apply Hd. intros i Hi ->. apply Hin.
    destruct (walks_inj s q x p (uva + i) (pa_at i)) as [-> ->]; [done..|by apply (write_va uva len)|done|by apply Hw|]. lia.
Qed.

(** Stores to the kernel's own data are not seen. *)
Lemma kernel_store s m : pt_inv s -> mem_ok m -> (forall a, load8 m a <> load8 (phys s) a -> kernel_area a 1) ->
  pt_inv (set_phys m s) /\ forall q x, user_proc q -> user_va x -> view (set_phys m s) q x = view s q x.
Proof.
  intros Hinv Hm Ho. assert (Hs : forall a, ~ harmless s a -> load8 m a = load8 (phys s) a).
  { intros a Ha. destruct (decide (load8 m a = load8 (phys s) a)) as [|Hne]; [done|]. destruct Ha. apply (kernel_harmless s a 1); [by apply Ho|lia]. }
  pose proof (kept_inv s m Hinv Hm Hs) as Hinv'. split; [done|]. intros q x Hq Hx. unfold view.
  assert (E : mmu_walk (phys (set_phys m s)) (pde_at q 0) x = mmu_walk (phys s) (pde_at q 0) x).
  { rewrite !walk_user by done. simpl. by rewrite (kept_entry s m Hinv Hs) by (by apply va_user_slot). }
  rewrite E. destruct (mmu_walk (phys s) (pde_at q 0) x) as [[pa fl]|] eqn:Ew; [|done]. do 2 f_equal. simpl.
  destruct (decide (load8 m pa = load8 (phys s) pa)) as [|Hne]; [done|]. apply Ho in Hne as (_ & _ & Hlt & _).
  destruct (walks_harmless s q x pa Hinv Hq Hx (ex_intro _ fl Ew) 0) as [_ Hge]; [lia|zdiv|]. lia.
Qed.
(** *** A new page *)
Lemma alloc_view s s' p va r g perm q x :
  pt_inv s -> pt_inv s' -> user_proc p -> user_va va -> mapped s s' p va r (4096 * g + perm) -> user_proc q -> user_va x ->
  ~ (q = p /\ x / 4096 = va / 4096) -> view s' q x = view s q x.
Proof.
  intros Hinv Hinv' Hp Hva [Ht _ Ho Hb] Hq Hx Hne. unfold view. pose proof (va_user_slot q x Hq Hx) as Hsl.
  assert (E : VmmSpec.entry_of (phys s') q (pdx x) (ptx x) = VmmSpec.entry_of (phys s) q (pdx x) (ptx x)).
  { apply Ho; [done|]. intros E%va_slot_inj. tauto. }
  assert (Ew : mmu_walk (phys s') (pde_at q 0) x = mmu_walk (phys s) (pde_at q 0) x) by (rewrite !walk_user by done; by rewrite E).
  rewrite Ew. destruct (mmu_walk (phys s) (pde_at q 0) x) as [[pa fl]|] eqn:Es; [|done]. do 2 f_equal.
  pose proof (walk_frame s q x pa fl Hinv Hq Hx Es) as Hf. destruct (frame_owned s _ _ Hinv Hsl Hf) as [Hu _].
  pose proof (walk_frame s' q x pa fl Hinv' Hq Hx Ew) as Hf'.
  apply Hb; [pose proof PDirPool_kernel; vm_consts; zdiv|]. intros Er. rewrite Er in Hf'.
  assert (Hst : user_slot (SPt p (pdx va))) by (split; [done|by apply va_user_pde]).
  by pose proof (vi_inj s' Hinv' _ _ _ Hst Hsl Ht Hf').
Qed.
Lemma alloc_walks s' p va r g perm s x :
  pt_inv s' -> user_proc p -> mapped s s' p va r (4096 * g + perm) -> 0 < perm < 4096 -> perm mod 2 = 1 -> user_va x -> x / 4096 = va / 4096 ->
  mmu_walk (phys s') (pde_at p 0) x = Some (4096 * g + x mod 4096, perm mod 8).
Proof.
  intros Hinv Hp [_ He _ _] Hperm Hodd Hx Hpg. rewrite walk_user by done.
  replace (pdx x) with (pdx va) by (unfold pdx; zdiv). replace (ptx x) with (ptx va) by (unfold ptx; zdiv). rewrite He.
  replace ((4096 * g + perm) mod 2 =? 0) with false by zdiv. do 2 f_equal; zdiv.
Qed.
(** alloc_page with quota left: a page the process can reach, whose contents
    are not known. *)
Lemma alloc_loads ks s p va perm :
  kstack_ok ks -> pt_inv s -> user_proc p -> VM_USERLO <= va -> va mod 4096 = 0 -> va + 4096 <= VM_USERHI ->
  0 < perm < 4096 -> perm mod 2 = 1 -> 2 <= room_of s p ->
  wp (alloc_page ks p va perm) (fun _ s' => exists g, user_page g /\
    (forall i, 0 <= i < 4096 -> mmu_walk (phys s') (pde_at p 0) (va + i) = Some (4096 * g + i, perm mod 8)) /\
    loads p 1 (fun x => if decide (va <= x < va + 4096) then Some (load8 (phys s') (4096 * g + (x - va)), perm mod 8) else None) s s') s.
Proof.
  intros Hks Hinv Hp Hlo Hal Hhi Hperm Hodd Hroom. assert (Hva : user_va va) by (unfold user_va; lia).
  wp_call alloc_page_wp; [done..|]. intros r s' (Hi & [Hmo Hsp] & [(? & _)|(Hur & g & _ & Hm)]); [lia|].
  assert (Hwalk : forall i, 0 <= i < 4096 -> mmu_walk (phys s') (pde_at p 0) (va + i) = Some (4096 * g + i, perm mod 8)).
  { intros i Hr. rewrite (alloc_walks s' p va r g perm s) by (done || (unfold user_va; lia) || zdiv). do 2 f_equal. zdiv. }
  assert (Hg : user_page g).
  { pose proof (walk_frame s' p va _ _ Hi Hp Hva ltac:(rewrite <- (Z.add_0_r va); apply Hwalk; lia)) as Hf.
    destruct (frame_owned s' _ _ Hi (va_user_slot p va Hp Hva) Hf) as [Hu _]. by replace ((4096 * g + 0) / 4096) with g in Hu by zdiv. }
  exists g. split; [done|]. split; [done|]. split; [done|exact Hsp| |].
  - intros a Ha Hb. destruct Hm as [_ _ _ Hm]. apply Hm; [done|]. vm_consts. zdiv.
  - intros q x Hq Hx. destruct (decide (q = p)) as [->|Hne]; [|apply (alloc_view s s' p va r g perm); done || tauto].
    destruct (decide (va <= x < va + 4096)) as [Hin|Hout].
    + unfold view. cbn [or_else]. replace x with (va + (x - va)) at 1 by lia. by rewrite Hwalk by lia.
    + cbn [or_else]. apply (alloc_view s s' p va r g perm); [done..|]. zdiv.
Qed.

(** ** A page of a segment *)
Definition page_byte (m : mem) (fa va zva filesz x : Z) : Z :=
  if (x <? zva) && negb (filesz =? 0) then load8 m (fa + (x - va)) else 0.
Definition patch (lo n : Z) (b : Z -> Z) (fl x : Z) : option (Z * Z) :=
  if decide (lo <= x < lo + n) then Some (b x, fl) else None.

Section page.
Context (s : vm) (p va g fl : Z).
Context (Hinv : pt_inv s) (Hp : user_proc p) (Hlo : VM_USERLO <= va) (Hhi : va + 4096 <= VM_USERHI).
Context (Hwalk : forall i, 0 <= i < 4096 -> mmu_walk (phys s) (pde_at p 0) (va + i) = Some (4096 * g + i, fl)).

Lemma page_walks len i : len <= 4096 -> 0 <= i < len -> walks s p (va + i) (4096 * g + i).
Proof. intros Hl Hi. exists fl. apply Hwalk. lia. Qed.
Lemma arrived_loads len src m : 0 <= len <= 4096 -> arrived s src (fun i => 4096 * g + i) len m ->
  loads p 0 (patch va len (fun x => src (x - va)) fl) s (set_phys m s) /\
  forall i, 0 <= i < 4096 -> mmu_walk m (pde_at p 0) (va + i) = Some (4096 * g + i, fl).
Proof.
  intros Hl Hd. pose proof (fun i => page_walks len i ltac:(lia)) as Hw. set (pa_at := fun i => 4096 * g + i) in *.
  pose proof (arrived_inv s p va len src pa_at Hinv Hp Hlo ltac:(lia) Hw len m ltac:(lia) Hd) as Hinv'.
  pose proof (arrived_harmless s p va len src pa_at Hinv Hp Hlo ltac:(lia) Hw len m ltac:(lia) Hd) as Hs. split.
  - split; [done|by apply (spent_none p 0 s (cn s))| |].
    + intros a Ha _. apply (arrived_kernel s p va len src pa_at Hinv Hp Hlo ltac:(lia) Hw len m a); done || lia.
    + intros q x Hq Hx. rewrite (arrived_view s p va len src pa_at) by (done || lia). unfold patch.
      destruct (decide (q = p)) as [->|]; [|by rewrite decide_False by tauto].
      destruct (decide (va <= x < va + len)) as [Hin|]; [|by rewrite decide_False by tauto]. rewrite decide_True by done.
      unfold view. pose proof (Hwalk (x - va) ltac:(lia)) as E. replace (va + (x - va)) with x in E by lia. by rewrite E.
  - intros i Hi. rewrite <- (Hwalk i Hi). assert (Hx : user_va (va + i)) by (unfold user_va; lia).
    change m with (phys (set_phys m s)). rewrite !walk_user by done. simpl. by rewrite (kept_entry s m Hinv Hs) by (by apply va_user_slot).
Qed.
Lemma memset_loads ks : wp (pt_memset ks p va 0 PAGESIZE) (fun _ s' =>
    loads p 0 (patch va 4096 (fun _ => 0) fl) s s' /\
    forall i, 0 <= i < 4096 -> mmu_walk (phys s') (pde_at p 0) (va + i) = Some (4096 * g + i, fl)) s.
Proof.
  wp_call (pt_memset_wp ks s p va 0 PAGESIZE (fun i => 4096 * g + i)); try (done || lia).
  { intros i Hi. by apply (page_walks 4096). }
  intros r s' (_ & m & -> & Hd). by apply arrived_loads in Hd.
Qed.
Lemma copyout_loads ks fa len : 0 <= len <= 4096 -> kernel_area fa len ->
  wp (pt_copyout ks fa p va len) (fun _ s' => loads p 0 (patch va len (fun x => load8 (phys s) (fa + (x - va))) fl) s s') s.
Proof.
  intros Hl Hk. wp_call (pt_copyout_wp ks s p va fa len (fun i => 4096 * g + i)); try (done || lia).
  { intros i Hi. apply (page_walks len); lia. }
  intros r s' (_ & m & -> & Hd). by apply arrived_loads in Hd as [Hd _].
Qed.
End page.

Lemma kept_area m m' fa n x : kernel_kept m m' -> kernel_area fa n -> fa <= x < fa + n -> load8 m' x = load8 m x.
Proof. intros Hk Ha Hx. apply Hk; unfold kernel_area in Ha; lia. Qed.
Lemma kept_word m m' fa n x : kernel_kept m m' -> kernel_area fa n -> fa <= x -> x + 4 <= fa + n -> load32 m' x = load32 m x.
Proof. intros Hk Ha Hx Hx'. apply load32_ext. intros b Hb. eapply kept_area; [done..|lia]. Qed.

Lemma elf_page_wp ks s ph p perm zva fa va :
  kstack_ok ks -> pt_inv s -> user_proc p -> VM_USERLO <= va -> va mod 4096 = 0 -> va + 4096 <= VM_USERHI ->
  0 < perm < 4096 -> perm mod 2 = 1 -> 2 <= room_of s p -> 0 <= zva <= VM_USERHI -> kernel_area ph 32 ->
  (p_filesz (phys s) ph = 0 -> rounddown zva PAGESIZE <= va) ->
  (p_filesz (phys s) ph <> 0 -> va < zva -> kernel_area fa (Z.min 4096 (zva - va))) ->
  wp (elf_page ks ph p perm zva fa va)
     (fun _ s' => loads p 1 (patch va 4096 (page_byte (phys s) fa va zva (p_filesz (phys s) ph)) (perm mod 8)) s s') s.
Proof.
  intros Hks Hinv Hp Hlo Hal Hhi Hperm Hodd Hroom Hz Hph Hf0 Hf. unfold elf_page.
  wp_step. wp_call alloc_loads; [done..|]. intros r s1 (g & Hg & Hwalk & Hl1). do 2 wp_step.
  assert (Efs : p_filesz (phys s1) ph = p_filesz (phys s) ph) by (unfold p_filesz; eapply kept_word; [apply Hl1|done|lia|lia]).
  rewrite Efs. set (fs := p_filesz (phys s) ph) in *. pose proof (ld_inv _ _ _ _ _ Hl1) as Hinv1.
  assert (Erd : rounddown zva PAGESIZE = zva - zva mod 4096) by (unfold rounddown, PAGESIZE; rewrite u32_small by (vm_consts; zdiv); done).
  rewrite Erd in *. destruct (Z.ltb_spec va (zva - zva mod 4096)) as [Hfull|Hpart].
  - assert (Hfs : fs <> 0) by (intros E; specialize (Hf0 E); lia). specialize (Hf Hfs ltac:(zdiv)).
    rewrite Z.min_l in Hf by zdiv. wp_step. wp_call (copyout_loads s1 p va g (perm mod 8)); [done..|].
    intros _ s2 Hl2. wp_step. pose proof (loads_trans _ _ _ _ _ _ _ _ Hl1 Hl2) as Hl.
    eapply loads_ext; [|exact Hl]. intros x Hx. unfold patch, page_byte. unfold PAGESIZE. case_decide as Hin; [|done]. cbn [or_else].
    rewrite (proj2 (Z.ltb_lt x zva)) by zdiv. rewrite (proj2 (Z.eqb_neq fs 0) Hfs). cbn [andb negb]. do 2 f_equal.
    eapply kept_area; [apply Hl1|exact Hf|lia].
  - destruct (Z.ltb_spec va zva) as [Hsome|Hnone]; cbn [andb]; [destruct (Z.eqb_spec fs 0) as [Hfs|Hfs]; cbn [negb]|].
    1,3: wp_step; wp_call (memset_loads s1 p va g (perm mod 8)); [done..|]; intros _ s2 [Hl2 _]; wp_step;
      pose proof (loads_trans _ _ _ _ _ _ _ _ Hl1 Hl2) as Hl; (eapply loads_ext; [|exact Hl]); intros x Hx; unfold patch, page_byte;
      case_decide as Hin; [|done]; cbn [or_else]; do 2 f_equal; zbool; rewrite ?andb_false_r; done.
    specialize (Hf Hfs Hsome). rewrite Z.min_r in Hf by zdiv.
    wp_step. wp_call (memset_loads s1 p va g (perm mod 8)); [done..|]. intros _ s2 [Hl2 Hwalk2].
    wp_step. wp_call (copyout_loads s2 p va g (perm mod 8)); [apply Hl2|done..|zdiv|done|]. intros _ s3 Hl3. wp_step.
    pose proof (loads_trans _ _ _ _ _ _ _ _ Hl1 (loads_trans _ _ _ _ _ _ _ _ Hl2 Hl3)) as Hl. eapply loads_ext; [|exact Hl].
    intros x Hx. unfold patch, page_byte. destruct (decide (va <= x < va + 4096)) as [Hin|Hin]; [|by rewrite decide_False by zdiv].
    rewrite (proj2 (Z.eqb_neq fs 0) Hfs). cbn [negb]. rewrite andb_true_r. destruct (Z.ltb_spec x zva) as [Hxz|Hxz]; [rewrite decide_True by lia|by rewrite decide_False by lia].
    cbn [or_else]. do 2 f_equal. transitivity (load8 (phys s1) (fa + (x - va))); [eapply kept_area; [apply Hl2|exact Hf|lia]|eapply kept_area; [apply Hl1|exact Hf|lia]].
Qed.

(** ** A segment *)
Definition seg_lo (m : mem) (ph : Z) : Z := p_va m ph - p_va m ph mod 4096.
Definition seg_hi (m : mem) (ph : Z) : Z := (p_va m ph + p_memsz m ph + 4095) / 4096 * 4096.
Definition seg_perm (m : mem) (ph : Z) : Z :=
  if Z.land (p_flags m ph) ELF_PROG_FLAG_WRITE =? 0 then Z.lor PTE_U PTE_P else Z.lor (Z.lor PTE_U PTE_P) PTE_W.
Definition seg_pages (m : mem) (ph : Z) : Z :=
  if p_type m ph =? ELF_PROG_LOAD then (seg_hi m ph - seg_lo m ph) / 4096 else 0.
(** The file up to its size in the image, then zeros. *)
Definition seg_byte (m : mem) (exe ph x : Z) : Z :=
  if (x <? p_va m ph + p_filesz m ph) && negb (p_filesz m ph =? 0) then load8 m (exe + p_offset m ph + (x - p_va m ph)) else 0.
Definition seg_view (m : mem) (exe ph x : Z) : option (Z * Z) :=
  if p_type m ph =? ELF_PROG_LOAD
  then patch (seg_lo m ph) (seg_hi m ph - seg_lo m ph) (seg_byte m exe ph) (seg_perm m ph) x else None.

(** A segment of an image of the given size that lies in user memory; its
    offset in the file and its address agree modulo the page size. *)
Record seg_ok (m : mem) (exe size ph : Z) : Prop := {
  so_lo : VM_USERLO <= p_va m ph;
  so_hi : p_va m ph + p_memsz m ph <= VM_USERHI;
  so_size : p_filesz m ph <= p_memsz m ph;
  so_align : p_offset m ph mod 4096 = p_va m ph mod 4096;
  so_file : p_filesz m ph = 0 \/ p_offset m ph + p_filesz m ph <= size
}.

(** The part of the file that page [k] shows. *)
Lemma file_area m exe size ph k : kernel_area exe size -> mem_ok m -> seg_ok m exe size ph -> p_filesz m ph <> 0 ->
  let va := seg_lo m ph + 4096 * k in let fa := u32 (u32 (exe + rounddown (p_offset m ph) PAGESIZE) + 4096 * k) in
  0 <= k -> va < p_va m ph + p_filesz m ph ->
  fa = exe + p_offset m ph + (va - p_va m ph) /\ kernel_area fa (Z.min 4096 (p_va m ph + p_filesz m ph - va)).
Proof.
  intros Ha Hm [Hlo Hhi Hsz Hal Hf] Hfs va fa Hk Hva. destruct Hf as [?|Hf]; [done|].
  pose proof (load32_range m (ph + 4) Hm : is_u32 (p_offset m ph)) as Ho.
  assert (E : fa = exe + p_offset m ph + (va - p_va m ph)).
  { unfold fa, rounddown, PAGESIZE, va, seg_lo, kernel_area in *. set (o := p_offset m ph) in *. set (v := p_va m ph) in *. set (f := p_filesz m ph) in *.
    rewrite (u32_small (o - _)) by (vm_consts; zdiv). rewrite (u32_small (exe + _)) by (vm_consts; zdiv). rewrite u32_small by (vm_consts; zdiv). zdiv. }
  split; [done|]. rewrite E. unfold va, seg_lo, kernel_area in *. set (o := p_offset m ph) in *. set (v := p_va m ph) in *. set (f := p_filesz m ph) in *.
  clear E fa. vm_consts. assert (0 <= o - o mod 4096 /\ o - o mod 4096 <= o) by zdiv. lia.
Qed.
Lemma page_is_seg m m' exe size ph k x : kernel_area exe size -> mem_ok m -> kernel_kept m m' -> seg_ok m exe size ph ->
  let va := seg_lo m ph + 4096 * k in 0 <= k -> va <= x < va + 4096 ->
  page_byte m' (u32 (u32 (exe + rounddown (p_offset m ph) PAGESIZE) + 4096 * k)) va (p_va m ph + p_filesz m ph) (p_filesz m ph) x = seg_byte m exe ph x.
Proof.
  intros Ha Hm Hk Hok va Hk0 Hx. unfold page_byte, seg_byte. destruct (Z.ltb_spec x (p_va m ph + p_filesz m ph)) as [Hin|]; [|done].
  destruct (Z.eqb_spec (p_filesz m ph) 0) as [E|Hfs]; [done|]. cbn [andb negb].
  destruct (file_area m exe size ph k Ha Hm Hok Hfs Hk0 ltac:(fold va; lia)) as [E Hfa]. fold va in E, Hfa.
  rewrite E in *. replace (exe + p_offset m ph + (x - p_va m ph)) with (exe + p_offset m ph + (va - p_va m ph) + (x - va)) by lia.
  eapply kept_area; [done|exact Hfa|lia].
Qed.

(** Memory that holds the same image. *)
Definition same_area (m m' : mem) (a n : Z) : Prop := forall x, a <= x < a + n -> load8 m' x = load8 m x.
Lemma kept_same m m' a n : kernel_kept m m' -> kernel_area a n -> same_area m m' a n.
Proof. intros Hk Ha x Hx. by eapply kept_area. Qed.
Lemma same_word m m' a n x : same_area m m' a n -> a <= x -> x + 4 <= a + n -> load32 m' x = load32 m x.
Proof. intros Hs Hx Hx'. apply load32_ext. intros b Hb. apply Hs. lia. Qed.
Lemma same_half m m' a n x : same_area m m' a n -> a <= x -> x + 2 <= a + n -> load16 m' x = load16 m x.
Proof. intros Hs Hx Hx'. unfold load16. by rewrite !Hs by lia. Qed.

Lemma header_kept m m' exe size ph : same_area m m' exe size -> exe <= ph -> ph + 32 <= exe + size ->
  p_type m' ph = p_type m ph /\ p_offset m' ph = p_offset m ph /\ p_va m' ph = p_va m ph /\ p_filesz m' ph = p_filesz m ph /\
  p_memsz m' ph = p_memsz m ph /\ p_flags m' ph = p_flags m ph.
Proof.
  intros Hk Hlo Hhi. unfold p_type, p_offset, p_va, p_filesz, p_memsz, p_flags.
  split_and!; (eapply same_word; [done|lia|lia]).
Qed.

Lemma seg_bounds m exe size ph : mem_ok m -> seg_ok m exe size ph ->
  VM_USERLO <= seg_lo m ph /\ seg_hi m ph <= VM_USERHI /\ seg_lo m ph <= seg_hi m ph /\
  rounddown (p_va m ph) PAGESIZE = seg_lo m ph /\ roundup (u32 (p_va m ph + p_memsz m ph)) PAGESIZE = seg_hi m ph /\
  u32 (p_va m ph + p_filesz m ph) = p_va m ph + p_filesz m ph /\ 0 <= p_filesz m ph /\
  seg_hi m ph = seg_lo m ph + 4096 * ((seg_hi m ph - seg_lo m ph) / 4096) /\ seg_lo m ph mod 4096 = 0.
Proof.
  intros Hm [Hlo Hhi Hsz _ _]. pose proof (load32_range m (ph + 16) Hm : is_u32 (p_filesz m ph)) as Hf.
  pose proof (load32_range m (ph + 20) Hm : is_u32 (p_memsz m ph)) as Hz.
  unfold seg_lo, seg_hi, rounddown, roundup, rounddown, PAGESIZE. set (v := p_va m ph) in *. set (z := p_memsz m ph) in *. set (f := p_filesz m ph) in *.
  vm_consts. rewrite (u32_small (v - _)), (u32_small (v + z)), (u32_small (v + f)), (u32_small (v + z + 4096 - 1)), u32_small by (unfold W32; zdiv).
  split_and!; zdiv.
Qed.

Lemma elf_segment_wp ks exe size s ph p :
  kstack_ok ks -> pt_inv s -> user_proc p -> kernel_area exe size -> exe <= ph -> ph + 32 <= exe + size ->
  (p_type (phys s) ph = ELF_PROG_LOAD -> seg_ok (phys s) exe size ph) -> 2 * seg_pages (phys s) ph <= room_of s p ->
  wp (elf_segment ks exe ph p) (fun _ s' => loads p (seg_pages (phys s) ph) (seg_view (phys s) exe ph) s s') s.
Proof.
  intros Hks Hinv Hp Ha Hph1 Hph2 Hok Hroom. unfold elf_segment. do 2 wp_step. unfold seg_pages, seg_view in *.
  destruct (Z.eqb_spec (p_type (phys s) ph) ELF_PROG_LOAD) as [Ety|]; cbn [negb]; [|wp_step; by apply loads_refl].
  specialize (Hok Ety). pose proof (vi_mem s Hinv) as Hm.
  destruct (seg_bounds _ _ _ _ Hm Hok) as (B1 & B2 & B3 & -> & -> & -> & B4 & B5 & B6). set (m := phys s) in *.
  set (fa0 := u32 (exe + rounddown (p_offset m ph) PAGESIZE)). set (n := (seg_hi m ph - seg_lo m ph) / 4096) in *.
  assert (Eperm : (if negb (Z.land (p_flags m ph) ELF_PROG_FLAG_WRITE =? 0) then Z.lor (Z.lor PTE_U PTE_P) PTE_W else Z.lor PTE_U PTE_P) = seg_perm m ph)
    by (unfold seg_perm; by destruct (_ =? 0)).
  rewrite Eperm. assert (Hperm : seg_perm m ph = 5 \/ seg_perm m ph = 7) by (unfold seg_perm; destruct (_ =? 0); [by left|by right]).
  apply (wp_while _ (fun '(fa, va) s' => exists k, 0 <= k <= n /\ fa = u32 (fa0 + 4096 * k) /\ va = seg_lo m ph + 4096 * k /\
      loads p k (patch (seg_lo m ph) (4096 * k) (seg_byte m exe ph) (seg_perm m ph)) s s') (fun '(_, va) _ => seg_hi m ph - va)).
  - intros [fa va] s' (k & Hk & -> & -> & Hl) _. destruct (Z.ltb_spec (seg_lo m ph + 4096 * k) (seg_hi m ph)) as [Hlt|Hge].
    + destruct (header_kept m (phys s') exe size ph (kept_same _ _ _ _ (ld_kernel _ _ _ _ _ Hl) Ha) Hph1 Hph2) as (_ & _ & _ & Ef & _ & _).
      pose proof (spent_room _ _ _ _ (ld_spent _ _ _ _ _ Hl)) as Hsp. pose proof (page_is_seg m (phys s') exe size ph k) as Hpg.
      wp_step. wp_call (elf_page_wp ks s' ph p (seg_perm m ph) (p_va m ph + p_filesz m ph)); try done; try (unfold kernel_area in *; lia).
      * apply Hl.
      * zdiv.
      * destruct Hperm as [-> | ->]; done.
      * destruct Hok. vm_consts. lia.
      * rewrite Ef. intros E0. rewrite E0, Z.add_0_r. unfold seg_lo, rounddown, PAGESIZE in *. destruct Hok. vm_consts. rewrite u32_small by (unfold W32; zdiv). lia.
      * rewrite Ef. intros Hf Hlt'. apply (file_area m exe size ph k); done || lia.
      * intros [] s2 Hl2. wp_step. assert (Eva : u32 (seg_lo m ph + 4096 * k + PAGESIZE) = seg_lo m ph + 4096 * (k + 1))
          by (unfold PAGESIZE; rewrite u32_small by (vm_consts; lia); lia).
        rewrite Eva. split; [|lia]. exists (k + 1). split; [lia|]. split_and!; [|done|].
        { unfold PAGESIZE, u32. rewrite Zplus_mod_idemp_l. f_equal. lia. }
        pose proof (loads_trans _ _ _ _ _ _ _ _ Hl Hl2) as Hl3. eapply loads_ext; [|exact Hl3]. intros x Hx. unfold patch. rewrite Ef.
        destruct (decide (seg_lo m ph + 4096 * k <= x < _)) as [Hin|Hin]; cbn [or_else].
        { rewrite decide_True by lia. rewrite Hpg by (done || lia || apply Hl). f_equal. f_equal. by destruct Hperm as [-> | ->]. }
        destruct (decide (seg_lo m ph <= x < seg_lo m ph + 4096 * k)); [by rewrite decide_True by lia|by rewrite decide_False by lia].
    + wp_step. replace (seg_hi m ph - seg_lo m ph) with (4096 * k) by lia. by replace n with k by lia.
  - exists 0. split; [zdiv|]. split_and!; [rewrite Z.add_0_r; symmetry; apply u32_small, u32_range|lia|].
    eapply loads_ext; [|by apply loads_refl]. intros x Hx. unfold patch. by rewrite decide_False by lia.
  - vm_consts. lia.
Qed.

(** The segments do not change while others are loaded. *)
Lemma seg_kept m m' exe size ph : same_area m m' exe size -> mem_ok m -> exe <= ph -> ph + 32 <= exe + size ->
  p_type m' ph = p_type m ph /\ seg_pages m' ph = seg_pages m ph /\ (seg_ok m exe size ph -> seg_ok m' exe size ph) /\
  ((p_type m ph = ELF_PROG_LOAD -> seg_ok m exe size ph) -> forall x, seg_view m' exe ph x = seg_view m exe ph x).
Proof.
  intros Hk Hm H1' H2'. destruct (header_kept m m' exe size ph Hk H1' H2') as (E1 & E2 & E3 & E4 & E5 & E6).
  split; [done|]. split; [unfold seg_pages, seg_lo, seg_hi; by rewrite E1, E3, E5|]. split.
  { intros [? ? ? ? ?]. split; by rewrite ?E2, ?E3, ?E4, ?E5. }
  intros Hok x. unfold seg_view, seg_lo, seg_hi, seg_perm. rewrite E1, E3, E5, E6. destruct (Z.eqb_spec (p_type m ph) ELF_PROG_LOAD) as [Ety|]; [|done].
  unfold patch. case_decide as Hin; [|done]. do 2 f_equal. unfold seg_byte. rewrite E2, E3, E4.
  destruct (Z.ltb_spec x (p_va m ph + p_filesz m ph)); [|done]. destruct (Z.eqb_spec (p_filesz m ph) 0); [done|]. cbn [andb negb].
  destruct (Hok Ety) as [_ _ _ Hal [?|Hf]]; [done|]. pose proof (load32_range m (ph + 4) Hm : is_u32 (p_offset m ph)) as Ho.
  apply Hk. set (o := p_offset m ph) in *. set (v := p_va m ph) in *. unfold is_u32 in Ho. zdiv.
Qed.

(** ** The image *)
Definition phdr (m : mem) (exe k : Z) : Z := exe + e_phoff m exe + SIZEOF_PROGHDR * k.
(** A page that lies in several segments shows the last of them. *)
Fixpoint segs_view (m : mem) (exe : Z) (n : nat) (x : Z) : option (Z * Z) :=
  match n with O => None | S n' => or_else (seg_view m exe (phdr m exe (Z.of_nat n')) x) (segs_view m exe n' x) end.
Definition elf_view (m : mem) (exe x : Z) : option (Z * Z) := segs_view m exe (Z.to_nat (e_phnum m exe)) x.
Definition elf_pages (m : mem) (exe : Z) : Z := zsum (fun k => seg_pages m (phdr m exe k)) (e_phnum m exe).

Record elf_ok (m : mem) (exe size : Z) : Prop := {
  eo_area : kernel_area exe size /\ 52 <= size;
  eo_magic : e_magic m exe = ELF_MAGIC;
  eo_strtab : e_shstrndx m exe <> ELF_SHN_UNDEF /\ sh_type m (exe + e_shoff m exe + SIZEOF_SECHDR * e_shstrndx m exe) = ELF_SHT_STRTAB;
  eo_shdrs : e_shoff m exe + SIZEOF_SECHDR * (e_shstrndx m exe + 1) <= size;
  eo_phdrs : e_phoff m exe + SIZEOF_PROGHDR * e_phnum m exe <= size;
  eo_segs k : 0 <= k < e_phnum m exe -> p_type m (phdr m exe k) = ELF_PROG_LOAD -> seg_ok m exe size (phdr m exe k)
}.

Lemma seg_pages_nonneg m exe size ph : mem_ok m -> (p_type m ph = ELF_PROG_LOAD -> seg_ok m exe size ph) -> 0 <= seg_pages m ph.
Proof.
  intros Hm Hok. unfold seg_pages. destruct (Z.eqb_spec (p_type m ph) ELF_PROG_LOAD) as [E|]; [|done].
  destruct (seg_bounds m exe size ph Hm (Hok E)) as (_ & _ & ? & _). zdiv.
Qed.
Lemma elf_pages_upto m exe size k : mem_ok m -> elf_ok m exe size -> 0 <= k < e_phnum m exe ->
  zsum (fun k => seg_pages m (phdr m exe k)) k + seg_pages m (phdr m exe k) <= elf_pages m exe.
Proof.
  intros Hm Hok Hk. pose proof (zsum_succ (fun k => seg_pages m (phdr m exe k)) k ltac:(lia)) as E. cbv beta in E.
  rewrite <- E. apply zsum_prefix; [lia|]. intros i Hi. cbv beta. apply (seg_pages_nonneg m exe size); [done|].
  apply (eo_segs _ _ _ Hok). lia.
Qed.

(** Only the bytes of the image matter. *)
Lemma elf_kept m m' exe size : same_area m m' exe size -> mem_ok m -> elf_ok m exe size ->
  elf_ok m' exe size /\ elf_pages m' exe = elf_pages m exe /\ (forall x, elf_view m' exe x = elf_view m exe x) /\
  e_magic m' exe = e_magic m exe /\ e_entry m' exe = e_entry m exe.
Proof.
  intros Hs Hm [[Ha Hsz] Hmag [Hsh1 Hsh2] Hshs Hphs Hseg].
  pose proof (load16_range m (exe + 44) Hm : 0 <= e_phnum m exe < 65536) as Hn. pose proof (load32_range m (exe + 28) Hm : is_u32 (e_phoff m exe)) as Hoff.
  pose proof (load32_range m (exe + 32) Hm : is_u32 (e_shoff m exe)) as Hso. pose proof (load16_range m (exe + 50) Hm : 0 <= e_shstrndx m exe < 65536) as Hsi.
  assert (E1 : e_magic m' exe = e_magic m exe) by (eapply same_word; [done|lia|lia]).
  assert (E2 : e_entry m' exe = e_entry m exe) by (eapply same_word; [done|lia|lia]).
  assert (E3 : e_phoff m' exe = e_phoff m exe) by (eapply same_word; [done|lia|lia]).
  assert (E4 : e_shoff m' exe = e_shoff m exe) by (eapply same_word; [done|lia|lia]).
  assert (E5 : e_phnum m' exe = e_phnum m exe) by (eapply same_half; [done|lia|lia]).
  assert (E6 : e_shstrndx m' exe = e_shstrndx m exe) by (eapply same_half; [done|lia|lia]).
  assert (E7 : forall k, phdr m' exe k = phdr m exe k) by (intros k; unfold phdr; by rewrite E3).
  assert (Hph : forall k, 0 <= k < e_phnum m exe -> exe <= phdr m exe k /\ phdr m exe k + 32 <= exe + size)
    by (intros k Hk; unfold phdr, SIZEOF_PROGHDR, is_u32 in *; lia).
  pose proof (fun k Hk => seg_kept m m' exe size (phdr m exe k) Hs Hm (proj1 (Hph k Hk)) (proj2 (Hph k Hk))) as Hsg. split_and!; [| | |done|done].
  - split; rewrite ?E1, ?E3, ?E4, ?E5, ?E6; try done.
    + split; [done|]. rewrite <- Hsh2. eapply same_word; [done|unfold SIZEOF_SECHDR, is_u32 in *; lia..].
    + intros k Hk. rewrite E7. destruct (Hsg k Hk) as (-> & _ & H1' & _). intros Ety. by apply H1', Hseg.
  - unfold elf_pages. rewrite E5. apply zsum_ext. intros k Hk. rewrite E7. by destruct (Hsg k Hk) as (_ & -> & _).
  - intros x. unfold elf_view. rewrite E5. assert (Hall : (Z.to_nat (e_phnum m exe) <= Z.to_nat (e_phnum m exe))%nat) by done. revert Hall.
    generalize (Z.to_nat (e_phnum m exe)) at 1 3 4. intros n. induction n as [|n IH]; intros Hle; [done|]. cbn [segs_view]. rewrite IH by lia.
    rewrite E7. destruct (Hsg (Z.of_nat n) ltac:(lia)) as (_ & _ & _ & Hv). by rewrite Hv by (apply Hseg; lia).
Qed.

Lemma elf_load_wp ks exe size s p :
  kstack_ok ks -> pt_inv s -> user_proc p -> elf_ok (phys s) exe size -> 2 * elf_pages (phys s) exe <= room_of s p ->
  wp (elf_load ks exe p) (fun _ s' => loads p (elf_pages (phys s) exe) (elf_view (phys s) exe) s s') s.
Proof.
  intros Hks Hinv Hp Hok Hroom. pose proof Hok as [[Ha Hsz] Hmag [Hsh1 Hsh2] Hshs Hphs Hseg]. unfold elf_load. do 2 wp_step. set (m := phys s) in *.
  pose proof (vi_mem s Hinv : mem_ok m) as Hm.
  assert (Esh : u32 (u32 (exe + e_shoff m exe) + SIZEOF_SECHDR * e_shstrndx m exe) = exe + e_shoff m exe + SIZEOF_SECHDR * e_shstrndx m exe).
  { pose proof (load32_range m (exe + 32) Hm : is_u32 (e_shoff m exe)). pose proof (load16_range m (exe + 50) Hm : 0 <= e_shstrndx m exe < 65536).
    unfold SIZEOF_SECHDR, kernel_area in *. vm_consts. rewrite (u32_small (exe + _)), u32_small by (unfold W32; lia). done. }
  rewrite Hmag. do 2 wp_step. rewrite (proj2 (Z.eqb_neq _ _) Hsh1). do 2 wp_step. rewrite Esh, Hsh2. do 2 wp_step. pose proof (load16_range m (exe + 44) Hm : 0 <= e_phnum m exe < 65536) as Hn.
  pose proof (load32_range m (exe + 28) Hm : is_u32 (e_phoff m exe)) as Hoff. unfold SIZEOF_PROGHDR in Hphs.
  assert (E1 : u32 (exe + e_phoff m exe) = phdr m exe 0) by (unfold phdr, kernel_area, SIZEOF_PROGHDR in *; rewrite u32_small by (vm_consts; lia); lia).
  rewrite E1. assert (E2 : u32 (phdr m exe 0 + SIZEOF_PROGHDR * e_phnum m exe) = phdr m exe (e_phnum m exe))
    by (unfold phdr, kernel_area, SIZEOF_PROGHDR in *; rewrite u32_small by (vm_consts; lia); lia).
  rewrite E2. apply (wp_while _ (fun ph s' => exists k, 0 <= k <= e_phnum m exe /\ ph = phdr m exe k /\
      loads p (zsum (fun k => seg_pages m (phdr m exe k)) k) (segs_view m exe (Z.to_nat k)) s s') (fun ph _ => phdr m exe (e_phnum m exe) - ph)).
  - intros ph s' (k & Hk & -> & Hl) _. destruct (Z.ltb_spec (phdr m exe k) (phdr m exe (e_phnum m exe))) as [Hlt|Hge].
    + assert (Hkn : k < e_phnum m exe) by (unfold phdr, SIZEOF_PROGHDR in *; lia).
      pose proof (elf_pages_upto m exe size k Hm Hok ltac:(lia)) as Hup. pose proof (spent_room _ _ _ _ (ld_spent _ _ _ _ _ Hl)) as Hsp.
      assert (H1' : exe <= phdr m exe k) by (unfold phdr, SIZEOF_PROGHDR, is_u32 in *; lia).
      assert (H2' : phdr m exe k + 32 <= exe + size) by (unfold phdr, SIZEOF_PROGHDR in *; lia).
      destruct (seg_kept m (phys s') exe size (phdr m exe k) (kept_same _ _ _ _ (ld_kernel _ _ _ _ _ Hl) Ha) Hm H1' H2') as (Ety & Epg & Hok' & Ev).
      specialize (Hseg k ltac:(lia)). wp_step. wp_call (elf_segment_wp ks exe size s' (phdr m exe k) p); try done; [apply Hl| | |].
      * rewrite Ety. auto.
      * rewrite Epg. lia.
      * intros [] s2 Hl2. wp_step. rewrite Epg in Hl2.
        assert (E : u32 (phdr m exe k + SIZEOF_PROGHDR) = phdr m exe (k + 1)).
        { unfold phdr, SIZEOF_PROGHDR, kernel_area in *. rewrite u32_small by (vm_consts; lia). lia. }
        rewrite E. split; [|unfold phdr, SIZEOF_PROGHDR; lia]. exists (k + 1). split; [lia|]. split; [done|].
        rewrite zsum_succ by lia. replace (Z.to_nat (k + 1)) with (S (Z.to_nat k)) by lia.
        eapply loads_ext; [|exact (loads_trans _ _ _ _ _ _ _ _ Hl Hl2)]. intros x Hx. cbn [segs_view]. by rewrite Z2Nat.id, Ev by (done || lia).
    + wp_step. assert (k = e_phnum m exe) as -> by (unfold phdr, SIZEOF_PROGHDR in *; lia). done.
  - exists 0. split; [lia|]. split; [done|]. rewrite zsum_0. by apply loads_refl.
  - unfold phdr, SIZEOF_PROGHDR, kernel_area in *. vm_consts. lia.
Qed.

(** C13: elf_load loads a program.  The process then sees at every user
    address in a page of a segment the byte of the file, or zero after the end
    of the file's part, with the permissions of the header (if several
    segments have the page, those of the last); everything else it sees is as
    before, and so is what every other process sees.  Kernel memory outside
    the page directories, the image included, is not written, and the page
    tables stay well-formed.  Two pages of quota per page of the segments are
    enough. *)
Theorem elf_load_correct ks exe size s p :
  kstack_ok ks -> pt_inv s -> user_proc p -> elf_ok (phys s) exe size -> 2 * elf_pages (phys s) exe <= room_of s p ->
  wp (elf_load ks exe p) (fun _ s' => pt_inv s' /\ kernel_kept (phys s) (phys s') /\
    forall q x, user_proc q -> user_va x ->
      view s' q x = if decide (q = p) then or_else (elf_view (phys s) exe x) (view s q x) else view s q x) s.
Proof. intros. wp_call elf_load_wp; [done..|]. intros [] s' []. done. Qed.
End spec.

(** ** A program for the examples

    One segment: the image itself at VM_USERLO, writable, padded to two
    pages. *)
Definition demo_word (x : Z) : list Z := [x mod 256; x / 256 mod 256; x / 65536 mod 256; x / 16777216].
Definition demo_elf : list Z :=
  demo_word ELF_MAGIC ++ replicate 20 0 ++ demo_word 1073741876 ++ demo_word 52 ++ demo_word 84 ++ replicate 8 0 ++
  [1; 0] ++ replicate 4 0 ++ [1; 0] ++
  demo_word 1 ++ demo_word 0 ++ demo_word VM_USERLO ++ demo_word 0 ++ demo_word 164 ++ demo_word 5000 ++ demo_word 6 ++ demo_word 4096 ++
  replicate 44 0 ++ demo_word 3 ++ replicate 32 0.
Definition demo_image : mem := write_bytes ∅ 8650752 demo_elf.
Lemma demo_image_ok : mem_ok demo_image.
Proof. apply mem_ok_write_bytes, mem_ok_empty. Qed.
Lemma demo_elf_ok : elf_ok demo_image 8650752 164 /\ elf_pages demo_image 8650752 = 2.
Proof.
  assert (Ep : e_phnum demo_image 8650752 = 1) by (vm_compute; reflexivity).
  assert (Eh : phdr demo_image 8650752 0 = 8650804) by (vm_compute; reflexivity).
  assert (Ev : p_va demo_image 8650804 = VM_USERLO) by (vm_compute; reflexivity).
  assert (Em : p_memsz demo_image 8650804 = 5000) by (vm_compute; reflexivity).
  assert (Ef : p_filesz demo_image 8650804 = 164) by (vm_compute; reflexivity).
  assert (Eo : p_offset demo_image 8650804 = 0) by (vm_compute; reflexivity).
  split; [split|].
  - unfold kernel_area, VM_USERLO, PDirPool, IDPTbl, demo_layout, NUM_IDS. lia.
  - vm_compute. reflexivity.
  - split; [|vm_compute; reflexivity]. intros E. apply (f_equal (Z.eqb 0)) in E. vm_compute in E. discriminate.
  - assert (Es : e_shoff demo_image 8650752 = 84) by (vm_compute; reflexivity). assert (Ex : e_shstrndx demo_image 8650752 = 1) by (vm_compute; reflexivity).
    rewrite Es, Ex. unfold SIZEOF_SECHDR. lia.
  - assert (Es : e_phoff demo_image 8650752 = 52) by (vm_compute; reflexivity). rewrite Es, Ep. unfold SIZEOF_PROGHDR. lia.
  - rewrite Ep. intros k Hk _. replace k with 0 by lia. rewrite Eh. split; rewrite ?Ev, ?Em, ?Ef, ?Eo; unfold VM_USERLO, VM_USERHI; try lia; reflexivity.
  - unfold elf_pages. rewrite Ep. change 1 with (0 + 1) at 1. rewrite zsum_succ, zsum_0 by lia. rewrite Eh. vm_compute. reflexivity.
Qed.

(** A process with a quota of four pages. *)
Lemma demo_elf_vm : exists s, pt_inv s /\ same_area demo_image (phys s) 8650752 164 /\ 4 <= room_of s 1.
Proof.
  destruct (proj1 (wp_elim _ _ _) (wp_and _ _ _ _ (paging_init_wp demo_mmap 2 demo_image 0 0 0 ltac:(lia) demo_mmap_all demo_image_ok)
    (paging_init_keeps demo_mmap 2 demo_image 0 0 0 ltac:(lia) demo_mmap_all))) as ([] & s0 & _ & (Hinv & _ & _ & _ & Ec) & Hk).
  destruct (demo_init_pages _ Ec) as [HC Hq].
  assert (Hso : split_ok (CONTAINER (cn s0)) 0 4).
  { rewrite HC. unfold root_con. split; rewrite ?lookup_total_insert_eq; cbn [used nchildren usage quota]; unfold MAX_CHILDREN, NUM_IDS; lia. }
  destruct (proj1 (wp_elim _ _ _) (alloc_mem_quota_wp demo_ks s0 0 4 demo_ks_ok Hinv Hso)) as (r1 & s1 & _ & Hinv1 & [Eph _] & _ & _ & _ & _ & HC1).
  exists s1. split; [done|]. split.
  - intros x Hx. rewrite Eph. apply Hk; unfold PDirPool, IDPTbl, demo_layout, NUM_IDS; lia.
  - unfold room_of. rewrite HC1, HC. unfold split_con, root_con. rewrite lookup_total_insert_eq, lookup_total_insert_ne by done. simpl.
    rewrite lookup_total_insert_eq. reflexivity.
Qed.
Lemma elf_load_correct_witness : exists s,
  wp (elf_load demo_ks 8650752 1) (fun _ s' => view s' 1 VM_USERLO = Some (127, 7) /\ view s' 1 (VM_USERLO + 5000) = Some (0, 7)) s.
Proof.
  destruct demo_elf_vm as (s & Hinv & Hs & Hr). destruct demo_elf_ok as [Hok Hpg].
  destruct (elf_kept _ _ _ _ Hs demo_image_ok Hok) as (Hok' & Hpg' & Hv & _). exists s.
  eapply wp_mono; [apply (elf_load_correct demo_ks 8650752 164 s 1 demo_ks_ok Hinv user_proc_1 Hok')|].
  - rewrite Hpg', Hpg. lia.
  - assert (E1 : elf_view demo_image 8650752 VM_USERLO = Some (127, 7)) by (vm_compute; reflexivity).
    assert (E2 : elf_view demo_image 8650752 (VM_USERLO + 5000) = Some (0, 7)) by (vm_compute; reflexivity).
    intros [] s' (_ & _ & H). split.
    + rewrite (H 1 VM_USERLO user_proc_1 ltac:(unfold user_va, VM_USERLO, VM_USERHI; lia)), decide_True, Hv, E1 by reflexivity. reflexivity.
    + rewrite (H 1 (VM_USERLO + 5000) user_proc_1 ltac:(unfold user_va, VM_USERLO, VM_USERHI; lia)), decide_True, Hv, E2 by reflexivity. reflexivity.
Defined.
