(* ===== verification/Init.v ===== *)
(** * Initialisation (kern/init, kern/dev/devinit, kern/trap/TTrapInit,
      intr_init of kern/dev/intr)

    From kern_init to the first user process on the boot processor, and
    kern_init_ap on the others.  The messages that are printed on the way and
    the console they go to (Console.v) are left out. *)

From stdpp Require Import base gmap list numbers.
From S2P Require Import Prelude Apic Mp Lock Pmmap Pmm Container Mem Vmm Str Copy Thread Queue Sched Ide IdeSpec Bufcache BlockIO Log LogSpec Block Inode File Tf Sysfile Seg Trap.
Import Spinlock Types MContainer PCPUIntro PTCBIntro PCurID PKCtxIntro PTQueueIntro PTQueueInit.

Definition CR4_OSFXSR : Z := 512.
Definition CR4_OSXMMEXCPT : Z := 1024.
Definition CR4_OSXSAVE : Z := 262144.
Definition enable_sse : K vm unit :=
  v4 ← rcr4;
  lcr4 (Z.lor (Z.lor (Z.lor v4 CR4_OSFXSR) CR4_OSXMMEXCPT) CR4_OSXSAVE) ;;
  v0 ← rcr0;
  lcr0 (Z.ldiff (Z.lor v0 CR0_MP) (Z.lor CR0_EM CR0_TS)).

(** ** The BSS

    seg_init clears the variables without initial value; what is left is the
    hardware, the stack of the boot processor and initialised data (the mask
    of the 8259).  The page tables in memory are written before they are
    used. *)
Definition bss_thr (t : thr) : thr :=
  Thr (Vm cont0 (phys (vmst t)) (cr0 (vmst t)) (cr3 (vmst t)) (cr4 (vmst t))) ∅ ∅ ∅ ∅ ∅ free_lock ∅ (cpu t) false.
Definition bss_bio (b : bio) : bio :=
  Bio (bss_thr (th b)) free_lock NULL 0 (dsk b) free_lock
    (list_to_map ((fun i => (i, Buf 0 0 0 NULL NULL NULL ∅)) <$> seqZ 0 (NBUF + 1))).
Definition bss_ffs (f : ffs) : ffs :=
  Ffs (Ifs (Jfs (bss_bio (bi (jf (ino f)))) (Log free_lock 0 0 0 0 0 ∅)) free_lock ∅) free_lock
    (list_to_map ((fun i => (i, File FD_NONE 0 0 0 NULL 0)) <$> seqZ 0 NFILE)).
Definition bss_segs (s : segs) : segs :=
  Segs {[0 := bsp_ks s !!! 0]} ∅ (gdtr s) (tr s) (cs_reg s) (ds_reg s) (idtr s) ∅.
Definition bss_intc (i : intc) : intc :=
  Intc (io_ports i) (Pics (irqmask (Apic.pc i)) false) (Ioapics (iodevs (io i)) ∅ ∅ ∅ 0)
    (Lapic 0 (l_regs (la i)) (l_since (la i)) (l_busy (la i)) (l_latency (la i)) (l_ipis (la i))) false 0 (msrs i).
Definition clear_bss : K kern unit := modify (fun k =>
  let h := dev k in
  Kern (bss_ffs (kfs k)) (bss_segs (sg k)) (Trp ∅ ∅ ∅ false false ∅)
    (Hw (frames h) (regs h) (cr2 h) (bss_intc (h_ic h)) 0 false false ∅ (console h))).

Section ops.
Context `{layout} `{fs_layout} `{sys_layout} `{seg_layout} `{prog_layout} `{clocks} `{mp_layout} (ks : kstack).

(** ** Traps and interrupts *)
Definition trap_init_array : K kern unit :=
  t ← gets tp;
  kern_assert (negb (trap_inited t)) ;;
  zoom l_tp (modify (set_handlers ∅)) ;;
  zoom l_tp (modify (set_trap_inited true)).

Definition trap_handler_register (cpu_idx trapno : Z) (cb : trap_cb) : K kern unit :=
  kern_assert ((0 <=? cpu_idx) && (cpu_idx <? 8)) ;;
  kern_assert ((0 <=? trapno) && (trapno <? 256)) ;;
  zoom l_tp (modify (fun t => set_handlers (<[(cpu_idx, trapno) := cb]> (TRAP_HANDLER t)) t)).

Definition trap_init (cpu_idx : Z) : K kern unit :=
  (if cpu_idx =? 0 then trap_init_array else mret tt) ;;
  for_range 0 256 (fun trapno =>
    if ((T_DIVIDE <=? trapno) && (trapno <=? T_SIMD)) || (trapno =? T_SECEV) then
      trap_handler_register cpu_idx trapno exception_cb
    else if ((T_IRQ0 + IRQ_TIMER <=? trapno) && (trapno <=? T_IRQ0 + IRQ_RTC))
            || ((T_IRQ0 + IRQ_MOUSE <=? trapno) && (trapno <=? T_IRQ0 + IRQ_IDE2))
            || (trapno =? T_IRQ0 + IRQ_ERROR) || (trapno =? T_IRQ0 + IRQ_EHCI_2)
            || ((T_LTIMER <=? trapno) && (trapno <=? T_PERFCTR)) then
      trap_handler_register cpu_idx trapno interrupt_cb
    else if trapno =? T_SYSCALL then trap_handler_register cpu_idx trapno syscall_cb
    else mret tt) ;;
  zoom l_mp (intr_enable IRQ_TIMER cpu_idx) ;;
  zoom l_mp (intr_enable IRQ_KBD cpu_idx) ;;
  zoom l_mp (intr_enable IRQ_SERIAL13 cpu_idx) ;;
  zoom l_mp (intr_enable IRQ_IDE1 cpu_idx).

Definition intr_init : K kern unit :=
  let '(_, _, _, edx) := Apic.cpuid 1 in
  zoom l_ic (modify (set_using_apic (negb (Z.land edx CPUID_FEATURE_APIC =? 0)))) ;;
  apic ← gets (fun k => using_apic (h_ic (dev k)));
  kern_assert apic ;;
  onboot ← zoom l_mp (pcpu_onboot ks);
  (if (onboot : bool) then
     zoom l_ic pic_init ;;
     if (apic : bool) then
       zoom (lens_comp l_ic l_io) ioapic_init ;;
       zoom l_sg intr_init_idt
     else mret tt
   else mret tt) ;;
  (if (apic : bool) then zoom l_ic lapic_init else mret tt) ;;
  zoom l_sg intr_install_idt.

(** ** The boot processor

    [ksp] is the address of the boot stack, [present] what the port of the
    second disk gives; pmmap_init, which comes before bufcache_init, is in
    pmem_init (Pmm.v). *)
Definition devinit (ksp : Z) (present : Z -> Z) : K kern unit :=
  clear_bss ;;
  zoom l_sg (seg_init 0) ;;
  zoom l_kvm enable_sse ;;
  zoom l_mp (pcpu_init ks ksp) ;;
  zoom l_ic tsc_init ;;
  intr_init ;;
  trap_init 0 ;;
  zoom l_kbi bufcache_init ;;
  zoom l_kfs file_init ;;
  zoom (lens_comp l_kfs l_ino) inode_init ;;
  zoom l_kbi (ide_init present).

(** The context switch at the end continues at the start of the idle
    process. *)
Definition kern_main : K kern unit :=
  cpu_idx ← zoom l_kth (get_pcpu_idx ks);
  pid ← proc_create ks elf_idle 10000;
  zoom l_kth (tqueue_remove NUM_IDS pid) ;;
  zoom l_kth (tcb_set_state pid TSTATE_RUN) ;;
  zoom l_kth (set_curid ks pid) ;;
  zoom l_kth (kctx_switch 0 pid) ;;
  resume ks.

Definition kern_init (ksp : Z) (present : Z -> Z) (root mmap_length : Z) (mmap : Z -> mboot_mmap) : K kern unit :=
  thread_init l_kth (devinit ksp present) ks root mmap_length mmap ;;
  kern_main.

(** ** The other processors

    The registers are those of the processor that runs.  [all_ready] is what
    the loop reads; no code writes it. *)
Definition devinit_ap (ksp : Z) : K kern unit :=
  let cpu_idx := get_kstack_cpu_idx ks in
  kern_assert (negb (ksp =? 0)) ;;
  kern_assert ((1 <=? cpu_idx) && (cpu_idx <? 8)) ;;
  zoom l_sg (seg_init cpu_idx) ;;
  zoom l_mp (pcpu_init ks ksp) ;;
  intr_init ;;
  trap_init cpu_idx ;;
  zoom l_kvm paging_init_ap.
Definition kern_main_ap (all_ready : bool) (cpu_booted : Z) : K kern Z :=
  cpu_idx ← zoom l_kth (get_pcpu_idx ks);
  zoom l_kth (set_pcpu_boot_info cpu_idx true) ;;
  if all_ready then int_add cpu_booted 1 else spin.
Definition kern_init_ap {A} (ksp : Z) (f : K kern A) : K kern A := devinit_ap ksp ;; f.
End ops.
