(* ===== verification/InitSpec.v ===== *)
(** * The kernel after its initialisation: traps and interrupts

    The descriptor table, the table of handlers and the interrupt
    controllers fit together: what a device raises ends in the handler that
    the kernel has for it. *)

From stdpp Require Import base gmap list numbers.
From S2P Require Import Prelude Apic ApicSpec Mp MpSpec Lock Pmmap Pmm Container Mem Vmm VmmSpec Str Copy Thread Queue Sched Ide IdeSpec Bufcache BlockIO Log LogSpec Block Inode File Tf Sysfile Seg Trap Frame TrapSpec Init.
Import Spinlock Types MContainer PCPUIntro PTCBIntro PCurID PKCtxIntro PTQueueIntro PTQueueInit.

(** ** The table of handlers *)
Definition handler_of (n : Z) : option trap_cb :=
  if ((T_DIVIDE <=? n) && (n <=? T_SIMD)) || (n =? T_SECEV) then Some exception_cb
  else if ((T_IRQ0 + IRQ_TIMER <=? n) && (n <=? T_IRQ0 + IRQ_RTC))
          || ((T_IRQ0 + IRQ_MOUSE <=? n) && (n <=? T_IRQ0 + IRQ_IDE2))
          || (n =? T_IRQ0 + IRQ_ERROR) || (n =? T_IRQ0 + IRQ_EHCI_2)
          || ((T_LTIMER <=? n) && (n <=? T_PERFCTR)) then Some interrupt_cb
  else if n =? T_SYSCALL then Some syscall_cb
  else None.
(** The lines that trap_init enables. *)
Definition enabled_irqs : list Z := [IRQ_TIMER; IRQ_KBD; IRQ_SERIAL13; IRQ_IDE1].

Section spec.
Context `{layout} `{fs_layout} `{sys_layout} `{seg_layout} `{prog_layout} `{clocks} `{mp_layout}.

Lemma register_eq c n cb k : 0 <= c < 8 -> 0 <= n < 256 ->
  trap_handler_register c n cb k =
    Ok tt (lset l_tp (set_handlers (<[(c, n) := cb]> (TRAP_HANDLER (tp k))) (tp k)) k).
Proof. intros. unfold trap_handler_register. krun. by zbool. Qed.

(** The loop over the trap numbers. *)
Lemma register_loop c k : 0 <= c < 8 -> (forall n, TRAP_HANDLER (tp k) !! (c, n) = None) ->
  wp (for_range 0 256 (fun trapno =>
      if ((T_DIVIDE <=? trapno) && (trapno <=? T_SIMD)) || (trapno =? T_SECEV) then trap_handler_register c trapno exception_cb
      else if ((T_IRQ0 + IRQ_TIMER <=? trapno) && (trapno <=? T_IRQ0 + IRQ_RTC))
              || ((T_IRQ0 + IRQ_MOUSE <=? trapno) && (trapno <=? T_IRQ0 + IRQ_IDE2))
              || (trapno =? T_IRQ0 + IRQ_ERROR) || (trapno =? T_IRQ0 + IRQ_EHCI_2)
              || ((T_LTIMER <=? trapno) && (trapno <=? T_PERFCTR)) then trap_handler_register c trapno interrupt_cb
      else if trapno =? T_SYSCALL then trap_handler_register c trapno syscall_cb
      else mret tt))
    (fun _ k' => exists T, k' = lset l_tp (set_handlers T (tp k)) k /\ forall n, 0 <= n < 256 -> T !! (c, n) = handler_of n) k.
Proof.
  intros Hc Hk. apply (wp_mono _ (fun _ k' => exists T, k' = lset l_tp (set_handlers T (tp k)) k /\
      forall n, 0 <= n < 256 -> T !! (c, n) = if n <? 256 then handler_of n else None)).
  2: { intros [] k' (T & -> & HT). exists T. split; [done|]. intros n Hn. rewrite HT by done. by zbool. }
  apply (wp_for _ (fun j k' => exists T, k' = lset l_tp (set_handlers T (tp k)) k /\
      forall n, 0 <= n < 256 -> T !! (c, n) = if n <? j then handler_of n else None)); [lia| |].
  - intros j k2 Hj (T & -> & Hh). assert (Hset : forall cb, handler_of j = Some cb ->
      wp (trap_handler_register c j cb) (fun _ k' => exists T', k' = lset l_tp (set_handlers T' (tp k)) k /\ forall n, 0 <= n < 256 -> T' !! (c, n) =
        if n <? j + 1 then handler_of n else None) (lset l_tp (set_handlers T (tp k)) k)).
    { intros cb E. eapply wp_of_eq; [apply register_eq; lia|]. eexists. split; [reflexivity|]. intros n Hr. simpl.
      destruct (decide (n = j)) as [->|Hne]; [rewrite lookup_insert_eq; by zbool|].
      rewrite lookup_insert_ne by congruence. rewrite (Hh n Hr). by replace (n <? j + 1) with (n <? j) by lia. }
    unfold handler_of in Hset. zcases; [by apply Hset..|]. wp_step. exists T. split; [done|]. intros n Hr. rewrite (Hh n Hr).
    destruct (Z.ltb_spec n j) as [|Hge]; [by zbool|]. destruct (Z.ltb_spec n (j + 1)); [|done].
    replace n with j by lia. unfold handler_of. by rewrite Heqb, Heqb0, Heqb1.
  - exists (TRAP_HANDLER (tp k)). split; [by destruct k as [? ? [] ?]|]. intros n Hr. zbool. apply Hk.
Qed.

(** ** Routing of interrupts *)
Definition kio (k : kern) : ioapics_t := io (h_ic (dev k)).
Definition set_kio (i : ioapics_t) (k : kern) : kern := lset (lens_comp l_ic l_io) i k.
(** The local APIC of processor [c]. *)
Definition apic_of (k : kern) (c : Z) : Z := pi_lapicid (h_infos (dev k) !!! c) mod 256.
(** The I/O APICs that pcpu_mp_init found have the lines that the kernel
    uses, and the processor is one of those it found. *)
Record irqs_ok (c : Z) (k : kern) : Prop := {
  iq_cpu : 0 <= c < NUM_CPUS /\ c < h_ncpu (dev k);
  iq_apics : ioapics_ok (kio k);
  iq_lines irq : irq ∈ enabled_irqs -> exists j, covers (kio k) j irq
}.

Lemma enable_wp c irq k : using_apic (h_ic (dev k)) = true -> irqs_ok c k -> irq ∈ enabled_irqs ->
  wp (zoom l_mp (intr_enable irq c)) (fun _ k' => exists i', k' = set_kio i' k /\ io_same (kio k) i' /\
    forall j irq', covers (kio k) j irq' -> route i' j irq' = if decide (irq' = irq) then Some (T_IRQ0 + irq, apic_of k c) else route (kio k) j irq') k.
Proof.
  intros Hu [[Hc Hn] Hok Hl] Hin. apply wp_zoom. assert (irq < 24).
  { revert irq Hin. apply Forall_forall. by repeat constructor. }
  eapply wp_mono; [apply (intr_enable_wp irq c (lget l_mp k)); [done|done|by apply Hl|done|done|done]|].
  intros [] s (i' & -> & S & R). exists i'. split; [|done]. by destruct k as [[[[[]]]] ? ? []].
Qed.
Lemma irqs_ok_same c k i' : irqs_ok c k -> io_same (kio k) i' -> irqs_ok c (set_kio i' k).
Proof.
  intros [Hc Hok Hl] Hs. split; [done|by eapply io_same_ok|]. intros irq Hi. destruct (Hl irq Hi) as [j Hj]. exists j. by apply (io_same_covers (kio k)).
Qed.
(** The tables after trap_init on processor [c]. *)
Record trap_ready (c : Z) (k k' : kern) (T : gmap (Z * Z) trap_cb) (b : bool) (i' : ioapics_t) : Prop := {
  ty_state : k' = set_kio i' (lset l_tp (set_trap_inited b (set_handlers T (tp k))) k);
  ty_handlers n : 0 <= n < 256 -> T !! (c, n) = handler_of n;
  ty_io : io_same (kio k) i';
  ty_route j irq : covers (kio k) j irq -> route i' j irq = if decide (irq ∈ enabled_irqs) then Some (T_IRQ0 + irq, apic_of k c) else route (kio k) j irq
}.
Lemma enable_list_wp c l : forall k, Forall (fun irq => irq ∈ enabled_irqs) l -> using_apic (h_ic (dev k)) = true -> irqs_ok c k ->
  wp (foldr (fun irq m => zoom l_mp (intr_enable irq c) ;; m) (mret tt) l) (fun _ k' => exists i', k' = set_kio i' k /\ io_same (kio k) i' /\
    forall j irq', covers (kio k) j irq' -> route i' j irq' = if decide (irq' ∈ l) then Some (T_IRQ0 + irq', apic_of k c) else route (kio k) j irq') k.
Proof.
  induction l as [|irq l IH]; intros k Hl Hu Hok; cbn [foldr].
  { wp_step. exists (kio k). split_and!; [by destruct k as [? ? ? [? ? ? [] ? ? ? ? ?]]|done|]. intros. by rewrite decide_False by apply not_elem_of_nil. }
  apply Forall_cons in Hl as [Hi Hl]. wp_step. wp_call (enable_wp c irq); [done..|]. intros [] k1 (i1 & -> & S1 & R1).
  wp_call (IH (set_kio i1 k)); [done|done|by apply irqs_ok_same|]. intros [] k2 (i2 & -> & S2 & R2). exists i2.
  split_and!; [done|by transitivity i1|]. intros j irq' Hc. rewrite R2 by (by apply (io_same_covers (kio k))).
  destruct (decide (irq' ∈ l)) as [Hl1|Hl1]; [rewrite decide_True by (by right); done|]. change (kio (set_kio i1 k)) with i1. rewrite R1 by done.
  destruct (decide (irq' = irq)) as [->|Hl2]; [by rewrite decide_True by (by left)|]. by rewrite decide_False by set_solver.
Qed.
Lemma trap_init_wp c k : using_apic (h_ic (dev k)) = true -> irqs_ok c k -> (c = 0 -> trap_inited (tp k) = false) ->
  (c <> 0 -> forall n, TRAP_HANDLER (tp k) !! (c, n) = None) ->
  wp (trap_init c) (fun _ k' => exists T b i', trap_ready c k k' T b i') k.
Proof.
  intros Hu Hok Hz Hn. unfold trap_init. wp_step. assert (0 <= c < 8) by apply Hok.
  apply (wp_mono _ (fun _ k1 => exists T b, k1 = lset l_tp (set_trap_inited b (set_handlers T (tp k))) k /\ forall n, T !! (c, n) = None)).
  { destruct (Z.eqb_spec c 0) as [E|E].
    - unfold trap_init_array. do 2 wp_step. rewrite (Hz E). wp_steps. exists ∅, true. split; [done|]. intros. by rewrite lookup_empty.
    - wp_step. exists (TRAP_HANDLER (tp k)), (trap_inited (tp k)). split; [by destruct k as [? ? [] ?]|by apply Hn]. }
  intros [] k1 (T & b & -> & HT). wp_step. wp_call (register_loop c); [done|exact HT|]. intros [] k2 (T' & -> & HT').
  match goal with |- wp _ _ ?x => set (k2 := x) end.
  assert (He : wp (foldr (fun irq m => zoom l_mp (intr_enable irq c) ;; m) (mret tt) enabled_irqs) (fun _ k' => exists T b i', trap_ready c k k' T b i') k2).
  { eapply wp_mono; [apply (enable_list_wp c enabled_irqs k2); [by apply Forall_forall|done|by destruct Hok]|].
    intros [] k' (i' & -> & S & R). exists T', b, i'. by split. }
  cbn [foldr enabled_irqs] in He. revert He. unfold wp, mbind, K_bind. do 4 (destruct (zoom _ _ _); [|done..]). done.
Qed.

(** intr_init on the boot processor; the interrupt controllers afterwards. *)
Record controllers (i : ioapics_t) (ic : intc) : Prop := {
  ct_apic : using_apic ic = true;
  ct_same : io_same i (io ic);
  ct_masked j irq : covers i j irq -> route (io ic) j irq = None;
  ct_pic1 : chip_ready (pic1 (io_ports ic)) 255 32 4 1;
  ct_pic2 : chip_ready (pic2 (io_ports ic)) 255 40 2 1;
  ct_lapic : lapic_ready (la ic)
}.
(** The controllers before: not initialised, known from the tables. *)
Record machine_ok (k : kern) : Prop := {
  mo_cpuid : Z.land (Apic.cpuid 1).2 CPUID_FEATURE_APIC <> 0;
  mo_bsp : h_mp_inited (dev k) = true /\ pi_bsp (h_infos (dev k) !!! 0) = true;
  mo_pic : pic_inited (Apic.pc (h_ic (dev k))) = false;
  mo_io : ioapics_ok (kio k);
  mo_lapic : lapic (la (h_ic (dev k))) <> 0;
  mo_busy : 0 <= l_busy (la (h_ic (dev k))) <= l_latency (la (h_ic (dev k)));
  mo_latency : l_latency (la (h_ic (dev k))) < 4294967296
}.
Lemma intr_init_wp `{!running} ks k : machine_ok k -> get_kstack_cpu_idx ks = 0 -> pcpu_idx (pcpu (kthr k) !!! 0) = 0 ->
  wp (intr_init ks) (fun _ k' => exists g ic, k' = lset l_sg (set_idtr true (set_idt g (sg k))) (lset l_ic ic k) /\ idt_ok g /\ controllers (kio k) ic) k.
Proof.
  intros [Hcpu [Hmp Hbsp] Hpic Hok Hlap Hb Hlat] Hks Hidx. unfold intr_init. destruct (Apic.cpuid 1) as [[[a b] c] edx]. cbn [snd] in Hcpu.
  do 3 wp_step. do 2 wp_step. cbn [lset lget l_ic dev h_ic set_ic using_apic set_using_apic]. rewrite (proj2 (Z.eqb_neq _ 0) Hcpu). cbn [negb].
  wp_step. wp_step. wp_step. wp_step.
  match goal with |- wp _ _ (lget l_mp ?x) => set (k1 := x) end.
  eapply (wp_of_eq _ _ _ true (lget l_mp k1)).
  { unfold pcpu_onboot, get_pcpu_idx, pcpu_cur, pcpu_at. rewrite Hks. krun. change (th (bi (jf (ino (kfs k))))) with (kthr k).
    rewrite Hidx. cbn. by rewrite Hmp, Hbsp. }
  replace (lset l_mp (lget l_mp k1) k1) with k1 by (by destruct k as [[[[[]]]] ? ? []]).
  do 3 wp_step. eapply wp_mono; [apply pic_init_wp; exact Hpic|]. intros [] s1 (_ & _ & C1 & C2 & Ei & El & Eu).
  do 2 wp_step. change (lget (lens_comp l_ic l_io) (lset l_ic s1 k1)) with (io s1). rewrite Ei. eapply wp_mono; [apply ioapic_init_wp; exact Hok|]. intros [] i2 [S2 M2]. change (io_same (kio k) i2) in S2.
  change (forall j, 0 <= j < ioapic_num (kio k) -> masked i2 j (maxintr (kio k) j + 1)) in M2.
  wp_step. wp_call intr_init_idt_wp. intros [] s (g & -> & Hg).
  do 2 wp_step. eapply wp_mono; [apply lapic_init_wp; cbn; rewrite El; done|]. intros [] s3 (S3 & L3 & _).
  destruct S3 as (_ & E3 & U3 & P1 & P2 & _). change (io s3 = i2) in E3. unfold intr_install_idt. do 2 wp_step. exists g, s3.
  split; [done|]. split; [done|]. cbn [lset l_ic l_io lens_comp lget dev h_ic set_ic io using_apic io_ports la] in *. split.
  - by rewrite U3, Eu.
  - by rewrite E3.
  - intros j irq [Hj Hirq]. rewrite E3. unfold route. assert (gsi i2 = gsi (kio k)) as -> by apply S2. by rewrite (M2 j Hj (irq - gsi (kio k) !!! j)) by lia.
  - by rewrite P1.
  - by rewrite P2.
  - done.
Qed.
End spec.

(** The handler an interrupt or exception ends in. *)
Definition vector_handler (v : Z) : option trap_cb :=
  if decide (v ∈ seqZ 0 9 ++ seqZ 10 5 ++ seqZ 16 3) then Some exception_cb
  else if decide (v ∈ seqZ 32 9 ++ seqZ 44 4) then Some interrupt_cb
  else if decide (v = 48) then Some syscall_cb else None.

Lemma vector_handler_table : Forall (fun v => handler_of (gate_entry v) = vector_handler v) (seqZ 0 256).
Proof. apply (bool_decide_unpack _). by vm_compute. Qed.
Lemma gate_entry_listed v : gate_entry v ∈ map fst idt_gates.
Proof. unfold gate_entry. case_decide; [done|]. by apply (bool_decide_unpack _). Qed.

(** Vector [v] on processor [c]. *)
Definition vector_ready `{seg_layout} (c : Z) (k : kern) (v : Z) : Prop :=
  let g := idt (sg k) !!! v in
  gd_type g = STS_IG32 /\ gd_ss g = CPU_GDT_KCODE /\ gd_p g = 1 /\
  (exists n, entry_of (gd_offset g) = Some n /\ TRAP_HANDLER (tp k) !! (c, n) = vector_handler v) /\
  int_vector (idt (sg k)) v = if decide (v = 3 \/ v = 4 \/ v = 48) then (v, 0) else (T_GPFLT, 8 * v + 2).
Lemma vectors_ready `{layout} `{seg_layout} c k : idt_ok (idt (sg k)) -> (forall n, 0 <= n < 256 -> TRAP_HANDLER (tp k) !! (c, n) = handler_of n) ->
  forall v, 0 <= v < 256 -> vector_ready c k v.
Proof.
  intros Hg Hh v Hv. unfold vector_ready. rewrite (Hg v Hv). repeat (split; [done|]). split.
  - exists (gate_entry v). pose proof (gate_entry_listed v) as Hin.
    assert (Ho : gd_offset (SETGATE 0 CPU_GDT_KCODE (Xentry (gate_entry v)) (gate_dpl v)) = Xentry (gate_entry v))
      by (by apply (gate_offset (gate_entry v))).
    rewrite Ho. split; [by apply entry_of_listed|].
    assert (0 <= gate_entry v < 256) by (unfold gate_entry; case_decide; [done|unfold T_DEFAULT; lia]).
    rewrite Hh by done. apply (proj1 (Forall_forall _ _) vector_handler_table). apply elem_of_seqZ. lia.
  - unfold int_vector. rewrite (Hg v Hv). cbn [gd_dpl SETGATE]. unfold gate_dpl.
    assert (E : v ∈ [T_BRKPT; T_OFLOW; T_SYSCALL] <-> v = 3 \/ v = 4 \/ v = 48)
      by (rewrite !elem_of_cons, elem_of_nil; unfold T_BRKPT, T_OFLOW, T_SYSCALL; tauto).
    destruct (decide (v ∈ _)) as [Hin|Hin]; [rewrite decide_True by tauto|rewrite decide_False by tauto]; done.
Qed.

Section theorems.
Context `{layout} `{fs_layout} `{sys_layout} `{seg_layout} `{prog_layout} `{clocks} `{mp_layout}.

(** C34: after intr_init_idt and trap_init on processor [c] every vector
    enters the kernel code segment through an interrupt gate (with interrupts
    off) at an entry point whose trap number has this handler: exceptions 0
    to 8, 10 to 14 and 16 to 18, the interrupts 32 to 40 and 44 to 47, and
    the system call; every other vector goes to the default entry point,
    which has none.  User code can raise only vectors 3, 4 and 48 itself; any
    other int is a general protection fault. *)
Theorem vectors_handled c k :
  using_apic (h_ic (dev k)) = true -> irqs_ok c k -> (c = 0 -> trap_inited (tp k) = false) ->
  (c <> 0 -> forall n, TRAP_HANDLER (tp k) !! (c, n) = None) ->
  wp (zoom l_sg intr_init_idt ;; trap_init c) (fun _ k' => forall v, 0 <= v < 256 -> vector_ready c k' v) k.
Proof.
  intros Hu Hok Hz Hn. wp_step. wp_step. wp_call intr_init_idt_wp. intros [] s (g & -> & Hg).
  wp_call (trap_init_wp c); [done|by destruct Hok|done..|]. intros [] k' (T & b & i & [-> HT _ _]). apply vectors_ready; [exact Hg|exact HT].
Qed.

(** C16: intr_init and trap_init on the boot processor connect the devices
    with the kernel.  A line of the I/O APICs is masked unless it is that of
    the timer, the keyboard, the serial port or the disk, which give vector
    32 + irq to the boot processor; at that vector its descriptor table has an
    entry of the kernel whose handler is the interrupt handler.  The 8259
    chips are remapped and masked, and the local APIC is enabled with its
    periodic timer at vector 32 and its priority at 0. *)
Theorem interrupt_routing `{!running} ks k :
  machine_ok k -> irqs_ok 0 k -> get_kstack_cpu_idx ks = 0 -> pcpu_idx (pcpu (kthr k) !!! 0) = 0 -> trap_inited (tp k) = false ->
  wp (intr_init ks ;; trap_init 0) (fun _ k' =>
    (forall j irq, covers (kio k) j irq ->
       if decide (irq ∈ enabled_irqs)
       then route (kio k') j irq = Some (T_IRQ0 + irq, apic_of k 0) /\ vector_ready 0 k' (T_IRQ0 + irq) /\ vector_handler (T_IRQ0 + irq) = Some interrupt_cb
       else route (kio k') j irq = None) /\
    chip_ready (pic1 (io_ports (h_ic (dev k')))) 255 32 4 1 /\ chip_ready (pic2 (io_ports (h_ic (dev k')))) 255 40 2 1 /\
    lapic_ready (la (h_ic (dev k')))) k.
Proof.
  intros Hm Hok Hks Hidx Hti. wp_step. wp_call intr_init_wp; [done..|]. intros [] k1 (g & ic & -> & Hg & [C1 C2 C3 C4 C5 C6]).
  assert (Hok1 : irqs_ok 0 (lset l_sg (set_idtr true (set_idt g (sg k))) (lset l_ic ic k))).
  { destruct Hok as [A B C]. split; [done|by eapply io_same_ok|]. intros irq Hi. destruct (C irq Hi) as [j Hj]. exists j. by apply (io_same_covers (kio k)). }
  wp_call (trap_init_wp 0); [done..|]. intros [] k' (T & b & i & [-> HT Hs Hr]). split_and!; [|done..].
  intros j irq Hc. specialize (Hr j irq ltac:(by apply (io_same_covers (kio k)))). case_decide as Hin; [|change (route i j irq = None); rewrite Hr; by apply C3].
  split; [exact Hr|]. assert (Hv : 0 <= T_IRQ0 + irq < 256 /\ vector_handler (T_IRQ0 + irq) = Some interrupt_cb).
  { clear Hc Hr. revert irq Hin. apply Forall_forall. apply (bool_decide_unpack _). by vm_compute. }
  split; [|apply Hv]. apply vectors_ready; [exact Hg|exact HT|apply Hv].
Qed.
End theorems.

(** ** Witnesses *)
Definition demo_bsp : pcpuinfo := Pcpuinfo 2 true 0 [] UNKNOWN_CPU 0 0 0 0 0 0 0 0 0 0 0 0 0 0.
Definition demo_booting (apic : bool) : kern :=
  lset l_tp (Trp ∅ ∅ ∅ false false ∅)
    (lset l_dev (Hw ∅ inhabitant 0 (set_using_apic apic demo_intc) 1 true true {[0 := demo_bsp]} []) (demo_kern ∅)).
Lemma demo_irqs_ok apic : irqs_ok 0 (demo_booting apic).
Proof.
  split; [by destruct apic|exact demo_ioapics_ok|]. change (kio _) with demo_ioapics. intros irq Hi. exists 0. revert irq Hi.
  apply Forall_forall. repeat constructor; by vm_compute.
Qed.
Lemma vectors_handled_witness :
  irqs_ok 0 (demo_booting true) /\
  wp (zoom l_sg intr_init_idt ;; trap_init 0)
     (fun _ k => exists n, entry_of (gd_offset (idt (sg k) !!! 48)) = Some n /\
        TRAP_HANDLER (tp k) !! (0, n) = Some syscall_cb) (demo_booting true).
Proof.
  refine (conj (demo_irqs_ok true) _). eapply wp_mono; [apply (vectors_handled 0 (demo_booting true)); [done|apply demo_irqs_ok|done|done]|].
  intros [] k Hk. destruct (Hk 48 ltac:(lia)) as (_ & _ & _ & Hn & _). exact Hn.
Defined.
Lemma interrupt_routing_witness :
  irqs_ok 0 (demo_booting false) /\
  wp (intr_init demo_ks ;; trap_init 0)
     (fun _ k => route (kio k) 0 IRQ_IDE1 = Some (46, 2) /\ lapic_ready (la (h_ic (dev k)))) (demo_booting false).
Proof.
  refine (conj (demo_irqs_ok false) _). eapply wp_mono.
  - apply (interrupt_routing demo_ks (demo_booting false)); [|apply demo_irqs_ok|done|done|done].
    split; first [exact demo_ioapics_ok|done].
  - intros [] k (Hr & _ & _ & Hl). split; [|exact Hl]. assert (C : covers (kio (demo_booting false)) 0 IRQ_IDE1) by (by vm_compute).
    specialize (Hr 0 IRQ_IDE1 C). rewrite decide_True in Hr by (apply (bool_decide_unpack _); by vm_compute). exact (proj1 Hr).
Defined.
