(* ===== verification/StartSpec.v ===== *)
(** * From kern_init to the first process

    The initialisation of the devices establishes what the initialisation of
    the threads starts from; kern_main then creates the idle process and
    enters it.  The state it enters is one that the theorems on traps
    (TrapSpec.v) start from. *)

From stdpp Require Import base gmap list numbers.
From S2P Require Import Prelude Apic ApicSpec Mp MpSpec Lock Pmmap Pmm Container Mem Vmm VmmSpec Str Copy Thread Queue Sched Ide IdeSpec Bufcache BlockIO Log LogSpec Block Inode File Tf Sysfile Seg Trap Frame TrapSpec ElfSpec Init InitSpec.
Import Spinlock Types MContainer PCPUIntro PTCBIntro PCurID PKCtxIntro PTQueueIntro PTQueueInit.

(** ** The machine *)

(** The I/O APICs [ios] that the firmware lists, with the registers of the
    devices [D]: different devices with lines of their own, among them those
    that the kernel uses. *)
Definition io_lines (D : gmap Z iodev) (addr : Z) : Z := Z.land (Z.shiftr (io_ver (D !!! addr)) 16) 255.
Definition has_line (D : gmap Z iodev) (e : Z * Z * Z) (irq : Z) : Prop := snd e <= irq <= snd e + io_lines D (snd (fst e)).
Record wiring (D : gmap Z iodev) (ios : list (Z * Z * Z)) : Prop := {
  wi_num : Z.of_nat (length ios) <= MAX_IOAPIC;
  wi_each k e : ios !! k = Some e -> snd (fst e) <> 0 /\ 0 <= snd e < 2147483392;
  wi_distinct k k' e e' : ios !! k = Some e -> ios !! k' = Some e' -> snd (fst e) = snd (fst e') -> k = k';
  wi_disjoint k k' e e' irq : ios !! k = Some e -> ios !! k' = Some e' -> has_line D e irq -> has_line D e' irq -> k = k';
  wi_used irq : irq ∈ enabled_irqs -> exists k e, ios !! k = Some e /\ has_line D e irq
}.
Lemma wiring_entry i D ios k : ioapics_are i ios -> wiring D ios -> 0 <= k < ioapic_num i ->
  exists e, ios !! Z.to_nat k = Some e /\ ioapics i !!! k = snd (fst e) /\ gsi i !!! k = snd e.
Proof.
  intros [En Hi] Hw Hk. pose proof (wi_num _ _ Hw). destruct (lookup_lt_is_Some_2 ios (Z.to_nat k)) as [[[id a] g] E]; [lia|].
  destruct (Hi _ id a g E ltac:(lia)) as (E1 & _ & E2). rewrite Z2Nat.id in E1, E2 by lia. exists (id, a, g). split_and!; [done|done|].
  rewrite E2. unfold s32. apply (wi_each _ _ Hw) in E as [_ E]. cbn in E |- *. rewrite u32_small by (unfold W32; lia). by rewrite (proj2 (Z.ltb_lt _ _)) by lia.
Qed.
Lemma wiring_ok i D ios : ioapics_are i ios -> wiring D ios -> iodevs i = D ->
  ioapics_ok i /\ forall irq, irq ∈ enabled_irqs -> exists j, covers i j irq.
Proof.
  intros Ha Hw ED. pose proof Ha as [En Hi]. pose proof (wi_num _ _ Hw) as Hn.
  assert (Hc : forall k irq, covers i k irq -> exists e, ios !! Z.to_nat k = Some e /\ has_line D e irq).
  { intros k irq [Hk Hr]. destruct (wiring_entry i D ios k Ha Hw Hk) as (e & E & E1 & E2). exists e. split; [done|].
    unfold has_line, io_lines, maxintr in *. by rewrite ED, E1, E2 in Hr. }
  split.
  - split.
    + lia.
    + intros k Hk. destruct (wiring_entry i D ios k Ha Hw Hk) as (e & E & -> & _). by apply (wi_each _ _ Hw _ _ E).
    + intros k Hk. destruct (wiring_entry i D ios k Ha Hw Hk) as (e & E & _ & ->). by apply (wi_each _ _ Hw _ _ E).
    + intros k k' Hk Hk' Eq. destruct (wiring_entry i D ios k Ha Hw Hk) as (e & E & E1 & _). destruct (wiring_entry i D ios k' Ha Hw Hk') as (e' & E' & E1' & _).
      pose proof (wi_distinct _ _ Hw _ _ e e' E E' ltac:(congruence)). lia.
    + intros k k' irq C C'. destruct (Hc k irq C) as (e & E & L). destruct (Hc k' irq C') as (e' & E' & L').
      pose proof (wi_disjoint _ _ Hw _ _ e e' irq E E' L L'). destruct C, C'. lia.
  - intros irq Hin. destruct (wi_used _ _ Hw irq Hin) as (k & e & E & L). exists (Z.of_nat k).
    pose proof (lookup_lt_Some _ _ _ E). assert (Hk : 0 <= Z.of_nat k < ioapic_num i) by lia.
    split; [done|]. destruct (wiring_entry i D ios _ Ha Hw Hk) as (e' & E' & E1 & E2). rewrite Nat2Z.id, E in E'. injection E' as <-.
    unfold has_line, io_lines, maxintr in *. by rewrite ED, E1, E2.
Qed.

Section spec.
Context `{layout} `{fs_layout} `{sys_layout} `{seg_layout} `{prog_layout} `{clocks} `{mp_layout} `{!running}.

Definition kphys (k : kern) : mem := phys (vmst (kthr k)).
Definition kbio (k : kern) : bio := lget l_kbi k.
(** What the firmware and the devices are like when the kernel starts. *)
Record power_on (madt : Z) (l : list madt_item) (k : kern) : Prop := {
  po_firmware : firmware_ok (kphys k) madt l;
  po_cpus : processors l <> [];
  po_wiring : wiring (iodevs (kio k)) (io_apics l);
  po_identify : identify_ok;
  po_apic : Z.land (Apic.cpuid 1).2 CPUID_FEATURE_APIC <> 0;
  po_lapic : load32 (kphys k) (madt + 36) <> 0;
  po_busy : 0 <= l_busy (la (h_ic (dev k))) <= l_latency (la (h_ic (dev k))) /\ l_latency (la (h_ic (dev k))) < 4294967296;
  po_disk : disk_ok (dsk (kbio k))
}.

(** The local APIC of the boot processor, the first of the list. *)
Definition boot_apic (l : list madt_item) : Z := List.hd 0 (processors l) mod 256.
(** The state that devinit leaves. *)
Record devices_ready (ksp : Z) (l : list madt_item) (k k' : kern) : Prop := {
  dv_fresh : fresh (kthr k');
  dv_ticks : sched_ticks (kthr k') = ∅;
  dv_stack : kstack_ptr (pcpu (kthr k') !!! 0) = ksp;
  dv_code : copied (kphys k) (kphys k') 32768 boot_ap_start boot_ap_size;
  dv_gdtr : gdtr (sg k') = bsp_kstack;
  dv_idt : idt_ok (idt (sg k'));
  dv_handlers n : 0 <= n < 256 -> TRAP_HANDLER (tp k') !! (0, n) = handler_of n;
  dv_log : started (tp k') = false /\ uctx_pool (tp k') = ∅;
  dv_routes j irq : covers (kio k') j irq ->
    route (kio k') j irq = if decide (irq ∈ enabled_irqs) then Some (T_IRQ0 + irq, boot_apic l) else None;
  dv_lines irq : irq ∈ enabled_irqs -> exists j, covers (kio k') j irq;
  dv_lapic : lapic_ready (la (h_ic (dev k')));
  dv_cache : init_inv (bufs (kbio k')) NBUF;
  dv_queue : idequeue (kbio k') = NULL;
  dv_locks : lock (ide_lk (kbio k')) = 0 /\ lock (bc_lk (kbio k')) = 0;
  dv_disk : same_store (dsk (kbio k)) (dsk (kbio k'));
  dv_console : console (dev k') = console (dev k)
}.

Lemma enable_sse_frame v : wp enable_sse (fun _ v' => exists a b, v' = Vm (cn v) (phys v) a (cr3 v) b) v.
Proof. unfold enable_sse, rcr4, rcr0, lcr4, lcr0. repeat wp_step. by eexists _, _. Qed.

(** The first half of devinit: up to the interrupt controllers. *)
Definition same_fs (k k' : kern) : Prop := exists t, kfs k' = lset (lens_comp l_fjf l_jth) t (kfs k).
Lemma devinit_machine ks ksp madt l k :
  get_kstack_cpu_idx ks = 0 -> power_on madt l k ->
  wp (clear_bss ;; zoom l_sg (seg_init 0) ;; zoom l_kvm enable_sse ;; zoom l_mp (pcpu_init ks ksp) ;; zoom l_ic tsc_init)
     (fun _ k' => fresh (kthr k') /\ sched_ticks (kthr k') = ∅ /\ kstack_ptr (pcpu (kthr k') !!! 0) = ksp /\
        copied (kphys k) (kphys k') 32768 boot_ap_start boot_ap_size /\ gdtr (sg k') = bsp_kstack /\
        tp k' = Trp ∅ ∅ ∅ false false ∅ /\ machine_ok k' /\ irqs_ok 0 k' /\ apic_of k' 0 = boot_apic l /\ console (dev k') = console (dev k) /\ exists t, kfs k' = lset (lens_comp l_fjf l_jth) t (bss_ffs (kfs k))) k.
Proof.
  intros Hks [Hfw Hcpu Hwi Hid Hap Hla Hbu Hdk]. unfold clear_bss. do 2 wp_step. match goal with |- wp _ _ ?x => set (k1 := x) end.
  do 2 wp_step. wp_call seg_init_wp; [by unfold NUM_CPUS|]. intros [] s2 (Hg & _). do 2 wp_step. wp_call enable_sse_frame. intros [] v3 (a3 & b3 & ->).
  wp_step. wp_step. match goal with |- wp _ _ (lget l_mp ?x) => set (k3 := x) end.
  eapply wp_mono; [apply (pcpu_init_wp ks ksp (lget l_mp k3) l madt); try done|].
  intros [] s4 (P & s1 & Hd & Hpr & Em & Emm & Et & HP & Hsp). wp_step. wp_call tsc_init_frame. intros _ s5 (p5 & n5 & ms5 & ->).
  destruct Hpr as (Q1 & Q2 & Q3 & Q4 & Q5). destruct Hd as (D1 & D2 & [D3 D3'] & D4 & D5 & D6).
  match goal with |- context [kthr ?x] => set (k5 := x) end.
  assert (Eph : kphys k5 = mmem s4) by done. assert (Em3 : mmem (lget l_mp k3) = kphys k) by done. rewrite Em3 in D5, D6.
  change (iodevs (io (mic (lget l_mp k3)))) with (iodevs (kio k)) in Q3. rewrite <- Em in Q2, Q3, Q4, Q5.
  destruct (wiring_ok (io (mic s4)) _ _ D4 Hwi Q3) as [Hio Hlines].
  assert (Hb : (0 < length (processors l))%nat) by (destruct (processors l); [done|simpl; lia]).
  destruct (lookup_lt_is_Some_2 (processors l) 0 Hb) as [id0 E0]. destruct (D3' 0%nat id0 E0 ltac:(by unfold NUM_CPUS)) as [Hid0 Hbsp].
  assert (Ht : mth s4 = kthr k5) by done. rewrite Q1 in Et. rewrite Ht in Et. split_and!.
  - split; [by rewrite Et| |by rewrite Et..]. change (mem_ok (kphys k5)). rewrite Eph. eapply copied_ok; [apply Hfw|exact D6].
  - by rewrite Et.
  - by rewrite Et.
  - by rewrite Eph.
  - change (gdtr s2 = bsp_kstack). lia.
  - done.
  - split; [done|done| |exact Hio| | |].
    + change (pic_inited (Apic.pc (mic s4)) = false). by rewrite Q2.
    + change (lapic (la (mic s4)) <> 0). by rewrite D5.
    + change (0 <= l_busy (la (mic s4)) <= l_latency (la (mic s4))). rewrite Q4, Q5. apply Hbu.
    + change (l_latency (la (mic s4)) < 4294967296). rewrite Q5. apply Hbu.
  - split; [|exact Hio|exact Hlines]. split; [by unfold NUM_CPUS|]. change (0 < ncpu s4). rewrite D3. lia.
  - unfold apic_of, boot_apic. change (h_infos (dev k5)) with (infos s4). change 0 with (Z.of_nat 0). rewrite Hid0. by destruct (processors l); [|injection E0 as <-].
  - done.
  - exists (mth s4). unfold k5. destruct k as [[[[[]]]]]. done.
Qed.
Lemma wp_seq5 {St A B C D E F} (m1 : K St A) (m2 : K St B) (m3 : K St C) (m4 : K St D) (m5 : K St E) (m : K St F) Q s :
  wp (m1 ;; m2 ;; m3 ;; m4 ;; m5) (fun _ s' => wp m Q s') s -> wp (m1 ;; m2 ;; m3 ;; m4 ;; m5 ;; m) Q s.
Proof.
  unfold wp, mbind, K_bind. destruct (m1 s); [|done..]. destruct (m2 _); [|done..]. destruct (m3 _); [|done..].
  destruct (m4 _); [|done..]. by destruct (m5 _).
Qed.

Lemma bss_bufs_clear b0 b : 0 <= b < NBUF -> flags (bufs (bss_bio b0) !!! b) = 0.
Proof.
  intros Hb. cbn [bufs bss_bio]. assert (Hin : b ∈ seqZ 0 NBUF) by (apply elem_of_seqZ; lia). clear Hb. revert b Hin.
  apply Forall_forall. apply (bool_decide_unpack _). by vm_compute.
Qed.

Lemma devinit_wp ks ksp present madt l k : get_kstack_cpu_idx ks = 0 -> power_on madt l k ->
  wp (devinit ks ksp present) (fun _ k' => devices_ready ksp l k k') k.
Proof.
  intros Hks Hpo. unfold devinit. apply wp_seq5. wp_call (devinit_machine ks ksp madt l); [done..|].
  intros _ k1 (F1 & F2 & F3 & F4 & F5 & Etp & Hmo & Hiq & Eap & Eco & t & Ef).
  wp_step. wp_call intr_init_wp; [done|done|by apply (fr_cpu _ F1)|]. intros [] k2 (g & ic & -> & Hg & Hct).
  match goal with |- wp _ _ ?x => set (k2 := x) end. destruct Hct as [C1 C2 C3 C4 C5 C6].
  assert (Hiq2 : irqs_ok 0 k2).
  { destruct Hiq as [A B C]. split; [done|by eapply io_same_ok|]. intros irq Hi. destruct (C irq Hi) as [j Hj]. exists j. by apply (io_same_covers (kio k1)). }
  assert (Etp2 : tp k2 = Trp ∅ ∅ ∅ false false ∅) by done.
  wp_step. wp_call (trap_init_wp 0); [done|done|by rewrite Etp2|done|]. intros [] k3 (T & b & i & [-> HT Hs Hr]).
  do 2 wp_step. match goal with |- wp _ _ (lget l_kbi ?x) => set (k3 := x) end.
  assert (Ebi : lget l_kbi k3 = lset l_th t (bss_bio (kbio k))).
  { change (lget l_kbi k3) with (kbio k1). unfold kbio, l_kbi, l_kjf. cbn. rewrite Ef. done. }
  rewrite Ebi. wp_call bufcache_init_ring; [apply bss_bufs_clear|]. intros [] b4 (B & -> & HB).
  do 2 wp_step. eapply (wp_of_eq _ _ _ tt _); [reflexivity|]. do 2 wp_step. eapply (wp_of_eq _ _ _ tt _); [reflexivity|].
  wp_step. match goal with |- wp _ _ (lget l_kbi ?x) => set (k6 := x) end.
  wp_call ide_init_wp; [apply Hpo|]. intros [] b7 (d & h & -> & _ & Hd).
  assert (Et : kthr k1 = t) by (unfold kthr, l_kth, l_kjf; cbn; by rewrite Ef).
  match goal with |- devices_ready _ _ _ ?x => set (k7 := x) end. assert (Ek : kthr k7 = kthr k1) by (by rewrite Et).
  assert (Hsc : forall j irq, covers i j irq -> covers (kio k1) j irq).
  { intros j irq Hj. apply (io_same_covers _ _ j irq C2). by apply (io_same_covers (kio k2) i). }
  split; rewrite ?Ek; try done.
  - unfold kphys. by rewrite Ek.
  - change (started (tp k2) = false /\ uctx_pool (tp k2) = ∅). by rewrite Etp2.
  - intros j irq Hj. assert (Hj2 : covers (kio k2) j irq) by (by apply (io_same_covers (kio k2) i)).
    change (route i j irq = if decide (irq ∈ enabled_irqs) then Some (T_IRQ0 + irq, boot_apic l) else None). rewrite (Hr j irq Hj2).
    change (apic_of k2 0) with (apic_of k1 0). rewrite Eap.
    case_decide; [done|]. by apply C3, Hsc.
  - intros irq Hin. destruct (iq_lines _ _ Hiq2 irq Hin) as [j Hj]. exists j. by apply (io_same_covers (kio k2) i).
Qed.

(** ** Creating a process *)
Definition kview (k : kern) (q x : Z) : option (Z * Z) := view (vmst (kthr k)) q x.
(** What process [p], which runs with [ready] waiting, gets from
    proc_create: a new process that sees the segments of the image and will
    start at its entry point on a stack of its own. *)
Record created (c p : Z) (ready : list Z) (child exe q : Z) (k k' : kern) : Prop := {
  cr_inv : thr_inv c (kthr k') p (ready ++ [child]);
  cr_view q x : user_proc q -> user_va x ->
    kview k' q x = if decide (q = child) then or_else (elf_view (kphys k) exe x) (kview k q x) else kview k q x;
  cr_con : grown child (2 * elf_pages (kphys k) exe) (fun i => split_con (CONTAINER (cn (vmst (kthr k)))) p q !!! i) (con_of (vmst (kthr k')));
  cr_kernel : kernel_kept (kphys k) (kphys k');
  cr_context : uctx_pool (tp k') = <[child := user_context (e_entry (kphys k) exe) (uctx_pool (tp k) !!! child)]> (uctx_pool (tp k));
  cr_kont : konts (tp k') = <[child := KStart]> (konts (tp k));
  cr_kctx : kctx_pool (kthr k') = <[child := fresh_kctx (kctx_pool (kthr k) !!! child) child start_user]> (kctx_pool (kthr k));
  cr_tss : exists s, sg k' = set_proc (<[child := s]> (proc_ks (sg k))) (sg k) /\ ts_esp0 (tss s) = proc_kstack_hi child;
  cr_thr : cpu (kthr k') = cpu (kthr k) /\ sched_ticks (kthr k') = sched_ticks (kthr k) /\ pcpu (kthr k') = pcpu (kthr k);
  cr_regs : cr0 (vmst (kthr k')) = cr0 (vmst (kthr k)) /\ cr3 (vmst (kthr k')) = cr3 (vmst (kthr k));
  cr_rest : exists C K, tp k' = Trp C (last_active (tp k)) (TRAP_HANDLER (tp k)) (trap_inited (tp k)) (started (tp k)) K /\
    kfs k' = kfs (lset l_kth (kthr k') k) /\ dev k' = dev k
}.

Lemma elf_entry_eq exe v : e_magic (phys v) exe = ELF_MAGIC -> elf_entry exe v = Ok (e_entry (phys v) exe) v.
Proof. intros E. unfold elf_entry. krun. by rewrite E. Qed.
Lemma proc_create_wp c ks k p ready exe size q :
  on_cpu c ks -> thr_inv c (kthr k) p ready ->
  let C := CONTAINER (cn (vmst (kthr k))) in
  split_ok C p q -> usage (C !!! p) + q < W32 -> elf_ok (kphys k) exe size -> 2 * elf_pages (kphys k) exe <= q ->
  let child := p * MAX_CHILDREN + 1 + nchildren (C !!! p) in
  wp (proc_create ks exe q) (fun r k' => r = child /\ user_proc child /\ created c p ready child exe q k k') k.
Proof.
  intros Hon Hinv C Hso Hw Hok Hq child. pose proof Hinv as [Hs Hpt _]. pose proof Hon as [Hks _].
  unfold proc_create. wp_step. eapply (wp_sched_curid c ks Hon); [exact Hs|]. do 2 wp_step. change (lget l_kth k) with (kthr k).
  wp_call (thread_spawn_wp c ks (kthr k) p ready start_user p q); [done..|]. fold C child.
  intros r t1 (-> & Hch & _ & Hinv1 & Ekc & Hpost & Evm & Ecpu & Etk & Epc). wp_step. rewrite (proj2 (Z.eqb_neq child NUM_IDS)) by lia. cbn [negb].
  assert (Hup : user_proc child).
  { pose proof (ck_children _ (ci_con _ (vi_cont _ Hpt)) p). pose proof (so_id _ _ _ Hso). unfold user_proc, child, C, MAX_CHILDREN in *. lia. }
  do 3 wp_step. match goal with |- wp _ _ ?x => set (k2 := x) end. pose proof Hinv1 as [Hs1 Hpt1 Hdead1].
  assert (Eph : phys (vmst t1) = kphys k) by (by rewrite Evm). wp_step. wp_step. change (lget l_kvm k2) with (vmst t1).
  wp_call (elf_load_wp ks exe size (vmst t1) child); [done|done|done|by rewrite Eph| |].
  { rewrite Eph. unfold room_of. destruct Hpost as (_ & _ & _ & ->). unfold split_con. fold C child.
    destruct (split_child_fresh C p q (ci_con _ (vi_cont _ Hpt)) Hso) as [Hne _]. rewrite lookup_total_insert_ne by done.
    rewrite lookup_total_insert_eq. simpl. lia. }
  intros [] v3 Hld. rewrite Eph in Hld. pose proof (ld_kernel _ _ _ _ _ Hld) as Hkk. rewrite Eph in Hkk.
  destruct (elf_kept (kphys k) (phys v3) exe size (kept_same _ _ _ _ Hkk (proj1 (eo_area _ _ _ Hok))) (vi_mem _ Hpt) Hok) as (_ & _ & _ & Emag & Eent).
  set (k3 := lset l_kvm v3 k2). do 2 wp_step. change (lget l_kvm k3) with v3.
  eapply wp_of_eq; [apply elf_entry_eq; by rewrite Emag, (eo_magic _ _ _ Hok)|]. change (lset l_kvm v3 k3) with k3. rewrite Eent.
  do 2 wp_step. do 3 wp_step. match goal with |- wp _ _ ?x => set (k4 := x) end. wp_step.
  eapply (wp_sched_pcpu c ks Hon _ p (ready ++ [child])); [exact (sched_inv_vm c t1 p (ready ++ [child]) v3 Hs1)|]. wp_step.
  wp_call seg_init_proc_wp; [done|]. intros [] s5 (x & -> & Hx & _). wp_step. split; [done|]. split; [done|]. pose proof (ld_spent _ _ _ _ _ Hld) as L2. destruct Hld as [L1 (Lg & L3 & L4 & _) L5 L6].
  split; try done.
  - change (thr_inv c (lset l_vm v3 t1) p (ready ++ [child])). split; [by apply sched_inv_vm|done|].
    intros pid Hpid Hu. apply Hdead1; [done|]. by rewrite <- (spent_used _ _ _ _ pid L2).
  - intros q0 x0 Hq0 Hx0. change (view v3 q0 x0 = if decide (q0 = child) then or_else (elf_view (kphys k) exe x0) (kview k q0 x0) else kview k q0 x0).
    rewrite L6 by done. assert (Ev : view (vmst t1) q0 x0 = kview k q0 x0) by (unfold kview, view; by rewrite Evm). by rewrite Ev.
  - destruct Hpost as (_ & _ & _ & E). rewrite <- E. exact Lg.
  - by exists x.
  - change (cr0 v3 = cr0 (vmst (kthr k)) /\ cr3 v3 = cr3 (vmst (kthr k))). rewrite L3, L4, Evm. done.
  - by eexists _, _.
Qed.

(** ** The first process *)
Lemma stack_store_view p v s : pt_inv s -> 0 <= p < NUM_IDS - 1 ->
  forall q x, user_proc q -> user_va x -> view (set_phys (store32 (phys s) (kstack_hi p) v) s) q x = view s q x.
Proof.
  intros Hinv Hp. apply (kernel_store s); [done|by apply mem_ok_store32, Hinv|]. intros a Ha.
  destruct (decide (kstack_hi p <= a < kstack_hi p + 4)) as [Hin|Hout]; [|by rewrite load8_store32_out in Ha by lia].
  pose proof proc_kstack_kernel. pose proof proc_kstack_disjoint. unfold kernel_area, kstack_hi, NUM_IDS in *. lia.
Qed.

(** The kernel before kern_main: only the boot thread, a root container with
    [quota] pages, the tables of traps set up. *)
Record main_ready (pages : Z) (k : kern) : Prop := {
  mr_inv : thr_inv 0 (kthr k) 0 [];
  mr_root : CONTAINER (cn (vmst (kthr k))) = root_con pages;
  mr_stack : kstack_ptr (pcpu (kthr k) !!! 0) = bsp_kstack;
  mr_gdtr : gdtr (sg k) = bsp_kstack;
  mr_idt : idt_ok (idt (sg k));
  mr_timer : TRAP_HANDLER (tp k) !! (0, T_IRQ0 + IRQ_TIMER) = Some interrupt_cb;
  mr_syscall : TRAP_HANDLER (tp k) !! (0, T_SYSCALL) = Some syscall_cb;
  mr_ticks : sched_ticks (kthr k) !!! 0 = 0
}.
(** The scheduler after kern_main has made [p] the running thread. *)
Lemma sched_first s s' p T : sched_inv 0 s 0 [p] -> 0 < p < NUM_IDS ->
  pcpu s' = pcpu s -> CURID s' = <[0 := p]> (CURID s) -> sched_lk s' = sched_lk s ->
  core_eq (TCBPool s) T -> TCBPool s' = setst p TSTATE_RUN T -> queues T (TQueuePool s') (only_ready []) -> sched_inv 0 s' p [].
Proof.
  intros [Hl [Hc HQ [Hcu Hcr] Hrun Hrdy]] Hp E1 E2 E3 HT E4 HQ'. split; [by rewrite E3|].
  assert (Hst : forall a, state (TCBPool s' !!! a) = if decide (a = p) then TSTATE_RUN else state (TCBPool s !!! a)).
  { intros a. by rewrite E4, state_setst, (core_state _ _ _ HT). }
  split.
  - by rewrite E1.
  - rewrite E4. by apply queues_setst.
  - rewrite E2, lookup_total_insert_eq. split; [done|lia].
  - intros a Ha. rewrite Hst. case_decide as E; [tauto|]. split; [done|]. intros Hr. right. by destruct (proj2 (Hrun a Ha) Hr).
  - intros a Ha. rewrite Hst. case_decide as E; [split; [done|set_solver]|]. rewrite (Hrdy a Ha), list_elem_of_singleton. set_solver.
Qed.

(** What else kern_main does: it creates the process and switches to it. *)
Definition entered_idle (k k' : kern) : Prop :=
  exists k1, created 0 0 [] 1 elf_idle 10000 k k1 /\ rest_kept k1 k' /\ cn (vmst (kthr k')) = cn (vmst (kthr k1)) /\
    phys (vmst (kthr k')) = store32 (phys (vmst (kthr k1))) (kstack_hi 1) start_user /\
    forall q, q <> 1 -> state (TCBPool (kthr k') !!! q) = state (TCBPool (kthr k1) !!! q).
Lemma kern_main_wp ks k pages size : on_cpu 0 ks -> main_ready pages k -> 10000 <= pages <= AT_SIZE ->
  elf_ok (kphys k) elf_idle size -> 2 * elf_pages (kphys k) elf_idle <= 10000 ->
  wp (kern_main ks) (fun _ k' => in_user 0 k' 1 [] /\
    regs (dev k') = user_context (e_entry (kphys k) elf_idle) (uctx_pool (tp k) !!! 1) /\
    (forall x, user_va x -> kview k' 1 x = or_else (elf_view (kphys k) elf_idle x) (kview k 1 x)) /\
    cr0 (vmst (kthr k')) = cr0 (vmst (kthr k)) /\ sched_ticks (kthr k') !!! 0 = 0 /\ h_ic (dev k') = h_ic (dev k) /\ kfs k' = kfs (lset l_kth (kthr k') k) /\ entered_idle k k') k.
Proof.
  intros Hon [Hinv Hroot Hsp Hgd Hidt Htm Hsy Htk] Hpg Hok Hq. unfold kern_main. wp_step. eapply (wp_sched_pcpu 0 ks Hon); [apply Hinv|].
  wp_step. assert (Hr0 : CONTAINER (cn (vmst (kthr k))) !!! 0 = Con pages 0 0 0 1) by (rewrite Hroot; unfold root_con; by rewrite lookup_total_insert_eq).
  wp_call (proc_create_wp 0 ks k 0 [] elf_idle size 10000); [done|done| | |done|done|]; rewrite ?Hr0; simpl.
  { split; rewrite ?Hr0; simpl; unfold MAX_CHILDREN, NUM_IDS; lia. }
  { unfold W32. lia. }
  intros r k1 (-> & Hup & Hcr). pose proof Hcr as [I1 V1 _ K1 X1 O1 C1 S1 T1 R1 D1]. change (0 * MAX_CHILDREN + 1 + 0) with 1 in *. simpl app in I1.
  pose proof I1 as [Hs1 Hpt1 _]. pose proof (sc_cpu _ _ _ _ (proj2 Hs1)) as [_ Hidx].
  do 2 wp_step. change (lget l_kth k1) with (kthr k1).
  wp_call (remove_wp (kthr k1) (only_ready [1]) NUM_IDS [] 1 []); [apply Hs1|apply ready_queue_in_range|done|].
  intros [] t2 (T & TQ & -> & HT & HQ). apply (queues_same _ _ _ (only_ready [])) in HQ; [|apply qset_only_ready].
  do 2 wp_step. change (lget l_kth (lset l_kth ?t k1)) with t. eapply wp_of_eq; [by apply tcb_set_state_eq|].
  do 2 wp_step. change (lget l_kth (lset l_kth ?t _)) with t. eapply wp_of_eq; [by apply (set_curid_eq 0 ks)|].
  do 2 wp_step. change (lget l_kth (lset l_kth ?t _)) with t. eapply wp_of_eq; [by apply kctx_switch_eq|].
  match goal with |- wp _ _ (lset l_kth ?t ?x) => set (t5 := t); change (lset l_kth t5 x) with (lset l_kth t5 k1) end. set (k5 := lset l_kth t5 k1).
  assert (Hs5 : sched_inv 0 t5 1 []) by (by apply (sched_first (kthr k1) t5 1 T)).
  destruct S1 as (s1 & Es1 & Hs1'). destruct D1 as (U & K & Etp & Efs & Edev).
  assert (Hk5 : in_kernel 0 k5 1 []).
  { split; [split|].
    - exact Hs5.
    - intros q ->%list_elem_of_singleton. lia.
    - change (kstack_ptr (pcpu (kthr k1) !!! 0) = bsp_kstack + 4096 * 0). destruct T1 as (_ & _ & ->). rewrite Hsp. lia.
    - change (gdtr (sg k1) = bsp_kstack + 4096 * 0). rewrite Es1. simpl. lia.
    - intros q ->%list_elem_of_singleton. change (ts_esp0 (tss (proc_ks (sg k1) !!! 1)) = proc_kstack_hi 1). rewrite Es1. simpl. by rewrite lookup_total_insert_eq.
    - change (idt_ok (idt (sg k1))). by rewrite Es1.
    - change (TRAP_HANDLER (tp k1) !! (0, T_IRQ0 + IRQ_TIMER) = Some interrupt_cb). by rewrite Etp.
    - change (TRAP_HANDLER (tp k1) !! (0, T_SYSCALL) = Some syscall_cb). by rewrite Etp.
    - right. by intros q ->%list_elem_of_singleton.
    - change (0 <= sched_ticks (kthr k1) !!! 0 < SCHED_SLICE). destruct T1 as (_ & -> & _). rewrite Htk. unfold SCHED_SLICE. lia.
    - intros q ->%list_elem_of_singleton. left. change (konts (tp k1) !!! 1 = KStart). by rewrite O1, lookup_total_insert_eq. }
  wp_call (resume_wp 0 ks Hon k5 1 [] Hk5). intros [] k6 (Hu & Er & _ & Ef & Eh & Hrest).
  assert (Ek6 : kthr k6 = kthr (load_cr3 1 k5)) by (unfold kthr, l_kth, l_kjf; cbn; by rewrite Ef). split; [done|]. split; [|split; [|split; [|split; [|split; [|split]]]]].
  - rewrite Er. unfold context. change (konts (tp k5)) with (konts (tp k1)). rewrite O1, lookup_total_insert_eq.
    change (uctx_pool (tp k5)) with (uctx_pool (tp k1)). by rewrite X1, lookup_total_insert_eq.
  - intros x Hx. unfold kview at 1. rewrite Ek6. change (view (vmst t5) 1 x = or_else (elf_view (kphys k) elf_idle x) (kview k 1 x)).
    pose proof (V1 1 x user_proc_1 Hx) as E. rewrite decide_True in E by done. rewrite <- E. unfold kview. rewrite <- (stack_store_view 1 start_user (vmst (kthr k1)) Hpt1 ltac:(done) 1 x user_proc_1 Hx).
    unfold t5. cbn [kctx_pool set_TCBPool set_TQueuePool set_CURID]. rewrite C1, lookup_total_insert_eq. done.
  - rewrite Ek6. exact (proj1 R1).
  - rewrite Ek6. change (sched_ticks (kthr k1) !!! 0 = 0). destruct T1 as (_ & -> & _). done.
  - by rewrite Eh, <- Edev.
  - rewrite Ek6, Ef. unfold k5, load_cr3. cbn. rewrite Efs. done.
  - exists k1. split; [done|]. split; [done|]. rewrite Ek6. split; [done|]. split.
    + change (phys (vmst t5) = store32 (phys (vmst (kthr k1))) (kstack_hi 1) start_user). unfold t5. cbn [kctx_pool set_TCBPool set_TQueuePool set_CURID]. rewrite C1, lookup_total_insert_eq. done.
    + intros q Hq'. change (state (setst 1 TSTATE_RUN T !!! q) = state (TCBPool (kthr k1) !!! q)). rewrite state_setst, decide_False by done. by apply core_state.
Qed.

(** ** kern_init *)
#[export] Instance l_kth_laws : LensLaws l_kth.
Proof. split; [done|intros s; apply kth_id|done]. Qed.
Lemma power_on_thr madt l k t : vmst t = vmst (kthr k) -> power_on madt l k -> power_on madt l (lset l_kth t k).
Proof. intros E [A B C D F G I J]. split; try done; unfold kphys in *; change (kthr (lset l_kth t k)) with t; by rewrite E. Qed.
Lemma devices_thr ksp l k t k' : vmst t = vmst (kthr k) -> devices_ready ksp l (lset l_kth t k) k' -> devices_ready ksp l k k'.
Proof. intros E []. split; try done. unfold kphys in *. change (kthr (lset l_kth t k)) with t in dv_code0. by rewrite E in dv_code0. Qed.
Lemma start_cache ksp l k k1 k' p ready : devices_ready ksp l k k1 -> sched_inv 0 (kthr k') p ready -> kfs k' = kfs (lset l_kth (kthr k') k1) ->
  cache_inv 0 (kbio k') (rev (seqZ 0 NBUF)) /\ store_of (dsk (kbio k')) = store_of (dsk (kbio k)).
Proof.
  intros [_ _ _ _ _ _ _ _ _ _ _ Hc Hq [Hl1 Hl2] (Hst & _ & Hdk) _] Hs Ef.
  assert (Eb : kbio k' = lset l_th (kthr k') (kbio k1)) by (unfold kbio, l_kbi, l_kjf; cbn; rewrite Ef; done).
  rewrite Eb. split; [|done]. apply init_cache_inv; try done. split; [by exists p, ready|done|exact Hq|apply NoDup_nil_2| |done]. intros b Hb. by apply not_elem_of_nil in Hb.
Qed.

(** The state that kern_main starts from. *)
Record main_state (k k2 : kern) : Prop := {
  ms_ready : exists pages, main_ready pages k2;
  ms_views q x : user_proc q -> user_va x -> kview k2 q x = None;
  ms_memory a n : kernel_area a n -> a + n <= 32768 \/ 32768 + boot_ap_size <= a -> same_area (kphys k) (kphys k2) a n;
  ms_traps : uctx_pool (tp k2) = ∅ /\ started (tp k2) = false /\ forall n, 0 <= n < 256 -> TRAP_HANDLER (tp k2) !! (0, n) = handler_of n;
  ms_console : console (dev k2) = console (dev k)
}.
Lemma kern_init_wp ks present root mmap n k madt l size :
  on_cpu 0 ks -> 0 <= n <= 128 -> (forall i, 0 <= i < n -> mmap_wf (mmap (SIZEOF_MMAP * i))) -> power_on madt l k ->
  (forall c, container_init (SIZEOF_MMAP * n) mmap cont0 = Ok tt c -> 10000 <= quota (CONTAINER c !!! 0)) ->
  elf_ok (kphys k) elf_idle size -> 2 * elf_pages (kphys k) elf_idle <= 10000 ->
  elf_idle + size <= 32768 \/ 32768 + boot_ap_size <= elf_idle ->
  wp (kern_init ks bsp_kstack present root (SIZEOF_MMAP * n) mmap) (fun _ k' =>
    in_user 0 k' 1 [] /\ regs (dev k') = user_context (e_entry (kphys k) elf_idle) inhabitant /\
    (forall x, user_va x -> kview k' 1 x = elf_view (kphys k) elf_idle x) /\ paging_on (vmst (kthr k')) /\ sched_ticks (kthr k') !!! 0 = 0 /\
    (forall irq, irq ∈ enabled_irqs -> exists j, covers (kio k') j irq) /\
    (forall j irq, covers (kio k') j irq -> route (kio k') j irq = if decide (irq ∈ enabled_irqs) then Some (T_IRQ0 + irq, boot_apic l) else None) /\
    lapic_ready (la (h_ic (dev k'))) /\
    cache_inv 0 (kbio k') (rev (seqZ 0 NBUF)) /\ store_of (dsk (kbio k')) = store_of (dsk (kbio k)) /\ exists k2, main_state k k2 /\ entered_idle k2 k') k.
Proof.
  intros Hon Hn Hmm Hpo Hqu Hok Hpg Hout. pose proof Hon as [_ Hks]. unfold kern_init. wp_step.
  wp_call (thread_init_wp l_kth (devinit ks bsp_kstack present) ks root n mmap Hon Hn Hmm k (devices_ready bsp_kstack l k)).
  { intros t Ht _. wp_call (devinit_wp ks bsp_kstack present madt l); [done|by apply power_on_thr|]. intros [] k1 Hd.
    split; [apply Hd|]. by eapply devices_thr. }
  intros [] k2 (k1 & t & Hd & -> & [T1 T2 T3 T4 T5 T6 T7]). set (k2 := lset l_kth t k1). change (lget l_kth k1) with (kthr k1) in *.
  destruct (wp_result _ _ _ _ _ (container_init_wp mmap n Hn Hmm) T5) as (Hci & HC & _). specialize (Hqu _ T5).
  set (pages := navail (AT (mat (cn (vmst t))))) in *. pose proof Hd as [D1 D2 D3 D4 D5 D6 D7 [D8 D8'] D9 D10 D11 D12 D13 D14 D15 D16].
  assert (Hmr : main_ready pages k2).
  { split; try done; change (kthr k2) with t.
    - by rewrite T6.
    - change (TRAP_HANDLER (tp k1) !! (0, 32) = Some interrupt_cb). by rewrite D7.
    - change (TRAP_HANDLER (tp k1) !! (0, 48) = Some syscall_cb). by rewrite D7.
    - by rewrite T2, D2. }
  assert (Hbound : 10000 <= pages <= AT_SIZE).
  { pose proof (ck_quota _ (ci_con _ Hci) 0) as Hk. rewrite HC in Hk, Hqu. unfold root_con in Hk, Hqu. rewrite lookup_total_insert_eq in Hk, Hqu. simpl in Hk, Hqu. lia. }
  assert (Hms : main_state k k2).
  { split; [by exists pages| | |done|exact D16].
    - intros q x Hq Hx. unfold kview, view. change (kthr k2) with t. rewrite walk_user by (done || apply T1). unfold VmmSpec.entry_of.
      by rewrite T4 by (split; [done|by apply va_user_pde]).
    - intros a m Ha Hap x Hx. change (kphys k2) with (phys (vmst t)). unfold kernel_area in Ha. rewrite T7 by lia. change (phys (vmst (kthr k1))) with (kphys k1).
      rewrite D4, decide_False by lia. done. }
  pose proof (ms_memory _ _ Hms _ _ (proj1 (eo_area _ _ _ Hok)) Hout) as Hsame.
  destruct (elf_kept (kphys k) (kphys k2) elf_idle size Hsame (fw_mem _ _ _ (po_firmware _ _ _ Hpo)) Hok) as (Hok2 & Epg & Ev & _ & Ee).
  wp_call (kern_main_wp ks k2 pages size); [done|done|done|done|by rewrite Epg|].
  intros [] k3 (Hu & Er & Hv & Hcr & Htk & Hic & Hfs & Hei). rewrite Ee in Er. change (tp k2) with (tp k1) in Er. rewrite D8', lookup_total_empty in Er.
  assert (Ekio : kio k3 = kio k1) by (unfold kio; by rewrite Hic).
  destruct (start_cache bsp_kstack l k k1 k3 1 [] Hd (kc_sched _ _ _ _ (iu_core _ _ _ _ Hu)) Hfs) as [Hca Hst].
  rewrite Ekio, Hic. split_and!; try done.
  - intros x Hx. rewrite Hv by done. rewrite Ev, (ms_views _ _ Hms) by done. by destruct (elf_view _ _ _).
  - unfold paging_on in *. by rewrite Hcr.
  - by exists k2.
Qed.

End spec.

(** ** A machine for the example: the tables of [demo_tables] and the
    program of [demo_elf] as the idle process *)
Definition demo_memory : mem := write_bytes demo_tables 8650752 demo_elf.
Definition demo_start : kern :=
  lset l_kvm (Vm cont0 demo_memory 0 0 0)
    (lset l_dev (Hw ∅ inhabitant 0
       (Intc (Ports 0 demo_chip demo_chip ∅ ∅) (Pics 65531 false) (Ioapics {[ 4273995776 := Iodev 0 0 (Z.shiftl 23 16) ∅ ]} ∅ ∅ ∅ 0)
          (Lapic 0 ∅ 0 0 3 []) false 0 []) 0 false false ∅ []) (demo_kern ∅)).
Lemma demo_memory_ok : mem_ok demo_memory.
Proof. apply mem_ok_write_bytes, demo_tables_ok. Qed.

Lemma demo_memory_acpi : rsdp_of demo_memory = 917504 /\ acpi_ok demo_memory 917504 /\ find_madt demo_memory 917504 = 925696.
Proof.
  assert (X : use_xsdt demo_memory 917504 = false) by (vm_compute; reflexivity).
  assert (E : root_entries demo_memory 917504 = [925696]) by (vm_compute; reflexivity).
  assert (L : table_len demo_memory (rsdt_of demo_memory 917504) = 40) by (vm_compute; reflexivity).
  assert (T : rsdt_of demo_memory 917504 = 921600) by (vm_compute; reflexivity).
  split_and!; [vm_compute; reflexivity| |vm_compute; reflexivity]. split.
  - apply sized_check. vm_compute. reflexivity.
  - apply sized_check. vm_compute. reflexivity.
  - rewrite X. done.
  - intros _. unfold fits. rewrite L, T. unfold W32. lia.
  - rewrite E. apply Forall_singleton, sized_check. vm_compute. reflexivity.
Qed.
Lemma demo_firmware : firmware_ok demo_memory 925696 demo_items.
Proof.
  destruct demo_memory_acpi as (E1 & E2 & E3). assert (L : table_len demo_memory 925696 = 72) by (vm_compute; reflexivity).
  split; rewrite ?E1, ?L; [exact demo_memory_ok|lia|done|done|lia|unfold W32; lia| |unfold range, boot_ap_size, demo_mp_layout, W32; lia|unfold range, boot_ap_start, boot_ap_size, demo_mp_layout, W32; lia].
  replace demo_items with [item demo_memory 925740; item demo_memory 925748; item demo_memory 925756] by (vm_compute; reflexivity).
  assert (L1 : load8 demo_memory (u32 (925740 + 1)) = 8) by (vm_compute; reflexivity).
  assert (L2 : load8 demo_memory (u32 (925748 + 1)) = 8) by (vm_compute; reflexivity).
  assert (L3 : load8 demo_memory (u32 (925756 + 1)) = 12) by (vm_compute; reflexivity).
  apply madt_cons; rewrite ?L1; [lia|lia|unfold W32; lia|]. change (925696 + 44 + 8) with 925748.
  apply madt_cons; rewrite ?L2; [lia|lia|unfold W32; lia|]. change (925748 + 8) with 925756.
  apply madt_cons; rewrite ?L3; [lia|lia|unfold W32; lia|]. apply madt_end. lia.
Qed.

Lemma demo_idle_ok : elf_ok demo_memory elf_idle 164 /\ elf_pages demo_memory elf_idle = 2.
Proof.
  destruct demo_elf_ok as [Hok Hpg]. assert (Hs : same_area demo_image demo_memory 8650752 164).
  { intros x Hx. assert (Hin : x ∈ seqZ 8650752 164) by (apply elem_of_seqZ; lia). clear Hx. revert x Hin. apply Forall_forall.
    apply (bool_decide_unpack _). by vm_compute. }
  destruct (elf_kept _ _ _ _ Hs demo_image_ok Hok) as (Hok' & Hpg' & _). split; [exact Hok'|]. exact (eq_trans Hpg' Hpg).
Qed.
Lemma demo_power_on : power_on 925696 demo_items demo_start.
Proof.
  split.
  - exact demo_firmware.
  - discriminate.
  - change (io_apics demo_items) with [(2, 4273995776, 0)]. change (iodevs (kio demo_start)) with ({[ 4273995776 := Iodev 0 0 (Z.shiftl 23 16) ∅ ]} : gmap Z iodev).
    assert (Hone : forall k e, [(2, 4273995776, 0)] !! k = Some e -> k = 0%nat /\ e = (2, 4273995776, 0)).
    { intros [|[|k]] e E; [|done..]. by injection E as <-. }
    split.
    + unfold MAX_IOAPIC. simpl. lia.
    + intros k e [-> ->]%Hone. simpl. lia.
    + intros k k' e e' [-> ->]%Hone [-> ->]%Hone. done.
    + intros k k' e e' irq [-> ->]%Hone [-> ->]%Hone. done.
    + intros irq Hi. exists 0%nat, (2, 4273995776, 0). split; [done|]. revert irq Hi. apply Forall_forall.
      unfold has_line. change (io_lines _ _) with 23. repeat constructor; vm_compute; discriminate.
  - done.
  - vm_compute. discriminate.
  - change (kphys demo_start) with demo_memory. intros E. apply (f_equal (Z.eqb 0)) in E. vm_compute in E. discriminate.
  - cbn. lia.
  - split; vm_compute; split; congruence.
Qed.

