(* ===== verification/PutsSpec.v ===== *)
(** * The system call that prints

    sys_puts copies the string of the process into a kernel page piece by
    piece and prints each piece. *)

From stdpp Require Import base gmap list numbers.
From S2P Require Import Prelude Lock Pmmap Pmm Container Mem Vmm VmmSpec Str Copy Thread Queue Sched Ide IdeSpec Bufcache BlockIO Log LogSpec Block Inode File Tf Sysfile Frame Seg Trap TrapSpec.
Import Spinlock Types MContainer PCPUIntro PTCBIntro PCurID.

Lemma until_nul_app l r : Forall (fun c => c <> 0) l -> until_nul (l ++ 0 :: r) = l.
Proof. induction 1 as [|c l Hc _ IH]; [done|]. simpl. rewrite (proj2 (Z.eqb_neq c 0)) by done. by rewrite IH. Qed.

Lemma fmap_seqZ_app {A} (f : Z -> A) n d : 0 <= n -> 0 <= d ->
  f <$> seqZ 0 (n + d) = (f <$> seqZ 0 n) ++ ((fun i => f (n + i)) <$> seqZ 0 d).
Proof.
  intros Hn Hd. rewrite seqZ_app, fmap_app by lia. f_equal. replace (0 + n) with (n + 0) by lia.
  rewrite <- fmap_add_seqZ, <- list_fmap_compose. done.
Qed.

(** What is printed of a terminated buffer without other NULs. *)
Lemma until_nul_read m buf n (f : Z -> Z) : 0 <= n -> load8 m (buf + n) = 0 ->
  (forall i, 0 <= i < n -> load8 m (buf + i) = f i /\ f i <> 0) -> until_nul (read_bytes m buf (n + 1)) = f <$> seqZ 0 n.
Proof.
  intros Hn H0 Hf. assert (E : read_bytes m buf (n + 1) = (f <$> seqZ 0 n) ++ [0]).
  { unfold read_bytes. rewrite seqZ_app, fmap_app by lia. f_equal.
    - apply list_fmap_ext. intros _ i Hi%list_elem_of_lookup_2%elem_of_seqZ. apply Hf. lia.
    - rewrite seqZ_cons, seqZ_nil by lia. simpl. by rewrite (Z.add_0_l n), H0. }
  rewrite E. apply until_nul_app, Forall_fmap, Forall_forall. intros i Hi%elem_of_seqZ. apply Hf. lia.
Qed.

Section puts.
Context `{layout} `{fs_layout} `{sys_layout} `{seg_layout} `{prog_layout} `{Apic.clocks} (ks : kstack).

(** [k] with other physical memory and console output. *)
Definition puts_state (k : kern) (m : mem) (l : list Z) : kern :=
  lset l_dev (set_console l (dev k)) (lset l_kvm (set_phys m (vmst (kthr k))) k).

(** One piece: it is copied, terminated, and printed. *)
Lemma puts_chunk_wp {A} k m l p uva buf n pa_at (fail next : K kern A) Q : let s := vmst (kthr k) in
  pt_inv (set_phys m s) -> mem_ok m -> user_proc p -> VM_USERLO <= uva -> 0 < n -> uva + n <= VM_USERHI -> kernel_area buf (n + 1) ->
  (forall i, 0 <= i < n -> walks (set_phys m s) p (uva + i) (pa_at i) /\ load8 m (pa_at i) <> 0) ->
  (forall m', mem_ok m' -> (forall a, ~ (buf <= a < buf + n + 1) -> load8 m' a = load8 m a) ->
     wp next Q (puts_state k m' (l ++ ((fun i => load8 m (pa_at i)) <$> seqZ 0 n)))) ->
  wp (r ← zoom l_kvm (pt_copyin ks p uva buf n);
      if negb (r =? n) then fail
      else
        zoom l_kvm (modify (fun s => set_phys (store8 (phys s) (buf + n) 0) s)) ;;
        s ← zoom l_kvm get;
        zoom l_dev (modify (fun h => set_console (console h ++ until_nul (read_bytes (phys s) buf (n + 1))) h)) ;;
        next) Q (puts_state k m l).
Proof.
  intros s Hinv Hok Hp Hlo Hn Hhi Hka Hw HQ. pose proof Hka as (Hb0 & _ & Hb1 & Hb2 & Hb3).
  wp_step. wp_step. change (lget l_kvm (puts_state k m l)) with (set_phys m s).
  wp_call (pt_copyin_wp ks (set_phys m s) p uva buf n pa_at); [done|done|done|lia|done| |intros i Hi; by apply Hw|].
  { unfold kernel_area. lia. }
  intros r v (-> & m1 & -> & Hok1 & _ & Hm1). rewrite Z.eqb_refl. simpl negb. cbv iota.
  wp_step. wp_step. wp_step. wp_step. wp_step. wp_step. wp_step. wp_step. wp_step.
  set (m2 := store8 m1 (buf + n) 0). change (phys (set_phys m s)) with m in Hm1.
  assert (Hbytes : until_nul (read_bytes m2 buf (n + 1)) = (fun i => load8 m (pa_at i)) <$> seqZ 0 n).
  { apply until_nul_read; [lia|unfold m2; by rewrite load8_store8_same|]. intros i Hi. split; [|by apply Hw].
    unfold m2. rewrite load8_store8_ne, Hm1, decide_True by lia. do 2 f_equal. lia. }
  assert (Hm2 : forall a, ~ (buf <= a < buf + n + 1) -> load8 m2 a = load8 m a).
  { intros a Ha. unfold m2. rewrite load8_store8_ne, Hm1, decide_False by lia. done. }
  pose proof (HQ m2 (mem_ok_store8 _ _ _ Hok1) Hm2) as HQ2. rewrite <- Hbytes in HQ2. exact HQ2.
Qed.

(** The system call for a string of [len] characters in mapped pages. *)
Definition puts_errno (tf e : Z) (k : kern) : kern :=
  lset (l_tf tf) (set_eax e (frames (dev k) !!! tf)) k.

Lemma puts_state_id k : puts_state k (phys (vmst (kthr k))) (console (dev k)) = k.
Proof. destruct k as [[[[[[[] ? ? ? ? ? ? ? ? ?] ? ? ? ? ? ?] ?] ? ?] ? ?] ? ? []]. done. Qed.

Lemma frame_gets_eq {A} tf t (f : tf_t -> A) k : frames (dev k) !! tf = Some t -> zoom (l_tf tf) (gets f) k = Ok (f t) k.
Proof.
  intros E. unfold zoom, gets. simpl. rewrite (lookup_total_correct _ _ _ E), insert_id by done.
  by destruct k as [? ? ? []].
Qed.

Section call.
Context (c : Z) (Hon : on_cpu c ks) (k : kern) (p : Z) (ready : list Z) (tf : Z) (t : tf_t).
Context (Hk : kern_core c k p ready) (Htf : frames (dev k) !! tf = Some t).
Abbreviation s := (vmst (kthr k)).
Abbreviation buf := (sys_buf + PAGESIZE * p).

Lemma core_user_proc : user_proc p.
Proof.
  pose proof (core_range _ _ _ _ _ Hk ltac:(by left)). pose proof (kc_user _ _ _ _ Hk p ltac:(by left)). unfold user_proc. lia.
Qed.

(** Memory that differs from that of [k] inside the buffer only. *)
Definition buffered (m : mem) : Prop :=
  mem_ok m /\ forall a, ~ (buf <= a < buf + PAGESIZE) -> load8 m a = load8 (phys s) a.

Lemma buffered_keeps m : pt_inv s -> kernel_area buf PAGESIZE -> buffered m -> pt_inv (set_phys m s) /\
  forall va pa, user_va va -> walks s p va pa -> walks (set_phys m s) p va pa /\ load8 m pa = load8 (phys s) pa.
Proof.
  intros Hinv Hka [Hok Hm]. pose proof Hka as (_ & _ & Hb & _).
  assert (Hh : forall a, ~ harmless s a -> load8 m a = load8 (phys s) a).
  { intros a Ha. apply Hm. intros Hin. by apply Ha, (kernel_harmless s buf PAGESIZE). }
  split; [by apply kept_inv|]. intros va pa Hva Hw. pose proof core_user_proc as Hp.
  split; [by apply kept_walks|]. apply Hm.
  pose proof (walks_harmless s p va pa Hinv Hp Hva Hw 0 ltac:(lia) ltac:(zdiv)). lia.
Qed.

Lemma sys_puts_wp pa_at : let uva := r_ebx t in let len := r_ecx t in
  pt_inv s -> VM_USERLO <= uva -> 0 <= len -> uva + len <= VM_USERHI -> kernel_area buf PAGESIZE ->
  (forall i, 0 <= i < len -> walks s p (uva + i) (pa_at i) /\ load8 (phys s) (pa_at i) <> 0) ->
  wp (sys_puts ks tf)
     (fun _ k' => exists m', k' = puts_errno tf E_SUCC (puts_state k m' (console (dev k) ++ ((fun i => load8 (phys s) (pa_at i)) <$> seqZ 0 len))) /\ buffered m') k.
Proof.
  intros uva len Hinv Hlo Hlen Hhi Hka Hw. pose proof Hka as (Hb0 & _ & Hb1 & _). pose proof core_user_proc as Hp.
  unfold sys_puts. wp_step. eapply wp_curid; [done|done|]. unfold syscall_get_arg2, syscall_get_arg3.
  wp_step. eapply wp_of_eq; [by apply frame_gets_eq|]. wp_step. eapply wp_of_eq; [by apply frame_gets_eq|].
  fold uva len. rewrite u32_small by (unfold W32, VM_USERLO, VM_USERHI in *; lia). rewrite (proj2 (Z.leb_le VM_USERLO uva)), (proj2 (Z.leb_le (uva + len) _)) by lia.
  simpl negb. cbv iota. wp_step. wp_step; [unfold in_array, user_proc in *; lia|].
  apply (wp_while _ (fun '(remain, pos) k' => exists n m, 0 <= n <= len /\ remain = len - n /\ pos = uva + n /\
     k' = puts_state k m (console (dev k) ++ ((fun i => load8 (phys s) (pa_at i)) <$> seqZ 0 n)) /\ buffered m) (fun '(remain, _) _ => remain)).
  - intros [remain pos] k' (n & m & Hn & -> & -> & -> & Hm) _.
    destruct (buffered_keeps m Hinv Hka Hm) as [Hinv' Hkeep].
    destruct (Z.eqb_spec (len - n) 0) as [Hz|Hnz]; simpl negb; cbv iota.
    { wp_step. unfold syscall_set_errno. wp_step. wp_step. wp_step. exists m. assert (n = len) as -> by lia. done. }
    set (nb := if len - n <? PAGESIZE - 1 then len - n else PAGESIZE - 1).
    assert (Hnb : 0 < nb <= len - n /\ nb <= PAGESIZE - 1) by (unfold nb, PAGESIZE; destruct (Z.ltb_spec (len - n) (4096 - 1)); lia).
    assert (Hmap : forall i, 0 <= i < nb -> walks (set_phys m s) p (uva + n + i) (pa_at (n + i)) /\
      load8 m (pa_at (n + i)) = load8 (phys s) (pa_at (n + i)) /\ load8 (phys s) (pa_at (n + i)) <> 0).
    { intros i Hi. destruct (Hw (n + i) ltac:(lia)) as [Hwi Hnzi]. rewrite Z.add_assoc in Hwi.
      destruct (Hkeep (uva + n + i) (pa_at (n + i))); [unfold user_va; lia|done|done]. }
    apply (puts_chunk_wp k m _ p (uva + n) buf nb (fun i => pa_at (n + i))); [done|apply Hm|done|lia|lia|lia|..].
    + unfold kernel_area in *. lia.
    + intros i Hi. destruct (Hmap i Hi) as (? & -> & ?). done.
    + intros m' Hok' Hm'. wp_step. unfold VM_USERLO, VM_USERHI in *. rewrite !u32_small by (unfold W32; lia). split; [|lia].
      exists (n + nb), m'. do 3 (split; [lia|]). split; [|split; [done|]].
      * f_equal. rewrite <- app_assoc, fmap_seqZ_app by lia. do 2 f_equal. apply list_fmap_ext.
        intros _ i Hi%list_elem_of_lookup_2%elem_of_seqZ. simpl. destruct (Hmap i ltac:(lia)) as (_ & -> & _). done.
      * intros a Ha. rewrite Hm' by lia. by apply Hm.
  - exists 0, (phys s). do 3 (split; [lia|]). split; [|split; [apply Hinv|done]]. simpl. by rewrite app_nil_r, puts_state_id.
  - unfold VM_USERLO, VM_USERHI in *. lia.
Qed.

Lemma sys_puts_bad_wp : VM_USERLO > r_ebx t \/ u32 (r_ebx t + r_ecx t) > VM_USERHI ->
  wp (sys_puts ks tf) (fun _ k' => k' = puts_errno tf E_INVAL_ADDR k) k.
Proof.
  intros Hbad. unfold sys_puts. wp_step. eapply wp_curid; [done|done|]. unfold syscall_get_arg2, syscall_get_arg3.
  wp_step. eapply wp_of_eq; [by apply frame_gets_eq|]. wp_step. eapply wp_of_eq; [by apply frame_gets_eq|].
  assert ((VM_USERLO <=? r_ebx t) && (u32 (r_ebx t + r_ecx t) <=? VM_USERHI) = false) as -> by (apply andb_false_iff; lia).
  simpl negb. cbv iota. unfold syscall_set_errno. wp_step. by wp_step.
Qed.
End call.
End puts.


(** Process 1 prints three characters of its page. *)
Lemma demo_user_text : exists s f, pt_inv s /\ forall i, 0 <= i < 3 ->
  walks s 1 (VM_USERLO + i) (4096 * f + i) /\ load8 (phys s) (4096 * f + i) = [72; 105; 33] !!! Z.to_nat i.
Proof.
  destruct demo_user_page as (s & f & Hinv & Hw). set (m := write_bytes (phys s) (4096 * f) [72; 105; 33]).
  assert (Hl : forall a, load8 m a = if decide (4096 * f <= a < 4096 * f + 3) then [72; 105; 33] !!! Z.to_nat (a - 4096 * f)
    else load8 (phys s) a) by (intros a; apply load8_write_bytes; repeat (apply Forall_cons; split; [lia|]); apply Forall_nil_2).
  assert (Hva : forall i, 0 <= i < 3 -> user_va (VM_USERLO + i)) by (unfold user_va, VM_USERLO, VM_USERHI; lia).
  assert (Hok : mem_ok m).
  { intros a. rewrite Hl. case_decide as Ha; [|apply Hinv].
    assert (a = 4096 * f \/ a = 4096 * f + 1 \/ a = 4096 * f + 2) as [->|[->| ->]] by lia;
      [replace (_ - _) with 0 by lia|replace (_ - _) with 1 by lia|replace (_ - _) with 2 by lia]; simpl; lia. }
  assert (Hh : forall a, ~ harmless s a -> load8 m a = load8 (phys s) a).
  { intros a Ha. rewrite Hl, decide_False; [done|]. intros Hin. apply Ha. set (i := a - 4096 * f).
    pose proof (walks_harmless s 1 (VM_USERLO + i) (4096 * f + i) Hinv user_proc_1 (Hva i ltac:(lia)) (Hw i ltac:(lia)) 0) as [Hg _];
      [lia|unfold VM_USERLO; zdiv|]. by replace (4096 * f + i + 0) with a in Hg by lia. }
  exists (set_phys m s), f. split; [by apply kept_inv|]. intros i Hi. split.
  - apply kept_walks; [done|done|done|exact user_proc_1|by apply Hva|apply Hw; lia].
  - simpl. rewrite Hl, decide_True by lia. do 2 f_equal. lia.
Qed.

