(* ===== verification/ProcSpec.v ===== *)
(** * Processes

    What the kernel as a whole offers to user code: processes with private
    memories, scheduled in turn, that print, get pages on demand and create
    other processes within their quotas.  The abstract machine below has no
    page tables, trap frames, kernel stacks or containers' locks; the kernel,
    entered through its interrupt gates, refines it. *)

From stdpp Require Import base gmap list numbers.
From S2P Require Import Prelude Apic ApicSpec Mp MpSpec Lock Pmmap Pmm Container Mem Vmm VmmSpec Str Copy Thread Queue Sched Ide IdeSpec Bufcache BlockIO Log LogSpec Block Inode File Tf Sysfile Seg Trap Frame TrapSpec ElfSpec Init InitSpec StartSpec PutsSpec.
Import Spinlock Types MContainer PCPUIntro PTCBIntro PCurID PKCtxIntro PTQueueIntro PTQueueInit.

(** ** The machine *)

(** The programs that SYS_spawn can start: entry point, initial memory with
    permissions, and number of pages. *)
Record program : Type := Program { pr_entry : Z; pr_view : Z -> option (Z * Z); pr_pages : Z }.

(** [pm_log]: the log of the file system has been recovered. *)
Record pmach : Type := Pmach {
  pm_sched : umach;
  pm_mem : Z -> Z -> option (Z * Z);
  pm_con : Z -> SContainer;
  pm_out : list Z;
  pm_log : bool
}.
Definition pm_cur (m : pmach) : Z := u_cur (pm_sched m).
Definition pm_ready (m : pmach) : list Z := u_ready (pm_sched m).
Definition pm_regs (m : pmach) : tf_t := u_ctx (pm_sched m) (pm_cur m).
Definition with_sched (u : umach) (m : pmach) : pmach := Pmach u (pm_mem m) (pm_con m) (pm_out m) (pm_log m).
Definition with_mem (f : Z -> Z -> option (Z * Z)) (m : pmach) : pmach := Pmach (pm_sched m) f (pm_con m) (pm_out m) (pm_log m).
Definition with_con (f : Z -> SContainer) (m : pmach) : pmach := Pmach (pm_sched m) (pm_mem m) f (pm_out m) (pm_log m).
Definition with_out (l : list Z) (m : pmach) : pmach := Pmach (pm_sched m) (pm_mem m) (pm_con m) l (pm_log m).

(** The permissions of a page that the process may write. *)
Definition WRITABLE : Z := 7.

(** User code: it leaves registers [r] and stores bytes in its memory. *)
Definition m_store (m : pmach) (w : Z * Z) : pmach :=
  with_mem (fun q x => if decide (q = pm_cur m /\ x = w.1) then Some (w.2, WRITABLE) else pm_mem m q x) m.
Definition m_return (t : tf_t) (m : pmach) : pmach := with_sched (u_set (pm_cur m) t (pm_sched m)) m.
Definition m_code (r : tf_t) (ws : list (Z * Z)) (m : pmach) : pmach := foldl m_store (m_return (user_regs r) m) ws.
Definition store_ok (m : pmach) (w : Z * Z) : Prop :=
  user_va w.1 /\ 0 <= w.2 < 256 /\ exists b, pm_mem m (pm_cur m) w.1 = Some (b, WRITABLE).

(** The registers in which system calls return. *)
Definition set_result (e v : Z) (t : tf_t) : tf_t := set_regs (r_edi t) (r_esi t) v (r_edx t) (r_ecx t) e t.

(** The system calls that need more than the scheduler. *)
Definition m_bytes (m : pmach) (va n : Z) : list Z :=
  (fun i => match pm_mem m (pm_cur m) (va + i) with Some (b, _) => b | None => 0 end) <$> seqZ 0 n.
Definition m_puts (m : pmach) : pmach :=
  let t := pm_regs m in
  if (VM_USERLO <=? r_ebx t) && (u32 (r_ebx t + r_ecx t) <=? VM_USERHI)
  then with_out (pm_out m ++ m_bytes m (r_ebx t) (r_ecx t)) (m_return (set_eax E_SUCC t) m)
  else m_return (set_eax E_INVAL_ADDR t) m.
Definition puts_ok (m : pmach) : Prop :=
  let t := pm_regs m in
  VM_USERLO > r_ebx t \/ u32 (r_ebx t + r_ecx t) > VM_USERHI \/
  VM_USERLO <= r_ebx t /\ 0 <= r_ecx t /\ r_ebx t + r_ecx t <= VM_USERHI /\
  forall i, 0 <= i < r_ecx t -> exists b fl, pm_mem m (pm_cur m) (r_ebx t + i) = Some (b, fl) /\ b <> 0.

Definition m_split (C : Z -> SContainer) (p child q i : Z) : SContainer :=
  if decide (i = p) then Con (quota (C p)) (usage (C p) + q) (parent (C p)) (nchildren (C p) + 1) (used (C p))
  else if decide (i = child) then Con q 0 p 0 1 else C i.
Definition m_child (m : pmach) : Z := pm_cur m * MAX_CHILDREN + 1 + nchildren (pm_con m (pm_cur m)).
Definition m_spawned (pr : program) (m : pmach) (C : Z -> SContainer) : pmach :=
  let t := pm_regs m in let child := m_child m in let u := pm_sched m in
  Pmach (Umach (u_cur u) (u_ready u ++ [child])
           (fun q => if q =? child then user_regs (user_context (pr_entry pr) inhabitant)
                     else if q =? u_cur u then set_result E_SUCC child t else u_ctx u q) (u_ticks u))
        (fun q x => if decide (q = child) then pr_view pr x else pm_mem m q x) C (pm_out m) (pm_log m).
Definition m_spawn (prog : Z -> option program) (m m' : pmach) : Prop :=
  let t := pm_regs m in let q := r_ecx t in let c := pm_con m (pm_cur m) in
  if quota c <? u32 (usage c + q) then m' = m_return (set_result E_EXCEEDS_QUOTA NUM_IDS t) m
  else if NUM_IDS <? pm_cur m * MAX_CHILDREN + 1 + MAX_CHILDREN then m' = m_return (set_result E_MAX_NUM_CHILDEN_REACHED NUM_IDS t) m
  else if nchildren c =? MAX_CHILDREN then m' = m_return (set_result E_INVAL_CHILD_ID NUM_IDS t) m
  else match prog (r_ebx t) with
       | None => m' = m_return (set_result E_INVAL_PID NUM_IDS t) m
       | Some pr => exists C, m' = m_spawned pr m C /\
           grown (m_child m) (2 * pr_pages pr) (m_split (pm_con m) (pm_cur m) (m_child m) q) C
       end.
(** A program gets the quota that it needs, and the first process but the
    idle process has started. *)
Definition spawn_ok (prog : Z -> option program) (m : pmach) : Prop :=
  let q := r_ecx (pm_regs m) in 0 <= q /\
  forall pr, prog (r_ebx (pm_regs m)) = Some pr ->
    2 * pr_pages pr <= q /\ usage (pm_con m (pm_cur m)) + q < W32 /\ pm_log m = true /\ m_child m < NUM_IDS - 1.

(** Events: the system call that the registers ask for, a timer interrupt,
    an access of an address that is not mapped. *)
Inductive pevent : Type := PvSyscall | PvTimer | PvFault (va err : Z).
Definition m_fault (va : Z) (m m' : pmach) : Prop :=
  exists f C, grown (pm_cur m) 2 (pm_con m) C /\
    m' = with_con C (with_mem (fun q x => if decide (q = pm_cur m /\ x / 4096 = va / 4096) then Some (f x, WRITABLE) else pm_mem m q x) m).
Definition p_step (prog : Z -> option program) (e : pevent) (m m' : pmach) : Prop :=
  match e with
  | PvSyscall =>
      match syscall_of (r_eax (pm_regs m)) with
      | Some SYS_puts => m' = m_puts m
      | Some SYS_spawn => m_spawn prog m m'
      | _ => m' = with_sched (u_syscall (pm_sched m)) m
      end
  | PvTimer => m' = with_sched (u_timer (pm_sched m)) m
  | PvFault va _ => m_fault va m m'
  end.
Definition p_ok (prog : Z -> option program) (e : pevent) (m : pmach) : Prop :=
  match e with
  | PvSyscall =>
      match syscall_of (r_eax (pm_regs m)) with
      | Some SYS_puts => puts_ok m
      | Some SYS_spawn => spawn_ok prog m
      | _ => simple_call (r_eax (pm_regs m)) = true
      end
  | PvTimer => True
  | PvFault va err => user_va va /\ pm_mem m (pm_cur m) va = None /\ Z.land err PFE_PR = 0 /\
      2 <= quota (pm_con m (pm_cur m)) - usage (pm_con m (pm_cur m))
  end.

(** A run: what user code does before each event, the registers with which
    the kernel calls cswitch if it does, and the event. *)
Definition pinput : Type := tf_t * list (Z * Z) * kctx * pevent.
Fixpoint p_runs (prog : Z -> option program) (l : list pinput) (m m' : pmach) : Prop :=
  match l with
  | [] => m' = m
  | (r, ws, _, e) :: l => exists m1, p_step prog e (m_code r ws m) m1 /\ p_runs prog l m1 m'
  end.

Section spec.
Context `{layout} `{fs_layout} `{sys_layout} `{seg_layout} `{prog_layout} `{clocks}.
Context (prog : Z -> option program) (Hbuf : kernel_area sys_buf (NUM_IDS * 4096)).

(** ** The kernel and the machine *)

(** A stack pointer in the kernel stack of process [q]. *)
Definition in_stack (q a : Z) : Prop := proc_kstack + 4096 * q <= a <= kstack_hi q.
(** Kernel memory apart from the page directories, the kernel stacks and the
    buffers of sys_puts. *)
Definition code_kept (m m' : mem) : Prop :=
  forall a, 0 <= a < VM_USERLO -> ~ PDirPool <= a < PDirPool + NUM_IDS * 4096 ->
    ~ proc_kstack <= a < proc_kstack + NUM_IDS * 4096 -> ~ sys_buf <= a < sys_buf + NUM_IDS * 4096 -> load8 m' a = load8 m a.
Definition code_area (a n : Z) : Prop :=
  kernel_area a n /\ (a + n <= proc_kstack \/ proc_kstack + NUM_IDS * 4096 <= a) /\ (a + n <= sys_buf \/ sys_buf + NUM_IDS * 4096 <= a).
(** The image of a program is in the memory of the kernel. *)
Record image (m : mem) (exe : Z) (pr : program) : Prop := {
  im_ok : exists size, elf_ok m exe size /\ code_area exe size;
  im_entry : e_entry m exe = pr_entry pr;
  im_view x : elf_view m exe x = pr_view pr x;
  im_pages : elf_pages m exe = pr_pages pr
}.
Lemma image_moved m m' exe pr : mem_ok m -> (forall size, code_area exe size -> same_area m m' exe size) -> image m exe pr -> image m' exe pr.
Proof.
  intros Hm Hk [(size & Hok & Ha) He Hv Hp].
  destruct (elf_kept m m' exe size (Hk size Ha) Hm Hok) as (Hok' & Ep & Ev & _ & Ee).
  split; [by exists size|congruence|intros; by rewrite Ev|congruence].
Qed.
Lemma image_kept m m' exe pr : mem_ok m -> code_kept m m' -> image m exe pr -> image m' exe pr.
Proof.
  intros Hm Hk. apply image_moved; [done|]. intros size (Ha & Hs & Hb) x Hx. apply Hk; unfold kernel_area in Ha; lia.
Qed.

Record pmatch (c : Z) (k : kern) (m : pmach) : Prop := {
  pa_user : in_user c k (pm_cur m) (pm_ready m);
  pa_mach : machine c k (pm_cur m) (pm_ready m) (pm_sched m);
  pa_thr : thr_inv c (kthr k) (pm_cur m) (pm_ready m);
  pa_mem q x : user_proc q -> user_va x -> kview k q x = pm_mem m q x;
  pa_con i : con_of (vmst (kthr k)) i = pm_con m i;
  pa_out : console (dev k) = pm_out m;
  pa_log : started (tp k) = pm_log m;
  pa_pgflt : TRAP_HANDLER (tp k) !! (c, T_PGFLT) = Some exception_cb;
  pa_stack q : q ∈ pm_ready m -> in_stack q (esp (kctx_pool (kthr k) !!! q));
  pa_ids q : q ∈ pm_cur m :: pm_ready m -> q < NUM_IDS - 1;
  pa_free q : user_proc q -> used (pm_con m q) = 0 -> uctx_pool (tp k) !!! q = inhabitant /\ forall x, user_va x -> pm_mem m q x = None;
  pa_none id : prog id = None <-> spawn_elf id = None;
  pa_prog id pr exe : prog id = Some pr -> spawn_elf id = Some exe -> image (kphys k) exe pr
}.

(** ** User code *)

(** A store of user code, through the page tables that cr3 points to. *)
Definition user_store (w : Z * Z) : K vm unit :=
  s ← get;
  match mmu_walk (phys s) (cr3 s) w.1 with
  | Some (pa, fl) => if fl =? WRITABLE then modify (fun s => set_phys (store8 (phys s) pa w.2) s) else fault
  | None => fault
  end.
Fixpoint user_stores (ws : list (Z * Z)) : K kern unit :=
  match ws with [] => mret tt | w :: ws => zoom l_kvm (user_store w) ;; user_stores ws end.
Definition user_runs (r : tf_t) (ws : list (Z * Z)) : K kern unit :=
  zoom l_dev (modify (set_uregs r)) ;; user_stores ws.

Section steps.
Context (c : Z) (ks : kstack) (Hon : on_cpu c ks).

Lemma match_proc k m q : pmatch c k m -> q ∈ pm_cur m :: pm_ready m -> user_proc q /\ used (pm_con m q) <> 0.
Proof.
  intros Hm Hq. pose proof (iu_core _ _ _ _ (pa_user _ _ _ Hm)) as Hk.
  assert (Hu : user_proc q) by (pose proof (core_range _ _ _ _ q Hk Hq); pose proof (kc_user _ _ _ _ Hk q Hq); unfold user_proc; lia).
  split; [done|]. intros E. rewrite <- (pa_con _ _ _ Hm) in E. pose proof (user_proc_range _ Hu) as Hr.
  pose proof (ti_dead _ _ _ _ (pa_thr _ _ _ Hm) q Hr E) as Hd. destruct (ti_sched _ _ _ _ (pa_thr _ _ _ Hm)) as [_ Hs].
  apply elem_of_cons in Hq as [->|Hq]; [rewrite (proj1 (sc_run _ _ _ _ Hs _ Hr) eq_refl) in Hd; done|].
  rewrite (proj2 (sc_ready _ _ _ _ Hs _ Hr) Hq) in Hd. done.
Qed.

(** A change of the memory of the running process, and of no other. *)
Lemma in_user_vm k p ready v : in_user c k p ready -> cr3 v = cr3 (vmst (kthr k)) -> in_user c (lset l_kvm v k) p ready.
Proof.
  intros [Hk ? ? ? Hc] E. split; try done.
  - apply (core_frame c k _ p ready); try done; [|apply Hk]. apply (sched_inv_vm c (kthr k)), Hk.
  - change (cr3 v = pde_at p 0). congruence.
Qed.

Lemma user_store_wp k m w : pmatch c k m -> store_ok m w ->
  wp (zoom l_kvm (user_store w)) (fun _ k' => pmatch c k' (m_store m w)) k.
Proof.
  intros Hm (Hva & Hb & b0 & Hw). destruct (match_proc k m (pm_cur m) Hm ltac:(by left)) as [Hp Hus].
  pose proof Hm as [Hu Hma Ht Hme Hco Hou Hlo Hpf Hst Hid Hfr Hno Hpr]. pose proof (ti_pt _ _ _ _ Ht) as Hpt.
  set (s := vmst (kthr k)) in *. rewrite <- Hme in Hw by done. unfold kview, ElfSpec.view in Hw. fold s in Hw.
  unfold user_store. do 3 wp_step. change (lget l_kvm k) with s. rewrite (iu_cr3 _ _ _ _ Hu : cr3 s = _).
  destruct (mmu_walk (phys s) (pde_at (pm_cur m) 0) w.1) as [[pa fl]|] eqn:Ew; [|done]. injection Hw as _ ->.
  rewrite Z.eqb_refl. wp_step. set (m' := store8 (phys s) pa w.2).
  assert (Ha : arrived s (fun _ => w.2) (fun _ => pa) 1 m').
  { split; [apply mem_ok_store8, Hpt|]. unfold m'. split; [intros; rewrite load8_store8_same; by apply Z.mod_small|].
    intros a Hne. apply load8_store8_ne. intros ->. by apply (Hne 0). }
  assert (Hws : forall i, 0 <= i < 1 -> walks s (pm_cur m) (w.1 + i) pa) by (intros i Hi; assert (i = 0) as -> by lia; rewrite Z.add_0_r; by exists WRITABLE).
  pose proof Hva as [Hlo' Hhi']. set (k' := lset l_kvm (set_phys m' s) k).
  assert (Hpt' : pt_inv (set_phys m' s)) by (eapply (arrived_inv s (pm_cur m) w.1 1 (fun _ => w.2) (fun _ => pa)); done || lia).
  split; try done.
  - by apply in_user_vm.
  - destruct Ht as [T1 T2 T3]. split; [by apply (sched_inv_vm c (kthr k))|done|done].
  - intros q x Hq Hx. unfold kview. change (vmst (kthr k')) with (set_phys m' s).
    rewrite (arrived_view s (pm_cur m) w.1 1 (fun _ => w.2) (fun _ => pa)) by (done || lia). cbn [m_store with_mem pm_mem].
    rewrite <- (Hme q x Hq Hx). destruct (decide (q = pm_cur m /\ x = w.1)) as [[-> ->]|Hne]; [|by rewrite decide_False by (intros []; apply Hne; split; [done|lia])].
    rewrite decide_True by (split; [done|lia]). unfold kview, ElfSpec.view. fold s. by rewrite Ew.
  - intros q Hq Hu0. destruct (Hfr q Hq Hu0) as [E1 E2]. split; [done|]. intros x Hx. cbn [m_store with_mem pm_mem].
    rewrite decide_False; [by apply E2|]. intros [-> _]. done.
  - intros id pr exe E1 E2. eapply image_kept; [apply Hpt| |by eapply Hpr]. intros a Ha' _ _ _. 
    eapply (arrived_kernel s (pm_cur m) w.1 1 (fun _ => w.2) (fun _ => pa)); done || lia.
Qed.

Lemma store_keeps_ok m w w' : store_ok m w' -> store_ok (m_store m w) w'.
Proof.
  intros (Hva & Hb & b & E). split; [done|]. split; [done|]. cbn [m_store with_mem pm_mem]. case_decide; [by eexists|by exists b].
Qed.
Lemma user_stores_wp ws k m : pmatch c k m -> Forall (store_ok m) ws ->
  wp (user_stores ws) (fun _ k' => pmatch c k' (foldl m_store m ws)) k.
Proof.
  intros Hm Hws. revert k m Hm Hws. induction ws as [|w ws IH]; intros k m Hm Hws; simpl; [by wp_step|].
  apply Forall_cons in Hws as [Hw Hws]. wp_step. wp_call (user_store_wp k m w); [done..|].
  intros [] k1 Hm1. wp_call (IH k1 (m_store m w)); [done|eapply Forall_impl; [done|]; intros; by apply store_keeps_ok|]. done.
Qed.

(** Other registers of the running process. *)
Lemma match_regs k m r : pmatch c k m -> pmatch c (lset l_dev (set_uregs r (dev k)) k) (m_return (user_regs r) m).
Proof.
  intros Hm. pose proof Hm as [Hu (E1 & E2 & E3 & E4 & E5) Ht Hme Hco Hou Hlo Hpf Hst Hid Hfr Hno Hpr]. split; try done.
  - by apply in_user_dev.
  - split; [done|]. split; [done|]. split; [done|]. split; [simpl; by rewrite Z.eqb_refl|]. intros q Hq. simpl.
    rewrite (proj2 (Z.eqb_neq q (pm_cur m))); [by apply E5|]. intros ->. destruct (ti_sched _ _ _ _ Ht) as [_ Hs]. by apply (cur_not_ready _ _ _ _ Hs).
Qed.
Lemma user_runs_wp r ws k m : pmatch c k m -> Forall (store_ok m) ws ->
  wp (user_runs r ws) (fun _ k' => pmatch c k' (m_code r ws m)) k.
Proof.
  intros Hm Hws. unfold user_runs. do 3 wp_step. apply user_stores_wp; [by apply match_regs|done].
Qed.

(** ** The scheduler *)
Lemma match_cpu k m kc : pmatch c k m -> pmatch c (lset l_kth (set_cpu kc (kthr k)) k) m.
Proof.
  intros [Hu (E1 & E2 & E3 & E4 & E5) [[Hl [? ? ? ? ?]] T2 T3] Hme Hco Hou Hlo Hpf Hst Hid Hfr Hno Hpr].
  destruct Hu as [Hk U1 U2 U3 U4]. split; try done.
  split; try done. by destruct Hk.
Qed.

(** A store to the stack of a process changes nothing that processes see. *)
Lemma stack_store s q a v : pt_inv s -> 0 <= q < NUM_IDS - 1 -> in_stack q a ->
  let m := store32 (phys s) a v in
  pt_inv (set_phys m s) /\ (forall r x, user_proc r -> user_va x -> ElfSpec.view (set_phys m s) r x = ElfSpec.view s r x) /\ code_kept (phys s) m.
Proof.
  intros Hinv Hq Ha m. pose proof proc_kstack_kernel. pose proof proc_kstack_disjoint. unfold in_stack, kstack_hi in Ha.
  destruct (kernel_store s m) as [H1' H2']; [done|by apply mem_ok_store32, Hinv| |].
  { intros b Hb. destruct (decide (a <= b < a + 4)) as [Hin|Hout]; [|by unfold m in Hb; rewrite load8_store32_out in Hb by lia].
    unfold kernel_area, NUM_IDS in *. lia. }
  split; [done|]. split; [done|]. intros b _ _ Hb _. unfold m. apply load8_store32_out. unfold NUM_IDS in *. lia.
Qed.

Lemma pt_inv_regs s a b d : pt_inv s -> pt_inv (Vm (cn s) (phys s) a b d).
Proof. intros []. by split. Qed.
Lemma kthr_kfs k k' : kfs k' = kfs k -> kthr k' = kthr k.
Proof. intros E. unfold kthr, l_kth, l_kjf. cbn. by rewrite E. Qed.

Lemma kcn_id k : lset l_kcn (cn (vmst (kthr k))) k = k.
Proof. by destruct k as [[[[[[[]]]]]]]. Qed.
Lemma kvm_id k : lset l_kvm (vmst (kthr k)) k = k.
Proof. by destruct k as [[[[[[]]]]]]. Qed.

(** What a turn of the scheduler does to the state of the threads. *)
Lemma scheduled_thr k m p' k1 k' : pmatch c k m -> p' ∈ pm_cur m :: pm_ready m -> scheduled k (pm_cur m) p' k1 ->
  kfs k' = kfs (load_cr3 p' k1) ->
  let t := kthr k in let t' := kthr k' in
  cn (vmst t') = cn (vmst t) /\ pt_inv (vmst t') /\
  (forall q x, user_proc q -> user_va x -> kview k' q x = kview k q x) /\ code_kept (kphys k) (kphys k') /\
  kctx_pool t' = (if decide (p' = pm_cur m) then kctx_pool t else <[pm_cur m := saved t]> (kctx_pool t)) /\
  (forall q, q <> pm_cur m -> q <> p' -> state (TCBPool t' !!! q) = state (TCBPool t !!! q)).
Proof.
  intros Hm Hp' (k0 & E0%kthr_kfs & _ & (_ & _ & Hsw & Hst)) E1%kthr_kfs t t'. pose proof (ti_pt _ _ _ _ (pa_thr _ _ _ Hm)) as Hpt.
  rewrite E0 in Hsw, Hst. unfold t'. unfold kview, kphys. rewrite E1. unfold switched in Hsw. case_decide as Ep.
  - destruct Hsw as (_ & Ek & Ev). change (vmst (kthr (load_cr3 p' k1))) with
      (Vm (cn (vmst (kthr k1))) (phys (vmst (kthr k1))) (cr0 (vmst (kthr k1))) (pde_at p' 0) (cr4 (vmst (kthr k1)))).
    rewrite Ev. split; [done|]. split; [by apply (pt_inv_regs (vmst (kthr k)))|]. split; [done|]. split; [done|]. split; [exact Ek|exact Hst].
  - destruct Hsw as (_ & Ek & Ev). apply elem_of_cons in Hp' as [?|Hr]; [done|]. change (kctx_pool (kthr (load_cr3 0 k))) with (kctx_pool t) in Ev.
    destruct (stack_store (vmst (kthr k)) p' (esp (kctx_pool t !!! p')) (eip (kctx_pool t !!! p')) Hpt) as (S1 & S2 & S3).
    { destruct (match_proc k m p' Hm ltac:(by right)). pose proof (pa_ids _ _ _ Hm p' ltac:(by right)). unfold user_proc in *. lia. }
    { by apply (pa_stack _ _ _ Hm). }
    change (vmst (kthr (load_cr3 p' k1))) with
      (Vm (cn (vmst (kthr k1))) (phys (vmst (kthr k1))) (cr0 (vmst (kthr k1))) (pde_at p' 0) (cr4 (vmst (kthr k1)))).
    rewrite Ev. split; [done|]. split; [by apply (pt_inv_regs (set_phys (store32 (phys (vmst (kthr k))) (esp (kctx_pool t !!! p')) (eip (kctx_pool t !!! p'))) (vmst (kthr k))))|].
    split; [exact S2|]. split; [exact S3|]. split; [exact Ek|exact Hst].
Qed.

Lemma scheduled_match k m p' ready' u' k1 k' : pmatch c k m -> in_stack (pm_cur m) (esp (cpu (kthr k))) ->
  scheduled k (pm_cur m) p' k1 -> in_user c k' p' ready' -> machine c k' p' ready' u' -> kfs k' = kfs (load_cr3 p' k1) -> rest_kept k1 k' ->
  (forall q, q ∈ p' :: ready' -> q ∈ pm_cur m :: pm_ready m) -> pmatch c k' (with_sched u' m).
Proof.
  intros Hm Hsp Hsc Hu Hma Ef Hrk Hsub.
  destruct (scheduled_thr k m p' k1 k' Hm (Hsub p' ltac:(by left)) Hsc Ef) as (Ecn & Hpt & Hv & Hck & Ekc & Hst).
  destruct Hsc as (k0 & _ & Hr0 & (_ & Hr1 & _)). destruct (rest_kept_trans _ _ _ (rest_kept_trans _ _ _ Hr0 Hr1) Hrk) as (R1 & R2 & R3 & R4).
  pose proof Hma as (M1 & M2 & _). unfold with_sched. pose proof Hm as [_ _ Ht Hme Hco Hou Hlo Hpf Hsta Hid Hfr Hno Hpr].
  split; unfold pm_cur, pm_ready; cbn [pm_sched pm_mem pm_con pm_out pm_log]; rewrite ?M1, ?M2, ?R1, ?R2, ?R3, ?R4; try done.
  - split; [apply Hu|done|]. rewrite Ecn. intros q Hq E.
    assert (Hni : q ∉ pm_cur m :: pm_ready m).
    { intros Hin. destruct (match_proc k m q Hm Hin) as [_ Hne]. apply Hne. by rewrite <- Hco. }
    rewrite Hst; [by apply (ti_dead _ _ _ _ Ht)| |]; intros ->; apply Hni; [by left|]. apply Hsub. by left.
  - intros q x Hq Hx. by rewrite Hv, Hme.
  - intros i. unfold con_of. rewrite Ecn. apply Hco.
  - intros q Hq. rewrite Ekc. assert (Hin : q ∈ pm_cur m :: pm_ready m) by (apply Hsub; by right).
    assert (Hnp : q <> p').
    { intros ->. destruct (kc_sched _ _ _ _ (iu_core _ _ _ _ Hu)) as [_ Hs]. by apply (cur_not_ready _ _ _ _ Hs). }
    apply elem_of_cons in Hin as [->|Hin]; case_decide as Ep; [done|by rewrite lookup_total_insert_eq|by apply Hsta|].
    rewrite lookup_total_insert_ne; [by apply Hsta|]. intros E. rewrite <- E in Hin. destruct (ti_sched _ _ _ _ Ht) as [_ Hs]. by apply (cur_not_ready _ _ _ _ Hs).
  - intros q Hq. by apply Hid, Hsub.
  - intros id pr exe E1 E2. eapply image_kept; [apply Ht|exact Hck|by eapply Hpr].
Qed.

(** ** Changes of memory *)
Lemma vm_match k m k' v u' f C out : pmatch c k m ->
  in_user c k' (pm_cur m) (pm_ready m) -> machine c k' (pm_cur m) (pm_ready m) u' -> kthr k' = lset l_vm v (kthr k) ->
  pt_inv v -> code_kept (kphys k) (phys v) -> (forall q x, user_proc q -> user_va x -> ElfSpec.view v q x = f q x) ->
  (forall i, con_of v i = C i /\ used (C i) = used (pm_con m i)) -> console (dev k') = out ->
  uctx_pool (tp k') = uctx_pool (tp k) -> started (tp k') = started (tp k) -> TRAP_HANDLER (tp k') = TRAP_HANDLER (tp k) ->
  (forall q x, user_proc q -> user_va x -> q <> pm_cur m -> f q x = pm_mem m q x) ->
  pmatch c k' (Pmach u' f C out (pm_log m)).
Proof.
  intros Hm Hu Hma Et Hpt Hck Hv HC Ho E1 E2 E3 Hf. pose proof Hma as (M1 & M2 & _). pose proof (match_proc k m (pm_cur m) Hm ltac:(by left)) as [_ Hcu].
  destruct Hm as [_ _ Ht Hme Hco Hou Hlo Hpf Hst Hid Hfr Hno Hpr].
  split; unfold pm_cur, pm_ready; cbn [pm_sched pm_mem pm_con pm_out pm_log]; rewrite ?M1, ?M2, ?E1, ?E2, ?E3; try done.
  - split; [apply Hu|by rewrite Et|]. rewrite Et. intros q Hq E. apply (ti_dead _ _ _ _ Ht q Hq).
    change (used (con_of v q) = 0) in E. destruct (HC q) as [Eq Eu]. rewrite Eq, Eu, <- Hco in E. done.
  - intros q x Hq Hx. unfold kview. rewrite Et. by apply Hv.
  - intros i. rewrite Et. apply HC.
  - rewrite Et. exact Hst.
  - intros q Hq E. destruct (HC q) as [_ Eu]. rewrite Eu in E. destruct (Hfr q Hq E) as [F1 F2]. split; [done|]. intros x Hx.
    rewrite Hf; [by apply F2|done|done|]. intros ->. by apply Hcu.
  - intros id pr exe P1 P2. unfold kphys. rewrite Et. eapply image_kept; [apply Ht|exact Hck|by eapply Hpr].
Qed.

(** *** A page on demand *)
Definition page_added (p va : Z) (s v : vm) : Prop :=
  pt_inv v /\ spent p 2 s v /\ kernel_kept (phys s) (phys v) /\ exists f : Z -> Z, forall q x, user_proc q -> user_va x ->
    ElfSpec.view v q x = if decide (q = p /\ x / 4096 = va / 4096) then Some (f x, WRITABLE) else ElfSpec.view s q x.
Lemma fault_page_wp s p va : pt_inv s -> user_proc p -> user_va va -> 2 <= room_of s p ->
  wp (alloc_page ks p va PERM_PUW) (fun r v => r <> MagicNumber /\ page_added p va s v) s.
Proof.
  intros Hinv Hp Hva Hroom. wp_call alloc_page_wp; [apply Hon|done..|].
  intros r v (Hi & [Hmo Hsp] & [(? & _)|(Hur & g & _ & Hm)]); [lia|]. change PERM_PUW with 7 in Hm.
  split; [unfold user_page, VM_USERHI_PI, VM_USERLO_PI, MagicNumber in *; lia|]. split; [done|]. split; [done|]. split.
  - intros a Ha Hb. destruct Hm as [_ _ _ Hm]. apply Hm; [done|]. unfold user_page, VM_USERLO_PI, VM_USERLO in *. zdiv.
  - exists (fun x => load8 (phys v) (4096 * g + x mod 4096)). intros q x Hq Hx. case_decide as Hin.
    + destruct Hin as [-> Hin]. unfold ElfSpec.view. by rewrite (alloc_walks v p va r g 7 s) by done.
    + by apply (alloc_view s v p va r g 7).
Qed.

Definition set_cr2 (x : Z) (h : hw) : hw :=
  Hw (frames h) (regs h) x (h_ic h) (h_ncpu h) (h_mp_inited h) (h_ismp h) (h_infos h) (console h).
Definition run_pevent (off : Z) (e : pevent) : K kern unit :=
  match e with
  | PvSyscall => user_int ks off T_SYSCALL
  | PvTimer => user_trap ks off (T_IRQ0 + IRQ_TIMER) 0 0
  | PvFault va err => zoom l_dev (modify (set_cr2 va)) ;; user_trap ks off T_PGFLT err 0
  end.

(** A handler that changes the memory by [F] and leaves the threads alone. *)
Definition vm_step (k : kern) (F : vm -> vm -> Prop) (k1 : kern) : Prop :=
  exists v, F (vmst (kthr k)) v /\ kfs k1 = kfs (lset l_kvm v k).
Lemma vm_step_thr k k0 k1 k' p F : kfs k0 = kfs (load_cr3 0 k) -> vm_step k0 F k1 -> kfs k' = kfs (load_cr3 p k1) ->
  exists v, F (vmst (kthr (load_cr3 0 k))) v /\ kthr k' = lset l_vm (Vm (cn v) (phys v) (cr0 v) (pde_at p 0) (cr4 v)) (kthr k).
Proof.
  intros E0%kthr_kfs (v & HF & E1%kthr_kfs) E2%kthr_kfs. rewrite E0 in HF. exists v. split; [done|]. rewrite E2.
  unfold load_cr3 at 1. change (kthr (lset l_kth ?t ?x)) with t. rewrite E1. change (kthr (lset l_kvm v k0)) with (lset l_vm v (kthr k0)). by rewrite E0.
Qed.

Lemma pgflt_wp off k p ready u f va err : in_kernel c k p ready -> kmachine c k p ready u ->
  konts (tp k) !!! p = KTrap c p p (proc_kstack_hi p) false -> frames (dev k) !!! proc_kstack_hi p = f ->
  t_trapno f = T_PGFLT -> t_err f = err -> Z.land err PFE_PR = 0 -> cr2 (dev k) = va ->
  pt_inv (vmst (kthr k)) -> user_proc p -> user_va va -> 2 <= room_of (vmst (kthr k)) p ->
  wp (run_handler ks off (proc_kstack_hi p) (Some exception_cb))
     (fun _ => kpost c u (fun _ k1 => rest_kept k k1 /\ vm_step k (page_added p va) k1)) k.
Proof.
  intros Hin Hkm Ek Ef En Ee He Hcr Hpt Hp Hva Hroom. simpl run_handler. unfold exception_handler, pgflt_handler.
  do 3 wp_step. simpl lget. rewrite Ef, En. change (T_PGFLT =? T_PGFLT) with true. cbv iota.
  destruct (kmachine_same c _ _ _ _ _ Hin Hkm Ek Ef) as [Hin1 Hkm1].
  assert (Ef1 : frames (dev (lset (l_tf (proc_kstack_hi p)) f k)) !!! proc_kstack_hi p = f) by (simpl; by rewrite lookup_total_insert_eq).
  wp_step. eapply (wp_curid c ks Hon); [apply Hin1|]. do 3 wp_step. change (lget (l_tf ?x) ?y) with (frames (dev y) !!! x). rewrite Ef1.
  destruct (kmachine_same c _ _ _ _ _ Hin1 Hkm1 Ek Ef1) as [Hin2 Hkm2].
  match goal with |- wp _ _ ?x => set (k2 := x) in *; change (lset (l_tf _) f (lset (l_tf _) f k)) with k2 in Hin2, Hkm2 end. do 2 wp_step. rewrite Ee, He. cbn [Z.eqb negb].
  change (cr2 (dev k2)) with (cr2 (dev k)). rewrite Hcr. do 2 wp_step. change (lget l_kvm k2) with (vmst (kthr k)).
  wp_call fault_page_wp; [done..|]. intros r v [Hr Hpa]. rewrite (proj2 (Z.eqb_neq r MagicNumber) Hr). wp_step.
  exists p, ready. split; [|split; [exact Hkm2|split; [done|by exists v]]]. destruct Hin2 as [Hk2 Hs2]. split; [|exact Hs2].
  apply (core_frame c k2 _ p ready); try done; [|apply Hk2]. apply (sched_inv_vm c (kthr k2)), Hk2.
Qed.

Lemma fault_step off va err k m : pmatch c k m -> p_ok prog (PvFault va err) m ->
  wp (run_pevent off (PvFault va err)) (fun _ k' => exists m', m_fault va m m' /\ pmatch c k' m') k.
Proof.
  intros Hm (Hva & Hnone & Herr & Hroom). destruct (match_proc k m (pm_cur m) Hm ltac:(by left)) as [Hp _]. unfold run_pevent. do 3 wp_step.
  match goal with |- wp _ _ ?x => set (k1 := x) end. pose proof Hm as [Hu Hma Ht Hme Hco Hou Hlo Hpf Hst Hid Hfr Hno Hpr].
  assert (Hu1 : in_user c k1 (pm_cur m) (pm_ready m)) by (by apply in_user_dev).
  eapply wp_mono; [eapply (user_trap_wp c ks Hon off T_PGFLT err k1 (pm_cur m) (pm_ready m) (pm_sched m)); [done|exact Hma|by apply (bool_decide_unpack _)|done|done|]|].
  { intros k0 f Hin Hkm Ek Ef En Ee Er Hfs Hrest Hcr. change (TRAP_HANDLER (tp k1)) with (TRAP_HANDLER (tp k)). rewrite Hpf.
    pose proof (kthr_kfs _ _ Hfs) as Et. eapply wp_mono; [eapply (pgflt_wp off k0 (pm_cur m) (pm_ready m) _ f va err); try done; rewrite Et|].
    - by apply (pt_inv_regs (vmst (kthr k))), Ht.
    - unfold room_of. rewrite <- Hco in Hroom. exact Hroom.
    - intros [] k2 (p' & ready' & H1' & H2' & H3' & H4'). exists p', ready'. split; [done|]. split; [done|].
      instantiate (1 := fun _ k2 => exists k0, kfs k0 = kfs (load_cr3 0 k) /\ rest_kept k k2 /\ vm_step k0 (page_added (pm_cur m) va) k2).
      exists k0. split; [exact Hfs|]. split; [|done]. eapply rest_kept_trans; [exact Hrest|exact H3']. }
  intros [] k' (p' & ready' & Hu' & Hma' & k2 & (k0 & E0 & Hr0 & Hvs) & E2 & Hr2).
  pose proof Hma' as (M1 & M2 & _). fold (pm_cur m) in M1. fold (pm_ready m) in M2. subst p' ready'.
  destruct (rest_kept_trans _ _ _ Hr0 Hr2) as (R1 & R2 & R3 & R4).
  destruct (vm_step_thr k k0 k2 k' (pm_cur m) _ E0 Hvs E2) as (v & (V1 & V2 & V3 & f & V4) & Et).
  set (C := con_of v). exists (with_con C (with_mem (fun q x => if decide (q = pm_cur m /\ x / 4096 = va / 4096) then Some (f x, WRITABLE) else pm_mem m q x) m)). split.
  - exists f, C. split; [|done]. destruct V2 as ((w & W1 & W2) & _). change (con_of (vmst (kthr (load_cr3 0 k)))) with (con_of (vmst (kthr k))) in W1, W2.
    exists w. rewrite <- Hco. split; [done|]. intros i. rewrite <- Hco. apply W2.
  - eapply (vm_match k m k' _ (pm_sched m)); try done.
    + by apply (pt_inv_regs v).
    + intros a A1 A2 A3 A4. by apply V3.
    + intros q x Hq Hx. change (ElfSpec.view v q x = (if decide (q = pm_cur m /\ x / 4096 = va / 4096) then Some (f x, WRITABLE) else pm_mem m q x)).
      rewrite V4 by done. case_decide; [done|]. by apply Hme.
    + intros i. split; [done|]. unfold C, con_of. rewrite (spent_used _ _ _ _ i V2), <- Hco. done.
    + by rewrite R1.
    + intros q x Hq Hx Hne. cbn [with_con with_mem pm_mem]. by rewrite decide_False by tauto.
Qed.

(** In a system call of [p] with the trap frame [f]. *)
Record in_call (k : kern) (p : Z) (ready : list Z) (u : umach) (f : tf_t) : Prop := {
  ca_kernel : in_kernel c k p ready;
  ca_machine : kmachine c k p ready u;
  ca_kont : konts (tp k) !!! p = KTrap c p p (proc_kstack_hi p) false;
  ca_frame : frames (dev k) !! proc_kstack_hi p = Some f
}.
Lemma call_frame k p ready u f v : in_call k p ready u f -> in_call (lset (l_tf (proc_kstack_hi p)) v k) p ready (u_set p (user_regs v) u) v.
Proof.
  intros [Hin Hkm Ek Ef]. destruct (kmachine_frame c k p ready u v Hin Hkm Ek). split; try done. simpl. by rewrite lookup_insert_eq.
Qed.
Lemma call_result k p ready u f e v : in_call k p ready u f ->
  wp (zoom (l_tf (proc_kstack_hi p)) (syscall_set_errno e) ;; zoom (l_tf (proc_kstack_hi p)) (syscall_set_retval1 v))
     (fun _ k2 => exists f2, in_call k2 p ready (u_set p (set_result e v (user_regs f)) u) f2 /\ kfs k2 = kfs k /\ tp k2 = tp k /\ console (dev k2) = console (dev k)) k.
Proof.
  intros Hc. unfold syscall_set_errno, syscall_set_retval1. do 4 wp_step. simpl lget. rewrite lookup_total_insert_eq, (lookup_total_correct _ _ _ (ca_frame _ _ _ _ _ Hc)).
  eexists. split; [|done]. match goal with |- in_call ?k2 _ _ _ _ => replace k2 with (lset (l_tf (proc_kstack_hi p)) (set_result e v f) k) end; [by eapply call_frame|].
  simpl. by rewrite insert_insert_eq.
Qed.

(** A system call, given what the code for its number does. *)
Lemma syscall_wp off k m nr u' R : pmatch c k m -> syscall_of (r_eax (pm_regs m)) = Some nr ->
  (forall k0 f, in_call k0 (pm_cur m) (pm_ready m) (pm_sched m) f -> user_regs f = pm_regs m -> kfs k0 = kfs (load_cr3 0 k) -> rest_kept k k0 ->
     wp (match nr with SYS_puts => sys_puts ks (proc_kstack_hi (pm_cur m)) | SYS_spawn => sys_spawn ks (proc_kstack_hi (pm_cur m)) | _ => fault end) (fun _ => kpost c u' R) k0) ->
  wp (run_pevent off PvSyscall) (fun _ => user_post c u' R) k.
Proof.
  intros Hm Hnr HQ. pose proof (pa_user _ _ _ Hm) as Hu. pose proof (pa_mach _ _ _ Hm) as Hma. simpl run_pevent.
  eapply (user_int_eq c); [done|]. eapply (user_trap_wp c ks Hon); [done|done|by apply (bool_decide_unpack _)|done|done|].
  intros k' f Hin Hkm Ek Ef _ _ Er Hfs Hrest _. rewrite (kc_syscall _ _ _ _ (iu_core _ _ _ _ Hu)). simpl run_handler. unfold syscall_dispatch, syscall_get_arg1.
  assert (Ereg : user_regs f = pm_regs m) by (rewrite Er; symmetry; apply Hma).
  do 3 wp_step. simpl lget. cbv beta. rewrite Ef. change (r_eax f) with (r_eax (user_regs f)). rewrite Ereg, Hnr.
  destruct (kmachine_same c _ _ _ _ _ Hin Hkm Ek Ef) as [Hin1 Hkm1].
  assert (Hc : in_call (lset (l_tf (proc_kstack_hi (pm_cur m))) f k') (pm_cur m) (pm_ready m) (pm_sched m) f) by (split; try done; simpl; by rewrite lookup_insert_eq).
  pose proof (HQ _ f Hc Ereg Hfs Hrest) as HQ'. destruct nr; try done; by apply wp_elim in HQ' as (? & ? & ? & _).
Qed.

(** *** Printing *)
Definition memory_same (s v : vm) : Prop :=
  pt_inv v /\ cn v = cn s /\ code_kept (phys s) (phys v) /\ forall q x, user_proc q -> user_va x -> ElfSpec.view v q x = ElfSpec.view s q x.
Definition printed (k : kern) (l : list Z) (k1 : kern) : Prop :=
  console (dev k1) = console (dev k) ++ l /\ tp k1 = tp k /\ vm_step k memory_same k1.

Lemma memory_same_refl s : pt_inv s -> memory_same s s.
Proof. intros Hs. split; [done|]. split; [done|]. split; [by intros ?|done]. Qed.
Lemma memory_same_buf s p m : pt_inv s -> user_proc p -> mem_ok m ->
  (forall a, ~ sys_buf + PAGESIZE * p <= a < sys_buf + PAGESIZE * p + PAGESIZE -> load8 m a = load8 (phys s) a) -> memory_same s (set_phys m s).
Proof.
  intros Hinv Hp Hok Hm. destruct (kernel_store s m Hinv Hok) as [H1' H2'].
  { intros a Ha. destruct (decide (sys_buf + PAGESIZE * p <= a < sys_buf + PAGESIZE * p + PAGESIZE)) as [Hin|Hout]; [|by rewrite Hm in Ha].
    unfold kernel_area, user_proc, NUM_IDS, PAGESIZE in *. lia. }
  split; [done|]. split; [done|]. split; [|done]. intros a _ _ _ Ha. apply Hm. unfold user_proc, NUM_IDS, PAGESIZE in *. lia.
Qed.

Lemma call_puts_wp k p ready u f (b : Z -> Z) : in_call k p ready u f -> pt_inv (vmst (kthr k)) -> user_proc p ->
  let ok := (VM_USERLO <=? r_ebx f) && (u32 (r_ebx f + r_ecx f) <=? VM_USERHI) in
  (ok = true -> 0 <= r_ecx f /\ r_ebx f + r_ecx f <= VM_USERHI /\
     forall i, 0 <= i < r_ecx f -> exists fl, kview k p (r_ebx f + i) = Some (b i, fl) /\ b i <> 0) ->
  wp (sys_puts ks (proc_kstack_hi p)) (fun _ => kpost c (u_set p (set_eax (if ok then E_SUCC else E_INVAL_ADDR) (user_regs f)) u)
    (fun _ => printed k (if ok then b <$> seqZ 0 (r_ecx f) else []))) k.
Proof.
  intros Hcall Hpt Hp ok Hok. set (tf := proc_kstack_hi p) in *. pose proof Hcall as [Hin Hkm Ek Ef]. destruct ok eqn:E; unfold ok in E.
  - apply andb_true_iff in E as [E1%Z.leb_le E2%Z.leb_le]. destruct (Hok eq_refl) as (Hn & Hhi & Hb).
    set (pa_at := fun i => match mmu_walk (phys (vmst (kthr k))) (pde_at p 0) (r_ebx f + i) with Some (pa, _) => pa | None => 0 end).
    assert (Hpa : forall i, 0 <= i < r_ecx f -> walks (vmst (kthr k)) p (r_ebx f + i) (pa_at i) /\ load8 (phys (vmst (kthr k))) (pa_at i) = b i /\ b i <> 0).
    { intros i Hi. destruct (Hb i Hi) as (fl & Ev & Hne). unfold kview, ElfSpec.view in Ev. unfold walks, pa_at.
      destruct (mmu_walk _ _ _) as [[pa fl']|]; [|done]. injection Ev as -> _. split; [by eexists|done]. }
    eapply wp_mono; [apply (sys_puts_wp ks c Hon k p ready tf f (ik_core _ _ _ _ Hin) Ef pa_at); try done|].
    { unfold kernel_area, user_proc, NUM_IDS, PAGESIZE in *. lia. }
    { intros i Hi. destruct (Hpa i Hi) as (? & -> & ?). done. }
    intros [] k2 (m' & -> & Hm' & Hsame). exists p, ready. set (k2 := puts_state k m' _).
    assert (Hcall2 : in_call k2 p ready u f).
    { split; try done. destruct Hin as [Hk1 Hs1]. split; [|exact Hs1]. apply core_dev. apply (core_frame c k _ p ready); try done; [|apply Hk1]. apply (sched_inv_vm c (kthr k)), Hk1. }
    unfold puts_errno. rewrite (lookup_total_correct _ _ _ (ca_frame _ _ _ _ _ Hcall2)). destruct (call_frame k2 p ready u f (set_eax E_SUCC f) Hcall2) as [Hin3 Hkm3 _ _].
    split; [exact Hin3|]. split; [exact Hkm3|]. split; [|split; [done|]].
    + change (console (dev k) ++ ((fun i => load8 (phys (vmst (kthr k))) (pa_at i)) <$> seqZ 0 (r_ecx f)) = console (dev k) ++ (b <$> seqZ 0 (r_ecx f))).
      f_equal. apply list_fmap_ext. intros _ i Hi%list_elem_of_lookup_2%elem_of_seqZ. apply Hpa. lia.
    + exists (set_phys m' (vmst (kthr k))). split; [by eapply memory_same_buf|done].
  - eapply wp_mono; [apply (sys_puts_bad_wp ks c Hon k p ready tf f (ik_core _ _ _ _ Hin) Ef)|].
    { apply andb_false_iff in E. lia. }
    intros [] k2 ->. unfold puts_errno. rewrite (lookup_total_correct _ _ _ Ef).
    destruct (call_frame k p ready u f (set_eax E_INVAL_ADDR f) Hcall) as [Hin3 Hkm3 _ _]. exists p, ready.
    split; [exact Hin3|]. split; [exact Hkm3|]. split; [by rewrite app_nil_r|]. split; [done|]. exists (vmst (kthr k)). split; [by apply memory_same_refl|].
    change (kfs k = kfs (lset l_kvm (vmst (kthr k)) k)). by rewrite kvm_id.
Qed.

Lemma puts_step off k m : pmatch c k m -> syscall_of (r_eax (pm_regs m)) = Some SYS_puts -> puts_ok m ->
  wp (run_pevent off PvSyscall) (fun _ k' => pmatch c k' (m_puts m)) k.
Proof.
  intros Hm Hnr Hok. destruct (match_proc k m (pm_cur m) Hm ltac:(by left)) as [Hp _]. pose proof Hm as [Hu Hma Ht Hme Hco Hou Hlo Hpf Hst Hid Hfr Hno Hpr].
  unfold puts_ok in Hok. cbv zeta in Hok. set (t := pm_regs m) in *. set (ok := (VM_USERLO <=? r_ebx t) && (u32 (r_ebx t + r_ecx t) <=? VM_USERHI)).
  set (u' := u_set (pm_cur m) (set_eax (if ok then E_SUCC else E_INVAL_ADDR) t) (pm_sched m)).
  set (l := if ok then m_bytes m (r_ebx t) (r_ecx t) else []).
  eapply wp_mono; [apply (syscall_wp off k m SYS_puts u' (fun _ k1 => exists k0, kfs k0 = kfs (load_cr3 0 k) /\ rest_kept k k0 /\ printed k0 l k1)); [done|done|]|].
  { intros k0 f Hc Er Hfs Hrest. pose proof (kthr_kfs _ _ Hfs) as Et.
    assert (E1 : r_ebx f = r_ebx t) by (change (r_ebx f) with (r_ebx (user_regs f)); by rewrite Er).
    assert (E2 : r_ecx f = r_ecx t) by (change (r_ecx f) with (r_ecx (user_regs f)); by rewrite Er).
    eapply wp_mono; [apply (call_puts_wp k0 (pm_cur m) (pm_ready m) (pm_sched m) f (fun i => match pm_mem m (pm_cur m) (r_ebx t + i) with Some (b, _) => b | None => 0 end)); [done| |done|]|].
    - rewrite Et. by apply (pt_inv_regs (vmst (kthr k))), Ht.
    - rewrite E1, E2. fold ok. intros Eok. unfold ok in Eok. apply andb_true_iff in Eok as [Eo1%Z.leb_le Eo2%Z.leb_le]. destruct Hok as [?|[?|(B1 & B2 & B3 & B4)]]; [lia..|]. split; [done|]. split; [done|]. intros i Hi. destruct (B4 i Hi) as (b & fl & E & Hb). rewrite E. exists fl. split; [|done].
      unfold kview. rewrite Et. change (kview k (pm_cur m) (r_ebx t + i) = Some (b, fl)). rewrite Hme; [done|done|]. unfold user_va. lia.
    - rewrite E1, E2, Er. fold ok t u'. intros [] k1 (p' & ready' & H1' & H2' & H3'). exists p', ready'. split; [done|]. split; [done|]. exists k0. done. }
  intros [] k' (p' & ready' & Hu' & Hma' & k2 & (k0 & E0 & Hr0 & (P1 & P2 & P3)) & E2 & Hr2).
  pose proof Hma' as (M1 & M2 & _). change (u_cur u') with (pm_cur m) in M1. change (u_ready u') with (pm_ready m) in M2. subst p' ready'.
  destruct Hr0 as (R1 & R2 & R3 & R4), Hr2 as (S1 & S2 & S3 & S4). rewrite P2 in S2, S3, S4.
  destruct (vm_step_thr k k0 k2 k' (pm_cur m) _ E0 P3 E2) as (v & (V1 & V2 & V3 & V4) & Et).
  assert (Em : m_puts m = Pmach u' (pm_mem m) (pm_con m) (pm_out m ++ l) (pm_log m)).
  { unfold m_puts. fold t ok. unfold l, u'. destruct ok; [done|]. rewrite app_nil_r. by destruct m. }
  rewrite Em. eapply (vm_match k m k' _ u'); try done; try congruence.
  - by apply (pt_inv_regs v).
  - intros q x Hq Hx. rewrite <- Hme by done. exact (V4 q x Hq Hx).
  - intros i. split; [|done]. rewrite <- Hco. unfold con_of. cbn [cn]. by rewrite V2.
Qed.

(** *** Creating a process *)
Lemma ready_nodup t p ready child : sched_inv c t p (ready ++ [child]) -> child ∉ p :: ready.
Proof.
  intros [_ Hs]. pose proof (cur_not_ready _ _ _ _ Hs) as Hc. pose proof (qs_nodup _ _ _ (sc_queue _ _ _ _ Hs) NUM_IDS) as Hn.
  rewrite only_ready_eq in Hn. apply NoDup_app in Hn as (_ & Hn & _). intros [->|Hin]%elem_of_cons; [set_solver|]. apply (Hn child Hin). set_solver.
Qed.

Lemma created_kernel k k' p ready u child exe q : in_kernel c k p ready -> kmachine c k p ready u ->
  created c p ready child exe q k k' -> started (tp k) = true -> user_proc child ->
  in_kernel c k' p (ready ++ [child]) /\
  kmachine c k' p (ready ++ [child]) (Umach p (ready ++ [child])
    (fun x => if x =? child then user_regs (user_context (e_entry (kphys k) exe) (uctx_pool (tp k) !!! child)) else u_ctx u x) (u_ticks u)).
Proof.
  intros [[K1 K2 K3 K4 K5 K6 K7 K8 K9 K10] Hst] (E1 & E2 & E3 & E4) [I1 V1 G1 N1 X1 O1 C1 (s1 & S1 & S2) (_ & T2 & T3) R1 (U & Ko & D1 & _ & D3)] Hlog Hup.
  pose proof (ready_nodup _ _ _ _ (ti_sched _ _ _ _ I1)) as Hni.
  assert (Hcase : forall P : Z -> Prop, P child -> (forall x, x ∈ p :: ready -> x <> child -> P x) -> forall x, x ∈ p :: ready ++ [child] -> P x).
  { intros P H1' H2' x Hx. destruct (decide (x = child)) as [->|Hne]; [done|]. apply H2'; [|done]. set_solver. }
  split; [split; [split|]|split_and!].
  - apply I1.
  - apply Hcase; [unfold user_proc in Hup; lia|]. intros x Hx _. by apply K2.
  - by rewrite T3.
  - by rewrite S1.
  - rewrite S1. simpl. apply Hcase; [by rewrite lookup_total_insert_eq|]. intros x Hx Hne. rewrite lookup_total_insert_ne by done. by apply K5.
  - by rewrite S1.
  - by rewrite D1.
  - by rewrite D1.
  - left. by rewrite D1.
  - by rewrite T2.
  - unfold stopped. rewrite O1. apply Hcase; [left; by rewrite lookup_total_insert_eq|]. intros x Hx Hne. rewrite lookup_total_insert_ne by done. by apply Hst.
  - done.
  - done.
  - simpl. by rewrite T2, E3.
  - apply Hcase.
    + simpl. rewrite Z.eqb_refl. unfold context. rewrite O1, lookup_total_insert_eq, X1, lookup_total_insert_eq. done.
    + intros x Hx Hne. simpl. rewrite (proj2 (Z.eqb_neq x child) Hne), E4 by done. f_equal. unfold context. rewrite O1, lookup_total_insert_ne by done.
      rewrite X1, lookup_total_insert_ne by done. by rewrite D3.
Qed.

Lemma can_consume_u32 (s : cont) id q : 0 <= id < NUM_IDS -> con_ok (CONTAINER s) ->
  container_can_consume id q s = Ok (if u32 (usage (CONTAINER s !!! id) + q) <=? quota (CONTAINER s !!! id) then 1 else 0) s.
Proof.
  intros Hid Hok. pose proof (ck_usage _ Hok id). pose proof (ck_quota _ Hok id). unfold AT_SIZE in *. unfold container_can_consume, con, in_array. krun. zbool. krun.
  rewrite (u32_small (usage _)), (u32_small (quota _)) by (unfold W32; lia). done.
Qed.
Lemma nchildren_eq (s : cont) id : 0 <= id < NUM_IDS -> con_ok (CONTAINER s) -> container_get_nchildren id s = Ok (nchildren (CONTAINER s !!! id)) s.
Proof.
  intros Hid Hok. pose proof (ck_children _ Hok id). unfold MAX_CHILDREN in *. unfold container_get_nchildren, con, in_array. krun. zbool. krun. rewrite ?u32_small by (unfold W32; lia). done.
Qed.

Definition spawn_same (k k2 : kern) : Prop := kfs k2 = kfs k /\ tp k2 = tp k /\ console (dev k2) = console (dev k).
Lemma spawn_fails_wp k p ready u f e : in_call k p ready u f ->
  wp (spawn_fails (proc_kstack_hi p) e) (fun _ => kpost c (u_set p (set_result e NUM_IDS (user_regs f)) u) (fun _ => spawn_same k)) k.
Proof.
  intros Hc. unfold spawn_fails. wp_call (call_result k p ready u f e NUM_IDS); [done|]. intros [] k2 (f2 & [Hin Hkm _ _] & E). by exists p, ready.
Qed.

Definition spawn_made (k : kern) (p : Z) (ready : list Z) (child exe q : Z) (k2 : kern) : Prop :=
  exists k', created c p ready child exe q k k' /\ kfs k2 = kfs k' /\ tp k2 = tp k' /\ console (dev k2) = console (dev k').

Section spawn.
Context (k : kern) (p : Z) (ready : list Z) (u : umach) (f : tf_t).
Context (Hcall : in_call k p ready u f) (Hthr : thr_inv c (kthr k) p ready) (Hq : 0 <= r_ecx f).
Abbreviation C := (con_of (vmst (kthr k))).
Abbreviation child := (p * MAX_CHILDREN + 1 + nchildren (C p)).

Lemma spawn_guards :
  let e := if quota (C p) <? u32 (usage (C p) + r_ecx f) then Some E_EXCEEDS_QUOTA
           else if NUM_IDS <? p * MAX_CHILDREN + 1 + MAX_CHILDREN then Some E_MAX_NUM_CHILDEN_REACHED
           else if nchildren (C p) =? MAX_CHILDREN then Some E_INVAL_CHILD_ID
           else match spawn_elf (r_ebx f) with Some _ => None | None => Some E_INVAL_PID end in
  (forall e', e = Some e' -> wp (sys_spawn ks (proc_kstack_hi p)) (fun _ => kpost c (u_set p (set_result e' NUM_IDS (user_regs f)) u) (fun _ => spawn_same k)) k) /\
  (forall exe Q, e = None -> spawn_elf (r_ebx f) = Some exe ->
     wp (new_pid ← proc_create ks exe (r_ecx f);
         if new_pid =? NUM_IDS then spawn_fails (proc_kstack_hi p) E_INVAL_PID
         else zoom (l_tf (proc_kstack_hi p)) (syscall_set_errno E_SUCC) ;; zoom (l_tf (proc_kstack_hi p)) (syscall_set_retval1 new_pid)) Q k ->
     wp (sys_spawn ks (proc_kstack_hi p)) Q k).
Proof.
  intros e. pose proof (ca_kernel _ _ _ _ _ Hcall) as Hin. pose proof (core_range _ _ _ _ p (ik_core _ _ _ _ Hin) ltac:(by left)) as Hp.
  pose proof (ci_con _ (vi_cont _ (ti_pt _ _ _ _ Hthr))) as Hcon.
  assert (Hrun : forall Q, wp (if (if u32 (usage (C p) + r_ecx f) <=? quota (C p) then 1 else 0) =? 0 then spawn_fails (proc_kstack_hi p) E_EXCEEDS_QUOTA
      else if NUM_IDS <? u32 (p * MAX_CHILDREN + 1 + MAX_CHILDREN) then spawn_fails (proc_kstack_hi p) E_MAX_NUM_CHILDEN_REACHED
      else if nchildren (C p) =? MAX_CHILDREN then spawn_fails (proc_kstack_hi p) E_INVAL_CHILD_ID
      else match spawn_elf (r_ebx f) with None => spawn_fails (proc_kstack_hi p) E_INVAL_PID | Some exe =>
         new_pid ← proc_create ks exe (r_ecx f);
         if new_pid =? NUM_IDS then spawn_fails (proc_kstack_hi p) E_INVAL_PID
         else zoom (l_tf (proc_kstack_hi p)) (syscall_set_errno E_SUCC) ;; zoom (l_tf (proc_kstack_hi p)) (syscall_set_retval1 new_pid) end) Q k ->
    wp (sys_spawn ks (proc_kstack_hi p)) Q k).
  { intros Q HQ. unfold sys_spawn. wp_step. eapply (wp_curid c ks Hon); [apply Hin|]. unfold syscall_get_arg2, syscall_get_arg3.
    wp_step. eapply wp_of_eq; [apply frame_gets_eq, Hcall|]. wp_step. eapply wp_of_eq; [apply frame_gets_eq, Hcall|].
    do 2 wp_step. change (lget l_kcn k) with (cn (vmst (kthr k))). eapply wp_of_eq; [by apply can_consume_u32|]. rewrite kcn_id. unfold con_of in HQ.
    do 2 (match goal with |- wp (if ?b then _ else _) _ _ => destruct b; [done|] end). do 2 wp_step. change (lget l_kcn k) with (cn (vmst (kthr k))). eapply wp_of_eq; [by apply nchildren_eq|]. rewrite kcn_id. done. }
  assert (E2 : u32 (p * MAX_CHILDREN + 1 + MAX_CHILDREN) = p * MAX_CHILDREN + 1 + MAX_CHILDREN) by (apply u32_small; unfold MAX_CHILDREN, NUM_IDS, W32 in *; lia).
  rewrite E2 in Hrun.
  assert (E1 : ((if u32 (usage (C p) + r_ecx f) <=? quota (C p) then 1 else 0) =? 0) = (quota (C p) <? u32 (usage (C p) + r_ecx f))).
  { destruct (Z.leb_spec (u32 (usage (C p) + r_ecx f)) (quota (C p))), (Z.ltb_spec (quota (C p)) (u32 (usage (C p) + r_ecx f))); done || lia. }
  rewrite E1 in Hrun. split.
  - intros e' Ee. apply Hrun. unfold e in Ee. repeat case_match; simplify_eq; by apply (spawn_fails_wp k p ready).
  - intros exe Q Ee Hexe HQ. apply Hrun. unfold e in Ee. rewrite Hexe in *. by repeat case_match.
Qed.

Lemma spawn_split_ok : (quota (C p) <? u32 (usage (C p) + r_ecx f)) = false -> (NUM_IDS <? p * MAX_CHILDREN + 1 + MAX_CHILDREN) = false ->
  (nchildren (C p) =? MAX_CHILDREN) = false -> usage (C p) + r_ecx f < W32 -> used (C p) <> 0 -> split_ok (CONTAINER (cn (vmst (kthr k)))) p (r_ecx f).
Proof.
  intros G1 G2 G3 Hw Hus. pose proof (ci_con _ (vi_cont _ (ti_pt _ _ _ _ Hthr))) as Hcon. pose proof (ck_children _ Hcon p) as Hch.
  pose proof (core_range _ _ _ _ p (ik_core _ _ _ _ (ca_kernel _ _ _ _ _ Hcall)) ltac:(by left)) as Hp. pose proof (ck_usage _ Hcon p) as Hu0.
  apply Z.ltb_ge in G1, G2. apply Z.eqb_neq in G3. change (CONTAINER (cn (vmst (kthr k))) !!! p) with (C p) in *. rewrite u32_small in G1 by lia.
  split; change (CONTAINER (cn (vmst (kthr k))) !!! p) with (C p); unfold MAX_CHILDREN, NUM_IDS in *; done || lia.
Qed.
Lemma spawn_wp exe size : (quota (C p) <? u32 (usage (C p) + r_ecx f)) = false -> (NUM_IDS <? p * MAX_CHILDREN + 1 + MAX_CHILDREN) = false ->
  (nchildren (C p) =? MAX_CHILDREN) = false -> spawn_elf (r_ebx f) = Some exe -> elf_ok (kphys k) exe size -> 2 * elf_pages (kphys k) exe <= r_ecx f ->
  usage (C p) + r_ecx f < W32 -> started (tp k) = true -> used (C p) <> 0 ->
  wp (sys_spawn ks (proc_kstack_hi p))
    (fun _ => kpost c (Umach p (ready ++ [child]) (fun x => if x =? child then user_regs (user_context (e_entry (kphys k) exe) (uctx_pool (tp k) !!! child))
         else if x =? p then set_result E_SUCC child (user_regs f) else u_ctx u x) (u_ticks u))
       (fun _ => spawn_made k p ready child exe (r_ecx f))) k.
Proof.
  intros G1 G2 G3 Hexe Hok Hpg Hw Hlog Hus. destruct spawn_guards as [_ Hg]. eapply Hg; [by rewrite G1, G2, G3, Hexe|done|]. clear Hg.
  wp_step. wp_call (proc_create_wp c ks k p ready exe size (r_ecx f)); [done|done|by apply spawn_split_ok|done|done|done|].
  change (CONTAINER (cn (vmst (kthr k))) !!! p) with (C p). intros r k' (-> & Hup & Hcr). 
  assert (Hchild : child < NUM_IDS) by (unfold user_proc in Hup; lia). rewrite (proj2 (Z.eqb_neq child NUM_IDS)) by lia.
  destruct Hcall as [Hin Hkm Ek Ef]. destruct (created_kernel k k' p ready u _ _ _ Hin Hkm Hcr Hlog Hup) as [Hin' Hkm'].
  pose proof (ready_nodup _ _ _ _ (ti_sched _ _ _ _ (cr_inv _ _ _ _ _ _ _ _ Hcr))) as Hni.
  assert (Hpc : p <> child) by (intros E; apply Hni; rewrite <- E; by left).
  assert (Hcall' : in_call k' p (ready ++ [child]) (Umach p (ready ++ [child])
    (fun x => if x =? child then user_regs (user_context (e_entry (kphys k) exe) (uctx_pool (tp k) !!! child)) else u_ctx u x) (u_ticks u)) f).
  { split; [done|done| |]; [rewrite (cr_kont _ _ _ _ _ _ _ _ Hcr); by rewrite lookup_total_insert_ne|].
    destruct (cr_rest _ _ _ _ _ _ _ _ Hcr) as (? & ? & _ & _ & ->). done. }
  wp_call (call_result k' p (ready ++ [child]) _ f E_SUCC child Hcall'). intros [] k2 (f2 & [Hin2 (M1 & M2 & M3 & M4) _ _] & Hk2).
  exists p, (ready ++ [child]). split; [done|]. split; [|by exists k']. split; [done|]. split; [done|]. split; [done|].
  intros x Hx. rewrite <- (M4 x Hx). simpl. destruct (Z.eqb_spec x p) as [->|]; [|done]. by rewrite (proj2 (Z.eqb_neq p child) Hpc).
Qed.
End spawn.

Lemma grown_ext p n C1 C2 D : (forall i, C1 i = C2 i) -> grown p n C1 D -> grown p n C2 D.
Proof. intros E (w & Hw & Hi). exists w. rewrite <- E. split; [done|]. intros i. by rewrite Hi, <- E. Qed.

Lemma child_fresh k m q : pmatch c k m -> split_ok (CONTAINER (cn (vmst (kthr k)))) (pm_cur m) q ->
  m_child m <> pm_cur m /\ user_proc (m_child m) /\ used (pm_con m (m_child m)) = 0.
Proof.
  intros Hm Hso. pose proof (pa_con _ _ _ Hm) as Hco. pose proof (ci_con _ (vi_cont _ (ti_pt _ _ _ _ (pa_thr _ _ _ Hm)))) as Hcon.
  destruct (match_proc k m (pm_cur m) Hm ltac:(by left)) as [Hup _]. pose proof (ck_children _ Hcon (pm_cur m)) as Hc3.
  destruct (split_child_fresh _ _ _ Hcon Hso) as (Hne & Hrg & Hfr).
  assert (HC : forall i, CONTAINER (cn (vmst (kthr k))) !!! i = pm_con m i) by exact Hco. rewrite (HC (pm_cur m)) in Hne, Hrg, Hfr, Hc3. rewrite HC in Hfr.
  fold (m_child m) in Hne, Hrg, Hfr. split; [done|]. split; [|by rewrite Hfr]. assert (Ech : m_child m = pm_cur m * MAX_CHILDREN + 1 + nchildren (pm_con m (pm_cur m))) by done.
  unfold user_proc, MAX_CHILDREN, NUM_IDS in *. lia.
Qed.
Lemma spawn_match k m k0 k2 k' pr exe : let t := pm_regs m in let q := r_ecx t in let p := pm_cur m in
  pmatch c k m -> kfs k0 = kfs (load_cr3 0 k) -> rest_kept k k0 -> spawn_made k0 p (pm_ready m) (m_child m) exe q k2 ->
  kfs k' = kfs (load_cr3 p k2) -> rest_kept k2 k' -> split_ok (CONTAINER (cn (vmst (kthr k)))) p q ->
  prog (r_ebx t) = Some pr -> spawn_elf (r_ebx t) = Some exe -> m_child m < NUM_IDS - 1 ->
  let m' := m_spawned pr m (con_of (vmst (kthr k'))) in
  in_user c k' p (pm_ready m ++ [m_child m]) -> machine c k' p (pm_ready m ++ [m_child m]) (pm_sched m') ->
  grown (m_child m) (2 * pr_pages pr) (m_split (pm_con m) p (m_child m) q) (pm_con m') /\ pmatch c k' m'.
Proof.
  intros t q p Hm E0 (R1 & R2 & R3 & R4) (k1 & Hcr & E2 & Etp & Eco) E3 (S1 & S2 & S3 & S4) Hso Hpr Hexe Hlt m' Hu Hma.
  pose proof (kthr_kfs _ _ E0) as Et0. pose proof (kthr_kfs _ _ E2) as Et2. pose proof (kthr_kfs _ _ E3) as Et3.
  pose proof Hm as [_ _ Ht Hme Hco Hou Hlo Hpf Hst Hid Hfr Hno Hprg]. destruct Hcr as [I1 V1 G1 N1 X1 O1 C1 _ _ _ (U & Ko & D1 & _ & D3)].
  set (child := m_child m) in *. pose proof (ready_nodup _ _ _ _ (ti_sched _ _ _ _ I1)) as Hni.
  pose proof (ci_con _ (vi_cont _ (ti_pt _ _ _ _ Ht))) as Hcon. destruct (child_fresh k m q Hm Hso) as (Hne & Huc & Hun). fold child p in Hne, Huc, Hun.
  destruct (match_proc k m p Hm ltac:(by left)) as [Hup Husd]. destruct (Hfr child Huc Hun) as [_ Hmt]. assert (Ev : vmst (kthr k') = Vm (cn (vmst (kthr k1))) (phys (vmst (kthr k1))) (cr0 (vmst (kthr k1))) (pde_at p 0) (cr4 (vmst (kthr k1)))).
  { rewrite Et3. unfold load_cr3. change (kthr (lset l_kth ?x ?y)) with x. by rewrite Et2. }
  assert (Hv0 : forall r x, kview k0 r x = kview k r x) by (intros; unfold kview; by rewrite Et0). assert (Hp0 : kphys k0 = kphys k) by (unfold kphys; by rewrite Et0).
  rewrite Hp0 in *. destruct (Hprg _ _ _ Hpr Hexe) as [Hiok He Hvw Hpgs].
  assert (Hgr : grown child (2 * pr_pages pr) (m_split (pm_con m) p child q) (con_of (vmst (kthr k')))).
  { rewrite Ev. change (con_of (Vm ?x _ _ _ _)) with (fun i => CONTAINER x !!! i). rewrite Hpgs in G1. eapply grown_ext; [|exact G1]. intros i. cbv beta. rewrite Et0.
    change (CONTAINER (cn (vmst (kthr (load_cr3 0 k))))) with (CONTAINER (cn (vmst (kthr k)))). rewrite (split_lookup _ _ _ i Hcon Hso). unfold m_split.
    rewrite <- !Hco. unfold child, m_child. fold p. by rewrite <- Hco. }
  split; [exact Hgr|]. destruct Hgr as (w & _ & Hw). change (con_of (vmst (kthr k'))) with (pm_con m') in Hw.
  split; unfold m', m_spawned, pm_cur, pm_ready; cbn [pm_sched pm_mem pm_con pm_out pm_log u_cur u_ready]; fold (pm_cur m) (pm_ready m); fold p child; try done.
  - destruct I1 as [J1 J2 J3]. split; [apply Hu|rewrite Ev; by apply (pt_inv_regs (vmst (kthr k1)))|]. rewrite Ev. rewrite Et3. unfold load_cr3. change (kthr (lset l_kth ?x ?y)) with x. rewrite Et2. exact J3.
  - intros r x Hr Hx. unfold kview. rewrite Ev. change (kview k1 r x = if decide (r = child) then pr_view pr x else pm_mem m r x). rewrite V1, Hv0, Hme by done.
    case_decide as Ec; [|done]. rewrite Ec, Hvw, (Hmt x Hx). by destruct (pr_view pr x).
  - rewrite S1, Eco, D3, R1. exact Hou.
  - rewrite S3, Etp, D1. simpl. by rewrite R3.
  - rewrite S4, Etp, D1. simpl. by rewrite R4.
  - rewrite Et3. unfold load_cr3. change (kctx_pool (kthr (lset l_kth (lset l_vm ?y ?z) ?x))) with (kctx_pool z). rewrite Et2, C1, Et0. change (kctx_pool (kthr (load_cr3 0 k))) with (kctx_pool (kthr k)).
    intros r [Hr| ->%list_elem_of_singleton]%elem_of_app; [|rewrite lookup_total_insert_eq; unfold in_stack, kstack_hi; simpl; unfold kstack_hi; lia].
    rewrite lookup_total_insert_ne; [by apply Hst|]. intros ->. apply Hni. by right.
  - intros r [->|[Hr| ->%list_elem_of_singleton]%elem_of_app]%elem_of_cons; [apply Hid; by left|apply Hid; by right|done].
  - intros r Hr Eu. change (used (pm_con m' r) = 0) in Eu. rewrite Hw in Eu. unfold m_split in Eu. destruct (decide (r = child)) as [->|Hrc]; [rewrite (decide_False (P := child = p)), decide_True in Eu; done|]. destruct (decide (r = p)) as [->|Hrp]; [done|]. destruct (Hfr r Hr Eu) as [F1 F2]. split; [|done].
    rewrite S2, Etp, X1, lookup_total_insert_ne by done. by rewrite R2.
  - intros id pr' exe' P1 P2. eapply image_kept; [apply Ht| |by eapply Hprg]. change (code_kept (kphys k) (phys (vmst (kthr k')))). rewrite Ev. intros a A1 A2 _ _. by apply N1.
Qed.

(** A call that only returns a result. *)
Lemma same_match k m k0 k2 k' u' : pmatch c k m -> kfs k0 = kfs (load_cr3 0 k) -> rest_kept k k0 -> spawn_same k0 k2 ->
  kfs k' = kfs (load_cr3 (pm_cur m) k2) -> rest_kept k2 k' ->
  in_user c k' (pm_cur m) (pm_ready m) -> machine c k' (pm_cur m) (pm_ready m) u' -> pmatch c k' (with_sched u' m).
Proof.
  intros Hm E0 (R1 & R2 & R3 & R4) (E2 & Etp & Eco) E3 (S1 & S2 & S3 & S4) Hu Hma.
  pose proof (kthr_kfs _ _ E0) as Et0. pose proof (kthr_kfs _ _ E2) as Et2. pose proof (kthr_kfs _ _ E3) as Et3. rewrite Etp in S2, S3, S4. rewrite Eco in S1.
  pose proof Hm as [_ _ Ht Hme Hco Hou _ _ _ _ _ _ _]. set (v := vmst (kthr k)) in *.
  eapply (vm_match k m k' (Vm (cn v) (phys v) (cr0 v) (pde_at (pm_cur m) 0) (cr4 v)) u'); try done; try congruence.
  - rewrite Et3. unfold load_cr3. change (kthr (lset l_kth ?x ?y)) with x. by rewrite Et2, Et0.
  - apply (pt_inv_regs v), Ht.
  - intros i. split; [exact (Hco i)|done].
Qed.

Section spawn_call.
Context (off : Z) (k : kern) (m : pmach) (Hm : pmatch c k m).
Context (Hnr : syscall_of (r_eax (pm_regs m)) = Some SYS_spawn) (Hq : 0 <= r_ecx (pm_regs m)).
Abbreviation t := (pm_regs m).
Abbreviation p := (pm_cur m).

Lemma spawn_enter k0 f : in_call k0 p (pm_ready m) (pm_sched m) f -> user_regs f = t -> kfs k0 = kfs (load_cr3 0 k) ->
  r_ebx f = r_ebx t /\ r_ecx f = r_ecx t /\ thr_inv c (kthr k0) p (pm_ready m) /\ forall i, con_of (vmst (kthr k0)) i = pm_con m i.
Proof.
  intros _ <- Hfs. pose proof (kthr_kfs _ _ Hfs) as Et. split; [done|]. split; [done|]. rewrite Et. split; [|exact (pa_con _ _ _ Hm)].
  destruct (pa_thr _ _ _ Hm) as [T1 T2 T3]. split; [by apply (sched_inv_vm c (kthr k))|by apply (pt_inv_regs (vmst (kthr k)))|exact T3].
Qed.

Lemma spawn_fail_step e : (if quota (pm_con m p) <? u32 (usage (pm_con m p) + r_ecx t) then Some E_EXCEEDS_QUOTA
     else if NUM_IDS <? p * MAX_CHILDREN + 1 + MAX_CHILDREN then Some E_MAX_NUM_CHILDEN_REACHED
     else if nchildren (pm_con m p) =? MAX_CHILDREN then Some E_INVAL_CHILD_ID
     else match spawn_elf (r_ebx t) with Some _ => None | None => Some E_INVAL_PID end) = Some e ->
  wp (run_pevent off PvSyscall) (fun _ k' => exists m', m' = m_return (set_result e NUM_IDS t) m /\ pmatch c k' m') k.
Proof.
  intros He. set (u' := u_set p (set_result e NUM_IDS t) (pm_sched m)).
  eapply wp_mono; [apply (syscall_wp off k m SYS_spawn u' (fun _ k2 => exists k0, kfs k0 = kfs (load_cr3 0 k) /\ rest_kept k k0 /\ spawn_same k0 k2)); [done|done|]|].
  - intros k0 f Hc Er Hfs Hrest. destruct (spawn_enter k0 f Hc Er Hfs) as (E1 & E2 & Ht0 & Hc0).
    destruct (spawn_guards k0 p (pm_ready m) (pm_sched m) f Hc Ht0) as [Hg _]. rewrite !Hc0, E1, E2, Er in Hg. wp_call (Hg e He).
    intros [] k2 (p' & ready' & H1' & H2' & H3'). exists p', ready'. split; [done|]. split; [done|]. by exists k0.
  - intros [] k' (p' & ready' & Hu' & Hma' & k2 & (k0 & E0 & Hr0 & Hs) & E3 & Hr3). eexists. split; [done|].
    pose proof Hma' as (M1 & M2 & _). change (u_cur u') with p in M1. change (u_ready u') with (pm_ready m) in M2. subst p' ready'. by eapply same_match.
Qed.

Lemma spawn_made_step pr : (quota (pm_con m p) <? u32 (usage (pm_con m p) + r_ecx t)) = false -> (NUM_IDS <? p * MAX_CHILDREN + 1 + MAX_CHILDREN) = false ->
  (nchildren (pm_con m p) =? MAX_CHILDREN) = false -> prog (r_ebx t) = Some pr ->
  2 * pr_pages pr <= r_ecx t -> usage (pm_con m p) + r_ecx t < W32 -> pm_log m = true -> m_child m < NUM_IDS - 1 ->
  wp (run_pevent off PvSyscall) (fun _ k' => exists m', (exists C, m' = m_spawned pr m C /\
     grown (m_child m) (2 * pr_pages pr) (m_split (pm_con m) p (m_child m) (r_ecx t)) C) /\ pmatch c k' m') k.
Proof.
  intros G1 G2 G3 Hpr Q1 Q2 Q3 Q4. destruct (match_proc k m p Hm ltac:(by left)) as [Hp Hus]. destruct (spawn_elf (r_ebx t)) as [exe|] eqn:Hexe; [|apply (pa_none _ _ _ Hm) in Hexe; congruence].
  destruct (pa_prog _ _ _ Hm _ _ _ Hpr Hexe) as [(size & Hel & _) Hen Hvw Hpg]. set (u' := pm_sched (m_spawned pr m (pm_con m))).
  eapply wp_mono; [apply (syscall_wp off k m SYS_spawn u' (fun _ k2 => exists k0, kfs k0 = kfs (load_cr3 0 k) /\ rest_kept k k0 /\
    spawn_made k0 p (pm_ready m) (m_child m) exe (r_ecx t) k2 /\ split_ok (CONTAINER (cn (vmst (kthr k)))) p (r_ecx t))); [done|done|]|].
  - intros k0 f Hc Er Hfs Hrest. destruct (spawn_enter k0 f Hc Er Hfs) as (E1 & E2 & Ht0 & Hc0). pose proof (kthr_kfs _ _ Hfs) as Et.
    pose proof (spawn_split_ok k0 p (pm_ready m) (pm_sched m) f Hc Ht0) as Hso. pose proof (spawn_wp k0 p (pm_ready m) (pm_sched m) f Hc Ht0) as Hsp.
    rewrite !Hc0, E2 in Hso. rewrite !Hc0, E1, E2, Er in Hsp. assert (Ep : kphys k0 = kphys k) by (unfold kphys; by rewrite Et). rewrite Ep in Hsp.
    destruct Hrest as (R1 & R2 & R3 & R4). rewrite R2, R3 in Hsp. eapply wp_mono; [apply (Hsp Hq exe size); try done|].
    + by rewrite Hpg.
    + by rewrite (pa_log _ _ _ Hm).
    + specialize (Hso Hq G1 G2 G3 Q2 Hus). rewrite Et in Hso. change (split_ok (CONTAINER (cn (vmst (kthr k)))) p (r_ecx t)) in Hso.
      destruct (child_fresh k m _ Hm Hso) as (Hne & Huc & Hun). change (p * MAX_CHILDREN + 1 + nchildren (pm_con m p)) with (m_child m).
      rewrite Hen, (proj1 (pa_free _ _ _ Hm _ Huc Hun)). intros [] k2 (p' & ready' & H1' & H2' & H3'). exists p', ready'. split; [done|]. split; [exact H2'|]. by exists k0.
  - intros [] k' (p' & ready' & Hu' & Hma' & k2 & (k0 & E0 & Hr0 & Hs & Hso) & E3 & Hr3). pose proof Hma' as (M1 & M2 & _). change (u_cur u') with p in M1.
    change (u_ready u') with (pm_ready m ++ [m_child m]) in M2. subst p' ready'.
    destruct (spawn_match k m k0 k2 k' pr exe) as [Hgr Hma2]; try done. exists (m_spawned pr m (con_of (vmst (kthr k')))). split; [|done]. by eexists.
Qed.
End spawn_call.

Lemma spawn_step off k m : pmatch c k m -> syscall_of (r_eax (pm_regs m)) = Some SYS_spawn -> spawn_ok prog m ->
  wp (run_pevent off PvSyscall) (fun _ k' => exists m', m_spawn prog m m' /\ pmatch c k' m') k.
Proof.
  intros Hm Hnr [Hq Hok]. pose proof (spawn_fail_step off k m Hm Hnr) as Hfail. unfold m_spawn.
  destruct (quota _ <? _) eqn:G1; [by apply Hfail|]. destruct (NUM_IDS <? _) eqn:G2; [by apply Hfail|]. destruct (nchildren _ =? _) eqn:G3; [by apply Hfail|].
  destruct (prog (r_ebx (pm_regs m))) as [pr|] eqn:Epr; [|apply (pa_none _ _ _ Hm) in Epr; rewrite Epr in Hfail; by apply Hfail].
  destruct (Hok pr eq_refl) as (Q1 & Q2 & Q3 & Q4). by apply spawn_made_step.
Qed.

(** ** The scheduler's events *)
Lemma u_event_procs e u q : q ∈ u_cur (u_event e u) :: u_ready (u_event e u) -> q ∈ u_cur u :: u_ready u.
Proof.
  assert (Hsw : forall v, q ∈ u_cur (u_switch v) :: u_ready (u_switch v) -> q ∈ u_cur v :: u_ready v).
  { intros v. unfold u_switch. destruct (u_ready v ++ [u_cur v]) as [|a l] eqn:E; [done|]. cbn [u_cur u_ready]. rewrite <- E, elem_of_app, list_elem_of_singleton, elem_of_cons. tauto. }
  destruct e; simpl; unfold u_syscall, u_timer; repeat case_match; try done; intros Hq; by apply Hsw in Hq.
Qed.
Lemma sched_step off e k m : pmatch c k m -> in_stack (pm_cur m) (esp (cpu (kthr k))) -> ev_ok e (pm_regs m) ->
  wp (run_event ks off e) (fun _ k' => pmatch c k' (with_sched (u_event e (pm_sched m)) m)) k.
Proof.
  intros Hm Hsp He. pose proof Hm as [Hu Hma Ht Hme Hco Hou Hlo Hpf Hst Hid Hfr Hno Hpr].
  eapply wp_mono; [apply (run_event_wp c ks Hon off e k (pm_cur m) (pm_ready m) (pm_sched m)); [done|done|]|].
  { unfold pm_regs in He. rewrite (proj1 (proj2 (proj2 (proj2 Hma)))) in He. by destruct e. }
  intros [] k' (p' & ready' & Hu' & Hma' & k1 & Hsc & E1 & Hr1). eapply scheduled_match; try done.
  intros q Hq. destruct Hma' as (<- & <- & _). by apply (u_event_procs e) in Hq.
Qed.

Lemma event_step off e k m : pmatch c k m -> in_stack (pm_cur m) (esp (cpu (kthr k))) -> p_ok prog e m ->
  wp (run_pevent off e) (fun _ k' => exists m', p_step prog e m m' /\ pmatch c k' m') k.
Proof.
  intros Hm Hsp Hok. destruct e as [| |va err]; [|by eapply wp_mono; [apply (sched_step off EvTimer)|]; [done..|intros [] k' ?; eexists]|by apply fault_step].
  unfold p_ok, p_step in *. destruct (syscall_of (r_eax (pm_regs m))) as [nr|] eqn:Enr; [destruct nr|].
  1: eapply wp_mono; [by apply puts_step|]; intros [] k' ?; by eexists.
  1: by apply spawn_step.
  all: eapply wp_mono; [by apply (sched_step off EvSyscall)|]; intros [] k' ?; by eexists.
Qed.

(** ** Runs *)
Fixpoint runs_ok (l : list pinput) (m : pmach) : Prop :=
  match l with
  | [] => True
  | (r, ws, kc, e) :: l => Forall (store_ok m) ws /\ in_stack (pm_cur m) (esp kc) /\ p_ok prog e (m_code r ws m) /\
      forall m1, p_step prog e (m_code r ws m) m1 -> runs_ok l m1
  end.
Fixpoint run_processes (off : Z) (l : list pinput) : K kern unit :=
  match l with
  | [] => mret tt
  | (r, ws, kc, e) :: l =>
      user_runs r ws ;; zoom l_kth (modify (set_cpu kc)) ;; run_pevent off e ;; run_processes off l
  end.
Lemma code_cur r ws m : pm_cur (m_code r ws m) = pm_cur m.
Proof. unfold m_code. change (pm_cur m) with (pm_cur (m_return (user_regs r) m)). generalize (m_return (user_regs r) m). induction ws as [|w ws IH]; intros m0; [done|]. simpl. by rewrite IH. Qed.

Lemma run_processes_wp off l k m : pmatch c k m -> runs_ok l m ->
  wp (run_processes off l) (fun _ k' => exists m', p_runs prog l m m' /\ pmatch c k' m') k.
Proof.
  intros Hm Hl. revert k m Hm Hl. induction l as [|[[[r ws] kc] e] l IH]; intros k m Hm Hl; simpl; [wp_step; by exists m|].
  destruct Hl as (Hws & Hsp & Hok & Hl). wp_step. wp_call (user_runs_wp r ws k m); [done..|]. intros [] k1 Hm1. do 3 wp_step.
  apply (match_cpu k1 _ kc) in Hm1. wp_step. wp_call (event_step off e (lset l_kth (set_cpu kc (kthr k1)) k1)); [done|by rewrite code_cur|done|].
  intros [] k2 (m2 & Hst & Hm2). wp_call (IH k2 m2); [done|by apply Hl|]. intros [] k3 (m3 & Hr & Hm3). exists m3. split; [|done]. by exists m2.
Qed.
End steps.

(** ** After kern_init *)

(** The idle process alone, with the quota that kern_main gives it. *)
Definition root_only (pages i : Z) : SContainer := if decide (i = 0) then Con pages 0 0 0 1 else inhabitant.
Definition boot_machine (idle : program) (C : Z -> SContainer) (out : list Z) : pmach :=
  Pmach (Umach 1 [] (fun _ => user_regs (user_context (pr_entry idle) inhabitant)) 0)
        (fun q x => if decide (q = 1) then pr_view idle x else None) C out false.
Definition boot_quota (idle : program) (pages : Z) (C : Z -> SContainer) : Prop :=
  grown 1 (2 * pr_pages idle) (m_split (root_only pages) 0 1 10000) C.

Lemma pt_inv_same s v : cn v = cn s -> phys v = phys s -> pt_inv s -> pt_inv v.
Proof. intros E1 E2 Hs. destruct v. simpl in *. subst. by apply (pt_inv_regs s). Qed.

Section boot.
Context `{mp_layout} (k k2 k' : kern) (idle : program) (pages : Z).
Context (Hok : mem_ok (kphys k)) (Hms : main_state k k2) (Hei : entered_idle k2 k') (Hroot : main_ready pages k2).
Context (Himg : image (kphys k) elf_idle idle) (Hhigh : 32768 + boot_ap_size <= elf_idle).
Context (Hprogs : forall id pr exe, prog id = Some pr -> spawn_elf id = Some exe -> image (kphys k) exe pr /\ 32768 + boot_ap_size <= exe).

Lemma boot_image exe pr : image (kphys k) exe pr -> 32768 + boot_ap_size <= exe -> image (kphys k2) exe pr.
Proof. intros Hi Hlo. eapply image_moved; [exact Hok| |exact Hi]. intros size [Ha _]. apply (ms_memory _ _ Hms); [done|by right]. Qed.

Lemma boot_con : boot_quota idle pages (con_of (vmst (kthr k'))).
Proof.
  destruct Hei as (k1 & Hcr & _ & Ecn & _). pose proof (cr_con _ _ _ _ _ _ _ _ Hcr) as Hg. rewrite (im_pages _ _ _ (boot_image _ _ Himg Hhigh)) in Hg.
  unfold boot_quota, con_of. rewrite Ecn. eapply grown_ext; [|exact Hg]. intros i. cbv beta. rewrite (mr_root _ _ Hroot). unfold split_con, m_split, root_con, root_only.
  rewrite lookup_total_insert_eq. change (0 * MAX_CHILDREN + 1 + 0) with 1. destruct (decide (i = 0)) as [->|H0']; [by rewrite lookup_total_insert_eq|].
  rewrite lookup_total_insert_ne by done. destruct (decide (i = 1)) as [->|H1']; [by rewrite lookup_total_insert_eq|].
  by rewrite !lookup_total_insert_ne, lookup_total_empty by done.
Qed.
Lemma boot_used q : used (con_of (vmst (kthr k')) q) = 0 -> q <> 1 /\ q <> 0.
Proof.
  destruct boot_con as (w & _ & Hw). rewrite Hw. unfold m_split, root_only. intros E. split; intros ->; simpl in E; done.
Qed.
Lemma boot_views q x : user_proc q -> user_va x -> kview k' q x = if decide (q = 1) then pr_view idle x else None.
Proof.
  intros Hq Hx. destruct Hei as (k1 & Hcr & _ & _ & Eph & _). pose proof (ti_pt _ _ _ _ (cr_inv _ _ _ _ _ _ _ _ Hcr)) as Hpt.
  destruct (stack_store (vmst (kthr k1)) 1 (kstack_hi 1) start_user Hpt) as (_ & Hv & _); [done|unfold in_stack, kstack_hi; lia|].
  specialize (Hv q x Hq Hx). unfold kview, ElfSpec.view in *. rewrite Eph. cbn [phys set_phys] in Hv. rewrite Hv. change (kview k1 q x = if decide (q = 1) then pr_view idle x else None).
  rewrite (cr_view _ _ _ _ _ _ _ _ Hcr), (ms_views _ _ Hms) by done. case_decide; [|done]. rewrite (im_view _ _ _ (boot_image _ _ Himg Hhigh)). by destruct (pr_view idle x).
Qed.

Lemma boot_match : in_user 0 k' 1 [] -> regs (dev k') = user_context (pr_entry idle) inhabitant -> sched_ticks (kthr k') !!! 0 = 0 ->
  (forall id, prog id = None <-> spawn_elf id = None) ->
  pmatch 0 k' (boot_machine idle (con_of (vmst (kthr k'))) (console (dev k))).
Proof.
  intros Hu Er Htk Hno. pose proof Hei as (k1 & Hcr & (R1 & R2 & R3 & R4) & Ecn & Eph & Est). destruct (ms_traps _ _ Hms) as (M1 & M2 & M3).
  pose proof (cr_inv _ _ _ _ _ _ _ _ Hcr) as [I1 I2 I3]. destruct (cr_rest _ _ _ _ _ _ _ _ Hcr) as (U & Ko & Etp & _ & Edev).
  destruct (stack_store (vmst (kthr k1)) 1 (kstack_hi 1) start_user I2) as (S1 & _ & S3); [done|unfold in_stack, kstack_hi; lia|].
  split; unfold pm_cur, pm_ready; cbn [boot_machine pm_sched pm_mem pm_con pm_out pm_log u_cur u_ready]; try done.
  - split; [done|]. split; [done|]. split; [by rewrite Htk|]. split; [by rewrite Er|]. intros q Hq. by apply not_elem_of_nil in Hq.
  - split; [apply Hu|exact (pt_inv_same (set_phys _ _) _ Ecn Eph S1)|]. intros q Hq E. change (used (con_of (vmst (kthr k')) q) = 0) in E.
    destruct (boot_used q E) as [Hq1 _]. rewrite Est by done. apply I3; [done|]. unfold con_of in E. by rewrite Ecn in E.
  - apply boot_views.
  - by rewrite R1, Edev, (ms_console _ _ Hms).
  - by rewrite R3, Etp.
  - rewrite R4, Etp. simpl. by rewrite M3.
  - intros q Hq. by apply not_elem_of_nil in Hq.
  - intros q ->%list_elem_of_singleton. unfold NUM_IDS. lia.
  - intros q Hq E. destruct (boot_used q E) as [Hq1 _]. split; [|intros; by rewrite decide_False].
    rewrite R2, (cr_context _ _ _ _ _ _ _ _ Hcr), lookup_total_insert_ne by done. by rewrite M1, lookup_total_empty.
  - intros id pr exe E1 E2. destruct (Hprogs id pr exe E1 E2) as [Hi Hlo]. apply (image_kept (kphys k1)); [apply I2|by unfold kphys; rewrite Eph|].
    apply (image_kept (kphys k2)); [|intros a A1 A2 _ _; by apply (cr_kernel _ _ _ _ _ _ _ _ Hcr)|by apply boot_image]. apply (mr_inv _ _ Hroot).
Qed.
End boot.
End spec.

(** The memory that the running process sees through cr3. *)
Definition seen (k : kern) (x : Z) : option (Z * Z) :=
  let s := vmst (kthr k) in
  match mmu_walk (phys s) (cr3 s) x with Some (pa, fl) => Some (load8 (phys s) pa, fl) | None => None end.



(** ** Witnesses: one image for all programs *)
Definition demo_program : program := Program 1073741876 (elf_view demo_memory elf_idle) 2.
Definition demo_prog (id : Z) : option program := match spawn_elf id with Some _ => Some demo_program | None => None end.
Definition demo_kc : kctx := Kctx (proc_kstack + 4096 + 2048) 0 0 0 0 0.
Lemma demo_program_image : image demo_memory elf_idle demo_program.
Proof.
  destruct demo_idle_ok as [Hok Hpg]. split; [|vm_compute; reflexivity|reflexivity|exact Hpg]. exists 164. split; [exact Hok|].
  split; [apply Hok|]. unfold proc_kstack, sys_buf, elf_idle, demo_layout, demo_prog_layout, NUM_IDS. lia.
Qed.
Lemma demo_prog_image id pr exe : demo_prog id = Some pr -> spawn_elf id = Some exe -> image demo_memory exe pr /\ 32768 + boot_ap_size <= exe.
Proof.
  unfold demo_prog. intros E E'. rewrite E' in E. injection E as <-. assert (exe = elf_idle) as -> by (unfold spawn_elf in E'; repeat case_match; by simplify_eq).
  split; [exact demo_program_image|]. unfold boot_ap_size, elf_idle, demo_mp_layout, demo_prog_layout. lia.
Qed.
Lemma demo_prog_none id : demo_prog id = None <-> spawn_elf id = None.
Proof. unfold demo_prog. by destruct (spawn_elf id). Qed.
Lemma demo_buf : kernel_area sys_buf (NUM_IDS * 4096).
Proof. unfold kernel_area, sys_buf, PDirPool, IDPTbl, demo_layout, demo_prog_layout, NUM_IDS, VM_USERLO. lia. Qed.
Lemma demo_stack : in_stack 1 (esp demo_kc).
Proof. unfold in_stack, kstack_hi. cbn [esp demo_kc]. lia. Qed.
Lemma demo_quota pages C : boot_quota demo_program pages C -> exists u, 0 <= u <= 4 /\ C 1 = Con 10000 u 0 0 1.
Proof. intros (u & Hu & HC). exists u. split; [exact Hu|]. rewrite HC. reflexivity. Qed.

(** The idle process touches a new page, stores two characters there, prints
    them, and is interrupted by the timer. *)
Definition demo_page : Z := VM_USERLO + 8192.
Definition demo_idle_run : list pinput :=
  [(inhabitant, [], demo_kc, PvFault demo_page 6);
   (set_regs 0 0 demo_page 0 2 0 inhabitant, [(demo_page, 72); (demo_page + 1, 105)], demo_kc, PvSyscall);
   (inhabitant, [], demo_kc, PvTimer)].
Lemma demo_page_free : pr_view demo_program demo_page = None.
Proof. vm_compute. reflexivity. Qed.
Lemma demo_idle_run_ok pages C : boot_quota demo_program pages C -> runs_ok demo_prog demo_idle_run (boot_machine demo_program C []).
Proof.
  intros Hq. destruct (demo_quota pages C Hq) as (u & Hu & HC). split; [constructor|]. split; [exact demo_stack|]. split.
  { split; [unfold user_va, demo_page, VM_USERLO, VM_USERHI; lia|]. split; [exact demo_page_free|]. split; [reflexivity|].
    change (2 <= quota (C 1) - usage (C 1)). rewrite HC. simpl. lia. }
  intros m1 (f & C1 & _ & ->). split.
  { repeat constructor; try (unfold user_va, demo_page, VM_USERLO, VM_USERHI; simpl; lia); eexists; reflexivity. }
  split; [exact demo_stack|]. split.
  { right. right. split; [reflexivity || (vm_compute; discriminate)|]. split; [vm_compute; discriminate|]. split; [vm_compute; discriminate|].
    intros i Hi. change (0 <= i < 2) in Hi. assert (i = 0 \/ i = 1) as [->| ->] by lia; eexists _, _; (split; [reflexivity|discriminate]). }
  intros m2 E. split; [constructor|]. split; [|done]. rewrite (E : m2 = m_puts _). exact demo_stack.
Qed.


(** A state in which the log has been recovered. *)
Definition log_done (m : pmach) : pmach := Pmach (pm_sched m) (pm_mem m) (pm_con m) (pm_out m) true.
Lemma started_match prog c k m : pmatch prog c k m -> pmatch prog c (lset l_tp (set_started true (tp k)) k) (log_done m).
Proof.
  intros [[[]] ? ? ? ? ? ? ? ? ? ? ? ?]. split; try done. split; try done. split; try done. by left.
Qed.
Lemma demo_first_process : exists k C pages, boot_quota demo_program pages C /\ pmatch demo_prog 0 k (boot_machine demo_program C []).
Proof.
  destruct demo_idle_ok as [Hok Hpg].
  destruct (proj1 (wp_elim _ _ _) (kern_init_wp demo_ks (fun _ => 0) 0 demo_mmap 2 demo_start 925696 demo_items 164 demo_on_cpu ltac:(lia) demo_mmap_all demo_power_on
    ltac:(intros c Ec; destruct (demo_init_pages c Ec) as [-> Hq]; unfold root_con; by rewrite lookup_total_insert_eq) Hok
    ltac:(change (kphys demo_start) with demo_memory; rewrite Hpg; lia) ltac:(right; unfold boot_ap_size, elf_idle, demo_mp_layout, demo_prog_layout; lia)))
    as ([] & k' & _ & Hu & Er & _ & _ & Htk & _ & _ & _ & _ & _ & k2 & Hms & Hei).
  destruct (ms_ready _ _ Hms) as [pages Hroot]. assert (Hhi : 32768 + boot_ap_size <= elf_idle) by (unfold boot_ap_size, elf_idle, demo_mp_layout, demo_prog_layout; lia).
  exists k', (con_of (vmst (kthr k'))), pages. split.
  - eapply (boot_con demo_start k2 k' demo_program pages); [exact demo_memory_ok|done|done|done|exact demo_program_image|done].
  - apply (boot_match demo_prog demo_buf demo_start k2 k' demo_program pages demo_memory_ok Hms Hei Hroot demo_program_image Hhi demo_prog_image Hu); [|exact Htk|exact demo_prog_none].
    rewrite Er. f_equal.
Qed.

(** The process creates another and yields: the new one runs. *)
Definition demo_spawn_run : list pinput :=
  [(set_regs 0 0 2 0 100 1 inhabitant, [], demo_kc, PvSyscall); (set_regs 0 0 0 0 0 2 inhabitant, [], demo_kc, PvSyscall)].
Definition demo_parent (C : Z -> SContainer) : pmach :=
  m_code (set_regs 0 0 2 0 100 1 inhabitant) [] (log_done (boot_machine demo_program C [])).
Lemma demo_spawn C pages m1 : boot_quota demo_program pages C -> m_spawn demo_prog (demo_parent C) m1 ->
  exists C1, m1 = m_spawned demo_program (demo_parent C) C1.
Proof.
  intros Hq. destruct (demo_quota pages C Hq) as (u & Hu & HC). unfold m_spawn. change (pm_cur (demo_parent C)) with 1. change (pm_con (demo_parent C) 1) with (C 1).
  change (r_ecx (pm_regs (demo_parent C))) with 100. change (demo_prog _) with (Some demo_program). rewrite HC. cbn [quota usage nchildren].
  rewrite u32_small by (unfold W32; lia). rewrite (proj2 (Z.ltb_ge 10000 (u + 100))) by lia. cbn [Z.eqb MAX_CHILDREN NUM_IDS Z.mul Z.add Z.ltb Z.compare].
  change (NUM_IDS <? 1 * MAX_CHILDREN + 1 + MAX_CHILDREN) with false. change (0 =? MAX_CHILDREN) with false. cbv iota. intros (C1 & E & _). by exists C1.
Qed.
Lemma demo_child C pages : boot_quota demo_program pages C -> m_child (demo_parent C) = 4.
Proof. intros Hq. destruct (demo_quota pages C Hq) as (u & _ & HC). unfold m_child. change (pm_con (demo_parent C) (pm_cur (demo_parent C))) with (C 1). by rewrite HC. Qed.
Lemma demo_spawn_run_ok C pages : boot_quota demo_program pages C -> runs_ok demo_prog demo_spawn_run (log_done (boot_machine demo_program C [])).
Proof.
  intros Hq. pose proof (demo_child C pages Hq) as Hch. destruct (demo_quota pages C Hq) as (u & Hu & HC).
  split; [constructor|]. split; [exact demo_stack|]. split.
  - change (spawn_ok demo_prog (demo_parent C)). split; [vm_compute; discriminate|]. intros pr E. injection (E : Some demo_program = Some pr) as <-.
    change (pm_con (demo_parent C) (pm_cur (demo_parent C))) with (C 1). rewrite HC, Hch. cbn [usage]. change (r_ecx (pm_regs (demo_parent C))) with 100.
    split_and!; [simpl; lia|unfold W32; lia|reflexivity|unfold NUM_IDS; lia].
  - intros m1 Hs. destruct (demo_spawn C pages m1 Hq Hs) as [C1 ->]. split; [constructor|]. split; [exact demo_stack|]. split; [reflexivity|done].
Qed.

