(* ===== verification/Boot.v ===== *)
(** * The boot loader (boot/boot1)

    boot1main with its library: text on the screen, numbers, sectors from
    the disk, the ELF file of the kernel and the memory map of the BIOS.  It
    runs in protected mode without paging, so that pointers are physical
    addresses; the disk is behind the controller of Ide.v. *)

From stdpp Require Import base gmap list numbers.
From S2P Require Import Prelude Mem Str Ide.

Definition CRT_ROWS : Z := 25.
Definition VGA_CLR_BLACK : Z := 0.
Definition VGA_CLR_RED : Z := 4.
Definition VGA_CLR_WHITE : Z := 15.
Definition SECTOR_SIZE : Z := 512.
Definition BOOTABLE_PARTITION : Z := 128.
Definition ELF_MAGIC : Z := 1179403647.
Definition ELFHDR : Z := 131072.
Definition MBOOT_INFO_MAGIC : Z := 732803074.
Definition video : Z := 753664.
(** Sizes and offsets of the structures. *)
Definition sizeof_smap : Z := 24.
Definition sizeof_proghdr : Z := 32.
Definition e_entry (p : Z) : Z := p + 24.
Definition e_phoff (p : Z) : Z := p + 28.
Definition e_phnum (p : Z) : Z := p + 44.
Definition p_offset (p : Z) : Z := p + 4.
Definition p_va (p : Z) : Z := p + 8.
Definition p_memsz (p : Z) : Z := p + 20.
Definition bootable (mbr i : Z) : Z := mbr + 446 + 16 * i.
Definition first_lba (mbr i : Z) : Z := mbr + 446 + 16 * i + 8.
Definition smap_base (p : Z) : Z := p + 4.
Definition smap_length (p : Z) : Z := p + 12.
Definition smap_type (p : Z) : Z := p + 20.

(** The static variables; of mboot_info the fields that the loader sets. *)
Record boot : Type := Boot { bmem : mem; bdsk : disk; row : Z; mmap_length : Z; mmap_addr : Z }.
Definition l_bmem : lens boot mem := Lens bmem (fun x s => Boot x (bdsk s) (row s) (mmap_length s) (mmap_addr s)).
Definition l_bdsk : lens boot disk := Lens bdsk (fun x s => Boot (bmem s) x (row s) (mmap_length s) (mmap_addr s)).
#[global] Instance l_bmem_laws : LensLaws l_bmem.
Proof. by split; intros; [|destruct s|]. Qed.
#[global] Instance l_bdsk_laws : LensLaws l_bdsk.
Proof. by split; intros; [|destruct s|]. Qed.
Definition set_row (x : Z) (s : boot) : boot := Boot (bmem s) (bdsk s) x (mmap_length s) (mmap_addr s).
Definition set_mmap (len addr : Z) (s : boot) : boot := Boot (bmem s) (bdsk s) (row s) len addr.

(** Addresses of the literals and of static variables. *)
Class boot_layout : Type := BootLayout {
  blank : Z; puti_str : Z; dec_table : Z; hex_table : Z; mboot_info : Z;
  m_start : Z; m_e820 : Z; m_load : Z; m_run : Z; m_part : Z; m_elf : Z
}.

Section boot.
Context `{boot_layout}.

(** ** The screen *)
Definition putc (l color ch : Z) : K mem unit :=
  st8 (u32 (video + l * 2)) ch ;;
  st8 (u32 (video + l * 2 + 1)) color.
Definition puts (r c color string : Z) : K mem Z :=
  while (fun '(l, string) =>
    ch ← ld string;
    if negb (ch =? 0) then putc l color ch ;; mret (inl (l + 1, u32 (string + 1)))
    else mret (inr l)) (r * 80 + c, string).
Definition putline (s : Z) : K boot unit :=
  modify (fun b => set_row (if CRT_ROWS <=? row b then 0 else row b + 1) b) ;;
  b ← get;
  zoom l_bmem (puts (row b) 0 VGA_CLR_BLACK blank) ;;
  zoom l_bmem (puts (row b) 0 VGA_CLR_WHITE s) ;;
  mret tt.
Definition roll (r : Z) : K boot unit := modify (set_row r).
(** panic writes its message and halts. *)
Definition boot_panic {A} (m : Z) : K boot A :=
  zoom l_bmem (puts 0 0 VGA_CLR_RED m) ;; panic.

(** ** Numbers *)
Definition boot_strlen (s : Z) : K mem Z :=
  while (fun '(s, n) =>
    ch ← ld s;
    if negb (ch =? 0) then mret (inl (u32 (s + 1), n + 1)) else mret (inr n)) (s, 0).
Definition reverse (s : Z) : K mem unit :=
  n ← boot_strlen s;
  while (fun '(i, j) =>
    if i <? j then
      c ← ld (s + i);
      d ← ld (s + j);
      st8 (s + i) d ;;
      st8 (s + j) c ;;
      mret (inl (i + 1, j - 1))
    else mret (inr tt)) (0, n - 1).
Definition itox (n s root table : Z) : K mem unit :=
  check (negb (n =? -2147483648)) ;;
  i ← while (fun '(i, n) =>
    d ← ld (table + n mod root);
    st8 (s + i) d ;;
    let n := n / root in
    if 0 <? n then mret (inl (i + 1, n)) else mret (inr (i + 1))) (0, Z.abs n);
  i ← (if n <? 0 then st8 (s + i) 45 ;; mret (i + 1) else mret i);
  st8 (s + i) 0 ;;
  reverse s.
Definition itoa (n s : Z) : K mem unit := itox n s 10 dec_table.
Definition itoh (n s : Z) : K mem unit := itox n s 16 hex_table.
Definition puti (i : Z) : K boot unit :=
  zoom l_bmem (itoh i puti_str) ;;
  putline puti_str.

(** ** The disk *)
Definition waitdisk : K disk unit :=
  while (fun _ =>
    r ← inb_status;
    if negb (Z.land r 192 =? 64) then mret (inl tt) else mret (inr tt)) tt.
Definition bout (port v : Z) : K boot unit := zoom l_bdsk (outb port (v mod 256)).
Definition readsector (dst offset : Z) : K boot unit :=
  zoom l_bdsk waitdisk ;;
  bout 0x1f2 1 ;;
  bout 0x1f3 offset ;;
  bout 0x1f4 (Z.shiftr offset 8) ;;
  bout 0x1f5 (Z.shiftr offset 16) ;;
  bout 0x1f6 (Z.lor (Z.shiftr offset 24) 0xe0) ;;
  bout 0x1f7 0x20 ;;
  zoom l_bdsk waitdisk ;;
  data ← zoom l_bdsk insl;
  zoom l_bmem (modify (fun m => write_bytes m dst ((fun i => data !!! i) <$> seqZ 0 SECTOR_SIZE))).

Definition readsection (va count offset lba : Z) : K boot unit :=
  let va := Z.land va 16777215 in
  let end_va := u32 (va + count) in
  let va := Z.land va (Z.lnot (SECTOR_SIZE - 1)) in
  let offset := u32 (offset / SECTOR_SIZE + lba) in
  while (fun '(va, offset) =>
    if va <? end_va then
      readsector va offset ;;
      mret (inl (u32 (va + SECTOR_SIZE), u32 (offset + 1)))
    else mret (inr tt)) (va, offset).

(** ** The kernel *)
Definition bld32 (a : Z) : K boot Z := gets (fun b => load32 (bmem b) (u32 a)).
Definition bld16 (a : Z) : K boot Z := gets (fun b => load8 (bmem b) (u32 a) + 256 * load8 (bmem b) (u32 (a + 1))).
Definition bld8 (a : Z) : K boot Z := gets (fun b => load8 (bmem b) (u32 a)).

(** The loop over the program headers. *)
Definition load_segments (dkernel eph : Z) : Z -> K boot unit :=
  while (fun ph =>
    if ph <? eph then
      va ← bld32 (p_va ph);
      memsz ← bld32 (p_memsz ph);
      off ← bld32 (p_offset ph);
      readsection va memsz off dkernel ;;
      mret (inl (u32 (ph + sizeof_proghdr)))
    else mret (inr tt)).
Definition load_kernel (dkernel : Z) : K boot Z :=
  readsection ELFHDR (SECTOR_SIZE * 8) 0 dkernel ;;
  magic ← bld32 ELFHDR;
  if negb (magic =? ELF_MAGIC) then boot_panic m_elf
  else
    phoff ← bld32 (e_phoff ELFHDR);
    phnum ← bld16 (e_phnum ELFHDR);
    let ph := u32 (ELFHDR + phoff) in
    let eph := u32 (ph + sizeof_proghdr * phnum) in
    load_segments dkernel eph ph ;;
    entry ← bld32 (e_entry ELFHDR);
    mret (Z.land entry 16777215).

Definition parse_e820 (smap : Z) : K boot Z :=
  putline m_e820 ;;
  len ← while (fun '(p, mmap_len) =>
    b0 ← bld32 (smap_base p);
    b1 ← bld32 (smap_base p + 4);
    l0 ← bld32 (smap_length p);
    l1 ← bld32 (smap_length p + 4);
    ty ← bld32 (smap_type p);
    if negb (b0 =? 0) || negb (b1 =? 0) || negb (l0 =? 0) || negb (l1 =? 0) || negb (ty =? 0) then
      puti (s32 b0) ;;
      mret (inl (u32 (p + sizeof_smap), u32 (mmap_len + sizeof_smap)))
    else mret (inr mmap_len)) (smap, 0);
  modify (set_mmap len smap) ;;
  mret mboot_info.

(** exec_kernel jumps to the kernel: eax, ebx and eip are the result. *)
Definition exec_kernel (entry mbi : Z) : K boot (Z * Z * Z) := mret (MBOOT_INFO_MAGIC, mbi, entry).
Definition boot1main (dev mbr smap : Z) : K boot (Z * Z * Z) :=
  roll 3 ;;
  putline m_start ;;
  lba ← while (fun i =>
    if i <? 4 then
      b ← bld8 (bootable mbr i);
      if b =? BOOTABLE_PARTITION then lba ← bld32 (first_lba mbr i); mret (inr (Some lba))
      else mret (inl (i + 1))
    else mret (inr None)) 0;
  match lba with
  | None => boot_panic m_part
  | Some bootable_lba =>
      parse_e820 smap ;;
      putline m_load ;;
      entry ← load_kernel bootable_lba;
      putline m_run ;;
      exec_kernel entry mboot_info
  end.
End boot.
