(* ===== verification/BootSpec.v ===== *)
(** * The boot loader loads the kernel

    Sectors, sections and the segments of the ELF file, against the bytes of
    the disk. *)

From stdpp Require Import base gmap list numbers.
From S2P Require Import Prelude Mem Str Ide IdeSpec Boot.

(** Byte [k] of the first disk. *)
Definition dbyte (S : gmap (Z * Z) mem) (k : Z) : Z := (S !!! (0, k / 512)) !!! (k mod 512).
Definition dbytes_ok (S : gmap (Z * Z) mem) : Prop := forall k, 0 <= dbyte S k < 256.
(** Memory with [n] bytes of the disk from [off] on at [va]. *)
Definition loaded (S : gmap (Z * Z) mem) (m m' : mem) (va n off : Z) : Prop :=
  forall a, load8 m' a = if decide (va <= a < va + n) then dbyte S (off + (a - va)) else load8 m a.
Lemma loaded_app S m m1 m2 va k n off : 0 <= k -> 0 <= n -> loaded S m m1 va k off -> loaded S m1 m2 (va + k) n (off + k) -> loaded S m m2 va (k + n) off.
Proof.
  intros Hk Hn H1 H2 a. rewrite H2. destruct (decide (va + k <= a < va + k + n)).
  - rewrite decide_True by lia. f_equal. lia.
  - rewrite H1. destruct (decide (va <= a < va + k)); [by rewrite decide_True by lia|by rewrite decide_False by lia].
Qed.
Lemma loaded_nil S m va off : loaded S m m va 0 off.
Proof. intros a. by rewrite decide_False by lia. Qed.
Lemma loaded_ok S m m' va n off : dbytes_ok S -> loaded S m m' va n off -> mem_ok m -> mem_ok m'.
Proof. intros HS Hl Hm a. rewrite Hl. case_decide; [apply HS|apply Hm]. Qed.
(** The loader changes memory and the registers of the controller. *)
Definition same_disk (b b' : boot) : Prop :=
  sectors (bdsk b') = sectors (bdsk b) /\ disk_ok (bdsk b') /\ row b' = row b /\ mmap_length b' = mmap_length b /\ mmap_addr b' = mmap_addr b.

Lemma waitdisk_wp d : disk_ok d -> wp waitdisk (fun _ d' => sectors d' = sectors d /\ port d' = port d /\ disk_ok d') d.
Proof.
  intros [Hp Hd]. unfold waitdisk.
  eapply (wp_while _ (fun _ d1 => sectors d1 = sectors d /\ port d1 = port d /\ disk_ok d1) (fun _ d1 => polls d1)); [|done|unfold W32 in *; lia].
  intros [] d1 (Es & Ep & [Hp1 Hd1]) _. wp_step. unfold inb_status. do 2 wp_step. destruct (Z.ltb_spec 0 (polls d1)).
  - do 3 wp_step. change (negb (Z.land IDE_BSY 192 =? 64)) with true. cbv iota. wp_step. cbn. split; [|lia]. split_and!; [done|done|]. split; cbn; [lia|done].
  - wp_step. assert (Z.land (status d1) 192 = 64) as ->.
    { unfold status. by destruct (bool_decide _). }
    change (negb (64 =? 64)) with false. cbv iota. wp_step. done.
Qed.

Lemma sector_regs o p : 0 <= o < 268435456 ->
  addressed (Disk ∅ ∅ (<[0x1f7 := 0x20 mod 256]> (<[0x1f6 := Z.lor (Z.shiftr o 24) 0xe0 mod 256]> (<[0x1f5 := Z.shiftr o 16 mod 256]>
    (<[0x1f4 := Z.shiftr o 8 mod 256]> (<[0x1f3 := o mod 256]> p))))) 0 0 []) = (0, o).
Proof.
  intros Ho. unfold addressed. cbn [port].
  rewrite (lookup_total_insert_ne _ 0x1f7), lookup_total_insert_eq by done.
  rewrite !(lookup_total_insert_ne _ 0x1f7) by done. rewrite !(lookup_total_insert_ne _ 0x1f6) by done. rewrite !(lookup_total_insert_ne _ 0x1f5), !lookup_total_insert_eq by done.
  rewrite !(lookup_total_insert_ne _ 0x1f4) by done. rewrite !lookup_total_insert_eq.
  assert (Hh : 0 <= Z.shiftr o 24 < 16) by (rewrite Z.shiftr_div_pow2 by done; change (2 ^ 24) with 16777216; zdiv).
  assert (E : Z.lor (Z.shiftr o 24) 0xe0 mod 256 = Z.shiftr o 24 + 0xe0).
  { rewrite Z.lor_comm. rewrite (lor_aligned 0xe0 4) by (done || lia). rewrite Z.mod_small by lia. lia. }
  rewrite E. f_equal.
  - remember (Z.shiftr o 24) as h eqn:Eh. clear E Eh. assert (forall h, 0 <= h < 16 -> Z.land (Z.shiftr (h + 0xe0) 4) 1 = 0) as Hb.
    { intros x Hx. rewrite Z.shiftr_div_pow2 by done. change (2 ^ 4) with 16. replace ((x + 0xe0) / 16) with 14 by zdiv. done. }
    by apply Hb.
  - rewrite <- (lba_bytes o Ho) at 5. rewrite !(land_low _ 8 0xff) by done. rewrite !(land_low _ 4 15) by done. do 3 f_equal. f_equal.
    change (2 ^ 4) with 16. zdiv.
Qed.

Section load.
Context `{boot_layout}.

(** ** Sectors and sections *)

Lemma bout_wp p v b (Q : unit -> boot -> Prop) : disk_ok (bdsk b) ->
  (forall d, sectors d = sectors (bdsk b) -> port d = <[p := v mod 256]> (port (bdsk b)) -> disk_ok d -> Q tt (lset l_bdsk d b)) ->
  wp (bout p v) Q b.
Proof. intros [Hp Hd] HQ. unfold bout, outb. do 2 wp_step. apply HQ; [done|done|]. split; cbn; [by destruct (_ =? _)|done]. Qed.
Lemma read_command_wp {A} o b (k : K boot A) Q : 0 <= o < 268435456 -> disk_ok (bdsk b) ->
  (forall d, sectors d = sectors (bdsk b) -> disk_ok d -> addressed d = (0, o) -> port d !!! 0x1f7 = IDE_CMD_READ -> wp k Q (lset l_bdsk d b)) ->
  wp (bout 0x1f2 1 ;; bout 0x1f3 o ;; bout 0x1f4 (Z.shiftr o 8) ;; bout 0x1f5 (Z.shiftr o 16) ;;
      bout 0x1f6 (Z.lor (Z.shiftr o 24) 0xe0) ;; bout 0x1f7 0x20 ;; k) Q b.
Proof.
  intros Ho Hd HQ. wp_step. apply bout_wp; [done|]. intros d1 S1 P1 D1. wp_step. apply bout_wp; [done|]. intros d2 S2 P2 D2.
  wp_step. apply bout_wp; [done|]. intros d3 S3 P3 D3. wp_step. apply bout_wp; [done|]. intros d4 S4 P4 D4.
  wp_step. apply bout_wp; [done|]. intros d5 S5 P5 D5. wp_step. apply bout_wp; [done|]. intros d6 S6 P6 D6.
  rewrite !lset_lset by apply _. cbn [lset l_bdsk bdsk] in *. rewrite P5, P4, P3, P2, P1 in P6. apply HQ; [congruence|done| |].
  - unfold addressed. rewrite P6. by apply sector_regs.
  - by rewrite P6, lookup_total_insert_eq.
Qed.

Lemma sector_bytes S o : (fun i => (S !!! (0, o)) !!! i) <$> seqZ 0 512 = (fun i => dbyte S (512 * o + i)) <$> seqZ 0 512.
Proof.
  apply list_fmap_ext. intros j i Hi. apply lookup_seqZ in Hi as [-> Hj]. unfold dbyte. cbn.
  replace ((512 * o + (0 + Z.of_nat j)) / 512) with o by zdiv. f_equal. zdiv.
Qed.
Lemma write_sector m S dst o : dbytes_ok S -> loaded S m (write_bytes m dst ((fun i => (S !!! (0, o)) !!! i) <$> seqZ 0 512)) dst 512 (512 * o).
Proof.
  intros HS a. rewrite sector_bytes, load8_write_bytes by (apply Forall_fmap, Forall_true; intros; apply HS). rewrite length_fmap, length_seqZ.
  change (Z.of_nat (Z.to_nat 512)) with 512. destruct (decide (dst <= a < dst + 512)) as [Ha|Ha]; [|done].
  apply list_lookup_total_correct. rewrite list_lookup_fmap, lookup_seqZ_lt by lia. cbn. f_equal. f_equal. lia.
Qed.

Lemma readsector_wp dst o b : 0 <= o < 268435456 -> disk_ok (bdsk b) -> dbytes_ok (sectors (bdsk b)) ->
  wp (readsector dst o) (fun _ b' => same_disk b b' /\ loaded (sectors (bdsk b)) (bmem b) (bmem b') dst 512 (512 * o)) b.
Proof.
  intros Ho Hd HS. unfold readsector. do 2 wp_step. eapply wp_mono; [by apply waitdisk_wp|]. intros [] d1 (S1 & _ & D1).
  apply read_command_wp; [done|done|]. cbn [lset l_bdsk bdsk]. intros d2 S2 D2 Ha Hc. do 2 wp_step. eapply wp_mono; [by apply waitdisk_wp|].
  intros [] d3 (S3 & P3 & D3). cbn [lget lset l_bdsk bdsk] in S3, P3. do 2 wp_step. unfold insl. do 3 wp_step. wp_step; [cbn [lget lset l_bdsk bdsk]; by rewrite P3, Hc|]. do 3 wp_step. cbn [lset lget l_bdsk l_bmem bdsk bmem].
  assert (Es : sectors d3 = sectors (bdsk b)) by (by rewrite S3, S2). split; [by split_and!|].
  assert (addressed d3 = (0, o)) as -> by (rewrite <- Ha; unfold addressed; by rewrite P3). rewrite Es. by apply write_sector.
Qed.

(** The sectors that hold [count] bytes at [va], rounded down. *)
Definition rd (va : Z) : Z := 512 * (va / 512).
Definition span (va count : Z) : Z := 512 * ((va + count - rd va + 511) / 512).
Lemma round_down v : Z.land v (Z.lnot (SECTOR_SIZE - 1)) = rd v.
Proof.
  rewrite <- Z.ldiff_land. change (SECTOR_SIZE - 1) with (Z.ones 9). rewrite Z.ldiff_ones_r, Z.shiftl_mul_pow2, Z.shiftr_div_pow2 by done.
  unfold rd. change (2 ^ 9) with 512. lia.
Qed.
Lemma same_disk_trans b b1 b2 : same_disk b b1 -> same_disk b1 b2 -> same_disk b b2.
Proof. intros (A & _ & B & C & D) (A' & E & B' & C' & D'). split_and!; congruence. Qed.
Lemma readsection_wp va count off lba b : let v := Z.land va 16777215 in
  0 <= count -> 0 <= off -> 0 <= lba -> v + count + 512 < W32 -> off / 512 + lba + (count + 1022) / 512 < 268435456 ->
  disk_ok (bdsk b) -> dbytes_ok (sectors (bdsk b)) ->
  wp (readsection va count off lba) (fun _ b' => same_disk b b' /\
    loaded (sectors (bdsk b)) (bmem b) (bmem b') (rd v) (span v count) (512 * (off / 512 + lba))) b.
Proof.
  intros v Hc Ho Hl Hw Hs Hd HS. unfold readsection. cbv zeta. rewrite round_down. fold v. unfold SECTOR_SIZE.
  assert (Hv : 0 <= v) by (apply Z.land_nonneg; right; done). rewrite (u32_small (v + count)) by lia.
  set (o := off / 512 + lba) in *. rewrite (u32_small o) by (unfold W32, o in *; zdiv). unfold span. set (n := (v + count - rd v + 511) / 512).
  assert (Hn : v + count <= rd v + 512 * n < v + count + 512) by (unfold n; zdiv).
  assert (Hr : rd v <= v < rd v + 512) by (unfold rd; zdiv). assert (Ho' : 0 <= o /\ o + n < 268435457) by (unfold o in *; zdiv).
  eapply (wp_while _ (fun '(a, x) b' => exists k, 0 <= k <= n /\ a = rd v + 512 * k /\ x = o + k /\ same_disk b b' /\
     loaded (sectors (bdsk b)) (bmem b) (bmem b') (rd v) (512 * k) (512 * o)) (fun '(a, _) _ => rd v + 512 * n - a)).
  - intros [a x] b1 (k & Hk & -> & -> & Hb & Hld) _. destruct (decide (k = n)) as [->|Hne].
    + rewrite (proj2 (Z.ltb_ge _ _)) by lia. by wp_step.
    + rewrite (proj2 (Z.ltb_lt _ _)) by lia. pose proof Hb as (Es & Dk & _). wp_step. eapply wp_mono; [apply readsector_wp; [lia|done|by rewrite Es]|].
      intros [] b2 [Hb2 Hl2]. wp_step. rewrite !u32_small by (unfold W32 in *; lia). split; [|lia]. exists (k + 1). split_and!; [lia|lia|lia|lia|by eapply same_disk_trans|].
      rewrite Es in Hl2. replace (512 * (k + 1)) with (512 * k + 512) by lia. eapply loaded_app; [lia|lia|exact Hld|]. by replace (512 * o + 512 * k) with (512 * (o + k)) by lia.
  - exists 0. split_and!; [lia|lia|lia|lia|done|]. rewrite Z.mul_0_r. apply loaded_nil.
  - unfold W32 in *. lia.
Qed.

(** ** The ELF file

    Its bytes begin with sector [lba] of the disk [S]. *)
Definition fbyte (S : gmap (Z * Z) mem) (lba i : Z) : Z := dbyte S (512 * lba + i).
Definition fword (S : gmap (Z * Z) mem) (lba i : Z) : Z :=
  fbyte S lba i + 256 * fbyte S lba (i + 1) + 65536 * fbyte S lba (i + 2) + 16777216 * fbyte S lba (i + 3).
Definition ph_at (S : gmap (Z * Z) mem) (lba i : Z) : Z := fword S lba 28 + 32 * i.
Definition ph_num (S : gmap (Z * Z) mem) (lba : Z) : Z := fbyte S lba 44 + 256 * fbyte S lba 45.
Definition seg_va (S : gmap (Z * Z) mem) (lba i : Z) : Z := Z.land (fword S lba (ph_at S lba i + 8)) 16777215.
Definition seg_off (S : gmap (Z * Z) mem) (lba i : Z) : Z := fword S lba (ph_at S lba i + 4).
Definition seg_size (S : gmap (Z * Z) mem) (lba i : Z) : Z := fword S lba (ph_at S lba i + 20).
(** The bytes of memory that loading a segment overwrites. *)
Definition seg_range (S : gmap (Z * Z) mem) (lba i a : Z) : Prop :=
  rd (seg_va S lba i) <= a < rd (seg_va S lba i) + span (seg_va S lba i) (seg_size S lba i).

(** An ELF file that the loader can load: the program headers are in the
    first eight sectors, every segment has the same position in its sector
    on the disk and in memory, fits, and leaves the headers alone, and where
    two segments share sectors they agree on their contents. *)
Record kernel_file (S : gmap (Z * Z) mem) (lba : Z) : Prop := {
  kf_lba : 0 <= lba < 268435446;
  kf_magic : fword S lba 0 = ELF_MAGIC;
  kf_table : ph_at S lba (ph_num S lba) <= 4096;
  kf_aligned i : 0 <= i < ph_num S lba -> seg_va S lba i mod 512 = seg_off S lba i mod 512;
  kf_fits i : 0 <= i < ph_num S lba -> seg_va S lba i + seg_size S lba i + 512 < W32;
  kf_disk i : 0 <= i < ph_num S lba -> seg_off S lba i / 512 + lba + (seg_size S lba i + 1022) / 512 < 268435456;
  kf_header i a : 0 <= i < ph_num S lba -> seg_range S lba i a -> ~ (ELFHDR <= a < ELFHDR + 4096);
  kf_shared i j a : 0 <= i < j -> j < ph_num S lba -> seg_range S lba i a -> seg_range S lba j a ->
    seg_off S lba i - seg_va S lba i = seg_off S lba j - seg_va S lba j
}.

Lemma fbyte_range S lba i : dbytes_ok S -> 0 <= fbyte S lba i < 256.
Proof. intros HS. apply HS. Qed.
Lemma fword_range S lba i : dbytes_ok S -> 0 <= fword S lba i < W32.
Proof.
  intros HS. unfold fword, W32. pose proof (fbyte_range S lba i HS). pose proof (fbyte_range S lba (i + 1) HS). pose proof (fbyte_range S lba (i + 2) HS).
  pose proof (fbyte_range S lba (i + 3) HS). lia.
Qed.
Lemma ph_num_range S lba : dbytes_ok S -> 0 <= ph_num S lba < 65536.
Proof. intros HS. unfold ph_num. pose proof (fbyte_range S lba 44 HS). pose proof (fbyte_range S lba 45 HS). lia. Qed.

(** The headers are in memory. *)
Definition header (S : gmap (Z * Z) mem) (lba : Z) (m : mem) : Prop :=
  forall a, ELFHDR <= a < ELFHDR + 4096 -> load8 m a = fbyte S lba (a - ELFHDR).
Lemma header_word S lba m i : header S lba m -> 0 <= i <= 4092 -> load32 m (u32 (ELFHDR + i)) = fword S lba i.
Proof.
  intros Hh Hi. rewrite u32_small by (unfold ELFHDR, W32; lia). unfold load32, fword. rewrite !Hh by (unfold ELFHDR; lia). do 4 f_equal; try (f_equal; lia); lia.
Qed.

(** The first [n] segments are loaded. *)
Definition segs_loaded (S : gmap (Z * Z) mem) (lba : Z) (m0 m : mem) (n : Z) : Prop :=
  (forall i a, 0 <= i < n -> seg_range S lba i a -> load8 m a = fbyte S lba (a + (seg_off S lba i - seg_va S lba i))) /\
  (forall a, ~ (ELFHDR <= a < ELFHDR + 4096) -> (forall i, 0 <= i < n -> ~ seg_range S lba i a) -> load8 m a = load8 m0 a).
Lemma seg_step S lba m0 m m' n : kernel_file S lba -> 0 <= n < ph_num S lba -> header S lba m -> segs_loaded S lba m0 m n ->
  loaded S m m' (rd (seg_va S lba n)) (span (seg_va S lba n) (seg_size S lba n)) (512 * (seg_off S lba n / 512 + lba)) ->
  header S lba m' /\ segs_loaded S lba m0 m' (n + 1).
Proof.
  intros K Hn Hh [H1 H2] Hl. assert (Hin : forall a, seg_range S lba n a -> load8 m' a = fbyte S lba (a + (seg_off S lba n - seg_va S lba n))).
  { intros a Ha. rewrite Hl, decide_True by done. unfold fbyte. f_equal. pose proof (kf_aligned S lba K n Hn). unfold rd. zdiv. }
  assert (Hout : forall a, ~ seg_range S lba n a -> load8 m' a = load8 m a) by (intros a Ha; rewrite Hl, decide_False; done).
  assert (Hdec : forall a, Decision (seg_range S lba n a)) by (intros a; unfold seg_range; apply _).
  split; [|split].
  - intros a Ha. rewrite Hout; [by apply Hh|]. intros Hr. by apply (kf_header S lba K n a Hn Hr).
  - intros i a Hi Ha. destruct (decide (seg_range S lba n a)) as [Hr|Hr].
    + rewrite Hin by done. destruct (decide (i = n)) as [->|]; [done|]. f_equal. f_equal. symmetry. apply (kf_shared S lba K i n a); [lia|lia|done|done].
    + rewrite Hout by done. destruct (decide (i = n)) as [->|]; [done|]. apply H1; [lia|done].
  - intros a Ha Hr. rewrite Hout by (apply Hr; lia). apply H2; [done|]. intros i Hi. apply Hr. lia.
Qed.

Lemma read_header_wp S lba b : sectors (bdsk b) = S -> disk_ok (bdsk b) -> dbytes_ok S -> 0 <= lba < 268435446 ->
  wp (readsection ELFHDR (SECTOR_SIZE * 8) 0 lba) (fun _ b' => same_disk b b' /\ header S lba (bmem b') /\ (mem_ok (bmem b) -> mem_ok (bmem b')) /\
    forall a, ~ (ELFHDR <= a < ELFHDR + 4096) -> load8 (bmem b') a = load8 (bmem b) a) b.
Proof.
  intros ES Hd HS Hl. pose proof (readsection_wp ELFHDR 4096 0 lba b) as Hr. cbv zeta in Hr. change (Z.land ELFHDR 16777215) with ELFHDR in Hr.
  change (0 / 512) with 0 in Hr. change ((4096 + 1022) / 512) with 9 in Hr. change (rd ELFHDR) with ELFHDR in Hr. change (span ELFHDR 4096) with 4096 in Hr.
  eapply wp_mono; [apply Hr; [lia|lia|lia|unfold ELFHDR, W32; lia|lia|done|by rewrite ES]|].
  intros [] b' [D L]. rewrite ES in L. split_and!; [done| |by eapply loaded_ok|].
  - intros a Ha. rewrite L, decide_True by done. done.
  - intros a Ha. by rewrite L, decide_False by done.
Qed.

(** The loop over the headers, with [n] segments loaded when it is at header
    [n]. *)
Definition loading (S : gmap (Z * Z) mem) (lba : Z) (b0 : boot) (m0 : mem) (n : Z) (b : boot) : Prop :=
  same_disk b0 b /\ (mem_ok m0 -> mem_ok (bmem b)) /\ header S lba (bmem b) /\ segs_loaded S lba m0 (bmem b) n.
Lemma seg_load_wp S lba b0 m0 n b : kernel_file S lba -> dbytes_ok S -> sectors (bdsk b0) = S -> 0 <= n < ph_num S lba -> loading S lba b0 m0 n b ->
  wp (readsection (fword S lba (ph_at S lba n + 8)) (seg_size S lba n) (seg_off S lba n) lba) (fun _ b' => loading S lba b0 m0 (n + 1) b') b.
Proof.
  intros K HS ES Hn (D & Hmo & Hh & Hsg). pose proof D as (Es & Dk & _). rewrite ES in Es.
  pose proof (fword_range S lba (ph_at S lba n + 20) HS). pose proof (fword_range S lba (ph_at S lba n + 4) HS).
  eapply wp_mono; [apply readsection_wp; fold (seg_va S lba n); rewrite ?Es; [apply H0|apply H1|by apply (kf_lba S lba K)|by apply (kf_fits S lba K)|by apply (kf_disk S lba K)|done|done]|].
  intros [] b' [D' L']. fold (seg_va S lba n) in L'. rewrite Es in L'. split; [by eapply same_disk_trans|]. split; [intros Hm; eapply loaded_ok; [done|exact L'|by apply Hmo]|]. by apply (seg_step S lba m0 (bmem b)).
Qed.
Lemma load_segments_wp S lba b : kernel_file S lba -> dbytes_ok S -> sectors (bdsk b) = S -> disk_ok (bdsk b) -> header S lba (bmem b) ->
  wp (load_segments lba (ELFHDR + ph_at S lba (ph_num S lba)) (ELFHDR + ph_at S lba 0)) (fun _ b' => loading S lba b (bmem b) (ph_num S lba) b') b.
Proof.
  intros K HS ES Hd Hh. unfold load_segments. pose proof (ph_num_range S lba HS). pose proof (fword_range S lba 28 HS) as Hw. pose proof (kf_table S lba K) as Ht. unfold ph_at in Ht.
  eapply (wp_while _ (fun ph b' => exists n, 0 <= n <= ph_num S lba /\ ph = ELFHDR + ph_at S lba n /\ loading S lba b (bmem b) n b')
    (fun ph _ => ELFHDR + ph_at S lba (ph_num S lba) - ph)).
  - intros ph b1 (n & Hn & -> & L) _. destruct (decide (n = ph_num S lba)) as [->|Hne].
    + rewrite Z.ltb_irrefl. by wp_step.
    + rewrite (proj2 (Z.ltb_lt _ _)) by (unfold ph_at; lia). unfold bld32, p_va, p_memsz, p_offset. do 6 wp_step. pose proof L as (_ & _ & Hh1 & _).
      assert (0 <= ph_at S lba n /\ ph_at S lba n + 32 <= 4096) by (unfold ph_at; lia).
      rewrite <- !Z.add_assoc. rewrite !(header_word S lba) by (done || lia). wp_step. eapply wp_mono; [apply (seg_load_wp S lba b (bmem b) n); [done|done|done|lia|done]|].
      intros [] b2 L2. wp_step. rewrite u32_small by (unfold ELFHDR, sizeof_proghdr, W32; lia). unfold sizeof_proghdr, ph_at in *. split; [|lia].
      exists (n + 1). split_and!; [lia|lia|lia|done].
  - exists 0. split_and!; [lia|lia|done|]. split_and!; [done|done|done|]. split; [intros; lia|done].
  - unfold ph_at. lia.
Qed.

(** What loading the kernel overwrites. *)
Definition kernel_area (S : gmap (Z * Z) mem) (lba a : Z) : Prop :=
  ELFHDR <= a < ELFHDR + 4096 \/ exists i, 0 <= i < ph_num S lba /\ seg_range S lba i a.
Definition agree (A : Z -> Prop) (m m' : mem) : Prop := forall a, ~ A a -> load8 m' a = load8 m a.
(** Every byte of every segment is in memory at its address, of which the
    loader takes 24 bits. *)
Definition kernel_in (S : gmap (Z * Z) mem) (lba : Z) (m : mem) : Prop :=
  forall i k, 0 <= i < ph_num S lba -> 0 <= k < seg_size S lba i -> load8 m (seg_va S lba i + k) = fbyte S lba (seg_off S lba i + k).
Lemma seg_in_range S lba i k : 0 <= k < seg_size S lba i -> seg_range S lba i (seg_va S lba i + k).
Proof. intros Hk. unfold seg_range, span, rd. zdiv. Qed.
Lemma load_kernel_wp S lba b :
  sectors (bdsk b) = S -> disk_ok (bdsk b) -> dbytes_ok S -> kernel_file S lba ->
  wp (load_kernel lba) (fun entry b' =>
    entry = Z.land (fword S lba 24) 16777215 /\ same_disk b b' /\ (mem_ok (bmem b) -> mem_ok (bmem b')) /\
    kernel_in S lba (bmem b') /\ agree (kernel_area S lba) (bmem b) (bmem b')) b.
Proof.
  intros ES Hd HS K. unfold load_kernel. pose proof (kf_lba S lba K) as Hlba. wp_step. eapply wp_mono; [by apply (read_header_wp S)|].
  intros [] b1 (D1 & Hh1 & Hm1 & Ho1). unfold bld32, bld16. do 2 wp_step. rewrite <- (Z.add_0_r ELFHDR) at 1. rewrite (header_word S lba _ 0) by (done || lia).
  rewrite (kf_magic S lba K). change (ELF_MAGIC =? ELF_MAGIC) with true. cbn [negb]. do 4 wp_step.
  unfold e_phoff, e_phnum. rewrite (header_word S lba _ 28) by (done || lia). pose proof (fword_range S lba 28 HS). pose proof (ph_num_range S lba HS). pose proof (kf_table S lba K) as Ht.
  rewrite (u32_small (ELFHDR + 44)), (u32_small (ELFHDR + 44 + 1)) by (by vm_compute). rewrite !Hh1 by (by vm_compute). change (ELFHDR + 44 - ELFHDR) with 44. change (ELFHDR + 44 + 1 - ELFHDR) with 45.
  fold (ph_num S lba). unfold ph_at in Ht. rewrite (u32_small (ELFHDR + fword S lba 28)) by (unfold ELFHDR, W32; lia). rewrite (u32_small (ELFHDR + fword S lba 28 + sizeof_proghdr * ph_num S lba)) by (unfold ELFHDR, sizeof_proghdr, W32; lia).
  replace (ELFHDR + fword S lba 28 + sizeof_proghdr * ph_num S lba) with (ELFHDR + ph_at S lba (ph_num S lba)) by (unfold ph_at, sizeof_proghdr; lia).
  replace (ELFHDR + fword S lba 28) with (ELFHDR + ph_at S lba 0) by (unfold ph_at; lia).
  pose proof D1 as (E1 & Dk1 & _). wp_step. eapply wp_mono; [apply load_segments_wp; [done|done|by rewrite E1|done|done]|].
  intros [] b2 (D2 & Hm2 & Hh2 & Hs1 & Hs2). do 3 wp_step. unfold e_entry. rewrite (header_word S lba _ 24) by (done || lia). split_and!; [done|by eapply same_disk_trans|by auto| |].
  - intros i k Hi Hk. rewrite (Hs1 i) by (done || by apply seg_in_range). f_equal. lia.
  - intros a Ha. assert (~ (ELFHDR <= a < ELFHDR + 4096)) by (intros Hx; apply Ha; by left). rewrite Hs2; [by apply Ho1|done|].
    intros i Hi Hr. apply Ha. right. by exists i.
Qed.

(** ** Text and numbers *)

(** The screen, with room below its last line, and the buffer of puti. *)
Definition screen (a : Z) : Prop := video <= a < video + 8000.
Definition scratch (a : Z) : Prop := puti_str <= a < puti_str + 40.
Lemma agree_trans A m m1 m2 : agree A m m1 -> agree A m1 m2 -> agree A m m2.
Proof. intros H1 H2 a Ha. by rewrite H2, H1. Qed.
(** A string of at most 100 characters outside [A]. *)
Definition text_at (A : Z -> Prop) (m : mem) (p : Z) (l : list Z) : Prop :=
  cstr m p l /\ (length l <= 100)%nat /\ forall a, p <= a <= p + Z.of_nat (length l) -> ~ A a.
Lemma text_agree (A B : Z -> Prop) m m' p l : (forall a, B a -> A a) -> agree B m m' -> text_at A m p l -> text_at A m' p l.
Proof.
  intros Hs Ha ([H1 H2 H3 H4] & Hl & Ho). assert (Ho' : forall a, p <= a <= p + Z.of_nat (length l) -> ~ B a) by (intros a Hr Hb; by apply (Ho a Hr), Hs).
  split; [|done]. split; [done| |done|by rewrite Ha by (apply Ho'; lia)].
  intros i x Hi. pose proof (lookup_lt_Some _ _ _ Hi). rewrite Ha by (apply Ho'; lia). by apply H2.
Qed.

Lemma puts_wp r c color p l m : mem_ok m -> text_at screen m p l -> 0 <= r * 80 + c <= 3900 ->
  wp (puts r c color p) (fun _ m' => mem_ok m' /\ agree screen m m') m.
Proof.
  intros Hm ([Hr Hch Hnz Hend] & Hl & Ho) Hrc. unfold puts.
  eapply (wp_while _ (fun '(x, q) m' => exists k, (k <= length l)%nat /\ x = r * 80 + c + Z.of_nat k /\ q = p + Z.of_nat k /\ mem_ok m' /\ agree screen m m')
    (fun '(_, q) _ => p + Z.of_nat (length l) - q)).
  - intros [x q] m' (k & Hk & -> & -> & Hm' & Ha) _. wp_step. unfold ld. wp_step. rewrite Ha by (apply Ho; lia).
    destruct (l !! k) as [y|] eqn:Ey.
    + pose proof (lookup_lt_Some _ _ _ Ey). rewrite (Hch k y Ey), (proj2 (Z.eqb_neq y 0)) by (eapply Hnz, list_elem_of_lookup_2; done). cbn [negb].
      wp_step. unfold putc, st8. do 4 wp_step. rewrite !u32_small by (unfold video, W32 in *; lia). split; [|lia]. exists (S k). split_and!; [lia|lia|lia|by do 2 apply mem_ok_store8|].
      intros a Hna. unfold screen, video in *. rewrite !load8_store8_ne by lia. by apply Ha.
    + apply lookup_ge_None in Ey. replace k with (length l) by lia. rewrite Hend. cbn [Z.eqb negb]. by wp_step.
  - exists 0%nat. split_and!; [lia|lia|lia|done|done].
  - lia.
Qed.

(** What the loader leaves alone while it writes a line. *)
Definition same_but_text (b b' : boot) : Prop :=
  bdsk b' = bdsk b /\ mmap_length b' = mmap_length b /\ mmap_addr b' = mmap_addr b /\ 0 <= row b' <= 25.
Lemma putline_wp p l bl b : mem_ok (bmem b) -> text_at screen (bmem b) blank bl -> text_at screen (bmem b) p l -> 0 <= row b <= 25 ->
  wp (putline p) (fun _ b' => same_but_text b b' /\ mem_ok (bmem b') /\ agree screen (bmem b) (bmem b')) b.
Proof.
  intros Hm Hb Hp Hrow. unfold putline. do 4 wp_step. cbn [row set_row bmem lget l_bmem].
  assert (Hr : 0 <= (if CRT_ROWS <=? row b then 0 else row b + 1) <= 25) by (unfold CRT_ROWS; destruct (Z.leb_spec 25 (row b)); lia).
  set (r := if CRT_ROWS <=? row b then 0 else row b + 1) in *. wp_step. wp_step. eapply wp_mono; [eapply puts_wp; [exact Hm|exact Hb|lia]|]. intros ? m1 [M1 A1].
  do 2 wp_step. eapply wp_mono; [eapply puts_wp; [exact M1|eapply (text_agree screen screen (bmem b)); [done|exact A1|exact Hp]|lia]|]. intros ? m2 [M2 A2]. wp_step.
  split; [split_and!; [done|done|done|cbn; lia|cbn; lia]|]. split; [exact M2|]. exact (agree_trans screen (bmem b) m1 m2 A1 A2).
Qed.

(** A string that is known by its characters only. *)
Definition word_at (m : mem) (s n : Z) : Prop := (forall k, 0 <= k < n -> load8 m (s + k) <> 0) /\ load8 m (s + n) = 0.
Lemma word_cstr m s n : mem_ok m -> 0 <= s -> 0 <= n -> s + n + 1 < W32 -> word_at m s n -> cstr m s (read_bytes m s n).
Proof.
  intros Hm Hs Hn Hw [Hc He]. split; rewrite ?read_bytes_length.
  - lia.
  - intros i x Hi. pose proof (lookup_lt_Some _ _ _ Hi) as Hlt. rewrite read_bytes_length in Hlt. apply list_lookup_total_correct in Hi.
    rewrite <- (Nat2Z.id i) in Hi. by rewrite (read_bytes_lookup m s n (Z.of_nat i)) in Hi by lia.
  - intros x. unfold read_bytes. rewrite list_elem_of_fmap. intros (k & -> & Hk%elem_of_seqZ). apply Hc. lia.
  - by replace (Z.of_nat (Z.to_nat n)) with n by lia.
Qed.
Lemma boot_strlen_wp m s n : 0 <= s -> 0 <= n -> s + n + 1 < W32 -> word_at m s n -> wp (boot_strlen s) (fun r m' => r = n /\ m' = m) m.
Proof.
  intros Hs Hn Hw [Hc He]. unfold boot_strlen.
  eapply (wp_while _ (fun '(q, k) m' => 0 <= k <= n /\ q = s + k /\ m' = m) (fun '(_, k) _ => n - k)); [|split_and!; [lia|lia|lia|done]|unfold W32 in *; lia].
  intros [q k] m' (Hk & -> & ->) _. wp_step. unfold ld. wp_step. destruct (decide (k = n)) as [->|Hne].
  - rewrite He. cbn [Z.eqb negb]. by wp_step.
  - rewrite (proj2 (Z.eqb_neq _ 0)) by (apply Hc; lia). cbn [negb]. wp_step. rewrite u32_small by lia. split; [|lia]. split_and!; [lia|lia|lia|done].
Qed.
(** The bytes of the buffer of a number. *)
Definition buffer (s a : Z) : Prop := s <= a < s + 40.
Lemma reverse_wp m s n : mem_ok m -> 0 <= s -> 0 <= n < 40 -> s + n + 1 < W32 -> word_at m s n ->
  wp (reverse s) (fun _ m' => mem_ok m' /\ word_at m' s n /\ agree (buffer s) m m') m.
Proof.
  intros Hm Hs Hn Hw Hwd. unfold reverse. wp_step. eapply wp_mono; [apply (boot_strlen_wp m s n); [done|lia|done|done]|]. intros r m' [-> ->].
  eapply (wp_while _ (fun '(i, j) m' => 0 <= i /\ j < n /\ mem_ok m' /\ word_at m' s n /\ agree (buffer s) m m') (fun '(i, j) _ => Z.max 0 (j - i + 1))); [| |lia].
  - intros [i j] m1 (Hi & Hj & Hm1 & [Hc He] & Ha) _. destruct (Z.ltb_spec i j) as [Hlt|Hge]; [|by wp_step].
    wp_step. unfold ld. do 3 wp_step. unfold st8. do 4 wp_step. wp_step. split; [|lia]. split_and!; [lia|lia|by do 2 apply mem_ok_store8|split|].
    + intros k Hk. destruct (decide (k = j)) as [->|]; [rewrite load8_store8_same, Z.mod_small by apply Hm1; apply Hc; lia|]. rewrite load8_store8_ne by lia.
      destruct (decide (k = i)) as [->|]; [rewrite load8_store8_same, Z.mod_small by apply Hm1; apply Hc; lia|]. rewrite load8_store8_ne by lia. by apply Hc.
    + rewrite !load8_store8_ne by lia. done.
    + intros a Hna. unfold buffer in *. rewrite !load8_store8_ne by lia. by apply Ha.
  - by split_and!; [lia|lia|..].
Qed.

(** The digits of a number below 16 ^ [d]. *)
Lemma itoh_wp n s m : mem_ok m -> -2147483648 < n < 2147483648 -> 0 <= s -> s + 41 < W32 ->
  (forall d, 0 <= d < 16 -> load8 m (hex_table + d) <> 0 /\ ~ buffer s (hex_table + d)) ->
  wp (itoh n s) (fun _ m' => mem_ok m' /\ agree (buffer s) m m' /\ exists k, 0 <= k < 40 /\ word_at m' s k) m.
Proof.
  intros Hm Hn Hs Hw Ht. unfold itoh, itox. wp_step. wp_step. wp_step.
  eapply wp_mono; [eapply (wp_while _ (fun '(i, x) m' => 0 <= i < 8 /\ 0 <= x < 16 ^ (8 - i) /\ mem_ok m' /\ agree (buffer s) m m' /\ forall k, 0 <= k < i -> load8 m' (s + k) <> 0)
     (fun '(i, _) _ => 8 - i) (fun i m' => 0 <= i <= 8 /\ mem_ok m' /\ agree (buffer s) m m' /\ forall k, 0 <= k < i -> load8 m' (s + k) <> 0))|].
  - intros [i x] m1 (Hi & Hx & Hm1 & Ha & Hc) _. wp_step. unfold ld. wp_step. pose proof (Z.mod_pos_bound x 16 ltac:(lia)) as Hd.
    destruct (Ht (x mod 16) Hd) as [Hnz Hout]. rewrite Ha by done. wp_step. unfold st8. wp_step.
    assert (Hch : forall k, 0 <= k < i + 1 -> load8 (store8 m1 (s + i) (load8 m (hex_table + x mod 16))) (s + k) <> 0).
    { intros k Hk. destruct (decide (k = i)) as [->|]; [rewrite load8_store8_same, Z.mod_small by apply Hm; done|]. rewrite load8_store8_ne by lia. apply Hc. lia. }
    assert (Hag : agree (buffer s) m (store8 m1 (s + i) (load8 m (hex_table + x mod 16)))).
    { intros a Hna. unfold buffer in *. rewrite load8_store8_ne by lia. by apply Ha. }
    destruct (Z.ltb_spec 0 (x / 16)) as [Hp|Hp]; wp_step.
    + destruct (decide (i = 7)) as [->|]; [change (16 ^ (8 - 7)) with 16 in Hx; zdiv|]. replace (8 - i) with (8 - (i + 1) + 1) in Hx by lia.
      rewrite Z.pow_add_r in Hx by lia. split; [|lia]. split_and!; [lia|lia|lia|apply Z.div_lt_upper_bound; lia|by apply mem_ok_store8|done|done].
    + split_and!; [lia|lia|by apply mem_ok_store8|done|done].
  - split_and!; [lia|lia|lia|change (16 ^ (8 - 0)) with 4294967296; lia|done|done|intros; lia].
  - lia.
  - intros i m1 (Hi & Hm1 & Ha & Hc). wp_step.
    apply (wp_mono _ (fun j m2 => 0 <= j <= 9 /\ mem_ok m2 /\ agree (buffer s) m m2 /\ forall k, 0 <= k < j -> load8 m2 (s + k) <> 0)).
    { destruct (n <? 0); [|wp_step; split_and!; [lia|lia|done..]]. wp_step. unfold st8. do 2 wp_step. split_and!; [lia|lia|by apply mem_ok_store8| |].
      - intros a Hna. unfold buffer in *. rewrite load8_store8_ne by lia. by apply Ha.
      - intros k Hk. destruct (decide (k = i)) as [->|]; [by rewrite load8_store8_same|]. rewrite load8_store8_ne by lia. apply Hc. lia. }
    intros j m2 (Hj & Hm2 & Ha2 & Hc2). wp_step. unfold st8. wp_step.
    eapply wp_mono; [apply (reverse_wp _ s j); [by apply mem_ok_store8|done|lia|lia|]|].
    { split; [|by rewrite load8_store8_same]. intros k Hk. rewrite load8_store8_ne by lia. by apply Hc2. }
    intros [] m3 (Hm3 & Hw3 & Ha3). split_and!; [done| |exists j; split; [lia|done]].
    intros a Hna. rewrite Ha3 by done. unfold buffer in *. rewrite load8_store8_ne by lia. by apply Ha2.
Qed.

(** ** The memory map of the BIOS *)

(** What the loader writes apart from the kernel. *)
Definition drawn (a : Z) : Prop := screen a \/ scratch a.
Lemma text_screen m p l : text_at drawn m p l -> text_at screen m p l.
Proof. intros (A & B & C). split_and!; [done|done|]. intros a Ha Hs. apply (C a Ha). by left. Qed.
Lemma agree_weaken (A B : Z -> Prop) m m' : (forall a, A a -> B a) -> agree A m m' -> agree B m m'.
Proof. intros Hs Ha a Hn. apply Ha. intros Hx. by apply Hn, Hs. Qed.
(** The literals that the loader prints, where it does not write itself. *)
Record literals (m : mem) : Prop := {
  lt_blank : exists l, text_at drawn m blank l;
  lt_hex d : 0 <= d < 16 -> load8 m (hex_table + d) <> 0 /\ ~ drawn (hex_table + d);
  lt_buf : 0 <= puti_str /\ puti_str + 41 < W32 /\ forall a, scratch a -> ~ screen a
}.
Lemma literals_agree m m' : agree drawn m m' -> literals m -> literals m'.
Proof.
  intros Ha [[l Hl] Hh Hb]. split; [|intros d Hd; destruct (Hh d Hd) as [H1 H2]; by rewrite Ha|done]. exists l. by eapply (text_agree drawn drawn).
Qed.
Definition drew (b b' : boot) : Prop := same_but_text b b' /\ mem_ok (bmem b') /\ agree drawn (bmem b) (bmem b').
Lemma drew_trans b b1 b2 : drew b b1 -> drew b1 b2 -> drew b b2.
Proof.
  intros ((A & B & C & _) & _ & E) ((A' & B' & C' & D) & F & G). split; [split_and!; [congruence|congruence|congruence|apply D|apply D]|]. split; [done|by eapply agree_trans].
Qed.
Lemma line_wp p l b : mem_ok (bmem b) -> literals (bmem b) -> text_at drawn (bmem b) p l -> 0 <= row b <= 25 -> wp (putline p) (fun _ b' => drew b b') b.
Proof.
  intros Hm Hl Hp Hr. destruct (lt_blank _ Hl) as [bl Hb]. eapply wp_mono; [eapply putline_wp; [done|by apply text_screen|by apply text_screen|done]|].
  intros [] b' (S & M & A). split_and!; [done|done|]. eapply agree_weaken; [|exact A]. by left.
Qed.
Lemma puti_wp i b : mem_ok (bmem b) -> literals (bmem b) -> -2147483648 < i < 2147483648 -> 0 <= row b <= 25 -> wp (puti i) (fun _ b' => drew b b') b.
Proof.
  intros Hm Hl Hi Hr. destruct (lt_buf _ Hl) as (Hb1 & Hb2 & Hb3). unfold puti. do 2 wp_step. eapply wp_mono; [apply itoh_wp; [exact Hm|done|done|done|]|].
  { intros d Hd. destruct (lt_hex _ Hl d Hd) as [Hn Ho]. split; [done|]. intros Hx. apply Ho. by right. }
  intros [] m1 (M1 & A1 & k & Hk & W1). destruct (lt_blank _ Hl) as [bl Htb]. cbn [lget l_bmem] in A1.
  eapply wp_mono; [apply (putline_wp _ (read_bytes m1 puti_str k) bl); cbn [lset l_bmem bmem row]; [done| | |done]|].
  - apply text_screen. eapply (text_agree drawn (buffer puti_str)); [by right|exact A1|exact Htb].
  - split; [apply word_cstr; [done|done|lia|lia|done]|]. rewrite read_bytes_length. split; [lia|]. intros a Ha. apply Hb3. unfold scratch. lia.
  - intros [] b2 (S2 & M2 & A2). split_and!; [exact S2|done|]. eapply agree_trans; [eapply agree_weaken; [|exact A1]; by right|].
    eapply agree_weaken; [|exact A2]. by left.
Qed.

(** The map has [n] entries; the one after them is zero. *)
Definition entry_zero (m : mem) (p : Z) : bool :=
  (load32 m (u32 (p + 4)) =? 0) && (load32 m (u32 (p + 8)) =? 0) && (load32 m (u32 (p + 12)) =? 0) && (load32 m (u32 (p + 16)) =? 0) && (load32 m (u32 (p + 20)) =? 0).
Record smap_ok (m : mem) (smap n : Z) : Prop := {
  sm_fits : 0 <= smap /\ 0 <= n /\ smap + 24 * (n + 1) < W32;
  sm_used k : 0 <= k < n -> entry_zero m (smap + 24 * k) = false /\ load32 m (u32 (smap + 24 * k + 4)) <> 2147483648;
  sm_end : entry_zero m (smap + 24 * n) = true;
  sm_out a : smap <= a < smap + 24 * (n + 1) -> ~ drawn a
}.
Lemma smap_agree m m' smap n : agree drawn m m' -> smap_ok m smap n -> smap_ok m' smap n.
Proof.
  intros Ha [(Hs & Hn & Hw) Hu He Ho].
  assert (Hld : forall k o, 0 <= k <= n -> 0 <= o <= 20 -> load32 m' (u32 (smap + 24 * k + o)) = load32 m (u32 (smap + 24 * k + o))).
  { intros k o Hk Hok. rewrite u32_small by lia. apply load32_ext. intros a Hr. apply Ha, Ho. lia. }
  assert (Hz : forall k, 0 <= k <= n -> entry_zero m' (smap + 24 * k) = entry_zero m (smap + 24 * k)) by (intros k Hk; unfold entry_zero; by rewrite !Hld by lia).
  split; [done| |by rewrite Hz by lia|done]. intros k Hk. rewrite Hz, Hld by lia. by apply Hu.
Qed.
Lemma parse_e820_wp smap n b l : mem_ok (bmem b) -> literals (bmem b) -> text_at drawn (bmem b) m_e820 l -> smap_ok (bmem b) smap n -> 0 <= row b <= 25 ->
  wp (parse_e820 smap) (fun r b' => r = mboot_info /\ bdsk b' = bdsk b /\ mmap_length b' = 24 * n /\ mmap_addr b' = smap /\ 0 <= row b' <= 25 /\
    mem_ok (bmem b') /\ agree drawn (bmem b) (bmem b')) b.
Proof.
  intros Hm Hl Ht [(Hs & Hn & Hw) Hu He Ho] Hr. unfold parse_e820. wp_step. eapply wp_mono; [by eapply line_wp|]. intros [] b1 D1. wp_step.
  eapply (wp_while _ (fun '(p, len) b' => exists k, 0 <= k <= n /\ p = smap + 24 * k /\ len = 24 * k /\ drew b b') (fun '(p, _) _ => smap + 24 * n - p)).
  - intros [p len] b2 (k & Hk & -> & -> & D2) _. pose proof D2 as (S2 & M2 & A2). unfold bld32, smap_base, smap_length, smap_type. do 10 wp_step.
    assert (Hld : forall o, 0 <= o <= 20 -> load32 (bmem b2) (u32 (smap + 24 * k + o)) = load32 (bmem b) (u32 (smap + 24 * k + o))).
    { intros o Hok. rewrite u32_small by lia. apply load32_ext. intros a Ha. apply A2, Ho. lia. }
    rewrite <- !Z.add_assoc. change (4 + 4) with 8. change (12 + 4) with 16. rewrite !Z.add_assoc, !Hld by lia.
    rewrite <- !negb_andb. fold (entry_zero (bmem b) (smap + 24 * k)). destruct (decide (k = n)) as [->|Hne].
    + rewrite He. cbn [negb]. wp_step. do 2 wp_step. destruct S2 as (E1 & _ & _ & E4). split_and!; try done; apply E4.
    + destruct (Hu k ltac:(lia)) as [-> Hb]. cbn [negb]. wp_step. eapply wp_mono; [apply puti_wp; [done|by eapply literals_agree| |apply S2]|].
      { pose proof (load32_range (bmem b) (u32 (smap + 24 * k + 4)) Hm) as Hrg. unfold is_u32, s32, W32 in *. rewrite (u32_small (load32 _ _)) by (unfold W32; lia). destruct (Z.ltb_spec (load32 (bmem b) (u32 (smap + 24 * k + 4))) 2147483648); lia. }
      intros [] b3 D3. wp_step. unfold sizeof_smap. rewrite !u32_small by (unfold W32 in *; lia). split; [|lia]. exists (k + 1). split_and!; [lia|lia|lia|lia|by eapply drew_trans].
  - exists 0. split_and!; [lia|lia|lia|lia|done].
  - unfold W32 in *. lia.
Qed.

(** ** All of it *)

(** The partition to boot from is the first that is marked. *)
Definition partition_at (m : mem) (mbr i lba : Z) : Prop :=
  0 <= i < 4 /\ (forall j, 0 <= j < i -> load8 m (bootable mbr j) <> BOOTABLE_PARTITION) /\ load8 m (bootable mbr i) = BOOTABLE_PARTITION /\
  load32 m (first_lba mbr i) = lba /\ 0 <= mbr /\ mbr + 512 < W32 /\ (forall a, mbr <= a < mbr + 512 -> ~ drawn a).
Lemma find_partition_wp mbr i lba b m : partition_at m mbr i lba -> agree drawn m (bmem b) ->
  wp (while (fun i =>
        if i <? 4 then
          b ← bld8 (bootable mbr i);
          if b =? BOOTABLE_PARTITION then lba ← bld32 (first_lba mbr i); mret (inr (Some lba))
          else mret (inl (i + 1))
        else mret (inr None)) 0) (fun r b' => r = Some lba /\ b' = b) b.
Proof.
  intros (Hi & Hb & Hbi & Hlba & H0 & Hw & Ho) Ha. unfold bootable, first_lba in *.
  eapply (wp_while _ (fun j b' => 0 <= j <= i /\ b' = b) (fun j _ => i - j)); [|split; [lia|done]|lia].
  intros j b' [Hj ->] _. rewrite (proj2 (Z.ltb_lt j 4)) by lia. wp_step. unfold bld8. wp_step. rewrite u32_small by lia. rewrite Ha by (apply Ho; lia).
  destruct (Z.eqb_spec (load8 m (mbr + 446 + 16 * j)) BOOTABLE_PARTITION) as [E|E].
  - assert (j = i) as -> by (destruct (decide (j = i)); [done|]; exfalso; apply (Hb j); [lia|done]).
    wp_step. unfold bld32. do 2 wp_step. rewrite u32_small by lia. split; [|done]. f_equal. rewrite <- Hlba. apply load32_ext. intros a Hr. apply Ha, Ho. lia.
  - wp_step. destruct (decide (j = i)) as [->|]; [done|]. split; [split; [lia|done]|lia].
Qed.

(** C14: boot1main boots from the first bootable partition: it jumps to the
    entry point of the ELF file there with the multiboot magic number and
    the address of mboot_info, whose memory map is that of the BIOS, all of
    its entries; every byte of every segment of the file is in memory at its
    address; and no byte has changed outside the screen, the buffer of puti,
    the buffer of the headers and the sectors of the segments. *)
Theorem boot1main_loads_kernel dev mbr smap b S i lba n :
  let W a := drawn a \/ kernel_area S lba a in
  mem_ok (bmem b) -> disk_ok (bdsk b) -> sectors (bdsk b) = S -> dbytes_ok S -> kernel_file S lba ->
  literals (bmem b) -> (forall p, p ∈ [blank; m_start; m_e820; m_load; m_run] -> exists l, text_at W (bmem b) p l) ->
  partition_at (bmem b) mbr i lba -> smap_ok (bmem b) smap n ->
  (forall j a, 0 <= j < ph_num S lba -> seg_range S lba j a -> ~ drawn a) ->
  wp (boot1main dev mbr smap) (fun r b' =>
    r = (MBOOT_INFO_MAGIC, mboot_info, Z.land (fword S lba 24) 16777215) /\
    mmap_length b' = 24 * n /\ mmap_addr b' = smap /\ kernel_in S lba (bmem b') /\ agree W (bmem b) (bmem b')) b.
Proof.
  intros W Hm Hd ES HS K Hlit Htx Hpart Hsm Hseg.
  assert (Htd : forall p, p ∈ [m_start; m_e820; m_load; m_run] -> exists l, text_at drawn (bmem b) p l).
  { intros p Hp. destruct (Htx p) as (l & A & B & C); [by right|]. exists l. split_and!; [done|done|]. intros a Ha Hx. apply (C a Ha). by left. }
  unfold boot1main, roll. wp_step. wp_step. wp_step. destruct (Htd m_start) as [l1 T1]; [set_solver|].
  eapply wp_mono; [apply (line_wp m_start l1); [exact Hm|exact Hlit|exact T1|cbn; lia]|]. intros [] b1 ((E1 & _ & _ & R1) & M1 & A1). cbn [bmem set_row bdsk] in *.
  wp_step. eapply wp_mono; [by eapply find_partition_wp|]. intros ? b' [-> ->]. wp_step. destruct (Htd m_e820) as [l2 T2]; [set_solver|].
  eapply wp_mono; [apply (parse_e820_wp smap n b1 l2); [done|by eapply literals_agree|by eapply (text_agree drawn drawn)|by eapply smap_agree|done]|].
  intros ? b2 (-> & E2 & Hlen & Hadr & R2 & M2 & A2). assert (A02 : agree drawn (bmem b) (bmem b2)) by (by eapply agree_trans).
  wp_step. destruct (Htd m_load) as [l3 T3]; [set_solver|].
  eapply wp_mono; [apply (line_wp m_load l3); [done|by eapply literals_agree|by eapply (text_agree drawn drawn)|done]|]. intros [] b3 ((E3 & Hl3 & Ha3 & R3) & M3 & A3).
  assert (Ed : bdsk b3 = bdsk b) by congruence. wp_step. eapply wp_mono; [apply (load_kernel_wp S); [by rewrite Ed|by rewrite Ed|done|done]|].
  intros entry b4 (-> & (_ & _ & R4 & Hl4 & Ha4) & M4 & K4 & A4). specialize (M4 M3).
  assert (A04 : agree W (bmem b) (bmem b4)).
  { eapply agree_trans; [eapply agree_weaken; [|by eapply agree_trans]; by left|]. eapply agree_weaken; [|exact A4]. by right. }
  assert (Htw : forall p, p ∈ [blank; m_run] -> exists l, text_at screen (bmem b4) p l).
  { intros p Hp. destruct (Htx p) as [l Hl]; [set_solver|]. exists l. destruct (text_agree W W _ _ p l (fun _ x => x) A04 Hl) as (A & B & C).
    split_and!; [done|done|]. intros a Ha Hx. apply (C a Ha). by left; left. }
  destruct (Htw blank) as [lb Tb]; [set_solver|]. destruct (Htw m_run) as [lr Tr]; [set_solver|]. wp_step.
  eapply wp_mono; [eapply putline_wp; [done|exact Tb|exact Tr|by rewrite R4]|]. intros [] b5 ((_ & Hl5 & Ha5 & _) & _ & A5). unfold exec_kernel. wp_step.
  split_and!; [done|congruence|congruence| |].
  - intros j k Hj Hk. rewrite A5; [by apply K4|]. intros Hs. apply (Hseg j (seg_va S lba j + k) Hj); [by apply seg_in_range|by left].
  - eapply agree_trans; [exact A04|]. eapply agree_weaken; [|exact A5]. by left; left.
Qed.
End load.

(** ** A disk and a machine for the example: one segment of 20 bytes *)
#[local] Instance demo_boot_layout : boot_layout := BootLayout 40000 40100 40200 40300 40400 41000 41100 41200 41300 41400 41500.
Definition demo_spaces : list Z := replicate 80 32.
Definition demo_start : list Z := [83; 116; 97; 114; 116; 32; 98; 111; 111; 116; 49].
Definition demo_hex : list Z := [48; 49; 50; 51; 52; 53; 54; 55; 56; 57; 97; 98; 99; 100; 101; 102].
Definition demo_mbr : list Z := replicate 462 0 ++ [128; 0; 0; 0; 131; 0; 0; 0; 10; 0; 0; 0; 64; 0; 0; 0].
Definition demo_smap : list Z := [20; 0; 0; 0; 0; 0; 0; 0; 0; 0; 0; 0; 0; 252; 9; 0; 0; 0; 0; 0; 1; 0; 0; 0] ++
  [20; 0; 0; 0; 0; 0; 16; 0; 0; 0; 0; 0; 0; 0; 0; 8; 0; 0; 0; 0; 1; 0; 0; 0].
Definition demo_elf : list Z :=
  [127; 69; 76; 70] ++ replicate 12 0 ++ [2; 0; 3; 0; 1; 0; 0; 0; 16; 0; 16; 0; 52; 0; 0; 0] ++ replicate 8 0 ++ [52; 0; 32; 0; 1; 0] ++ replicate 6 0 ++
  [1; 0; 0; 0; 0; 16; 0; 0; 0; 0; 16; 0; 0; 0; 16; 0; 20; 0; 0; 0; 20; 0; 0; 0; 5; 0; 0; 0; 0; 16; 0; 0].
Definition demo_code : list Z := [250; 252; 1; 2; 3; 4; 5; 6; 7; 8; 9; 10; 11; 12; 13; 14; 15; 16; 17; 244].
Definition demo_sectors : gmap (Z * Z) mem := <[(0, 10) := write_bytes ∅ 0 demo_elf]> (<[(0, 18) := write_bytes ∅ 0 demo_code]> ∅).
Definition demo_boot_mem : mem :=
  write_bytes (write_bytes (write_bytes (write_bytes (write_bytes ∅ 40000 demo_spaces) 40300 demo_hex) 41000 demo_start) 31744 demo_mbr) 45056 demo_smap.
Definition demo_boot : boot := Boot demo_boot_mem (Disk demo_sectors ∅ ∅ 3 2 []) 0 0 0.

Lemma demo_sectors_ok : dbytes_ok demo_sectors.
Proof.
  intros k. unfold dbyte, demo_sectors. destruct (decide ((0, 10) = (0, k / 512))) as [<-|N]; [rewrite lookup_total_insert_eq; by apply mem_ok_write_bytes, mem_ok_empty|].
  rewrite lookup_total_insert_ne by done. destruct (decide ((0, 18) = (0, k / 512))) as [<-|N2]; [rewrite lookup_total_insert_eq; by apply mem_ok_write_bytes, mem_ok_empty|].
  rewrite lookup_total_insert_ne by done. apply (mem_ok_empty (k mod 512)).
Qed.
(** The segment of the file. *)
Lemma demo_segment : ph_num demo_sectors 10 = 1 /\ seg_va demo_sectors 10 0 = 1048576 /\ seg_off demo_sectors 10 0 = 4096 /\ seg_size demo_sectors 10 0 = 20.
Proof. vm_compute. done. Qed.
Lemma demo_range i a : 0 <= i < ph_num demo_sectors 10 -> seg_range demo_sectors 10 i a -> 1048576 <= a < 1049088.
Proof.
  destruct demo_segment as (-> & E1 & E2 & E3). intros Hi. assert (i = 0) as -> by lia. unfold seg_range. rewrite E1, E3.
  change (rd 1048576) with 1048576. change (span 1048576 20) with 512. lia.
Qed.
Lemma demo_kernel_file : kernel_file demo_sectors 10.
Proof.
  pose proof demo_segment as (E0 & E1 & E2 & E3). split.
  - lia.
  - by vm_compute.
  - by vm_compute.
  - intros i Hi. rewrite E0 in Hi. assert (i = 0) as -> by lia. by rewrite E1, E2.
  - intros i Hi. rewrite E0 in Hi. assert (i = 0) as -> by lia. by rewrite E1, E3.
  - intros i Hi. rewrite E0 in Hi. assert (i = 0) as -> by lia. by rewrite E2, E3.
  - intros i a Hi Ha. pose proof (demo_range i a Hi Ha). unfold ELFHDR. lia.
  - intros i j a Hij Hj. lia.
Qed.
Lemma demo_drawn a : drawn a -> 753664 <= a < 761664 \/ 40100 <= a < 40140.
Proof. done. Qed.
Lemma demo_written a : drawn a \/ kernel_area demo_sectors 10 a -> 40100 <= a < 40140 \/ 131072 <= a.
Proof.
  intros [Ha%demo_drawn|[Ha|(i & Hi & Ha)]]; [lia|unfold ELFHDR in *; lia|]. pose proof (demo_range i a Hi Ha). lia.
Qed.
(** The texts, decided by evaluation. *)
Definition text_check (m : mem) (p : Z) (l : list Z) : bool :=
  bool_decide (read_bytes m p (Z.of_nat (length l)) = l) && forallb (fun x => negb (x =? 0)) l && (load8 m (p + Z.of_nat (length l)) =? 0).
Lemma text_check_ok (A : Z -> Prop) m p l : text_check m p l = true -> 0 <= p < 65536 -> (length l <= 100)%nat -> (forall a, p <= a <= p + Z.of_nat (length l) -> ~ A a) -> text_at A m p l.
Proof.
  unfold text_check. intros [[H1%bool_decide_eq_true_1 H2]%andb_true_iff H3]%andb_true_iff Hp Hl Ha. split; [|done]. split.
  - unfold W32. lia.
  - intros i x Hi. pose proof (lookup_lt_Some _ _ _ Hi). rewrite <- H1 in Hi. apply list_lookup_total_correct in Hi.
    rewrite <- (Nat2Z.id i) in Hi. by rewrite (read_bytes_lookup m p _ (Z.of_nat i)) in Hi by lia.
  - intros x Hx. rewrite forallb_forall in H2. apply list_elem_of_In, H2 in Hx. lia.
  - lia.
Qed.
Lemma demo_texts p : p ∈ [blank; m_start; m_e820; m_load; m_run] -> exists l, text_at (fun a => drawn a \/ kernel_area demo_sectors 10 a) demo_boot_mem p l.
Proof.
  intros Hp. assert (Hc : exists l, text_check demo_boot_mem p l = true /\ (length l <= 100)%nat /\ (p + Z.of_nat (length l) < 40100 \/ 40140 <= p) /\ 0 <= p < 42000).
  { repeat (apply elem_of_cons in Hp as [->|Hp]); [exists demo_spaces|exists demo_start|exists []|exists []|exists []|by apply elem_of_nil in Hp]; (split; [by vm_compute|cbn; lia]). }
  destruct Hc as (l & Hc & Hl & Ho & Hr). exists l. apply text_check_ok; [done|lia|done|]. intros a Ha [Hd|Hd]%demo_written; lia.
Qed.
Lemma demo_literals : literals demo_boot_mem.
Proof.
  split.
  - destruct (demo_texts blank) as (l & A & B & C); [set_solver|]. exists l. split_and!; [done|done|]. intros a Ha Hd. apply (C a Ha). by left.
  - intros d Hd. split; [|intros Hx%demo_drawn; cbn in Hx; lia].
    assert (Hf : forallb (fun d => negb (load8 demo_boot_mem (40300 + d) =? 0)) (seqZ 0 16) = true) by (vm_compute; reflexivity).
    rewrite forallb_forall in Hf. specialize (Hf d). rewrite <- list_elem_of_In, elem_of_seqZ in Hf. specialize (Hf ltac:(lia)). change hex_table with 40300. lia.
  - change puti_str with 40100. unfold W32, scratch, screen, video. change puti_str with 40100. split_and!; [lia|lia|intros a; lia].
Qed.
Lemma demo_smap_ok : smap_ok demo_boot_mem 45056 2.
Proof.
  split.
  - unfold W32. lia.
  - assert (Hf : forallb (fun k => negb (entry_zero demo_boot_mem (45056 + 24 * k)) && negb (load32 demo_boot_mem (u32 (45056 + 24 * k + 4)) =? 2147483648)) (seqZ 0 2) = true) by (vm_compute; reflexivity).
    rewrite forallb_forall in Hf. intros k Hk. specialize (Hf k). rewrite <- list_elem_of_In, elem_of_seqZ in Hf. specialize (Hf ltac:(lia)).
    apply andb_true_iff in Hf as [H1%negb_true_iff H2]. split; [done|lia].
  - by vm_compute.
  - intros a Ha Hd%demo_drawn. lia.
Qed.
Lemma demo_partition : partition_at demo_boot_mem 31744 1 10.
Proof.
  assert (E0 : load8 demo_boot_mem (bootable 31744 0) = 0) by (vm_compute; reflexivity).
  assert (E1 : load8 demo_boot_mem (bootable 31744 1) = BOOTABLE_PARTITION) by (vm_compute; reflexivity).
  assert (E2 : load32 demo_boot_mem (first_lba 31744 1) = 10) by (vm_compute; reflexivity).
  refine (conj _ (conj _ (conj E1 (conj E2 (conj _ (conj eq_refl _)))))).
  - lia.
  - intros j Hj. assert (j = 0) as -> by lia. by rewrite E0.
  - lia.
  - intros a Ha Hd%demo_drawn. lia.
Qed.
Lemma boot1main_loads_kernel_witness :
  kernel_file demo_sectors 10 /\
  wp (boot1main 128 31744 45056) (fun r b' =>
    r = (MBOOT_INFO_MAGIC, mboot_info, Z.land (fword demo_sectors 10 24) 16777215) /\
    mmap_length b' = 24 * 2 /\ mmap_addr b' = 45056 /\ kernel_in demo_sectors 10 (bmem b') /\
    agree (fun a => drawn a \/ kernel_area demo_sectors 10 a) (bmem demo_boot) (bmem b')) demo_boot.
Proof.
  refine (conj demo_kernel_file _). apply (boot1main_loads_kernel 128 31744 45056 demo_boot demo_sectors 1 10 2).
  - repeat apply mem_ok_write_bytes. apply mem_ok_empty.
  - split; unfold W32; cbn; lia.
  - reflexivity.
  - exact demo_sectors_ok.
  - exact demo_kernel_file.
  - exact demo_literals.
  - exact demo_texts.
  - exact demo_partition.
  - exact demo_smap_ok.
  - intros j a Hj Ha Hd%demo_drawn. pose proof (demo_range j a Hj Ha). lia.
Defined.
